(* ===== verification/_CoqProject ===== *)
-Q . S2P
Prelude.v
GoTime.v
Utils.v
Common.v
Errors.v
OpContext.v
Db.v
Crud.v
FilterParser.v
FilterRoundtrip.v
GormFilter.v
GormDB.v
PoolData.v
Pool.v
GormMem.v
GormJoin.v
PoolInv.v
PoolStore.v
Pubsub.v
PoolPubsub.v
PubsubDelivery.v
PubsubDemo.v
Access.v
Auth.v
Crypt.v
AuthParams.v
Cache.v
Session.v
Http.v
Sms.v
SmsProviders.v
Users.v
AuthWorld.v
AuthMethods.v
AuthToken.v
AuthSms.v
AuthSmsCode.v
AuthSmsSend.v
Signature.v
AuthFactory.v
AuthDemo.v
AuthSmsDemo.v
Customer.v
TenancyData.v
Tenancy.v
TenancyInv.v
TenancyEffects.v
TenancyReach.v
TenancyDemo.v
ApiResource.v
ApiPaths.v
ApiRoutes.v
ApiClone.v
ApiReach.v
Server.v
ServerRequest.v
ServerBuild.v
ServerRoutes.v
ServerDemo.v
ApiRequest.v
PoolService.v
PoolApi.v
PoolServer.v
PoolServerDemo.v
Config.v
ConfigArgs.v
ConfigLoad.v
ConfigDemo.v
RestClient.v
ClientRequests.v
ClientLogin.v
ClientDemo.v
PoolClient.v
PoolClientPaths.v
PoolClientApi.v
PoolWire.v
PoolClientDemo.v
Pubkey.v
SignatureDemo.v
