(* ===== verification/Prelude.v ===== *)
(** * go-backend-helpers: a development of its core

    The repository is a library for backends in Go: operation contexts, a database layer with
    filters and CRUD, pools of services, access control, and the authorization of requests.  This
    development translates that code into executable definitions and proves what its parts
    promise.  It is organised like the repository:

    - Prelude: the state monad [M], its weakest precondition [wp], lenses between the state of
      a part and that of the whole, strings, options.
    - GoTime, Utils: the calendar of Go's [time]; pkg/utils.
    - Common, Errors, OpContext: pkg/common, pkg/generic_error, pkg/op_context (with pkg/oplog).
      [OpContext.St] is the state of an operation: the trace of calls, the rest of the context
      ([Op]: generic error, operation log, error manager) and the data of the domain.  Every
      operation of the code that takes a [ctx] is a computation in [M (St P X)], written with
      [traced] where the code calls [TraceInMethod] and defers [TraceOutMethod].
      [OpContext.spec] is the precondition calculus of these computations and [spec_go] its
      automation.
    - Db, Crud: pkg/db (fields, filters, the interface of a database as the class [Engine] with
      its promises [EngineOk], and an instance in memory) and pkg/crud (every operation of
      [DbCRUD], and what each does to a table).
    - FilterParser, FilterRoundtrip: pkg/db/db_gorm, the models and the parser of the filters
      clients send.  GormFilter, GormDB: the statements the code builds for GORM (classes
      [GormFilter.Gorm] and [GormFilter.GormOk]: what GORM and the database make of them), and the
      methods of [GormDB], which implement [Db.Engine].  GormMem: a GORM in memory, with the table
      of the pools.  GormJoin: the queries that join tables.
    - PoolData, Pool, PoolInv, PoolStore: pkg/pool: the tables, the controller, the integrity
      of the tables in every reachable state, the store of loaded pools.
    - Access: pkg/access_control: masks, HTTP methods, the search for a rule.
    - Auth: pkg/auth: users, the parameters of requests, handlers, schemas that aggregate
      handlers, the manager, endpoints, the dispatch of a request.
    - Crypt, AuthParams, Cache: base 64, hashes, HMAC, the AEAD cipher; encrypted parameters
      (interface [AuthParameterEncryption], implemented by [AuthParameterEncryptionBase]);
      pkg/cache.
    - Session, Users: auth/auth_session and pkg/user: every operation of the controllers.
    - Http: pkg/http_request, the escaping of queries by [net/url], and the interface of a
      transport.  Sms: pkg/sms, the messages and their manager, with what a provider promises
      ([Sms.SmsManagerBase.ProviderOk]).  SmsProviders: the providers, which keep the promises.
    - AuthWorld: the state of the authorization of requests, with what the operations on sessions
      and users do to it.  AuthMethods, AuthToken, AuthSms: the handlers of auth/auth_methods.
      AuthSmsCode, AuthSmsSend: what confirmations by SMS do, with a code and without one.
      AuthFactory: the methods a configuration can name.  AuthDemo, AuthSmsDemo: a concrete
      server to which the theorems are applied.
    - Customer: pkg/customer, a user with two columns more; the operations of users are those
      of Users at this type (classes [Users.UserRow], [Users.UserRowOk]).
    - TenancyData, Tenancy: pkg/multitenancy: tenancies, the databases they connect to, the
      manager of the loaded ones, the controller, and the publisher of pkg/pubsub/pool_pubsub.
      TenancyInv: what each operation does to databases and connections.  TenancyEffects: what
      each change does to rows, logs and notifications.  TenancyReach: the loaded tenancies in
      every reachable state.  TenancyDemo: a concrete application.
    - ApiResource: pkg/api: the tree of resources as a heap, operations, copies.  ApiPaths: what
      the tree keeps ([ApiPaths.inv]) and that every change keeps it.  ApiRoutes: the paths of a
      resource and of a request.  ApiClone: copies of chains and the resources of clients.
      ApiReach: the paths in every reachable tree, links, a concrete tree.
    - Server: pkg/api/api_server and its REST server: endpoints, requests, responses, the
      handler of requests ([Server.requestHandler]).  ServerRequest: what a request goes
      through.  ServerBuild: routes, and the library's services of statuses and authorization.
      ServerRoutes: the routes of a service.  ServerDemo: a server with tenancies, to which the
      theorems are applied.
    - ApiRequest: commands and filters of requests, as endpoints read them, and pkg/validator (that
      mapstructure refuses keys that are not fields is the class [ApiRequest.MapDecoderOk]).
      PoolService: pkg/pool/pool_api/pool_service: the endpoints of pools and their resources.
      PoolApi: an endpoint does what the call of the controller it is asked for does.  PoolServer:
      the tables behind a server.  PoolServerDemo: a server of pools.
    - Pubsub, PoolPubsub: pkg/pubsub: topics and their clients, subscribers, the bus in memory and
      Redis, the factory, and the publishers and subscribers of pools.  PubsubDelivery: who is given
      what is published.  PubsubDemo: two services on one bus.
    - Config: pkg/config: the arguments of command lines and configuration files that extend and
      include others; Viper is the class [Config.Viper].  ConfigArgs: what arguments set.
      ConfigLoad: when loading a file ends.  ConfigDemo: settings as lists, and files.
    - RestClient: pkg/api/api_client: the requests of clients, their tokens, login, and the clients
      that log in again.  ClientRequests: what one request of a client does.  ClientLogin: a client
      and the login handler of a server.  ClientDemo: a client and a server.
    - PoolClient: pkg/pool/pool_api/pool_client.  PoolClientPaths: the resources of its requests.
      PoolClientApi: the protocol of the calls, which the client follows.  PoolWire: the routes of the
      service, the formats of commands (class [PoolWire.Wire]: what the client writes the server
      reads), and a call of the client at the controller of the server.  PoolClientDemo: the client at the server of PoolServerDemo.
    - Signature: pkg/signature and the RSA part of pkg/crypt_utils: the manager that checks signed
      requests and keeps their signatures.  Pubkey: signature/user_pubkey, the keys of users, with
      the transaction a key is added in: the calls go through it when the context has it.
      SignatureDemo: a signed request and a key that is replaced.

    How the code is represented.  A Go function with results [(T, error)] returns a pair; [nil]
    errors are [None].  A handler keeps the order of its calls, its early returns and what it
    records in the trace; [traced_exit] is the deferred [onExit] that records the variable [err].
    Objects given by pointer are passed and returned; where two pointers to one object matter
    (slices in Common, maps of errors in Errors, call contexts in OpContext) the store is
    explicit.  Times are nanoseconds as integers, [int] and [int64] arithmetic that can overflow
    goes through [int64].  Columns of a database hold values of their types, not NULL.  Clock and
    random source are functions of a counter ([Utils.Env]): theorems hold for any clock.  A database answers its [n]-th query as it likes within
    [EngineOk]: any query may fail.  Logger fields are output and are left out.

    What the theorems show.
    - Requests: who is authenticated by a token, by a login, by an HMAC, and who is refused
      ([AuthToken.check_token_sound], [AuthMethods.LoginHandler.login_checks], ...); a logout
      revokes every token of its session; who logs in gets access; how schemas combine handlers
      and which handler judges a request.
    - Confirmations by SMS: a code confirms only the request it was sent for
      ([AuthSmsCode.sms_confirms]); the number of guesses that are answered is bounded by the
      messages sent ([AuthSmsSend.sms_guesses_bounded]); what a message leaves in the database
      and which provider it goes to.
    - Round trips: encrypted parameters, cached objects, queries, filters, base 64, identifiers, dates, numbers.
    - Filters: what clients can filter by ([FilterParser.parse_checks]), which rows a filter selects
      ([GormDB.find_filter]), and that the methods over GORM are the database everything else is
      proved against ([GormDB.gorm_engine_ok]).
    - Data: the integrity of pools in every reachable state, the effect of every change of
      pools, users and sessions, failures included.
    - Tenancies: a loaded tenancy is connected to a database that is its own and to no other, in
      every state requests, notifications and other applications lead to
      ([TenancyReach.tenancies_isolated]); connections do not leak; the effect of every change.
      The database servers and the publishers are functions of all they were asked before
      ([TenancyData.DbServers], [TenancyData.PoolPublishers]).  A notification is delivered as a
      step of its own, at any time later.  Each operation is one step: the locks of the manager
      are not modelled.
    - Resources: in every tree that is built, changed and copied, each resource keeps the paths
      of its chain ([ApiReach.resource_paths]); the path of a request is the one the server
      would fill in; a client reaches the resource it names.
    - Server: a request reaches the handler of its endpoint only through its tenancy, the
      anti-CSRF handler and the authorization, works in the database of its own tenancy, and is
      answered once ([ServerRequest.request_outcome], [ServerRequest.request_in_own_tenancy]);
      services get the routes of their trees ([ServerRoutes.AddService_routes]).
    - The service of pools: a request is a call of the controller or a refusal that touches nothing
      ([PoolApi.endpoint_runs_call]); whatever is requested, the tables keep their integrity, since the
      validation of updates keeps identifiers out of them ([PoolServer.served_integrity]).
    - Messages: a topic that is subscribed at a pool is given what is published there, and nobody
      else is ([PubsubDelivery.publish_reaches]).
    - Clients: an operation of a client is one request and its answer ([ClientRequests.Exec_outcome]);
      a login succeeds exactly with the password the server has ([ClientLogin.client_server_login]).
    - The client of pools: a call by ID is one request of the protocol ([PoolClientApi.client_requests]),
      and the endpoint that gets this request makes the same call of the controller of the server
      ([PoolWire.call_reaches_controller]).
    - Signatures: a request that passes is signed by its user
      ([Signature.SignatureManagerBase.signature_checks]); a user has one active key at most
      ([Pubkey.reachable_one_active]).
    - Configurations: what arguments set has the type their names say ([ConfigArgs.LoadArgs_typed]);
      the loading of files ends unless they refer to each other in a circle
      ([ConfigLoad.LoadFile_ends]).
    - Reports: the log of a failed operation, the status of an error.
    Lemmas without a number are the library: [spec_f] says what [f] does.

    Fuel: the walks in the tree of resources take the number of resources and one
    ([ApiResource.Resource.fuel]); in a tree no walk is longer ([ApiPaths.fits_acyclic]), and more
    fuel changes nothing ([ApiPaths.parents_fuel], [ApiRoutes.build_path_fuel]).  The loading of files
    takes one unit per file of a chain: without a circle some fuel is enough, and more changes
    nothing ([ConfigLoad.LoadFile_ends]).  The check of a response by a client that logs in again takes
    one unit per request within a request; without any it reports [Endless], which no theorem counts
    as a result ([RestClient.checkResponse]).  Every other definition is structural.

    Not modelled: GORM, PostgreSQL, Redis, Viper, Gin, ciphers and RSA themselves (third-party: classes
    with what their documents promise); cursors, migrations and partitions of the database, the HTTP
    transport, dynamic tables, console tools, the logger and the validator (input and output,
    reflection); background workers and the goroutines that read channels (a message is a step);
    start-up of applications; of the manager of tenancies, the subscriptions it makes when the
    application starts and the cache of a tenancy; of [fmt.Sprintf], the flags of verbs
    ([AuthSms.Sprintf]); the hook of auth_sms.go that keeps the last code for tests. *)
From Stdlib Require Export ZArith Lia.
From Stdlib Require Import Ascii Sorted.
From stdpp Require Export base tactics gmap strings list fin_maps.

(** ** Scope, state monad and weakest preconditions *)

Declare Scope go_scope.
Delimit Scope go_scope with go.

(** A Go function that reads and writes the state [S] and returns [A]. *)
Definition M (S A : Type) : Type := S -> A * S.

Definition ret {S A} (a : A) : M S A := fun s => (a, s).

Definition bind {S A B} (m : M S A) (k : A -> M S B) : M S B :=
  fun s => let r := m s in k r.1 r.2.

Notation "'let*' x := m 'in' k" := (bind m (fun x => k))
  (at level 10, x name, m at level 100, k at level 200) : go_scope.
Notation "'let*' ' p := m 'in' k" := (bind m (fun x => match x with p => k end))
  (at level 10, p pattern, m at level 100, k at level 200) : go_scope.
Notation "m ;; k" := (bind m (fun _ => k)) : go_scope.
Open Scope go_scope.

Definition gets {S A} (f : S -> A) : M S A := fun s => (f s, s).
Definition modify {S} (f : S -> S) : M S unit := fun s => (tt, f s).

(** [wp m Q s]: running [m] from [s] ends with a result and a state in [Q]. *)
Definition wp {S A} (m : M S A) (Q : A -> S -> Prop) (s : S) : Prop :=
  Q (m s).1 (m s).2.

Lemma wp_ret {S A} (a : A) (Q : A -> S -> Prop) s : Q a s -> wp (ret a) Q s.
Proof. done. Qed.

Lemma wp_bind {S A B} (m : M S A) (k : A -> M S B) Q s :
  wp m (fun a s' => wp (k a) Q s') s -> wp (bind m k) Q s.
Proof. done. Qed.

Lemma wp_gets {S A} (f : S -> A) (Q : A -> S -> Prop) s : Q (f s) s -> wp (gets f) Q s.
Proof. done. Qed.

Lemma wp_modify {S} (f : S -> S) (Q : unit -> S -> Prop) s : Q tt (f s) -> wp (modify f) Q s.
Proof. done. Qed.

Lemma wp_mono {S A} (m : M S A) (P Q : A -> S -> Prop) s :
  (forall a s', P a s' -> Q a s') -> wp m P s -> wp m Q s.
Proof. unfold wp. auto. Qed.

Lemma wp_run {S A} (m : M S A) (Q : A -> S -> Prop) s : wp m Q s -> Q (m s).1 (m s).2.
Proof. done. Qed.

(** ** Lenses: a component of a larger state *)

Class Lens (S A : Type) := {
  view : S -> A;
  put : A -> S -> S;
  view_put : forall a s, view (put a s) = a;
  put_view : forall s, put (view s) s = s;
  put_put : forall a b s, put a (put b s) = put a s
}.

(** Run an action of a component inside the larger state. *)
Definition zoom {S A} `{!Lens S A} {X} (m : M A X) : M S X :=
  fun s => ((m (view s)).1, put (m (view s)).2 s).

Lemma wp_zoom {S A} `{!Lens S A} {X} (m : M A X) Q s :
  wp m (fun x a => Q x (put a s)) (view s) -> wp (zoom m) Q s.
Proof. done. Qed.

#[export] Instance lens_id {S} : Lens S S.
Proof. by refine {| view s := s; put a _ := a |}. Defined.

(** Two components of a state that do not overlap. *)
Class Disjoint_lens (S A B : Type) `{!Lens S A, !Lens S B} := {
  view_put_l : forall (b : B) (s : S), view (A := A) (put b s) = view s;
  view_put_r : forall (a : A) (s : S), view (A := B) (put a s) = view s
}.

(** The components of a pair. *)
Definition fst_lens {A B} : Lens (A * B) A.
Proof. by refine {| view := fst; put a w := (a, w.2) |}; try intros []. Defined.
Definition snd_lens {A B} : Lens (A * B) B.
Proof. by refine {| view := snd; put b w := (w.1, b) |}; try intros []. Defined.
Lemma pair_disjoint {A B} : @Disjoint_lens (A * B) A B fst_lens snd_lens.
Proof. by split. Qed.

Create HintDb go.
Create Rewrite HintDb go.
#[export] Hint Rewrite @view_put @put_view @put_put : go.
#[export] Hint Resolve wp_ret wp_gets wp_modify : go.
Arguments wp : simpl never.
Arguments bind : simpl never.
Arguments zoom : simpl never.

(** Steps through the monadic structure of a goal [wp m Q s]. *)
Ltac wp_step :=
  match goal with
  | |- wp (ret _) _ _ => apply wp_ret
  | |- wp (bind _ _) _ _ => apply wp_bind
  | |- wp (gets _) _ _ => apply wp_gets
  | |- wp (modify _) _ _ => apply wp_modify
  | |- wp (let '(_, _) := ?p in _) _ _ => destruct p
  | |- wp (match ?x with _ => _ end) _ _ => destruct x eqn:?
  end.
Ltac wp_go := repeat wp_step.

(** ** Machine integers *)

(** Two's complement wrap-around of a [w]-bit signed integer. *)
Definition wrap_s (w : Z) (z : Z) : Z :=
  (z + 2 ^ (w - 1)) `mod` 2 ^ w - 2 ^ (w - 1).
Definition int64 (z : Z) : Z := wrap_s 64 z.
Definition uint32 (z : Z) : Z := z `mod` 2 ^ 32.

Definition in_int64 (z : Z) : Prop := (- 2 ^ 63 <= z < 2 ^ 63)%Z.

Lemma int64_id z : in_int64 z -> int64 z = z.
Proof.
  unfold in_int64, int64, wrap_s. intros H.
  rewrite Z.mod_small; lia.
Qed.

Lemma int64_range z : in_int64 (int64 z).
Proof.
  unfold in_int64, int64, wrap_s.
  pose proof (Z.mod_pos_bound (z + 2 ^ (64 - 1)) (2 ^ 64) ltac:(lia)). lia.
Qed.
#[export] Hint Resolve int64_range : go.

(** ** Strings as byte sequences *)

Fixpoint str_take (n : nat) (s : string) : string :=
  match n, s with
  | S n', String c s' => String c (str_take n' s')
  | _, _ => ""
  end.

Fixpoint str_drop (n : nat) (s : string) : string :=
  match n, s with
  | S n', String _ s' => str_drop n' s'
  | _, _ => s
  end.

Fixpoint str_repeat (n : nat) (s : string) : string :=
  match n with
  | O => ""
  | S n' => s +:+ str_repeat n' s
  end.

Lemma str_app_cons c a b : String c a +:+ b = String c (a +:+ b).
Proof. done. Qed.

Lemma str_app_nil_l b : "" +:+ b = b.
Proof. done. Qed.

Lemma str_app_nil_r s : s +:+ "" = s.
Proof. induction s as [|c s IH]; [done|]. by rewrite str_app_cons, IH. Qed.

Lemma str_app_assoc a b c : (a +:+ b) +:+ c = a +:+ (b +:+ c).
Proof. induction a as [|x a IH]; [done|]. by rewrite !str_app_cons, IH. Qed.

Lemma str_length_app a b : String.length (a +:+ b) = String.length a + String.length b.
Proof. induction a as [|x a IH]; [done|]. rewrite str_app_cons. cbn. by rewrite IH. Qed.

Lemma str_take_app a b : str_take (String.length a) (a +:+ b) = a.
Proof. induction a as [|x a IH]; [by destruct b|]. rewrite str_app_cons. cbn. by rewrite IH. Qed.

Lemma str_drop_app a b : str_drop (String.length a) (a +:+ b) = b.
Proof. induction a as [|x a IH]; [done|]. apply IH. Qed.

Lemma str_take_drop n s : str_take n s +:+ str_drop n s = s.
Proof.
  revert n; induction s as [|c s IH]; intros [|n]; cbn; try done.
  by rewrite str_app_cons, IH.
Qed.

Lemma str_length_take n s : n <= String.length s -> String.length (str_take n s) = n.
Proof. revert n; induction s; intros [|n]; cbn; try lia. intros. rewrite IHs; lia. Qed.

Lemma str_length_drop n s : String.length (str_drop n s) = String.length s - n.
Proof. revert n; induction s; intros [|n]; cbn; try lia. apply IHs. Qed.

Lemma str_length_repeat n c : String.length (str_repeat n (String c "")) = n.
Proof.
  induction n as [|n IH]; cbn; [done|]. by rewrite str_app_cons, str_app_nil_l; cbn; rewrite IH.
Qed.

Create Rewrite HintDb str.
#[export] Hint Rewrite str_app_cons str_app_nil_l str_app_nil_r str_app_assoc str_length_app str_take_app str_drop_app
  str_length_drop str_length_repeat : str.

(** ** Numerals: fmt verbs and strconv *)

Definition digit_chars : list ascii :=
  ["0"; "1"; "2"; "3"; "4"; "5"; "6"; "7"; "8"; "9"; "a"; "b"; "c"; "d"; "e"; "f"]%char.

Definition digit_char (d : N) : ascii := nth (N.to_nat d) digit_chars "0"%char.

(** Value of a digit in base [b]; upper-case hexadecimal digits are accepted too. *)
Definition digit_value (b : N) (c : ascii) : option N :=
  let n := N_of_ascii c in
  let v := if ((48 <=? n) && (n <=? 57))%N then Some (n - 48)%N
           else if ((97 <=? n) && (n <=? 102))%N then Some (n - 87)%N
           else if ((65 <=? n) && (n <=? 70))%N then Some (n - 55)%N
           else None in
  match v with
  | Some d => if (d <? b)%N then Some d else None
  | None => None
  end.

Fixpoint base_go (b : N) (fuel : nat) (n : N) (acc : string) : string :=
  match fuel with
  | O => acc
  | S f =>
      let acc' := String (digit_char (n mod b)) acc in
      if (n / b =? 0)%N then acc' else base_go b f (n / b) acc'
  end.

(** Digits of [n] in base [b], most significant first, at least one digit. *)
Definition to_base (b n : N) : string := base_go b (S (N.to_nat (N.size n))) n "".

Fixpoint parse_go (b : N) (acc : N) (s : string) : option N :=
  match s with
  | "" => Some acc
  | String c s' =>
      match digit_value b c with
      | Some d => parse_go b (b * acc + d)%N s'
      | None => None
      end
  end.

(** A non-empty string of base-[b] digits. *)
Definition parse_base (b : N) (s : string) : option N :=
  match s with "" => None | _ => parse_go b 0 s end.

Definition pad_zero (w : nat) (s : string) : string :=
  str_repeat (w - String.length s) "0" +:+ s.

(** [fmt] verbs [%0wd] and [%0wx]: the sign counts in the width. *)
Definition fmt_0 (b : N) (w : nat) (z : Z) : string :=
  if (z <? 0)%Z then "-" +:+ pad_zero (w - 1) (to_base b (Z.abs_N z))
  else pad_zero w (to_base b (Z.to_N z)).
Definition fmt_0d := fmt_0 10.
Definition fmt_0x := fmt_0 16.
Definition fmt_d (z : Z) : string := fmt_0d 0 z.

Lemma digit_value_char b d :
  (b <= 16)%N -> (d < b)%N -> digit_value b (digit_char d) = Some d.
Proof.
  intros Hb Hd.
  assert (Hall : forallb (fun d => match digit_value 16 (digit_char d) with
                                   | Some d' => (d' =? d)%N | None => false end)
                   (map N.of_nat (seq 0 16)) = true) by (vm_compute; reflexivity).
  rewrite forallb_forall in Hall. specialize (Hall d).
  rewrite in_map_iff in Hall.
  assert (H16 : match digit_value 16 (digit_char d) with
                | Some d' => (d' =? d)%N | None => false end = true).
  { apply Hall. exists (N.to_nat d). rewrite in_seq, N2Nat.id. split; [done|lia]. }
  unfold digit_value in *.
  destruct (if (_ && _) then _ else _) as [v|]; [|done].
  destruct (v <? 16)%N eqn:E; [|done].
  apply N.eqb_eq in H16 as ->. by apply N.ltb_lt in Hd as ->.
Qed.

Lemma parse_base_go b fuel n s :
  (2 <= b <= 16)%N -> (n < 2 ^ N.of_nat fuel)%N ->
  parse_go b 0 (base_go b (S fuel) n s) = parse_go b n s.
Proof.
  intros Hb. revert n s. induction fuel as [|f IH]; intros n s Hn.
  - assert (n = 0)%N as -> by (cbn in Hn; lia). cbn [base_go].
    rewrite N.Div0.div_0_l, N.Div0.mod_0_l. cbn [N.eqb].
    cbn [parse_go]. rewrite digit_value_char by lia. f_equal. lia.
  - cbn [base_go]. destruct (N.eqb_spec (n / b) 0) as [E|E].
    + cbn [parse_go]. apply N.div_small_iff in E; [|lia].
      rewrite N.mod_small by done. rewrite digit_value_char by lia. f_equal. lia.
    + change (if (n / b / b =? 0)%N then ?x else ?y) with (if (n / b / b =? 0)%N then x else y).
      change (parse_go b 0 (base_go b (S f) (n / b) (String (digit_char (n mod b)) s)) = parse_go b n s).
      rewrite IH.
      * cbn [parse_go]. rewrite digit_value_char by (try lia; apply N.mod_lt; lia).
        f_equal. pose proof (N.div_mod n b). lia.
      * apply N.Div0.div_lt_upper_bound.
        replace (N.of_nat (S f)) with (N.succ (N.of_nat f)) in Hn by lia.
        rewrite N.pow_succ_r' in Hn. nia.
Qed.

Lemma parse_go_to_base b n s :
  (2 <= b <= 16)%N -> parse_go b 0 (base_go b (S (N.to_nat (N.size n))) n s) = parse_go b n s.
Proof. intros Hb. apply parse_base_go; [done|]. rewrite N2Nat.id. apply N.size_gt. Qed.

Lemma base_go_nonempty b fuel n s : base_go b (S fuel) n s <> "".
Proof.
  revert n s; induction fuel as [|f IH]; intros n s.
  - cbn. by case_match.
  - cbn [base_go]. case_match; [done|]. apply IH.
Qed.

Lemma parse_base_nonempty b s : s <> "" -> parse_base b s = parse_go b 0 s.
Proof. by destruct s. Qed.

Lemma parse_go_zeros b k s :
  (2 <= b <= 16)%N -> parse_go b 0 (str_repeat k "0" +:+ s) = parse_go b 0 s.
Proof.
  intros Hb. induction k as [|k IH]; [done|].
  cbn [str_repeat]. rewrite str_app_assoc, str_app_cons, str_app_nil_l. cbn [parse_go].
  change "0"%char with (digit_char 0). rewrite digit_value_char by lia.
  rewrite N.mul_0_r. apply IH.
Qed.

(** Parsing undoes formatting, whatever the padding. *)
Lemma parse_pad_to_base b w n :
  (2 <= b <= 16)%N -> parse_base b (pad_zero w (to_base b n)) = Some n.
Proof.
  intros Hb. rewrite parse_base_nonempty.
  - unfold pad_zero. rewrite parse_go_zeros by done. unfold to_base. by rewrite parse_go_to_base.
  - unfold pad_zero, to_base. intros E.
    pose proof (base_go_nonempty b (N.to_nat (N.size n)) n "") as Hne.
    destruct (base_go _ _ _ _) as [|c t]; [done|].
    destruct (str_repeat _ _); rewrite ?str_app_cons, ?str_app_nil_l in E; done.
Qed.

Lemma base_go_length b fuel n s k :
  (2 <= b)%N -> (n < b ^ N.of_nat (S k))%N ->
  String.length (base_go b fuel n s) <= String.length s + S k.
Proof.
  intros Hb. revert n s k. induction fuel as [|f IH]; intros n s k Hn; cbn; [lia|].
  destruct (N.eqb_spec (n / b) 0) as [E|E]; cbn; [lia|].
  destruct k as [|k].
  - exfalso. apply E. apply N.div_small. by rewrite N.pow_1_r in Hn.
  - etrans; [apply (IH _ _ k)|cbn; lia].
    apply N.Div0.div_lt_upper_bound.
    replace (N.of_nat (S (S k))) with (N.succ (N.of_nat (S k))) in Hn by lia.
    by rewrite N.pow_succ_r' in Hn.
Qed.

Lemma to_base_length b n k :
  (2 <= b)%N -> (n < b ^ N.of_nat (S k))%N -> String.length (to_base b n) <= S k.
Proof. intros. unfold to_base. etrans; [by apply base_go_length|done]. Qed.

Lemma str_app_nonempty a b : b <> "" -> a +:+ b <> "".
Proof. destruct a; [by rewrite str_app_nil_l|by rewrite str_app_cons]. Qed.

Lemma fmt_0_nonempty b w z : fmt_0 b w z <> "".
Proof.
  unfold fmt_0, pad_zero, to_base. destruct (z <? 0)%Z; repeat apply str_app_nonempty; apply base_go_nonempty.
Qed.

Lemma pad_zero_length w s : String.length s <= w -> String.length (pad_zero w s) = w.
Proof. intros. unfold pad_zero. rewrite str_length_app, str_length_repeat. lia. Qed.

Lemma fmt_0_length b w z :
  (2 <= b)%N -> (0 <= z < Z.of_N b ^ Z.of_nat (S w))%Z -> String.length (fmt_0 b (S w) z) = S w.
Proof.
  intros Hb Hz. unfold fmt_0. destruct (z <? 0)%Z eqn:E; [lia|].
  apply pad_zero_length, to_base_length; [done|].
  apply N2Z.inj_lt. rewrite N2Z.inj_pow, Z2N.id, nat_N_Z by lia. lia.
Qed.

Lemma parse_fmt_0 b w z :
  (2 <= b <= 16)%N -> (0 <= z)%Z -> parse_base b (fmt_0 b w z) = Some (Z.to_N z).
Proof.
  intros Hb Hz. unfold fmt_0. destruct (z <? 0)%Z eqn:E; [lia|]. by apply parse_pad_to_base.
Qed.

(** [strconv.ParseUint(s, b, w)] and [strconv.ParseInt(s, b, w)]. *)
Inductive num_error := ErrSyntax | ErrRange.

Definition ParseUint (b : N) (w : Z) (s : string) : Z + num_error :=
  match parse_base b s with
  | Some n => if (Z.of_N n <? 2 ^ w)%Z then inl (Z.of_N n) else inr ErrRange
  | None => inr ErrSyntax
  end.

Definition ParseInt (b : N) (w : Z) (s : string) : Z + num_error :=
  let '(neg, digits) := match s with
                        | String "-" r => (true, r)
                        | String "+" r => (false, r)
                        | _ => (false, s)
                        end in
  match parse_base b digits with
  | Some n =>
      let z := if (neg : bool) then (- Z.of_N n)%Z else Z.of_N n in
      if ((- 2 ^ (w - 1) <=? z) && (z <? 2 ^ (w - 1)))%Z then inl z else inr ErrRange
  | None => inr ErrSyntax
  end.

(** ** The environment: clock, randomness, the process-wide ID counter *)

(** [env_now k] is the [k]-th reading of the clock in nanoseconds since the Unix epoch,
    [env_rand k] the [k]-th word of the random source. *)
Record Env := {
  env_now : nat -> Z;
  env_rand : nat -> Z;
  env_tick : nat;
  idCount : Z
}.

Definition tick_env (e : Env) : Env :=
  {| env_now := env_now e; env_rand := env_rand e; env_tick := S (env_tick e);
     idCount := idCount e |}.

(** [time.Now()] *)
Definition Now : M Env Z := fun e => (env_now e (env_tick e), tick_env e).

(** The same clock, read more often. *)
Definition same_clock (e e' : Env) : Prop := env_now e' = env_now e.
Lemma same_clock_refl e : same_clock e e.
Proof. done. Qed.
Lemma same_clock_tick e : same_clock e (tick_env e).
Proof. done. Qed.
Lemma same_clock_trans e1 e2 e3 : same_clock e1 e2 -> same_clock e2 e3 -> same_clock e1 e3.
Proof. unfold same_clock. congruence. Qed.
#[export] Hint Resolve same_clock_refl same_clock_tick : go.

(** [rand.Int31n(n)], [rand.Int63()], [rand.Uint32()] *)
Definition rand_below (n : Z) : M Env Z :=
  fun e => ((env_rand e (env_tick e) `mod` n)%Z, tick_env e).

Definition nanosecond : Z := 1.
Definition microsecond : Z := 1000.
Definition second : Z := 1000000000.
Definition hour : Z := 3600 * second.

(** [t.Truncate(time.Microsecond)] *)
Definition truncate (d t : Z) : Z := (t - t `mod` d)%Z.

Lemma truncate_le d t : (0 < d)%Z -> (truncate d t <= t < truncate d t + d)%Z.
Proof. unfold truncate. intros. pose proof (Z.mod_pos_bound t d). lia. Qed.

Arguments str_take !n s : simpl nomatch.
Arguments str_drop !n s : simpl nomatch.

(** ** Stable sorting (sort.SliceStable) *)

Section StableSort.
Context {A : Type} (less : A -> A -> bool).

Fixpoint insert_sorted (x : A) (l : list A) : list A :=
  match l with
  | [] => [x]
  | y :: r => if less y x then y :: insert_sorted x r else x :: l
  end.
Definition SliceStable (l : list A) : list A := foldr insert_sorted [] l.

Lemma insert_sorted_perm x l : insert_sorted x l ≡ₚ x :: l.
Proof. induction l as [|y l IH]; cbn; [done|]. destruct (less y x); [by rewrite IH, Permutation_swap|done]. Qed.
Lemma SliceStable_perm l : SliceStable l ≡ₚ l.
Proof. induction l as [|x l IH]; [done|]. change (insert_sorted x (SliceStable l) ≡ₚ x :: l). by rewrite insert_sorted_perm, IH. Qed.

(** Elements that are not less than each other stay in their order. *)
Lemma insert_sorted_filter (p : A -> bool) x l :
  (forall y, p x = true -> p y = true -> less y x = false) ->
  List.filter p (insert_sorted x l) = List.filter p (x :: l).
Proof.
  intros Hp. induction l as [|y l IH]; cbn; [done|]. destruct (less y x) eqn:E; [|done]. cbn. rewrite IH. cbn.
  destruct (p y) eqn:Ey, (p x) eqn:Ex; try done. by rewrite (Hp y eq_refl Ey) in E.
Qed.
Lemma SliceStable_stable (p : A -> bool) l :
  (forall x y, p x = true -> p y = true -> less y x = false) -> List.filter p (SliceStable l) = List.filter p l.
Proof.
  intros Hp. induction l as [|x l IH]; [done|]. change (List.filter p (insert_sorted x (SliceStable l)) = List.filter p (x :: l)).
  rewrite insert_sorted_filter by eauto. cbn. by rewrite IH.
Qed.

(** No element is less than one before it. *)
Lemma SliceStable_sorted l :
  (forall x y z, less y x = false -> less z y = false -> less z x = false) ->
  (forall x y, less y x = true -> less x y = false) ->
  StronglySorted (fun a b => less b a = false) (SliceStable l).
Proof.
  intros Ht Ha. induction l as [|x l IH]; [constructor|].
  change (StronglySorted (fun a b => less b a = false) (insert_sorted x (SliceStable l))).
  induction IH as [|y r Hs IHs Hf]; cbn; [by repeat constructor|]. destruct (less y x) eqn:E.
  - constructor; [done|]. rewrite insert_sorted_perm. constructor; [by apply Ha|done].
  - constructor; [by constructor|]. constructor; [done|]. eapply Forall_impl; [exact Hf|]. cbn. intros z Hz. by eapply Ht.
Qed.
End StableSort.

(** ** Ranging over maps *)

(** Go ranges over a map in some order. *)
Class MapRange := {
  range {A} : gmap string A -> list (string * A);
  range_perm {A} (m : gmap string A) : range m ≡ₚ map_to_list m
}.

Section Range.
Context `{!MapRange}.

Lemma elem_of_range {A} (m : gmap string A) k v : (k, v) ∈ range m <-> m !! k = Some v.
Proof. rewrite (range_perm m). apply elem_of_map_to_list. Qed.

Lemma NoDup_range {A} (m : gmap string A) : NoDup (range m).*1.
Proof. rewrite (range_perm m). apply NoDup_fst_map_to_list. Qed.
End Range.
