(* ===== verification/GoTime.v ===== *)
(** * Civil dates: the part of Go's [time] package the source uses

    An instant is a [Z] of nanoseconds since the Unix epoch.  The proleptic Gregorian
    calendar is computed in 400-year eras of 146097 days; the round trip between day
    numbers and dates is checked by computation on the ends of each year of an era, extended
    to the days between by monotonicity and to all years by periodicity. *)
From S2P Require Import Prelude.
Open Scope go_scope.
Local Open Scope Z_scope.

Definition is_leap (y : Z) : bool :=
  ((y mod 4 =? 0) && negb (y mod 100 =? 0) || (y mod 400 =? 0))%Z.

Definition days_in (m y : Z) : Z :=
  if (m =? 2)%Z then (if is_leap y then 29 else 28)
  else if ((m =? 4) || (m =? 6) || (m =? 9) || (m =? 11))%Z then 30 else 31.

Record civil := { c_year : Z; c_month : Z; c_day : Z }.

(** A date that [time.Parse] accepts: month and day in range. *)
Definition valid_civil (c : civil) : bool :=
  (1 <=? c_month c) && (c_month c <=? 12) &&
  (1 <=? c_day c) && (c_day c <=? days_in (c_month c) (c_year c)).

(** Day number of a date; the year starts in March. *)
Definition days_of_civil (c : civil) : Z :=
  let y := if c_month c <=? 2 then c_year c - 1 else c_year c in
  let era := y / 400 in
  let yoe := y mod 400 in
  let mp := (c_month c + 9) mod 12 in
  let doy := (153 * mp + 2) / 5 + c_day c - 1 in
  let doe := yoe * 365 + yoe / 4 - yoe / 100 + doy in
  era * 146097 + doe - 719468.

(** Year within the era, month and day of a day of the era. *)
Definition civil_of_doe (doe : Z) : Z * Z * Z :=
  let yoe := (doe - doe / 1460 + doe / 36524 - doe / 146096) / 365 in
  let doy := doe - (365 * yoe + yoe / 4 - yoe / 100) in
  let mp := (5 * doy + 2) / 153 in
  let d := doy - (153 * mp + 2) / 5 + 1 in
  let m := if mp <? 10 then mp + 3 else mp - 9 in
  (yoe, m, d).

Definition civil_of_days (n : Z) : civil :=
  let z := n + 719468 in
  let '(yoe, m, d) := civil_of_doe (z mod 146097) in
  {| c_year := yoe + z / 146097 * 400 + (if m <=? 2 then 1 else 0); c_month := m; c_day := d |}.

Definition day_ns : Z := 24 * hour.

(** [t.Date()] in a zone [tz] nanoseconds east of UTC. *)
Definition date_of_time (tz t : Z) : civil := civil_of_days ((t + tz) / day_ns).
(** [time.Date(y, m, d, 0, 0, 0, 0, time.UTC)] for a date in range *)
Definition time_of_date (c : civil) : Z := days_of_civil c * day_ns.

(** First day of a year of the era. *)
Definition year_start (yoe : Z) : Z := yoe * 365 + yoe / 4 - yoe / 100.

Definition year_of_doe (doe : Z) : Z := (doe - doe / 1460 + doe / 36524 - doe / 146096) / 365.

Definition upto (n : nat) : list Z := map Z.of_nat (seq 0 n).

Lemma forallb_range (f : Z -> bool) n z :
  forallb f (upto n) = true -> (0 <= z < Z.of_nat n)%Z -> f z = true.
Proof.
  intros H ?. rewrite forallb_forall in H. apply H. unfold upto. apply in_map_iff.
  exists (Z.to_nat z). rewrite in_seq. split; lia.
Qed.

(** The year of the era is right on the first and the last day of each year ... *)
Definition check_year (y : Z) : bool :=
  let last := if is_leap (y + 1) then 365 else 364 in
  (year_of_doe (year_start y) =? y) && (year_of_doe (year_start y + last) =? y)
  && (0 <=? year_start y) && (year_start y + last <=? 146096).

Lemma check_years : forallb check_year (upto 400) = true.
Proof. vm_compute. reflexivity. Qed.

(** ... and it grows with the day, so it is right on the days between. *)
Lemma year_of_doe_mono a b : 0 <= a <= b -> b <= 146096 -> year_of_doe a <= year_of_doe b.
Proof.
  intros Hab Hb. unfold year_of_doe. apply Z.div_le_mono; [lia|].
  assert (Hb' : b = 146096 \/ b < 146096) by lia. destruct Hb' as [->|Hb'].
  - change (146096 / 1460) with 100. change (146096 / 36524) with 4. change (146096 / 146096) with 1.
    assert (Ha' : a = 146096 \/ a < 146096) by lia. destruct Ha' as [->|Ha'].
    + reflexivity.
    + rewrite (Z.div_small a 146096) by lia.
      assert (a / 36524 <= 3) by (apply Z.lt_succ_r, Z.div_lt_upper_bound; lia).
      pose proof (Z.div_mod a 1460 ltac:(lia)). pose proof (Z.mod_pos_bound a 1460 ltac:(lia)). lia.
  - rewrite (Z.div_small a 146096), (Z.div_small b 146096) by lia.
    assert (a / 36524 <= b / 36524) by (apply Z.div_le_mono; lia).
    pose proof (Z.div_mod a 1460 ltac:(lia)). pose proof (Z.mod_pos_bound a 1460 ltac:(lia)).
    pose proof (Z.div_mod b 1460 ltac:(lia)). pose proof (Z.mod_pos_bound b 1460 ltac:(lia)). lia.
Qed.

Lemma year_of_doe_between y k :
  0 <= y < 400 -> 0 <= k <= (if is_leap (y + 1) then 365 else 364) ->
  year_of_doe (year_start y + k) = y /\ 0 <= year_start y + k < 146097.
Proof.
  intros Hy Hk. pose proof (forallb_range _ _ y check_years Hy) as Hc. unfold check_year in Hc.
  rewrite !andb_true_iff, !Z.eqb_eq, !Z.leb_le in Hc. destruct Hc as [[[H1 H2] H3] H4].
  set (last := if is_leap (y + 1) then 365 else 364) in *.
  pose proof (year_of_doe_mono (year_start y) (year_start y + k) ltac:(lia) ltac:(lia)).
  pose proof (year_of_doe_mono (year_start y + k) (year_start y + last) ltac:(lia) ltac:(lia)).
  lia.
Qed.

(** Month and day from the day of the year. *)
Definition check_month (m d : Z) : bool :=
  let doy := (153 * ((m + 9) mod 12) + 2) / 5 + d - 1 in
  let mp := (5 * doy + 2) / 153 in
  (if d <=? days_in m 0 then
    (mp =? (m + 9) mod 12) && ((if mp <? 10 then mp + 3 else mp - 9) =? m)
    && (0 <=? doy) && (doy <=? 365) && implb (doy =? 365) ((m =? 2) && (d =? 29))
   else true).

Lemma check_months :
  forallb (fun m => forallb (fun d => check_month (m + 1) (d + 1)) (upto 31)) (upto 12) = true.
Proof. vm_compute. reflexivity. Qed.

Lemma check_month_all m d : 1 <= m <= 12 -> 1 <= d <= 31 -> check_month m d = true.
Proof.
  intros Hm Hd.
  pose proof (forallb_range _ _ (m - 1) check_months ltac:(lia)) as H2.
  pose proof (forallb_range _ _ (d - 1) H2 ltac:(lia)) as H3. cbn beta in H3.
  by replace (m - 1 + 1) with m in H3 by lia; replace (d - 1 + 1) with d in H3 by lia.
Qed.

Lemma days_in_le m y : days_in m y <= days_in m 0 /\ days_in m 0 <= 31.
Proof. unfold days_in. change (is_leap 0) with true. repeat case_match; lia. Qed.

(** The era decomposition of a date of a year of the era. *)
Lemma civil_of_doe_of yoe m d :
  let y := if m <=? 2 then yoe + 1 else yoe in
  let doe := year_start yoe + ((153 * ((m + 9) mod 12) + 2) / 5 + d - 1) in
  0 <= yoe < 400 -> 1 <= m <= 12 -> 1 <= d <= days_in m y ->
  civil_of_doe doe = (yoe, m, d) /\ 0 <= doe < 146097.
Proof.
  intros y doe Hy Hm Hd. destruct (days_in_le m y) as [Hle H31].
  pose proof (check_month_all m d Hm ltac:(lia)) as Hc. unfold check_month in Hc.
  destruct (d <=? days_in m 0) eqn:Ed; [|apply Z.leb_gt in Ed; lia].
  set (doy := (153 * ((m + 9) mod 12) + 2) / 5 + d - 1) in *.
  rewrite !andb_true_iff, !Z.eqb_eq, !Z.leb_le in Hc.
  destruct Hc as [[[[Hmp Hm'] H0] H365] Himp].
  assert (Hk : doy <= if is_leap (yoe + 1) then 365 else 364).
  { destruct (Z.eqb_spec doy 365) as [E|E]; [|destruct (is_leap _); lia].
    cbn in Himp. apply andb_true_iff in Himp as [E1 E2]. apply Z.eqb_eq in E1, E2.
    clear - Hd E1 E2 E. unfold y, days_in in Hd. rewrite E1, E2 in Hd. cbn in Hd.
    destruct (is_leap (yoe + 1)); lia. }
  destruct (year_of_doe_between yoe doy Hy ltac:(lia)) as [Hyear Hrange].
  split; [|exact Hrange].
  unfold civil_of_doe. fold (year_of_doe doe). unfold doe in *. rewrite Hyear.
  replace (year_start yoe + doy - (365 * yoe + yoe / 4 - yoe / 100)) with doy
    by (unfold year_start; lia).
  rewrite Hm'. rewrite Hmp. f_equal. unfold doy. lia.
Qed.

Lemma is_leap_period y k : is_leap (y + k * 400) = is_leap y.
Proof.
  unfold is_leap.
  replace ((y + k * 400) mod 400) with (y mod 400) by (rewrite Z.mod_add; lia).
  replace ((y + k * 400) mod 100) with (y mod 100)
    by (replace (k * 400) with (k * 4 * 100) by lia; rewrite Z.mod_add; lia).
  by replace ((y + k * 400) mod 4) with (y mod 4)
    by (replace (k * 400) with (k * 100 * 4) by lia; rewrite Z.mod_add; lia).
Qed.

(** Every valid date is recovered from its day number. *)
Lemma civil_of_days_of_civil c :
  valid_civil c = true -> civil_of_days (days_of_civil c) = c.
Proof.
  destruct c as [y m d]. unfold valid_civil. cbn [c_year c_month c_day].
  rewrite !andb_true_iff, !Z.leb_le. intros [[[Hm1 Hm2] Hd1] Hd2].
  unfold days_of_civil, civil_of_days. cbn [c_year c_month c_day].
  set (y' := if m <=? 2 then y - 1 else y).
  pose proof (Z.mod_pos_bound y' 400 ltac:(lia)) as Hyoe.
  pose proof (Z.div_mod y' 400 ltac:(lia)) as Hdm.
  assert (Hleap : days_in m (if m <=? 2 then y' mod 400 + 1 else y' mod 400) = days_in m y).
  { unfold days_in, y' in *. destruct (Z.leb_spec m 2) as [E|E].
    - destruct (m =? 2) eqn:E2; [|done].
      rewrite <- (is_leap_period _ ((y - 1) / 400)).
      by replace ((y - 1) mod 400 + 1 + (y - 1) / 400 * 400) with y by lia.
    - destruct (Z.eqb_spec m 2); [lia|done]. }
  destruct (civil_of_doe_of (y' mod 400) m d Hyoe ltac:(lia) ltac:(rewrite Hleap; lia)) as [Hc Hr].
  set (doe := year_start _ + _) in *.
  match goal with |- context [?x - 719468 + 719468] =>
    replace (x - 719468 + 719468) with (doe + y' / 400 * 146097) by (unfold doe, year_start; lia)
  end.
  rewrite Z.mod_add, Z.div_add, (Z.mod_small doe), (Z.div_small doe), Hc by lia.
  f_equal. unfold y' in *. destruct (m <=? 2); lia.
Qed.

Lemma date_of_time_of_date c : valid_civil c = true -> date_of_time 0 (time_of_date c) = c.
Proof.
  intros H. unfold date_of_time, time_of_date.
  rewrite Z.add_0_r, Z.div_mul by done. by apply civil_of_days_of_civil.
Qed.
