(* ===== verification/Utils.v ===== *)
(** * pkg/utils: optional arguments, masking, maps, identifiers, months, dates, conversions

    Slices are lists, maps are [gmap]s.  Go iterates over a map in an unspecified order; the
    model uses the order of [map_to_list], and every statement about an iteration is up to
    permutation.  [int] is 64 bits wide: the arithmetic that can overflow goes through
    [int64]. *)
From Stdlib Require Import Ascii.
From S2P Require Import Prelude GoTime.
Open Scope go_scope.

(** ** Optional arguments (optional_arg.go) *)

Definition OptionalArg {T} (defaultArg : T) (optional : list T) : T :=
  match optional with
  | [] => defaultArg
  | x :: _ => x
  end.

Definition OptionalString (defaultVal optional : string) : string :=
  if decide (optional = "") then defaultVal else optional.

(** ** Masking of cards and phones (card.go, phone.go) *)

(** [string(b)] of a byte: the UTF-8 encoding of the code point [b]. *)
Definition string_of_byte (c : ascii) : string :=
  let n := N_of_ascii c in
  if (n <? 128)%N then String c ""
  else String (ascii_of_N (192 + n / 64)) (String (ascii_of_N (128 + n mod 64)) "").

Fixpoint mask_card_go (size i : nat) (pan : string) : string :=
  match pan with
  | "" => ""
  | String c rest =>
      (if (i <? 6)%nat || (Z.of_nat size - 5 <? Z.of_nat i)%Z then string_of_byte c else "*")
      +:+ mask_card_go size (S i) rest
  end.

Definition MaskCard (pan : string) : string := mask_card_go (String.length pan) 0 pan.

Definition MaskPhone (phone : string) : string :=
  if (String.length phone <=? 4)%nat then "****"
  else str_repeat (String.length phone - 4) "*" +:+ str_drop (String.length phone - 4) phone.

(** ** Concatenation (concatenate.go) *)

Definition ConcatStrings (parts : list string) : string := foldl String.app "" parts.

Definition ConcatSlices {T} (start : list T) (slices : list (list T)) : list T :=
  foldl app start slices.

(** ** Maps (map_utils.go) *)

Definition CopyMapOneLevel {V} (m : gmap string V) : gmap string V :=
  map_fold (fun k v cp => <[k := v]> cp) ∅ m.

(** [AppendMap] writes into its first argument. *)
Definition AppendMap {V} (m1 m2 : gmap string V) : gmap string V :=
  map_fold (fun k v acc => <[k := v]> acc) m1 m2.

Definition AllMapKeys {V} (m : gmap string V) : list string := (map_to_list m).*1.
Definition AllMapValues {V} (m : gmap string V) : list V := (map_to_list m).*2.

(** ** Identifiers (generate_rand.go) *)

Definition GenerateID : M Env string :=
  let* now := Now in
  let* r1 := rand_below 2147483647 in
  let* count := (fun e => let n := uint32 (idCount e + 1) in
                          (n, {| env_now := env_now e; env_rand := env_rand e;
                                 env_tick := env_tick e; idCount := n |})) in
  ret (fmt_0x 8 (now / second) +:+ fmt_0x 4 (count `mod` 65536) +:+ fmt_0x 4 r1).

Definition GenerateRand64 : M Env string :=
  let* r1 := rand_below (2 ^ 63) in
  ret (fmt_0x 16 r1).

(** ** Conversions (conversions.go) *)

Definition BoolToStr (val : bool) : string := if val then "true" else "false".

Definition ascii_lower (c : ascii) : ascii :=
  let n := N_of_ascii c in
  if ((65 <=? n) && (n <=? 90))%N then ascii_of_N (n + 32) else c.

Fixpoint ToLower (s : string) : string :=
  match s with
  | "" => ""
  | String c r => String (ascii_lower c) (ToLower r)
  end.

(** Letters of ASCII only. *)
Fixpoint is_ascii (s : string) : bool :=
  match s with "" => true | String c r => (N_of_ascii c <? 128)%N && is_ascii r end.
Lemma ToLower_ascii s : is_ascii (ToLower s) = true -> is_ascii s = true.
Proof.
  induction s as [|c s IH]; [done|]. cbn [ToLower is_ascii]. rewrite !andb_true_iff. intros [Hc Hs]. split; [|auto].
  unfold ascii_lower in Hc. destruct (_ && _)%N eqn:E; [|done]. apply andb_true_iff in E as [_ E%N.leb_le]. apply N.ltb_lt. lia.
Qed.

(** Both accepted words give [true], as the code does. *)
Definition StrToBool (s : string) : option bool :=
  let str := ToLower s in
  if decide (str = "true") then Some true
  else if decide (str = "false") then Some true
  else None.

Definition StrToUint32 (s : string) : Z + num_error :=
  if decide (s = "") then inl 0%Z else ParseUint 10 32 s.
Definition StrToUint64 (s : string) : Z + num_error :=
  if decide (s = "") then inl 0%Z else ParseUint 10 64 s.
Definition StrToInt (s : string) : Z + num_error :=
  if decide (s = "") then inl 0%Z else ParseInt 10 32 s.
Definition StrToInt32 (s : string) : Z + num_error :=
  if decide (s = "") then inl 0%Z else ParseInt 10 32 s.
Definition StrToInt64 (s : string) : Z + num_error :=
  if decide (s = "") then inl 0%Z else ParseInt 10 64 s.

Definition NumToStr (val : Z) : string := fmt_d val.

(** [strings.ReplaceAll] of one character by a text. *)
Fixpoint replace_char (c : ascii) (by_ s : string) : string :=
  match s with
  | "" => ""
  | String d r => if decide (d = c) then by_ +:+ replace_char c by_ r else String d (replace_char c by_ r)
  end.
(** [ParseFloat] is [strconv.ParseFloat]; the result is the bits of the number. *)
Definition StrToFloat (ParseFloat : string -> option Z) (s : string) : option Z :=
  if decide (s = "") then Some 0%Z else ParseFloat (replace_char " " "" (replace_char "," "." s)).

(** ** Months (month.go) *)

Module Month.
(** [type Month int] *)
Definition t := Z.

Definition Year (m : t) : Z := m ÷ 100.
Definition Month (m : t) : Z := int64 (m - int64 (Year m * 100)).
Definition Set_ (year month : Z) : t := int64 (int64 (year * 100) + month).
Definition SetTime (tz time : Z) : t :=
  let c := date_of_time tz time in Set_ (c_year c) (c_month c).

Definition String (m : t) : string := fmt_0d 4 (Year m) +:+ "-" +:+ fmt_0d 2 (Month m).

Definition Prev (m : t) : t :=
  let month := Month m in
  let year := Year m in
  if (month =? 1)%Z then Set_ (int64 (year - 1)) 12 else Set_ year (int64 (month - 1)).

Definition Next (m : t) : t :=
  let month := Month m in
  let year := Year m in
  if (month =? 12)%Z then Set_ (int64 (year + 1)) 1 else Set_ year (int64 (month + 1)).

Definition MonthFromTime (tz time : Z) : t := SetTime tz time.
Definition CurrentMonth (tz : Z) : M Env t :=
  let* now := Now in ret (SetTime tz now).

(** [time.Parse] with the layout 2006-01. *)
Definition parse_ym (s : string) : option civil :=
  match parse_base 10 (str_take 4 s), parse_base 10 (str_take 2 (str_drop 5 s)) with
  | Some y, Some m =>
      if (String.length s =? 7)%nat && bool_decide (str_take 1 (str_drop 4 s) = "-")
         && (1 <=? m)%N && (m <=? 12)%N
      then Some {| c_year := Z.of_N y; c_month := Z.of_N m; c_day := 1 |} else None
  | _, _ => None
  end.

(** The empty string is the current month. *)
Definition MonthFromString (tz : Z) (str : string) : M Env (option t) :=
  if decide (str = "") then let* m := CurrentMonth tz in ret (Some m)
  else match parse_ym str with
       | Some c => ret (Some (SetTime 0 (time_of_date c)))
       | None => ret None
       end.

Inductive id_error := ErrTooShortID | ErrInvalidTime.

(** The first eight characters of an identifier are its creation time. *)
Definition MonthFromId (tz : Z) (id : string) : t + id_error :=
  if negb (String.length id =? 20)%nat then inr ErrTooShortID
  else match ParseInt 16 64 (str_take 8 id) with
       | inl timeInt => inl (MonthFromTime tz (timeInt * second))
       | inr _ => inr ErrInvalidTime
       end.
End Month.

(** ** Dates (date.go) *)

(** The clock of the layout 2006-01-02 15:04:05 in nanoseconds: the hour may have one digit, and a
    fraction may follow the seconds. *)
Definition clock_ns (h m s ns : Z) : option Z :=
  if ((h <? 24) && (m <? 60) && (s <? 60))%Z then Some (h * hour + m * (60 * second) + s * second + ns)%Z else None.
Definition parse_hour (s : string) : option (Z * string) :=
  match s with
  | String a (String b r) =>
      match digit_value 10 a, digit_value 10 b with
      | Some x, Some y => Some (Z.of_N (10 * x + y), r)
      | Some x, None => Some (Z.of_N x, String b r)
      | None, _ => None
      end
  | String a "" => match digit_value 10 a with Some x => Some (Z.of_N x, "") | None => None end
  | "" => None
  end.
Definition two_digits (s : string) : option Z :=
  if (String.length s =? 2)%nat then Z.of_N <$> parse_base 10 s else None.
(** Digits beyond the ninth are read and dropped. *)
Definition parse_fraction (s : string) : option Z :=
  match s with
  | "" => Some 0%Z
  | String c ds =>
      if (bool_decide (c = "."%char) || bool_decide (c = ","%char)) && negb (bool_decide (ds = "")) then
        match parse_base 10 ds, parse_base 10 (str_take 9 ds) with
        | Some _, Some n => Some (Z.of_N n * 10 ^ Z.of_nat (9 - String.length (str_take 9 ds)))%Z
        | _, _ => None
        end
      else None
  end.
Definition parse_clock (s : string) : option Z :=
  match parse_hour s with
  | Some (h, r) =>
      if bool_decide (str_take 1 r = ":") && bool_decide (str_take 1 (str_drop 3 r) = ":") then
        match two_digits (str_take 2 (str_drop 1 r)), two_digits (str_take 2 (str_drop 4 r)), parse_fraction (str_drop 6 r) with
        | Some m, Some s, Some ns => clock_ns h m s ns
        | _, _, _ => None
        end
      else None
  | None => None
  end.
Fixpoint cut_spaces (s : string) : string :=
  match s with
  | String c r => if decide (c = " "%char) then cut_spaces r else s
  | "" => ""
  end.

Module Date.
(** [type Date int], a date as the decimal number YYYYMMDD *)
Definition t := Z.
Definition DateNil : t := 0%Z.

Definition Set_ (year month day : Z) : t :=
  int64 (int64 (int64 (year * 10000) + int64 (month * 100)) + day).
Definition SetTime (tz time : Z) : t :=
  let c := date_of_time tz time in Set_ (c_year c) (c_month c) (c_day c).
Definition IsNil (d : t) : bool := (d =? DateNil)%Z.
Definition Year (d : t) : Z := d ÷ 10000.
Definition Month (d : t) : Z := (Z.rem d 10000) ÷ 100.
Definition Day (d : t) : Z := Z.rem d 100.
Definition MMonth (d : t) : Month.t := Month.Set_ (Year d) (Month d).
Definition MonthFromDate (d : t) : Month.t := Month.Set_ (Year d) (Month d).

Definition String (d : t) : string :=
  if IsNil d then ""
  else fmt_0d 4 (Year d) +:+ "-" +:+ fmt_0d 2 (Month d) +:+ "-" +:+ fmt_0d 2 (Day d).
Definition StringRu (d : t) : string :=
  fmt_0d 2 (Day d) +:+ "." +:+ fmt_0d 2 (Month d) +:+ "." +:+ fmt_0d 4 (Year d).
Definition StringRuShort (d : t) : string :=
  fmt_0d 2 (Day d) +:+ "." +:+ fmt_0d 2 (Month d) +:+ "." +:+ fmt_0d 2 (int64 (Year d - 2000)).
Definition AsNumber (d : t) : string := fmt_0d 8 d.

Definition BeginningOfDay (time : Z) : Z := time_of_date (date_of_time 0 time).
Definition EndOfDay (time : Z) : Z := (BeginningOfDay time + hour * 24 - second)%Z.
Definition DateOfTime (time : Z) : t := SetTime 0 (BeginningOfDay time).

Definition mk_civil (y m d : Z) : option civil :=
  let c := {| c_year := y; c_month := m; c_day := d |} in
  if valid_civil c then Some c else None.

(** [time.Parse] with the layouts 2006-01-02, 02.01.2006 and 02.01.06.  The two-digit year
    is read with a sign, as [atoi] does. *)
Definition parse_iso (s : string) : option civil :=
  if (String.length s =? 10)%nat && bool_decide (str_take 1 (str_drop 4 s) = "-")
     && bool_decide (str_take 1 (str_drop 7 s) = "-") then
    match parse_base 10 (str_take 4 s), parse_base 10 (str_take 2 (str_drop 5 s)),
          parse_base 10 (str_drop 8 s) with
    | Some y, Some m, Some d => mk_civil (Z.of_N y) (Z.of_N m) (Z.of_N d)
    | _, _, _ => None
    end
  else None.

Definition parse_ru_with (year : string -> option Z) (s : string) : option civil :=
  if bool_decide (str_take 1 (str_drop 2 s) = ".")
     && bool_decide (str_take 1 (str_drop 5 s) = ".") then
    match parse_base 10 (str_take 2 s), parse_base 10 (str_take 2 (str_drop 3 s)),
          year (str_drop 6 s) with
    | Some d, Some m, Some y => mk_civil y (Z.of_N m) (Z.of_N d)
    | _, _, _ => None
    end
  else None.

Definition year4 (s : string) : option Z :=
  if (String.length s =? 4)%nat then Z.of_N <$> parse_base 10 s else None.
Definition year2 (s : string) : option Z :=
  if (String.length s =? 2)%nat then
    match ParseInt 10 64 s with
    | inl y => Some (if (69 <=? y)%Z then y + 1900 else y + 2000)%Z
    | inr _ => None
    end
  else None.

Definition parse_ru := parse_ru_with year4.
Definition parse_ru_short := parse_ru_with year2.

(** [time.Time{}], the first day of year 1 *)
Definition TimeNil : civil := {| c_year := 1; c_month := 1; c_day := 1 |}.
#[global] Instance civil_eq_dec : EqDecision civil.
Proof. solve_decision. Defined.

(** The time and whether [err] is nil. *)
Definition strDateToTime (s : string) : civil * bool :=
  if decide (s = "") then (TimeNil, true)
  else match parse_iso s with
       | Some c => (c, true)
       | None =>
           match parse_ru s with
           | Some c => (c, true)
           | None =>
               match parse_ru_short s with
               | Some c => (c, true)
               | None => (TimeNil, false)
               end
           end
       end.

(** The date and whether [err] is nil. *)
Definition StrToDate (s : string) : t * bool :=
  if decide (s = "") then (DateNil, true)
  else let '(c, ok) := strDateToTime s in
       if decide (c = TimeNil) then (DateNil, ok)
       else (SetTime 0 (BeginningOfDay (time_of_date c)), ok).

(** A space of the layout stands for one or more. *)
Definition parse_datetime (s : string) : option Z :=
  if bool_decide (str_take 1 (str_drop 10 s) = " ") then
    match parse_iso (str_take 10 s), parse_clock (cut_spaces (str_drop 11 s)) with
    | Some c, Some ns => Some (time_of_date c + ns)%Z
    | _, _ => None
    end
  else None.
(** The instant, or an error. *)
Definition ParseTime (s : string) : option Z :=
  match parse_datetime s with
  | Some t => Some t
  | None => match parse_iso s with Some c => Some (time_of_date c) | None => None end
  end.

Definition Today (tz : Z) : M Env t := let* now := Now in ret (SetTime tz now).

(** The value of a valid date, a year of four digits at most. *)
Definition of_civil (c : civil) : t := (c_year c * 10000 + c_month c * 100 + c_day c)%Z.
End Date.

(** ** Lemmas *)

Lemma OptionalArg_nil {T} (d : T) : OptionalArg d [] = d.
Proof. done. Qed.

Lemma AppendMap_union {V} (m1 m2 : gmap string V) : AppendMap m1 m2 = m2 ∪ m1.
Proof.
  unfold AppendMap. apply (map_fold_weak_ind (fun acc m => acc = m ∪ m1)).
  - by rewrite (left_id_L ∅ (∪)).
  - intros k v m acc _ ->. by rewrite insert_union_l.
Qed.

Lemma wp_GenerateID (Q : string -> Env -> Prop) e :
  (forall id e', id <> "" -> same_clock e e' -> Q id e') -> wp GenerateID Q e.
Proof.
  intros HQ. unfold GenerateID, Now, rand_below, wp, bind, ret. cbn. apply HQ; [|done].
  repeat apply str_app_nonempty. apply fmt_0_nonempty.
Qed.

Lemma wp_GenerateID_clock (Q : string -> Env -> Prop) e :
  (forall id e', same_clock e e' -> Q id e') -> wp GenerateID Q e.
Proof. intros HQ. by apply HQ. Qed.
Lemma wp_GenerateRand64 (Q : string -> Env -> Prop) e :
  (forall id e', same_clock e e' -> Q id e') -> wp GenerateRand64 Q e.
Proof. intros HQ. unfold GenerateRand64, rand_below, wp, bind, ret. cbn. by apply HQ. Qed.

Lemma CopyMapOneLevel_id {V} (m : gmap string V) : CopyMapOneLevel m = m.
Proof.
  unfold CopyMapOneLevel. apply (map_fold_weak_ind (fun acc m => acc = m)); [done|].
  by intros k v m' acc _ ->.
Qed.
#[export] Hint Rewrite @AppendMap_union @CopyMapOneLevel_id : go.

Lemma elem_of_AllMapKeys {V} (m : gmap string V) k : k ∈ AllMapKeys m <-> is_Some (m !! k).
Proof.
  unfold AllMapKeys. rewrite list_elem_of_fmap. split.
  - intros ([k' v] & -> & H%elem_of_map_to_list). by exists v.
  - intros [v H]. exists (k, v). by rewrite elem_of_map_to_list.
Qed.

Lemma elem_of_AllMapValues {V} (m : gmap string V) v :
  v ∈ AllMapValues m <-> exists k, m !! k = Some v.
Proof.
  unfold AllMapValues. rewrite list_elem_of_fmap. split.
  - intros ([k' v'] & -> & H%elem_of_map_to_list). by exists k'.
  - intros [k H]. exists (k, v). by rewrite elem_of_map_to_list.
Qed.

(** *** Decimal fields of a date *)

Lemma of_civil_fields c :
  valid_civil c = true -> (0 <= c_year c <= 9999)%Z ->
  Date.Year (Date.of_civil c) = c_year c /\ Date.Month (Date.of_civil c) = c_month c /\
  Date.Day (Date.of_civil c) = c_day c /\
  Date.Set_ (c_year c) (c_month c) (c_day c) = Date.of_civil c /\
  Date.IsNil (Date.of_civil c) = false.
Proof.
  destruct c as [y m d]. unfold valid_civil. cbn [c_year c_month c_day].
  rewrite !andb_true_iff, !Z.leb_le. intros [[[Hm1 Hm2] Hd1] Hd2] Hy.
  destruct (days_in_le m y) as [H1 H2].
  assert (Hr : forall z, (0 <= z <= 100000000)%Z -> int64 z = z)
    by (intros; apply int64_id; unfold in_int64; lia).
  unfold Date.Year, Date.Month, Date.Day, Date.Set_, Date.of_civil, Date.IsNil, Date.DateNil.
  cbn [c_year c_month c_day].
  rewrite (Hr (y * 10000)%Z), (Hr (m * 100)%Z), (Hr (y * 10000 + m * 100)%Z),
    (Hr (y * 10000 + m * 100 + d)%Z) by lia.
  rewrite !Z.rem_mod_nonneg, !Z.quot_div_nonneg by (try apply Z.mod_pos_bound; lia).
  repeat split; try (apply Z.eqb_neq); Z.to_euclidean_division_equations; lia.
Qed.

Lemma fmt_0d_length w z :
  (0 <= z < 10 ^ Z.of_nat (S w))%Z -> String.length (fmt_0d (S w) z) = S w.
Proof. intros. by apply fmt_0_length. Qed.

Lemma str_take_app_n n a b : String.length a = n -> str_take n (a +:+ b) = a.
Proof. intros <-. apply str_take_app. Qed.

Lemma str_drop_app_n n k a b : String.length a = n -> str_drop (n + k) (a +:+ b) = str_drop k b.
Proof.
  intros <-. induction a as [|c a IH]; [done|]. rewrite str_app_cons. cbn. apply IH.
Qed.

Lemma parse_iso_String c :
  valid_civil c = true -> (0 <= c_year c <= 9999)%Z ->
  Date.parse_iso (Date.String (Date.of_civil c)) = Some c.
Proof.
  intros Hv Hy. destruct (of_civil_fields c Hv Hy) as (HY & HM & HD & _ & HN).
  destruct c as [y m d]. unfold Date.String. rewrite HN, HY, HM, HD.
  pose proof Hv as Hv'. unfold valid_civil in Hv'. cbn [c_year c_month c_day] in *.
  rewrite !andb_true_iff, !Z.leb_le in Hv'. destruct Hv' as [[[Hm1 Hm2] Hd1] Hd2].
  destruct (days_in_le m y) as [H1 H2].
  pose proof (fmt_0d_length 3 y ltac:(cbn; lia)) as L1.
  pose proof (fmt_0d_length 1 m ltac:(cbn; lia)) as L2.
  pose proof (fmt_0d_length 1 d ltac:(cbn; lia)) as L3.
  set (sy := fmt_0d 4 y) in *. set (sm := fmt_0d 2 m) in *. set (sd := fmt_0d 2 d) in *.
  unfold Date.parse_iso.
  rewrite (str_take_app_n 4) by done.
  rewrite (str_drop_app_n 4 0), (str_drop_app_n 4 1), (str_drop_app_n 4 3), (str_drop_app_n 4 4) by done.
  rewrite !str_length_app, L1, L2, L3, !str_app_cons, !str_app_nil_l. cbn [str_take str_drop].
  rewrite (str_drop_app_n 2 0), (str_drop_app_n 2 1) by done.
  rewrite (str_take_app_n 2) by done. cbn.
  unfold sy, sm, sd, fmt_0d. rewrite !parse_fmt_0 by lia. rewrite !Z2N.id by lia.
  unfold Date.mk_civil. by rewrite Hv.
Qed.

Lemma to_base_16_length n k :
  (16 ^ N.of_nat k <= n < 16 ^ N.of_nat (S k))%N -> String.length (to_base 16 n) = S k.
Proof.
  intros [Hlo Hhi]. apply Nat.le_antisymm; [by apply to_base_length|].
  destruct (Nat.le_gt_cases (S k) (String.length (to_base 16 n))) as [|Hlt]; [done|exfalso].
  assert (Hne : to_base 16 n <> "") by apply base_go_nonempty.
  assert (Hv : parse_base 16 (to_base 16 n) = Some n)
    by (apply (parse_pad_to_base 16 0); lia).
  rewrite parse_base_nonempty in Hv by done.
  assert (Hbound : forall s acc v, parse_go 16 acc s = Some v ->
    (v < (acc + 1) * 16 ^ N.of_nat (String.length s))%N).
  { clear. induction s as [|c s IH]; intros acc v Hp; cbn [parse_go String.length] in *.
    - injection Hp as <-. rewrite N.pow_0_r. lia.
    - destruct (digit_value 16 c) as [d|] eqn:Ed; [|done]. apply IH in Hp.
      assert (d < 16)%N.
      { unfold digit_value in Ed. destruct (if (_ && _) then _ else _) as [w|]; [|done].
        destruct (w <? 16)%N eqn:Ew; [|done]. injection Ed as <-. by apply N.ltb_lt. }
      rewrite Nat2N.inj_succ, N.pow_succ_r'. nia. }
  apply Hbound in Hv. rewrite N.add_0_l, N.mul_1_l in Hv.
  assert (16 ^ N.of_nat (String.length (to_base 16 n)) <= 16 ^ N.of_nat k)%N
    by (apply N.pow_le_mono_r; lia).
  lia.
Qed.

Lemma parse_base_head b c r n :
  parse_base b (String c r) = Some n -> is_Some (digit_value b c).
Proof. cbn. destruct (digit_value b c); [by eauto|done]. Qed.

(** A string of digits has no sign, so [ParseInt] reads it as [ParseUint] does. *)
Lemma ParseInt_digits b w s n :
  parse_base b s = Some n -> (Z.of_N n < 2 ^ (w - 1))%Z -> ParseInt b w s = inl (Z.of_N n).
Proof.
  intros Hp Hn. unfold ParseInt.
  replace (match s with String "-" r => (true, r) | String "+" r => (false, r) | _ => (false, s) end)
    with (false, s).
  - rewrite Hp. destruct (_ && _) eqn:E; [done|].
    apply andb_false_iff in E as [E|E]; [apply Z.leb_gt in E|apply Z.ltb_ge in E]; lia.
  - destruct s as [|c r]; [done|]. apply parse_base_head in Hp.
    destruct c as [[] [] [] [] [] [] [] []]; try done; cbn in Hp; by destruct Hp.
Qed.

Lemma ParseInt_fmt_d w z :
  (0 < w)%Z -> (- 2 ^ (w - 1) <= z < 2 ^ (w - 1))%Z -> ParseInt 10 w (fmt_d z) = inl z.
Proof.
  intros Hw [Hlo Hhi]. unfold fmt_d, fmt_0d.
  destruct (Z.ltb_spec z 0) as [Hz|Hz].
  - unfold fmt_0. apply Z.ltb_lt in Hz as Hz'. rewrite Hz', str_app_cons, str_app_nil_l.
    unfold ParseInt. rewrite parse_pad_to_base by lia. rewrite N2Z.inj_abs_N.
    replace (- Z.abs z)%Z with z by lia.
    destruct (_ && _) eqn:E; [done|].
    apply andb_false_iff in E as [E|E]; [apply Z.leb_gt in E|apply Z.ltb_ge in E]; lia.
  - rewrite (ParseInt_digits 10 w _ (Z.to_N z)).
    + by rewrite Z2N.id.
    + by apply parse_fmt_0.
    + by rewrite Z2N.id.
Qed.

Lemma fmt_d_nonempty z : fmt_d z <> "".
Proof.
  unfold fmt_d, fmt_0d, fmt_0, pad_zero. cbn. destruct (z <? 0)%Z; [done|].
  rewrite str_app_nil_l. apply base_go_nonempty.
Qed.

Lemma valid_civil_month c : valid_civil c = true -> (1 <= c_month c <= 12)%Z.
Proof. unfold valid_civil. rewrite !andb_true_iff, !Z.leb_le. tauto. Qed.

Lemma SetTime_of_civil c :
  valid_civil c = true -> Date.SetTime 0 (Date.BeginningOfDay (time_of_date c)) =
  Date.Set_ (c_year c) (c_month c) (c_day c).
Proof.
  intros H. unfold Date.SetTime, Date.BeginningOfDay. by rewrite !(date_of_time_of_date c).
Qed.

(** A month value YYYYMM of a year of the common era. *)
Definition valid_month (m : Month.t) : bool :=
  (100 <=? m)%Z && (m <? 2 ^ 62)%Z && (1 <=? Z.rem m 100)%Z && (Z.rem m 100 <=? 12)%Z.

Lemma valid_month_fields m :
  valid_month m = true ->
  (1 <= Month.Year m < 2 ^ 56)%Z /\ (1 <= Month.Month m <= 12)%Z /\
  m = (Month.Year m * 100 + Month.Month m)%Z.
Proof.
  unfold valid_month. rewrite !andb_true_iff, !Z.leb_le, Z.ltb_lt. intros [[[H1 H2] H3] H4].
  unfold Month.Month, Month.Year.
  rewrite Z.rem_mod_nonneg in H3, H4 by lia. rewrite Z.quot_div_nonneg by lia.
  pose proof (Z.div_mod m 100 ltac:(lia)) as Hdm.
  set (q := (m / 100)%Z) in *. set (r := (m mod 100)%Z) in *.
  rewrite (int64_id (q * 100)) by (unfold in_int64; lia).
  rewrite int64_id by (unfold in_int64; lia). lia.
Qed.

Lemma Month_Set_fields y mo :
  (1 <= y < 2 ^ 56)%Z -> (1 <= mo <= 12)%Z ->
  Month.Set_ y mo = (y * 100 + mo)%Z /\ Month.Year (Month.Set_ y mo) = y /\
  Month.Month (Month.Set_ y mo) = mo.
Proof.
  intros Hy Hm. unfold Month.Set_, Month.Month, Month.Year.
  rewrite (int64_id (y * 100)), (int64_id (y * 100 + mo)) by (unfold in_int64; lia).
  replace ((y * 100 + mo) ÷ 100)%Z with y
    by (rewrite Z.quot_div_nonneg, Z.div_add_l, Z.div_small by lia; lia).
  rewrite (int64_id (y * 100)), int64_id by (unfold in_int64; lia). lia.
Qed.

Lemma GenerateID_string e :
  (GenerateID e).1 =
    fmt_0x 8 (env_now e (env_tick e) / second) +:+
    fmt_0x 4 (uint32 (idCount e + 1) `mod` 65536) +:+
    fmt_0x 4 (env_rand e (S (env_tick e)) `mod` 2147483647).
Proof. done. Qed.

(** ** Properties *)

(** A date printed by [Date.String] is read back by [StrToDate] without error, for every
    valid date of the years 0 to 9999 except the first day of year 1, which is the zero time. *)
Theorem StrToDate_String c :
  valid_civil c = true -> (0 <= c_year c <= 9999)%Z -> c <> Date.TimeNil ->
  Date.StrToDate (Date.String (Date.of_civil c)) = (Date.of_civil c, true).
Proof.
  intros Hv Hy Hn. destruct (of_civil_fields c Hv Hy) as (_ & _ & _ & HS & HN).
  pose proof (parse_iso_String c Hv Hy) as Hp.
  unfold Date.StrToDate, Date.strDateToTime.
  destruct (decide (Date.String (Date.of_civil c) = "")) as [E|_].
  - by rewrite E in Hp.
  - rewrite Hp. destruct (decide (c = Date.TimeNil)); [done|].
    by rewrite SetTime_of_civil, HS.
Qed.

Lemma StrToDate_String_witness :
  Date.StrToDate (Date.String 20240229%Z) = (20240229%Z, true).
Proof.
  apply (StrToDate_String {| c_year := 2024; c_month := 2; c_day := 29 |});
    [reflexivity|cbn; lia|discriminate].
Defined.

(** [MonthFromId] recovers the creation month of an identifier made by [GenerateID]
    exactly when the random part needs all eight hexadecimal digits; for smaller random
    numbers the identifier is shorter than twenty characters and is rejected. *)
Theorem MonthFromId_GenerateID tz e :
  let t := env_now e (env_tick e) in
  let r := (env_rand e (S (env_tick e)) `mod` 2147483647)%Z in
  (0 <= t / second < 16 ^ 8)%Z ->
  Month.MonthFromId tz (GenerateID e).1 =
    if (r <? 2 ^ 28)%Z then inr Month.ErrTooShortID
    else inl (Month.MonthFromTime tz (t / second * second)).
Proof.
  intros t r Ht. rewrite GenerateID_string. fold t r. set (s := (t / second)%Z) in *.
  set (cnt := (uint32 (idCount e + 1) `mod` 65536)%Z).
  assert (Hcnt : (0 <= cnt < 65536)%Z) by (apply Z.mod_pos_bound; lia).
  assert (Hr : (0 <= r < 2147483647)%Z) by (apply Z.mod_pos_bound; lia).
  assert (L1 : String.length (fmt_0x 8 s) = 8%nat) by (apply fmt_0_length; cbn; lia).
  assert (L2 : String.length (fmt_0x 4 cnt) = 4%nat) by (apply fmt_0_length; cbn; lia).
  unfold Month.MonthFromId. rewrite !str_length_app, L1, L2.
  rewrite (str_take_app_n 8) by done. destruct (Z.ltb_spec r (2 ^ 28)) as [Hs|Hs].
  - assert (String.length (fmt_0x 4 r) <= 7).
    { unfold fmt_0x, fmt_0. destruct (r <? 0)%Z eqn:E; [lia|].
      unfold pad_zero. rewrite str_length_app, str_length_repeat.
      pose proof (to_base_length 16 (Z.to_N r) 6 ltac:(lia) ltac:(cbn; lia)). lia. }
    destruct (Nat.eqb_spec (8 + (4 + String.length (fmt_0x 4 r))) 20); [lia|done].
  - assert (L3 : String.length (fmt_0x 4 r) = 8%nat).
    { unfold fmt_0x, fmt_0. destruct (r <? 0)%Z eqn:E; [lia|].
      unfold pad_zero. rewrite str_length_app, str_length_repeat.
      rewrite (to_base_16_length _ 7) by (cbn; lia). lia. }
    rewrite L3. cbn [Nat.eqb Nat.add negb].
    unfold fmt_0x. rewrite (ParseInt_digits 16 64 _ (Z.to_N s)).
    + by rewrite Z2N.id by lia.
    + apply parse_fmt_0; lia.
    + rewrite Z2N.id; lia.
Qed.

Definition sample_env : Env :=
  {| env_now := fun k => (1700000000 * second + Z.of_nat k)%Z; env_rand := fun k => (2 ^ 30 + Z.of_nat k)%Z;
     env_tick := 0; idCount := 41 |}.

Lemma MonthFromId_GenerateID_witness :
  Month.MonthFromId 0%Z (GenerateID sample_env).1 = inl 202311%Z.
Proof.
  rewrite (MonthFromId_GenerateID 0%Z sample_env); [reflexivity|].
  vm_compute. by split.
Defined.

(** [Next] and [Prev] are inverse on months of the common era, stay valid, and are the
    neighbours of the month in calendar order. *)
Theorem Month_Next_Prev m :
  valid_month m = true -> (m < 2 ^ 61)%Z ->
  valid_month (Month.Next m) = true /\ Month.Prev (Month.Next m) = m /\
  (m < Month.Next m)%Z /\
  (forall k, valid_month k = true -> (m < k)%Z -> (Month.Next m <= k)%Z).
Proof.
  intros Hv Hlt. destruct (valid_month_fields m Hv) as (Hy & Hm & Em).
  unfold Month.Next. set (y := Month.Year m) in *. set (mo := Month.Month m) in *.
  assert (Hval : forall y' mo', (1 <= y' < 2 ^ 55)%Z -> (1 <= mo' <= 12)%Z ->
    valid_month (Month.Set_ y' mo') = true).
  { intros y' mo' H1 H2. destruct (Month_Set_fields y' mo' ltac:(lia) H2) as (-> & _ & _).
    unfold valid_month. rewrite Z.rem_mod_nonneg by lia.
    replace ((y' * 100 + mo') mod 100)%Z with mo'
      by (rewrite Z.add_comm, Z.mod_add, Z.mod_small; lia).
    rewrite !andb_true_iff, !Z.leb_le, Z.ltb_lt. lia. }
  destruct (Z.eqb_spec mo 12) as [E|E].
  - rewrite (int64_id (y + 1)) by (unfold in_int64; lia).
    destruct (Month_Set_fields (y + 1) 1 ltac:(lia) ltac:(lia)) as (Es & Ey & Emo).
    repeat split.
    + apply Hval; lia.
    + unfold Month.Prev. rewrite Ey, Emo. cbn.
      rewrite int64_id by (unfold in_int64; lia).
      destruct (Month_Set_fields (y + 1 - 1) 12 ltac:(lia) ltac:(lia)) as (-> & _ & _). lia.
    + lia.
    + intros k Hk. destruct (valid_month_fields k Hk) as (? & ? & ?). lia.
  - rewrite (int64_id (mo + 1)) by (unfold in_int64; lia).
    destruct (Month_Set_fields y (mo + 1) ltac:(lia) ltac:(lia)) as (Es & Ey & Emo).
    repeat split.
    + apply Hval; lia.
    + unfold Month.Prev. rewrite Ey, Emo.
      destruct (Z.eqb_spec (mo + 1) 1); [lia|].
      rewrite int64_id by (unfold in_int64; lia).
      destruct (Month_Set_fields y (mo + 1 - 1) ltac:(lia) ltac:(lia)) as (-> & _ & _). lia.
    + lia.
    + intros k Hk. destruct (valid_month_fields k Hk) as (? & ? & ?). lia.
Qed.

Lemma Month_Next_Prev_witness :
  valid_month 202312%Z = true /\ Month.Prev (Month.Next 202312%Z) = 202312%Z.
Proof.
  split; [reflexivity|].
  destruct (Month_Next_Prev 202312%Z eq_refl) as (_ & H & _ & _); [lia|exact H].
Defined.

(** Every 64-bit integer printed by [NumToStr] is read back by [StrToInt64], and by
    [StrToInt32] when it fits 32 bits; an integer outside 32 bits is a range error there. *)
Theorem StrToInt_NumToStr z :
  in_int64 z ->
  StrToInt64 (NumToStr z) = inl z /\
  StrToInt32 (NumToStr z) =
    if ((- 2 ^ 31 <=? z) && (z <? 2 ^ 31))%Z then inl z else inr ErrRange.
Proof.
  unfold in_int64. intros Hz. unfold StrToInt64, StrToInt32, NumToStr.
  destruct (decide (fmt_d z = "")) as [E|_]; [by apply fmt_d_nonempty in E|].
  rewrite ParseInt_fmt_d by lia. split; [done|].
  assert (H64 : ParseInt 10 64 (fmt_d z) = inl z) by (apply ParseInt_fmt_d; lia).
  unfold ParseInt in *. destruct (match fmt_d z with String "-" r => _ | _ => _ end) as [neg ds].
  destruct (parse_base 10 ds) as [n|]; [|done].
  destruct neg; match goal with H : (if ?b then _ else _) = inl _ |- _ => destruct b; [|done] end;
    injection H64 as <-; done.
Qed.

Lemma StrToInt_NumToStr_witness :
  StrToInt64 (NumToStr (-5000000000)%Z) = inl (-5000000000)%Z.
Proof. apply (StrToInt_NumToStr (-5000000000)%Z). unfold in_int64. lia. Defined.

(** [StrToBool] reads both printed booleans as [true]. *)
Lemma StrToBool_BoolToStr b : StrToBool (BoolToStr b) = Some true.
Proof. by destruct b. Qed.
