(* ===== verification/Common.v ===== *)
(** * pkg/common: identified objects, named objects, paths and typed parameters

    Objects and named objects are records with the getters and setters of the code.  Paths
    keep their sections in Go slices, and [SetParent] appends to a slice of the parent, so
    the sections live in an explicit store of arrays and a slice is a window on one of them:
    two slices may share an array, as in Go. *)
From Stdlib Require Import Ascii.
From S2P Require Import Prelude GoTime Utils.
Open Scope go_scope.

(** ** Identified objects (base_object.go) *)

Module ObjectBase.
Record t := { ID : string; CREATED_AT : Z; UPDATED_AT : Z }.

(** The zero value of the Go struct. *)
Definition zero : t := {| ID := ""; CREATED_AT := 0; UPDATED_AT := 0 |}.
#[global] Instance eq_dec : EqDecision t.
Proof. solve_decision. Defined.

Definition GetID (o : t) : string := ID o.
Definition SetID (id : string) (o : t) : t :=
  {| ID := id; CREATED_AT := CREATED_AT o; UPDATED_AT := UPDATED_AT o |}.
Definition GenerateID (o : t) : M Env t :=
  let* id := Utils.GenerateID in ret (SetID id o).
Definition InitCreatedAt (o : t) : M Env t :=
  let* now := Now in
  ret {| ID := ID o; CREATED_AT := truncate microsecond now; UPDATED_AT := UPDATED_AT o |}.
Definition SetCreatedAt (v : Z) (o : t) : t :=
  {| ID := ID o; CREATED_AT := v; UPDATED_AT := UPDATED_AT o |}.
Definition SetUpDatedAt (v : Z) (o : t) : t :=
  {| ID := ID o; CREATED_AT := CREATED_AT o; UPDATED_AT := v |}.
Definition InitObject (o : t) : M Env t :=
  let* o1 := GenerateID o in
  let* o2 := InitCreatedAt o1 in
  ret (SetUpDatedAt (CREATED_AT o2) o2).
End ObjectBase.

Module ObjectWithMonth.
Record t := { base : ObjectBase.t; Month : Utils.Month.t }.

(** The error of [MonthFromId] is dropped, the month is then zero. *)
Definition InitObject (tz : Z) (o : t) : M Env t :=
  let* b := ObjectBase.InitObject (base o) in
  let month := match Utils.Month.MonthFromId tz (ObjectBase.GetID b) with
               | inl m => m
               | inr _ => 0%Z
               end in
  ret {| base := b; Month := month |}.
End ObjectWithMonth.

(** ** Attributes (misc_types.go, withnameandpath.go) *)

Module WithActive.
(** [Init] activates unless the first optional argument says otherwise. *)
Definition Init (notActive : list bool) : bool :=
  let ACTIVE := true in
  match notActive with
  | [] => ACTIVE
  | b :: _ => if b then false else ACTIVE
  end.
End WithActive.

(** ** Typed parameters (parameter.go) *)

Set Warnings "-register-all".
(** Values of the [any] parameters, tagged with their dynamic type. *)
Inductive any :=
| AnyNil
| AnyString (s : string) | AnyBool (b : bool) | AnyInt (i : Z) | AnyInt64 (i : Z)
| AnyUint (u : Z) | AnyUint64 (u : Z) | AnyTime (t : Z) | AnyDuration (d : Z)
| AnyStrings (l : list string) | AnyMap (m : list (string * any))
| AnyStringMap (m : list (string * string)) | AnyStringsMap (m : list (string * list string)).

Module WithParameters.
Section Getters.
(** [GetParameter] of the interface. *)
Variable GetParameter : string -> option any.

Definition HasParameter (key : string) : bool := bool_decide (is_Some (GetParameter key)).

(** Shared by the getters: the zero value unless the assertion succeeds. *)
Definition get_as {T} (zero : T) (assert_ : any -> option T) (key : string) : T :=
  match GetParameter key with
  | Some val => default zero (assert_ val)
  | None => zero
  end.

Definition GetString := get_as "" (fun v => match v with AnyString s => Some s | _ => None end).
Definition GetBool := get_as false (fun v => match v with AnyBool b => Some b | _ => None end).
Definition GetInt := get_as 0%Z (fun v => match v with AnyInt i => Some i | _ => None end).
Definition GetInt64 := get_as 0%Z (fun v => match v with AnyInt64 i => Some i | _ => None end).
Definition GetUint := get_as 0%Z (fun v => match v with AnyUint i => Some i | _ => None end).
Definition GetUint64 := get_as 0%Z (fun v => match v with AnyUint64 i => Some i | _ => None end).
Definition GetTime := get_as 0%Z (fun v => match v with AnyTime t => Some t | _ => None end).
Definition GetDuration := get_as 0%Z (fun v => match v with AnyDuration d => Some d | _ => None end).
Definition GetStringSlice := get_as [] (fun v => match v with AnyStrings l => Some l | _ => None end).
Definition GetStringMap := get_as [] (fun v => match v with AnyMap m => Some m | _ => None end).
Definition GetStringMapString :=
  get_as [] (fun v => match v with AnyStringMap m => Some m | _ => None end).
Definition GetStringMapStringSlice :=
  get_as [] (fun v => match v with AnyStringsMap m => Some m | _ => None end).
End Getters.
End WithParameters.

(** ** strings.Split and strings.Join *)

Fixpoint split_go (sep : string) (skip : nat) (acc s : string) : list string :=
  match s with
  | "" => [acc]
  | String c s' =>
      match skip with
      | S k => split_go sep k acc s'
      | O => if String.prefix sep s then acc :: split_go sep (String.length sep - 1) "" s'
             else split_go sep 0 (acc +:+ String c "") s'
      end
  end.

Fixpoint explode (s : string) : list string :=
  match s with
  | "" => []
  | String c r => String c "" :: explode r
  end.

(** [strings.Split]; an empty separator splits between the bytes. *)
Definition Split (s sep : string) : list string :=
  match sep with "" => explode s | _ => split_go sep 0 "" s end.

Definition Join (elems : list string) (sep : string) : string := String.concat sep elems.

(** ** Slices: windows on shared arrays *)

Record slice := { s_arr : nat; s_len : nat; s_cap : nat }.
Abbreviation store := (list (list string)).

(** The elements a slice shows; a slice of this package always starts at index 0. *)
Definition elems (h : store) (s : slice) : list string :=
  take (s_len s) (default [] (h !! s_arr s)).

(** A fresh array whose length and capacity are those of the list. *)
Definition make_slice (l : list string) : M store slice :=
  fun h => ({| s_arr := length h; s_len := length l; s_cap := length l |}, h ++ [l]).

(** [s[:n]] *)
Definition reslice (n : nat) (s : slice) : slice :=
  {| s_arr := s_arr s; s_len := n; s_cap := s_cap s |}.

Section Append.
(** Capacity chosen by the runtime when an append does not fit. *)
Variable grow : nat -> nat -> nat.

(** [append(s, l...)]: in place when the capacity suffices, in a new array otherwise. *)
Definition append (s : slice) (l : list string) : M store slice := fun h =>
  let n := (s_len s + length l)%nat in
  if (n <=? s_cap s)%nat then
    let a := default [] (h !! s_arr s) in
    ({| s_arr := s_arr s; s_len := n; s_cap := s_cap s |},
     <[s_arr s := take (s_len s) a ++ l ++ drop n a]> h)
  else
    let c := Nat.max n (grow (s_cap s) n) in
    ({| s_arr := length h; s_len := n; s_cap := c |},
     h ++ [elems h s ++ l ++ replicate (c - n) ""]).
End Append.

(** ** Paths (withnameandpath.go) *)

Module WithPath.
(** [path] and [separator] are immutable strings, [sections] is a slice. *)
Record t := { path : string; sections : slice; separator : string }.

Definition ConstructPath (sections : list string) (separator : string) : string :=
  Join sections separator.

Definition Init (path : string) (separator : list string) : M store t :=
  let sep := OptionalArg "/" separator in
  let* s := make_slice (Split path sep) in
  ret {| path := path; sections := s; separator := sep |}.

Definition Sections (h : store) (w : t) : list string := elems h (sections w).

Definition FullPath (h : store) (w : t) : string := ConstructPath (Sections h w) (separator w).

(** All the paths from the root to this one. *)
Definition Paths (h : store) (w : t) : list string :=
  "/" :: map (fun i => ConstructPath (take (S i) (Sections h w)) (separator w))
           (seq 1 (length (Sections h w) - 1)).

Definition adjustFirstSection (sections : list string) : list string :=
  match sections with
  | "" :: r => r
  | _ => sections
  end.

(** Panics ([None]) when the parent has no sections. *)
Definition SetParent (grow : nat -> nat -> nat) (parent w : t) : M store (option t) := fun h =>
  let own := adjustFirstSection (Split (path w) (separator w)) in
  let ps := sections parent in
  match last (elems h ps) with
  | None => (None, h)
  | Some l =>
      let '(s, h') := if decide (l = "") then append grow (reslice (s_len ps - 1) ps) own h
                      else append grow ps own h in
      (Some {| path := path w; sections := s; separator := separator w |}, h')
  end.
End WithPath.

(** ** Split and Join *)

Lemma join_cons x y l sep : Join (x :: y :: l) sep = x +:+ sep +:+ Join (y :: l) sep.
Proof. done. Qed.

Lemma join_app l1 l2 sep :
  l1 <> [] -> l2 <> [] -> Join (l1 ++ l2) sep = Join l1 sep +:+ sep +:+ Join l2 sep.
Proof.
  intros H1 H2. induction l1 as [|x [|y l1] IH]; [done| |].
  - by destruct l2.
  - change (Join (x :: y :: l1 ++ l2) sep = Join (x :: y :: l1) sep +:+ sep +:+ Join l2 sep).
    rewrite !join_cons. change (y :: l1 ++ l2) with ((y :: l1) ++ l2).
    rewrite IH by done. by autorewrite with str.
Qed.

Lemma split_go_ne sep k acc s : split_go sep k acc s <> [].
Proof.
  revert k acc; induction s as [|c s IH]; intros k acc; [done|].
  destruct k; cbn [split_go]; [case_match; [done|apply IH]|apply IH].
Qed.

Lemma join_cons_ne x l sep : l <> [] -> Join (x :: l) sep = x +:+ sep +:+ Join l sep.
Proof. by destruct l. Qed.

Lemma prefix_spec p s : String.prefix p s = true -> s = p +:+ str_drop (String.length p) s.
Proof.
  revert s; induction p as [|c p IH]; intros s; [by rewrite str_app_nil_l|].
  destruct s as [|d s]; cbn; [done|]. destruct (ascii_dec c d) as [->|]; [|done].
  intros H. rewrite str_app_cons. by rewrite <- IH.
Qed.

Lemma join_split_go sep k acc s :
  sep <> "" -> k <= String.length s ->
  Join (split_go sep k acc s) sep = acc +:+ str_drop k s.
Proof.
  intros Hsep. revert k acc; induction s as [|c s IH]; intros k acc Hk.
  - cbn in *. destruct k; [by rewrite str_app_nil_r|lia].
  - destruct k as [|k]; cbn [split_go str_drop]; [|apply IH; cbn in Hk; lia].
    destruct (String.prefix sep (String c s)) eqn:E.
    + apply prefix_spec in E.
      destruct sep as [|d sep]; [done|]. cbn [String.length str_drop] in E.
      rewrite str_app_cons in E. injection E as -> E.
      rewrite join_cons_ne by apply split_go_ne.
      cbn [String.length]. rewrite ?Nat.sub_succ, ?Nat.sub_0_r.
      rewrite IH.
      * rewrite str_app_nil_l. rewrite (str_app_cons d sep). by rewrite <- E.
      * rewrite E, str_length_app. lia.
    + rewrite IH by (cbn; lia). cbn [str_drop]. by autorewrite with str.
Qed.

Lemma Split_ne s sep : sep <> "" -> Split s sep <> [].
Proof. destruct sep; [done|]. intros _. apply split_go_ne. Qed.

Lemma Join_Split s sep : sep <> "" -> Join (Split s sep) sep = s.
Proof.
  intros Hsep. assert (Split s sep = split_go sep 0 "" s) as -> by (by destruct sep).
  rewrite join_split_go by (done || lia). by rewrite str_app_nil_l.
Qed.

(** ** Slices *)

(** A slice inside an allocated array of its capacity. *)
Definition slice_ok (h : store) (s : slice) : Prop :=
  exists a, h !! s_arr s = Some a /\ length a = s_cap s /\ s_len s <= s_cap s.

Lemma elems_length h s : slice_ok h s -> length (elems h s) = s_len s.
Proof. intros (a & Ha & Hl & Hc). unfold elems. rewrite Ha. cbn. rewrite length_take. lia. Qed.

Lemma make_slice_spec l h :
  wp (make_slice l) (fun s h' => elems h' s = l /\ slice_ok h' s /\
                                 forall s0, slice_ok h s0 -> elems h' s0 = elems h s0 /\ slice_ok h' s0) h.
Proof.
  unfold wp, make_slice; cbn. unfold elems, slice_ok; cbn.
  rewrite lookup_app_r, Nat.sub_diag by lia. cbn. rewrite firstn_all.
  split; [done|]. split; [eauto|].
  intros s0 (a & Ha & ?). rewrite lookup_app_l by (by eapply lookup_lt_Some).
  rewrite Ha. eauto.
Qed.

Lemma elems_alloc h x s0 : slice_ok h s0 -> elems (h ++ [x]) s0 = elems h s0 /\ slice_ok (h ++ [x]) s0.
Proof.
  intros (a & Ha & ?). unfold elems, slice_ok.
  rewrite lookup_app_l by (by eapply lookup_lt_Some). rewrite Ha. eauto.
Qed.

(** The appended slice shows the old elements and the new ones; a slice on another array is
    untouched, a slice on the same array keeps what it shows up to the old length. *)
Lemma append_spec grow s l h :
  slice_ok h s ->
  wp (append grow s l)
     (fun s' h' => elems h' s' = elems h s ++ l /\ slice_ok h' s' /\
        forall s0, slice_ok h s0 -> slice_ok h' s0 /\
          (s_arr s0 <> s_arr s \/ s_len s0 <= s_len s -> elems h' s0 = elems h s0)) h.
Proof.
  intros (a & Ha & Hl & Hc). unfold wp, append.
  destruct (s_len s + length l <=? s_cap s)%nat eqn:E; cbn.
  - apply Nat.leb_le in E. unfold elems; cbn. rewrite Ha. cbn.
    rewrite list_lookup_insert_eq by (by eapply lookup_lt_Some). cbn.
    split; [|split].
    + rewrite app_assoc, take_app_length'; [done|]. rewrite length_app, length_take. lia.
    + eexists; cbn. rewrite list_lookup_insert_eq by (by eapply lookup_lt_Some).
      split; [done|]. rewrite !length_app, length_take, length_drop. lia.
    + intros s0 (b & Hb & Hbl & Hbc). unfold slice_ok.
      destruct (decide (s_arr s0 = s_arr s)) as [Heq|Hne].
      * rewrite Heq in *. rewrite list_lookup_insert_eq by (by eapply lookup_lt_Some).
        assert (a = b) as -> by congruence. split.
        -- eexists; split; [done|]. rewrite !length_app, length_take, length_drop. lia.
        -- intros [?|Hle]; [done|]. rewrite Hb; cbn.
           rewrite take_app_le by (rewrite length_take; lia). rewrite take_take. f_equal. lia.
      * rewrite list_lookup_insert_ne by done. eauto.
  - apply Nat.leb_gt in E. split; [|split].
    + unfold elems at 1; cbn. rewrite lookup_app_r, Nat.sub_diag by lia. cbn.
      rewrite app_assoc. apply take_app_length'.
      rewrite length_app, elems_length by (exists a; eauto). done.
    + eexists; cbn. rewrite lookup_app_r, Nat.sub_diag by lia. split; [done|].
      rewrite !length_app, length_replicate, elems_length by (exists a; eauto). lia.
    + intros s0 H0. pose proof (elems_alloc h (elems h s ++ l ++
        replicate (Nat.max (s_len s + length l) (grow (s_cap s) (s_len s + length l)) -
                   (s_len s + length l)) "") s0 H0) as [? ?]. auto.
Qed.

Lemma reslice_ok h s n : slice_ok h s -> n <= s_len s -> slice_ok h (reslice n s).
Proof. intros (a & Ha & Hl & Hc) Hn. exists a. cbn. repeat split; [done..|lia]. Qed.

Lemma reslice_elems h s n : n <= s_len s -> elems h (reslice n s) = take n (elems h s).
Proof. intros. unfold elems, reslice; cbn. rewrite take_take. f_equal. lia. Qed.

(** ** SetParent *)

Lemma split_go_skip sep acc a b : split_go sep (String.length a) acc (a +:+ b) = split_go sep 0 acc b.
Proof. induction a as [|c a IH]; [done|]. rewrite str_app_cons. apply IH. Qed.

Lemma prefix_app a b : String.prefix a (a +:+ b) = true.
Proof.
  induction a as [|c a IH]; [by destruct b|]. rewrite str_app_cons. cbn.
  by destruct (ascii_dec c c).
Qed.

(** A path that starts with the separator has an empty first section. *)
Lemma Split_sep_first sep p : sep <> "" -> Split (sep +:+ p) sep = "" :: Split p sep.
Proof.
  intros Hsep. destruct sep as [|c sep]; [done|]. cbn [Split].
  rewrite str_app_cons. cbn [split_go].
  rewrite <- (str_app_cons c sep p), prefix_app. cbn [String.length].
  rewrite Nat.sub_succ, Nat.sub_0_r. by rewrite split_go_skip.
Qed.

(** Attaching a resource below a parent: the child's full path is the parent's full path,
    the separator and the child's own path, whatever the separator and the capacities chosen by
    [append], and the parent's full path does not change, when the parent's last section is not
    empty. *)
Theorem SetParent_FullPath grow parent w sep p h :
  sep <> "" -> WithPath.separator w = sep -> WithPath.separator parent = sep ->
  WithPath.path w = sep +:+ p ->
  slice_ok h (WithPath.sections parent) ->
  (exists l, last (WithPath.Sections h parent) = Some l /\ l <> "") ->
  exists w' h',
    WithPath.SetParent grow parent w h = (Some w', h') /\
    WithPath.FullPath h' w' = WithPath.FullPath h parent +:+ sep +:+ p /\
    WithPath.FullPath h' parent = WithPath.FullPath h parent.
Proof.
  intros Hsep Hw Hpar Hpath Hok (l & Hl & Hne).
  unfold WithPath.SetParent, WithPath.Sections in *. rewrite Hl, decide_False by done.
  rewrite Hpath, Hw, Split_sep_first by done. cbn [WithPath.adjustFirstSection].
  pose proof (append_spec grow _ (Split p sep) h Hok) as H. unfold wp in H.
  destruct (append _ _ _ _) as [s' h'] eqn:E; cbn in H. destruct H as (Hs & _ & Hfr).
  eexists _, _. split; [done|]. unfold WithPath.FullPath, WithPath.ConstructPath, WithPath.Sections.
  cbn. rewrite Hs, Hpar, ?Hw. rewrite join_app.
  - rewrite Join_Split by done. split; [done|]. f_equal. apply Hfr; [done|]. right. lia.
  - intros Hnil. by rewrite Hnil in Hl.
  - by apply Split_ne.
Qed.

Definition path_demo : WithPath.t * WithPath.t * store :=
  let '(parent, h) := WithPath.Init "/tenants/shop" [] [] in
  let '(w, h') := WithPath.Init "/orders" [] h in (parent, w, h').

Lemma SetParent_FullPath_witness :
  exists w' h', WithPath.SetParent (fun _ n => n) path_demo.1.1 path_demo.1.2 path_demo.2 = (Some w', h') /\
    WithPath.FullPath h' w' = "/tenants/shop/orders".
Proof.
  destruct (SetParent_FullPath (fun _ n => n) path_demo.1.1 path_demo.1.2 "/" "orders" path_demo.2)
    as (w' & h' & E & F & _).
  - done.
  - reflexivity.
  - reflexivity.
  - reflexivity.
  - eexists. vm_compute. split; [reflexivity|]. split; [reflexivity|lia].
  - exists "shop". split; [reflexivity|done].
  - exists w', h'. split; [exact E|]. rewrite F. reflexivity.
Defined.

(** Under a parent whose path ends with the separator, the child's section is written over the
    parent's own last section, in the array both share. *)
Lemma SetParent_overwrites_parent :
  let '(parent, h) := WithPath.Init "/shop/" [] [] in
  let '(w, h1) := WithPath.Init "/orders" [] h in
  let '(w', h2) := WithPath.SetParent (fun _ n => n) parent w h1 in
  WithPath.FullPath h1 parent = "/shop/" /\ WithPath.FullPath h2 parent = "/shop/orders".
Proof. vm_compute. done. Qed.

(** Two children appended to a parent whose slice has spare capacity share an array cell: the
    second one renames the first. *)
Lemma SetParent_siblings_clash :
  let '(root, h) := WithPath.Init "/api" [] [] in
  let '(mid0, h1) := WithPath.Init "/v1" [] h in
  match WithPath.SetParent (fun c _ => (2 * c)%nat) root mid0 h1 with
  | (Some mid, h2) =>
      let '(a, h3) := WithPath.Init "/a" [] h2 in
      let '(b, h4) := WithPath.Init "/b" [] h3 in
      match WithPath.SetParent (fun c _ => (2 * c)%nat) mid a h4 with
      | (Some a', h5) =>
          let '(_, h6) := WithPath.SetParent (fun c _ => (2 * c)%nat) mid b h5 in
          WithPath.FullPath h5 a' = "/api/v1/a" /\ WithPath.FullPath h6 a' = "/api/v1/b"
      | _ => False
      end
  | _ => False
  end.
Proof. vm_compute. done. Qed.
