(* ===== verification/Errors.v ===== *)
(** * pkg/generic_error: errors with codes, error managers and error definitions

    [error] is Go's error interface: a native error, known by its message only, or a
    [generic_error.ErrorBase].  A nil error is [None].  The maps of the extenders are Go maps,
    reference values: [ErrorsExtenderBase.Init] keeps the map it is given, so the maps live in
    a store and an extender holds references to them. *)
From S2P Require Import Prelude Utils.
Open Scope go_scope.

(** ** Codes and tables (common_errors.go) *)

Definition ErrorCodeUnknown := "unknown_error".
Definition ErrorCodeInternalServerError := "internal_server_error".
Definition ErrorCodeFormat := "invalid_format".
Definition ErrorCodeFieldValue := "invalid_field_value".
Definition ErrorCodeValidation := "validation_failed".
Definition ErrorCodeForbidden := "forbidden".
Definition ErrorCodeNotFound := "resource_not_found".
Definition ErrorCodeExternalServiceUnavailable := "external_service_unavailable".
Definition ErrorCodeExternalServiceError := "external_service_error".
Definition ErrorCodeUnsupported := "operation_unsupported".

(** The constants of net/http in use. *)
Definition StatusBadRequest : Z := 400.
Definition StatusUnauthorized : Z := 401.
Definition StatusForbidden : Z := 403.
Definition StatusNotFound : Z := 404.
Definition StatusInternalServerError : Z := 500.

Definition CommonErrorDescriptions : gmap string string := list_to_map
  [(ErrorCodeUnknown, "Unknown error.");
   (ErrorCodeInternalServerError, "Internal server error.");
   (ErrorCodeFormat, "Invalid format of request.");
   (ErrorCodeFieldValue, "Invalid value of request field.");
   (ErrorCodeValidation, "Validation failed.");
   (ErrorCodeForbidden, "Access denied.");
   (ErrorCodeNotFound, "Resource not found.");
   (ErrorCodeExternalServiceUnavailable, "External service is temporarily unavailable.");
   (ErrorCodeExternalServiceError, "External service reported error.");
   (ErrorCodeUnsupported, "Operation unsupported.")].

Definition CommonErrorHttpCodes : gmap string Z := list_to_map
  [(ErrorCodeUnknown, StatusInternalServerError);
   (ErrorCodeInternalServerError, StatusInternalServerError);
   (ErrorCodeForbidden, StatusForbidden);
   (ErrorCodeNotFound, StatusNotFound);
   (ErrorCodeExternalServiceUnavailable, StatusInternalServerError);
   (ErrorCodeExternalServiceError, StatusInternalServerError)].

(** ** Errors (generic_error.go) *)

Set Warnings "-register-all".
Inductive error :=
| Native (message : string)
| Generic (code message details : string) (original : option error).

#[export] Instance error_eq_dec : EqDecision error.
Proof.
  refine (fix go (x y : error) : Decision (x = y) :=
    match x, y with
    | Native a, Native b => cast_if (decide (a = b))
    | Generic a1 a2 a3 o1, Generic b1 b2 b3 o2 =>
        cast_if_and4 (decide (a1 = b1)) (decide (a2 = b2)) (decide (a3 = b3))
          (match o1 as p1, o2 as p2 return Decision (p1 = p2) with
           | None, None => left eq_refl
           | Some e1, Some e2 => cast_if (go e1 e2)
           | _, _ => right _
           end)
    | _, _ => right _
    end); abstract congruence.
Defined.

Definition New (code : string) (message : list string) : error :=
  Generic code (match message with [] => "" | m :: _ => m end) "" None.

(** [err.Error()]: the message, followed by the errors it originates from. *)
Fixpoint Error (e : error) : string :=
  match e with
  | Native m => m
  | Generic _ m _ (Some o) => m +:+ ": " +:+ Error o
  | Generic _ m _ None => m
  end.

Definition NewFromErr (err : error) (code : list string) : error :=
  New (OptionalArg ErrorCodeUnknown code) [Error err].
Definition NewFromOriginal (code message : string) (original : option error) : error :=
  Generic code message "" original.
Definition NewFromMessage (message : string) : error := Generic ErrorCodeUnknown message "" None.

Definition Code (e : option error) : string :=
  match e with
  | None => ""
  | Some (Native _) => ErrorCodeUnknown
  | Some (Generic c _ _ _) => c
  end.

Definition Message (e : option error) : string :=
  match e with
  | None => ""
  | Some e => Error e
  end.

Definition Details (e : option error) : string :=
  match e with
  | Some (Generic _ _ d _) => d
  | _ => ""
  end.

(** For a native error the code returns the nil of the failed assertion. *)
Definition Original (e : option error) : option error :=
  match e with
  | Some (Generic _ _ _ o) => o
  | _ => None
  end.

Definition SetMessage (msg : string) (e : error) : error :=
  match e with Generic c _ d o => Generic c msg d o | Native _ => e end.
Definition SetDetails (d : string) (e : error) : error :=
  match e with Generic c m _ o => Generic c m d o | Native _ => e end.
Definition SetOriginal (o : option error) (e : error) : error :=
  match e with Generic c m d _ => Generic c m d o | Native _ => e end.

(** ** Error managers (error_manager.go) *)

Module ErrorManagerBase.
Record t := {
  descriptions : gmap string string;
  protocolCodes : gmap string Z;
  defaultProtocolCode : Z
}.

Definition AddErrorDescriptions (m : gmap string string) (e : t) : t :=
  {| descriptions := AppendMap (descriptions e) m; protocolCodes := protocolCodes e;
     defaultProtocolCode := defaultProtocolCode e |}.

Definition AddErrorProtocolCodes (m : gmap string Z) (e : t) : t :=
  {| descriptions := descriptions e; protocolCodes := AppendMap (protocolCodes e) m;
     defaultProtocolCode := defaultProtocolCode e |}.

Definition SetDefaultErrorProtocolCode (code : Z) (e : t) : t :=
  {| descriptions := descriptions e; protocolCodes := protocolCodes e;
     defaultProtocolCode := code |}.

Definition Init (defaultProtocolCode : Z) : t :=
  AddErrorDescriptions CommonErrorDescriptions
    {| descriptions := ∅; protocolCodes := ∅; defaultProtocolCode := defaultProtocolCode |}.

(** [ErrorManagerBaseHttp.Init] *)
Definition InitHttp : t :=
  AddErrorProtocolCodes CommonErrorHttpCodes
    (AddErrorDescriptions CommonErrorDescriptions (Init StatusBadRequest)).

Definition ErrorDescription (e : t) (code : string) (tr : list (string -> string)) : string :=
  let description := default code (descriptions e !! code) in
  match tr with
  | [] => description
  | f :: _ => f description
  end.

Definition ErrorProtocolCode (e : t) (code : string) : Z :=
  default (defaultProtocolCode e) (protocolCodes e !! code).

Definition MakeGenericError (e : t) (code : string) (tr : list (string -> string)) : error :=
  New code [ErrorDescription e code tr].
End ErrorManagerBase.

(** ** Error definitions shared by reference (error_manager.go) *)

Module ErrorsExtenderBase.
Record maps := { desc_maps : list (gmap string string); code_maps : list (gmap string Z) }.

(** [None] is a nil map. *)
Record t := { errorDescriptions : option nat; errorProtocolCodes : option nat }.

Definition zero : t := {| errorDescriptions := None; errorProtocolCodes := None |}.

(** A nil map reads as the empty one. *)
Definition deref {V} (h : list (gmap string V)) (r : option nat) : gmap string V :=
  match r with Some i => default ∅ (h !! i) | None => ∅ end.

Definition Descriptions (h : maps) (e : t) : gmap string string :=
  deref (desc_maps h) (errorDescriptions e).
Definition Codes (h : maps) (e : t) : gmap string Z := deref (code_maps h) (errorProtocolCodes e).

Definition Init (d : option nat) (c : list (option nat)) (e : t) : t :=
  {| errorDescriptions := d;
     errorProtocolCodes := match c with [] => errorProtocolCodes e | x :: _ => x end |}.

(** [utils.AppendMap] through a reference; writing to a nil map panics ([None]). *)
Definition append_ref {V} (h : list (gmap string V)) (dst : option nat) (m : gmap string V) :
  option (list (gmap string V)) :=
  match dst with
  | Some i => Some (alter (fun m0 => AppendMap m0 m) i h)
  | None => if decide (m = ∅) then Some h else None
  end.

Definition AddErrors (d : option nat) (c : list (option nat)) (e : t) (h : maps) : option (t * maps) :=
  match errorDescriptions e with
  | None => Some (Init d c e, h)
  | Some _ =>
      dh ← append_ref (desc_maps h) (errorDescriptions e) (deref (desc_maps h) d);
      match c with
      | [] => Some (e, {| desc_maps := dh; code_maps := code_maps h |})
      | x :: _ =>
          ch ← append_ref (code_maps h) (errorProtocolCodes e) (deref (code_maps h) x);
          Some (e, {| desc_maps := dh; code_maps := ch |})
      end
  end.

Definition AttachToErrorManager (h : maps) (e : t) (m : ErrorManagerBase.t) : ErrorManagerBase.t :=
  ErrorManagerBase.AddErrorProtocolCodes (Codes h e)
    (ErrorManagerBase.AddErrorDescriptions (Descriptions h e) m).

Definition AppendErrorExtender (extender e : t) (h : maps) : option (t * maps) :=
  AddErrors (errorDescriptions extender) [errorProtocolCodes extender] e h.
End ErrorsExtenderBase.

(** ** Theorems *)

Lemma ErrorDescription_add m e code :
  ErrorManagerBase.ErrorDescription (ErrorManagerBase.AddErrorDescriptions m e) code [] =
  default (ErrorManagerBase.ErrorDescription e code []) (m !! code).
Proof.
  unfold ErrorManagerBase.ErrorDescription. cbn. rewrite AppendMap_union.
  rewrite lookup_union. destruct (m !! code), (ErrorManagerBase.descriptions e !! code); done.
Qed.

Lemma ErrorProtocolCode_add m e code :
  ErrorManagerBase.ErrorProtocolCode (ErrorManagerBase.AddErrorProtocolCodes m e) code =
  default (ErrorManagerBase.ErrorProtocolCode e code) (m !! code).
Proof.
  unfold ErrorManagerBase.ErrorProtocolCode. cbn. rewrite AppendMap_union.
  rewrite lookup_union. destruct (m !! code), (ErrorManagerBase.protocolCodes e !! code); done.
Qed.

#[export] Hint Rewrite ErrorDescription_add ErrorProtocolCode_add : go.

(** A Go error with an original reads back: the code is kept, the message chains the originals. *)
Lemma NewFromOriginal_Message code msg o :
  Message (Some (NewFromOriginal code msg (Some o))) = msg +:+ ": " +:+ Message (Some o).
Proof. done. Qed.

Section Extender.
Import ErrorsExtenderBase.

(** References into the store. *)
Definition refs_ok (h : maps) (e : t) : Prop :=
  (forall i, errorDescriptions e = Some i -> is_Some (desc_maps h !! i)) /\
  (forall i, errorProtocolCodes e = Some i -> is_Some (code_maps h !! i)).

Lemma deref_append_ref {V} (h h' : list (gmap string V)) dst m :
  (forall i, dst = Some i -> is_Some (h !! i)) ->
  append_ref h dst m = Some h' -> deref h' dst = m ∪ deref h dst.
Proof.
  intros Hok. destruct dst as [i|]; cbn.
  - intros [= <-]. destruct (Hok i eq_refl) as [m0 E].
    rewrite list_lookup_alter_eq, E. cbn. apply AppendMap_union.
  - destruct (decide (m = ∅)) as [->|]; [|done]. intros _. by rewrite (left_id_L ∅ (∪)).
Qed.

(** What an extended definition gives: the added tables over the ones it had. *)
Lemma AppendErrorExtender_tables x e h e' h' :
  refs_ok h e ->
  (errorDescriptions e = None -> errorProtocolCodes e = None) ->
  AppendErrorExtender x e h = Some (e', h') ->
  Descriptions h' e' = Descriptions h x ∪ Descriptions h e /\
  Codes h' e' = Codes h x ∪ Codes h e.
Proof.
  unfold AppendErrorExtender, AddErrors. intros [Hd Hc] Hn.
  destruct (errorDescriptions e) as [i|] eqn:E.
  - destruct (append_ref (desc_maps h) _ _) as [dh|] eqn:E1; cbn [mbind option_bind]; [|done].
    destruct (append_ref (code_maps h) _ _) as [ch|] eqn:E2; cbn [mbind option_bind]; [|done].
    intros [= <- <-]. unfold Descriptions, Codes; cbn [desc_maps code_maps]. rewrite E. split.
    + eapply deref_append_ref; [|done]. intros j [= <-]. by apply Hd.
    + by eapply deref_append_ref.
  - intros [= <- <-]. unfold Descriptions, Codes; cbn. rewrite Hn, E by done. cbn.
    by rewrite !(right_id_L ∅ (∪)).
Qed.
End Extender.

(** The definitions of the first extender are stored by reference: extending the holder with a
    second one writes into the tables of the first. *)
Lemma AppendErrorExtender_writes_first :
  let h := {| ErrorsExtenderBase.desc_maps := [{["a" := "A"]}; {["b" := "B"]}];
              ErrorsExtenderBase.code_maps := [{["a" := 400%Z]}; {["b" := 401%Z]}] |} in
  let x := {| ErrorsExtenderBase.errorDescriptions := Some 0%nat;
              ErrorsExtenderBase.errorProtocolCodes := Some 0%nat |} in
  let y := {| ErrorsExtenderBase.errorDescriptions := Some 1%nat;
              ErrorsExtenderBase.errorProtocolCodes := Some 1%nat |} in
  exists e h1 e2 h2,
    ErrorsExtenderBase.AppendErrorExtender x ErrorsExtenderBase.zero h = Some (e, h1) /\
    ErrorsExtenderBase.AppendErrorExtender y e h1 = Some (e2, h2) /\
    ErrorsExtenderBase.Descriptions h x !! "b" = None /\
    ErrorsExtenderBase.Descriptions h2 x !! "b" = Some "B".
Proof.
  eexists _, _, _, _. split; [reflexivity|]. split; [reflexivity|].
  split; vm_compute; reflexivity.
Qed.

(** Protocol codes and messages of a reported error: once definitions are attached to an
    HTTP error manager, a code they define is answered with its own HTTP status and description,
    a common code they do not redefine with the common ones, and any other code with status 400
    and the code itself as description. *)
Theorem AttachToErrorManager_codes h e code :
  let m := ErrorsExtenderBase.AttachToErrorManager h e ErrorManagerBase.InitHttp in
  ErrorManagerBase.ErrorProtocolCode m code =
    default (default StatusBadRequest (CommonErrorHttpCodes !! code)) (ErrorsExtenderBase.Codes h e !! code) /\
  ErrorManagerBase.MakeGenericError m code [fun s => s] =
    Generic code (default (default code (CommonErrorDescriptions !! code))
                          (ErrorsExtenderBase.Descriptions h e !! code)) "" None.
Proof.
  intros m. subst m. split.
  - unfold ErrorsExtenderBase.AttachToErrorManager. rewrite ErrorProtocolCode_add.
    apply (f_equal (fun d => default d _)).
    unfold ErrorManagerBase.ErrorProtocolCode, ErrorManagerBase.InitHttp,
      ErrorManagerBase.AddErrorProtocolCodes; cbn -[CommonErrorHttpCodes].
    by rewrite AppendMap_union, (right_id_L ∅ (∪)).
  - unfold ErrorManagerBase.MakeGenericError, New.
    apply (f_equal (fun d => Generic code d "" None)). transitivity (ErrorManagerBase.ErrorDescription
      (ErrorManagerBase.AddErrorDescriptions (ErrorsExtenderBase.Descriptions h e)
         ErrorManagerBase.InitHttp) code []); [done|].
    rewrite ErrorDescription_add. apply (f_equal (fun d => default d _)).
    unfold ErrorManagerBase.ErrorDescription; cbn -[CommonErrorDescriptions].
    rewrite !AppendMap_union, (right_id_L ∅ (∪)). by rewrite (idemp_L (∪)).
Qed.
