(* ===== verification/OpContext.v ===== *)
(** * pkg/op_context: the operation context

    A context is the state every operation runs in: the stack of traced calls, the generic
    error to report, the operation log, the error manager and the current transaction.  The
    call contexts are shared objects: [TraceInMethod] returns one, the stack and the error
    stack point to it.  They live in a store ([calls]) and the stacks hold references.

    The state of an operation is [St P X]: the trace, the rest of the context with operation
    logs of payload [P], and the domain's data [X].  [spec m Q o x] speaks of the context and
    the data only, whatever the trace: the reasoning about handlers ignores tracing.  Logger
    fields are output and are left out, but for the stack path in a log entry. *)
From S2P Require Import Prelude GoTime Utils Common Errors.
Open Scope go_scope.

(** ** Origins and operation logs (op_context.go, oplog.go) *)

Record Origin := {
  App : string; Name : string; Source : string;
  SessionClient : string; User : string; UserType : string
}.

Record OplogHolder := {
  Operation : string; ol_Context : string; ol_ContextName : string;
  OriginApp : string; OriginName : string; ol_User : string;
  OriginSource : string; OriginClient : string; ol_UserType : string
}.

Record Oplog (P : Type) := { ol_base : ObjectBase.t; holder : OplogHolder; payload : P }.
Arguments ol_base {P}.
Arguments holder {P}.
Arguments payload {P}.

Definition no_holder : OplogHolder :=
  {| Operation := ""; ol_Context := ""; ol_ContextName := ""; OriginApp := ""; OriginName := "";
     ol_User := ""; OriginSource := ""; OriginClient := ""; ol_UserType := "" |}.

(** A fresh operation log with an operation set. *)
Definition new_oplog {P} (operation : string) (p : P) : Oplog P :=
  {| ol_base := ObjectBase.zero;
     holder := {| Operation := operation; ol_Context := ""; ol_ContextName := ""; OriginApp := "";
                  OriginName := ""; ol_User := ""; OriginSource := ""; OriginClient := "";
                  ol_UserType := "" |};
     payload := p |}.

(** ** The state of a context (default_op_context.go) *)

Record CallContext := { method : string; error_ : option error; message : string }.

Record Trace := {
  calls : list CallContext;
  stack : list nat;
  errorStack : option (list nat)
}.

Inductive log_level := Info | Warn | Err.

(** An entry of the log: its level, the field [stack], the message, the error. *)
Record log_entry := { level : log_level; at_stack : string; text : string; log_error : option error }.

Record Op (P : Type) := {
  op_id : string;
  op_name : string;
  genericError : option error;
  oplogs : list (Oplog P);
  errorManager : ErrorManagerBase.t;
  dbTransaction : bool;
  errorAsWarn : bool;
  writeCloseLog : bool;
  origin : option Origin;
  logs : list log_entry
}.
Arguments op_id {P}.
Arguments op_name {P}.
Arguments genericError {P}.
Arguments oplogs {P}.
Arguments errorManager {P}.
Arguments dbTransaction {P}.
Arguments errorAsWarn {P}.
Arguments writeCloseLog {P}.
Arguments origin {P}.
Arguments logs {P}.

Record St (P X : Type) := { st_trace : Trace; st_op : Op P; st_ext : X }.
Arguments st_trace {P X}.
Arguments st_op {P X}.
Arguments st_ext {P X}.
Arguments Build_St {P X}.

(** Updates of the fields of [Op]. *)
Section Updates.
Context {P : Type}.

Definition set_genericError (e : option error) (o : Op P) : Op P :=
  {| op_id := op_id o; op_name := op_name o; genericError := e; oplogs := oplogs o;
     errorManager := errorManager o; dbTransaction := dbTransaction o;
     errorAsWarn := errorAsWarn o; writeCloseLog := writeCloseLog o; origin := origin o;
     logs := logs o |}.
Definition set_oplogs (l : list (Oplog P)) (o : Op P) : Op P :=
  {| op_id := op_id o; op_name := op_name o; genericError := genericError o; oplogs := l;
     errorManager := errorManager o; dbTransaction := dbTransaction o;
     errorAsWarn := errorAsWarn o; writeCloseLog := writeCloseLog o; origin := origin o;
     logs := logs o |}.
Definition set_dbTransaction (b : bool) (o : Op P) : Op P :=
  {| op_id := op_id o; op_name := op_name o; genericError := genericError o; oplogs := oplogs o;
     errorManager := errorManager o; dbTransaction := b;
     errorAsWarn := errorAsWarn o; writeCloseLog := writeCloseLog o; origin := origin o;
     logs := logs o |}.
Definition set_errorAsWarn (b : bool) (o : Op P) : Op P :=
  {| op_id := op_id o; op_name := op_name o; genericError := genericError o; oplogs := oplogs o;
     errorManager := errorManager o; dbTransaction := dbTransaction o;
     errorAsWarn := b; writeCloseLog := writeCloseLog o; origin := origin o;
     logs := logs o |}.
Definition set_logs (l : list log_entry) (o : Op P) : Op P :=
  {| op_id := op_id o; op_name := op_name o; genericError := genericError o; oplogs := oplogs o;
     errorManager := errorManager o; dbTransaction := dbTransaction o;
     errorAsWarn := errorAsWarn o; writeCloseLog := writeCloseLog o; origin := origin o;
     logs := l |}.
End Updates.

(** ** Parts of the state *)

Section Parts.
Context {P X : Type}.

Definition on_trace {A} (m : M Trace A) : M (St P X) A := fun s =>
  ((m (st_trace s)).1, Build_St (m (st_trace s)).2 (st_op s) (st_ext s)).
Definition on_op {A} (m : M (Op P) A) : M (St P X) A := fun s =>
  ((m (st_op s)).1, Build_St (st_trace s) (m (st_op s)).2 (st_ext s)).
Definition on_ext {A} (m : M X A) : M (St P X) A := fun s =>
  ((m (st_ext s)).1, Build_St (st_trace s) (st_op s) (m (st_ext s)).2).
(** An action of a component of the data. *)
Definition on {Y} `{!Lens X Y} {A} (m : M Y A) : M (St P X) A := on_ext (zoom m).
End Parts.

(** ** Call contexts and tracing *)

Section Tracing.
Context {P X : Type}.

Definition get_call (t : Trace) (c : nat) : CallContext :=
  default {| method := ""; error_ := None; message := "" |} (calls t !! c).

Definition SetError (c : nat) (err : option error) : M (St P X) (option error) := on_trace (fun t =>
  (err, {| calls := alter (fun x => {| method := method x; error_ := err; message := message x |}) c (calls t);
           stack := stack t; errorStack := errorStack t |})).

Definition SetErrorStr (c : nat) (err : string) : M (St P X) (option error) :=
  SetError c (Some (Native err)).

Definition SetMessage (c : nat) (msg : string) : M (St P X) unit := on_trace (fun t =>
  (tt, {| calls := alter (fun x => {| method := method x; error_ := error_ x; message := msg |}) c (calls t);
          stack := stack t; errorStack := errorStack t |})).

Definition stackPath (methods : list string) : string :=
  foldl (fun path m => (if decide (path = "") then path else path +:+ ":") +:+ m) "" methods.

Definition stack_methods (t : Trace) (st : list nat) : list string :=
  map (fun c => method (get_call t c)) st.

Definition TraceInMethod (methodName : string) : M (St P X) nat := on_trace (fun t =>
  (length (calls t),
   {| calls := calls t ++ [{| method := methodName; error_ := None; message := "" |}];
      stack := stack t ++ [length (calls t)]; errorStack := errorStack t |})).

(** The first call that leaves with an error fixes the error stack. *)
Definition TraceOutMethod : M (St P X) unit := on_trace (fun t =>
  match last (stack t) with
  | None => (tt, t)
  | Some c =>
      let es := match error_ (get_call t c), errorStack t with
                | Some _, None => Some (stack t)
                | _, e => e
                end in
      (tt, {| calls := calls t; stack := take (length (stack t) - 1) (stack t); errorStack := es |})
  end).

(** [c := ctx.TraceInMethod(name); defer ctx.TraceOutMethod()] *)
Definition traced {A} (name : string) (body : nat -> M (St P X) A) : M (St P X) A :=
  let* c := TraceInMethod name in
  let* r := body c in
  TraceOutMethod ;;
  ret r.

(** The same with an [onExit] that records the variable [err] of the function, which the body
    returns next to the result. *)
Definition traced_exit {A} (name : string) (body : nat -> M (St P X) (A * option error)) : M (St P X) A :=
  traced name (fun c =>
    let* '(r, err) := body c in
    match err with
    | Some _ => SetError c err ;; ret r
    | None => ret r
    end).
End Tracing.

(** ** Generic errors, operation logs, the end of an operation *)

Section Context_.
Context {P X : Type}.

Definition SetGenericError (err : option error) (override : list bool) : M (St P X) unit :=
  on_op (modify (fun o =>
    if bool_decide (genericError o = None) || bool_decide (err = None) || OptionalArg false override
    then set_genericError err o else o)).

Definition GenericError : M (St P X) (option error) := on_op (gets genericError).

Definition MakeGenericError (code : string) : M (St P X) error :=
  on_op (gets (fun o => ErrorManagerBase.MakeGenericError (errorManager o) code [fun s => s])).

Definition SetGenericErrorCode (code : string) (override : list bool) : M (St P X) unit :=
  let* e := MakeGenericError code in SetGenericError (Some e) override.

Definition ClearError : M (St P X) unit :=
  on_trace (modify (fun t => {| calls := calls t; stack := stack t; errorStack := None |})) ;;
  on_op (modify (set_genericError None)).

Definition Reset : M (St P X) unit :=
  on_trace (modify (fun t => {| calls := calls t; stack := []; errorStack := None |})) ;;
  on_op (modify (fun o => set_oplogs [] (set_genericError None o))).

Definition AddOplog (o : Oplog P) : M (St P X) unit :=
  on_op (modify (fun c => set_oplogs (oplogs c ++ [o]) c)).

Definition SetErrorAsWarn (enable : bool) : M (St P X) unit := on_op (modify (set_errorAsWarn enable)).

(** One round of the loop of [DumpLog] over the error stack. *)
Definition collect (acc : string * option error) (item : CallContext) : string * option error :=
  let '(msg, err) := acc in
  let msg := if decide (message item = "") then msg
             else (if decide (msg = "") then msg else msg +:+ ":")
                  +:+ method item +:+ "(" +:+ message item +:+ ")" in
  (msg, match error_ item with Some e => Some e | None => err end).

Definition DumpLog (successMessage : list string) : M (St P X) unit :=
  let* t := on_trace (gets (fun t => t)) in
  let* o := on_op (gets (fun o => o)) in
  match errorStack t with
  | Some es =>
      let '(msg, err) := foldl collect ("", None) (map (get_call t) es) in
      on_op (modify (fun o => set_logs (logs o ++
        [{| level := if errorAsWarn o then Warn else Err;
            at_stack := stackPath (stack_methods t es); text := msg; log_error := err |}]) o)) ;;
      on_trace (modify (fun t => {| calls := calls t; stack := []; errorStack := errorStack t |}))
  | None =>
      let msg := OptionalArg "success" successMessage in
      if writeCloseLog o && negb (bool_decide (msg = "")) then
        on_op (modify (fun o => set_logs (logs o ++
          [{| level := Info; at_stack := stackPath (stack_methods t (stack t)); text := msg;
              log_error := None |}]) o))
      else ret tt
  end ;;
  ClearError.

(** What [Close] writes in an operation log. *)
Definition fill_oplog (o : Op P) (base : ObjectBase.t) (l : Oplog P) : Oplog P :=
  {| ol_base := base;
     holder := match origin o with
               | Some g => {| Operation := Operation (holder l); ol_Context := op_id o;
                              ol_ContextName := op_name o; OriginApp := App g; OriginName := Name g;
                              ol_User := User g; OriginSource := Source g;
                              OriginClient := SessionClient g; ol_UserType := UserType g |}
               | None => {| Operation := Operation (holder l); ol_Context := op_id o;
                            ol_ContextName := op_name o; OriginApp := OriginApp (holder l);
                            OriginName := OriginName (holder l); ol_User := ol_User (holder l);
                            OriginSource := OriginSource (holder l);
                            OriginClient := OriginClient (holder l);
                            ol_UserType := ol_UserType (holder l) |}
               end;
     payload := payload l |}.

(** [Close] with an oplog handler whose [Write] is given; its error is logged by the handler
    and dropped here. *)
Definition Close `{!Lens X Env} (Write : Oplog P -> M (St P X) (option error))
    (successMessage : list string) : M (St P X) unit :=
  let* o := on_op (gets (fun o => o)) in
  (fix write_all (l : list (Oplog P)) : M (St P X) unit :=
     match l with
     | [] => ret tt
     | x :: r =>
         let* base := on (ObjectBase.InitObject (ol_base x)) in
         Write (fill_oplog o base x) ;; write_all r
     end) (oplogs o) ;;
  DumpLog successMessage.
End Context_.

(** [op_context.DB]: the handlers a call goes to. *)
Inductive db_target := TargetTransaction | TargetMain | TargetDb.

Definition DB {P} (o : Op P) (forceMainDb : list bool) : db_target :=
  if dbTransaction o then TargetTransaction
  else if OptionalArg false forceMainDb then TargetMain else TargetDb.

(** ** Reasoning about the context and the data, whatever the trace *)

Definition spec {P X A} (m : M (St P X) A) (Q : A -> Op P -> X -> Prop) (o : Op P) (x : X) : Prop :=
  forall t, let r := m (Build_St t o x) in Q r.1 (st_op r.2) (st_ext r.2).
Arguments spec : simpl never.

Section Spec.
Context {P X : Type}.
Implicit Types (o : Op P) (x : X).

Lemma spec_ret {A} (a : A) (Q : A -> Op P -> X -> Prop) o x : Q a o x -> spec (ret a) Q o x.
Proof. by intros H t. Qed.

Lemma spec_bind {A B} (m : M (St P X) A) (k : A -> M (St P X) B) Q o x :
  spec m (fun a o' x' => spec (k a) Q o' x') o x -> spec (bind m k) Q o x.
Proof.
  intros H t. specialize (H t). unfold bind. cbn in *.
  destruct (m _) as [a [t' o' x']]. exact (H t').
Qed.

Lemma spec_mono {A} (m : M (St P X) A) (Q Q' : A -> Op P -> X -> Prop) o x :
  (forall a o' x', Q a o' x' -> Q' a o' x') -> spec m Q o x -> spec m Q' o x.
Proof. intros HQ H t. apply HQ, H. Qed.

Lemma spec_and {A} (m : M (St P X) A) (Q Q' : A -> Op P -> X -> Prop) o x :
  spec m Q o x -> spec m Q' o x -> spec m (fun a o' x' => Q a o' x' /\ Q' a o' x') o x.
Proof. intros H H' t. split; [apply H|apply H']. Qed.

Lemma spec_on_trace {A} (m : M Trace A) (Q : A -> Op P -> X -> Prop) o x :
  (forall a, Q a o x) -> spec (on_trace m) Q o x.
Proof. intros H t. apply H. Qed.

Lemma spec_on_op {A} (m : M (Op P) A) (Q : A -> Op P -> X -> Prop) o x :
  Q (m o).1 (m o).2 x -> spec (on_op m) Q o x.
Proof. by intros H t. Qed.

Lemma spec_on_ext {A} (m : M X A) (Q : A -> Op P -> X -> Prop) o x :
  Q (m x).1 o (m x).2 -> spec (on_ext m) Q o x.
Proof. by intros H t. Qed.

Lemma spec_on {Y} `{!Lens X Y} {A} (m : M Y A) (Q : A -> Op P -> X -> Prop) o x :
  wp m (fun a y => Q a o (put y x)) (view x) -> spec (on m) Q o x.
Proof. intros H. by apply spec_on_ext. Qed.

Lemma spec_SetError c err (Q : option error -> Op P -> X -> Prop) o x :
  Q err o x -> spec (SetError c err) Q o x.
Proof. by intros H t. Qed.

Lemma spec_SetErrorStr c err (Q : option error -> Op P -> X -> Prop) o x :
  Q (Some (Native err)) o x -> spec (SetErrorStr c err) Q o x.
Proof. by intros H t. Qed.

Lemma spec_SetMessage c msg (Q : unit -> Op P -> X -> Prop) o x :
  Q tt o x -> spec (SetMessage c msg) Q o x.
Proof. by intros H t. Qed.

Lemma spec_TraceOut (Q : unit -> Op P -> X -> Prop) o x : Q tt o x -> spec TraceOutMethod Q o x.
Proof. intros H. apply spec_on_trace. by intros []. Qed.

(** Tracing does not change what a body does to the context and to the data. *)
Lemma spec_traced {A} name (body : nat -> M (St P X) A) Q o x :
  (forall c, spec (body c) Q o x) -> spec (traced name body) Q o x.
Proof.
  intros H. apply spec_bind, spec_on_trace. intros c. apply spec_bind.
  eapply spec_mono, H. intros a o' x' HQ. apply spec_bind, spec_TraceOut, spec_ret, HQ.
Qed.

Lemma spec_traced_exit {A} name (body : nat -> M (St P X) (A * option error)) Q o x :
  (forall c, spec (body c) (fun r => Q r.1) o x) -> spec (traced_exit name body) Q o x.
Proof.
  intros H. apply spec_traced. intros c. apply spec_bind. eapply spec_mono, H.
  intros [r [e|]] o' x' HQ; [|by apply spec_ret].
  by apply spec_bind, spec_SetError, spec_ret.
Qed.

Lemma spec_AddOplog l (Q : unit -> Op P -> X -> Prop) o x :
  Q tt (set_oplogs (oplogs o ++ [l]) o) x -> spec (AddOplog l) Q o x.
Proof. by intros H t. Qed.

Lemma spec_ClearError (Q : unit -> Op P -> X -> Prop) o x :
  Q tt (set_genericError None o) x -> spec ClearError Q o x.
Proof. by intros H t. Qed.

(** The generic error of a code, with the description of the error manager. *)
Definition coded o (code : string) : error :=
  ErrorManagerBase.MakeGenericError (errorManager o) code [fun s => s].

(** The context after [SetGenericErrorCode code]: the first generic error stays. *)
Definition with_code (code : string) o : Op P :=
  match genericError o with None => set_genericError (Some (coded o code)) o | Some _ => o end.

Lemma spec_SetGenericError e ov (Q : unit -> Op P -> X -> Prop) o x :
  Q tt (match genericError o, e, OptionalArg false ov with
        | Some _, Some _, false => o
        | _, _, _ => set_genericError e o
        end) x ->
  spec (SetGenericError e ov) Q o x.
Proof.
  intros H. apply spec_on_op. cbn -[bool_decide]. destruct (genericError o) eqn:E; [|exact H].
  rewrite bool_decide_eq_false_2 by done. destruct e; [|exact H].
  rewrite bool_decide_eq_false_2 by done. cbn. by destruct (OptionalArg false ov).
Qed.

Lemma spec_SetGenericErrorCode code (Q : unit -> Op P -> X -> Prop) o x :
  Q tt (with_code code o) x -> spec (SetGenericErrorCode code []) Q o x.
Proof.
  intros H. apply spec_bind, spec_on_op, spec_SetGenericError. cbn. unfold with_code in H.
  by destruct (genericError o).
Qed.

Lemma spec_SetGenericErrorCode_override code (Q : unit -> Op P -> X -> Prop) o x :
  Q tt (set_genericError (Some (coded o code)) o) x -> spec (SetGenericErrorCode code [true]) Q o x.
Proof.
  intros H. apply spec_bind, spec_on_op, spec_SetGenericError. cbn. by destruct (genericError o).
Qed.

Lemma with_code_genericError code o :
  genericError (with_code code o) =
  Some (default (coded o code) (genericError o)).
Proof. unfold with_code. destruct (genericError o) eqn:E; [by rewrite E|done]. Qed.

Lemma with_code_none code o :
  genericError o = None -> with_code code o = set_genericError (Some (coded o code)) o.
Proof. unfold with_code. by intros ->. Qed.
End Spec.

#[export] Hint Resolve spec_ret spec_SetError spec_SetErrorStr spec_SetMessage spec_AddOplog : go.

(** Steps through a handler: tracing and messages disappear, the rest becomes a postcondition. *)
Ltac spec_step :=
  lazymatch goal with
  | |- spec (traced _ _) _ _ _ => apply spec_traced; intros ?
  | |- spec (traced_exit _ _) _ _ _ => apply spec_traced_exit; intros ?
  | |- spec (ret _) _ _ _ => apply spec_ret
  | |- spec (bind _ _) _ _ _ => apply spec_bind
  | |- spec (SetError _ _) _ _ _ => apply spec_SetError
  | |- spec (SetErrorStr _ _) _ _ _ => apply spec_SetErrorStr
  | |- spec (SetMessage _ _) _ _ _ => apply spec_SetMessage
  | |- spec (AddOplog _) _ _ _ => apply spec_AddOplog
  | |- spec ClearError _ _ _ => apply spec_ClearError
  | |- spec (SetGenericErrorCode _ []) _ _ _ => apply spec_SetGenericErrorCode
  | |- spec (SetGenericErrorCode _ [true]) _ _ _ => apply spec_SetGenericErrorCode_override
  | |- spec (on_op (gets _)) _ _ _ => apply spec_on_op
  | |- spec GenericError _ _ _ => apply spec_on_op
  | |- spec (on_ext (gets _)) _ _ _ => apply spec_on_ext
  | |- spec (on_ext (modify _)) _ _ _ => apply spec_on_ext
  end.
Ltac spec_go := repeat (spec_step; cbn [fst snd gets modify]).

(** ** The trace *)

Section TraceFacts.
Context {P X : Type}.

(** Every traced call leaves the stack as it found it. *)
Definition balanced {A} (m : M (St P X) A) : Prop :=
  forall s, stack (st_trace (m s).2) = stack (st_trace s).

Lemma balanced_ret {A} (a : A) : balanced (ret a).
Proof. done. Qed.

Lemma balanced_bind {A B} (m : M (St P X) A) (k : A -> M (St P X) B) :
  balanced m -> (forall a, balanced (k a)) -> balanced (bind m k).
Proof. intros Hm Hk s. unfold bind. by rewrite Hk, Hm. Qed.

Lemma TraceOut_stack (s : St P X) :
  stack (st_trace (TraceOutMethod s).2) = take (length (stack (st_trace s)) - 1) (stack (st_trace s)).
Proof.
  unfold TraceOutMethod, on_trace. destruct (last (stack (st_trace s))) eqn:E; [done|].
  apply last_None in E. cbn. by rewrite E.
Qed.

Lemma balanced_traced {A} name (body : nat -> M (St P X) A) :
  (forall c, balanced (body c)) -> balanced (traced name body).
Proof.
  intros H s. unfold traced, bind, ret. cbn [snd]. rewrite TraceOut_stack, H. cbn [TraceInMethod on_trace st_trace stack snd].
  rewrite length_app. cbn [length]. rewrite Nat.add_sub. apply take_app_length.
Qed.

(** A call inside traced calls, each of which adds a message and records an error of its own, or
    none, on the way out. *)
Local Abbreviation frame := (string * string * option error)%type.
Fixpoint fail_chain (frames : list frame) : M (St P X) (option error) :=
  match frames with
  | [] => ret None
  | (name, msg, err) :: r =>
      traced name (fun c =>
        fail_chain r ;;
        SetMessage c msg ;;
        SetError c err)
  end.

Definition call_of (f : frame) : CallContext := {| method := f.1.1; error_ := f.2; message := f.1.2 |}.

(** The deepest call fails; the stack of the error is that of all the calls. *)
Lemma fail_chain_trace frames name msg e s :
  errorStack (st_trace s) = None ->
  let all := frames ++ [(name, msg, Some e)] in
  (fail_chain all s).2 =
  Build_St {| calls := calls (st_trace s) ++ map call_of all;
              stack := stack (st_trace s);
              errorStack := Some (stack (st_trace s) ++ seq (length (calls (st_trace s))) (length all)) |}
           (st_op s) (st_ext s).
Proof.
  revert s. induction frames as [|[[name' msg'] err'] r IH]; intros [[cs st es] o x] Hes; cbn zeta in *;
    cbn [st_trace calls stack errorStack st_op st_ext app] in *; subst es;
    cbn [fail_chain]; unfold traced, bind; cbn [TraceInMethod on_trace fst snd st_trace calls stack errorStack st_op st_ext].
  - unfold SetMessage, SetError, TraceOutMethod, on_trace.
    cbn [fail_chain ret fst snd st_trace calls stack errorStack st_op st_ext].
    rewrite last_snoc. rewrite !length_app. cbn [length fst snd].
    rewrite !alter_app_r_alt, !Nat.sub_diag by lia. cbn [app alter list_alter].
    unfold get_call; cbn [calls]. rewrite lookup_app_r, Nat.sub_diag by lia. cbn.
    by rewrite Nat.add_sub, take_app_length.
  - set (s1 := Build_St {| calls := cs ++ [{| method := name'; error_ := None; message := "" |}]; stack := st ++ [length cs]; errorStack := None |} o x).
    pose proof (IH s1 eq_refl) as E. destruct (fail_chain (r ++ [(name, msg, Some e)]) s1) as [res s2]. cbn [snd] in E. subst s2.
    unfold SetMessage, SetError, TraceOutMethod, on_trace, s1.
    cbn [fst snd st_trace calls stack errorStack st_op st_ext].
    rewrite last_snoc. rewrite !length_app. cbn [length fst snd].
    rewrite <- app_assoc.
    rewrite !alter_app_r_alt, !Nat.sub_diag by lia. cbn [app alter list_alter map length].
    cbn [ret fst snd]. rewrite <- !app_assoc. rewrite Nat.add_sub, take_app_length.
    rewrite length_app, Nat.add_1_r. f_equal. f_equal. f_equal. by destruct (error_ _).
Qed.

Lemma get_calls_app cs l i :
  map (get_call {| calls := cs ++ l; stack := []; errorStack := i |}) (seq (length cs) (length l)) = l.
Proof.
  revert cs. induction l as [|c l IH]; intros cs; cbn; [done|].
  unfold get_call at 1; cbn. rewrite lookup_app_r, Nat.sub_diag by lia. cbn. f_equal.
  specialize (IH (cs ++ [c])). rewrite length_app, Nat.add_1_r, <- app_assoc in IH. exact IH.
Qed.

(** The messages of a chain of calls, the empty ones left out. *)
Fixpoint chain_message (msg : string) (frames : list frame) : string :=
  match frames with
  | [] => msg
  | (name, m, _) :: r =>
      chain_message (if decide (m = "") then msg
                     else (if decide (msg = "") then msg else msg +:+ ":")
                          +:+ name +:+ "(" +:+ m +:+ ")") r
  end.

Lemma collect_message frames msg err : (foldl collect (msg, err) (map call_of frames)).1 = chain_message msg frames.
Proof. revert msg err. induction frames as [|[[name m] e] r IH]; intros msg err; [done|]. cbn [map foldl collect]. apply IH. Qed.
Lemma collect_deepest frames name msg e acc :
  foldl collect acc (map call_of (frames ++ [(name, msg, Some e)])) =
  (chain_message acc.1 (frames ++ [(name, msg, Some e)]), Some e).
Proof.
  destruct acc as [m0 e0]. rewrite <- (collect_message _ m0 e0), map_app, foldl_app. cbn [map foldl].
  by destruct (foldl collect _ _).
Qed.

(** [C39] The error report of an operation.  A call nested in any number of traced calls fails with an
    error; every caller on the way out adds its message, or none, and records an error of its own,
    or none.  [DumpLog] then writes one entry with the path of all the calls, the messages in the
    order of the calls although they were set from the inside out, and the error of the deepest call,
    whatever the callers recorded; the context is then clean. *)
Theorem DumpLog_reports_chain frames name msg e s succ :
  errorStack (st_trace s) = None -> stack (st_trace s) = [] ->
  let all := frames ++ [(name, msg, Some e)] in
  let s' := (DumpLog succ (fail_chain all s).2).2 in
  logs (st_op s') = logs (st_op s) ++
    [{| level := if errorAsWarn (st_op s) then Warn else Err;
        at_stack := stackPath (map (fun f => f.1.1) all);
        text := chain_message "" all; log_error := Some e |}] /\
  genericError (st_op s') = None /\ stack (st_trace s') = [] /\ errorStack (st_trace s') = None /\
  st_ext s' = st_ext s.
Proof.
  intros Hes Hst. cbn zeta. rewrite fail_chain_trace by done. rewrite Hst. cbn [app].
  set (all := frames ++ [(name, msg, Some e)]). unfold DumpLog, bind, on_trace, on_op, gets, modify.
  cbn [fst snd st_trace st_op st_ext calls stack errorStack].
  assert (Hcalls : map (get_call {| calls := calls (st_trace s) ++ map call_of all; stack := [];
      errorStack := Some (seq (length (calls (st_trace s))) (length all)) |}) (seq (length (calls (st_trace s))) (length all)) = map call_of all)
    by (rewrite <- (length_map call_of all); apply get_calls_app).
  assert (Hd : foldl collect ("", None) (map call_of all) = (chain_message "" all, Some e)) by apply collect_deepest.
  rewrite Hcalls, Hd. cbn. repeat split. do 3 f_equal. unfold stack_methods.
  rewrite <- (map_map (get_call _) method), Hcalls, map_map. done.
Qed.
End TraceFacts.

Definition op_demo : Op unit :=
  {| op_id := "op1"; op_name := "op"; genericError := None; oplogs := [];
     errorManager := ErrorManagerBase.InitHttp; dbTransaction := false; errorAsWarn := false;
     writeCloseLog := true; origin := None; logs := [] |}.

Definition trace0 : Trace := {| calls := []; stack := []; errorStack := None |}.

Lemma DumpLog_reports_chain_witness :
  logs (st_op (DumpLog [] (fail_chain [("A", "a failed", Some (Native "internal")); ("B", "", None); ("C", "no row", Some (Native "sql"))]
                             (Build_St trace0 op_demo tt)).2).2) =
  [{| level := Err; at_stack := "A:B:C"; text := "A(a failed):C(no row)";
      log_error := Some (Native "sql") |}].
Proof.
  destruct (DumpLog_reports_chain [("A", "a failed", Some (Native "internal")); ("B", "", None)] "C" "no row" (Native "sql")
              (Build_St trace0 op_demo tt) [] eq_refl eq_refl) as [E _].
  cbn [app] in E. rewrite E. reflexivity.
Defined.
