(* ===== verification/Db.v ===== *)
(** * pkg/db: field maps, filters, updates, and the interface of a database

    Columns of a Go struct are described by a column table ([Entity]); a database is the
    interface [Engine], one function per method of [db.DBHandlers], each acting on the rows of
    one table; [EngineOk] states what the code relies on.  The [nat] argument of an engine
    function is the number of the query on the table: a query may fail at any time.
    [mem_engine], a list of rows with injected faults and unique indexes, satisfies the
    interface. *)
From S2P Require Import Prelude GoTime Utils Common Errors.
Open Scope go_scope.

(** ** Values and field maps (db.go) *)

(** A [float64] is given by its bits. *)
Inductive value := VNil | VBool (b : bool) | VInt (z : Z) | VStr (s : string) | VTime (t : Z) | VFloat (bits : Z).

#[export] Instance value_eq_dec : EqDecision value.
Proof. solve_decision. Defined.

Abbreviation Fields := (gmap string value).

Definition IsFieldSet (f : Fields) (key : string) : bool := bool_decide (is_Some (f !! key)).

(** [utils.CopyMap] of a map whose values are not maps. *)
Definition CopyMap (m : Fields) : Fields := map_fold (fun k v cp => <[k := v]> cp) ∅ m.

Lemma CopyMap_eq m : CopyMap m = m.
Proof. apply CopyMapOneLevel_id. Qed.

(** The fields of [db.Update] and its variants: the given ones and the time of the update. *)
Definition updated_fields (fields : Fields) : M Env Fields :=
  let* now := Now in ret (<["updated_at" := VTime now]> (CopyMap fields)).

(** ** Filters (filter.go) *)

Definition SORT_ASC := "ASC".
Definition SORT_DESC := "DESC".

Record Interval := { From : value; To : value; FromOpen : bool; ToOpen : bool }.
Record BetweenField := {
  FromField : string; ToField : string; bf_Value : value; bf_FromOpen : bool; bf_ToOpen : bool
}.
Record FilterConfig := {
  SortField : string; SortDirection : string; Offset : Z; Limit : Z; Count : bool
}.
Record OrField := { or_Value : value; or_Fields : list string }.

Record Filter := {
  config : FilterConfig;
  f_Fields : Fields;
  FieldsIn : gmap string (list value);
  FieldsNotIn : gmap string (list value);
  Intervals : gmap string Interval;
  BetweenFields : list BetweenField;
  OrFields : list OrField;
  PresetFields : list Fields
}.

Module Interval.
Definition IsNull (i : Interval) : bool := bool_decide (From i = VNil) && bool_decide (To i = VNil).
End Interval.

Definition no_config : FilterConfig :=
  {| SortField := ""; SortDirection := ""; Offset := 0; Limit := 0; Count := false |}.

Definition NewFilter : Filter :=
  {| config := no_config; f_Fields := ∅; FieldsIn := ∅; FieldsNotIn := ∅; Intervals := ∅;
     BetweenFields := []; OrFields := []; PresetFields := [] |}.

Module Filter.
Definition PushPresetFields (fields : Fields) (f : Filter) : Filter :=
  {| config := config f; f_Fields := f_Fields f; FieldsIn := FieldsIn f; FieldsNotIn := FieldsNotIn f;
     Intervals := Intervals f; BetweenFields := BetweenFields f; OrFields := OrFields f;
     PresetFields := PresetFields f ++ [fields] |}.

Definition PopPresetFields (f : Filter) : Filter :=
  if (0 <? length (PresetFields f))%nat then
    {| config := config f; f_Fields := f_Fields f; FieldsIn := FieldsIn f; FieldsNotIn := FieldsNotIn f;
       Intervals := Intervals f; BetweenFields := BetweenFields f; OrFields := OrFields f;
       PresetFields := take (length (PresetFields f) - 1) (PresetFields f) |}
  else f.

Definition SetSorting (field : string) (direction : list string) (f : Filter) : Filter :=
  {| config := {| SortField := field; SortDirection := OptionalArg SORT_ASC direction;
                  Offset := Offset (config f); Limit := Limit (config f); Count := Count (config f) |};
     f_Fields := f_Fields f; FieldsIn := FieldsIn f; FieldsNotIn := FieldsNotIn f;
     Intervals := Intervals f; BetweenFields := BetweenFields f; OrFields := OrFields f;
     PresetFields := PresetFields f |}.

Definition AddField (name : string) (value : value) (f : Filter) : Filter :=
  {| config := config f; f_Fields := <[name := value]> (f_Fields f); FieldsIn := FieldsIn f;
     FieldsNotIn := FieldsNotIn f; Intervals := Intervals f; BetweenFields := BetweenFields f;
     OrFields := OrFields f; PresetFields := PresetFields f |}.

Definition AddFields (fields : Fields) (f : Filter) : Filter :=
  map_fold (fun key value f => AddField key value f) f fields.

Definition AddFieldIn (name : string) (values : list value) (f : Filter) : Filter :=
  {| config := config f; f_Fields := f_Fields f; FieldsIn := <[name := values]> (FieldsIn f);
     FieldsNotIn := FieldsNotIn f; Intervals := Intervals f; BetweenFields := BetweenFields f;
     OrFields := OrFields f; PresetFields := PresetFields f |}.

Definition AddFieldNotIn (name : string) (values : list value) (f : Filter) : Filter :=
  {| config := config f; f_Fields := f_Fields f; FieldsIn := FieldsIn f;
     FieldsNotIn := <[name := values]> (FieldsNotIn f); Intervals := Intervals f;
     BetweenFields := BetweenFields f; OrFields := OrFields f; PresetFields := PresetFields f |}.

Definition AddInterval (name : string) (from to : value) (f : Filter) : Filter :=
  {| config := config f; f_Fields := f_Fields f; FieldsIn := FieldsIn f; FieldsNotIn := FieldsNotIn f;
     Intervals := <[name := {| From := from; To := to; FromOpen := false; ToOpen := false |}]> (Intervals f);
     BetweenFields := BetweenFields f; OrFields := OrFields f; PresetFields := PresetFields f |}.

Definition AddBetweenField (fromField toField : string) (v : value) (f : Filter) : Filter :=
  {| config := config f; f_Fields := f_Fields f; FieldsIn := FieldsIn f; FieldsNotIn := FieldsNotIn f;
     Intervals := Intervals f;
     BetweenFields := BetweenFields f ++ [{| FromField := fromField; ToField := toField; bf_Value := v;
                                             bf_FromOpen := false; bf_ToOpen := false |}];
     OrFields := OrFields f; PresetFields := PresetFields f |}.

Definition AddOrFields (v : value) (names : list string) (f : Filter) : Filter :=
  {| config := config f; f_Fields := f_Fields f; FieldsIn := FieldsIn f; FieldsNotIn := FieldsNotIn f;
     Intervals := Intervals f; BetweenFields := BetweenFields f;
     OrFields := OrFields f ++ [{| or_Value := v; or_Fields := names |}];
     PresetFields := PresetFields f |}.
End Filter.

(** The query a filter is sent as. *)
Record QueryInterval := { q_From : option string; q_To : option string; q_FromOpen : bool; q_ToOpen : bool }.
Record QueryBetweenField := {
  q_FromField : string; q_ToField : string; q_Value : string; qb_FromOpen : bool; qb_ToOpen : bool
}.
Record QueryOrField := { qo_Value : string; qo_Fields : list string }.
Record Query := {
  q_config : FilterConfig;
  q_Fields : gmap string string;
  q_FieldsIn : gmap string (list string);
  q_FieldsNotIn : gmap string (list string);
  q_Intervals : gmap string QueryInterval;
  q_BetweenFields : list QueryBetweenField;
  q_OrFields : list QueryOrField
}.

Section ToQuery.
(** [%v] of a [time.Time], and of a [float64]. *)
Variables fmt_time fmt_float : Z -> string.

Definition filterValueToString (v : value) : string :=
  match v with
  | VNil => "<nil>"
  | VBool b => BoolToStr b
  | VInt z => fmt_d z
  | VStr s => s
  | VTime t => fmt_time t
  | VFloat b => fmt_float b
  end.

Definition ToQuery (f : Filter) : Query :=
  {| q_config := config f;
     q_Fields := filterValueToString <$> f_Fields f;
     q_FieldsIn := map filterValueToString <$> FieldsIn f;
     q_FieldsNotIn := map filterValueToString <$> FieldsNotIn f;
     q_Intervals :=
       (fun i => {| q_From := if decide (From i = VNil) then None else Some (filterValueToString (From i));
                    q_To := if decide (To i = VNil) then None else Some (filterValueToString (To i));
                    q_FromOpen := FromOpen i; q_ToOpen := ToOpen i |}) <$> Intervals f;
     q_BetweenFields :=
       map (fun b => {| q_FromField := FromField b; q_ToField := ToField b;
                        q_Value := filterValueToString (bf_Value b);
                        qb_FromOpen := bf_FromOpen b; qb_ToOpen := bf_ToOpen b |}) (BetweenFields f);
     q_OrFields :=
       map (fun o => {| qo_Value := filterValueToString (or_Value o); qo_Fields := or_Fields o |}) (OrFields f) |}.
End ToQuery.

(** ** Tables *)

(** The type of a column. *)
Inductive vtype := TBool | TStr | TTime | TInt (lo hi : Z).

Definition type_ok (t : vtype) (v : value) : bool :=
  match t, v with
  | TBool, VBool _ | TStr, VStr _ | TTime, VTime _ => true
  | TInt lo hi, VInt z => (lo <=? z)%Z && (z <=? hi)%Z
  | _, _ => false
  end.

Record Col (R : Type) := { c_type : vtype; c_get : R -> value; c_set : value -> R -> R }.
Arguments c_type {R}.
Arguments c_get {R}.
Arguments c_set {R}.
Arguments Build_Col {R}.

Definition str_col {R} (get : R -> string) (set : string -> R -> R) : Col R :=
  Build_Col TStr (fun r => VStr (get r)) (fun v r => match v with VStr s => set s r | _ => r end).
Definition bool_col {R} (get : R -> bool) (set : bool -> R -> R) : Col R :=
  Build_Col TBool (fun r => VBool (get r)) (fun v r => match v with VBool b => set b r | _ => r end).
Definition time_col {R} (get : R -> Z) (set : Z -> R -> R) : Col R :=
  Build_Col TTime (fun r => VTime (get r)) (fun v r => match v with VTime t => set t r | _ => r end).
Definition int_col {R} (lo hi : Z) (get : R -> Z) (set : Z -> R -> R) : Col R :=
  Build_Col (TInt lo hi) (fun r => VInt (get r)) (fun v r => match v with VInt z => set z r | _ => r end).

Fixpoint assoc {A} (k : string) (l : list (string * A)) : option A :=
  match l with
  | [] => None
  | (k', a) :: r => if decide (k = k') then Some a else assoc k r
  end.

Lemma assoc_in {A} k (l : list (string * A)) a : assoc k l = Some a -> In (k, a) l.
Proof.
  induction l as [|[k' b] l IH]; cbn; [done|]. case_decide; [|auto].
  subst. intros [= ->]. by left.
Qed.

(** A struct saved in a table: its [common.Object] part, its columns and its unique indexes. *)
Class Entity (R : Type) := {
  obj_base : R -> ObjectBase.t;
  set_base : ObjectBase.t -> R -> R;
  columns : list (string * Col R);
  unique_indexes : list (list string)
}.

Section Rows.
Context `{Entity R}.

Definition GetID (r : R) : string := ObjectBase.GetID (obj_base r).

(** [InitObject] of the embedded base. *)
Definition InitObject (r : R) : M Env R :=
  let* b := ObjectBase.InitObject (obj_base r) in ret (set_base b r).

(** A fresh object: an ID, created and updated at the same instant, the columns of the struct
    kept. *)
Lemma wp_InitObject_clock (r : R) (Q : R -> Env -> Prop) e :
  (forall b e', ObjectBase.ID b <> "" -> ObjectBase.CREATED_AT b = ObjectBase.UPDATED_AT b -> same_clock e e' ->
     Q (set_base b r) e') ->
  wp (InitObject r) Q e.
Proof.
  intros HQ. unfold InitObject, ObjectBase.InitObject, ObjectBase.GenerateID. wp_go.
  apply wp_GenerateID. intros id e' Hid Hc. wp_go. by apply HQ.
Qed.

Lemma wp_InitObject (r : R) (Q : R -> Env -> Prop) e :
  (forall b e', ObjectBase.ID b <> "" -> ObjectBase.CREATED_AT b = ObjectBase.UPDATED_AT b -> Q (set_base b r) e') ->
  wp (InitObject r) Q e.
Proof. intros HQ. apply wp_InitObject_clock. auto. Qed.

Definition column (k : string) (r : R) : option value := (fun c => c_get c r) <$> assoc k columns.

Definition assignable (k : string) (v : value) : bool :=
  match assoc k columns with Some c => type_ok (c_type c) v | None => false end.
Definition assign (k : string) (v : value) (r : R) : R :=
  match assoc k columns with Some c => c_set c v r | None => r end.

(** All the fields are columns, with values of their types. *)
Definition typed (fields : Fields) : bool := forallb (fun kv => assignable kv.1 kv.2) (map_to_list fields).
Definition matches (fields : Fields) (r : R) : bool :=
  forallb (fun kv => bool_decide (column kv.1 r = Some kv.2)) (map_to_list fields).
Definition assign_all (fields : Fields) (r : R) : R := map_fold assign r fields.

Definition index_key (cols : list string) (r : R) : list (option value) := map (fun k => column k r) cols.

(** No two rows agree on the columns of a unique index. *)
Definition table_ok (rows : list R) : Prop :=
  Forall (fun cols => NoDup (index_key cols <$> rows)) unique_indexes.
End Rows.
#[export] Instance table_ok_dec `{Entity R} (rows : list R) : Decision (table_ok rows).
Proof. unfold table_ok. apply _. Defined.

(** The columns are independent: a column reads what was last assigned to it. *)
Class EntityOk (R : Type) `{Entity R} := {
  columns_ok : Forall (fun kc => Forall (fun kc' => forall v (r : R), type_ok (c_type kc.2) v = true ->
    c_get kc'.2 (c_set kc.2 v r) = if decide (kc'.1 = kc.1) then v else c_get kc'.2 r) columns) columns;
  id_column : forall r, column "id" r = Some (VStr (GetID r));
  base_set_base : forall b r, obj_base (set_base b r) = b;
  id_assignable : forall id, assignable "id" (VStr id) = true;
  updated_at_assignable : forall t, assignable "updated_at" (VTime t) = true
}.

(** Proves [columns_ok] for a concrete column table. *)
Ltac solve_columns :=
  lazymatch goal with |- Forall _ ?l => let l' := eval hnf in l in change l with l' end;
  repeat (apply Forall_cons; split); try apply List.Forall_nil;
  cbn beta; intros v r; destruct v; cbn; intros; solve [discriminate | reflexivity].

Section RowFacts.
Context `{EntityOk R}.

Lemma column_assign k k' v (r : R) :
  assignable k v = true -> column k' (assign k v r) = if decide (k' = k) then Some v else column k' r.
Proof.
  unfold assignable, assign, column. destruct (assoc k columns) as [c|] eqn:E; [|done].
  intros Ht. destruct (assoc k' columns) as [c'|] eqn:E'; cbn.
  - pose proof columns_ok as Hc. rewrite Forall_forall in Hc.
    apply assoc_in, list_elem_of_In in E. specialize (Hc _ E). rewrite Forall_forall in Hc.
    apply assoc_in, list_elem_of_In in E'. specialize (Hc _ E' v r Ht). cbn in Hc.
    rewrite Hc. by case_decide.
  - case_decide; [congruence|done].
Qed.

Lemma typed_lookup (fields : Fields) k v : typed fields = true -> fields !! k = Some v -> assignable k v = true.
Proof.
  unfold typed. rewrite forallb_forall. intros Ht E.
  apply (Ht (k, v)), list_elem_of_In, elem_of_map_to_list, E.
Qed.

Lemma typed_spec fields : typed fields = true <-> map_Forall (fun k v => assignable k v = true) fields.
Proof.
  split.
  - intros Ht k v. by apply typed_lookup.
  - intros Ht. unfold typed. apply forallb_forall. intros [k v] Hin.
    apply list_elem_of_In, elem_of_map_to_list in Hin. by apply Ht.
Qed.

Lemma typed_insert (fields : Fields) k v :
  assignable k v = true -> typed fields = true -> typed (<[k := v]> fields) = true.
Proof. rewrite !typed_spec. intros. by apply map_Forall_insert_2. Qed.

Lemma typed_empty : typed ∅ = true.
Proof. apply typed_spec, map_Forall_empty. Qed.

Lemma typed_singleton k v : assignable k v = true -> typed {[k := v]} = true.
Proof. intros. by apply typed_insert, typed_empty. Qed.

(** The assigned columns have the values of the fields, the others do not change. *)
Lemma column_assign_all (fields : Fields) k (r : R) :
  typed fields = true ->
  column k (assign_all fields r) = match fields !! k with Some v => Some v | None => column k r end.
Proof.
  rewrite typed_spec. unfold assign_all. revert k.
  induction fields as [|i v m Hi Hfold IH] using map_first_key_ind; intros k Ht.
  - by rewrite map_fold_empty, lookup_empty.
  - rewrite map_fold_insert_first_key by done.
    rewrite map_Forall_insert in Ht by done. destruct Ht as [Hv Ht].
    rewrite column_assign by done. case_decide as Hk.
    + subst. by rewrite lookup_insert_eq.
    + rewrite lookup_insert_ne by done. by apply IH.
Qed.

Lemma GetID_assign_all (fields : Fields) (r : R) :
  typed fields = true -> fields !! "id" = None -> GetID (assign_all fields r) = GetID r.
Proof.
  intros Ht Hid. pose proof (column_assign_all fields "id" r Ht) as E.
  rewrite Hid, !id_column in E. congruence.
Qed.

Lemma matches_spec (fields : Fields) (r : R) :
  matches fields r = true <-> forall k v, fields !! k = Some v -> column k r = Some v.
Proof.
  unfold matches. rewrite forallb_forall. split.
  - intros Hm k v E. apply elem_of_map_to_list, list_elem_of_In in E. specialize (Hm _ E).
    by apply bool_decide_eq_true in Hm.
  - intros Hm [k v] Hin. apply list_elem_of_In, elem_of_map_to_list in Hin.
    by apply bool_decide_eq_true, Hm.
Qed.

Lemma matches_singleton k v (r : R) : matches {[k := v]} r = bool_decide (column k r = Some v).
Proof.
  apply eq_true_iff_eq. rewrite matches_spec, bool_decide_eq_true. split.
  - intros Hm. apply Hm, lookup_singleton_eq.
  - intros E k' v'. rewrite lookup_singleton_Some. by intros [<- <-].
Qed.

Lemma matches_id id (r : R) : matches {["id" := VStr id]} r = bool_decide (GetID r = id).
Proof.
  rewrite matches_singleton, id_column. apply bool_decide_ext. split; [by intros [= ->]|by intros ->].
Qed.

Lemma index_key_id (r r' : R) : GetID r = GetID r' -> index_key ["id"] r = index_key ["id"] r'.
Proof. intros E. unfold index_key. cbn [map]. by rewrite !id_column, E. Qed.

Lemma unique_id_inj cols (rows : list R) r r' :
  cols ∈ unique_indexes -> table_ok rows -> r ∈ rows -> r' ∈ rows ->
  index_key cols r = index_key cols r' -> r = r'.
Proof.
  intros Hc Hok Hr Hr' E. unfold table_ok in Hok. rewrite Forall_forall in Hok.
  specialize (Hok cols Hc). apply list_elem_of_lookup in Hr as [i Hi].
  apply list_elem_of_lookup in Hr' as [j Hj].
  assert (i = j) as ->; [|congruence].
  eapply NoDup_lookup; [done| |]; rewrite list_lookup_fmap.
  - by rewrite Hi.
  - by rewrite Hj, E.
Qed.

Lemma unique_ids_NoDup (rows : list R) : ["id"] ∈ unique_indexes -> table_ok rows -> NoDup (map GetID rows).
Proof.
  unfold table_ok. rewrite Forall_forall. intros Hi Hok. specialize (Hok _ Hi).
  apply (NoDup_fmap_1 (fun id => [Some (VStr id)])). rewrite <- list_fmap_compose.
  rewrite (list_fmap_ext _ (index_key ["id"])); [done|]. intros i r _. cbn. by rewrite id_column.
Qed.

Lemma table_ok_filter (f : R -> bool) (rows : list R) : table_ok rows -> table_ok (List.filter f rows).
Proof.
  unfold table_ok. intros Hok. eapply Forall_impl; [exact Hok|]. intros cols Hnd. clear Hok.
  induction rows as [|r rows IH]; [done|]. cbn in *. apply NoDup_cons in Hnd as [Hr Hnd].
  destruct (f r); cbn; [|auto]. apply NoDup_cons. split; [|auto].
  intros Hin. apply Hr. apply list_elem_of_fmap in Hin as (y & Hy & Hin).
  apply list_elem_of_fmap. exists y. split; [done|].
  apply list_elem_of_In, filter_In in Hin as [Hin _]. by apply list_elem_of_In.
Qed.
End RowFacts.

(** ** The interface of the database (DBHandlers) *)

Inductive lock := NoLock | LockUpdate | LockShare.

Class Engine (R : Type) := {
  eng_create : nat -> R -> list R -> option error * list R;
  eng_create_dup : nat -> R -> list R -> bool * option error * list R;
  eng_find : lock -> nat -> Fields -> list R -> option R * option error;
  eng_list : nat -> option Filter -> list R -> list R * Z * option error;
  eng_exists : nat -> Filter -> list R -> bool * option error;
  (** The second component is the object given to the update, as the call leaves it. *)
  eng_update : nat -> R -> Fields -> Fields -> list R -> option error * R * list R;
  eng_update_all : nat -> Fields -> list R -> option error * list R;
  eng_update_with_filter : nat -> Filter -> Fields -> list R -> option error * list R;
  eng_delete : nat -> R -> list R -> option error * list R;
  eng_delete_by_fields : nat -> Fields -> list R -> option error * list R
}.

(** A filter that only compares fields. *)
Definition plain (f : Filter) : Prop :=
  config f = no_config /\ FieldsIn f = ∅ /\ FieldsNotIn f = ∅ /\ Intervals f = ∅ /\
  BetweenFields f = [] /\ OrFields f = [] /\ PresetFields f = [].

Lemma plain_new : plain NewFilter.
Proof. repeat split. Qed.
Lemma plain_AddField k v f : plain f -> plain (Filter.AddField k v f).
Proof. unfold plain. naive_solver. Qed.
#[export] Hint Resolve plain_new plain_AddField : go.

(** The same with a limit on the number of rows. *)
Definition SetLimit (n : Z) (f : Filter) : Filter :=
  {| config := {| SortField := SortField (config f); SortDirection := SortDirection (config f);
                  Offset := Offset (config f); Limit := n; Count := Count (config f) |};
     f_Fields := f_Fields f; FieldsIn := FieldsIn f; FieldsNotIn := FieldsNotIn f;
     Intervals := Intervals f; BetweenFields := BetweenFields f; OrFields := OrFields f;
     PresetFields := PresetFields f |}.

Definition updated_rows `{Entity R} (flt fields : Fields) (rows : list R) : list R :=
  map (fun r => if matches flt r then assign_all fields r else r) rows.
Definition rows_without `{Entity R} (id : string) (rows : list R) : list R :=
  List.filter (fun r => negb (bool_decide (GetID r = id))) rows.
Definition rows_not_matching `{Entity R} (fields : Fields) (rows : list R) : list R :=
  List.filter (fun r => negb (matches fields r)) rows.

(** Fields whose names, ignoring case, are not that of the identifier. *)
Definition leaves_id (fields : Fields) : Prop := forall k, is_Some (fields !! k) -> ToLower k <> "id".

Lemma leaves_id_lookup fields : leaves_id fields -> fields !! "id" = None.
Proof. intros Hl. apply eq_None_not_Some. intros Hs. by apply (Hl "id" Hs). Qed.
Lemma leaves_id_insert k v fields : ToLower k <> "id" -> leaves_id fields -> leaves_id (<[k := v]> fields).
Proof. intros Hk Hl k' [v' E]. apply lookup_insert_Some in E as [[<- _]|[_ E]]; [done|]. apply Hl. by eexists. Qed.
Lemma leaves_id_empty : leaves_id ∅.
Proof. intros k [v E]. by rewrite lookup_empty in E. Qed.
(** Where no other column is named like the identifier, typed fields that leave it alone. *)
Lemma typed_leaves_id `{Entity R} fields :
  Forall (fun k => ToLower k = "id" -> k = "id") (columns (R := R)).*1 ->
  typed (R := R) fields = true -> fields !! "id" = None -> leaves_id fields.
Proof.
  rewrite Forall_forall. intros Hc Ht Hid k [v E] Hk.
  assert (Ha : assignable (R := R) k v = true).
  { unfold typed in Ht. rewrite forallb_forall in Ht. apply (Ht (k, v)), list_elem_of_In, elem_of_map_to_list, E. }
  unfold assignable in Ha. destruct (assoc k columns) as [c|] eqn:Ec; [|done].
  rewrite (Hc k) in E; [congruence| |done]. apply list_elem_of_fmap. exists (k, c). split; [done|]. by apply list_elem_of_In, assoc_in.
Qed.

(** An object the rows to update are given with: without an ID, or the ID is that of the filter.  An
    object with another ID would narrow the rows down. *)
Definition narrows_nothing `{Entity R} (o : R) (flt : Fields) : Prop := GetID o = "" \/ flt !! "id" = Some (VStr (GetID o)).

(** What the code relies on: statements about successful calls, and failed writes change
    nothing.  The result of a call with an ill-typed value is not described, nor the rows a
    filter with other parts than fields selects. *)
Class EngineOk (R : Type) `{Entity R, Engine R} := {
  create_ok t (r : R) rows rows' :
    eng_create t r rows = (None, rows') -> rows' = rows ++ [r] /\ (table_ok rows -> table_ok rows');
  create_err t (r : R) rows e rows' : eng_create t r rows = (Some e, rows') -> rows' = rows;
  create_dup_ok t (r : R) d rows rows' :
    eng_create_dup t r rows = (d, None, rows') -> rows' = rows ++ [r] /\ (table_ok rows -> table_ok rows');
  create_dup_err t (r : R) rows d e rows' : eng_create_dup t r rows = (d, Some e, rows') -> rows' = rows;
  find_some l t f rows (r : R) :
    eng_find l t f rows = (Some r, None) -> r ∈ rows /\ matches f r = true;
  find_none l t f rows :
    typed f = true -> eng_find l t f rows = (None, None) -> Forall (fun r : R => matches f r = false) rows;
  list_ok t f rows (rs : list R) n :
    plain f -> typed (f_Fields f) = true -> eng_list t (Some f) rows = (rs, n, None) ->
    rs ≡ₚ List.filter (matches (f_Fields f)) rows;
  list_limit_ok t f limit rows (rs : list R) n :
    plain f -> (0 < limit)%Z -> typed (f_Fields f) = true -> eng_list t (Some (SetLimit limit f)) rows = (rs, n, None) ->
    Forall (fun r => r ∈ rows /\ matches (f_Fields f) r = true) rs /\
    (rs = [] -> Forall (fun r => matches (f_Fields f) r = false) rows);
  list_all_ok t rows (rs : list R) n : eng_list t None rows = (rs, n, None) -> rs ≡ₚ rows;
  exists_ok t f (rows : list R) b :
    plain f -> typed (f_Fields f) = true -> eng_exists t f rows = (b, None) ->
    b = existsb (matches (f_Fields f)) rows;
  update_ok t (o : R) flt fields rows o' rows' :
    eng_update t o flt fields rows = (None, o', rows') -> narrows_nothing o flt -> typed flt = true -> typed fields = true ->
    rows' = updated_rows flt fields rows;
  update_unique t (o : R) flt fields rows o' rows' :
    eng_update t o flt fields rows = (None, o', rows') -> table_ok rows -> table_ok rows';
  (** Whatever the values: a column that is not named is not written. *)
  update_ids t (o : R) flt fields rows o' rows' :
    eng_update t o flt fields rows = (None, o', rows') -> leaves_id fields -> map GetID rows' = map GetID rows;
  update_err t (o : R) flt fields rows e o' rows' :
    eng_update t o flt fields rows = (Some e, o', rows') -> rows' = rows;
  update_all_ok t fields (rows rows' : list R) :
    eng_update_all t fields rows = (None, rows') -> typed fields = true ->
    rows' = map (assign_all fields) rows;
  update_all_err t fields (rows : list R) e rows' :
    eng_update_all t fields rows = (Some e, rows') -> rows' = rows;
  (** A column of the object is as it was, or has the value of the update. *)
  update_obj t (o : R) flt fields rows k :
    let o' := (eng_update t o flt fields rows).1.2 in
    column k o' = column k o \/ exists v, fields !! k = Some v /\ column k o' = Some v;
  delete_ok t (o : R) rows rows' :
    GetID o <> "" -> eng_delete t o rows = (None, rows') -> rows' = rows_without (GetID o) rows;
  delete_err t (o : R) rows e rows' : eng_delete t o rows = (Some e, rows') -> rows' = rows;
  delete_by_fields_ok t f (rows rows' : list R) :
    typed f = true -> eng_delete_by_fields t f rows = (None, rows') -> rows' = rows_not_matching f rows;
  delete_by_fields_err t f (rows : list R) e rows' :
    eng_delete_by_fields t f rows = (Some e, rows') -> rows' = rows
}.

(** An update that leaves the identifiers alone keeps the list of them. *)
Lemma updated_rows_ids `{EntityOk R} flt fields (rs : list R) :
  typed fields = true -> fields !! "id" = None -> map GetID (updated_rows flt fields rs) = map GetID rs.
Proof.
  intros Ht Hid. unfold updated_rows. rewrite map_map. apply map_ext. intros r.
  destruct (matches flt r); [by apply GetID_assign_all|done].
Qed.

(** ** An engine in memory *)

Section Mem.
Context `{EntityOk R}.
(** The queries that fail, with their errors. *)
Variable fault : nat -> option error.

Definition dup_error : error := Native "duplicate key value violates unique constraint".

Definition mem_insert (r : R) (rows : list R) : option error * list R :=
  if decide (table_ok (rows ++ [r])) then (None, rows ++ [r]) else (Some dup_error, rows).

Definition mem_write (t : nat) (w : list R -> option error * list R) (rows : list R) :
  option error * list R :=
  match fault t with Some e => (Some e, rows) | None => w rows end.

Definition mem_checked (fields : Fields) (rows' : list R) (rows : list R) : option error * list R :=
  if decide (table_ok rows') then
    (if typed fields then (None, rows') else (Some (Native "invalid input"), rows))
  else (Some dup_error, rows).

Definition mem_limit (n : Z) (rows : list R) : list R := if (0 <? n)%Z then take (Z.to_nat n) rows else rows.

Definition mem_engine : Engine R := {|
  eng_create t r := mem_write t (mem_insert r);
  eng_create_dup t r rows :=
    let '(e, rows') := mem_write t (mem_insert r) rows in
    (bool_decide (e = Some dup_error), e, rows');
  eng_find l t f rows :=
    match fault t with
    | Some e => (None, Some e)
    | None => (List.find (matches f) rows, None)
    end;
  eng_list t f rows :=
    match fault t with
    | Some e => ([], 0%Z, Some e)
    | None => let rs := match f with
                        | Some f => mem_limit (Limit (config f)) (List.filter (matches (f_Fields f)) rows)
                        | None => rows
                        end in
              (rs, Z.of_nat (length rs), None)
    end;
  eng_exists t f rows :=
    match fault t with
    | Some e => (false, Some e)
    | None => (existsb (matches (f_Fields f)) rows, None)
    end;
  eng_update t o flt fields rows :=
    let '(e, rows') := mem_write t (fun rows => mem_checked fields (updated_rows flt fields rows) rows) rows in
    (e, o, rows');
  eng_update_all t fields := mem_write t (fun rows => mem_checked fields (map (assign_all fields) rows) rows);
  eng_update_with_filter t f fields :=
    mem_write t (fun rows => mem_checked fields (updated_rows (f_Fields f) fields rows) rows);
  eng_delete t o := mem_write t (fun rows => (None, rows_without (GetID o) rows));
  eng_delete_by_fields t f := mem_write t (fun rows => (None, rows_not_matching f rows))
|}.

Lemma mem_insert_ok r rows rows' :
  mem_insert r rows = (None, rows') -> rows' = rows ++ [r] /\ (table_ok rows -> table_ok rows').
Proof. unfold mem_insert. case_decide; [|done]. by intros [= <-]. Qed.

Lemma mem_insert_err r rows e rows' : mem_insert r rows = (Some e, rows') -> rows' = rows.
Proof. unfold mem_insert. case_decide; [done|]. by intros [= _ <-]. Qed.

Lemma mem_checked_ok fields rows rows1 rows' :
  mem_checked fields rows1 rows = (None, rows') -> rows' = rows1 /\ table_ok rows'.
Proof. unfold mem_checked. case_decide; [|done]. destruct (typed fields); [|done]. by intros [= <-]. Qed.
Lemma mem_checked_typed fields rows rows1 rows' :
  mem_checked fields rows1 rows = (None, rows') -> typed fields = true.
Proof. unfold mem_checked. case_decide; [|done]. by destruct (typed fields). Qed.

Lemma mem_checked_err fields rows rows1 e rows' :
  mem_checked fields rows1 rows = (Some e, rows') -> rows' = rows.
Proof.
  unfold mem_checked. case_decide; [destruct (typed fields); [done|]|]; by intros [= _ <-].
Qed.

#[local] Existing Instance mem_engine.

#[local] Ltac mem := cbn [eng_create eng_create_dup eng_find eng_list eng_exists eng_update eng_delete
  eng_delete_by_fields mem_engine]; unfold mem_write; destruct (fault _); try done.

#[export] Instance mem_engine_ok : EngineOk R.
Proof.
  split.
  - intros t r rows rows'. mem. apply mem_insert_ok.
  - intros t r rows e rows'. mem; [congruence|]. apply mem_insert_err.
  - intros t r d rows rows'. mem. destruct (mem_insert r rows) as [x y] eqn:E.
    intros [= <- -> ->]. by apply mem_insert_ok in E.
  - intros t r rows d e rows'. mem; [congruence|]. destruct (mem_insert r rows) as [x y] eqn:E.
    intros [= <- -> ->]. by apply mem_insert_err in E.
  - intros l t f rows r. mem. intros [= E]. apply List.find_some in E as [Hin Hm].
    by apply list_elem_of_In in Hin.
  - intros l t f rows _. mem. intros [= E]. apply Forall_forall. intros r Hin.
    apply list_elem_of_In in Hin. by eapply List.find_none in E.
  - intros t f rows rs n (Hc & _) _. mem. rewrite Hc. by intros [= <- _].
  - intros t f limit rows rs n _ Hl _. mem. cbn -[List.filter]. unfold mem_limit.
    rewrite (proj2 (Z.ltb_lt _ _)) by done. intros [= <- _]. split.
    + apply Forall_take, Forall_forall. intros r Hin. by apply list_elem_of_In, filter_In in Hin as [?%list_elem_of_In ?].
    + intros E. apply Forall_forall. intros r Hin. apply not_true_iff_false. intros Hm.
      assert (Hf : In r (List.filter (matches (f_Fields f)) rows)) by (by apply filter_In; rewrite <- list_elem_of_In).
      destruct (List.filter _ rows) as [|r' rs']; [done|]. destruct (Z.to_nat limit) eqn:El; [lia|done].
  - intros t rows rs n. mem. by intros [= <- _].
  - intros t f rows b _ _. mem. by intros [= <-].
  - intros t o flt fields rows o' rows'. mem.
    destruct (mem_checked _ _ _) as [x y] eqn:E. intros [= -> _ ->] _ _ _. by apply mem_checked_ok in E as [-> _].
  - intros t o flt fields rows o' rows'. mem.
    destruct (mem_checked _ _ _) as [x y] eqn:E. intros [= -> _ ->] _. by apply mem_checked_ok in E as [_ ?].
  - intros t o flt fields rows o' rows'. mem.
    destruct (mem_checked _ _ _) as [x y] eqn:E. intros [= -> _ ->] Hl. pose proof (mem_checked_typed _ _ _ _ E).
    apply mem_checked_ok in E as [-> _]. by apply updated_rows_ids, leaves_id_lookup.
  - intros t o flt fields rows e o' rows'. mem; [congruence|].
    destruct (mem_checked _ _ _) as [x y] eqn:E. intros [= -> _ ->]. by apply mem_checked_err in E.
  - intros t fields rows rows'. cbn [eng_update_all mem_engine]. unfold mem_write. destruct (fault t); [done|].
    intros E%mem_checked_ok _. by destruct E as [-> _].
  - intros t fields rows e rows'. cbn [eng_update_all mem_engine]. unfold mem_write.
    destruct (fault t); [congruence|]. apply mem_checked_err.
  - intros t o flt fields rows k. mem; [by left|]. left. by destruct (mem_checked _ _ _).
  - intros t o rows rows' _. mem. by intros [= <-].
  - intros t o rows e rows'. mem. congruence.
  - intros t f rows rows' _. mem. by intros [= <-].
  - intros t f rows e rows'. mem. congruence.
Qed.
End Mem.
