(* ===== verification/Crud.v ===== *)
(** * pkg/crud: the CRUD operations of the controllers

    [DbCRUD] is the implementation of the CRUD interface over a database; the generic helpers
    ([Find], [FindByField], [FindUpdate], [Delete], ...) are built on it.  An object given by
    pointer is passed and returned: a read returns it filled when the row is found and as it was
    otherwise.  Each operation has a [spec_] lemma that states what it does to the rows of its
    table and to nothing else, from the laws of [EngineOk]. *)
From S2P Require Import Prelude GoTime Utils Common Errors OpContext Db.
Open Scope go_scope.

(** A table: its rows and the number of queries made on it so far. *)
Record table (R : Type) := { rows : list R; queries : nat }.
Arguments rows {R}.
Arguments queries {R}.

Definition query {R A} (f : nat -> list R -> A * list R) : M (table R) A := fun t =>
  ((f (queries t) (rows t)).1, {| rows := (f (queries t) (rows t)).2; queries := S (queries t) |}).
Definition read_query {R A} (f : nat -> list R -> A) : M (table R) A :=
  query (fun t rs => (f t rs, rs)).

Module DbCRUD.
Section Methods.
Context {P X R : Type} `{!Entity R, !Engine R, !Lens X (table R), !Lens X Env}.
Local Abbreviation act := (M (St P X)).

(** [if err != nil { return c.SetError(err) }; return nil] *)
Definition checked (c : nat) (err : option error) : act (option error) :=
  match err with
  | Some _ => SetError c err
  | None => ret None
  end.

Definition Create (object : R) : act (option error) :=
  traced "CRUD.Create" (fun c =>
    let* err := on (query (fun t => eng_create t object)) in
    checked c err).

Definition CreateDup (object : R) : act (bool * option error) :=
  traced "CRUD.Create" (fun c =>
    let* '(duplicate, err) := on (query (fun t => eng_create_dup t object)) in
    match err with
    | Some _ => SetError c err ;; ret (duplicate, err)
    | None => ret (false, None)
    end).

(** Shared by the reads: the found flag, the error, the object. *)
Definition read_with (name : string) (l : lock) (fields : Fields) (object : R) :
  act (bool * option error * R) :=
  traced name (fun c =>
    let* '(row, err) := on (read_query (fun t => eng_find l t fields)) in
    let found := bool_decide (is_Some row) in
    let* err := checked c err in
    ret (found, err, default object row)).

Definition Read := read_with "CRUD.Read" NoLock.
Definition ReadForUpdate := read_with "CRUD.ReadForUpdate" LockUpdate.
Definition ReadForShare := read_with "CRUD.ReadForShare" LockShare.
Definition ReadByField (fieldName : string) (fieldValue : value) (object : R) :
  act (bool * option error * R) := read_with "CRUD.Read" NoLock {[fieldName := fieldValue]} object.

(** [db.Update]: the row with the object's ID. *)
Definition db_Update (obj : R) (fields : Fields) : act (option error * R) :=
  let* f := on (updated_fields fields) in
  on (query (fun t => eng_update t obj {["id" := VStr (GetID obj)]} f)).

Definition Update (obj : R) (fields : Fields) : act (option error * R) :=
  traced "CRUD.Update" (fun c =>
    let* '(err, obj) := db_Update obj fields in
    let* err := checked c err in
    ret (err, obj)).

(** Without a filter every row is updated. *)
Definition UpdateMulti (model : R) (filter : option Fields) (fields : Fields) : act (option error) :=
  traced "CRUD.UpdateMulti" (fun c =>
    let* f := on (updated_fields fields) in
    let* err := match filter with
                | None => on (query (fun t => eng_update_all t f))
                | Some flt => let* '(err, _) := on (query (fun t => eng_update t model flt f)) in ret err
                end in
    checked c err).

Definition UpdateWithFilter (filter : Filter) (fields : Fields) : act (option error) :=
  traced "CRUD.UpdateWithFilter" (fun c =>
    let* f := on (updated_fields fields) in
    let* err := on (query (fun t => eng_update_with_filter t filter f)) in
    checked c err).

Definition Delete (object : R) : act (option error) :=
  traced "CRUD.Delete" (fun c =>
    let* err := on (query (fun t => eng_delete t object)) in
    checked c err).

Definition DeleteByFields (fields : Fields) : act (option error) :=
  traced "CRUD.DeleteByFields" (fun c =>
    let* err := on (query (fun t => eng_delete_by_fields t fields)) in
    checked c err).

Definition List_ (filter : option Filter) : act (list R * Z * option error) :=
  traced "CRUD.List" (fun c =>
    let* '(rs, count, err) := on (read_query (fun t => eng_list t filter)) in
    match err with
    | Some _ => SetError c err ;; ret (rs, 0%Z, err)
    | None => ret (rs, count, None)
    end).

Definition Exists (filter : Filter) : act (bool * option error) :=
  traced "CRUD.Exists" (fun c =>
    let* '(exists_, err) := on (read_query (fun t => eng_exists t filter)) in
    match err with
    | Some _ => SetError c err ;; ret (false, err)
    | None => ret (exists_, None)
    end).
End Methods.
End DbCRUD.

(** ** Generic helpers *)

Section Helpers.
Context {P X R : Type} `{!Entity R, !Engine R, !Lens X (table R), !Lens X Env}.
Local Abbreviation act := (M (St P X)).

Definition List_ (methodName : string) (filter : option Filter) : act (list R * Z * option error) :=
  traced methodName (fun c =>
    let* '(rs, count, err) := DbCRUD.List_ filter in
    match err with
    | Some _ => SetError c err ;; ret (rs, 0%Z, err)
    | None => ret (rs, count, None)
    end).

(** What [Find] and [FindByField] make of a read: a nil object unless the row is found. *)
Definition found_object (c : nat) (r : bool * option error * R) : act (option R * option error) :=
  let '(found, err, object) := r in
  match err with
  | Some _ => SetError c err ;; ret (None, err)
  | None => if (found : bool) then ret (Some object, None) else ret (None, None)
  end.

Definition Find (methodName : string) (fields : Fields) (object : R) : act (option R * option error) :=
  traced methodName (fun c =>
    let* r := DbCRUD.Read fields object in found_object c r).

Definition FindByField (methodName fieldName : string) (fieldValue : value) (object : R) :
  act (option R * option error) :=
  traced methodName (fun c =>
    let* r := DbCRUD.ReadByField fieldName fieldValue object in found_object c r).

Definition Create (methodName : string) (obj : R) : act (option error) :=
  traced methodName (fun c =>
    let* err := DbCRUD.Create obj in DbCRUD.checked c err).

Definition Update (methodName : string) (obj : R) (fields : Fields) : act (option error * R) :=
  traced methodName (fun c =>
    let* '(err, obj) := DbCRUD.Update obj fields in
    let* err := DbCRUD.checked c err in
    ret (err, obj)).

Definition FindUpdate (methodName fieldName : string) (fieldValue : value) (fields : Fields) (object : R) :
  act (option R * option error) :=
  traced methodName (fun c =>
    let* '(obj, err) := FindByField "Find" fieldName fieldValue object in
    match err, obj with
    | Some _, _ => SetError c err ;; ret (None, err)
    | None, None => ret (None, None)
    | None, Some obj =>
        let* '(err, obj) := Update "Update" obj fields in
        match err with
        | Some _ => SetError c err ;; ret (None, err)
        | None => ret (Some obj, None)
        end
    end).

Definition Delete (methodName fieldName : string) (fieldValue : value) (object : R) : act (option error) :=
  traced methodName (fun c =>
    let* '(obj, err) := FindByField "Find" fieldName fieldValue object in
    match err, obj with
    | Some _, _ => SetError c err
    | None, None => ret None
    | None, Some obj =>
        let* err := DbCRUD.Delete obj in
        DbCRUD.checked c err
    end).

Definition DeleteByFields (methodName : string) (fields : Fields) : act (option error) :=
  traced methodName (fun c =>
    let* err := DbCRUD.DeleteByFields fields in DbCRUD.checked c err).

Definition Exists (methodName : string) (filter : Filter) : act (bool * option error) :=
  traced methodName (fun c =>
    let* '(exists_, err) := DbCRUD.Exists filter in
    match err with
    | Some _ => SetError c err ;; ret (false, err)
    | None => ret (exists_, None)
    end).
End Helpers.

(** ** Specifications *)

(** What a successful or failed write makes of the rows. *)
Definition create_post `{Entity R} (r : R) (rs : list R) (e : option error) (rs' : list R) : Prop :=
  match e with
  | None => rs' = rs ++ [r] /\ (table_ok rs -> table_ok rs')
  | Some _ => rs' = rs
  end.
Definition update_post `{Entity R} (id : string) (fields : Fields) (rs : list R) (e : option error)
    (rs' : list R) : Prop :=
  match e with
  | None =>
      (exists now, typed fields = true ->
        rs' = updated_rows {["id" := VStr id]} (<["updated_at" := VTime now]> fields) rs) /\
      (table_ok rs -> table_ok rs') /\
      (leaves_id fields -> map GetID rs' = map GetID rs)
  | Some _ => rs' = rs
  end.
Definition delete_post `{Entity R} (id : string) (rs : list R) (e : option error) (rs' : list R) : Prop :=
  match e with
  | None => id <> "" -> rs' = rows_without id rs
  | Some _ => rs' = rs
  end.
Definition delete_by_fields_post `{Entity R} (f : Fields) (rs : list R) (e : option error) (rs' : list R) : Prop :=
  match e with
  | None => typed f = true -> rs' = rows_not_matching f rs
  | Some _ => rs' = rs
  end.
(** What a read says of the rows: a row that matches, or none that does, or an error. *)
Definition find_post `{Entity R} (f : Fields) (rs : list R) (row : option R) (e : option error) : Prop :=
  match e, row with
  | None, Some r => r ∈ rs /\ matches f r = true
  | None, None => typed f = true -> Forall (fun r => matches f r = false) rs
  | Some _, _ => row = None
  end.
Definition exists_post `{Entity R} (f : Filter) (rs : list R) (b : bool) (e : option error) : Prop :=
  match e with
  | None => plain f -> typed (f_Fields f) = true -> b = existsb (matches (f_Fields f)) rs
  | Some _ => b = false
  end.
Definition list_post `{Entity R} (f : option Filter) (rs out : list R) (e : option error) : Prop :=
  match e, f with
  | None, Some f => plain f -> typed (f_Fields f) = true -> out ≡ₚ List.filter (matches (f_Fields f)) rs
  | None, None => out ≡ₚ rs
  | Some _, _ => True
  end.

(** A table after a query that leaves the rows in [rs']. *)
Definition queried {R} (rs' : list R) (t : table R) : table R := {| rows := rs'; queries := S (queries t) |}.

Lemma rows_without_none `{Entity R} id (rs : list R) : Forall (fun r => GetID r <> id) rs -> rows_without id rs = rs.
Proof.
  induction 1 as [|r rs Hr _ IH]; [done|]. cbn. rewrite bool_decide_eq_false_2 by done. cbn.
  by f_equal.
Qed.

Section Specs.
Context {P X R : Type} `{EngineOk R, !EntityOk R, !Lens X (table R), !Lens X Env, !Disjoint_lens X (table R) Env}.
Implicit Types (o : Op P) (x : X).
Local Abbreviation tbl := (view (S := X) (A := table R)).

Lemma spec_query {A} (f : nat -> list R -> A * list R) (Q : A -> Op P -> X -> Prop) o x :
  (forall a rs', f (queries (tbl x)) (rows (tbl x)) = (a, rs') -> Q a o (put (queried rs' (tbl x)) x)) ->
  spec (on (query f)) Q o x.
Proof.
  intros HQ. apply spec_on. unfold wp, query; cbn. apply HQ. by destruct (f _ _).
Qed.

Lemma spec_checked c err (Q : option error -> Op P -> X -> Prop) o x :
  Q err o x -> spec (DbCRUD.checked c err) Q o x.
Proof. destruct err; cbn; intros; by spec_go. Qed.

Lemma spec_DbCreate (r : R) (Q : option error -> Op P -> X -> Prop) o x :
  (forall e rs', create_post r (rows (tbl x)) e rs' -> Q e o (put (queried rs' (tbl x)) x)) ->
  spec (DbCRUD.Create r) Q o x.
Proof.
  intros HQ. unfold DbCRUD.Create. spec_go. apply spec_query. intros e rs' E. apply spec_checked, HQ.
  destruct e; cbn; [by eapply create_err|by eapply create_ok].
Qed.

Lemma spec_read_with name l f (obj : R) (Q : bool * option error * R -> Op P -> X -> Prop) o x :
  (forall (row : option R) (e : option error), find_post f (rows (tbl x)) (match e with Some _ => None | None => row end) e ->
     Q (bool_decide (is_Some row), e, default obj row) o (put (queried (rows (tbl x)) (tbl x)) x)) ->
  spec (DbCRUD.read_with name l f obj) Q o x.
Proof.
  intros HQ. unfold DbCRUD.read_with. spec_go. apply spec_query. intros [row e] rs' [= E <-].
  apply spec_bind, spec_checked, spec_ret, HQ.
  destruct e; [done|]. destruct row; cbn; [by eapply find_some|]. intros. by eapply find_none.
Qed.

(** The reads of a database that never fails. *)
Definition reads_never_fail : Prop := forall l t f (rs : list R), (eng_find l t f rs).2 = None.

Lemma spec_read_never_fails name l f (obj : R) (Q : bool * option error * R -> Op P -> X -> Prop) o x :
  reads_never_fail ->
  (forall row : option R, find_post f (rows (tbl x)) row None ->
     Q (bool_decide (is_Some row), None, default obj row) o (put (queried (rows (tbl x)) (tbl x)) x)) ->
  spec (DbCRUD.read_with name l f obj) Q o x.
Proof.
  intros Hn HQ. unfold DbCRUD.read_with. spec_go. apply spec_query. intros [row e] rs' [= E <-].
  pose proof (Hn l (queries (tbl x)) f (rows (tbl x))) as He. rewrite E in He. cbn in He. subst e.
  apply spec_bind, spec_checked, spec_ret, HQ.
  destruct row; cbn; [by eapply find_some|]. intros. by eapply find_none.
Qed.

(** A column of an object after an update with the fields. *)
Definition updated_object (f : Fields) (obj obj' : R) : Prop :=
  forall k, k <> "updated_at" -> column k obj' = column k obj \/ exists v, f !! k = Some v /\ column k obj' = Some v.

Lemma updated_object_id f (obj obj' : R) : updated_object f obj obj' -> f !! "id" = None -> GetID obj' = GetID obj.
Proof.
  intros Ho Hid. destruct (Ho "id" ltac:(done)) as [E|(v & E & _)]; [|congruence].
  rewrite !id_column in E. by injection E.
Qed.

Lemma spec_db_Update (obj : R) f (Q : option error * R -> Op P -> X -> Prop) o x :
  (forall e obj' env' rs', update_post (GetID obj) f (rows (tbl x)) e rs' ->
     updated_object f obj obj' -> same_clock (view x) env' ->
     Q (e, obj') o (put (queried rs' (tbl x)) (put (env' : Env) x))) ->
  spec (DbCRUD.db_Update obj f) Q o x.
Proof.
  intros HQ. unfold DbCRUD.db_Update, updated_fields. apply spec_bind, spec_on.
  unfold Now, bind, wp. cbn. rewrite CopyMap_eq. apply spec_query. rewrite view_put_l.
  set (now := env_now (view x) (env_tick (view x))). intros [e obj'] rs' E. apply HQ.
  - destruct e; cbn; [by eapply update_err|]. split.
    + exists now. intros Ht. eapply update_ok; [done|right; apply lookup_singleton_eq| |].
      * apply typed_singleton, id_assignable.
      * apply typed_insert; [apply updated_at_assignable|done].
    + split; [by eapply update_unique|]. intros Hl. eapply update_ids; [done|]. by apply leaves_id_insert.
  - intros k Hk. pose proof (update_obj (queries (tbl x)) obj {["id" := VStr (GetID obj)]}
      (<["updated_at":=VTime now]> f) (rows (tbl x)) k) as Ho.
    rewrite E in Ho. cbn in Ho. by rewrite lookup_insert_ne in Ho by done.
  - apply same_clock_tick.
Qed.

Lemma spec_DbUpdate_object (obj : R) f (Q : option error * R -> Op P -> X -> Prop) o x :
  (forall e obj' env' rs', update_post (GetID obj) f (rows (tbl x)) e rs' ->
     updated_object f obj obj' -> same_clock (view x) env' ->
     Q (e, obj') o (put (queried rs' (tbl x)) (put (env' : Env) x))) ->
  spec (DbCRUD.Update obj f) Q o x.
Proof.
  intros HQ. unfold DbCRUD.Update. spec_go. apply spec_db_Update. intros e obj' env' rs' E Ho Hc.
  apply spec_bind, spec_checked, spec_ret. by apply HQ.
Qed.

Lemma spec_DbUpdate (obj : R) f (Q : option error * R -> Op P -> X -> Prop) o x :
  (forall e obj' env' rs', update_post (GetID obj) f (rows (tbl x)) e rs' ->
     (f !! "id" = None -> GetID obj' = GetID obj) -> same_clock (view x) env' ->
     Q (e, obj') o (put (queried rs' (tbl x)) (put (env' : Env) x))) ->
  spec (DbCRUD.Update obj f) Q o x.
Proof.
  intros HQ. apply spec_DbUpdate_object. intros e obj' env' rs' Hp Ho Hc. apply HQ; [done| |done].
  by apply updated_object_id.
Qed.

(** Several rows at once: those the filter selects, or all of them. *)
Definition update_multi_post (flt : option Fields) (fields : Fields) (rs : list R) (e : option error) (rs' : list R) : Prop :=
  match e with
  | None =>
      typed fields = true -> match flt with Some f => typed f = true | None => True end ->
      exists now, rs' = let f := <["updated_at" := VTime now]> fields in
                        match flt with Some flt => updated_rows flt f rs | None => map (assign_all f) rs end
  | Some _ => rs' = rs
  end.

Lemma spec_updated_fields f (Q : Fields -> Op P -> X -> Prop) o x :
  (forall now env', same_clock (view x) env' -> Q (<["updated_at" := VTime now]> f) o (put (env' : Env) x)) ->
  spec (on (updated_fields f)) Q o x.
Proof.
  intros HQ. apply spec_on. unfold updated_fields, Now, bind, wp, ret. cbn [fst snd].
  rewrite CopyMap_eq. apply HQ, same_clock_tick.
Qed.

Lemma spec_UpdateMulti (model : R) flt f (Q : option error -> Op P -> X -> Prop) o x :
  GetID model = "" ->
  (forall e env' rs', update_multi_post flt f (rows (tbl x)) e rs' -> same_clock (view x) env' ->
     Q e o (put (queried rs' (tbl x)) (put (env' : Env) x))) ->
  spec (DbCRUD.UpdateMulti model flt f) Q o x.
Proof.
  intros Hid HQ. unfold DbCRUD.UpdateMulti. spec_go. apply spec_updated_fields. intros now env' Hclock.
  destruct flt as [flt|]; spec_go; apply spec_query; rewrite view_put_l.
  - intros [e obj'] rs' E. spec_go. apply spec_checked, HQ; [|done]. destruct e; cbn; [by eapply update_err|].
    intros Ht Hf. exists now. eapply update_ok; [done|by left|done|].
    apply typed_insert; [apply updated_at_assignable|done].
  - intros e rs' E. apply spec_checked, HQ; [|done]. destruct e; cbn; [by eapply update_all_err|].
    intros Ht _. exists now. eapply update_all_ok; [done|].
    apply typed_insert; [apply updated_at_assignable|done].
Qed.

Lemma spec_DbDelete (r : R) (Q : option error -> Op P -> X -> Prop) o x :
  (forall e rs', delete_post (GetID r) (rows (tbl x)) e rs' -> Q e o (put (queried rs' (tbl x)) x)) ->
  spec (DbCRUD.Delete r) Q o x.
Proof.
  intros HQ. unfold DbCRUD.Delete. spec_go. apply spec_query. intros e rs' E. apply spec_checked, HQ.
  destruct e; cbn; [by eapply delete_err|]. intros. by eapply delete_ok.
Qed.

Lemma spec_DbDeleteByFields f (Q : option error -> Op P -> X -> Prop) o x :
  (forall e rs', delete_by_fields_post f (rows (tbl x)) e rs' -> Q e o (put (queried rs' (tbl x)) x)) ->
  spec (DbCRUD.DeleteByFields (R := R) f) Q o x.
Proof.
  intros HQ. unfold DbCRUD.DeleteByFields. spec_go. apply spec_query. intros e rs' E. apply spec_checked, HQ.
  destruct e; cbn; [by eapply delete_by_fields_err|]. intros. by eapply delete_by_fields_ok.
Qed.

Lemma spec_DbExists f (Q : bool * option error -> Op P -> X -> Prop) o x :
  (forall b e, exists_post f (rows (tbl x)) b e -> Q (b, e) o (put (queried (rows (tbl x)) (tbl x)) x)) ->
  spec (DbCRUD.Exists (R := R) f) Q o x.
Proof.
  intros HQ. unfold DbCRUD.Exists. spec_go. apply spec_query. intros [b e] rs' [= E <-].
  destruct e; spec_go; apply HQ; cbn; [done|]. intros. by eapply exists_ok.
Qed.

(** Existence under a plain filter: an error, a row that matches, or none. *)
Lemma spec_exists_plain f (Q : bool * option error -> Op P -> X -> Prop) o x :
  plain f -> typed (f_Fields f) = true ->
  (forall e, Q (false, Some e) o (put (queried (rows (tbl x)) (tbl x)) x)) ->
  (forall r, r ∈ rows (tbl x) -> matches (f_Fields f) r = true ->
     Q (true, None) o (put (queried (rows (tbl x)) (tbl x)) x)) ->
  (Forall (fun r => matches (f_Fields f) r = false) (rows (tbl x)) ->
     Q (false, None) o (put (queried (rows (tbl x)) (tbl x)) x)) ->
  spec (DbCRUD.Exists (R := R) f) Q o x.
Proof.
  intros Hp Ht He Hy Hn. apply spec_DbExists. intros b [e|] E; cbn in E; [subst; apply He|].
  specialize (E Hp Ht). destruct b.
  - symmetry in E. apply existsb_exists in E as (r & Hin & Hm). apply list_elem_of_In in Hin. by eapply Hy.
  - apply Hn, Forall_forall. intros r Hin. apply not_true_iff_false. intros Hm. symmetry in E.
    apply not_true_iff_false in E. apply E, existsb_exists. exists r. by rewrite <- list_elem_of_In.
Qed.

(** The same for one field. *)
Lemma spec_exists_field k v (Q : bool * option error -> Op P -> X -> Prop) o x :
  assignable (R := R) k v = true ->
  (forall e, Q (false, Some e) o (put (queried (rows (tbl x)) (tbl x)) x)) ->
  (forall r : R, r ∈ rows (tbl x) -> column k r = Some v ->
     Q (true, None) o (put (queried (rows (tbl x)) (tbl x)) x)) ->
  (Forall (fun r => column k r <> Some v) (rows (tbl x)) ->
     Q (false, None) o (put (queried (rows (tbl x)) (tbl x)) x)) ->
  spec (DbCRUD.Exists (R := R) (Filter.AddField k v NewFilter)) Q o x.
Proof.
  intros Ha He Hy Hn. apply spec_exists_plain; [auto with go|by apply typed_singleton|done| |].
  - intros r Hin Hm. change (matches {[k := v]} r = true) in Hm. rewrite matches_singleton in Hm.
    apply bool_decide_eq_true in Hm. by eapply Hy.
  - intros Hall. apply Hn. eapply Forall_impl; [exact Hall|]. cbn beta. intros r Hm.
    change (matches {[k := v]} r = false) in Hm. rewrite matches_singleton in Hm.
    by apply bool_decide_eq_false in Hm.
Qed.

Lemma spec_DbList f (Q : list R * Z * option error -> Op P -> X -> Prop) o x :
  (forall rs n e, list_post f (rows (tbl x)) rs e -> Q (rs, n, e) o (put (queried (rows (tbl x)) (tbl x)) x)) ->
  spec (DbCRUD.List_ (R := R) f) Q o x.
Proof.
  intros HQ. unfold DbCRUD.List_. spec_go. apply spec_query. intros [[rs n] e] rs' [= E <-].
  destruct e; spec_go; apply HQ; cbn; [done|].
  destruct f; intros; [by eapply list_ok|by eapply list_all_ok].
Qed.

(** A search for one row: an error, a row that matches, or no row that does. *)
Lemma spec_DbList_limit f n (Q : list R * Z * option error -> Op P -> X -> Prop) o x :
  plain f -> (0 < n)%Z -> typed (f_Fields f) = true ->
  (forall rs k e, Q (rs, k, Some e) o (put (queried (rows (tbl x)) (tbl x)) x)) ->
  (forall r rs k, r ∈ rows (tbl x) -> matches (f_Fields f) r = true ->
     Q (r :: rs, k, None) o (put (queried (rows (tbl x)) (tbl x)) x)) ->
  (forall k, Forall (fun r => matches (f_Fields f) r = false) (rows (tbl x)) ->
     Q ([], k, None) o (put (queried (rows (tbl x)) (tbl x)) x)) ->
  spec (DbCRUD.List_ (R := R) (Some (SetLimit n f))) Q o x.
Proof.
  intros Hp Hn Ht He Hy Hno. unfold DbCRUD.List_. spec_go. apply spec_query. intros [[rs k] e] rs' [= E <-].
  destruct e; spec_go; [apply He|]. apply list_limit_ok in E as [Hall Hnil]; [|done..].
  destruct rs as [|r rs]; [by apply Hno, Hnil|]. apply Forall_cons in Hall as [[Hin Hm] _]. by apply Hy.
Qed.

Lemma spec_List name f (Q : list R * Z * option error -> Op P -> X -> Prop) o x :
  (forall rs n e, list_post f (rows (tbl x)) rs e -> Q (rs, n, e) o (put (queried (rows (tbl x)) (tbl x)) x)) ->
  spec (List_ (R := R) name f) Q o x.
Proof.
  intros HQ. unfold List_. spec_go. apply spec_DbList. intros rs n e E.
  destruct e; spec_go; by apply HQ.
Qed.

Lemma spec_FindByField name k v (obj : R) (Q : option R * option error -> Op P -> X -> Prop) o x :
  (forall row e, find_post {[k := v]} (rows (tbl x)) row e ->
     Q (row, e) o (put (queried (rows (tbl x)) (tbl x)) x)) ->
  spec (FindByField name k v obj) Q o x.
Proof.
  intros HQ. unfold FindByField. spec_go. apply spec_read_with. intros row e E.
  destruct e; cbn; spec_go; [by apply HQ|].
  destruct row; rewrite ?bool_decide_eq_true_2, ?bool_decide_eq_false_2 by (eauto || by intros [? ?]);
    apply spec_ret; by apply HQ.
Qed.

Lemma spec_Delete name k v (obj : R) (Q : option error -> Op P -> X -> Prop) o x :
  (forall row e, find_post {[k := v]} (rows (tbl x)) row e -> (row = None \/ e <> None) ->
     Q e o (put (queried (rows (tbl x)) (tbl x)) x)) ->
  (forall r e rs', r ∈ rows (tbl x) -> matches {[k := v]} r = true ->
     delete_post (GetID r) (rows (tbl x)) e rs' ->
     Q e o (put (queried rs' (queried (rows (tbl x)) (tbl x))) x)) ->
  spec (Delete name k v obj) Q o x.
Proof.
  intros HQ HQ'. unfold Delete. spec_go. apply spec_FindByField. intros row e E.
  destruct e; [spec_go; eauto|]. destruct row; [|spec_go; eauto].
  destruct E as [Hin Hm]. spec_go. apply spec_DbDelete. intros e rs' E. rewrite view_put in *. rewrite put_put.
  by eapply spec_checked, HQ'.
Qed.

(** Deletion by ID: afterwards no row has it, unless the call fails and changes nothing. *)
Lemma spec_Delete_id name id (obj : R) (Q : option error -> Op P -> X -> Prop) o x :
  id <> "" ->
  (forall e t', rows t' = match e with None => rows_without id (rows (tbl x)) | Some _ => rows (tbl x) end ->
     Q e o (put t' x)) ->
  spec (Delete name "id" (VStr id) obj) Q o x.
Proof.
  intros Hid HQ. apply spec_Delete.
  - intros row e Hf Hor. apply HQ. destruct e; [done|]. destruct Hor as [->|]; [|done].
    rewrite rows_without_none; [done|]. eapply Forall_impl.
    + apply Hf, typed_singleton, id_assignable.
    + cbn beta. intros r Hm. rewrite matches_id in Hm. by apply bool_decide_eq_false in Hm.
  - intros r e rs' Hin Hm Hdel. rewrite matches_id in Hm. apply bool_decide_eq_true in Hm. subst id.
    apply HQ. destruct e; [done|]. by apply Hdel.
Qed.

Lemma spec_FindUpdate name k v f (obj : R) (Q : option R * option error -> Op P -> X -> Prop) o x :
  (forall e, (e = None -> find_post {[k := v]} (rows (tbl x)) None None) ->
     Q (None, e) o (put (queried (rows (tbl x)) (tbl x)) x)) ->
  (forall r e r' env' rs', r ∈ rows (tbl x) -> matches {[k := v]} r = true ->
     update_post (GetID r) f (rows (tbl x)) e rs' -> (f !! "id" = None -> GetID r' = GetID r) ->
     Q ((match e with None => Some r' | Some _ => None end), e) o
       (put (queried rs' (queried (rows (tbl x)) (tbl x)))
          (put (env' : Env) (put (queried (rows (tbl x)) (tbl x)) x)))) ->
  spec (FindUpdate name k v f obj) Q o x.
Proof.
  intros HQ HQ'. unfold FindUpdate. spec_go. apply spec_FindByField. intros row e E.
  destruct e; [spec_go; by apply HQ|]. destruct row as [r|]; [|spec_go; by apply HQ].
  destruct E as [Hin Hm]. unfold Update. spec_go. apply spec_DbUpdate.
  intros e obj' env' rs' E Hid _. rewrite view_put in *. apply spec_bind, spec_checked, spec_ret.
  specialize (HQ' r e obj' env' rs' Hin Hm E Hid).
  destruct e; spec_go; exact HQ'.
Qed.
End Specs.

Lemma elem_of_rows_without `{Entity R} id (rs : list R) r : r ∈ rows_without id rs <-> r ∈ rs /\ GetID r <> id.
Proof.
  unfold rows_without. rewrite list_elem_of_In, filter_In, <- list_elem_of_In.
  by rewrite negb_true_iff, bool_decide_eq_false.
Qed.

Lemma elem_of_rows_not_matching `{Entity R} f (rs : list R) r :
  r ∈ rows_not_matching f rs <-> r ∈ rs /\ matches f r = false.
Proof.
  unfold rows_not_matching. rewrite list_elem_of_In, filter_In, <- list_elem_of_In. by rewrite negb_true_iff.
Qed.

(** ** Rows after an update, column by column *)

Section Changed.
Context `{EntityOk R}.

(** The columns of a row after a change, but for the time of the update. *)
Definition changed_columns (f : Fields) (r r' : R) : Prop :=
  forall k, k <> "updated_at" -> column k r' = match f !! k with Some v => Some v | None => column k r end.

Lemma updated_rows_changed id f now (rs : list R) :
  typed (R := R) f = true -> f !! "id" = None ->
  Forall2 (fun r r' => if decide (Db.GetID r = id) then changed_columns f r r' else r' = r)
    rs (updated_rows {["id" := VStr id]} (<["updated_at" := VTime now]> f) rs).
Proof.
  intros Ht Hid. unfold updated_rows. induction rs as [|r rs IH]; cbn; constructor; [|done].
  rewrite matches_id. case_decide as E; [|by rewrite bool_decide_eq_false_2].
  rewrite bool_decide_eq_true_2 by done. intros k Hk.
  rewrite column_assign_all by (apply typed_insert; [apply updated_at_assignable|done]).
  by rewrite lookup_insert_ne.
Qed.
End Changed.
