(* ===== verification/FilterParser.v ===== *)
(** * pkg/db/db_gorm: the fields of a model, and the parser of the filters clients send

    A query of a client has names and texts ([Db.Query]); the parser turns it into a filter on
    columns of the database, with values of their types.  Models are described by what GORM reads
    from the struct ([schema_Schema]); the order in which Go ranges over a map is a parameter
    ([MapRange]). *)
From S2P Require Import Prelude GoTime Utils Common Errors Db.
Open Scope go_scope.

(** Results with an error: the first one ends the function. *)
Notation "'let^' x := m 'in' k" := (match m with inl x => k | inr err => inr err end)
  (at level 10, x pattern, m at level 100, k at level 200) : go_scope.

Fixpoint each {A E S} (f : A -> S -> S + E) (l : list A) (s : S) : S + E :=
  match l with
  | [] => inl s
  | a :: l => let^ s := f a s in each f l s
  end.
Fixpoint traverse {A B E} (f : A -> B + E) (l : list A) : list B + E :=
  match l with
  | [] => inl []
  | a :: l => let^ b := f a in let^ bs := traverse f l in inl (b :: bs)
  end.

(** ** Models (model_store.go) *)

Inductive data_type := DString | DInt | DBool | DUint | DFloat | DTime | DOther.
#[export] Instance data_type_eq_dec : EqDecision data_type.
Proof. solve_decision. Defined.

(** A field of a struct as GORM parses it, with its tags. *)
Record schema_Field := {
  DBName : string; DataType : data_type; PrimaryKey : bool;
  INDEX : string; UNIQUEINDEX : string;
  tag_json : string; tag_source : string; tag_validate : string;
  (** the name of the struct it is embedded from *)
  OwnerSchema : option string
}.
(** A schema, with the embedded structs of the model and their source tags. *)
Record schema_Schema := {
  Table : string; Name : string; s_Fields : list schema_Field; embedded : list (string * string)
}.

Record FieldDescriptor := {
  Json : string; DbTable : string; DbField : string; FullDbName : string; Index : bool; Schema : schema_Field
}.
Record ModelDescriptor := { d_Schema : schema_Schema; FieldsJson : option (gmap string FieldDescriptor) }.

Definition FindJsonField (json : string) (d : ModelDescriptor) : FieldDescriptor + error :=
  match default ∅ (FieldsJson d) !! json with
  | Some f => inl f
  | None => inr (Native "field not found")
  end.
Definition FieldsReady (d : ModelDescriptor) : bool := bool_decide (is_Some (FieldsJson d)).
Definition IsIndexField (f : schema_Field) : bool :=
  PrimaryKey f || bool_decide (INDEX f <> "") || bool_decide (UNIQUEINDEX f <> "").

(** [fmt.Sprintf("%s.%s", a, b)] *)
Definition dotted (a b : string) : string := a +:+ "." +:+ b.

(** The first run, of one field. *)
Definition describe (table : string) (field : schema_Field) : FieldDescriptor :=
  let json := if decide (tag_json field = "") then DBName field else tag_json field in
  let full := if decide (tag_source field = "") then dotted table (DBName field) else tag_source field in
  match Split full "." with
  | [t; f] => {| Json := json; DbTable := t; DbField := f; FullDbName := full; Index := IsIndexField field; Schema := field |}
  | _ => {| Json := json; DbTable := full; DbField := DBName field; FullDbName := dotted full (DBName field);
            Index := IsIndexField field; Schema := field |}
  end.

(** The second run: the sources of embedded structs. *)
Definition embeddedSources (s : schema_Schema) : gmap string string :=
  foldl (fun m ns => if decide (ns.2 <> "") then <[ns.1 := ns.2]> m else m) ∅ (embedded s).

(** The third run, of one field. *)
Definition resource_field (sources : gmap string string) (fd : FieldDescriptor) : FieldDescriptor :=
  match OwnerSchema (Schema fd) with
  | Some owner =>
      match sources !! owner with
      | Some t => {| Json := Json fd; DbTable := t; DbField := DbField fd; FullDbName := dotted t (DbField fd);
                     Index := Index fd; Schema := Schema fd |}
      | None => fd
      end
  | None => fd
  end.

Definition ParseFields (d : ModelDescriptor) : ModelDescriptor :=
  let s := d_Schema d in
  let fields := foldl (fun m field => let fd := describe (Table s) field in <[Json fd := fd]> m) ∅ (s_Fields s) in
  {| d_Schema := s; FieldsJson := Some (resource_field (embeddedSources s) <$> fields) |}.

(** The models of an application by their tables. *)
Definition ModelStore := gmap string ModelDescriptor.
Definition RegisterModel (s : schema_Schema) (m : ModelStore) : ModelStore :=
  <[Table s := {| d_Schema := s; FieldsJson := None |}]> m.
Definition RegisterModels (l : list schema_Schema) (m : ModelStore) : ModelStore := foldl (fun m s => RegisterModel s m) m l.
Definition FindDescriptor (name : string) (m : ModelStore) : option ModelDescriptor := m !! name.

(** ** The parser (filter_parser.go) *)

Record ValidationError := { ve_Message : string; ve_Field : string; ve_Err : option error }.
Inductive filter_error := Validation (e : ValidationError) | Failure (e : error).

(** The validator and its rules by names of fields. *)
Record FilterValidator := { ValidateValue : value -> string -> option filter_error; Rules : gmap string string }.

Record FilterParser := { Destination : ModelDescriptor; Validator : option FilterValidator }.

Definition invalid {A} (message field : string) : A + filter_error :=
  inr (Validation {| ve_Message := message; ve_Field := field; ve_Err := None |}).

Section Parser.
Context `{Mr : !MapRange}.
Variable ParseFloat : string -> option Z.

Definition convertValue (field : schema_Field) (v : string) : value + error :=
  match DataType field with
  | DString => inl (VStr v)
  | DInt => match StrToInt64 v with inl z => inl (VInt z) | inr _ => inr (Native "invalid integer") end
  | DBool => match StrToBool v with Some b => inl (VBool b) | None => inr (Native "invalid format") end
  | DUint => match StrToUint64 v with inl z => inl (VInt z) | inr _ => inr (Native "invalid integer") end
  | DFloat => match StrToFloat ParseFloat v with Some b => inl (VFloat b) | None => inr (Native "invalid float") end
  | DTime => match Date.ParseTime v with Some t => inl (VTime t) | None => inr (Native "invalid time") end
  | DOther => inr (Native "unsupported field type")
  end.

(** The rules of a field: those of the validator, or the tag. *)
Definition rules_of (v : FilterValidator) (name : string) (fd : FieldDescriptor) : string :=
  match Rules v !! name with Some r => r | None => tag_validate (Schema fd) end.

(** The name of the column, and the value; with [onlyName] the text is the value. *)
Definition ParseValidateField (f : FilterParser) (name v : string) (onlyName : list bool) : (string * value) + filter_error :=
  match FindJsonField name (Destination f) with
  | inr _ => invalid "Invalid field name" name
  | inl field =>
      if negb (Index field) then invalid "Non-index field can not be used in queries" name
      else if OptionalArg false onlyName then inl (FullDbName field, VStr v)
      else
        match convertValue (Schema field) v with
        | inr _ => invalid "Invalid field value" name
        | inl result =>
            match Validator f with
            | None => inl (FullDbName field, result)
            | Some vld =>
                let rules := rules_of vld name field in
                if decide (rules <> "") then
                  match ValidateValue vld result rules with
                  | Some err => inr err
                  | None => inl (FullDbName field, result)
                  end
                else inl (FullDbName field, result)
            end
        end
  end.

(** The values of one field of [fields_in]; the name is the one that was given when there are
    none. *)
Fixpoint parse_values (f : FilterParser) (key field : string) (values : list string) : (string * list value) + filter_error :=
  match values with
  | [] => inl (field, [])
  | v :: r =>
      let^ (field, val) := ParseValidateField f key v [] in
      let^ (field, vals) := parse_values f key field r in inl (field, val :: vals)
  end.

Definition parse_fields (f : FilterParser) (m : gmap string string) : Fields + filter_error :=
  each (fun kv acc => let^ (field, v) := ParseValidateField f kv.1 kv.2 [] in inl (<[field := v]> acc)) (range m) ∅.

Definition parse_in (f : FilterParser) (m : gmap string (list string)) : gmap string (list value) + filter_error :=
  each (fun kv acc => let^ (field, vs) := parse_values f kv.1 kv.1 kv.2 in inl (<[field := vs]> acc)) (range m) ∅.

(** One end of an interval: the name and the value, if it is present. *)
Definition parse_end (f : FilterParser) (key : string) (v : option string) : (string * value) + filter_error :=
  match v with
  | Some v => ParseValidateField f key v []
  | None => inl ("", VNil)
  end.
Definition parse_interval (f : FilterParser) (kv : string * QueryInterval) (acc : gmap string Interval) :
    gmap string Interval + filter_error :=
  let i := kv.2 in
  let^ (field, from) := parse_end f kv.1 (q_From i) in
  let^ (fieldTo, to) := parse_end f kv.1 (q_To i) in
  let field := if decide (field = "") then fieldTo else field in
  inl (if decide (field <> "") then
         <[field := {| From := from; To := to; FromOpen := q_FromOpen i; ToOpen := q_ToOpen i |}]> acc
       else acc).

Definition parse_between (f : FilterParser) (b : QueryBetweenField) : BetweenField + filter_error :=
  let^ (fromField, val) := ParseValidateField f (q_FromField b) (q_Value b) [] in
  let^ (toField, _) := ParseValidateField f (q_ToField b) (q_Value b) [] in
  inl {| FromField := fromField; ToField := toField; bf_Value := val; bf_FromOpen := qb_FromOpen b; bf_ToOpen := qb_ToOpen b |}.

(** The value of the last field is taken. *)
Definition parse_or (f : FilterParser) (o : QueryOrField) : OrField + filter_error :=
  let^ fields := traverse (fun n => ParseValidateField f n (qo_Value o) []) (qo_Fields o) in
  inl {| or_Value := List.last (map snd fields) VNil; or_Fields := map fst fields |}.

Definition set_SortField (s : string) (c : FilterConfig) : FilterConfig :=
  {| SortField := s; SortDirection := SortDirection c; Offset := Offset c; Limit := Limit c; Count := Count c |}.

Definition Parse (f : FilterParser) (query : option Query) : option Filter + filter_error :=
  match query with
  | None => inl None
  | Some q =>
      let^ sort := (if decide (SortField (q_config q) <> "") then
                      let^ (field, _) := ParseValidateField f (SortField (q_config q)) "" [true] in inl field
                    else inl "") in
      let^ fields := parse_fields f (q_Fields q) in
      let^ fieldsIn := parse_in f (q_FieldsIn q) in
      let^ fieldsNotIn := parse_in f (q_FieldsNotIn q) in
      let^ intervals := each (parse_interval f) (range (q_Intervals q)) ∅ in
      let^ betweens := traverse (parse_between f) (q_BetweenFields q) in
      let^ ors := traverse (parse_or f) (q_OrFields q) in
      inl (Some {| config := set_SortField sort (q_config q); f_Fields := fields; FieldsIn := fieldsIn;
                   FieldsNotIn := fieldsNotIn; Intervals := intervals; BetweenFields := betweens; OrFields := ors;
                   PresetFields := [] |})
  end.
End Parser.

(** ** The manager: parsers by name *)

Record FilterManager := { modelStore : ModelStore; parsers : gmap string FilterParser }.
Definition NewFilterManager (m : ModelStore) : FilterManager := {| modelStore := m; parsers := ∅ |}.

Section Manager.
Context `{Mr : !MapRange}.
Variable ParseFloat : string -> option Z.

(** [schema.Parse] of the model is its schema or an error. *)
Definition PrepareFilterParser (model : schema_Schema + error) (name : string) (vld : list FilterValidator) :
    M FilterManager (FilterParser + filter_error) := fun f =>
  match model with
  | inr _ => (inr (Failure (Native "failed to parse model schema")), f)
  | inl s =>
      match FindDescriptor (Table s) (modelStore f) with
      | None => (inr (Failure (Native ("model " +:+ Name s +:+ " (table " +:+ Table s +:+ ") not registered"))), f)
      | Some d =>
          (* the descriptor is the one of the store *)
          let '(d, store) := if FieldsReady d then (d, modelStore f)
                             else let d := ParseFields d in (d, <[Table s := d]> (modelStore f)) in
          let parser := {| Destination := d; Validator := head vld |} in
          (inl parser, {| modelStore := store; parsers := <[name := parser]> (parsers f) |})
      end
  end.

Definition ParseFilter (query : option Query) (parserName : string) : M FilterManager (option Filter + filter_error) := fun f =>
  match parsers f !! parserName with
  | None => (invalid "unknown parser" "", f)
  | Some parser => (Parse ParseFloat parser query, f)
  end.

(** A parser of the name is taken whatever the model and the validator. *)
Definition ParseFilterDirect (query : option Query) (model : schema_Schema + error) (parserName : string)
    (vld : list FilterValidator) : M FilterManager (option Filter + filter_error) := fun f =>
  match parsers f !! parserName with
  | Some parser => (Parse ParseFloat parser query, f)
  | None =>
      match PrepareFilterParser model parserName vld f with
      | (inr err, f) => (inr err, f)
      | (inl p, f) => (Parse ParseFloat p query, f)
      end
  end.

(** [db.ParseQuery]: [Unmarshal] is [json.Unmarshal] into a query. *)
Definition ParseQuery (Unmarshal : string -> Query + error) (query : string) (model : schema_Schema + error)
    (parserName : string) (vld : list FilterValidator) : M FilterManager (option Filter + filter_error) := fun f =>
  if decide (query = "") then (inl None, f)
  else match Unmarshal query with
       | inr err => (inr (Failure err), f)
       | inl q => ParseFilterDirect (Some q) model parserName vld f
       end.
End Manager.

(** ** What a filter is made of *)

Lemma traverse_Forall2 {A B E} (f : A -> B + E) l bs : traverse f l = inl bs <-> Forall2 (fun a b => f a = inl b) l bs.
Proof.
  revert bs. induction l as [|a l IH]; intros bs; cbn.
  - split; [by intros [= <-]|]. intros H. by inversion H.
  - destruct (f a) as [b|err] eqn:E1.
    + destruct (traverse f l) as [bs'|err] eqn:E2.
      * split; [intros [= <-]; constructor; [done|by apply IH]|]. intros H. inversion H as [|? ? ? ? Hb Hr]; subst.
        apply IH in Hr. congruence.
      * split; [done|]. intros H. inversion H as [|? ? ? ? Hb Hr]; subst. apply IH in Hr. congruence.
    + split; [done|]. intros H. inversion H; subst. congruence.
Qed.

(** What holds of the start and is kept by every element holds of the result. *)
Lemma each_kept {A E S} (f : A -> S -> S + E) (P : S -> Prop) l s s' :
  (forall a s s', a ∈ l -> P s -> f a s = inl s' -> P s') -> P s -> each f l s = inl s' -> P s'.
Proof.
  revert s. induction l as [|a l IH]; intros s Hf Hs; cbn; [by intros [= <-]|].
  destruct (f a s) as [s1|] eqn:E1; [|done]. apply IH.
  - intros b t t' Hb. apply Hf. by apply list_elem_of_further.
  - eapply Hf; [apply list_elem_of_here|done|done].
Qed.

Section Facts.
Context `{Mr : !MapRange}.
Variable ParseFloat : string -> option Z.
Implicit Types (f : FilterParser) (q : Query).

Definition validated f (n : string) (fd : FieldDescriptor) (v : value) : Prop :=
  match Validator f with
  | None => True
  | Some vld => rules_of vld n fd = "" \/ ValidateValue vld v (rules_of vld n fd) = None
  end.
Definition indexed f (n : string) (fd : FieldDescriptor) : Prop :=
  default ∅ (FieldsJson (Destination f)) !! n = Some fd /\ Index fd = true.
(** The text of a name was read as a value of the column. *)
Definition checked f (n text : string) (kv : string * value) : Prop :=
  exists fd, indexed f n fd /\ kv.1 = FullDbName fd /\ convertValue ParseFloat (Schema fd) text = inl kv.2 /\ validated f n fd kv.2.

Lemma ParseValidateField_checked f n text kv :
  ParseValidateField ParseFloat f n text [] = inl kv <-> checked f n text kv.
Proof.
  unfold ParseValidateField, checked, indexed, FindJsonField.
  destruct (default ∅ (FieldsJson (Destination f)) !! n) as [fd|] eqn:Efd;
    [|split; [done|]; intros (fd & [E _] & _); congruence].
  destruct (Index fd) eqn:Ei; cbn [negb OptionalArg]; [|split; [done|]; intros (fd' & [E Hi] & _); congruence].
  destruct (convertValue ParseFloat (Schema fd) text) as [v|] eqn:Ev;
    [|split; [done|]; intros (fd' & [[= <-] _] & _ & E & _); congruence].
  assert (Hgo : forall b : Prop, (validated f n fd v <-> b) ->
    (exists fd' : FieldDescriptor, (Some fd = Some fd' /\ Index fd' = true) /\ kv.1 = FullDbName fd' /\
      convertValue ParseFloat (Schema fd') text = inl kv.2 /\ validated f n fd' kv.2) <-> kv = (FullDbName fd, v) /\ b).
  { intros b Hb. split.
    - intros (fd' & [[= <-] _] & H1 & H2 & H3). rewrite Ev in H2. injection H2 as H2. destruct kv; cbn in *. subst.
      split; [done|by apply Hb].
    - intros [-> H]. exists fd. cbn. split_and!; try done. by apply Hb. }
  destruct (Validator f) as [vld|] eqn:Evl.
  - destruct (decide (rules_of vld n fd <> "")) as [Hr|Hr].
    + destruct (ValidateValue vld v (rules_of vld n fd)) as [err|] eqn:Evv.
      * rewrite (Hgo False); [by split; [|intros [_ ?]]|]. unfold validated. rewrite Evl, Evv. split; [by intros [?|?]|done].
      * rewrite (Hgo True); [by split; [intros [= <-]|intros [-> _]]|]. unfold validated. rewrite Evl, Evv. split; auto.
    + rewrite (Hgo True); [by split; [intros [= <-]|intros [-> _]]|]. unfold validated. rewrite Evl. apply dec_stable in Hr. split; auto.
  - rewrite (Hgo True); [by split; [intros [= <-]|intros [-> _]]|]. unfold validated. by rewrite Evl.
Qed.

Lemma ParseValidateField_name f n kv : ParseValidateField ParseFloat f n "" [true] = inl kv ->
  exists fd, indexed f n fd /\ kv.1 = FullDbName fd.
Proof.
  unfold ParseValidateField, indexed, FindJsonField. destruct (default ∅ _ !! n) as [fd|] eqn:Efd; [|done].
  destruct (Index fd) eqn:Ei; cbn; [|done]. intros [= <-]. by exists fd.
Qed.

(** The values of a name: none, and then the name was not looked at; or each is the value of its
    text, in the column of the name. *)
Definition checked_all f (n : string) (texts : list string) (kvs : string * list value) : Prop :=
  (texts = [] /\ kvs = (n, [])) \/
  (texts <> [] /\ Forall2 (fun text v => checked f n text (kvs.1, v)) texts kvs.2).

Lemma checked_name f n t t' kv kv' : checked f n t kv -> checked f n t' kv' -> kv.1 = kv'.1.
Proof. intros (fd & [E _] & H & _) (fd' & [E' _] & H' & _). congruence. Qed.

Lemma parse_values_checked f n field texts kvs : parse_values ParseFloat f n field texts = inl kvs ->
  Forall2 (fun text v => checked f n text (kvs.1, v)) texts kvs.2 /\ (texts = [] -> kvs.1 = field).
Proof.
  revert field kvs. induction texts as [|t texts IH]; intros field kvs; cbn; [intros [= <-]; by split; [constructor|]|].
  destruct (ParseValidateField ParseFloat f n t []) as [[k v]|] eqn:E1; [|done].
  destruct (parse_values ParseFloat f n k texts) as [[k' vs]|] eqn:E2; [|done]. intros [= <-]. cbn.
  apply ParseValidateField_checked in E1. destruct (IH _ _ E2) as [Hf Hn]. cbn in Hf, Hn. split; [|done].
  constructor; [|done]. destruct texts as [|t' texts]; [by rewrite Hn|].
  inversion Hf as [|? ? ? ? Hc _]; subst. pose proof (checked_name _ _ _ _ _ _ E1 Hc) as Hk. cbn in Hk. by rewrite <- Hk.
Qed.

Lemma parse_values_checked_all f n texts kvs : parse_values ParseFloat f n n texts = inl kvs -> checked_all f n texts kvs.
Proof.
  intros E. destruct (parse_values_checked _ _ _ _ _ E) as [Hf Hn]. destruct texts as [|t texts].
  - left. split; [done|]. inversion Hf; subst. destruct kvs; cbn in *. rewrite <- Hn by done. congruence.
  - right. by split.
Qed.

(** Ranging over a map into a map: every entry comes from one of the entries. *)
Lemma each_entries {A B} (f : string * A -> gmap string B -> gmap string B + filter_error) (m : gmap string A)
    (R : string -> A -> string -> B -> Prop) res :
  (forall k a acc acc', m !! k = Some a -> f (k, a) acc = inl acc' ->
     forall k' b, acc' !! k' = Some b -> acc !! k' = Some b \/ R k a k' b) ->
  each f (range m) ∅ = inl res -> map_Forall (fun k' b => exists k a, m !! k = Some a /\ R k a k' b) res.
Proof.
  intros Hf. apply (each_kept f (map_Forall (fun k' b => exists k a, m !! k = Some a /\ R k a k' b))); [|apply map_Forall_empty].
  intros [k a] acc acc' Hin Hacc E k' b Hb. apply elem_of_range in Hin.
  destruct (Hf k a acc acc' Hin E k' b Hb) as [Ho|HR]; [by apply Hacc|by exists k, a].
Qed.

Lemma lookup_insert_or {A} (m : gmap string A) i a k b : <[i := a]> m !! k = Some b -> m !! k = Some b \/ (k = i /\ b = a).
Proof. rewrite lookup_insert_Some. intros [[<- <-]|[_ ?]]; auto. Qed.

Lemma parse_fields_checked f m res : parse_fields ParseFloat f m = inl res ->
  map_Forall (fun k v => exists n text, m !! n = Some text /\ checked f n text (k, v)) res.
Proof.
  apply each_entries. intros n t acc acc' Hm. cbn [fst snd].
  destruct (ParseValidateField ParseFloat f n t []) as [[k v]|] eqn:E; [|done]. intros [= <-] k' b Hb.
  apply ParseValidateField_checked in E. destruct (lookup_insert_or _ _ _ _ _ Hb) as [|[-> ->]]; auto.
Qed.

Lemma parse_in_checked f m res : parse_in ParseFloat f m = inl res ->
  map_Forall (fun k vs => exists n texts, m !! n = Some texts /\ checked_all f n texts (k, vs)) res.
Proof.
  apply each_entries. intros n ts acc acc' Hm. cbn [fst snd].
  destruct (parse_values ParseFloat f n n ts) as [[k vs]|] eqn:E; [|done]. intros [= <-] k' b Hb.
  apply parse_values_checked_all in E. destruct (lookup_insert_or _ _ _ _ _ Hb) as [|[-> ->]]; auto.
Qed.

(** The ends of an interval that are present; one is. *)
Definition checked_interval f (n : string) (i : QueryInterval) (k : string) (j : Interval) : Prop :=
  (exists t v, checked f n t (k, v)) /\ FromOpen j = q_FromOpen i /\ ToOpen j = q_ToOpen i /\
  match q_From i with Some t => checked f n t (k, From j) | None => From j = VNil end /\
  match q_To i with Some t => checked f n t (k, To j) | None => To j = VNil end.

Lemma parse_interval_checked f m res : each (parse_interval ParseFloat f) (range m) ∅ = inl res ->
  map_Forall (fun k j => exists n i, m !! n = Some i /\ checked_interval f n i k j) res.
Proof.
  apply each_entries. intros n i acc acc' Hm. unfold parse_interval. cbn [fst snd].
  destruct (parse_end ParseFloat f n (q_From i)) as [[k1 v1]|] eqn:E1; [|done].
  destruct (parse_end ParseFloat f n (q_To i)) as [[k2 v2]|] eqn:E2; [|done]. intros [= <-] k' b Hb.
  destruct (decide _) as [Hne|_]; [|by left].
  destruct (lookup_insert_or _ _ _ _ _ Hb) as [|[-> ->]]; [by left|right]. clear Hb. unfold checked_interval. cbn [From To FromOpen ToOpen].
  destruct (q_From i) as [t1|], (q_To i) as [t2|]; cbn in E1, E2;
    repeat match goal with H : ParseValidateField _ _ _ _ [] = _ |- _ => apply ParseValidateField_checked in H end;
    simplify_eq; try (rewrite decide_True in Hne |- * by done).
  - pose proof (checked_name _ _ _ _ _ _ E1 E2) as Hk. cbn in Hk. subst k2.
    destruct (decide (k1 = "")); split_and!; eauto.
  - destruct (decide (k1 = "")); [done|]. split_and!; eauto.
  - split_and!; eauto.
Qed.

Definition checked_between f (b : QueryBetweenField) (c : BetweenField) : Prop :=
  checked f (q_FromField b) (q_Value b) (FromField c, bf_Value c) /\ (exists v, checked f (q_ToField b) (q_Value b) (ToField c, v)) /\
  bf_FromOpen c = qb_FromOpen b /\ bf_ToOpen c = qb_ToOpen b.
Definition checked_or f (o : QueryOrField) (c : OrField) : Prop :=
  Forall2 (fun n k => exists v, checked f n (qo_Value o) (k, v)) (qo_Fields o) (or_Fields c).

Lemma parse_between_checked f b c : parse_between ParseFloat f b = inl c -> checked_between f b c.
Proof.
  unfold parse_between. destruct (ParseValidateField _ _ (q_FromField b) _ _) as [[k v]|] eqn:E1; [|done].
  destruct (ParseValidateField _ _ (q_ToField b) _ _) as [[k' v']|] eqn:E2; [|done]. intros [= <-].
  apply ParseValidateField_checked in E1, E2. split_and!; cbn; eauto.
Qed.

Lemma parse_or_checked f o c : parse_or ParseFloat f o = inl c -> checked_or f o c.
Proof.
  unfold parse_or, checked_or. destruct (traverse _ _) as [l|] eqn:E; [|done]. intros [= <-]. cbn.
  apply traverse_Forall2 in E. apply Forall2_fmap_r. eapply Forall2_impl; [exact E|]. cbn.
  intros n [k v] H%ParseValidateField_checked. by exists v.
Qed.

(** What a parsed filter has: columns of indexed fields of the model, with values that were read from
    the texts of the query and passed the validation; only the names of lists without values are
    those of the query. *)
Definition filter_of f q (fl : Filter) : Prop :=
  (SortField (config fl) = "" \/ exists fd, indexed f (SortField (q_config q)) fd /\ SortField (config fl) = FullDbName fd) /\
  set_SortField "" (config fl) = set_SortField "" (q_config q) /\
  map_Forall (fun k v => exists n text, q_Fields q !! n = Some text /\ checked f n text (k, v)) (f_Fields fl) /\
  map_Forall (fun k vs => exists n texts, q_FieldsIn q !! n = Some texts /\ checked_all f n texts (k, vs)) (FieldsIn fl) /\
  map_Forall (fun k vs => exists n texts, q_FieldsNotIn q !! n = Some texts /\ checked_all f n texts (k, vs)) (FieldsNotIn fl) /\
  map_Forall (fun k j => exists n i, q_Intervals q !! n = Some i /\ checked_interval f n i k j) (Intervals fl) /\
  Forall2 (checked_between f) (q_BetweenFields q) (BetweenFields fl) /\
  Forall2 (checked_or f) (q_OrFields q) (OrFields fl) /\ PresetFields fl = [].

(** [C19] What clients can filter by.  A filter that is parsed from a query sorts and selects by
    columns of indexed fields of the model only, under their full names, with values that were read
    from the texts by the type of the column and passed the rules of the validator - but for the
    names of [fields_in] and [fields_not_in] without values, which are taken from the query as they
    are. *)
Theorem parse_checks f q fl : Parse ParseFloat f (Some q) = inl (Some fl) -> filter_of f q fl.
Proof.
  unfold Parse.
  destruct (if decide _ then _ else _) as [sort|] eqn:Es; [|done].
  destruct (parse_fields _ _ _) as [fs|] eqn:Ef; [|done]. destruct (parse_in _ _ (q_FieldsIn q)) as [fi|] eqn:Ei; [|done].
  destruct (parse_in _ _ (q_FieldsNotIn q)) as [fn|] eqn:En; [|done]. destruct (each _ _ _) as [iv|] eqn:Ev; [|done].
  destruct (traverse (parse_between _ _) _) as [bt|] eqn:Eb; [|done]. destruct (traverse (parse_or _ _) _) as [os|] eqn:Eo; [|done].
  intros [= <-]. unfold filter_of. cbn. apply traverse_Forall2 in Eb, Eo. split.
  { destruct (decide _) as [Hs|Hs] in Es; [|injection Es as <-; by left].
    destruct (ParseValidateField _ _ _ _ _) as [[k v]|] eqn:E; [|done]. injection Es as <-. right. by eapply ParseValidateField_name in E. }
  split_and!; try done.
  - by apply parse_fields_checked.
  - by apply parse_in_checked.
  - by apply parse_in_checked.
  - by apply parse_interval_checked.
  - eapply Forall2_impl; [exact Eb|]. intros. by apply parse_between_checked.
  - eapply Forall2_impl; [exact Eo|]. intros. by apply parse_or_checked.
Qed.
End Facts.
