(* ===== verification/FilterRoundtrip.v ===== *)
(** * Filters of a client are the filters of the server

    [Db.ToQuery] prints a filter with the names clients use; [FilterParser.Parse] reads it back as
    the same filter on the columns of the database ([FilterRoundtrip.filter_roundtrip]).  The
    values that do not come back - [false], times - are shown by examples. *)
From S2P Require Import Prelude GoTime Utils Common Errors Db FilterParser.
Open Scope go_scope.

(** ** Maps with other names *)

Definition rename {A} (g : string -> string) (m : gmap string A) : gmap string A :=
  list_to_map ((fun kv => (g kv.1, kv.2)) <$> map_to_list m).

Definition inj_on {A} (g : string -> string) (m : gmap string A) : Prop :=
  forall n n', is_Some (m !! n) -> is_Some (m !! n') -> g n = g n' -> n = n'.

Lemma lookup_rename {A} g (m : gmap string A) k b :
  inj_on g m -> rename g m !! k = Some b <-> exists n, m !! n = Some b /\ k = g n.
Proof.
  intros Hg. unfold rename. rewrite <- elem_of_list_to_map.
  - rewrite list_elem_of_fmap. split.
    + intros ([n a] & [= -> ->] & Hin). apply elem_of_map_to_list in Hin. by exists n.
    + intros (n & Hn & ->). exists (n, b). split; [done|]. by apply elem_of_map_to_list.
  - rewrite <- list_fmap_compose. apply NoDup_fmap_2_strong; [|apply NoDup_map_to_list].
    intros [n a] [n' a'] Hin Hin' E. apply elem_of_map_to_list in Hin, Hin'. cbn in E.
    assert (n = n') as -> by (by apply Hg). congruence.
Qed.

(** Steps that insert one entry each. *)
Lemma each_insert {T B Er} (step : string * T -> gmap string B -> gmap string B + Er) (g : string -> string) (v : string -> option B) l acc :
  (forall n t acc, (n, t) ∈ l -> exists b, v n = Some b /\ step (n, t) acc = inl (<[g n := b]> acc)) ->
  NoDup (g <$> l.*1) ->
  exists res, each step l acc = inl res /\
    forall k b, res !! k = Some b <->
      (exists n, n ∈ l.*1 /\ v n = Some b /\ k = g n) \/ (acc !! k = Some b /\ k ∉ g <$> l.*1).
Proof.
  revert acc. induction l as [|[n t] l IH]; intros acc Hstep Hnd.
  - exists acc. split; [done|]. intros k b. cbn. split; [intros ?; right; split; [done|]|intros [(n & Hn & _)|[? _]]; [|done]]; set_solver.
  - cbn in Hnd. apply NoDup_cons in Hnd as [Hn Hnd].
    destruct (Hstep n t acc) as (b & Hb & E); [apply list_elem_of_here|]. cbn [each]. rewrite E.
    destruct (IH (<[g n := b]> acc)) as (res & Hres & Hspec); [intros; apply Hstep; by apply list_elem_of_further|done|].
    exists res. split; [done|]. intros k b'. rewrite Hspec, lookup_insert_Some. cbn. rewrite not_elem_of_cons. split.
    + intros [(n' & Hn' & Hv & ->)|[[[<- <-]|[Hk Ha]] Hk']].
      * left. exists n'. split; [by apply list_elem_of_further|done].
      * left. exists n. split; [apply list_elem_of_here|done].
      * right. split_and!; [done|congruence|done].
    + intros [(n' & Hn' & Hv & ->)|(Ha & Hk & Hk')].
      * apply elem_of_cons in Hn' as [->|Hn']; [right|left; by exists n'].
        split; [left; split; congruence|done].
      * right. split; [|done]. right. split; [congruence|done].
Qed.

Section Ranges.
Context `{Mr : !MapRange}.

Lemma each_range {A T Er} (step : string * T -> gmap string A -> gmap string A + Er) (p : A -> T) (g : string -> string) (m : gmap string A) :
  inj_on g m ->
  (forall n a acc, m !! n = Some a -> step (n, p a) acc = inl (<[g n := a]> acc)) ->
  each step (range (p <$> m)) ∅ = inl (rename g m).
Proof.
  intros Hg Hstep.
  assert (Hin : forall n t, (n, t) ∈ range (p <$> m) -> exists a, m !! n = Some a /\ t = p a).
  { intros n t Hin. apply elem_of_range in Hin. rewrite lookup_fmap_Some in Hin. destruct Hin as (a & Hp & Ha). by exists a. }
  assert (Hkeys : forall n, n ∈ (range (p <$> m)).*1 <-> is_Some (m !! n)).
  { intros n. rewrite list_elem_of_fmap. split.
    - intros ([n' t] & -> & H). apply Hin in H as (a & Ha & _). by exists a.
    - intros [a Ha]. exists (n, p a). split; [done|]. apply elem_of_range. by rewrite lookup_fmap, Ha. }
  destruct (each_insert step g (fun n => m !! n) (range (p <$> m)) ∅) as (res & -> & Hres).
  - intros n t acc H. destruct (Hin n t H) as (a & Ha & ->). exists a. split; [done|by apply Hstep].
  - apply NoDup_fmap_2_strong; [|rewrite (range_perm (p <$> m)); apply NoDup_fst_map_to_list].
    intros n n' Hn Hn' E. apply Hkeys in Hn, Hn'. by apply Hg.
  - f_equal. apply map_eq. intros k. apply option_eq. intros b. rewrite Hres, lookup_rename by done. split.
    + intros [(n & _ & Hn & ->)|[H _]]; [by exists n|]. by rewrite lookup_empty in H.
    + intros (n & Hn & ->). left. exists n. split; [by apply Hkeys; exists b|done].
Qed.
End Ranges.

(** ** Values that are read back *)

Lemma StrToUint64_fmt_d z : (0 <= z < 2 ^ 64)%Z -> StrToUint64 (fmt_d z) = inl z.
Proof.
  intros Hz. unfold StrToUint64. rewrite decide_False by apply fmt_d_nonempty. unfold ParseUint, fmt_d, fmt_0d.
  rewrite parse_fmt_0, Z2N.id by lia. by destruct (Z.ltb_spec z (2 ^ 64)); [|lia].
Qed.

Section Roundtrip.
Context `{Mr : !MapRange}.
Variables fmt_time fmt_float : Z -> string.
Variable ParseFloat : string -> option Z.
Variable f : FilterParser.
Implicit Types (fl : Filter) (v : value).
Local Abbreviation str := (filterValueToString fmt_time fmt_float).

(** Texts, machine integers, and [true]. *)
Definition printable (t : data_type) (v : value) : Prop :=
  match t, v with
  | DString, VStr _ => True
  | DInt, VInt z => in_int64 z
  | DUint, VInt z => (0 <= z < 2 ^ 64)%Z
  | DBool, VBool b => b = true
  | _, _ => False
  end.

(** A value of an indexed field, which passes the validation. *)
Definition good (n : string) v : Prop :=
  exists fd, indexed f n fd /\ validated f n fd v /\ printable (DataType (Schema fd)) v.

(** The column of a field. *)
Definition full (n : string) : string :=
  match default ∅ (FieldsJson (Destination f)) !! n with Some fd => FullDbName fd | None => n end.

Lemma good_parses n v : good n v -> ParseValidateField ParseFloat f n (str v) [] = inl (full n, v).
Proof.
  intros (fd & [Hn Hi] & Hv & Hp). apply ParseValidateField_checked. exists fd. unfold full. rewrite Hn.
  split_and!; try done. cbn. unfold convertValue, printable in *.
  destruct (DataType (Schema fd)), v; try done; cbn.
  - change (fmt_d z) with (NumToStr z). by rewrite (proj1 (StrToInt_NumToStr z Hp)).
  - subst. done.
  - by rewrite StrToUint64_fmt_d.
Qed.

(** The names of a filter that is read back: indexed fields, distinct as columns. *)
Definition good_interval (n : string) (i : Interval) : Prop :=
  (From i <> VNil \/ To i <> VNil) /\ (From i <> VNil -> good n (From i)) /\ (To i <> VNil -> good n (To i)).
Definition good_between (b : BetweenField) : Prop := good (FromField b) (bf_Value b) /\ good (ToField b) (bf_Value b).
Definition good_or (o : OrField) : Prop := or_Fields o <> [] /\ Forall (fun n => good n (or_Value o)) (or_Fields o).

Definition readable fl : Prop :=
  (SortField (config fl) = "" \/ exists fd, indexed f (SortField (config fl)) fd) /\
  map_Forall good (f_Fields fl) /\ inj_on full (f_Fields fl) /\
  map_Forall (fun n vs => vs <> [] /\ Forall (good n) vs) (FieldsIn fl) /\ inj_on full (FieldsIn fl) /\
  map_Forall (fun n vs => vs <> [] /\ Forall (good n) vs) (FieldsNotIn fl) /\ inj_on full (FieldsNotIn fl) /\
  map_Forall good_interval (Intervals fl) /\ inj_on full (Intervals fl) /\
  Forall good_between (BetweenFields fl) /\ Forall good_or (OrFields fl) /\ PresetFields fl = [].

(** The filter on columns. *)
Definition on_columns fl : Filter :=
  {| config := set_SortField (if decide (SortField (config fl) = "") then "" else full (SortField (config fl))) (config fl);
     f_Fields := rename full (f_Fields fl); FieldsIn := rename full (FieldsIn fl); FieldsNotIn := rename full (FieldsNotIn fl);
     Intervals := rename full (Intervals fl);
     BetweenFields := map (fun b => {| FromField := full (FromField b); ToField := full (ToField b); bf_Value := bf_Value b;
                                       bf_FromOpen := bf_FromOpen b; bf_ToOpen := bf_ToOpen b |}) (BetweenFields fl);
     OrFields := map (fun o => {| or_Value := or_Value o; or_Fields := map full (or_Fields o) |}) (OrFields fl);
     PresetFields := [] |}.

(** A full name has a dot. *)
Hypothesis full_names : forall n fd, indexed f n fd -> FullDbName fd <> "".
Lemma good_full n v : good n v -> full n <> "".
Proof. intros (fd & [Hn Hi] & _). unfold full. rewrite Hn. by apply (full_names n). Qed.

Lemma parse_values_good n field vs : vs <> [] -> Forall (good n) vs ->
  parse_values ParseFloat f n field (map str vs) = inl (full n, vs).
Proof.
  intros Hne Hf. revert field Hne. induction Hf as [|v vs Hv Hf IH]; intros field Hne; [done|]. cbn [map parse_values].
  rewrite good_parses by done. destruct vs as [|v' vs]; [done|]. by rewrite IH.
Qed.

Lemma parse_end_good n v : (v <> VNil -> good n v) ->
  parse_end ParseFloat f n (if decide (v = VNil) then None else Some (str v)) = inl (if decide (v = VNil) then "" else full n, v).
Proof. intros Hg. destruct (decide (v = VNil)) as [->|Hv]; [done|]. cbn. apply good_parses. by apply Hg. Qed.

Lemma parse_interval_good n i acc : good_interval n i ->
  parse_interval ParseFloat f (n, {| q_From := if decide (From i = VNil) then None else Some (str (From i));
      q_To := if decide (To i = VNil) then None else Some (str (To i)); q_FromOpen := FromOpen i; q_ToOpen := ToOpen i |}) acc =
  inl (<[full n := i]> acc).
Proof.
  intros (Hne & Hfr & Hto). unfold parse_interval. cbn [fst snd q_From q_To q_FromOpen q_ToOpen].
  rewrite !parse_end_good by done. destruct i as [fr to fo too]. cbn [From To FromOpen ToOpen] in *.
  destruct (decide (fr = VNil)) as [->|Hf], (decide (to = VNil)) as [->|Ht].
  - by destruct Hne.
  - pose proof (good_full _ _ (Hto Ht)). 
    destruct (decide (@eq string "" "")) as [_|]; [|done]. by destruct (decide (full n <> "")).
  - pose proof (good_full _ _ (Hfr Hf)). by destruct (decide (full n = "")), (decide (full n <> "")).
  - pose proof (good_full _ _ (Hfr Hf)). by destruct (decide (full n = "")), (decide (full n <> "")).
Qed.

Lemma parse_or_good o : good_or o ->
  parse_or ParseFloat f {| qo_Value := str (or_Value o); qo_Fields := or_Fields o |} =
  inl {| or_Value := or_Value o; or_Fields := map full (or_Fields o) |}.
Proof.
  intros [Hne Hf]. unfold parse_or. cbn [qo_Value qo_Fields].
  assert (E : traverse (fun n => ParseValidateField ParseFloat f n (str (or_Value o)) []) (or_Fields o) =
    inl (map (fun n => (full n, or_Value o)) (or_Fields o))).
  { apply traverse_Forall2. clear Hne. induction Hf; constructor; [by apply good_parses|done]. }
  assert (Hl : List.last (map (fun _ : string => or_Value o) (or_Fields o)) VNil = or_Value o).
  { clear -Hne. destruct (or_Fields o) as [|n l _] using rev_ind; [done|]. rewrite map_app. apply List.last_last. }
  rewrite E, !map_map. cbn [fst snd]. by rewrite Hl.
Qed.

(** [C20] A filter of a client comes back.  A filter on indexed fields of a model, with texts, machine
    integers or [true] as values, is parsed from its query as the same filter on the columns of
    these fields, whatever the order in which maps are ranged over. *)
Theorem filter_roundtrip fl : readable fl -> Parse ParseFloat f (Some (ToQuery fmt_time fmt_float fl)) = inl (Some (on_columns fl)).
Proof.
  intros (Hs & Hf & If & Hi & Ii & Hn & In_ & Hv & Iv & Hb & Ho & Hp). unfold Parse, ToQuery.
  cbn [q_config q_Fields q_FieldsIn q_FieldsNotIn q_Intervals q_BetweenFields q_OrFields].
  assert (Esort : (if decide (SortField (config fl) <> "") then
      let^ (field, _) := ParseValidateField ParseFloat f (SortField (config fl)) "" [true] in inl field else inl "") =
    inl (if decide (SortField (config fl) = "") then "" else full (SortField (config fl)))).
  { destruct Hs as [->|(fd & Hfd & Hix)]; [done|]. destruct (decide (SortField (config fl) = "")) as [->|Hne]; [done|].
    rewrite decide_True by done. unfold ParseValidateField, FindJsonField, full. rewrite Hfd, Hix. done. }
  rewrite Esort. clear Esort. unfold parse_fields, parse_in.
  rewrite (each_range _ _ full (f_Fields fl)), (each_range _ _ full (FieldsIn fl)), (each_range _ _ full (FieldsNotIn fl)),
    (each_range _ _ full (Intervals fl)); try done.
  - assert (Eb : traverse (parse_between ParseFloat f) (map (fun b => {| q_FromField := FromField b; q_ToField := ToField b;
        q_Value := str (bf_Value b); qb_FromOpen := bf_FromOpen b; qb_ToOpen := bf_ToOpen b |}) (BetweenFields fl)) =
      inl (BetweenFields (on_columns fl))).
    { apply traverse_Forall2, Forall2_fmap_l, Forall2_fmap_r, Forall_Forall2_diag. eapply Forall_impl; [exact Hb|].
      intros b [H1 H2]. unfold parse_between. cbn. rewrite !good_parses by done. done. }
    assert (Eo : traverse (parse_or ParseFloat f) (map (fun o => {| qo_Value := str (or_Value o); qo_Fields := or_Fields o |}) (OrFields fl)) =
      inl (OrFields (on_columns fl))).
    { apply traverse_Forall2, Forall2_fmap_l, Forall2_fmap_r, Forall_Forall2_diag. eapply Forall_impl; [exact Ho|].
      intros o. apply parse_or_good. }
    by rewrite Eb, Eo.
  - intros n i acc Hin. apply parse_interval_good. by apply Hv.
  - intros n vs acc Hin. cbn [fst snd]. destruct (Hn n vs Hin). by rewrite parse_values_good.
  - intros n vs acc Hin. cbn [fst snd]. destruct (Hi n vs Hin). by rewrite parse_values_good.
  - intros n v acc Hin. cbn [fst snd]. by rewrite good_parses by (by apply Hf).
Qed.
End Roundtrip.

(** ** A model *)

Module FilterDemo.
#[export] Instance sorted_range : MapRange := {| range A m := map_to_list m; range_perm A m := reflexivity _ |}.

Definition field (name : string) (t : data_type) (index : string) : schema_Field :=
  {| DBName := name; DataType := t; PrimaryKey := bool_decide (name = "id"); INDEX := index; UNIQUEINDEX := "";
     tag_json := name; tag_source := ""; tag_validate := ""; OwnerSchema := None |}.
Definition pools : schema_Schema :=
  {| Table := "pools"; Name := "PoolBase"; embedded := [];
     s_Fields := [field "id" DString ""; field "created_at" DTime "INDEX"; field "name" DString "INDEX"; field "active" DBool "INDEX";
                  field "port" DUint "INDEX"; field "description" DString ""] |}.
Definition no_float (_ : string) : option Z := None.
Definition manager : FilterManager := NewFilterManager (RegisterModels [pools] ∅).
Definition prepared := PrepareFilterParser (inl pools) "pools" [] manager.
Definition parser : FilterParser :=
  match prepared.1 with inl p => p | inr _ => {| Destination := {| d_Schema := pools; FieldsJson := None |}; Validator := None |} end.
(** [%v] of a time in UTC; only the zone matters here. *)
Definition fmt_time (_ : Z) : string := "2024-02-29 05:06:07 +0000 UTC".

Definition by_fields (fs : Fields) : Filter :=
  {| config := set_SortField "name" no_config; f_Fields := fs; FieldsIn := ∅; FieldsNotIn := ∅;
     Intervals := {["port" := {| From := VInt 1000; To := VNil; FromOpen := true; ToOpen := false |}]};
     BetweenFields := []; OrFields := []; PresetFields := [] |}.
Definition read_back (fs : Fields) := Parse no_float parser (Some (ToQuery fmt_time fmt_time (by_fields fs))).
Definition query_in (name : string) (values : list string) : Query :=
  {| q_config := no_config; q_Fields := ∅; q_FieldsIn := {[name := values]}; q_FieldsNotIn := ∅; q_Intervals := ∅;
     q_BetweenFields := []; q_OrFields := [] |}.
End FilterDemo.

Section Witnesses.
Import FilterDemo.

Lemma demo_indexed n fd : default ∅ (FieldsJson (Destination parser)) !! n = Some fd -> n = Json fd /\ FullDbName fd = dotted "pools" n.
Proof.
  intros H. assert (Hall : map_Forall (fun n fd => bool_decide (n = Json fd /\ FullDbName fd = dotted "pools" n) = true)
    (default ∅ (FieldsJson (Destination parser)))) by (apply (bool_decide_unpack _); vm_compute; exact I).
  exact (bool_decide_eq_true_1 _ (Hall n fd H)).
Qed.

Lemma demo_good n v fd : default ∅ (FieldsJson (Destination parser)) !! n = Some fd -> Index fd = true ->
  printable (DataType (Schema fd)) v -> good parser n v.
Proof. intros H1 H2 H3. exists fd. split; [by split|]. by split. Qed.

Lemma inj_on_singleton {A} g k (a : A) : inj_on g {[k := a]}.
Proof. intros n n' [x Hx] [y Hy] _. apply lookup_singleton_Some in Hx as [<- _], Hy as [<- _]. done. Qed.

Lemma filter_roundtrip_witness :
  read_back {["name" := VStr "main"]} = inl (Some (on_columns parser (by_fields {["name" := VStr "main"]}))) /\
  f_Fields (on_columns parser (by_fields {["name" := VStr "main"]})) = {["pools.name" := VStr "main"]}.
Proof.
  split; [|vm_compute; reflexivity].
  apply (filter_roundtrip FilterDemo.fmt_time FilterDemo.fmt_time no_float parser).
  - intros n fd [H _]. destruct (demo_indexed n fd H) as [_ ->]. discriminate.
  - unfold readable. cbn [by_fields config f_Fields FieldsIn FieldsNotIn Intervals BetweenFields OrFields PresetFields].
    split; [right; eexists; split; vm_compute; reflexivity|].
    split; [apply map_Forall_singleton; eapply demo_good; [vm_compute; reflexivity|reflexivity|exact I]|].
    split; [apply inj_on_singleton|].
    split; [apply map_Forall_empty|]. split; [intros n n' [x Hx]; discriminate Hx|].
    split; [apply map_Forall_empty|]. split; [intros n n' [x Hx]; discriminate Hx|].
    split.
    { apply map_Forall_singleton. split; [by left|]. split; [|by intros []].
      intros _. eapply demo_good; [vm_compute; reflexivity|reflexivity|cbn; lia]. }
    split; [apply inj_on_singleton|]. by split_and!.
Defined.

Lemma parse_checks_witness :
  exists fl, read_back {["name" := VStr "main"]} = inl (Some fl) /\
    filter_of no_float parser (ToQuery FilterDemo.fmt_time FilterDemo.fmt_time (by_fields {["name" := VStr "main"]})) fl.
Proof.
  eexists. split; [vm_compute; reflexivity|]. apply (parse_checks no_float). vm_compute. reflexivity.
Defined.

(** A filter for what is not active comes back as one for what is. *)
Example false_is_true :
  match read_back {["active" := VBool false]} with
  | inl (Some fl) => f_Fields fl !! "pools.active" = Some (VBool true)
  | _ => False
  end.
Proof. vm_compute. reflexivity. Qed.

(** A time as it is printed is refused; one without a zone is read. *)
Example printed_times_refused :
  read_back {["created_at" := VTime 0]} =
    inr (Validation {| ve_Message := "Invalid field value"; ve_Field := "created_at"; ve_Err := None |}) /\
  Date.ParseTime "1970-01-02 00:00:01.5" = Some 86401500000000%Z.
Proof. vm_compute. done. Qed.

(** Fields without an index, unknown fields, and the name of an empty list, which is any text. *)
Example names_of_queries :
  read_back {["description" := VStr "x"]} =
    inr (Validation {| ve_Message := "Non-index field can not be used in queries"; ve_Field := "description"; ve_Err := None |}) /\
  Parse no_float parser (Some (query_in "no_such_field" ["1"])) =
    inr (Validation {| ve_Message := "Invalid field name"; ve_Field := "no_such_field"; ve_Err := None |}) /\
  match Parse no_float parser (Some (query_in "no_such_field" [])) with
  | inl (Some fl) => FieldsIn fl !! "no_such_field" = Some []
  | _ => False
  end.
Proof. vm_compute. done. Qed.
End Witnesses.
