(* ===== verification/GormFilter.v ===== *)
(** * pkg/db/db_gorm: queries as GORM statements

    A [gorm.DB] after its first chained call carries one statement that every further call adds to;
    the functions of gorm_orm.go are computations on it.  Conditions are texts with arguments, as
    they are handed to GORM.  What GORM and the database make of a statement is the class [Gorm];
    [GormOk] states it for the texts the code builds. *)
From Stdlib Require Import Ascii.
From S2P Require Import Prelude GoTime Utils Common Errors Db FilterParser.
Open Scope go_scope.

(** ** Statements *)

Inductive arg := Arg (v : value) | Args (vs : list value).
Inductive cond := Sql (text : string) (args : list arg) | Eqs (fields : Fields).
Inductive connective := CAnd | COr.

Record Statement := {
  Model : bool; Conds : list (connective * cond); Orders : list string; s_Offset : option Z; s_Limit : option Z;
  Selects : list string; Groups : list string; Joins : list string; Locking : string
}.
Definition no_statement : Statement :=
  {| Model := false; Conds := []; Orders := []; s_Offset := None; s_Limit := None; Selects := []; Groups := []; Joins := []; Locking := "" |}.

Local Abbreviation gorm := (M Statement).
Definition SetModel : gorm unit := modify (fun s =>
  {| Model := true; Conds := Conds s; Orders := Orders s; s_Offset := s_Offset s; s_Limit := s_Limit s; Selects := Selects s;
     Groups := Groups s; Joins := Joins s; Locking := Locking s |}).
Definition add_cond (k : connective) (c : cond) : gorm unit := modify (fun s =>
  {| Model := Model s; Conds := Conds s ++ [(k, c)]; Orders := Orders s; s_Offset := s_Offset s; s_Limit := s_Limit s;
     Selects := Selects s; Groups := Groups s; Joins := Joins s; Locking := Locking s |}).
Definition Where (text : string) (args : list arg) : gorm unit := add_cond CAnd (Sql text args).
Definition Or_ (text : string) (args : list arg) : gorm unit := add_cond COr (Sql text args).
(** An empty map adds nothing. *)
Definition WhereFields (f : Fields) : gorm unit := if decide (f = ∅) then ret tt else add_cond CAnd (Eqs f).
Definition Order (text : string) : gorm unit := modify (fun s =>
  {| Model := Model s; Conds := Conds s; Orders := Orders s ++ [text]; s_Offset := s_Offset s; s_Limit := s_Limit s;
     Selects := Selects s; Groups := Groups s; Joins := Joins s; Locking := Locking s |}).
Definition SetOffset (n : Z) : gorm unit := modify (fun s =>
  {| Model := Model s; Conds := Conds s; Orders := Orders s; s_Offset := Some n; s_Limit := s_Limit s; Selects := Selects s;
     Groups := Groups s; Joins := Joins s; Locking := Locking s |}).
Definition SetLimit_ (n : Z) : gorm unit := modify (fun s =>
  {| Model := Model s; Conds := Conds s; Orders := Orders s; s_Offset := s_Offset s; s_Limit := Some n; Selects := Selects s;
     Groups := Groups s; Joins := Joins s; Locking := Locking s |}).
Definition Select (texts : list string) : gorm unit := modify (fun s =>
  {| Model := Model s; Conds := Conds s; Orders := Orders s; s_Offset := s_Offset s; s_Limit := s_Limit s; Selects := texts;
     Groups := Groups s; Joins := Joins s; Locking := Locking s |}).
Definition Group (name : string) : gorm unit := modify (fun s =>
  {| Model := Model s; Conds := Conds s; Orders := Orders s; s_Offset := s_Offset s; s_Limit := s_Limit s; Selects := Selects s;
     Groups := Groups s ++ [name]; Joins := Joins s; Locking := Locking s |}).
Definition Join_ (text : string) : gorm unit := modify (fun s =>
  {| Model := Model s; Conds := Conds s; Orders := Orders s; s_Offset := s_Offset s; s_Limit := s_Limit s; Selects := Selects s;
     Groups := Groups s; Joins := Joins s ++ [text]; Locking := Locking s |}).
Definition Lock (strength : string) : gorm unit := modify (fun s =>
  {| Model := Model s; Conds := Conds s; Orders := Orders s; s_Offset := s_Offset s; s_Limit := s_Limit s; Selects := Selects s;
     Groups := Groups s; Joins := Joins s; Locking := strength |}).

Fixpoint for_each {A} (f : A -> gorm unit) (l : list A) : gorm unit :=
  match l with
  | [] => ret tt
  | a :: l => f a ;; for_each f l
  end.

(** ** Filters (gorm_orm.go) *)

(** A quotation mark, and a quoted name. *)
Definition dq : string := String (ascii_of_nat 34) "".
Definition quoted (name : string) : string := dq +:+ name +:+ dq.

Definition compareOp (isOpen : bool) (comparator : string) : string :=
  if isOpen then comparator else ConcatStrings [comparator; "="].

(** The arguments of the text with both ends are in the wrong order: the second quoted name is the
    second operator, and the name comes bare. *)
Definition both_ends (name op1 op2 : string) : string :=
  quoted name +:+ " " +:+ op1 +:+ " ? AND " +:+ quoted op2 +:+ " " +:+ name +:+ " ? ".
Definition one_end (name op : string) : string := quoted name +:+ " " +:+ op +:+ " ? ".
Definition equals (name : string) : string := quoted name +:+ " = ?".
Definition is_in (name : string) : string := quoted name +:+ " IN ? ".
Definition is_not_in (name : string) : string := quoted name +:+ " NOT IN ? ".
Definition between_text (op1 from op2 to : string) : string :=
  "? " +:+ op1 +:+ " " +:+ quoted from +:+ " AND ? " +:+ op2 +:+ " " +:+ quoted to.

Definition prepareInterval (name : string) (i : Interval) : gorm unit :=
  match decide (From i = VNil), decide (To i = VNil) with
  | right _, right _ =>
      if decide (From i = To i) then Where (equals name) [Arg (From i)]
      else Where (both_ends name (compareOp (FromOpen i) ">") (compareOp (ToOpen i) "<")) [Arg (From i); Arg (To i)]
  | right _, left _ => Where (one_end name (compareOp (FromOpen i) ">")) [Arg (From i)]
  | left _, right _ => Where (one_end name (compareOp (ToOpen i) "<")) [Arg (To i)]
  | left _, left _ => ret tt
  end.

Definition prepareBetween (b : BetweenField) : gorm unit :=
  Where (between_text (compareOp (bf_FromOpen b) ">") (FromField b) (compareOp (bf_ToOpen b) ">") (ToField b))
    [Arg (bf_Value b); Arg (bf_Value b)].

Definition prepareOr (o : OrField) : gorm unit :=
  match or_Fields o with
  | [] => ret tt
  | name :: names => Where (equals name) [Arg (or_Value o)] ;; for_each (fun n => Or_ (equals n) [Arg (or_Value o)]) names
  end.

Section Filters.
Context `{Mr : !MapRange}.

Definition prepareFilter (f : Filter) : gorm unit :=
  WhereFields (f_Fields f) ;;
  for_each WhereFields (PresetFields f) ;;
  for_each (fun kv => Where (is_in kv.1) [Args kv.2]) (range (FieldsIn f)) ;;
  for_each (fun kv => Where (is_not_in kv.1) [Args kv.2]) (range (FieldsNotIn f)) ;;
  for_each (fun kv => prepareInterval kv.1 kv.2) (range (Intervals f)) ;;
  for_each prepareBetween (BetweenFields f) ;;
  for_each prepareOr (OrFields f).

(** A paginator is a pointer. *)
Record Paginator := { MaxLimit : Z }.
Definition nil_paginator : error := Native "invalid memory address or nil pointer dereference".

Definition Paginate (p : option Paginator) (f : Filter) (paginate : list bool) : gorm (option error) :=
  if OptionalArg true paginate then
    (if (0 <? Offset (config f))%Z then SetOffset (Offset (config f)) else ret tt) ;;
    if (0 <? Limit (config f))%Z then
      match p with
      | None => ret (Some nil_paginator)
      | Some p =>
          let limit := Limit (config f) in
          SetLimit_ (if ((limit >? MaxLimit p) && (MaxLimit p >? 0))%Z then MaxLimit p else limit) ;; ret None
      end
    else ret None
  else ret None.

Definition sort_text (field direction : string) : string :=
  match Split field "." with
  | [t; f] => quoted t +:+ "." +:+ quoted f +:+ " " +:+ direction
  | _ => quoted field +:+ " " +:+ direction
  end.

Definition SetFilter (filter : option Filter) (p : option Paginator) (docs : bool) (paginate : list bool) : gorm (option error) :=
  match filter with
  | None => ret None
  | Some f =>
      (if docs then SetModel else ret tt) ;;
      prepareFilter f ;;
      (if bool_decide (SortField (config f) <> "") &&
          (bool_decide (SortDirection (config f) = SORT_ASC) || bool_decide (SortDirection (config f) = SORT_DESC))
       then Order (sort_text (SortField (config f)) (SortDirection (config f))) else ret tt) ;;
      match p with
      | Some p => Paginate (Some p) f paginate
      | None => ret None
      end
  end.
End Filters.

(** ** GORM *)

Definition ErrRecordNotFound : error := Native "record not found".
Definition IsNotFound (e : option error) : bool := bool_decide (e = Some ErrRecordNotFound).

(** When a row satisfies a condition given as a text with arguments. *)
Class Conditions (R : Type) := { sat : string -> list arg -> R -> bool }.

(** What a statement does to the rows of a table; the [nat] is the number of the query.  The last
    argument of [gorm_Updates] and [gorm_Delete] is the object given by pointer. *)
Class Gorm (R : Type) := {
  ordered : list string -> list R -> Prop;
  gorm_First : nat -> Statement -> list R -> R + error;
  gorm_Find : nat -> Statement -> list R -> list R * Z * option error;
  gorm_Count : nat -> Statement -> list R -> Z * option error;
  gorm_Create : nat -> R -> list R -> option error * list R;
  gorm_Updates : nat -> Statement -> R -> Fields -> list R -> option error * R * list R;
  gorm_Delete : nat -> Statement -> option R -> list R -> option error * list R
}.

Section Semantics.
Context `{Ro : EntityOk R, Cr : !Conditions R}.
Implicit Types (r : R) (s : Statement).

Definition cond_holds (c : cond) r : bool :=
  match c with Sql text args => sat text args r | Eqs f => matches f r end.
(** AND binds tighter than OR; the first connective does not count. *)
Fixpoint conds_from (acc : bool) (cs : list (connective * cond)) r : bool :=
  match cs with
  | [] => acc
  | (CAnd, c) :: cs => conds_from (acc && cond_holds c r) cs r
  | (COr, c) :: cs => acc || conds_from (cond_holds c r) cs r
  end.
Definition where_holds (cs : list (connective * cond)) r : bool :=
  match cs with [] => true | (_, c) :: cs => conds_from (cond_holds c r) cs r end.

Definition typed_cond (c : cond) : bool := match c with Sql _ _ => true | Eqs f => typed (R := R) f end.
Definition typed_conds (cs : list (connective * cond)) : bool := forallb (fun c => typed_cond c.2) cs.

Definition page (offset limit : option Z) (rows : list R) : list R :=
  let rows := match offset with Some n => drop (Z.to_nat n) rows | None => rows end in
  match limit with Some n => take (Z.to_nat n) rows | None => rows end.
End Semantics.

(** A column of the table. *)
Definition is_column (R : Type) `{Entity R} (k : string) : Prop := is_Some (assoc k (columns (R := R))).
(** The order of the values of a column. *)
Class ValueOrder := { before : value -> value -> bool }.
Definition compares `{ValueOrder} (op : string) (a b : value) : bool :=
  if decide (op = ">") then before b a else if decide (op = ">=") then negb (before a b)
  else if decide (op = "<") then before a b else negb (before b a).
Definition is_op (op : string) : Prop := op = ">" \/ op = ">=" \/ op = "<" \/ op = "<=".

(** A statement that asks for whole rows, all of them. *)
Definition whole_rows (s : Statement) : Prop := Selects s = [] /\ Groups s = [] /\ Joins s = [].
Definition all_rows (s : Statement) : Prop := whole_rows s /\ s_Offset s = None.

(** The texts name columns, and are read as SQL reads them; a successful query does what its
    statement says, a failed one changes nothing. *)
Class GormOk (R : Type) `{Er : Entity R, Cr : !Conditions R, Gr : !Gorm R, Vo : !ValueOrder} := {
  sat_all r : sat "1 = 1" [] r = true;
  sat_equals k v (r : R) : is_column R k -> sat (equals k) [Arg v] r = bool_decide (column k r = Some v);
  sat_in k vs (r : R) : is_column R k -> sat (is_in k) [Args vs] r = existsb (fun v => bool_decide (column k r = Some v)) vs;
  sat_not_in k vs (r : R) : is_column R k -> vs <> [] ->
    sat (is_not_in k) [Args vs] r = negb (existsb (fun v => bool_decide (column k r = Some v)) vs);
  sat_one_end k op v (r : R) : is_column R k -> is_op op ->
    sat (one_end k op) [Arg v] r = match column k r with Some w => compares op w v | None => false end;
  first_some t s (rows : list R) r : all_rows s -> gorm_First t s rows = inl r -> r ∈ rows /\ where_holds (Conds s) r = true;
  first_none t s (rows : list R) : all_rows s -> typed_conds (R := R) (Conds s) = true ->
    gorm_First t s rows = inr ErrRecordNotFound -> Forall (fun r => where_holds (Conds s) r = false) rows;
  find_rows t s (rows rs : list R) n : whole_rows s -> typed_conds (R := R) (Conds s) = true -> gorm_Find t s rows = (rs, n, None) ->
    n = Z.of_nat (length rs) /\
    exists all, all ≡ₚ List.filter (where_holds (Conds s)) rows /\ ordered (Orders s) all /\ rs = page (s_Offset s) (s_Limit s) all;
  (** Only [First], [Take] and [Last] report that there is no row. *)
  find_never_not_found t s (rows : list R) : IsNotFound (gorm_Find t s rows).2 = false;
  count_rows t s (rows : list R) n : all_rows s -> s_Limit s = None -> typed_conds (R := R) (Conds s) = true ->
    gorm_Count t s rows = (n, None) -> n = Z.of_nat (length (List.filter (where_holds (Conds s)) rows));
  count_never_not_found t s (rows : list R) : IsNotFound (gorm_Count t s rows).2 = false;
  creates t (r : R) rows rows' : gorm_Create t r rows = (None, rows') -> rows' = rows ++ [r] /\ (table_ok rows -> table_ok rows');
  creates_nothing t (r : R) rows e rows' : gorm_Create t r rows = (Some e, rows') -> rows' = rows;
  (** The ID of the object is one more condition. *)
  updates t s o fields (rows rows' : list R) o' :
    gorm_Updates t s o fields rows = (None, o', rows') -> Model s = true -> typed_conds (R := R) (Conds s) = true -> typed (R := R) fields = true ->
    rows' = map (fun r => if where_holds (Conds s) r && (bool_decide (GetID o = "") || bool_decide (GetID r = GetID o))
                          then assign_all fields r else r) rows;
  updates_unique t s o fields (rows rows' : list R) o' :
    gorm_Updates t s o fields rows = (None, o', rows') -> table_ok rows -> table_ok rows';
  updates_ids t s o fields (rows rows' : list R) o' :
    gorm_Updates t s o fields rows = (None, o', rows') -> leaves_id fields -> map GetID rows' = map GetID rows;
  updates_nothing t s o fields (rows rows' : list R) e o' : gorm_Updates t s o fields rows = (Some e, o', rows') -> rows' = rows;
  updates_object t s o fields (rows : list R) k : let o' := (gorm_Updates t s o fields rows).1.2 in
    column k o' = column k o \/ exists v, fields !! k = Some v /\ column k o' = Some v;
  deletes t s o (rows rows' : list R) : gorm_Delete t s o rows = (None, rows') -> typed_conds (R := R) (Conds s) = true ->
    rows' = List.filter (fun r => negb (where_holds (Conds s) r &&
      match o with Some o => bool_decide (GetID o = "") || bool_decide (GetID r = GetID o) | None => true end)) rows;
  deletes_nothing t s o (rows rows' : list R) e : gorm_Delete t s o rows = (Some e, rows') -> rows' = rows
}.

(** ** What a filter selects *)

Definition with_conds (cs : list (connective * cond)) (s : Statement) : Statement :=
  {| Model := Model s; Conds := Conds s ++ cs; Orders := Orders s; s_Offset := s_Offset s; s_Limit := s_Limit s;
     Selects := Selects s; Groups := Groups s; Joins := Joins s; Locking := Locking s |}.

(** The computation only adds the conditions. *)
Definition adds (m : gorm unit) (cs : list (connective * cond)) : Prop := forall s, m s = (tt, with_conds cs s).

Lemma with_conds_nil s : with_conds [] s = s.
Proof. destruct s. unfold with_conds. cbn. by rewrite app_nil_r. Qed.
Lemma adds_nil : adds (ret tt) [].
Proof. intros s. by rewrite with_conds_nil. Qed.
Lemma adds_bind m n cs ds : adds m cs -> adds n ds -> adds (m ;; n) (cs ++ ds).
Proof. intros Hm Hn s. unfold bind. rewrite Hm, Hn. unfold with_conds. cbn. by rewrite app_assoc. Qed.
Lemma adds_for_each {A} (f : A -> gorm unit) g l : (forall a, adds (f a) (g a)) -> adds (for_each f l) (concat (map g l)).
Proof. intros Hf. induction l as [|a l IH]; [apply adds_nil|]. by apply adds_bind. Qed.
Lemma adds_cond k c : adds (add_cond k c) [(k, c)].
Proof. by intros s. Qed.

Definition fields_conds (f : Fields) : list (connective * cond) := if decide (f = ∅) then [] else [(CAnd, Eqs f)].
Lemma adds_fields f : adds (WhereFields f) (fields_conds f).
Proof. unfold WhereFields, fields_conds. case_decide; [apply adds_nil|apply adds_cond]. Qed.

Definition interval_conds (name : string) (i : Interval) : list (connective * cond) :=
  match decide (From i = VNil), decide (To i = VNil) with
  | right _, right _ =>
      if decide (From i = To i) then [(CAnd, Sql (equals name) [Arg (From i)])]
      else [(CAnd, Sql (both_ends name (compareOp (FromOpen i) ">") (compareOp (ToOpen i) "<")) [Arg (From i); Arg (To i)])]
  | right _, left _ => [(CAnd, Sql (one_end name (compareOp (FromOpen i) ">")) [Arg (From i)])]
  | left _, right _ => [(CAnd, Sql (one_end name (compareOp (ToOpen i) "<")) [Arg (To i)])]
  | left _, left _ => []
  end.
Lemma adds_interval name i : adds (prepareInterval name i) (interval_conds name i).
Proof.
  unfold prepareInterval, interval_conds.
  repeat case_decide; first [apply adds_nil|apply adds_cond].
Qed.

Definition between_conds (b : BetweenField) : list (connective * cond) :=
  [(CAnd, Sql (between_text (compareOp (bf_FromOpen b) ">") (FromField b) (compareOp (bf_ToOpen b) ">") (ToField b))
            [Arg (bf_Value b); Arg (bf_Value b)])].
Definition or_conds (o : OrField) : list (connective * cond) :=
  match or_Fields o with
  | [] => []
  | name :: names => (CAnd, Sql (equals name) [Arg (or_Value o)]) :: map (fun n => (COr, Sql (equals n) [Arg (or_Value o)])) names
  end.
Lemma adds_or o : adds (prepareOr o) (or_conds o).
Proof.
  unfold prepareOr, or_conds. destruct (or_Fields o) as [|n l]; [apply adds_nil|].
  apply (adds_bind _ _ [_]); [apply adds_cond|]. induction l as [|m l IH]; [apply adds_nil|].
  apply (adds_bind _ _ [_]); [apply adds_cond|exact IH].
Qed.

Section Selects.
Context `{Mr : !MapRange}.

(** The conditions of a filter, in their order. *)
Definition filter_conds (f : Filter) : list (connective * cond) :=
  fields_conds (f_Fields f) ++
  concat (map fields_conds (PresetFields f)) ++
  concat (map (fun kv => [(CAnd, Sql (is_in kv.1) [Args kv.2])]) (range (FieldsIn f))) ++
  concat (map (fun kv => [(CAnd, Sql (is_not_in kv.1) [Args kv.2])]) (range (FieldsNotIn f))) ++
  concat (map (fun kv => interval_conds kv.1 kv.2) (range (Intervals f))) ++
  concat (map between_conds (BetweenFields f)) ++
  concat (map or_conds (OrFields f)).

Lemma prepareFilter_adds f : adds (prepareFilter f) (filter_conds f).
Proof.
  unfold prepareFilter, filter_conds.
  apply adds_bind; [apply adds_fields|].
  do 5 (apply adds_bind; [apply adds_for_each; intros; first [apply adds_fields|apply adds_interval|apply adds_cond]|]).
  apply adds_for_each, adds_or.
Qed.
End Selects.

Section Rows.
Context {R : Type} `{Go : GormOk R, Eo : !EntityOk R, Mr : !MapRange}.
Implicit Types (r : R) (f : Filter).

Definition is_one_of (k : string) (vs : list value) r : bool := existsb (fun v => bool_decide (column k r = Some v)) vs.
(** The interval without its quirks: a bound is compared with the column. *)
Definition in_interval (k : string) (i : Interval) r : bool :=
  let bound (op : string) (v : value) := bool_decide (v = VNil) || match column k r with Some w => compares op w v | None => false end in
  if decide (From i = To i) then bool_decide (From i = VNil) || bool_decide (column k r = Some (From i))
  else bound (compareOp (FromOpen i) ">") (From i) && bound (compareOp (ToOpen i) "<") (To i).

(** What a filter means. *)
Definition selects f r : bool :=
  matches (f_Fields f) r && forallb (fun p => matches p r) (PresetFields f) &&
  forallb (fun kv => is_one_of kv.1 kv.2 r) (map_to_list (FieldsIn f)) &&
  forallb (fun kv => negb (is_one_of kv.1 kv.2 r)) (map_to_list (FieldsNotIn f)) &&
  forallb (fun kv => in_interval kv.1 kv.2 r) (map_to_list (Intervals f)) &&
  forallb (fun o => match or_Fields o with [] => true | ns => existsb (fun n => bool_decide (column n r = Some (or_Value o))) ns end)
    (OrFields f).

(** The filters the texts are right for: their names are those of columns, an interval has one end or
    equal ones, no value is looked for between two columns or in one of several, and the values that
    are excluded are some. *)
Definition selectable f : Prop :=
  typed (R := R) (f_Fields f) = true /\ Forall (fun p => typed (R := R) p = true) (PresetFields f) /\
  map_Forall (fun k _ => is_column R k) (FieldsIn f) /\
  map_Forall (fun k vs => is_column R k /\ vs <> []) (FieldsNotIn f) /\
  map_Forall (fun k i => is_column R k /\ (From i = VNil \/ To i = VNil \/ From i = To i)) (Intervals f) /\
  BetweenFields f = [] /\
  Forall (fun o => or_Fields o = [] \/ exists k, or_Fields o = [k] /\ is_column R k) (OrFields f).

Lemma where_forallb cs r : Forall (fun c => c.1 = CAnd) cs -> where_holds cs r = forallb (fun c => cond_holds c.2 r) cs.
Proof.
  assert (Hgo : forall l acc, Forall (fun c => c.1 = CAnd) l -> conds_from acc l r = acc && forallb (fun c => cond_holds c.2 r) l).
  { induction l as [|[k c] l IH]; intros acc Hl; cbn; [by rewrite andb_true_r|].
    apply Forall_cons in Hl as [E Hl]. cbn in E. subst k. by rewrite IH, andb_assoc. }
  intros H. destruct cs as [|[k c] cs]; [done|]. cbn. apply Hgo. by apply Forall_cons in H as [_ H].
Qed.

Lemma forallb_perm {A} (p : A -> bool) l l' : l ≡ₚ l' -> forallb p l = forallb p l'.
Proof.
  intros H. apply eq_true_iff_eq. rewrite !forallb_forall.
  split; intros Hp x Hx; apply Hp; [by rewrite H|by rewrite <- H].
Qed.

Lemma forallb_concat {A B} (p : B -> bool) (g : A -> list B) (q : A -> bool) l :
  (forall a, a ∈ l -> forallb p (g a) = q a) -> forallb p (concat (map g l)) = forallb q l.
Proof.
  induction l as [|a l IH]; intros H; cbn; [done|]. rewrite forallb_app, H by apply list_elem_of_here.
  f_equal. apply IH. intros b Hb. by apply H, list_elem_of_further.
Qed.

Lemma typed_fields_conds fs : typed (R := R) fs = true -> typed_conds (R := R) (fields_conds fs) = true.
Proof. intros H. unfold fields_conds. case_decide; [done|]. cbn. by rewrite H. Qed.

Lemma forallb_concat_true {A B} (p : B -> bool) (g : A -> list B) l : (forall a, a ∈ l -> forallb p (g a) = true) -> forallb p (concat (map g l)) = true.
Proof. intros H. rewrite (forallb_concat p g (fun _ => true)) by done. clear H. by induction l. Qed.

Lemma typed_filter_conds f : selectable f -> typed_conds (R := R) (filter_conds f) = true.
Proof.
  intros (Hf & Hp & _). unfold filter_conds, typed_conds.
  assert (Hi : forall k i, forallb (fun c => typed_cond (R := R) c.2) (interval_conds k i) = true).
  { intros k i. unfold interval_conds. by repeat case_decide. }
  assert (Ho : forall o, forallb (fun c => typed_cond (R := R) c.2) (or_conds o) = true).
  { intros o. unfold or_conds. destruct (or_Fields o) as [|n l]; [done|]. cbn. by induction l. }
  rewrite !forallb_app, !andb_true_iff. split_and!; try (by apply forallb_concat_true).
  - by apply typed_fields_conds.
  - apply forallb_concat_true. intros p Hin. eapply Forall_forall in Hp; [|exact Hin]. by apply typed_fields_conds.
Qed.

(** Without alternatives the connectives are AND. *)
Lemma filter_conds_and f : selectable f -> Forall (fun c => c.1 = CAnd) (filter_conds f).
Proof.
  intros (_ & _ & _ & _ & _ & _ & Hor). unfold filter_conds.
  assert (Hc : forall A (g : A -> list (connective * cond)) l, (forall a, a ∈ l -> Forall (fun c => c.1 = CAnd) (g a)) ->
    Forall (fun c => c.1 = CAnd) (concat (map g l))).
  { intros A g l H. induction l as [|a l IH]; cbn; [constructor|]. apply Forall_app. split; [apply H, list_elem_of_here|].
    apply IH. intros b Hb. by apply H, list_elem_of_further. }
  assert (Hf : forall fs, Forall (fun c => c.1 = CAnd) (fields_conds fs)).
  { intros fs. unfold fields_conds. case_decide; repeat constructor. }
  rewrite !Forall_app. split_and!; try apply Hc; try apply Hf; intros a Ha; try apply Hf; try (by repeat constructor).
  - unfold interval_conds. repeat case_decide; repeat constructor.
  - eapply Forall_forall in Hor; [|exact Ha]. unfold or_conds. destruct Hor as [-> | (k & -> & _)]; repeat constructor.
Qed.

Lemma range_elem {A} (m : gmap string A) kv : kv ∈ range m -> m !! kv.1 = Some kv.2.
Proof. destruct kv as [k v]. intros H. by apply elem_of_range in H. Qed.

Lemma matches_empty r : matches ∅ r = true.
Proof. apply matches_spec. intros k v. by rewrite lookup_empty. Qed.

Notation holds r := (fun c : connective * cond => cond_holds c.2 r).

Lemma holds_fields fs r : forallb (holds r) (fields_conds fs) = matches fs r.
Proof. unfold fields_conds. case_decide; subst; cbn; [by rewrite matches_empty|by rewrite andb_true_r]. Qed.

Lemma compareOp_op b c : c = ">" \/ c = "<" -> is_op (compareOp b c).
Proof. unfold is_op. intros [-> | ->]; destruct b; cbn; auto. Qed.

Lemma holds_interval k i r : is_column R k -> From i = VNil \/ To i = VNil \/ From i = To i ->
  forallb (holds r) (interval_conds k i) = in_interval k i r.
Proof.
  intros Hk Hi. unfold interval_conds, in_interval.
  destruct (decide (From i = VNil)) as [Ef|Ef], (decide (To i = VNil)) as [Et|Et].
  - rewrite Ef, Et. by rewrite decide_True.
  - rewrite (bool_decide_eq_true_2 _ Ef), (bool_decide_eq_false_2 _ Et). rewrite decide_False by congruence. cbn.
    rewrite sat_one_end by auto using compareOp_op. by rewrite andb_true_r.
  - rewrite (bool_decide_eq_true_2 _ Et), (bool_decide_eq_false_2 _ Ef). rewrite decide_False by congruence. cbn.
    rewrite sat_one_end by auto using compareOp_op. done.
  - destruct Hi as [?|[?|E]]; [done..|]. rewrite !(decide_True _ _ E). cbn.
    rewrite sat_equals, (bool_decide_eq_false_2 _ Ef) by done. by rewrite andb_true_r.
Qed.

Lemma holds_or o r : or_Fields o = [] \/ (exists k, or_Fields o = [k] /\ is_column R k) ->
  forallb (holds r) (or_conds o) =
  match or_Fields o with [] => true | ns => existsb (fun n => bool_decide (column n r = Some (or_Value o))) ns end.
Proof.
  unfold or_conds. intros [-> | (k & -> & Hk)]; [done|]. cbn. by rewrite sat_equals, andb_true_r, orb_false_r.
Qed.

(** The conditions are those of the meaning, whatever the order of the maps. *)
Lemma holds_filter f r : selectable f -> forallb (holds r) (filter_conds f) = selects f r.
Proof.
  intros (_ & _ & Hin & Hnot & Hint & Hb & Hor). unfold filter_conds, selects. rewrite Hb. cbn [map concat].
  rewrite app_nil_l, !forallb_app, holds_fields, !andb_assoc. repeat f_equal.
  - apply forallb_concat. intros. apply holds_fields.
  - rewrite <- (forallb_perm _ _ _ (range_perm (FieldsIn f))). apply forallb_concat. intros kv E%range_elem. cbn.
    rewrite sat_in by by eapply Hin. by rewrite andb_true_r.
  - rewrite <- (forallb_perm _ _ _ (range_perm (FieldsNotIn f))). apply forallb_concat. intros kv E%range_elem. cbn.
    destruct (Hnot _ _ E). rewrite sat_not_in by done. by rewrite andb_true_r.
  - rewrite <- (forallb_perm _ _ _ (range_perm (Intervals f))). apply forallb_concat. intros kv E%range_elem.
    destruct (Hint _ _ E). by apply holds_interval.
  - apply forallb_concat. intros o Ho. apply holds_or. by eapply Forall_forall in Hor.
Qed.

Lemma where_filter f r : selectable f -> where_holds (filter_conds f) r = selects f r.
Proof. intros H. rewrite where_forallb by by apply filter_conds_and. by apply holds_filter. Qed.

Lemma where_fields fs r : where_holds (fields_conds fs) r = matches fs r.
Proof.
  rewrite where_forallb; [apply holds_fields|]. unfold fields_conds. case_decide; repeat constructor.
Qed.
End Rows.
