(* ===== verification/GormDB.v ===== *)
(** * pkg/db/db_gorm: the database

    The methods of [GormDB] are the interface [Db.Engine]; over a GORM that does what its statements
    say they keep every promise the rest of the development relies on ([gorm_engine_ok]).
    [GormDB.find_filter] is what a filter of a client selects. *)
From S2P Require Import Prelude GoTime Utils Common Errors Db FilterParser GormFilter.
Open Scope go_scope.

Record GormDB := { MAX_FILTER_LIMIT : Z; VERBOSE_ERRORS : bool; paginator : option Paginator }.
(** [Init], [Clone], and the database of a transaction. *)
Definition Init (max : Z) (verbose : bool) : GormDB :=
  {| MAX_FILTER_LIMIT := max; VERBOSE_ERRORS := verbose; paginator := Some {| MaxLimit := max |} |}.
Definition Clone (g : GormDB) : GormDB :=
  {| MAX_FILTER_LIMIT := MAX_FILTER_LIMIT g; VERBOSE_ERRORS := VERBOSE_ERRORS g;
     paginator := Some {| MaxLimit := MAX_FILTER_LIMIT g |} |}.
Definition transaction_db : GormDB := {| MAX_FILTER_LIMIT := 0; VERBOSE_ERRORS := false; paginator := None |}.

Section Queries.
Context {R : Type} `{Er : Entity R, Gr : !Gorm R, Mr : !MapRange}.
Local Abbreviation gorm := (M Statement).
Implicit Types (t : nat) (rows : list R) (g : GormDB).

(** The statement of a chain of calls on [db_()]. *)
Definition statement {A} (m : gorm A) : Statement := (m no_statement).2.

(** A row that is not found is no error. *)
Definition first_row t (m : gorm unit) rows : option R * option error :=
  match gorm_First t (statement m) rows with
  | inl r => (Some r, None)
  | inr err => if IsNotFound (Some err) then (None, None) else (None, Some err)
  end.
Definition FindByField t (field : string) (v : value) rows := first_row t (SetModel ;; Where (equals field) [Arg v]) rows.
Definition FindByFields t (fields : Fields) rows := first_row t (SetModel ;; WhereFields fields) rows.
Definition FindForUpdate t (fields : Fields) rows := first_row t (SetModel ;; Lock "UPDATE" ;; WhereFields fields) rows.
(** [GormDB.FindForShare] locks for an update. *)
Definition FindForShare t (fields : Fields) rows := FindForUpdate t fields rows.

(** The rows, the number of them, or that of all rows when they are counted.  The query that counts
    is one of its own, on a copy of the statement.  [shared]: the handle given carries its statement,
    so what is added through it stays; otherwise, for a session, every chain of calls starts from a
    copy, and what the filter adds is in the copy only. *)
Definition find (shared : bool) t (s : Statement) (filter : option Filter) (p : option Paginator) rows : list R * Z * option error :=
  let finish (s : Statement) (count : Z) : list R * Z * option error :=
    let '(rs, affected, err) := gorm_Find t s rows in
    if negb (bool_decide (err = None)) && negb (IsNotFound err) then ([], 0%Z, err)
    else (rs, (if (affected >? count)%Z then affected else count), None) in
  match filter with
  | None => finish s 0%Z
  | Some f =>
      let '(err, filtered) := SetFilter filter p false [negb (Count (config f))] s in
      match err with
      | Some _ => ([], 0%Z, err)
      | None =>
          if Count (config f) then
            let s := if shared then filtered else s in
            let '(count, err) := gorm_Count t s rows in
            if negb (bool_decide (err = None)) && negb (IsNotFound err) then ([], 0%Z, err)
            else
              let '(err, s) := Paginate p f [] s in
              match err with Some _ => ([], 0%Z, err) | None => finish s count end
          else finish filtered 0%Z
      end
  end.
Definition FindWithFilter g t (filter : option Filter) rows := find true t (statement SetModel) filter (paginator g) rows.

Definition CountWithFilter t (filter : Filter) rows : Z := (gorm_Count t (statement (SetModel ;; prepareFilter filter)) rows).1.

Definition sum_text (sumFields groupFields : list string) : string :=
  Join (map (fun f => "sum(" +:+ quoted f +:+ ") AS " +:+ quoted f) sumFields ++ map quoted groupFields) ",".
Definition Sum g t (groupFields sumFields : list string) (filter : option Filter) rows :=
  find true t (statement (SetModel ;; Select [sum_text sumFields groupFields] ;; for_each Group groupFields)) filter (paginator g) rows.

Definition Exists t (filter : option Filter) rows : bool * option error :=
  let m := match filter with
           | Some f => SetModel ;; prepareFilter f ;; SetLimit_ 1
           | None => ret tt (* the limit is set on a statement that is dropped *)
           end in
  match gorm_First t (statement m) rows with
  | inl _ => (true, None)
  | inr err => if IsNotFound (Some err) then (false, None) else (false, Some err)
  end.

(** [Update] of GormDB is UpdateFielsdMulti. *)
Definition UpdateFielsdMulti t (filter : Fields) (doc : R) (newFields : Fields) rows :=
  gorm_Updates t (statement (SetModel ;; WhereFields filter)) doc newFields rows.
Definition UpdateFieldsAll t (doc : R) (newFields : Fields) rows :=
  gorm_Updates t (statement (SetModel ;; Where "1 = 1" [])) doc newFields rows.
Definition UpdateWithFilter t (filter : option Filter) (doc : R) (fields : Fields) rows :=
  gorm_Updates t (statement (SetFilter filter None true [])) doc fields rows.
Definition Delete t (doc : R) rows := gorm_Delete t (statement (ret tt)) (Some doc) rows.
Definition DeleteByField t (field : string) (v : value) rows := gorm_Delete t (statement (Where (equals field) [Arg v])) None rows.
Definition DeleteAllByFields t (fields : Fields) rows := gorm_Delete t (statement (WhereFields fields)) None rows.
Definition DeleteAll t rows := gorm_Delete t (statement (Where "1 = 1" [])) None rows.

(** [CheckDuplicateKeyError]: [is_duplicate] recognises the error of PostgreSQL. *)
Definition PostgresCheckDuplicateKeyError (is_duplicate : error -> bool) (provider : string) (err : option error) : bool * option error :=
  if decide (provider <> "postgres") then (false, Some (Native "unknown database provider"))
  else match err with
       | Some e => if is_duplicate e then (true, Some (Native "record already exists")) else (false, Some e)
       | None => (false, None)
       end.
Definition CreateDup (is_duplicate : error -> bool) (provider : string) t (r : R) rows : bool * option error * list R :=
  let '(err, rows) := gorm_Create t r rows in (PostgresCheckDuplicateKeyError is_duplicate provider err, rows).

(** The methods as the interface.  The objects that queries are given as models are new ones. *)
Definition gorm_engine (new : R) (is_duplicate : error -> bool) (provider : string) (g : GormDB) : Engine R := {|
  eng_create t r rows := gorm_Create t r rows;
  eng_create_dup t r rows := CreateDup is_duplicate provider t r rows;
  eng_find l t f rows :=
    match l with
    | NoLock => FindByFields t f rows
    | LockUpdate => FindForUpdate t f rows
    | LockShare => FindForShare t f rows
    end;
  eng_list t f rows := FindWithFilter g t f rows;
  eng_exists t f rows := Exists t (Some f) rows;
  eng_update t o flt fields rows := UpdateFielsdMulti t flt o fields rows;
  eng_update_all t fields rows := let '(e, _, rows) := UpdateFieldsAll t new fields rows in (e, rows);
  eng_update_with_filter t f fields rows := let '(e, _, rows) := UpdateWithFilter t (Some f) new fields rows in (e, rows);
  eng_delete t o rows := Delete t o rows;
  eng_delete_by_fields t f rows := DeleteAllByFields t f rows
|}.
End Queries.

(** ** The promises of the interface *)

Section Proofs.
Context {R : Type} `{Go : GormOk R, Eo : !EntityOk R, Mr : !MapRange}.
Variables (new : R) (is_duplicate : error -> bool) (g : GormDB).
Hypothesis new_id : GetID new = "".
Implicit Types (rows : list R) (r : R).

(** The statement of a model with conditions. *)
Definition select_where (cs : list (connective * cond)) : Statement :=
  {| Model := true; Conds := cs; Orders := []; s_Offset := None; s_Limit := None; Selects := []; Groups := []; Joins := []; Locking := "" |}.

Lemma run_fields fs s : WhereFields fs s = (tt, with_conds (fields_conds fs) s).
Proof. apply adds_fields. Qed.

(** What the calls that find one row send: the conditions of the fields, whatever the lock. *)
Lemma first_row_some t (m : M Statement unit) fs rows r : all_rows (statement m) -> Conds (statement m) = fields_conds fs ->
  first_row t m rows = (Some r, None) -> r ∈ rows /\ matches fs r = true.
Proof.
  intros Ha Hc. unfold first_row. destruct (gorm_First _ _ _) as [r'|err] eqn:E.
  - intros [= <-]. apply first_some in E as [Hin Hw]; [|done]. rewrite Hc, where_fields in Hw. done.
  - by destruct (IsNotFound _).
Qed.

Lemma first_row_none t (m : M Statement unit) fs rows : all_rows (statement m) -> Conds (statement m) = fields_conds fs ->
  typed (R := R) fs = true -> first_row t m rows = (None, None) -> Forall (fun r => matches fs r = false) rows.
Proof.
  intros Ha Hc Ht. unfold first_row. destruct (gorm_First _ _ _) as [r'|err] eqn:E; [done|].
  unfold IsNotFound. case_bool_decide as He; [|done]. intros _. injection He as ->.
  apply first_none in E; [|done|by rewrite Hc; apply typed_fields_conds].
  eapply Forall_impl; [exact E|]. cbn. intros r. by rewrite Hc, where_fields.
Qed.

Lemma eng_find_statement l fs : exists m : M Statement unit, all_rows (statement m) /\ Conds (statement m) = fields_conds fs /\
  forall t rows, match l with NoLock => FindByFields t fs rows | LockUpdate => FindForUpdate t fs rows | LockShare => FindForShare t fs rows end
    = first_row t m rows.
Proof.
  destruct l; eexists; (split; [|split; [|reflexivity]]); unfold statement, bind; cbn; rewrite run_fields; try done.
Qed.

(** ** The rows of a filter *)

Definition sorting (f : Filter) : list string :=
  if bool_decide (SortField (config f) <> "") &&
     (bool_decide (SortDirection (config f) = SORT_ASC) || bool_decide (SortDirection (config f) = SORT_DESC))
  then [sort_text (SortField (config f)) (SortDirection (config f))] else [].
Definition capped (p : Paginator) (limit : Z) : Z := if ((limit >? MaxLimit p) && (MaxLimit p >? 0))%Z then MaxLimit p else limit.
(** Without a paginator, that is in a transaction, the page is not taken - unless the rows are
    counted. *)
Definition page_offset (p : option Paginator) (f : Filter) : option Z :=
  match p with
  | None => if Count (config f) && (0 <? Offset (config f))%Z then Some (Offset (config f)) else None
  | Some _ => if (0 <? Offset (config f))%Z then Some (Offset (config f)) else None
  end.
Definition page_limit (p : option Paginator) (f : Filter) : option Z :=
  match p with
  | None => None
  | Some p => if (0 <? Limit (config f))%Z then Some (capped p (Limit (config f))) else None
  end.

Definition paged (off lim : option Z) (f : Filter) : Statement :=
  {| Model := true; Conds := filter_conds f; Orders := sorting f; s_Offset := off; s_Limit := lim; Selects := [];
     Groups := []; Joins := []; Locking := "" |}.

Lemma SetFilter_run f p pg docs s : s = select_where [] ->
  SetFilter (Some f) p docs pg s =
  match p with
  | Some q => Paginate (Some q) f pg (paged None None f)
  | None => (None, paged None None f)
  end.
Proof.
  intros ->. unfold SetFilter, bind, paged, sorting. destruct docs; cbn; rewrite prepareFilter_adds; cbn;
    destruct (_ && _); cbn; by destruct p.
Qed.

Lemma Paginate_run p f : Paginate p f [] (paged None None f) =
  match p with
  | None => if (0 <? Limit (config f))%Z
            then (Some nil_paginator, paged (if (0 <? Offset (config f))%Z then Some (Offset (config f)) else None) None f)
            else (None, paged (if (0 <? Offset (config f))%Z then Some (Offset (config f)) else None) None f)
  | Some q => (None, paged (page_offset (Some q) f) (page_limit (Some q) f) f)
  end.
Proof.
  unfold Paginate, bind, page_offset, page_limit, capped. cbn [OptionalArg].
  destruct (0 <? Offset (config f))%Z, (0 <? Limit (config f))%Z, p; done.
Qed.

(** The queries of [FindWithFilter]: the one that counts has no page. *)
Lemma FindWithFilter_queries t f rows rs n : FindWithFilter g t (Some f) rows = (rs, n, None) ->
  exists k, gorm_Find t (paged (page_offset (paginator g) f) (page_limit (paginator g) f) f) rows = (rs, k, None) /\
    if Count (config f)
    then exists c, gorm_Count t (paged None None f) rows = (c, None) /\ n = (if (k >? c)%Z then k else c)
    else n = (if (k >? 0)%Z then k else 0%Z).
Proof.
  unfold FindWithFilter, find, statement. cbn [snd SetModel modify].
  rewrite SetFilter_run by done.
  assert (Hfind : forall s c, (let '(rs, affected, err) := gorm_Find t s rows in
      if negb (bool_decide (err = None)) && negb (IsNotFound err) then ([], 0%Z, err)
      else (rs, (if (affected >? c)%Z then affected else c), None)) = (rs, n, None) ->
      exists k, gorm_Find t s rows = (rs, k, None) /\ n = (if (k >? c)%Z then k else c)).
  { intros s c. pose proof (find_never_not_found t s rows) as Hn. destruct (gorm_Find t s rows) as [[rs' k] err].
    cbn in Hn. rewrite Hn. destruct err as [e|]; [done|]. cbn. intros [= <- <-]. by exists k. }
  destruct (Count (config f)) eqn:Ec; cbn [negb].
  - assert (Hp : match paginator g with Some q => Paginate (Some q) f [false] (paged None None f) | None => (None, paged None None f) end
                 = (None, paged None None f)) by by destruct (paginator g).
    rewrite Hp. pose proof (count_never_not_found t (paged None None f) rows) as Hn.
    destruct (gorm_Count _ _ _) as [c err] eqn:En. cbn in Hn. rewrite Hn. destruct err as [e|]; [done|]. cbn [bool_decide negb andb].
    rewrite Paginate_run. unfold page_offset, page_limit. rewrite Ec.
    destruct (paginator g) as [q|]; [|destruct (0 <? Limit (config f))%Z; [done|]]; intros (k & Hk & ->)%Hfind; eauto.
  - replace (match paginator g with Some q => Paginate (Some q) f [true] (paged None None f) | None => (None, paged None None f) end)
      with (@None error, paged (page_offset (paginator g) f) (page_limit (paginator g) f) f).
    + intros (k & Hk & ->)%Hfind. eauto.
    + unfold page_offset, page_limit. rewrite Ec. destruct (paginator g) as [q|]; [|done]. symmetry. apply (Paginate_run (Some q)).
Qed.

Lemma page_sublist off lim (all : list R) : sublist (page off lim all) all.
Proof.
  unfold page. etrans; [destruct lim; [apply sublist_take|reflexivity]|]. destruct off; [apply sublist_drop|reflexivity].
Qed.

Lemma page_limit_bound p f (all : list R) off : (0 < MaxLimit p)%Z -> (0 < Limit (config f))%Z ->
  (Z.of_nat (length (page off (page_limit (Some p) f) all)) <= MaxLimit p)%Z.
Proof.
  intros Hm Hl. unfold page_limit, page. rewrite (proj2 (Z.ltb_lt _ _)) by done. rewrite length_take.
  unfold capped. destruct (_ >? _)%Z eqn:E1, (MaxLimit p >? 0)%Z eqn:E2; cbn [andb]; lia.
Qed.

(** The rows of a successful call: some page of the selected rows. *)
Lemma FindWithFilter_rows t f rows rs n : selectable (R := R) f -> FindWithFilter g t (Some f) rows = (rs, n, None) ->
  exists all, all ≡ₚ List.filter (selects f) rows /\ ordered (sorting f) all /\
    rs = page (page_offset (paginator g) f) (page_limit (paginator g) f) all /\
    n = Z.of_nat (length (if Count (config f) then all else rs)).
Proof.
  intros Hs (k & Hfind & Hn)%FindWithFilter_queries.
  assert (Hw : List.filter (where_holds (filter_conds f)) rows = List.filter (selects f) rows).
  { apply filter_ext. intros r. by apply where_filter. }
  apply find_rows in Hfind as (-> & all & Hall & Ho & ->); [|done|by apply typed_filter_conds].
  cbn [Conds Orders s_Offset s_Limit paged] in *. rewrite Hw in Hall. exists all. split_and!; try done.
  pose proof (sublist_length _ _ (page_sublist (page_offset (paginator g) f) (page_limit (paginator g) f) all)) as Hl.
  destruct (Count (config f)).
  - destruct Hn as (c & Hc & ->). apply count_rows in Hc as ->; [|done..|by apply typed_filter_conds].
    cbn [Conds paged]. rewrite Hw, <- (Permutation_length Hall). destruct (_ >? _)%Z eqn:E; lia.
  - subst n. destruct (_ >? _)%Z eqn:E; lia.
Qed.

(** A plain filter is the comparison of its fields. *)
Lemma plain_selectable f : plain f -> typed (R := R) (f_Fields f) = true -> selectable (R := R) f.
Proof.
  intros (_ & Hi & Hn & Hv & Hb & Ho & Hp) Ht. unfold selectable. rewrite Hi, Hn, Hv, Hb, Ho, Hp.
  split_and!; try done; try apply map_Forall_empty.
Qed.
Lemma plain_selects f (r : R) : plain f -> selects f r = matches (f_Fields f) r.
Proof.
  intros (_ & Hi & Hn & Hv & Hb & Ho & Hp). unfold selects. rewrite Hi, Hn, Hv, Ho, Hp, !map_to_list_empty. cbn.
  by rewrite !andb_true_r.
Qed.

Lemma plain_rows t f limit rows rs n : plain f -> typed (R := R) (f_Fields f) = true ->
  FindWithFilter g t (Some (SetLimit limit f)) rows = (rs, n, None) ->
  exists all, all ≡ₚ List.filter (matches (f_Fields f)) rows /\ rs = page None (page_limit (paginator g) (SetLimit limit f)) all.
Proof.
  intros Hp Ht E. apply FindWithFilter_rows in E as (all & Hall & _ & -> & _); [|exact (plain_selectable f Hp Ht)].
  exists all. split.
  - rewrite Hall. erewrite filter_ext; [reflexivity|]. intros r. exact (plain_selects f r Hp).
  - destruct Hp as [Hc _]. unfold page_offset, SetLimit. cbn. rewrite Hc. by destruct (paginator g).
Qed.

Lemma SetLimit_plain f : plain f -> SetLimit 0 f = f.
Proof. destruct f. intros (Hc & _). cbn in Hc. subst. done. Qed.

Lemma FindWithFilter_all t rows rs n : FindWithFilter g t None rows = (rs, n, None) -> rs ≡ₚ rows.
Proof.
  unfold FindWithFilter, find, statement. cbn [snd SetModel modify].
  match goal with |- context [gorm_Find ?tt ?ss ?rr] => pose proof (find_never_not_found tt ss rr) as Hn;
    destruct (gorm_Find tt ss rr) as [[rs' k] err] eqn:E end.
  cbn in Hn. rewrite Hn. destruct err as [e|]; [done|]. intros [= <- _].
  apply find_rows in E as (_ & all & Hall & _ & ->); [|done|done]. cbn in *. rewrite Hall.
  apply reflexive_eq. clear. induction rows as [|r rows IH]; [done|]. cbn. by f_equal.
Qed.

Lemma Exists_plain t f rows b : plain f -> typed (R := R) (f_Fields f) = true ->
  Exists t (Some f) rows = (b, None) -> b = existsb (matches (f_Fields f)) rows.
Proof.
  intros Hp Ht. unfold Exists, statement, bind. cbn [SetModel modify]. rewrite prepareFilter_adds.
  assert (Hw : forall r, where_holds (filter_conds f) r = matches (f_Fields f) r).
  { intros r. rewrite where_filter by by apply plain_selectable. by apply plain_selects. }
  destruct (gorm_First _ _ _) as [r|err] eqn:E.
  - intros [= <-]. apply first_some in E as [Hin Hr]; [|done]. cbn in Hr. rewrite Hw in Hr. symmetry. apply existsb_exists.
    exists r. by rewrite <- list_elem_of_In.
  - unfold IsNotFound. case_bool_decide as He; [|done]. injection He as ->. intros [= <-].
    apply first_none in E; [|done|by apply typed_filter_conds, plain_selectable]. symmetry. apply not_true_iff_false.
    rewrite existsb_exists. intros (r & Hin & Hr). apply list_elem_of_In in Hin. eapply Forall_forall in E; [|exact Hin].
    cbn in E. rewrite Hw in E. congruence.
Qed.

Lemma list_limited t f limit rows rs n : plain f -> (0 < limit)%Z -> typed (R := R) (f_Fields f) = true ->
  FindWithFilter g t (Some (SetLimit limit f)) rows = (rs, n, None) ->
  Forall (fun r => r ∈ rows /\ matches (f_Fields f) r = true) rs /\
  (rs = [] -> Forall (fun r => matches (f_Fields f) r = false) rows).
Proof.
  intros Hp Hl Ht (all & Hall & ->)%plain_rows; [|done..].
  assert (Hin : Forall (fun r => r ∈ rows /\ matches (f_Fields f) r = true) all).
  { rewrite Hall. apply Forall_forall. intros r Hr. by apply list_elem_of_In, filter_In in Hr as [?%list_elem_of_In ?]. }
  split.
  { apply Forall_forall. intros r Hr. rewrite Forall_forall in Hin. apply Hin. by eapply elem_of_sublist, page_sublist. }
  intros E.
  assert (all = []) as ->.
  { unfold page, page_limit in E. destruct (paginator g) as [p|]; [|done]. cbn in E.
    rewrite (proj2 (Z.ltb_lt _ _)) in E by done. unfold capped in E. destruct all as [|r all]; [done|].
    destruct (Z.to_nat _) eqn:Ez in E; [|done]. destruct (limit >? MaxLimit p)%Z, (MaxLimit p >? 0)%Z eqn:?; cbn in Ez; lia. }
  apply Permutation_nil in Hall. apply Forall_forall. intros r Hr. apply not_true_iff_false. intros Hm.
  assert (Hf : In r (List.filter (matches (f_Fields f)) rows)) by (apply filter_In; by rewrite <- list_elem_of_In).
  by rewrite Hall in Hf.
Qed.

Lemma update_rows t o flt fields rows rows' o' : UpdateFielsdMulti t flt o fields rows = (None, o', rows') ->
  narrows_nothing o flt -> typed (R := R) flt = true -> typed (R := R) fields = true -> rows' = updated_rows flt fields rows.
Proof.
  unfold UpdateFielsdMulti, statement, bind. cbn. rewrite run_fields. cbn. intros E Hn Hflt Hf.
  apply updates in E as ->; [|done|by apply typed_fields_conds|done]. cbn [Conds with_conds app no_statement].
  apply map_ext. intros r. rewrite where_fields. destruct (matches flt r) eqn:Em; cbn [andb]; [|done].
  destruct Hn as [Ho|Hid]; [by rewrite (bool_decide_eq_true_2 _ Ho)|].
  assert (GetID r = GetID o) as Hr.
  { apply matches_spec with (k := "id") (v := VStr (GetID o)) in Em; [|done]. rewrite id_column in Em. congruence. }
  by rewrite (bool_decide_eq_true_2 _ Hr), orb_true_r.
Qed.

Lemma update_all_rows t fields rows rows' o' : UpdateFieldsAll t new fields rows = (None, o', rows') ->
  typed (R := R) fields = true -> rows' = map (assign_all fields) rows.
Proof.
  unfold UpdateFieldsAll, statement, bind. cbn. intros E Hf. apply updates in E as ->; [|done..]. cbn.
  apply map_ext. intros r. rewrite sat_all. by rewrite (bool_decide_eq_true_2 _ new_id).
Qed.

Lemma delete_rows t o rows rows' : GetID o <> "" -> Delete t o rows = (None, rows') -> rows' = rows_without (GetID o) rows.
Proof.
  unfold Delete. intros Ho E. apply deletes in E as ->; [|done]. cbn. rewrite (bool_decide_eq_false_2 _ Ho). done.
Qed.

Lemma delete_rows_by_fields t fs rows rows' : typed (R := R) fs = true -> DeleteAllByFields t fs rows = (None, rows') ->
  rows' = rows_not_matching fs rows.
Proof.
  unfold DeleteAllByFields, statement. rewrite run_fields. cbn. intros Ht E.
  apply deletes in E as ->; [|by apply typed_fields_conds]. apply filter_ext. intros r. cbn [Conds with_conds app no_statement].
  by rewrite where_fields, andb_true_r.
Qed.

(** [C17] The database keeps its promises.  Over a GORM whose statements do what they say, the methods
    of [GormDB] with PostgreSQL are the interface the controllers, the stores and the authentication
    are proved against: rows are found by their fields, filters of fields select exactly the rows
    that match them, successful writes do what they promise and failed ones nothing. *)
Theorem gorm_engine_ok : @EngineOk R Er (gorm_engine new is_duplicate "postgres" g).
Proof.
  split; cbn [gorm_engine eng_create eng_create_dup eng_find eng_list eng_exists eng_update eng_update_all eng_delete eng_delete_by_fields].
  - apply creates.
  - apply creates_nothing.
  - unfold CreateDup, PostgresCheckDuplicateKeyError. cbn. intros t r d rows rows'. destruct (gorm_Create t r rows) as [[e|] rows1] eqn:E.
    + by destruct (is_duplicate e).
    + intros [= _ <-]. by apply creates in E.
  - unfold CreateDup, PostgresCheckDuplicateKeyError. cbn. intros t r rows d e rows'. destruct (gorm_Create t r rows) as [[e'|] rows1] eqn:E; [|done].
    apply creates_nothing in E. destruct (is_duplicate e'); congruence.
  - intros l t f rows r. destruct (eng_find_statement l f) as (m & Ha & Hc & ->). by apply first_row_some.
  - intros l t f rows. destruct (eng_find_statement l f) as (m & Ha & Hc & ->). by apply first_row_none.
  - intros t f rows rs n Hp Ht E. rewrite <- (SetLimit_plain f Hp) in E. apply plain_rows in E as (all & Hall & ->); [|done..].
    unfold page_limit. by destruct (paginator g).
  - intros t f limit rows rs n Hp Hl Ht E. by eapply list_limited.
  - apply FindWithFilter_all.
  - apply Exists_plain.
  - intros t o flt fields rows o' rows'. apply update_rows.
  - intros t o flt fields rows o' rows'. apply updates_unique.
  - intros t o flt fields rows o' rows'. apply updates_ids.
  - intros t o flt fields rows e o' rows'. apply updates_nothing.
  - intros t fields rows rows'. destruct (UpdateFieldsAll _ _ _ _) as [[e o'] rows1] eqn:E. intros [= -> ->]. by eapply update_all_rows.
  - intros t fields rows e rows'. destruct (UpdateFieldsAll _ _ _ _) as [[e' o'] rows1] eqn:E. intros [= -> ->]. by eapply updates_nothing.
  - intros t o flt fields rows k. apply updates_object.
  - intros t o rows rows'. apply delete_rows.
  - intros t o rows e rows'. apply deletes_nothing.
  - intros t f rows rows'. apply delete_rows_by_fields.
  - intros t f rows e rows'. apply deletes_nothing.
Qed.

(** [C18] What a filter selects, of the filters whose texts are right ([selectable]): its names are
    those of columns and not full names, its intervals have one end or equal ones, no value is between
    two columns or in one of several.  A successful call gives a page of the rows the filter selects,
    in the order the filter asks for; the number that comes with them is that of all selected rows if
    the filter counts, and that of the page if not.  If the filter has a positive limit and the database
    has one, the page is not longer than that of the database. *)
Theorem find_filter t f rows rs n : selectable (R := R) f -> FindWithFilter g t (Some f) rows = (rs, n, None) ->
  (exists all, all ≡ₚ List.filter (selects f) rows /\ ordered (sorting f) all /\
     rs = page (page_offset (paginator g) f) (page_limit (paginator g) f) all /\
     n = Z.of_nat (length (if Count (config f) then all else rs))) /\
  forall p, paginator g = Some p -> (0 < MaxLimit p)%Z -> (0 < Limit (config f))%Z -> (Z.of_nat (length rs) <= MaxLimit p)%Z.
Proof.
  intros Hs E. apply FindWithFilter_rows in E as (all & Hall & Ho & -> & Hn); [|done]. split; [by exists all|].
  intros p Hp Hm Hl. rewrite Hp. by apply page_limit_bound.
Qed.
End Proofs.
