(* ===== verification/PoolData.v ===== *)
(** * pkg/pool: the data of pools, services and their associations

    The structs saved in the database, their columns and their unique indexes.  The embedded
    structs of the code are flattened where they only hold columns ([PoolBaseEssentials] and
    [PoolBaseData] into [PoolBase], [WithRole] into [PoolServiceAssociationBase], ...); the map
    [Services] of a pool is not a column and belongs to [Pool.PoolBase]. *)
From S2P Require Import Prelude GoTime Utils Common Errors OpContext Db.
Open Scope go_scope.

(** ** Data (pool.go, pool_service.go, pool_service_association.go) *)

Record PoolBase := {
  p_base : ObjectBase.t;
  p_NAME : string;
  p_LONG_NAME : string;
  p_DESCRIPTION : string;
  p_ACTIVE : bool
}.

Record ServiceConfigBase := {
  PROVIDER : string;
  PUBLIC_HOST : string;
  PUBLIC_PORT : Z;
  PUBLIC_URL : string;
  PRIVATE_HOST : string;
  PRIVATE_PORT : Z;
  PRIVATE_URL : string;
  USER : string;
  DB_NAME : string;
  PARAMETER1 : string;
  PARAMETER2 : string;
  PARAMETER3 : string;
  PARAMETER1_NAME : string;
  PARAMETER2_NAME : string;
  PARAMETER3_NAME : string
}.

Record PoolServiceBaseData := {
  s_LONG_NAME : string;
  s_DESCRIPTION : string;
  s_ACTIVE : bool;
  TYPE_NAME : string;
  REFID : string;
  s_config : ServiceConfigBase;
  SECRET1 : string;
  SECRET2 : string
}.

Record PoolServiceBase := {
  s_base : ObjectBase.t;
  s_NAME : string;
  s_data : PoolServiceBaseData
}.

Record PoolServiceAssociationBase := {
  a_base : ObjectBase.t;
  POOL_ID : string;
  ROLE : string;
  SERVICE_ID : string
}.

(** ** Columns *)

Section Setters.
Definition set_p_base (v : ObjectBase.t) (r : PoolBase) : PoolBase :=
{| p_base := v; p_NAME := p_NAME r; p_LONG_NAME := p_LONG_NAME r; p_DESCRIPTION := p_DESCRIPTION
   r; p_ACTIVE := p_ACTIVE r |}.
Definition set_p_NAME (v : string) (r : PoolBase) : PoolBase :=
{| p_base := p_base r; p_NAME := v; p_LONG_NAME := p_LONG_NAME r; p_DESCRIPTION := p_DESCRIPTION
   r; p_ACTIVE := p_ACTIVE r |}.
Definition set_p_LONG_NAME (v : string) (r : PoolBase) : PoolBase :=
{| p_base := p_base r; p_NAME := p_NAME r; p_LONG_NAME := v; p_DESCRIPTION := p_DESCRIPTION r;
   p_ACTIVE := p_ACTIVE r |}.
Definition set_p_DESCRIPTION (v : string) (r : PoolBase) : PoolBase :=
{| p_base := p_base r; p_NAME := p_NAME r; p_LONG_NAME := p_LONG_NAME r; p_DESCRIPTION := v;
   p_ACTIVE := p_ACTIVE r |}.
Definition set_p_ACTIVE (v : bool) (r : PoolBase) : PoolBase :=
{| p_base := p_base r; p_NAME := p_NAME r; p_LONG_NAME := p_LONG_NAME r; p_DESCRIPTION :=
   p_DESCRIPTION r; p_ACTIVE := v |}.
Definition set_PROVIDER (v : string) (r : ServiceConfigBase) : ServiceConfigBase :=
{| PROVIDER := v; PUBLIC_HOST := PUBLIC_HOST r; PUBLIC_PORT := PUBLIC_PORT r; PUBLIC_URL :=
   PUBLIC_URL r; PRIVATE_HOST := PRIVATE_HOST r; PRIVATE_PORT := PRIVATE_PORT r; PRIVATE_URL :=
   PRIVATE_URL r; USER := USER r; DB_NAME := DB_NAME r; PARAMETER1 := PARAMETER1 r; PARAMETER2
   := PARAMETER2 r; PARAMETER3 := PARAMETER3 r; PARAMETER1_NAME := PARAMETER1_NAME r;
   PARAMETER2_NAME := PARAMETER2_NAME r; PARAMETER3_NAME := PARAMETER3_NAME r |}.
Definition set_PUBLIC_HOST (v : string) (r : ServiceConfigBase) : ServiceConfigBase :=
{| PROVIDER := PROVIDER r; PUBLIC_HOST := v; PUBLIC_PORT := PUBLIC_PORT r; PUBLIC_URL :=
   PUBLIC_URL r; PRIVATE_HOST := PRIVATE_HOST r; PRIVATE_PORT := PRIVATE_PORT r; PRIVATE_URL :=
   PRIVATE_URL r; USER := USER r; DB_NAME := DB_NAME r; PARAMETER1 := PARAMETER1 r; PARAMETER2
   := PARAMETER2 r; PARAMETER3 := PARAMETER3 r; PARAMETER1_NAME := PARAMETER1_NAME r;
   PARAMETER2_NAME := PARAMETER2_NAME r; PARAMETER3_NAME := PARAMETER3_NAME r |}.
Definition set_PUBLIC_PORT (v : Z) (r : ServiceConfigBase) : ServiceConfigBase :=
{| PROVIDER := PROVIDER r; PUBLIC_HOST := PUBLIC_HOST r; PUBLIC_PORT := v; PUBLIC_URL :=
   PUBLIC_URL r; PRIVATE_HOST := PRIVATE_HOST r; PRIVATE_PORT := PRIVATE_PORT r; PRIVATE_URL :=
   PRIVATE_URL r; USER := USER r; DB_NAME := DB_NAME r; PARAMETER1 := PARAMETER1 r; PARAMETER2
   := PARAMETER2 r; PARAMETER3 := PARAMETER3 r; PARAMETER1_NAME := PARAMETER1_NAME r;
   PARAMETER2_NAME := PARAMETER2_NAME r; PARAMETER3_NAME := PARAMETER3_NAME r |}.
Definition set_PUBLIC_URL (v : string) (r : ServiceConfigBase) : ServiceConfigBase :=
{| PROVIDER := PROVIDER r; PUBLIC_HOST := PUBLIC_HOST r; PUBLIC_PORT := PUBLIC_PORT r;
   PUBLIC_URL := v; PRIVATE_HOST := PRIVATE_HOST r; PRIVATE_PORT := PRIVATE_PORT r; PRIVATE_URL
   := PRIVATE_URL r; USER := USER r; DB_NAME := DB_NAME r; PARAMETER1 := PARAMETER1 r;
   PARAMETER2 := PARAMETER2 r; PARAMETER3 := PARAMETER3 r; PARAMETER1_NAME := PARAMETER1_NAME r;
   PARAMETER2_NAME := PARAMETER2_NAME r; PARAMETER3_NAME := PARAMETER3_NAME r |}.
Definition set_PRIVATE_HOST (v : string) (r : ServiceConfigBase) : ServiceConfigBase :=
{| PROVIDER := PROVIDER r; PUBLIC_HOST := PUBLIC_HOST r; PUBLIC_PORT := PUBLIC_PORT r;
   PUBLIC_URL := PUBLIC_URL r; PRIVATE_HOST := v; PRIVATE_PORT := PRIVATE_PORT r; PRIVATE_URL :=
   PRIVATE_URL r; USER := USER r; DB_NAME := DB_NAME r; PARAMETER1 := PARAMETER1 r; PARAMETER2
   := PARAMETER2 r; PARAMETER3 := PARAMETER3 r; PARAMETER1_NAME := PARAMETER1_NAME r;
   PARAMETER2_NAME := PARAMETER2_NAME r; PARAMETER3_NAME := PARAMETER3_NAME r |}.
Definition set_PRIVATE_PORT (v : Z) (r : ServiceConfigBase) : ServiceConfigBase :=
{| PROVIDER := PROVIDER r; PUBLIC_HOST := PUBLIC_HOST r; PUBLIC_PORT := PUBLIC_PORT r;
   PUBLIC_URL := PUBLIC_URL r; PRIVATE_HOST := PRIVATE_HOST r; PRIVATE_PORT := v; PRIVATE_URL :=
   PRIVATE_URL r; USER := USER r; DB_NAME := DB_NAME r; PARAMETER1 := PARAMETER1 r; PARAMETER2
   := PARAMETER2 r; PARAMETER3 := PARAMETER3 r; PARAMETER1_NAME := PARAMETER1_NAME r;
   PARAMETER2_NAME := PARAMETER2_NAME r; PARAMETER3_NAME := PARAMETER3_NAME r |}.
Definition set_PRIVATE_URL (v : string) (r : ServiceConfigBase) : ServiceConfigBase :=
{| PROVIDER := PROVIDER r; PUBLIC_HOST := PUBLIC_HOST r; PUBLIC_PORT := PUBLIC_PORT r;
   PUBLIC_URL := PUBLIC_URL r; PRIVATE_HOST := PRIVATE_HOST r; PRIVATE_PORT := PRIVATE_PORT r;
   PRIVATE_URL := v; USER := USER r; DB_NAME := DB_NAME r; PARAMETER1 := PARAMETER1 r;
   PARAMETER2 := PARAMETER2 r; PARAMETER3 := PARAMETER3 r; PARAMETER1_NAME := PARAMETER1_NAME r;
   PARAMETER2_NAME := PARAMETER2_NAME r; PARAMETER3_NAME := PARAMETER3_NAME r |}.
Definition set_USER (v : string) (r : ServiceConfigBase) : ServiceConfigBase :=
{| PROVIDER := PROVIDER r; PUBLIC_HOST := PUBLIC_HOST r; PUBLIC_PORT := PUBLIC_PORT r;
   PUBLIC_URL := PUBLIC_URL r; PRIVATE_HOST := PRIVATE_HOST r; PRIVATE_PORT := PRIVATE_PORT r;
   PRIVATE_URL := PRIVATE_URL r; USER := v; DB_NAME := DB_NAME r; PARAMETER1 := PARAMETER1 r;
   PARAMETER2 := PARAMETER2 r; PARAMETER3 := PARAMETER3 r; PARAMETER1_NAME := PARAMETER1_NAME r;
   PARAMETER2_NAME := PARAMETER2_NAME r; PARAMETER3_NAME := PARAMETER3_NAME r |}.
Definition set_DB_NAME (v : string) (r : ServiceConfigBase) : ServiceConfigBase :=
{| PROVIDER := PROVIDER r; PUBLIC_HOST := PUBLIC_HOST r; PUBLIC_PORT := PUBLIC_PORT r;
   PUBLIC_URL := PUBLIC_URL r; PRIVATE_HOST := PRIVATE_HOST r; PRIVATE_PORT := PRIVATE_PORT r;
   PRIVATE_URL := PRIVATE_URL r; USER := USER r; DB_NAME := v; PARAMETER1 := PARAMETER1 r;
   PARAMETER2 := PARAMETER2 r; PARAMETER3 := PARAMETER3 r; PARAMETER1_NAME := PARAMETER1_NAME r;
   PARAMETER2_NAME := PARAMETER2_NAME r; PARAMETER3_NAME := PARAMETER3_NAME r |}.
Definition set_PARAMETER1 (v : string) (r : ServiceConfigBase) : ServiceConfigBase :=
{| PROVIDER := PROVIDER r; PUBLIC_HOST := PUBLIC_HOST r; PUBLIC_PORT := PUBLIC_PORT r;
   PUBLIC_URL := PUBLIC_URL r; PRIVATE_HOST := PRIVATE_HOST r; PRIVATE_PORT := PRIVATE_PORT r;
   PRIVATE_URL := PRIVATE_URL r; USER := USER r; DB_NAME := DB_NAME r; PARAMETER1 := v;
   PARAMETER2 := PARAMETER2 r; PARAMETER3 := PARAMETER3 r; PARAMETER1_NAME := PARAMETER1_NAME r;
   PARAMETER2_NAME := PARAMETER2_NAME r; PARAMETER3_NAME := PARAMETER3_NAME r |}.
Definition set_PARAMETER2 (v : string) (r : ServiceConfigBase) : ServiceConfigBase :=
{| PROVIDER := PROVIDER r; PUBLIC_HOST := PUBLIC_HOST r; PUBLIC_PORT := PUBLIC_PORT r;
   PUBLIC_URL := PUBLIC_URL r; PRIVATE_HOST := PRIVATE_HOST r; PRIVATE_PORT := PRIVATE_PORT r;
   PRIVATE_URL := PRIVATE_URL r; USER := USER r; DB_NAME := DB_NAME r; PARAMETER1 := PARAMETER1
   r; PARAMETER2 := v; PARAMETER3 := PARAMETER3 r; PARAMETER1_NAME := PARAMETER1_NAME r;
   PARAMETER2_NAME := PARAMETER2_NAME r; PARAMETER3_NAME := PARAMETER3_NAME r |}.
Definition set_PARAMETER3 (v : string) (r : ServiceConfigBase) : ServiceConfigBase :=
{| PROVIDER := PROVIDER r; PUBLIC_HOST := PUBLIC_HOST r; PUBLIC_PORT := PUBLIC_PORT r;
   PUBLIC_URL := PUBLIC_URL r; PRIVATE_HOST := PRIVATE_HOST r; PRIVATE_PORT := PRIVATE_PORT r;
   PRIVATE_URL := PRIVATE_URL r; USER := USER r; DB_NAME := DB_NAME r; PARAMETER1 := PARAMETER1
   r; PARAMETER2 := PARAMETER2 r; PARAMETER3 := v; PARAMETER1_NAME := PARAMETER1_NAME r;
   PARAMETER2_NAME := PARAMETER2_NAME r; PARAMETER3_NAME := PARAMETER3_NAME r |}.
Definition set_PARAMETER1_NAME (v : string) (r : ServiceConfigBase) : ServiceConfigBase :=
{| PROVIDER := PROVIDER r; PUBLIC_HOST := PUBLIC_HOST r; PUBLIC_PORT := PUBLIC_PORT r;
   PUBLIC_URL := PUBLIC_URL r; PRIVATE_HOST := PRIVATE_HOST r; PRIVATE_PORT := PRIVATE_PORT r;
   PRIVATE_URL := PRIVATE_URL r; USER := USER r; DB_NAME := DB_NAME r; PARAMETER1 := PARAMETER1
   r; PARAMETER2 := PARAMETER2 r; PARAMETER3 := PARAMETER3 r; PARAMETER1_NAME := v;
   PARAMETER2_NAME := PARAMETER2_NAME r; PARAMETER3_NAME := PARAMETER3_NAME r |}.
Definition set_PARAMETER2_NAME (v : string) (r : ServiceConfigBase) : ServiceConfigBase :=
{| PROVIDER := PROVIDER r; PUBLIC_HOST := PUBLIC_HOST r; PUBLIC_PORT := PUBLIC_PORT r;
   PUBLIC_URL := PUBLIC_URL r; PRIVATE_HOST := PRIVATE_HOST r; PRIVATE_PORT := PRIVATE_PORT r;
   PRIVATE_URL := PRIVATE_URL r; USER := USER r; DB_NAME := DB_NAME r; PARAMETER1 := PARAMETER1
   r; PARAMETER2 := PARAMETER2 r; PARAMETER3 := PARAMETER3 r; PARAMETER1_NAME := PARAMETER1_NAME
   r; PARAMETER2_NAME := v; PARAMETER3_NAME := PARAMETER3_NAME r |}.
Definition set_PARAMETER3_NAME (v : string) (r : ServiceConfigBase) : ServiceConfigBase :=
{| PROVIDER := PROVIDER r; PUBLIC_HOST := PUBLIC_HOST r; PUBLIC_PORT := PUBLIC_PORT r;
   PUBLIC_URL := PUBLIC_URL r; PRIVATE_HOST := PRIVATE_HOST r; PRIVATE_PORT := PRIVATE_PORT r;
   PRIVATE_URL := PRIVATE_URL r; USER := USER r; DB_NAME := DB_NAME r; PARAMETER1 := PARAMETER1
   r; PARAMETER2 := PARAMETER2 r; PARAMETER3 := PARAMETER3 r; PARAMETER1_NAME := PARAMETER1_NAME
   r; PARAMETER2_NAME := PARAMETER2_NAME r; PARAMETER3_NAME := v |}.
Definition set_s_LONG_NAME (v : string) (r : PoolServiceBaseData) : PoolServiceBaseData :=
{| s_LONG_NAME := v; s_DESCRIPTION := s_DESCRIPTION r; s_ACTIVE := s_ACTIVE r; TYPE_NAME :=
   TYPE_NAME r; REFID := REFID r; s_config := s_config r; SECRET1 := SECRET1 r; SECRET2 :=
   SECRET2 r |}.
Definition set_s_DESCRIPTION (v : string) (r : PoolServiceBaseData) : PoolServiceBaseData :=
{| s_LONG_NAME := s_LONG_NAME r; s_DESCRIPTION := v; s_ACTIVE := s_ACTIVE r; TYPE_NAME :=
   TYPE_NAME r; REFID := REFID r; s_config := s_config r; SECRET1 := SECRET1 r; SECRET2 :=
   SECRET2 r |}.
Definition set_s_ACTIVE (v : bool) (r : PoolServiceBaseData) : PoolServiceBaseData :=
{| s_LONG_NAME := s_LONG_NAME r; s_DESCRIPTION := s_DESCRIPTION r; s_ACTIVE := v; TYPE_NAME :=
   TYPE_NAME r; REFID := REFID r; s_config := s_config r; SECRET1 := SECRET1 r; SECRET2 :=
   SECRET2 r |}.
Definition set_TYPE_NAME (v : string) (r : PoolServiceBaseData) : PoolServiceBaseData :=
{| s_LONG_NAME := s_LONG_NAME r; s_DESCRIPTION := s_DESCRIPTION r; s_ACTIVE := s_ACTIVE r;
   TYPE_NAME := v; REFID := REFID r; s_config := s_config r; SECRET1 := SECRET1 r; SECRET2 :=
   SECRET2 r |}.
Definition set_REFID (v : string) (r : PoolServiceBaseData) : PoolServiceBaseData :=
{| s_LONG_NAME := s_LONG_NAME r; s_DESCRIPTION := s_DESCRIPTION r; s_ACTIVE := s_ACTIVE r;
   TYPE_NAME := TYPE_NAME r; REFID := v; s_config := s_config r; SECRET1 := SECRET1 r; SECRET2
   := SECRET2 r |}.
Definition set_s_config (v : ServiceConfigBase) (r : PoolServiceBaseData) : PoolServiceBaseData :=
{| s_LONG_NAME := s_LONG_NAME r; s_DESCRIPTION := s_DESCRIPTION r; s_ACTIVE := s_ACTIVE r;
   TYPE_NAME := TYPE_NAME r; REFID := REFID r; s_config := v; SECRET1 := SECRET1 r; SECRET2 :=
   SECRET2 r |}.
Definition set_SECRET1 (v : string) (r : PoolServiceBaseData) : PoolServiceBaseData :=
{| s_LONG_NAME := s_LONG_NAME r; s_DESCRIPTION := s_DESCRIPTION r; s_ACTIVE := s_ACTIVE r;
   TYPE_NAME := TYPE_NAME r; REFID := REFID r; s_config := s_config r; SECRET1 := v; SECRET2 :=
   SECRET2 r |}.
Definition set_SECRET2 (v : string) (r : PoolServiceBaseData) : PoolServiceBaseData :=
{| s_LONG_NAME := s_LONG_NAME r; s_DESCRIPTION := s_DESCRIPTION r; s_ACTIVE := s_ACTIVE r;
   TYPE_NAME := TYPE_NAME r; REFID := REFID r; s_config := s_config r; SECRET1 := SECRET1 r;
   SECRET2 := v |}.
Definition set_s_base (v : ObjectBase.t) (r : PoolServiceBase) : PoolServiceBase :=
{| s_base := v; s_NAME := s_NAME r; s_data := s_data r |}.
Definition set_s_NAME (v : string) (r : PoolServiceBase) : PoolServiceBase :=
{| s_base := s_base r; s_NAME := v; s_data := s_data r |}.
Definition set_s_data (v : PoolServiceBaseData) (r : PoolServiceBase) : PoolServiceBase :=
{| s_base := s_base r; s_NAME := s_NAME r; s_data := v |}.
Definition set_a_base (v : ObjectBase.t) (r : PoolServiceAssociationBase) :
   PoolServiceAssociationBase :=
{| a_base := v; POOL_ID := POOL_ID r; ROLE := ROLE r; SERVICE_ID := SERVICE_ID r |}.
Definition set_POOL_ID (v : string) (r : PoolServiceAssociationBase) : PoolServiceAssociationBase :=
{| a_base := a_base r; POOL_ID := v; ROLE := ROLE r; SERVICE_ID := SERVICE_ID r |}.
Definition set_ROLE (v : string) (r : PoolServiceAssociationBase) : PoolServiceAssociationBase :=
{| a_base := a_base r; POOL_ID := POOL_ID r; ROLE := v; SERVICE_ID := SERVICE_ID r |}.
Definition set_SERVICE_ID (v : string) (r : PoolServiceAssociationBase) :
   PoolServiceAssociationBase :=
{| a_base := a_base r; POOL_ID := POOL_ID r; ROLE := ROLE r; SERVICE_ID := v |}.
End Setters.

Definition pool_columns : list (string * Col PoolBase) :=
  [("id", str_col (fun r : PoolBase => ObjectBase.ID (p_base r)) (fun v r => set_p_base
     (ObjectBase.SetID v (p_base r)) r));
   ("created_at", time_col (fun r : PoolBase => ObjectBase.CREATED_AT (p_base r)) (fun v r =>
     set_p_base (ObjectBase.SetCreatedAt v (p_base r)) r));
   ("updated_at", time_col (fun r : PoolBase => ObjectBase.UPDATED_AT (p_base r)) (fun v r =>
     set_p_base (ObjectBase.SetUpDatedAt v (p_base r)) r));
   ("name", str_col p_NAME set_p_NAME);
   ("long_name", str_col p_LONG_NAME set_p_LONG_NAME);
   ("description", str_col p_DESCRIPTION set_p_DESCRIPTION);
   ("active", bool_col p_ACTIVE set_p_ACTIVE)].

Definition service_columns : list (string * Col PoolServiceBase) :=
  [("id", str_col (fun r : PoolServiceBase => ObjectBase.ID (s_base r)) (fun v r => set_s_base
     (ObjectBase.SetID v (s_base r)) r));
   ("created_at", time_col (fun r : PoolServiceBase => ObjectBase.CREATED_AT (s_base r)) (fun v r
     => set_s_base (ObjectBase.SetCreatedAt v (s_base r)) r));
   ("updated_at", time_col (fun r : PoolServiceBase => ObjectBase.UPDATED_AT (s_base r)) (fun v r
     => set_s_base (ObjectBase.SetUpDatedAt v (s_base r)) r));
   ("name", str_col s_NAME set_s_NAME);
   ("long_name", str_col (fun r => s_LONG_NAME (s_data r)) (fun v r => set_s_data (set_s_LONG_NAME
     v (s_data r)) r));
   ("description", str_col (fun r => s_DESCRIPTION (s_data r)) (fun v r => set_s_data
     (set_s_DESCRIPTION v (s_data r)) r));
   ("active", bool_col (fun r => s_ACTIVE (s_data r)) (fun v r => set_s_data (set_s_ACTIVE v
     (s_data r)) r));
   ("type_name", str_col (fun r => TYPE_NAME (s_data r)) (fun v r => set_s_data (set_TYPE_NAME v
     (s_data r)) r));
   ("refid", str_col (fun r => REFID (s_data r)) (fun v r => set_s_data (set_REFID v (s_data r))
     r));
   ("secret1", str_col (fun r => SECRET1 (s_data r)) (fun v r => set_s_data (set_SECRET1 v (s_data
     r)) r));
   ("secret2", str_col (fun r => SECRET2 (s_data r)) (fun v r => set_s_data (set_SECRET2 v (s_data
     r)) r));
   ("provider", str_col (fun r => PROVIDER (s_config (s_data r))) (fun v r => set_s_data
     (set_s_config (set_PROVIDER v (s_config (s_data r))) (s_data r)) r));
   ("public_host", str_col (fun r => PUBLIC_HOST (s_config (s_data r))) (fun v r => set_s_data
     (set_s_config (set_PUBLIC_HOST v (s_config (s_data r))) (s_data r)) r));
   ("public_port", int_col 0 65535 (fun r => PUBLIC_PORT (s_config (s_data r))) (fun v r =>
     set_s_data (set_s_config (set_PUBLIC_PORT v (s_config (s_data r))) (s_data r)) r));
   ("public_url", str_col (fun r => PUBLIC_URL (s_config (s_data r))) (fun v r => set_s_data
     (set_s_config (set_PUBLIC_URL v (s_config (s_data r))) (s_data r)) r));
   ("private_host", str_col (fun r => PRIVATE_HOST (s_config (s_data r))) (fun v r => set_s_data
     (set_s_config (set_PRIVATE_HOST v (s_config (s_data r))) (s_data r)) r));
   ("private_port", int_col 0 65535 (fun r => PRIVATE_PORT (s_config (s_data r))) (fun v r =>
     set_s_data (set_s_config (set_PRIVATE_PORT v (s_config (s_data r))) (s_data r)) r));
   ("private_url", str_col (fun r => PRIVATE_URL (s_config (s_data r))) (fun v r => set_s_data
     (set_s_config (set_PRIVATE_URL v (s_config (s_data r))) (s_data r)) r));
   ("user", str_col (fun r => USER (s_config (s_data r))) (fun v r => set_s_data (set_s_config
     (set_USER v (s_config (s_data r))) (s_data r)) r));
   ("db_name", str_col (fun r => DB_NAME (s_config (s_data r))) (fun v r => set_s_data
     (set_s_config (set_DB_NAME v (s_config (s_data r))) (s_data r)) r));
   ("parameter1", str_col (fun r => PARAMETER1 (s_config (s_data r))) (fun v r => set_s_data
     (set_s_config (set_PARAMETER1 v (s_config (s_data r))) (s_data r)) r));
   ("parameter2", str_col (fun r => PARAMETER2 (s_config (s_data r))) (fun v r => set_s_data
     (set_s_config (set_PARAMETER2 v (s_config (s_data r))) (s_data r)) r));
   ("parameter3", str_col (fun r => PARAMETER3 (s_config (s_data r))) (fun v r => set_s_data
     (set_s_config (set_PARAMETER3 v (s_config (s_data r))) (s_data r)) r));
   ("parameter1_name", str_col (fun r => PARAMETER1_NAME (s_config (s_data r))) (fun v r =>
     set_s_data (set_s_config (set_PARAMETER1_NAME v (s_config (s_data r))) (s_data r)) r));
   ("parameter2_name", str_col (fun r => PARAMETER2_NAME (s_config (s_data r))) (fun v r =>
     set_s_data (set_s_config (set_PARAMETER2_NAME v (s_config (s_data r))) (s_data r)) r));
   ("parameter3_name", str_col (fun r => PARAMETER3_NAME (s_config (s_data r))) (fun v r =>
     set_s_data (set_s_config (set_PARAMETER3_NAME v (s_config (s_data r))) (s_data r)) r))].

Definition association_columns : list (string * Col PoolServiceAssociationBase) :=
  [("id", str_col (fun r : PoolServiceAssociationBase => ObjectBase.ID (a_base r)) (fun v r =>
     set_a_base (ObjectBase.SetID v (a_base r)) r));
   ("created_at", time_col (fun r : PoolServiceAssociationBase => ObjectBase.CREATED_AT (a_base
     r)) (fun v r => set_a_base (ObjectBase.SetCreatedAt v (a_base r)) r));
   ("updated_at", time_col (fun r : PoolServiceAssociationBase => ObjectBase.UPDATED_AT (a_base
     r)) (fun v r => set_a_base (ObjectBase.SetUpDatedAt v (a_base r)) r));
   ("pool_id", str_col POOL_ID set_POOL_ID);
   ("role", str_col ROLE set_ROLE);
   ("service_id", str_col SERVICE_ID set_SERVICE_ID)].


#[export] Instance PoolBase_eq_dec : EqDecision PoolBase.
Proof. solve_decision. Defined.

(** ** Entities *)

#[export] Instance pool_entity : Entity PoolBase := {|
  obj_base := p_base; set_base := set_p_base; columns := pool_columns;
  unique_indexes := [["id"]; ["name"]]
|}.
#[export] Instance service_entity : Entity PoolServiceBase := {|
  obj_base := s_base; set_base := set_s_base; columns := service_columns;
  unique_indexes := [["id"]; ["name"]]
|}.
#[export] Instance association_entity : Entity PoolServiceAssociationBase := {|
  obj_base := a_base; set_base := set_a_base; columns := association_columns;
  unique_indexes := [["id"]; ["pool_id"; "role"]]
|}.

#[export] Instance pool_entity_ok : EntityOk PoolBase.
Proof. split; try done. solve_columns. Qed.
#[export] Instance service_entity_ok : EntityOk PoolServiceBase.
Proof. split; try done. solve_columns. Qed.
#[export] Instance association_entity_ok : EntityOk PoolServiceAssociationBase.
Proof. split; try done. solve_columns. Qed.

(** The columns the operations look at. *)
Lemma pool_name_column (p : PoolBase) : column "name" p = Some (VStr (p_NAME p)).
Proof. done. Qed.
Lemma pool_active_column (p : PoolBase) : column "active" p = Some (VBool (p_ACTIVE p)).
Proof. done. Qed.
Lemma service_name_column (s : PoolServiceBase) : column "name" s = Some (VStr (s_NAME s)).
Proof. done. Qed.
Lemma association_columns_eq (a : PoolServiceAssociationBase) :
  column "pool_id" a = Some (VStr (POOL_ID a)) /\ column "role" a = Some (VStr (ROLE a)) /\
  column "service_id" a = Some (VStr (SERVICE_ID a)).
Proof. done. Qed.

(** The database that keeps a pool: what [ParseDbService] reads from a service (db_service.go). *)
Definition TypeDatabase := "database".
Definition TypeApiServer := "api_server".
Definition TypePubsub := "pubsub".

Record DBConfig := {
  DB_PROVIDER : string; DB_HOST : string; DB_PORT : Z; DBC_NAME : string; DB_USER : string;
  DB_PASSWORD : string; DB_EXTRA_CONFIG : string; DB_DSN : string
}.

Definition ParseDbService (service : PoolServiceBaseData) : DBConfig + error :=
  if decide (TYPE_NAME service <> TypeDatabase) then inr (Native "invalid service type")
  else inl {| DB_DSN := PRIVATE_URL (s_config service); DB_HOST := PRIVATE_HOST (s_config service);
              DB_PORT := PRIVATE_PORT (s_config service); DB_PROVIDER := PROVIDER (s_config service);
              DB_USER := USER (s_config service); DB_PASSWORD := SECRET1 service;
              DBC_NAME := DB_NAME (s_config service); DB_EXTRA_CONFIG := PARAMETER1 (s_config service) |}.
