(* ===== verification/Pool.v ===== *)
(** * pkg/pool: the pool controller and the pool store

    [PoolController] works on three tables through the CRUD operations: pools, services, and the
    associations that bind a service to a pool under a role.  The unique indexes of the database
    keep names and roles unique; that the pool and the service of an association exist is kept
    by the controller alone ([integrity]).  [PoolStore] keeps the pools with their bindings. *)
From S2P Require Import Prelude GoTime Utils Common Errors OpContext Db Crud PoolData.
Open Scope go_scope.

(** ** The world of the controller *)

Record PoolWorld := {
  pools : table PoolBase;
  services : table PoolServiceBase;
  associations : table PoolServiceAssociationBase;
  pw_env : Env
}.

#[export] Instance pools_lens : Lens PoolWorld (table PoolBase).
Proof.
  by refine {| view := pools;
               put t w := {| pools := t; services := services w; associations := associations w; pw_env := pw_env w |} |};
    try intros [].
Defined.
#[export] Instance services_lens : Lens PoolWorld (table PoolServiceBase).
Proof.
  by refine {| view := services;
               put t w := {| pools := pools w; services := t; associations := associations w; pw_env := pw_env w |} |};
    try intros [].
Defined.
#[export] Instance associations_lens : Lens PoolWorld (table PoolServiceAssociationBase).
Proof.
  by refine {| view := associations;
               put t w := {| pools := pools w; services := services w; associations := t; pw_env := pw_env w |} |};
    try intros [].
Defined.
#[export] Instance pool_env_lens : Lens PoolWorld Env.
Proof.
  by refine {| view := pw_env;
               put e w := {| pools := pools w; services := services w; associations := associations w; pw_env := e |} |};
    try intros [].
Defined.
#[export] Instance pools_env : Disjoint_lens PoolWorld (table PoolBase) Env.
Proof. by split. Qed.
#[export] Instance services_env : Disjoint_lens PoolWorld (table PoolServiceBase) Env.
Proof. by split. Qed.
#[export] Instance associations_env : Disjoint_lens PoolWorld (table PoolServiceAssociationBase) Env.
Proof. by split. Qed.

(** The operation log of the package (pool_oplog.go). *)
Record OpLogPool := {
  PoolName : string; PoolId : string; ServiceName : string; ServiceId : string; ol_Role : string
}.
Definition log_pool (id name : string) : OpLogPool :=
  {| PoolName := name; PoolId := id; ServiceName := ""; ServiceId := ""; ol_Role := "" |}.
Definition log_service (id name : string) : OpLogPool :=
  {| PoolName := ""; PoolId := ""; ServiceName := name; ServiceId := id; ol_Role := "" |}.

(** A service bound to a pool, as the join query returns it. *)
Record PoolServiceBinding := {
  pb_base : ObjectBase.t; pb_ROLE : string; pb_data : PoolServiceBaseData;
  pb_PoolId : string; pb_PoolName : string; pb_ServiceId : string; pb_ServiceName : string
}.

Definition binding (a : PoolServiceAssociationBase) (p : PoolBase) (s : PoolServiceBase) : PoolServiceBinding :=
  {| pb_base := a_base a; pb_ROLE := ROLE a; pb_data := s_data s; pb_PoolId := GetID p;
     pb_PoolName := p_NAME p; pb_ServiceId := GetID s; pb_ServiceName := s_NAME s |}.

(** The joined rows of the three tables whose pool and service satisfy [sel]. *)
Definition joined (sel : PoolBase -> PoolServiceBase -> bool) (w : PoolWorld) : list PoolServiceBinding :=
  flat_map (fun a => flat_map (fun p => flat_map (fun s =>
    if bool_decide (POOL_ID a = GetID p) && bool_decide (SERVICE_ID a = GetID s) && sel p s
    then [binding a p s] else []) (rows (services w))) (rows (pools w))) (rows (associations w)).

(** ** Codes (pool_controller.go) *)

Definition ErrorCodePoolNotFound := "pool_not_found".
Definition ErrorCodeServiceNotFound := "service_not_found".
Definition ErrorCodePoolNameConflict := "pool_name_conflict".
Definition ErrorCodeServiceNameConflict := "service_name_conflict".
Definition ErrorCodeServiceRoleConflict := "service_role_conflict".
Definition ErrorCodePoolServiceBindingsExist := "pool_service_bindings_exist".
Definition ErrorCodePoolServiceBoundToPool := "service_bound_to_pool".
Definition ErrorCodePoolNotActive := "pool_not_active".
Definition ErrorCodeNoServiceWithRole := "no_service_with_role".
Definition ErrorCodeServiceNotActive := "service_not_active".
Definition ErrorCodeInvalidServiceConfiguration := "invalid_service_configuration".
Definition ErrorCodeServiceInitializationFailed := "service_initialization_failed".

Definition fieldName (idIsName : list bool) : string :=
  if OptionalArg false idIsName then "name" else "id".

(** Whether the fields activate, the operation to log, whether there are other fields. *)
Definition CheckIfActivate (fields : Fields) : bool * string * bool :=
  match fields !! "active" with
  | Some (VBool activate) =>
      (true, if activate then "activate" else "deactivate", bool_decide (1 < size fields))
  | _ => (false, "", true)
  end.

(** Zero values of the structs a read fills. *)
Definition zero_pool : PoolBase :=
  {| p_base := ObjectBase.zero; p_NAME := ""; p_LONG_NAME := ""; p_DESCRIPTION := ""; p_ACTIVE := false |}.
Definition zero_config : ServiceConfigBase :=
  {| PROVIDER := ""; PUBLIC_HOST := ""; PUBLIC_PORT := 0; PUBLIC_URL := ""; PRIVATE_HOST := "";
     PRIVATE_PORT := 0; PRIVATE_URL := ""; USER := ""; DB_NAME := ""; PARAMETER1 := ""; PARAMETER2 := "";
     PARAMETER3 := ""; PARAMETER1_NAME := ""; PARAMETER2_NAME := ""; PARAMETER3_NAME := "" |}.
Definition zero_data : PoolServiceBaseData :=
  {| s_LONG_NAME := ""; s_DESCRIPTION := ""; s_ACTIVE := false; TYPE_NAME := ""; REFID := "";
     s_config := zero_config; SECRET1 := ""; SECRET2 := "" |}.
Definition zero_service : PoolServiceBase :=
  {| s_base := ObjectBase.zero; s_NAME := ""; s_data := zero_data |}.
Definition zero_association : PoolServiceAssociationBase :=
  {| a_base := ObjectBase.zero; POOL_ID := ""; ROLE := ""; SERVICE_ID := "" |}.

(** A query that joins the three tables, with the columns the filter compares. *)
Class JoinEngine := {
  eng_join : nat -> Filter -> PoolWorld -> list PoolServiceBinding * option error
}.
Class JoinEngineOk `{JoinEngine} := {
  join_pool_ok t id w bs :
    eng_join t (Filter.AddField "pools.id" (VStr id) NewFilter) w = (bs, None) ->
    bs ≡ₚ joined (fun p _ => bool_decide (GetID p = id)) w;
  join_service_ok t id w bs :
    eng_join t (Filter.AddField "pool_services.id" (VStr id) NewFilter) w = (bs, None) ->
    bs ≡ₚ joined (fun _ s => bool_decide (GetID s = id)) w
}.

(** ** The controller (pool_controller.go) *)

Module PoolController.
Section Controller.
Context `{!Engine PoolBase, !Engine PoolServiceBase, !Engine PoolServiceAssociationBase, JE : !JoinEngine}.
Local Abbreviation act := (M (St OpLogPool PoolWorld)).

Definition OpLog (operation : string) (oplog : OpLogPool) : act unit :=
  AddOplog (new_oplog operation oplog).

Definition CheckPoolNameUnique (name : value) : act (option error) :=
  traced "PoolController.CheckPoolNameUnique" (fun c =>
    let filter := Filter.AddField "name" name NewFilter in
    let* '(exists_, err) := DbCRUD.Exists (R := PoolBase) filter in
    match err with
    | Some _ => SetMessage c "failed to check existence of pool with desired name" ;; SetError c err
    | None =>
        if (exists_ : bool) then
          SetGenericErrorCode ErrorCodePoolNameConflict [] ;;
          SetError c (Some (Native "pool with desired name exists"))
        else ret None
    end).

Definition AddPool (pool : PoolBase) : act (option PoolBase * option error) :=
  traced "PoolController.AddPool" (fun c =>
    let* err := CheckPoolNameUnique (VStr (p_NAME pool)) in
    match err with
    | Some _ => SetError c err ;; ret (None, err)
    | None =>
        let* pool := on (InitObject pool) in
        let* err := DbCRUD.Create pool in
        match err with
        | Some _ => SetError c err ;; ret (None, err)
        | None =>
            OpLog "add_pool" (log_pool (GetID pool) (p_NAME pool)) ;;
            ret (Some pool, None)
        end
    end).

Definition FindPool (id : string) (idIsName : list bool) : act (option PoolBase * option error) :=
  let field := fieldName idIsName in
  let* '(pool, err) := FindByField "PoolController.FindPool" field (VStr id) zero_pool in
  match err, pool with
  | Some _, _ => ret (None, err)
  | None, None => SetGenericErrorCode ErrorCodePoolNotFound [] ;; ret (None, None)
  | None, Some _ => ret (pool, None)
  end.

(** The logs of an update: the operation is named after [kind], which is pool or service, and
    the ID and the name are written to the fields of a service in both cases. *)
Definition log_update (kind : string) (fields : Fields) (id name : string) : act unit :=
  let '(hasActivate, activateOp, hasOtherFields) := CheckIfActivate fields in
  (if hasActivate : bool then OpLog (ConcatStrings [activateOp; "_"; kind]) (log_service id name)
   else ret tt) ;;
  (if hasOtherFields : bool then OpLog (ConcatStrings ["update_"; kind]) (log_service id name)
   else ret tt).

Definition UpdatePool (id : string) (fields : Fields) (idIsName : list bool) :
  act (option PoolBase * option error) :=
  traced "PoolController.UpdatePool" (fun c =>
    let* err := match fields !! "name" with
                | Some name => CheckPoolNameUnique name
                | None => ret None
                end in
    match err with
    | Some _ => SetError c err ;; ret (None, err)
    | None =>
        let field := fieldName idIsName in
        let* '(obj, err) :=
          FindUpdate "PoolController.FindUpdatePool" field (VStr id) fields zero_pool in
        match err, obj with
        | Some _, _ => ret (None, err)
        | None, None =>
            SetGenericErrorCode ErrorCodePoolNotFound [] ;;
            let* err := SetErrorStr c "pool not found" in ret (None, err)
        | None, Some obj =>
            log_update "pool" fields (GetID obj) (p_NAME obj) ;;
            let* '(p, err) := FindPool (GetID obj) [] in
            match err, p with
            | Some _, _ => ret (None, err)
            | None, None =>
                SetGenericErrorCode ErrorCodePoolNotFound [] ;;
                let* err := SetErrorStr c "pool not found" in ret (None, err)
            | None, Some _ => ret (p, None)
            end
        end
    end).

(** The ID itself, or the ID of the pool with that name, empty when there is none. *)
Definition PoolId_ (c : nat) (id : string) (idIsName : list bool) : act (string * option error) :=
  if OptionalArg false idIsName then
    let* '(pool, err) := FindPool id [true] in
    match err, pool with
    | Some _, _ => SetMessage c "failed to find pool" ;; SetError c err ;; ret ("", err)
    | None, None => ret ("", None)
    | None, Some pool => ret (GetID pool, None)
    end
  else ret (id, None).

Definition DeletePool (id : string) (idIsName : list bool) : act (option error) :=
  traced "PoolController.DeletePool" (fun c =>
    let* '(poolId, err) := PoolId_ c id idIsName in
    match err with
    | Some _ => ret err
    | None =>
        if decide (poolId = "") then ClearError ;; ret None
        else
          let filter := Filter.AddField "pool_id" (VStr poolId) NewFilter in
          let* '(exists_, err) := DbCRUD.Exists (R := PoolServiceAssociationBase) filter in
          match err with
          | Some _ => SetMessage c "failed to check associations" ;; SetError c err
          | None =>
              if (exists_ : bool) then
                SetGenericErrorCode ErrorCodePoolServiceBindingsExist [] ;;
                SetErrorStr c "can not delete pool with services, remove all service bindings first"
              else
                let* err := Delete "PoolController.DeletePool" "id" (VStr poolId) zero_pool in
                match err with
                | Some _ => ret err
                | None =>
                    OpLog "delete_pool"
                      (log_pool poolId (if OptionalArg false idIsName then id else "")) ;;
                    ret None
                end
          end
    end).

Definition CheckServiceNameUnique (name : value) : act (option error) :=
  traced "PoolController.CheckServiceNameUnique" (fun c =>
    let filter := Filter.AddField "name" name NewFilter in
    let* '(exists_, err) := DbCRUD.Exists (R := PoolServiceBase) filter in
    match err with
    | Some _ => SetError c err
    | None =>
        if (exists_ : bool) then
          SetGenericErrorCode ErrorCodeServiceNameConflict [] ;;
          SetError c (Some (Native "service with such name exists"))
        else ret None
    end).

Definition AddService (service : PoolServiceBase) : act (option PoolServiceBase * option error) :=
  traced "PoolController.AddService" (fun c =>
    let* err := CheckServiceNameUnique (VStr (s_NAME service)) in
    match err with
    | Some _ => SetError c err ;; ret (None, err)
    | None =>
        let* service := on (InitObject service) in
        let* err := DbCRUD.Create service in
        match err with
        | Some _ => ret (None, err)
        | None =>
            OpLog "add_service" (log_service (GetID service) (s_NAME service)) ;;
            ret (Some service, None)
        end
    end).

Definition FindService (id : string) (idIsName : list bool) : act (option PoolServiceBase * option error) :=
  let field := fieldName idIsName in
  let* '(service, err) := FindByField "PoolController.FindService" field (VStr id) zero_service in
  match err, service with
  | Some _, _ => ret (None, err)
  | None, None => SetGenericErrorCode ErrorCodeServiceNotFound [] ;; ret (None, err)
  | None, Some _ => ret (service, None)
  end.

(** The final check tests [obj] again instead of the service just read. *)
Definition UpdateService (id : string) (fields : Fields) (idIsName : list bool) :
  act (option PoolServiceBase * option error) :=
  traced "PoolController.UpdateService" (fun c =>
    let* err := match fields !! "name" with
                | Some name => CheckServiceNameUnique name
                | None => ret None
                end in
    match err with
    | Some _ => SetError c err ;; ret (None, err)
    | None =>
        let idField := fieldName idIsName in
        let* '(obj, err) :=
          FindUpdate "PoolController.FindUpdateService" idField (VStr id) fields zero_service in
        match err, obj with
        | Some _, _ => SetError c err ;; ret (None, err)
        | None, None =>
            SetGenericErrorCode ErrorCodeServiceNotFound [] ;;
            let* err := SetErrorStr c "service not found" in ret (None, err)
        | None, Some obj =>
            log_update "service" fields (GetID obj) (s_NAME obj) ;;
            let* '(s, err) := FindService (GetID obj) [] in
            match err with
            | Some _ => ret (None, err)
            | None => ret (s, None)
            end
        end
    end).

Definition ServiceId_ (c : nat) (id : string) (idIsName : list bool) : act (string * option error) :=
  if OptionalArg false idIsName then
    let* '(service, err) := FindService id [true] in
    match err, service with
    | Some _, _ => SetMessage c "failed to find service" ;; SetError c err ;; ret ("", err)
    | None, None => ret ("", None)
    | None, Some service => ret (GetID service, None)
    end
  else ret (id, None).

Definition DeleteService (id : string) (idIsName : list bool) : act (option error) :=
  traced "PoolController.DeleteService" (fun c =>
    let* '(serviceId, err) := ServiceId_ c id idIsName in
    match err with
    | Some _ => ret err
    | None =>
        if decide (serviceId = "") then ClearError ;; ret None
        else
          let filter := Filter.AddField "service_id" (VStr serviceId) NewFilter in
          let* '(exists_, err) := DbCRUD.Exists (R := PoolServiceAssociationBase) filter in
          match err with
          | Some _ => SetMessage c "failed to check associations" ;; SetError c err
          | None =>
              if (exists_ : bool) then
                SetGenericErrorCode ErrorCodePoolServiceBoundToPool [] ;;
                SetErrorStr c "can not delete service bound to pools, remove all service bindings first"
              else
                let* err := Delete "PoolController.DeleteService" "id" (VStr serviceId) zero_service in
                match err with
                | Some _ => ret err
                | None =>
                    OpLog "delete_service"
                      (log_service serviceId (if OptionalArg false idIsName then id else "")) ;;
                    ret None
                end
          end
    end).

Definition GetPools (filter : option Filter) : act (list PoolBase * Z * option error) :=
  let* '(pools, count, err) := List_ "" filter in
  match err with
  | Some _ => ret ([], 0%Z, err)
  | None => ret (pools, count, None)
  end.

Definition GetServices (filter : option Filter) : act (list PoolServiceBase * Z * option error) :=
  let* '(services, count, err) := List_ "PoolController.GetServices" filter in
  match err with
  | Some _ => ret ([], 0%Z, err)
  | None => ret (services, count, None)
  end.

Definition AddServiceToPool (poolId serviceId role : string) (idIsName : list bool) : act (option error) :=
  traced "PoolController.AddServiceToPool" (fun c =>
    let* '(pool, err) := FindPool poolId idIsName in
    match err, pool with
    | Some _, _ => SetMessage c "failed to find pool" ;; SetError c err
    | None, None => SetErrorStr c "pool not found"
    | None, Some pool =>
        let* '(service, err) := FindService serviceId idIsName in
        match err, service with
        | Some _, _ => SetMessage c "failed to find service" ;; SetError c err
        | None, None => SetErrorStr c "unknown service"
        | None, Some service =>
            let filter := Filter.AddField "role" (VStr role)
                            (Filter.AddField "pool_id" (VStr (GetID pool)) NewFilter) in
            let* '(exists_, err) := DbCRUD.Exists (R := PoolServiceAssociationBase) filter in
            match err with
            | Some _ =>
                SetMessage c "failed to check existence of pool service binding" ;; SetError c err
            | None =>
                if (exists_ : bool) then
                  SetGenericErrorCode ErrorCodeServiceRoleConflict [] ;;
                  SetErrorStr c "pool already has service with such role"
                else
                  let* association := on (InitObject zero_association) in
                  let association := {| a_base := a_base association; POOL_ID := GetID pool;
                                        ROLE := role; SERVICE_ID := GetID service |} in
                  let* err := DbCRUD.Create association in
                  match err with
                  | Some _ => SetMessage c "failed to save association in database" ;; SetError c err
                  | None =>
                      OpLog "add_service_to_pool"
                        {| PoolName := p_NAME pool; PoolId := GetID pool;
                           ServiceName := s_NAME service; ServiceId := GetID service;
                           ol_Role := role |} ;;
                      ret None
                  end
            end
        end
    end).

(** The body returns the result and the variable [err] that [onExit] looks at, which are the
    same: every return gives back [err]. *)
Definition RemoveServiceFromPool (id role : string) (idIsName : list bool) : act (option error) :=
  traced_exit "PoolController.RemoveServiceFromPool" (fun c =>
    let* '(poolId, err) := PoolId_ c id idIsName in
    match err with
    | Some _ => ret (err, err)
    | None =>
        if decide (poolId = "") then ClearError ;; ret (None, None)
        else
          let fields := <["pool_id" := VStr poolId]> {["role" := VStr role]} in
          let* '(found, err, association) := DbCRUD.Read fields zero_association in
          match err with
          | Some _ => SetMessage c "failed to find association" ;; ret (err, err)
          | None =>
              if (found : bool) then
                let* err := DbCRUD.Delete association in
                match err with
                | Some _ => SetMessage c "failed to delete association" ;; ret (err, err)
                | None =>
                    OpLog "remove_service_from_pool"
                      {| PoolName := if OptionalArg false idIsName then id else "";
                         PoolId := poolId; ServiceName := ""; ServiceId := ""; ol_Role := role |} ;;
                    ret (None, None)
                end
              else ret (None, None)
          end
    end).

Definition RemoveAllServicesFromPool (id : string) (idIsName : list bool) : act (option error) :=
  traced_exit "PoolController.RemoveAllServicesFromPool" (fun c =>
    let* '(poolId, err) := PoolId_ c id idIsName in
    match err with
    | Some _ => ret (err, err)
    | None =>
        if decide (poolId = "") then ClearError ;; ret (None, None)
        else
          let* err := DbCRUD.DeleteByFields (R := PoolServiceAssociationBase) {["pool_id" := VStr poolId]} in
          match err with
          | Some _ => ret (err, err)
          | None =>
              OpLog "remove_all_services_from_pool"
                (log_pool poolId (if OptionalArg false idIsName then id else "")) ;;
              ret (None, None)
          end
    end).

Definition RemoveServiceFromAllPools (id : string) (idIsName : list bool) : act (option error) :=
  traced_exit "PoolController.RemoveServiceFromAllPools" (fun c =>
    let* '(serviceId, err) := ServiceId_ c id idIsName in
    match err with
    | Some _ => ret (err, err)
    | None =>
        if decide (serviceId = "") then ClearError ;; ret (None, None)
        else
          let* err := DbCRUD.DeleteByFields (R := PoolServiceAssociationBase)
                        {["service_id" := VStr serviceId]} in
          match err with
          | Some _ => ret (err, err)
          | None =>
              OpLog "remove_service_from_all_pools"
                (log_service serviceId (if OptionalArg false idIsName then id else "")) ;;
              ret (None, None)
          end
    end).

(** [CRUD.Join] of the associations with their pools and services. *)
Definition join_query (filter : Filter) : act (list PoolServiceBinding * option error) :=
  traced "CRUD.Join" (fun c =>
    let* '(bs, err) := on_ext (fun w =>
      let t := associations w in
      (eng_join (queries t) filter w, put (queried (rows t) t) w)) in
    match err with
    | Some _ => SetError c err ;; ret (bs, err)
    | None => ret (bs, None)
    end).

(** The filter compares the given [id], not the resolved one. *)
Definition GetPoolBindings (id : string) (idIsName : list bool) :
  act (list PoolServiceBinding * option error) :=
  traced_exit "PoolController.GetPoolBindings" (fun c =>
    let* '(poolId, err) := PoolId_ c id idIsName in
    match err with
    | Some _ => ret (([], err), err)
    | None =>
        if decide (poolId = "") then ClearError ;; ret (([], None), None)
        else
          let filter := Filter.AddField "pools.id" (VStr id) NewFilter in
          let* '(services, err) := join_query filter in
          match err with
          | Some _ => ret (([], err), err)
          | None => ret ((services, None), None)
          end
    end).

Definition GetServiceBindings (id : string) (idIsName : list bool) :
  act (list PoolServiceBinding * option error) :=
  traced_exit "PoolController.GetServiceBindings" (fun c =>
    let* '(serviceId, err) := ServiceId_ c id idIsName in
    match err with
    | Some _ => ret (([], err), err)
    | None =>
        if decide (serviceId = "") then ClearError ;; ret (([], None), None)
        else
          let filter := Filter.AddField "pool_services.id" (VStr id) NewFilter in
          let* '(services, err) := join_query filter in
          match err with
          | Some _ => ret (([], err), err)
          | None => ret ((services, None), None)
          end
    end).

Definition ActivatePool (id : string) (idIsName : list bool) := UpdatePool id {["active" := VBool true]} idIsName.
Definition DeactivatePool (id : string) (idIsName : list bool) := UpdatePool id {["active" := VBool false]} idIsName.
Definition ActivateService (id : string) (idIsName : list bool) :=
  UpdateService id {["active" := VBool true]} idIsName.
Definition DeactivateService (id : string) (idIsName : list bool) :=
  UpdateService id {["active" := VBool false]} idIsName.
End Controller.
End PoolController.

(** ** Specifications of the building blocks *)

(** The rows of the three tables. *)
Definition same_pools (w w' : PoolWorld) : Prop := rows (pools w') = rows (pools w).
Definition same_services (w w' : PoolWorld) : Prop := rows (services w') = rows (services w).
Definition same_associations (w w' : PoolWorld) : Prop := rows (associations w') = rows (associations w).
Definition same_rows (w w' : PoolWorld) : Prop :=
  same_pools w w' /\ same_services w w' /\ same_associations w w'.

(** A query number used up on a table. *)
Definition touch_pools (w : PoolWorld) : PoolWorld := put (queried (rows (pools w)) (pools w)) w.
Definition touch_services (w : PoolWorld) : PoolWorld := put (queried (rows (services w)) (services w)) w.
Definition touch_associations (w : PoolWorld) : PoolWorld :=
  put (queried (rows (associations w)) (associations w)) w.

Lemma typed_pool_field n id : typed (R := PoolBase) {[fieldName n := VStr id]} = true.
Proof. apply typed_singleton. unfold fieldName. by destruct (OptionalArg false n). Qed.
Lemma typed_service_field n id : typed (R := PoolServiceBase) {[fieldName n := VStr id]} = true.
Proof. apply typed_singleton. unfold fieldName. by destruct (OptionalArg false n). Qed.

Section Blocks.
Context `{!Engine PoolBase, !Engine PoolServiceBase, !Engine PoolServiceAssociationBase, JE : !JoinEngine}.
Context `{!EngineOk PoolBase, !EngineOk PoolServiceBase, !EngineOk PoolServiceAssociationBase}.
Implicit Types (o : Op OpLogPool) (w : PoolWorld).
Import PoolController.

Lemma spec_CheckPoolNameUnique name (Q : option error -> Op OpLogPool -> PoolWorld -> Prop) o w :
  (assignable (R := PoolBase) "name" name = true ->
     Forall (fun p => column "name" p <> Some name) (rows (pools w)) -> Q None o (touch_pools w)) ->
  (assignable (R := PoolBase) "name" name = false -> Q None o (touch_pools w)) ->
  (forall e o', o' = o \/ o' = with_code ErrorCodePoolNameConflict o -> Q (Some e) o' (touch_pools w)) ->
  spec (CheckPoolNameUnique name) Q o w.
Proof.
  intros Hok Hill Herr. unfold CheckPoolNameUnique. spec_go.
  destruct (assignable (R := PoolBase) "name" name) eqn:Ea.
  - apply spec_exists_field; [done|..]; intros; spec_go; [apply Herr; by left|apply Herr; by right|by apply Hok].
  - apply spec_DbExists. intros b [e|] _; [|destruct b]; spec_go;
      [apply Herr; by left|apply Herr; by right|by apply Hill].
Qed.

Lemma spec_CheckServiceNameUnique name (Q : option error -> Op OpLogPool -> PoolWorld -> Prop) o w :
  (assignable (R := PoolServiceBase) "name" name = true ->
     Forall (fun p => column "name" p <> Some name) (rows (services w)) -> Q None o (touch_services w)) ->
  (assignable (R := PoolServiceBase) "name" name = false -> Q None o (touch_services w)) ->
  (forall e o', o' = o \/ o' = with_code ErrorCodeServiceNameConflict o -> Q (Some e) o' (touch_services w)) ->
  spec (CheckServiceNameUnique name) Q o w.
Proof.
  intros Hok Hill Herr. unfold CheckServiceNameUnique. spec_go.
  destruct (assignable (R := PoolServiceBase) "name" name) eqn:Ea.
  - apply spec_exists_field; [done|..]; intros; spec_go; [apply Herr; by left|apply Herr; by right|by apply Hok].
  - apply spec_DbExists. intros b [e|] _; [|destruct b]; spec_go;
      [apply Herr; by left|apply Herr; by right|by apply Hill].
Qed.

Lemma spec_FindPool id n (Q : option PoolBase * option error -> Op OpLogPool -> PoolWorld -> Prop) o w :
  (forall p, p ∈ rows (pools w) -> matches {[fieldName n := VStr id]} p = true ->
     Q (Some p, None) o (touch_pools w)) ->
  (Forall (fun p : PoolBase => matches {[fieldName n := VStr id]} p = false) (rows (pools w)) ->
     Q (None, None) (with_code ErrorCodePoolNotFound o) (touch_pools w)) ->
  (forall e, Q (None, Some e) o (touch_pools w)) ->
  spec (FindPool id n) Q o w.
Proof.
  intros Hf Hn He. unfold FindPool. spec_go. apply spec_FindByField. intros [p|] [e|] E; spec_go.
  - apply He.
  - destruct E. by apply Hf.
  - apply He.
  - apply Hn, E, typed_pool_field.
Qed.

Lemma spec_FindService id n (Q : option PoolServiceBase * option error -> Op OpLogPool -> PoolWorld -> Prop) o w :
  (forall s, s ∈ rows (services w) -> matches {[fieldName n := VStr id]} s = true ->
     Q (Some s, None) o (touch_services w)) ->
  (Forall (fun s : PoolServiceBase => matches {[fieldName n := VStr id]} s = false) (rows (services w)) ->
     Q (None, None) (with_code ErrorCodeServiceNotFound o) (touch_services w)) ->
  (forall e, Q (None, Some e) o (touch_services w)) ->
  spec (FindService id n) Q o w.
Proof.
  intros Hf Hn He. unfold FindService. spec_go. apply spec_FindByField. intros [p|] [e|] E; spec_go.
  - apply He.
  - destruct E. by apply Hf.
  - apply He.
  - apply Hn, E, typed_service_field.
Qed.

(** The resolved ID of a pool: the argument, the ID of the row with that name, or empty. *)
Lemma spec_PoolId c id n (Q : string * option error -> Op OpLogPool -> PoolWorld -> Prop) o w :
  (OptionalArg false n = false -> Q (id, None) o w) ->
  (OptionalArg false n = true -> forall p, p ∈ rows (pools w) -> p_NAME p = id ->
     Q (GetID p, None) o (touch_pools w)) ->
  (OptionalArg false n = true -> Forall (fun p => p_NAME p <> id) (rows (pools w)) ->
     Q ("", None) (with_code ErrorCodePoolNotFound o) (touch_pools w)) ->
  (forall e, Q ("", Some e) o (touch_pools w)) ->
  spec (PoolId_ c id n) Q o w.
Proof.
  intros H1 H2 H3 H4. unfold PoolId_. destruct (OptionalArg false n) eqn:En; [|spec_go; auto].
  spec_go. apply spec_FindPool.
  - intros p Hin Hm. rewrite matches_singleton, pool_name_column in Hm.
    apply bool_decide_eq_true in Hm. spec_go. apply H2; [done..|congruence].
  - intros Hall. spec_go. apply H3; [done|]. eapply Forall_impl; [exact Hall|].
    cbn beta. intros p Hm Hp. rewrite matches_singleton, pool_name_column in Hm.
    apply bool_decide_eq_false in Hm. congruence.
  - intros e. spec_go. apply H4.
Qed.

Lemma spec_ServiceId c id n (Q : string * option error -> Op OpLogPool -> PoolWorld -> Prop) o w :
  (OptionalArg false n = false -> Q (id, None) o w) ->
  (OptionalArg false n = true -> forall s, s ∈ rows (services w) -> s_NAME s = id ->
     Q (GetID s, None) o (touch_services w)) ->
  (OptionalArg false n = true -> Forall (fun s => s_NAME s <> id) (rows (services w)) ->
     Q ("", None) (with_code ErrorCodeServiceNotFound o) (touch_services w)) ->
  (forall e, Q ("", Some e) o (touch_services w)) ->
  spec (ServiceId_ c id n) Q o w.
Proof.
  intros H1 H2 H3 H4. unfold ServiceId_. destruct (OptionalArg false n) eqn:En; [|spec_go; auto].
  spec_go. apply spec_FindService.
  - intros p Hin Hm. rewrite matches_singleton, service_name_column in Hm.
    apply bool_decide_eq_true in Hm. spec_go. apply H2; [done..|congruence].
  - intros Hall. spec_go. apply H3; [done|]. eapply Forall_impl; [exact Hall|].
    cbn beta. intros p Hm Hp. rewrite matches_singleton, service_name_column in Hm.
    apply bool_decide_eq_false in Hm. congruence.
  - intros e. spec_go. apply H4.
Qed.

Lemma spec_log_update kind fields id name (Q : unit -> Op OpLogPool -> PoolWorld -> Prop) o w :
  (forall l, Q tt (set_oplogs (oplogs o ++ l) o) w) -> spec (log_update kind fields id name) Q o w.
Proof.
  intros HQ. unfold log_update, OpLog. destruct (CheckIfActivate fields) as [[h op] other].
  assert (Q tt o w) by (specialize (HQ []); rewrite app_nil_r in HQ; by destruct o).
  spec_go. destruct h, other; spec_go; cbn; try apply HQ; [|done].
  specialize (HQ ([new_oplog (ConcatStrings [op; "_"; kind]) (log_service id name)] ++
                  [new_oplog (ConcatStrings ["update_"; kind]) (log_service id name)])).
  by rewrite app_assoc in HQ.
Qed.
End Blocks.

(** ** What the operations do *)

(** Reads the lenses of the tables. *)
Ltac pool_views :=
  repeat change (@view PoolWorld (table PoolServiceAssociationBase) _ ?x) with (associations x) in *;
  repeat change (@view PoolWorld (table PoolBase) _ ?x) with (pools x) in *;
  repeat change (@view PoolWorld (table PoolServiceBase) _ ?x) with (services x) in *.

Section Operations.
Context `{!Engine PoolBase, !Engine PoolServiceBase, !Engine PoolServiceAssociationBase, JE : !JoinEngine}.
Context `{!EngineOk PoolBase, !EngineOk PoolServiceBase, !EngineOk PoolServiceAssociationBase}.
Implicit Types (o : Op OpLogPool) (w : PoolWorld).
Import PoolController.

Definition name_free (name : string) w : Prop := Forall (fun p => p_NAME p <> name) (rows (pools w)).
Definition service_name_free (name : string) w : Prop :=
  Forall (fun s => s_NAME s <> name) (rows (services w)).

Definition AddPool_post (p : PoolBase) o w (r : option PoolBase * option error) o' w' : Prop :=
  same_services w w' /\ same_associations w w' /\
  match r with
  | (Some p', None) =>
      p' = set_p_base (p_base p') p /\ GetID p' <> "" /\ rows (pools w') = rows (pools w) ++ [p'] /\
      (table_ok (rows (pools w)) -> table_ok (rows (pools w'))) /\ name_free (p_NAME p) w /\
      oplogs o' = oplogs o ++ [new_oplog "add_pool" (log_pool (GetID p') (p_NAME p))] /\
      genericError o' = genericError o
  | (None, Some _) => same_pools w w' /\ oplogs o' = oplogs o
  | _ => False
  end.

Lemma oplogs_with_code code o : oplogs (with_code code o) = oplogs o.
Proof. unfold with_code. by destruct (genericError o). Qed.

Lemma AddPool_spec p o w : spec (AddPool p) (AddPool_post p o w) o w.
Proof.
  unfold AddPool. spec_go. apply spec_CheckPoolNameUnique.
  - intros _ Hfree. spec_go. apply spec_on, wp_InitObject. intros b e' Hb _.
    spec_go. apply spec_DbCreate. cbn. intros [e|] rs' E; unfold OpLog; spec_go; repeat split; try done; cbn in *.
    + by destruct E.
    + by destruct E.
    + eapply Forall_impl; [exact Hfree|]. cbn beta. intros x Hx Hn. apply Hx. by rewrite <- Hn.
  - done.
  - intros e o' [->| ->]; spec_go; repeat split; by rewrite ?oplogs_with_code.
Qed.

Definition AddService_post (s : PoolServiceBase) o w (r : option PoolServiceBase * option error) o' w' : Prop :=
  same_pools w w' /\ same_associations w w' /\
  match r with
  | (Some s', None) =>
      s' = set_s_base (s_base s') s /\ GetID s' <> "" /\ rows (services w') = rows (services w) ++ [s'] /\
      (table_ok (rows (services w)) -> table_ok (rows (services w'))) /\ service_name_free (s_NAME s) w /\
      oplogs o' = oplogs o ++ [new_oplog "add_service" (log_service (GetID s') (s_NAME s))] /\
      genericError o' = genericError o
  | (None, Some _) => same_services w w' /\ oplogs o' = oplogs o
  | _ => False
  end.

Lemma AddService_spec s o w : spec (AddService s) (AddService_post s o w) o w.
Proof.
  unfold AddService. spec_go. apply spec_CheckServiceNameUnique.
  - intros _ Hfree. spec_go. apply spec_on, wp_InitObject. intros b e' Hb _.
    spec_go. apply spec_DbCreate. cbn. intros [e|] rs' E; unfold OpLog; spec_go; repeat split; try done; cbn in *.
    + by destruct E.
    + by destruct E.
    + eapply Forall_impl; [exact Hfree|]. cbn beta. intros x Hx Hn. apply Hx. by rewrite <- Hn.
  - done.
  - intros e o' [->| ->]; spec_go; repeat split; by rewrite ?oplogs_with_code.
Qed.

(** A row the argument [id] names: by name or by ID. *)
Definition names_pool (id : string) (n : list bool) (p : PoolBase) : Prop :=
  if OptionalArg false n then p_NAME p = id else GetID p = id.

Lemma names_pool_matches id n p : matches {[fieldName n := VStr id]} p = true <-> names_pool id n p.
Proof.
  unfold names_pool, fieldName. destruct (OptionalArg false n).
  - rewrite matches_singleton, pool_name_column, bool_decide_eq_true. naive_solver.
  - by rewrite matches_id, bool_decide_eq_true.
Qed.

Definition names_service (id : string) (n : list bool) (s : PoolServiceBase) : Prop :=
  if OptionalArg false n then s_NAME s = id else GetID s = id.

Lemma names_service_matches id n s : matches {[fieldName n := VStr id]} s = true <-> names_service id n s.
Proof.
  unfold names_service, fieldName. destruct (OptionalArg false n).
  - rewrite matches_singleton, service_name_column, bool_decide_eq_true. naive_solver.
  - by rewrite matches_id, bool_decide_eq_true.
Qed.

(** A write that updates the row [q] of a table, which [id] names. *)
Definition updates `{Entity R} (sel : R -> Prop) (fields : Fields) (rs rs' : list R) (q : R) : Prop :=
  q ∈ rs /\ sel q /\ update_post (GetID q) fields rs None rs'.

Definition UpdatePool_post id (fields : Fields) n (o : Op OpLogPool) w (r : option PoolBase * option error)
    (o' : Op OpLogPool) w' : Prop :=
  same_services w w' /\ same_associations w w' /\
  match r with
  | (Some p', None) => exists q,
      updates (names_pool id n) fields (rows (pools w)) (rows (pools w')) q /\
      p' ∈ rows (pools w') /\ (fields !! "id" = None -> GetID p' = GetID q)
  | (None, Some _) => same_pools w w' \/ exists q,
      updates (names_pool id n) fields (rows (pools w)) (rows (pools w')) q
  | _ => False
  end.

Definition UpdateService_post id (fields : Fields) n (o : Op OpLogPool) w (r : option PoolServiceBase * option error)
    (o' : Op OpLogPool) w' : Prop :=
  same_pools w w' /\ same_associations w w' /\
  match r with
  | (Some s', None) => exists q,
      updates (names_service id n) fields (rows (services w)) (rows (services w')) q /\
      s' ∈ rows (services w') /\ (fields !! "id" = None -> GetID s' = GetID q)
  | (None, Some _) => same_services w w' \/ exists q,
      updates (names_service id n) fields (rows (services w)) (rows (services w')) q
  | (None, None) => exists q,
      updates (names_service id n) fields (rows (services w)) (rows (services w')) q
  | _ => False
  end.

(** The check of a new name writes nothing. *)
Lemma spec_check_pool_name (fields : Fields) (Q : option error -> Op OpLogPool -> PoolWorld -> Prop) o w :
  (forall e o' w', same_rows w w' -> Q e o' w') ->
  spec (match fields !! "name" with Some name => CheckPoolNameUnique name | None => ret None end) Q o w.
Proof.
  intros HQ. destruct (fields !! "name"); [|spec_go; by apply HQ].
  apply spec_CheckPoolNameUnique; intros; by apply HQ.
Qed.

Lemma spec_check_service_name (fields : Fields) (Q : option error -> Op OpLogPool -> PoolWorld -> Prop) o w :
  (forall e o' w', same_rows w w' -> Q e o' w') ->
  spec (match fields !! "name" with Some name => CheckServiceNameUnique name | None => ret None end) Q o w.
Proof.
  intros HQ. destruct (fields !! "name"); [|spec_go; by apply HQ].
  apply spec_CheckServiceNameUnique; intros; by apply HQ.
Qed.

Lemma UpdatePool_spec id fields n o w :
  spec (UpdatePool id fields n) (UpdatePool_post id fields n o w) o w.
Proof.
  unfold UpdatePool. spec_go. apply spec_check_pool_name. intros e o1 w1 (Hp & Hs & Ha).
  unfold UpdatePool_post. unfold same_pools, same_services, same_associations in *.
  destruct e; [spec_go; cbn; auto|]. spec_go. apply spec_FindUpdate; cbn.
  - intros e _. destruct e; spec_go; cbn; auto.
  - intros q e q' env' rs' Hin Hm Hup Hid. rewrite Hp in *. rewrite names_pool_matches in Hm.
    destruct e; spec_go; cbn; [by auto|].
    apply spec_log_update. intros l. spec_go. apply spec_FindPool; cbn; rewrite ?Hp.
    + intros p Hinp Hmp. spec_go. split; [done|]. split; [done|]. exists q. split; [exact (conj Hin (conj Hm Hup))|]. split; [done|].
      intros E. apply (names_pool_matches _ []) in Hmp. unfold names_pool in Hmp. by rewrite Hmp, Hid.
    + intros _. spec_go. split; [done|]. split; [done|]. right. exists q. by split.
    + intros e. spec_go. split; [done|]. split; [done|]. right. exists q. by split.
Qed.

Lemma UpdateService_spec id fields n o w :
  spec (UpdateService id fields n) (UpdateService_post id fields n o w) o w.
Proof.
  unfold UpdateService. spec_go. apply spec_check_service_name. intros e o1 w1 (Hp & Hs & Ha).
  unfold UpdateService_post. unfold same_pools, same_services, same_associations in *.
  destruct e; [spec_go; cbn; auto|]. spec_go. apply spec_FindUpdate; cbn.
  - intros e _. destruct e; spec_go; cbn; auto.
  - intros q e q' env' rs' Hin Hm Hup Hid. rewrite Hs in *. rewrite names_service_matches in Hm.
    destruct e; spec_go; cbn; [by auto|].
    apply spec_log_update. intros l. spec_go. apply spec_FindService; cbn; rewrite ?Hs.
    + intros p Hinp Hmp. spec_go. split; [done|]. split; [done|]. exists q. split; [exact (conj Hin (conj Hm Hup))|]. split; [done|].
      intros E. apply (names_service_matches _ []) in Hmp. unfold names_service in Hmp. by rewrite Hmp, Hid.
    + intros _. spec_go. split; [done|]. split; [done|]. exists q. by split.
    + intros e. spec_go. split; [done|]. split; [done|]. right. exists q. by split.
Qed.

(** The ID of the pool an argument stands for, empty when no pool has that name. *)
Definition resolves_pool id n w (pid : string) : Prop :=
  if OptionalArg false n then
    (exists p, p ∈ rows (pools w) /\ p_NAME p = id /\ pid = GetID p) \/
    (Forall (fun p => p_NAME p <> id) (rows (pools w)) /\ pid = "")
  else pid = id.
Definition resolves_service id n w (sid : string) : Prop :=
  if OptionalArg false n then
    (exists s, s ∈ rows (services w) /\ s_NAME s = id /\ sid = GetID s) \/
    (Forall (fun s => s_NAME s <> id) (rows (services w)) /\ sid = "")
  else sid = id.

Lemma spec_PoolId_resolves c id n (Q : string * option error -> Op OpLogPool -> PoolWorld -> Prop) o w :
  (forall pid e o' w', same_rows w w' -> oplogs o' = oplogs o ->
     (e = None -> resolves_pool id n w pid) -> Q (pid, e) o' w') ->
  spec (PoolId_ c id n) Q o w.
Proof.
  intros HQ. apply spec_PoolId; unfold resolves_pool in HQ.
  - intros E. apply HQ; [done..|]. by rewrite E.
  - intros E p Hin Hn. apply HQ; [done..|]. rewrite E. eauto.
  - intros E Hall. apply HQ; [done|apply oplogs_with_code|]. rewrite E. eauto.
  - intros e. by apply HQ.
Qed.

Lemma spec_ServiceId_resolves c id n (Q : string * option error -> Op OpLogPool -> PoolWorld -> Prop) o w :
  (forall sid e o' w', same_rows w w' -> oplogs o' = oplogs o ->
     (e = None -> resolves_service id n w sid) -> Q (sid, e) o' w') ->
  spec (ServiceId_ c id n) Q o w.
Proof.
  intros HQ. apply spec_ServiceId; unfold resolves_service in HQ.
  - intros E. apply HQ; [done..|]. by rewrite E.
  - intros E p Hin Hn. apply HQ; [done..|]. rewrite E. eauto.
  - intros E Hall. apply HQ; [done|apply oplogs_with_code|]. rewrite E. eauto.
  - intros e. by apply HQ.
Qed.

(** Deletion removes the rows with the resolved ID, and only when no association refers to it. *)
Definition DeletePool_post id n (o : Op OpLogPool) w (r : option error) (o' : Op OpLogPool) w' : Prop :=
  same_services w w' /\ same_associations w w' /\
  match r with
  | None => exists pid, resolves_pool id n w pid /\
      if decide (pid = "") then same_pools w w'
      else rows (pools w') = rows_without pid (rows (pools w)) /\
           Forall (fun a => POOL_ID a <> pid) (rows (associations w))
  | Some _ => same_pools w w'
  end.

Definition DeleteService_post id n (o : Op OpLogPool) w (r : option error) (o' : Op OpLogPool) w' : Prop :=
  same_pools w w' /\ same_associations w w' /\
  match r with
  | None => exists sid, resolves_service id n w sid /\
      if decide (sid = "") then same_services w w'
      else rows (services w') = rows_without sid (rows (services w)) /\
           Forall (fun a => SERVICE_ID a <> sid) (rows (associations w))
  | Some _ => same_services w w'
  end.

(** A column of the associations that never has the value of a string. *)
Lemma forall_column_neq (k : string) (get : PoolServiceAssociationBase -> string) v rs :
  (forall a, column k a = Some (VStr (get a))) ->
  Forall (fun a => column k a <> Some (VStr v)) rs -> Forall (fun a => get a <> v) rs.
Proof. intros Hk Hall. eapply Forall_impl; [exact Hall|]. cbn beta. intros a Ha E. by rewrite Hk, E in Ha. Qed.

Lemma DeletePool_spec id n o w : spec (DeletePool id n) (DeletePool_post id n o w) o w.
Proof.
  unfold DeletePool. spec_go. apply spec_PoolId_resolves. intros pid e o1 w1 (Hp & Hs & Ha) Hol Hres.
  unfold DeletePool_post, same_pools, same_services, same_associations in *.
  destruct e; spec_go; [done|]. specialize (Hres eq_refl).
  destruct (decide (pid = "")) as [Hnil|Hnil] eqn:Ed.
  { spec_go. repeat split; [done..|]. exists pid. split; [done|]. by rewrite Ed. }
  spec_go. apply spec_exists_field; [done|intros; spec_go; done|intros; spec_go; done|].
  cbn. rewrite Ha. intros Hfree. apply (forall_column_neq "pool_id" POOL_ID) in Hfree; [|done].
  spec_go. unfold OpLog. apply spec_Delete_id; [done|]. cbn. rewrite Hp. intros [e|] t' Ht; spec_go.
  - done.
  - split; [done|]. split; [done|]. exists pid. by rewrite Ed.
Qed.

Lemma DeleteService_spec id n o w : spec (DeleteService id n) (DeleteService_post id n o w) o w.
Proof.
  unfold DeleteService. spec_go. apply spec_ServiceId_resolves. intros sid e o1 w1 (Hp & Hs & Ha) Hol Hres.
  unfold DeleteService_post, same_pools, same_services, same_associations in *.
  destruct e; spec_go; [done|]. specialize (Hres eq_refl).
  destruct (decide (sid = "")) as [Hnil|Hnil] eqn:Ed.
  { spec_go. repeat split; [done..|]. exists sid. split; [done|]. by rewrite Ed. }
  spec_go. apply spec_exists_field; [done|intros; spec_go; done|intros; spec_go; done|].
  cbn. rewrite Ha. intros Hfree. apply (forall_column_neq "service_id" SERVICE_ID) in Hfree; [|done].
  spec_go. unfold OpLog. apply spec_Delete_id; [done|]. cbn. rewrite Hs. intros [e|] t' Ht; spec_go.
  - done.
  - split; [done|]. split; [done|]. exists sid. by rewrite Ed.
Qed.

Definition AddServiceToPool_post pId sId role n (o : Op OpLogPool) w (r : option error)
    (o' : Op OpLogPool) w' : Prop :=
  same_pools w w' /\ same_services w w' /\
  match r with
  | None => exists p s a,
      p ∈ rows (pools w) /\ names_pool pId n p /\ s ∈ rows (services w) /\ names_service sId n s /\
      POOL_ID a = GetID p /\ SERVICE_ID a = GetID s /\ ROLE a = role /\ GetID a <> "" /\
      Forall (fun a' => ~ (POOL_ID a' = GetID p /\ ROLE a' = role)) (rows (associations w)) /\
      create_post a (rows (associations w)) None (rows (associations w'))
  | Some _ => same_associations w w'
  end.

Lemma AddServiceToPool_spec pId sId role n o w :
  spec (AddServiceToPool pId sId role n) (AddServiceToPool_post pId sId role n o w) o w.
Proof.
  unfold AddServiceToPool. spec_go. apply spec_FindPool; [|intros; spec_go; done..].
  intros p Hp Hpm. apply names_pool_matches in Hpm. spec_go.
  apply spec_FindService; [|intros; spec_go; done..].
  intros s Hs Hsm. apply names_service_matches in Hsm. spec_go.
  apply spec_exists_plain; [auto with go|cbn; do 2 (apply typed_insert; [done|]); apply typed_empty|intros; spec_go; done|intros ? _ _; spec_go; done|].
  cbn. intros Hfree. spec_go. apply spec_on, wp_InitObject. intros b e' Hb _. spec_go.
  apply spec_DbCreate. cbn. intros [e|] rs' E; unfold OpLog; spec_go; [done|].
  split; [reflexivity|]. split; [reflexivity|].
  exists p, s, {| a_base := b; POOL_ID := GetID p; ROLE := role; SERVICE_ID := GetID s |}.
  do 4 (split; [assumption|]). do 3 (split; [reflexivity|]). split; [exact Hb|]. split; [|exact E].
  clear E. eapply Forall_impl; [exact Hfree|]. cbn beta. intros a Ha [E1 E2].
  apply not_true_iff_false in Ha. apply Ha, matches_spec. intros k v.
  rewrite lookup_insert_Some, lookup_insert_Some, lookup_empty.
  intros [[<- <-]|(_ & [[<- <-]|(_ & [=])])];
    [exact (f_equal (fun x => Some (VStr x)) E2)|exact (f_equal (fun x => Some (VStr x)) E1)].
Qed.

(** What is left of the associations. *)
Definition fewer (w w' : PoolWorld) : Prop :=
  exists f, rows (associations w') = List.filter f (rows (associations w)).

Definition RemoveServiceFromPool_post id role n (o : Op OpLogPool) w (r : option error)
    (o' : Op OpLogPool) w' : Prop :=
  same_pools w w' /\ same_services w w' /\
  match r with
  | None => exists pid, resolves_pool id n w pid /\
      if decide (pid = "") then same_associations w w'
      else (same_associations w w' /\
            Forall (fun a => ~ (POOL_ID a = pid /\ ROLE a = role)) (rows (associations w))) \/
           exists a, a ∈ rows (associations w) /\ POOL_ID a = pid /\ ROLE a = role /\
             delete_post (GetID a) (rows (associations w)) None (rows (associations w'))
  | Some _ => same_associations w w'
  end.

Lemma binding_fields pid role a :
  matches (<["pool_id" := VStr pid]> {["role" := VStr role]}) a = true <-> POOL_ID a = pid /\ ROLE a = role.
Proof.
  rewrite matches_spec. split.
  - intros Hm. split.
    + specialize (Hm "pool_id" (VStr pid) (lookup_insert_eq _ _ _)). by injection Hm.
    + specialize (Hm "role" (VStr role)).
      rewrite lookup_insert_ne, lookup_singleton_eq in Hm by done. specialize (Hm eq_refl). by injection Hm.
  - intros [<- <-] k v. rewrite lookup_insert_Some, lookup_singleton_Some.
    by intros [[<- <-]|(_ & <- & <-)].
Qed.

Lemma RemoveServiceFromPool_spec id role n o w :
  spec (RemoveServiceFromPool id role n) (RemoveServiceFromPool_post id role n o w) o w.
Proof.
  unfold RemoveServiceFromPool. spec_go. apply spec_PoolId_resolves. intros pid e o1 w1 (Hp & Hs & Ha) Hol Hres.
  unfold RemoveServiceFromPool_post, same_pools, same_services, same_associations in *.
  destruct e; spec_go; [done|]. specialize (Hres eq_refl).
  destruct (decide (pid = "")) as [Hnil|Hnil] eqn:Ed.
  { spec_go. repeat split; [done..|]. exists pid. split; [done|]. by rewrite Ed. }
  spec_go. apply spec_read_with. pool_views. rewrite Ha. intros row [e|] Hf; [spec_go; done|].
  destruct row as [a|].
  - rewrite bool_decide_eq_true_2 by eauto. destruct Hf as [Hin Hm]. apply binding_fields in Hm as [Hm1 Hm2].
    cbn [default]. spec_go. apply spec_DbDelete. cbn. rewrite ?Ha. intros [e|] rs' Hd; unfold OpLog; spec_go.
    + done.
    + split; [done|]. split; [done|]. exists pid. rewrite Ed. split; [done|]. right. by exists a.
  - rewrite bool_decide_eq_false_2 by (by intros [? ?]). spec_go. split; [done|]. split; [done|].
    exists pid. rewrite Ed. split; [done|]. left. split; [done|].
    eapply Forall_impl; [apply Hf; done|]. cbn beta. intros a Hm Hb. apply not_true_iff_false in Hm.
    by apply Hm, binding_fields.
Qed.

Definition RemoveAllServicesFromPool_post id n (o : Op OpLogPool) w (r : option error)
    (o' : Op OpLogPool) w' : Prop :=
  same_pools w w' /\ same_services w w' /\
  match r with
  | None => exists pid, resolves_pool id n w pid /\
      if decide (pid = "") then same_associations w w'
      else rows (associations w') =
           List.filter (fun a => negb (bool_decide (POOL_ID a = pid))) (rows (associations w))
  | Some _ => same_associations w w'
  end.

Definition RemoveServiceFromAllPools_post id n (o : Op OpLogPool) w (r : option error)
    (o' : Op OpLogPool) w' : Prop :=
  same_pools w w' /\ same_services w w' /\
  match r with
  | None => exists sid, resolves_service id n w sid /\
      if decide (sid = "") then same_associations w w'
      else rows (associations w') =
           List.filter (fun a => negb (bool_decide (SERVICE_ID a = sid))) (rows (associations w))
  | Some _ => same_associations w w'
  end.

(** The rows left by a deletion on a string column. *)
Lemma rows_not_matching_column k (get : PoolServiceAssociationBase -> string) v rs :
  (forall a, column k a = Some (VStr (get a))) ->
  rows_not_matching {[k := VStr v]} rs = List.filter (fun a => negb (bool_decide (get a = v))) rs.
Proof.
  intros Hk. unfold rows_not_matching. apply filter_ext. intros a. f_equal.
  rewrite matches_singleton, Hk. apply bool_decide_ext. split; [by intros [= ->]|by intros ->].
Qed.

Lemma RemoveAllServicesFromPool_spec id n o w :
  spec (RemoveAllServicesFromPool id n) (RemoveAllServicesFromPool_post id n o w) o w.
Proof.
  unfold RemoveAllServicesFromPool. spec_go. apply spec_PoolId_resolves.
  intros pid e o1 w1 (Hp & Hs & Ha) Hol Hres.
  unfold RemoveAllServicesFromPool_post, same_pools, same_services, same_associations in *.
  destruct e; spec_go; [done|]. specialize (Hres eq_refl).
  destruct (decide (pid = "")) as [Hnil|Hnil] eqn:Ed.
  { spec_go. repeat split; [done..|]. exists pid. split; [done|]. by rewrite Ed. }
  spec_go. apply spec_DbDeleteByFields. pool_views. rewrite Ha. intros [e|] rs' Hd; unfold OpLog; spec_go; [done|].
  split; [done|]. split; [done|]. exists pid. rewrite Ed. split; [done|]. cbn [rows associations].
  rewrite <- (rows_not_matching_column "pool_id" POOL_ID) by done. apply Hd, typed_singleton. done.
Qed.

Lemma RemoveServiceFromAllPools_spec id n o w :
  spec (RemoveServiceFromAllPools id n) (RemoveServiceFromAllPools_post id n o w) o w.
Proof.
  unfold RemoveServiceFromAllPools. spec_go. apply spec_ServiceId_resolves.
  intros sid e o1 w1 (Hp & Hs & Ha) Hol Hres.
  unfold RemoveServiceFromAllPools_post, same_pools, same_services, same_associations in *.
  destruct e; spec_go; [done|]. specialize (Hres eq_refl).
  destruct (decide (sid = "")) as [Hnil|Hnil] eqn:Ed.
  { spec_go. repeat split; [done..|]. exists sid. split; [done|]. by rewrite Ed. }
  spec_go. apply spec_DbDeleteByFields. pool_views. rewrite Ha. intros [e|] rs' Hd; unfold OpLog; spec_go; [done|].
  split; [done|]. split; [done|]. exists sid. rewrite Ed. split; [done|]. cbn [rows associations].
  rewrite <- (rows_not_matching_column "service_id" SERVICE_ID) by done. apply Hd, typed_singleton. done.
Qed.
End Operations.
