(* ===== verification/GormMem.v ===== *)
(** * A GORM in memory

    Conditions are looked up among the texts of the columns, rows are listed, sorted and cut as the
    statement says, and any query may fail.  It satisfies what the code relies on
    ([mem_gorm_ok]) for a table whose texts do not collide; with it the theorems about
    [GormDB] are applied to the table of the pools, and the statements the code builds wrong are
    shown. *)
From stdpp Require Import sorting.
From S2P Require Import Prelude GoTime Utils Common Errors Db PoolData Pool FilterParser GormFilter GormDB.
Open Scope go_scope.

#[export] Instance value_order : ValueOrder := {| before a b :=
  match a, b with
  | VInt x, VInt y | VTime x, VTime y => (x <? y)%Z
  | VStr x, VStr y => String.ltb x y
  | VBool x, VBool y => negb x && y
  | _, _ => false
  end |}.

Lemma before_asym a b : before a b = true -> before b a = false.
Proof.
  destruct a, b; cbn; try done.
  - by destruct b, b0.
  - rewrite Z.ltb_lt, Z.ltb_ge. lia.
  - unfold String.ltb. rewrite (String.compare_antisym s s0). by destruct (String.compare s0 s).
  - rewrite Z.ltb_lt, Z.ltb_ge. lia.
Qed.

Section Mem.
Context {R : Type} `{Eo : EntityOk R}.
Variable fault : nat -> option error.
Hypothesis fault_found : forall t, fault t <> Some ErrRecordNotFound.
Implicit Types (r : R) (rows : list R).

(** The texts of a column. *)
Local Abbreviation text := (string * (list arg -> R -> bool))%type.
Definition equals_text (k : string) : text :=
  (equals k, fun args r => match args with [Arg v] => bool_decide (column k r = Some v) | _ => false end).
Definition in_text (k : string) : text :=
  (is_in k, fun args r => match args with [Args vs] => is_one_of k vs r | _ => false end).
Definition not_in_text (k : string) : text :=
  (is_not_in k, fun args r => match args with [Args vs] => negb (is_one_of k vs r) | _ => false end).
Definition end_text (k op : string) : text :=
  (one_end k op, fun args r => match args, column k r with [Arg v], Some w => compares op w v | _, _ => false end).
Definition column_texts (k : string) : list text :=
  [equals_text k; in_text k; not_in_text k; end_text k ">"; end_text k ">="; end_text k "<"; end_text k "<="].
Definition texts : list text :=
  ("1 = 1", fun _ _ => true) :: concat (map column_texts (columns (R := R)).*1).
Hypothesis texts_differ : NoDup texts.*1.

#[local] Instance mem_conditions : Conditions R := {|
  sat text args r := match assoc text texts with Some p => p args r | None => false end |}.

Definition col_le (k : string) (asc : bool) r r' : Prop :=
  match column k r, column k r' with
  | Some v, Some w => (if asc then before w v else before v w) = false
  | _, _ => True
  end.
#[local] Instance col_le_dec k asc r r' : Decision (col_le k asc r r').
Proof. unfold col_le. destruct (column k r), (column k r'); apply _. Defined.
#[local] Instance col_le_total k asc : Total (col_le k asc).
Proof.
  intros r r'. unfold col_le. destruct (column k r) as [v|], (column k r') as [w|]; auto.
  destruct asc.
  - destruct (before w v) eqn:E; [right; by apply before_asym|by left].
  - destruct (before v w) eqn:E; [right; by apply before_asym|by left].
Qed.

Definition orders : list (string * (string * bool)) :=
  concat (map (fun k => [(sort_text k SORT_ASC, (k, true)); (sort_text k SORT_DESC, (k, false))]) (columns (R := R)).*1).
Definition sort_by (os : list string) rows : list R :=
  match os with
  | [t] => match assoc t orders with Some (k, asc) => merge_sort (col_le k asc) rows | None => rows end
  | _ => rows
  end.
Definition sorted_by (os : list string) rows : Prop :=
  match os with
  | [t] => match assoc t orders with Some (k, asc) => Sorted (col_le k asc) rows | None => True end
  | _ => True
  end.

Definition missing_where : error := Native "WHERE conditions required".
Definition invalid_input : error := Native "invalid input syntax".

Definition mem_select {A} (t : nat) (s : Statement) (failed : error -> A) (k : list R -> A) rows : A :=
  match fault t with
  | Some e => failed e
  | None => if typed_conds (R := R) (Conds s) then k (List.filter (where_holds (Conds s)) rows) else failed invalid_input
  end.

Definition has_id (o : option R) r : bool :=
  match o with Some o => bool_decide (GetID o = "") || bool_decide (GetID r = GetID o) | None => true end.

#[local] Instance mem_gorm : Gorm R := {|
  ordered := sorted_by;
  gorm_First t s rows := mem_select t s inr (fun rs => match rs with r :: _ => inl r | [] => inr ErrRecordNotFound end) rows;
  gorm_Find t s rows := mem_select t s (fun e => ([], 0%Z, Some e))
    (fun rs => let rs := page (s_Offset s) (s_Limit s) (sort_by (Orders s) rs) in (rs, Z.of_nat (length rs), None)) rows;
  gorm_Count t s rows := mem_select t s (fun e => (0%Z, Some e)) (fun rs => (Z.of_nat (length rs), None)) rows;
  gorm_Create t r rows := mem_write fault t (mem_insert r) rows;
  gorm_Updates t s o fields rows :=
    let '(e, rows) := mem_write fault t (fun rows =>
      if typed_conds (R := R) (Conds s) then
        mem_checked fields (map (fun r => if where_holds (Conds s) r && has_id (Some o) r then assign_all fields r else r) rows) rows
      else (Some invalid_input, rows)) rows in
    (e, o, rows);
  gorm_Delete t s o rows := mem_write fault t (fun rows =>
    if typed_conds (R := R) (Conds s) then
      match Conds s, o with
      | [], None => (Some missing_where, rows)
      | _, _ => (None, List.filter (fun r => negb (where_holds (Conds s) r && has_id o r)) rows)
      end
    else (Some invalid_input, rows)) rows
|}.

Lemma assoc_NoDup {A} k (a : A) l : NoDup l.*1 -> (k, a) ∈ l -> assoc k l = Some a.
Proof.
  induction l as [|[k' b] l IH]; cbn; [by intros _ ?%elem_of_nil|].
  intros [Hk Hnd]%NoDup_cons [[= <- <-]|Hin]%elem_of_cons; [by rewrite decide_True|].
  rewrite decide_False; [by apply IH|]. intros ->. apply Hk. apply list_elem_of_fmap. by exists (k', a).
Qed.

Lemma text_of k p : is_column R k -> p ∈ column_texts k -> forall args r, sat p.1 args r = p.2 args r.
Proof.
  intros [c Hc] Hp args r. cbn [sat mem_conditions]. rewrite (assoc_NoDup p.1 p.2); [done|exact texts_differ|]. destruct p as [text p]. apply elem_of_cons. right.
  apply list_elem_of_In, in_concat. exists (column_texts k). split; [|by apply list_elem_of_In].
  apply in_map, list_elem_of_In, list_elem_of_fmap. exists (k, c). split; [done|]. by apply list_elem_of_In, assoc_in.
Qed.

Lemma mem_select_inl {A} t s (failed : error -> A) k rows (Q : A -> Prop) :
  (forall e, e <> ErrRecordNotFound -> Q (failed e)) ->
  (typed_conds (R := R) (Conds s) = true -> Q (k (List.filter (where_holds (Conds s)) rows))) -> Q (mem_select t s failed k rows).
Proof.
  intros Hf Hk. unfold mem_select. destruct (fault t) as [e|] eqn:E; [apply Hf; intros ->; by apply (fault_found t)|].
  destruct (typed_conds _) eqn:Ht; [by apply Hk|by apply Hf].
Qed.

Lemma sort_by_perm os rows : sort_by os rows ≡ₚ rows.
Proof.
  unfold sort_by. destruct os as [|t [|]]; try done. destruct (assoc t orders) as [[k asc]|]; [|done]. apply merge_sort_Permutation.
Qed.
Lemma sort_by_sorted os rows : sorted_by os (sort_by os rows).
Proof.
  unfold sorted_by, sort_by. destruct os as [|t [|]]; try done. destruct (assoc t orders) as [[k asc]|]; [|done].
  apply Sorted_merge_sort, _.
Qed.

Lemma filter_rows (p : R -> bool) rows r : r ∈ List.filter p rows <-> r ∈ rows /\ p r = true.
Proof. by rewrite !list_elem_of_In, filter_In. Qed.

Lemma not_not_found e : e <> ErrRecordNotFound -> IsNotFound (Some e) = false.
Proof. intros Hn. apply bool_decide_eq_false_2. congruence. Qed.

Lemma mem_texts_ok : (forall r, sat "1 = 1" [] r = true) /\
  (forall k v r, is_column R k -> sat (equals k) [Arg v] r = bool_decide (column k r = Some v)) /\
  (forall k vs r, is_column R k -> sat (is_in k) [Args vs] r = is_one_of k vs r) /\
  (forall k vs r, is_column R k -> sat (is_not_in k) [Args vs] r = negb (is_one_of k vs r)) /\
  (forall k op v r, is_column R k -> is_op op ->
    sat (one_end k op) [Arg v] r = match column k r with Some w => compares op w v | None => false end).
Proof.
  assert (Hin : forall k p, is_column R k -> p ∈ column_texts k -> forall args r, sat p.1 args r = p.2 args r) by apply text_of.
  assert (Hmem : forall k n p, column_texts k !! n = Some p -> p ∈ column_texts k) by (intros; by eapply list_elem_of_lookup_2).
  split_and!; [done|..]; intros k.
  - intros v r Hk. exact (Hin k (equals_text k) Hk (Hmem k 0%nat _ eq_refl) [Arg v] r).
  - intros vs r Hk. exact (Hin k (in_text k) Hk (Hmem k 1%nat _ eq_refl) [Args vs] r).
  - intros vs r Hk. exact (Hin k (not_in_text k) Hk (Hmem k 2%nat _ eq_refl) [Args vs] r).
  - intros op v r Hk Hop. refine (Hin k (end_text k op) Hk _ [Arg v] r).
    destruct Hop as [-> |[-> |[-> | ->]]];
      [apply (Hmem k 3%nat)|apply (Hmem k 4%nat)|apply (Hmem k 5%nat)|apply (Hmem k 6%nat)]; done.
Qed.

Lemma mem_gorm_updates t s o fields rows rows' e o' : gorm_Updates t s o fields rows = (e, o', rows') ->
  o' = o /\ match e with
  | Some _ => rows' = rows
  | None => table_ok rows' /\ rows' = map (fun r => if where_holds (Conds s) r && has_id (Some o) r then assign_all fields r else r) rows
  end.
Proof.
  cbn. unfold mem_write. destruct (fault t) as [e1|]; [by intros [= <- <- <-]|].
  destruct (typed_conds _); [|by intros [= <- <- <-]].
  destruct (mem_checked _ _ _) as [e1 rows1] eqn:E. intros [= -> <- ->]. split; [done|]. destruct e as [e|].
  - by apply mem_checked_err in E.
  - by apply mem_checked_ok in E as [-> ?].
Qed.

Lemma mem_gorm_updates_ids t s o fields rows rows' o' : gorm_Updates t s o fields rows = (None, o', rows') ->
  leaves_id fields -> map GetID rows' = map GetID rows.
Proof.
  intros E Hl. pose proof (mem_gorm_updates _ _ _ _ _ _ _ _ E) as (_ & _ & ->). revert E. cbn. unfold mem_write.
  destruct (fault t); [done|]. destruct (typed_conds _); [|done]. destruct (mem_checked _ _ _) as [e1 rows1] eqn:E. intros [= -> _ ->].
  pose proof (mem_checked_typed _ _ _ _ E). rewrite map_map. apply map_ext. intros r.
  destruct (_ && _); [|done]. by apply GetID_assign_all, leaves_id_lookup.
Qed.

Lemma mem_gorm_deletes t s o rows rows' e : gorm_Delete t s o rows = (e, rows') ->
  match e with
  | Some _ => rows' = rows
  | None => rows' = List.filter (fun r => negb (where_holds (Conds s) r && has_id o r)) rows
  end.
Proof.
  cbn. unfold mem_write. destruct (fault t) as [e1|]; [by intros [= <- <-]|].
  destruct (typed_conds _); [|by intros [= <- <-]]. destruct (Conds s), o; by intros [= <- <-].
Qed.

#[local] Ltac query := cbn [gorm_First gorm_Find gorm_Count mem_gorm];
  match goal with |- context [mem_select ?t ?s ?f ?k ?rows] => pattern (mem_select t s f k rows) end; apply mem_select_inl.

#[local] Instance mem_gorm_ok : GormOk R.
Proof.
  destruct mem_texts_ok as (H1 & H2 & H3 & H4 & H5). split; try done.
  - intros k vs r Hk _. by apply H4.
  - intros t s rows r _. query; [done|]. intros _. destruct (List.filter _ rows) as [|r' rs] eqn:E; [done|].
    intros [= ->]. apply filter_rows. rewrite E. left.
  - intros t s rows _ _. query; [congruence|]. intros _. destruct (List.filter _ rows) as [|r' rs] eqn:E; [|done]. intros _.
    apply Forall_forall. intros r Hr. apply not_true_iff_false. intros Hw.
    assert (Hin : r ∈ List.filter (where_holds (Conds s)) rows) by by apply filter_rows. rewrite E in Hin. by apply elem_of_nil in Hin.
  - intros t s rows rs n _ _. query; [done|]. intros _ [= <- <-]. split; [done|].
    eexists. split_and!; [apply sort_by_perm|apply sort_by_sorted|done].
  - intros t s rows. by query; [intros; apply not_not_found|].
  - intros t s rows n _ _ _. query; [done|]. by intros _ [= <-].
  - intros t s rows. by query; [intros; apply not_not_found|].
  - intros t r rows rows'. cbn. unfold mem_write. destruct (fault t); [done|]. apply mem_insert_ok.
  - intros t r rows e rows'. cbn. unfold mem_write. destruct (fault t); [congruence|]. apply mem_insert_err.
  - intros t s o fields rows rows' o' E _ _ _. by apply mem_gorm_updates in E as (_ & _ & ->).
  - intros t s o fields rows rows' o' E _. by apply mem_gorm_updates in E as (_ & ? & _).
  - intros t s o fields rows rows' o'. apply mem_gorm_updates_ids.
  - intros t s o fields rows rows' e o' E. by apply mem_gorm_updates in E as (_ & ->).
  - intros t s o fields rows k. destruct (gorm_Updates t s o fields rows) as [[e o'] rows'] eqn:E.
    apply mem_gorm_updates in E as (-> & _). by left.
  - intros t s o rows rows' E _. by apply mem_gorm_deletes in E.
  - intros t s o rows rows' e E. by apply mem_gorm_deletes in E.
Qed.
End Mem.

(** ** The table of the pools *)

Module PoolTable.
#[export] Instance pool_range : MapRange := {| range A m := map_to_list m; range_perm A m := reflexivity _ |}.
Definition no_fault (_ : nat) : option error := None.
#[export] Instance pool_conditions : Conditions PoolBase := mem_conditions (R := PoolBase).
#[export] Instance pool_gorm : Gorm PoolBase := mem_gorm (R := PoolBase) no_fault.

Lemma pool_texts_differ : NoDup (texts (R := PoolBase)).*1.
Proof. apply (bool_decide_unpack _). vm_compute. exact I. Qed.
#[export] Instance pool_gorm_ok : GormOk PoolBase :=
  mem_gorm_ok (R := PoolBase) no_fault ltac:(done) pool_texts_differ.

Definition pool (id name : string) (active : bool) : PoolBase :=
  {| p_base := ObjectBase.SetID id ObjectBase.zero; p_NAME := name; p_LONG_NAME := ""; p_DESCRIPTION := ""; p_ACTIVE := active |}.
Definition pools : list PoolBase := [pool "1" "eu" true; pool "2" "us" true; pool "3" "asia" false; pool "4" "africa" true].
Definition db : GormDB := Init 2 false.

Definition with_config (c : FilterConfig) (f : Filter) : Filter :=
  {| config := c; f_Fields := f_Fields f; FieldsIn := FieldsIn f; FieldsNotIn := FieldsNotIn f; Intervals := Intervals f;
     BetweenFields := BetweenFields f; OrFields := OrFields f; PresetFields := PresetFields f |}.
Definition paged_by (limit : Z) (count : bool) : FilterConfig :=
  {| SortField := "name"; SortDirection := SORT_DESC; Offset := 1; Limit := limit; Count := count |}.
(** The active pools that are not in Africa, the last names first, the first one skipped. *)
Definition active_pools : Filter :=
  with_config (paged_by 5 true)
    (Filter.AddField "active" (VBool true) (Filter.AddFieldNotIn "name" [VStr "africa"] NewFilter)).
Definition names (rs : list PoolBase) : list string := map p_NAME rs.
End PoolTable.

Section Witnesses.
Import PoolTable.

Lemma find_filter_witness :
  FindWithFilter db 0 (Some active_pools) pools = ([pool "1" "eu" true], 2%Z, None) /\
  exists all, all ≡ₚ List.filter (selects active_pools) pools /\ ordered (sorting active_pools) all /\
     [pool "1" "eu" true] = page (page_offset (paginator db) active_pools) (page_limit (paginator db) active_pools) all /\
     2%Z = Z.of_nat (length all).
Proof.
  assert (E : FindWithFilter db 0 (Some active_pools) pools = ([pool "1" "eu" true], 2%Z, None)) by (vm_compute; reflexivity).
  split; [exact E|]. refine (proj1 (find_filter db 0 active_pools pools _ _ _ E)).
  split_and!; [vm_compute; reflexivity|constructor|apply map_Forall_empty| |apply map_Forall_empty|reflexivity|constructor].
  apply map_Forall_singleton. split; [by eexists|done].
Defined.

Lemma gorm_engine_ok_witness : @EngineOk PoolBase _ (gorm_engine zero_pool (fun _ => false) "postgres" db).
Proof. apply (gorm_engine_ok zero_pool (fun _ => false) db). vm_compute. reflexivity. Defined.

(** The limit of the database is no bound on the rows of a query without a limit, and a transaction
    takes no page - or ends in a panic, when the rows are counted. *)
Example pages :
  let rows g c := (FindWithFilter g 0 (Some (with_config c NewFilter)) pools) in
  map fst [rows db (paged_by 0 false)] = [([pool "1" "eu" true; pool "3" "asia" false; pool "4" "africa" true], 3%Z)] /\
  names (rows db (paged_by 5 false)).1.1 = ["eu"; "asia"] /\
  names (rows transaction_db (paged_by 1 false)).1.1 = ["us"; "eu"; "asia"; "africa"] /\
  rows transaction_db (paged_by 1 true) = ([], 0%Z, Some nil_paginator).
Proof. vm_compute. done. Qed.

(** The alternatives of a value are alternatives to the whole filter: a pool that is not active is
    found among the active ones. *)
Example alternatives_escape :
  let f := Filter.AddOrFields (VStr "asia") ["id"; "name"] (Filter.AddField "active" (VBool true) NewFilter) in
  names (FindWithFilter db 0 (Some f) pools).1.1 = ["asia"] /\ selects f (pool "3" "asia" false) = false.
Proof. vm_compute. done. Qed.

(** An interval with two ends compares a column of the name of an operator; the full name of a column
    is one quoted name, but for sorting. *)
Example malformed_texts :
  filter_conds (Filter.AddInterval "name" (VStr "a") (VStr "b") NewFilter) =
    [(CAnd, Sql (dq +:+ "name" +:+ dq +:+ " >= ? AND " +:+ dq +:+ "<=" +:+ dq +:+ " name ? ") [Arg (VStr "a"); Arg (VStr "b")])] /\
  filter_conds (Filter.AddFieldIn "pools.name" [VStr "a"] NewFilter) =
    [(CAnd, Sql (dq +:+ "pools.name" +:+ dq +:+ " IN ? ") [Args [VStr "a"]])] /\
  sort_text "pools.name" SORT_ASC = dq +:+ "pools" +:+ dq +:+ "." +:+ dq +:+ "name" +:+ dq +:+ " ASC".
Proof. vm_compute. done. Qed.

(** What lies between two columns is compared with both from below; the name of an empty list is part
    of the text whatever it is. *)
Example unchecked_texts :
  filter_conds (Filter.AddBetweenField "created_at" "updated_at" (VTime 0) NewFilter) =
    [(CAnd, Sql ("? >= " +:+ quoted "created_at" +:+ " AND ? >= " +:+ quoted "updated_at") [Arg (VTime 0); Arg (VTime 0)])] /\
  filter_conds (Filter.AddFieldNotIn ("x" +:+ dq +:+ " IS NULL OR 1=1 --") [] NewFilter) =
    [(CAnd, Sql (dq +:+ "x" +:+ dq +:+ " IS NULL OR 1=1 --" +:+ dq +:+ " NOT IN ? ") [Args []])].
Proof. vm_compute. done. Qed.
End Witnesses.
