(* ===== verification/GormJoin.v ===== *)
(** * pkg/db/db_gorm: joins

    A join is built in steps ([Joiner]), prepared once as a statement, kept by name
    ([JoinQueries]) and used with filters.  Models are given by their schemas, as in
    [FilterParser]. *)
From S2P Require Import Prelude GoTime Utils Common Errors Db FilterParser GormFilter GormDB GormMem.
Open Scope go_scope.

(** ** Building (gorm_join.go, join.go) *)

(** A model as [schema.Parse] reads it. *)
Abbreviation model := (schema_Schema + error)%type.

Record JoinPair := { left_ : model; LeftField : string; right_ : model; RightField : string }.
Record JoinQueryConstructor := {
  pairs : list JoinPair; sumFields : gmap string bool; groupFields : gmap string bool; destination : option model
}.
Definition newJoinQueryConstuctor : JoinQueryConstructor :=
  {| pairs := []; sumFields := ∅; groupFields := ∅; destination := None |}.

(** The pair that [Join] has begun has no right side yet. *)
Record Joiner := { constructor_ : JoinQueryConstructor; pair_ : option (model * string) }.
Definition newJoiner : Joiner := {| constructor_ := newJoinQueryConstuctor; pair_ := None |}.

Module Joiner.
Definition Join (m : model) (field : string) (j : Joiner) : Joiner := {| constructor_ := constructor_ j; pair_ := Some (m, field) |}.
(** [None] is the panic of [On] without [Join]. *)
Definition On (m : model) (field : string) (j : Joiner) : option Joiner :=
  match pair_ j with
  | None => None
  | Some (l, lf) =>
      let c := constructor_ j in
      Some {| constructor_ := {| pairs := pairs c ++ [{| left_ := l; LeftField := lf; right_ := m; RightField := field |}];
                                 sumFields := sumFields c; groupFields := groupFields c; destination := destination c |};
              pair_ := pair_ j |}
  end.
Definition add_all (names : list string) (m : gmap string bool) : gmap string bool := foldl (fun m n => <[n := true]> m) m names.
Definition Sum (groups sums : list string) (j : Joiner) : Joiner :=
  let c := constructor_ j in
  {| constructor_ := {| pairs := pairs c; sumFields := add_all sums (sumFields c); groupFields := add_all groups (groupFields c);
                        destination := destination c |};
     pair_ := pair_ j |}.
Definition SetDestination (m : model) (c : JoinQueryConstructor) : JoinQueryConstructor :=
  {| pairs := pairs c; sumFields := sumFields c; groupFields := groupFields c; destination := Some m |}.
End Joiner.

(** ** The statement *)

Definition join_text (l r : schema_Schema) (lf rf : string) : string :=
  "JOIN " +:+ quoted (Table r) +:+ " ON " +:+ quoted (Table l) +:+ "." +:+ quoted lf +:+ "=" +:+ quoted (Table r) +:+ "." +:+ quoted rf.
Definition column_text (fd : FieldDescriptor) : string := quoted (DbTable fd) +:+ "." +:+ quoted (DbField fd).
Definition named (text : string) (fd : FieldDescriptor) : string := text +:+ " AS " +:+ quoted (DBName (Schema fd)).

Fixpoint constructJoins (ps : list JoinPair) : M Statement (option error) :=
  match ps with
  | [] => ret None
  | p :: ps =>
      match left_ p, right_ p with
      | inr err, _ => ret (Some err)
      | _, inr err => ret (Some err)
      | inl l, inl r => Join_ (join_text l r (LeftField p) (RightField p)) ;; constructJoins ps
      end
  end.

(** What is selected of one field of the destination. *)
Definition select_field (c : JoinQueryConstructor) (fd : FieldDescriptor) : list string :=
  let sums := bool_decide (sumFields c <> ∅) in
  let groups := bool_decide (groupFields c <> ∅) || sums in
  if negb groups then [named (column_text fd) fd]
  else
    (if sums && bool_decide (is_Some (sumFields c !! DBName (Schema fd))) then [named ("sum(" +:+ column_text fd +:+ ")") fd] else []) ++
    (if bool_decide (is_Some (groupFields c !! DBName (Schema fd))) then [named (column_text fd) fd] else []).

Section Join.
Context `{Mr : !MapRange}.

(** The descriptor of the destination, registered and with its fields when it was not. *)
Definition destination_descriptor (s : schema_Schema) : M ModelStore ModelDescriptor := fun store =>
  let store := match FindDescriptor (Table s) store with None => RegisterModel s store | Some _ => store end in
  let d := default {| d_Schema := s; FieldsJson := None |} (FindDescriptor (Table s) store) in
  if FieldsReady d then (d, store) else let d := ParseFields d in (d, <[Table s := d]> store).

(** Without a pair the code indexes an empty slice. *)
Definition no_pairs : error := Native "index out of range [0] with length 0".

Definition PrepareJoin (c : JoinQueryConstructor) : M ModelStore (Statement + error) := fun store =>
  match pairs c, destination c with
  | [], _ => (inr no_pairs, store)
  | _, None | _, Some (inr _) => (inr (Native "failed to parse destination model"), store)
  | ps, Some (inl s) =>
      let '(d, store) := destination_descriptor s store in
      let selects := concat (map (fun kv => select_field c kv.2) (range (default ∅ (FieldsJson d)))) in
      match (SetModel ;; Select selects ;; constructJoins ps) no_statement with
      | (Some _, _) => (inr (Native "failed to construct joins"), store)
      | (None, stmt) => (inl (for_each (fun kv => Group kv.1) (range (groupFields c)) stmt).2, store)
      end
  end.

Definition Destination (m : model) (j : Joiner) : M ModelStore (Statement + error) :=
  PrepareJoin (Joiner.SetDestination m (constructor_ j)).

(** ** Queries *)

(** A prepared query is used through a session: each call works on a copy of the statement. *)
Definition Join {R} `{Gr : !Gorm R} (g : GormDB) (t : nat) (q : Statement) (filter : option Filter) (rows : list R) :
    list R * Z * option error :=
  find false t q filter (paginator g) rows.

Record JoinQueryConfig := { Builder : M ModelStore (Statement + error); Name : string; Nocache : bool }.
Definition NewJoin (builder : M ModelStore (Statement + error)) (name : string) (nocache : list bool) : JoinQueryConfig :=
  {| Builder := builder; Name := name; Nocache := OptionalArg false nocache |}.
Abbreviation JoinQueries := (gmap string Statement).

Definition FindOrCreate (config : JoinQueryConfig) : M (JoinQueries * ModelStore) (Statement + error) := fun st =>
  let '(cache, store) := st in
  let '(q, store) :=
    match cache !! Name config with
    | Some q => if Nocache config then Builder config store else (inl q, store)
    | None => Builder config store
    end in
  match q with
  | inr err => (inr err, (cache, store))
  | inl q => (inl q, (if Nocache config then cache else <[Name config := q]> cache, store))
  end.

Definition JoinWith {R} `{Gr : !Gorm R} (g : GormDB) (t : nat) (config : JoinQueryConfig) (filter : option Filter) (rows : list R) :
    M (JoinQueries * ModelStore) (list R * Z * option error) := fun st =>
  match FindOrCreate config st with
  | (inr err, st) => (([], 0%Z, Some err), st)
  | (inl q, st) => (Join g t q filter rows, st)
  end.
End Join.

(** ** What a join asks for *)

(** The parts of a statement that filters do not touch. *)
Definition frame (s s' : Statement) : Prop :=
  Model s' = Model s /\ Selects s' = Selects s /\ Groups s' = Groups s /\ Joins s' = Joins s /\ Locking s' = Locking s.
Lemma statement_frame_trans s s' s'' : frame s s' -> frame s' s'' -> frame s s''.
Proof. unfold frame. intros (-> & -> & -> & -> & ->) (-> & -> & -> & -> & ->). done. Qed.

Section Facts.
Context `{Mr : !MapRange}.
Implicit Types (s : Statement) (f : Filter).

Lemma Paginate_frame p f pg s : let s' := (Paginate p f pg s).2 in frame s s' /\ Conds s' = Conds s.
Proof.
  unfold Paginate, bind. destruct (OptionalArg true pg); [|done].
  destruct (0 <? Offset (config f))%Z, (0 <? Limit (config f))%Z, p; done.
Qed.

Lemma SetFilter_frame f p pg s : let s' := (SetFilter (Some f) p false pg s).2 in
  frame s s' /\ Conds s' = Conds s ++ filter_conds f.
Proof.
  unfold SetFilter, bind. cbn [ret]. rewrite prepareFilter_adds.
  assert (Hs : forall b : bool, let s' := ((if b then Order (sort_text (SortField (config f)) (SortDirection (config f))) else ret tt)
    (with_conds (filter_conds f) s)).2 in frame s s' /\ Conds s' = Conds s ++ filter_conds f) by by intros [].
  specialize (Hs (bool_decide (SortField (config f) <> "") &&
    (bool_decide (SortDirection (config f) = SORT_ASC) || bool_decide (SortDirection (config f) = SORT_DESC)))).
  cbn in Hs. destruct (_ && _); destruct p as [p|]; try exact Hs; cbn [modify Order ret snd] in *;
    (match goal with |- context [Paginate (Some p) f pg ?x] => destruct (Paginate_frame (Some p) f pg x) as [H1 H2] end);
    cbn [snd]; (split; [eapply statement_frame_trans; [exact (proj1 Hs)|exact H1]|rewrite H2; exact (proj2 Hs)]).
Qed.

(** The query that is sent for a join: what was prepared, with the conditions of the filter - which are
    lost when the rows are counted. *)
Lemma Join_query {R} `{Gr : !Gorm R} (g : GormDB) t q f (rows : list R) rs n : Join g t q (Some f) rows = (rs, n, None) ->
  exists s k err, gorm_Find t s rows = (rs, k, err) /\ frame q s /\
    Conds s = Conds q ++ (if Count (config f) then [] else filter_conds f).
Proof.
  unfold Join, find. pose proof (SetFilter_frame f (paginator g) [negb (Count (config f))] q) as Hq. cbn zeta in Hq.
  destruct (SetFilter _ _ _ _ _) as [err s1]. cbn in Hq. destruct err as [err|]; [done|].
  assert (Hfind : forall s (c : Z), (let '(rs0, affected, err) := gorm_Find t s rows in
      if negb (bool_decide (err = None)) && negb (IsNotFound err) then ([], 0%Z, err)
      else (rs0, (if (affected >? c)%Z then affected else c), None)) = (rs, n, None) ->
      exists k err, gorm_Find t s rows = (rs, k, err)).
  { intros s c. destruct (gorm_Find t s rows) as [[rs' k] err] eqn:E. destruct (negb _ && _) eqn:Eb.
    - intros H. assert (err = None) as -> by congruence. by rewrite bool_decide_eq_true_2 in Eb.
    - intros H. simplify_eq. eauto. }
  destruct (Count (config f)).
  - destruct (gorm_Count t q rows) as [c err]. destruct (negb _ && _) eqn:Eb.
    + intros H. assert (err = None) as -> by congruence. by rewrite bool_decide_eq_true_2 in Eb.
    + pose proof (Paginate_frame (paginator g) f [] q) as Hp. cbn zeta in Hp. destruct (Paginate _ _ _ _) as [e s2]. cbn in Hp.
      destruct e; [done|]. intros H%Hfind. destruct H as (k & err' & Hk). exists s2, k, err'. rewrite app_nil_r. split; [done|exact Hp].
  - intros H%Hfind. destruct H as (k & err' & Hk). by exists s1, k, err'.
Qed.

Lemma constructJoins_spec ps s s' : constructJoins ps s = (None, s') -> Conds s' = Conds s /\ Selects s' = Selects s /\
  exists texts, Joins s' = Joins s ++ texts /\
    Forall2 (fun p t => exists l r, left_ p = inl l /\ right_ p = inl r /\ t = join_text l r (LeftField p) (RightField p)) ps texts.
Proof.
  revert s. induction ps as [|p ps IH]; intros s; cbn.
  - intros [= <-]. split_and!; [done..|]. exists []. by rewrite app_nil_r.
  - destruct (left_ p) as [l|] eqn:El, (right_ p) as [r|] eqn:Er; try done.
    unfold bind. cbn. intros (-> & -> & texts & -> & Hf)%IH. cbn. split_and!; [done..|].
    exists (join_text l r (LeftField p) (RightField p) :: texts). split; [by rewrite <- app_assoc|]. constructor; eauto.
Qed.

Lemma for_each_Group l s : (for_each (fun kv : string * bool => Group kv.1) l s).2 =
  {| Model := Model s; Conds := Conds s; Orders := Orders s; s_Offset := s_Offset s; s_Limit := s_Limit s; Selects := Selects s;
     Groups := Groups s ++ l.*1; Joins := Joins s; Locking := Locking s |}.
Proof.
  revert s. induction l as [|[k b] l IH]; intros s; cbn.
  - rewrite app_nil_r. by destruct s.
  - unfold bind. cbn. rewrite IH. cbn. by rewrite <- app_assoc.
Qed.

(** A prepared join has no condition, the tables of its pairs in their order, and what is selected of
    the fields of the destination. *)
Lemma PrepareJoin_statement c store q store' : PrepareJoin c store = (inl q, store') ->
  Conds q = [] /\ Groups q = (range (groupFields c)).*1 /\
  (exists dst, destination c = Some (inl dst) /\ Selects q = concat (map (fun kv => select_field c kv.2)
     (range (default ∅ (FieldsJson (destination_descriptor dst store).1))))) /\
  Forall2 (fun p t => exists l r, left_ p = inl l /\ right_ p = inl r /\ t = join_text l r (LeftField p) (RightField p)) (pairs c) (Joins q).
Proof.
  unfold PrepareJoin. destruct (pairs c) as [|p ps]; [done|]. destruct (destination c) as [[dst|]|]; [|done..].
  destruct (destination_descriptor dst store) as [d store1] eqn:Ed. unfold bind. cbn [SetModel Select modify].
  destruct (constructJoins _ _) as [[err|] s1] eqn:E; [done|]. intros [= <- _].
  rewrite for_each_Group. cbn [Conds Groups Selects Joins].
  assert (Hg : forall ps s s', constructJoins ps s = (None, s') -> Groups s' = Groups s).
  { clear. induction ps as [|p ps IH]; intros s s'; cbn; [by intros [= <-]|].
    destruct (left_ p), (right_ p); try done. unfold bind. cbn. by intros ->%IH. }
  rewrite (Hg _ _ _ E). apply constructJoins_spec in E as (-> & -> & texts & -> & Hf). split_and!; try done. exists dst. by rewrite Ed.
Qed.

(** A query is built once: later calls with the name get it whatever they would build. *)
Lemma FindOrCreate_once config st q st' config' store : FindOrCreate config st = (inl q, st') -> Nocache config = false ->
  Name config' = Name config -> Nocache config' = false -> FindOrCreate config' (st'.1, store) = (inl q, (st'.1, store)).
Proof.
  unfold FindOrCreate. destruct st as [cache store0]. intros E Hn Hname Hn'. rewrite Hn in E.
  assert (Hc : st'.1 !! Name config = Some q).
  { destruct (cache !! Name config) as [q'|].
    - injection E as <- <-. apply lookup_insert_eq.
    - destruct (Builder config store0) as [[q'|] store1]; [|done]. injection E as <- <-. apply lookup_insert_eq. }
  rewrite Hname, Hc, Hn'. cbn. f_equal. f_equal. by apply insert_id.
Qed.
End Facts.

Section Demo.
Import PoolTable.

(** A join of the pools that asks for the active ones, and for those and their number. *)
Example counted_join_ignores_filter :
  let active := Filter.AddField "active" (VBool true) NewFilter in
  let counted c := with_config {| SortField := ""; SortDirection := ""; Offset := 0; Limit := 0; Count := c |} active in
  let join c := Join db 0 (select_where []) (Some (counted c)) pools in
  names (join false).1.1 = ["eu"; "us"; "africa"] /\ names (join true).1.1 = ["eu"; "us"; "asia"; "africa"] /\
  (join true).1.2 = 4%Z.
Proof. vm_compute. done. Qed.
End Demo.
