(* ===== verification/PoolInv.v ===== *)
(** * pkg/pool: the integrity of the tables, and what clients of the controller rely on

    [integrity]: names and IDs are unique, a pool has one service per role, and every
    association refers to a pool and to a service that exist.  Every operation preserves it,
    whatever queries fail, hence every reachable state has it. *)
From S2P Require Import Prelude GoTime Utils Common Errors OpContext Db Crud PoolData Pool.
Open Scope go_scope.

(** Unique indexes respected, no empty ID. *)
Definition table_fine `{Entity R} (rs : list R) : Prop := table_ok rs /\ "" ∉ map GetID rs.

Definition integrity (w : PoolWorld) : Prop :=
  table_fine (rows (pools w)) /\ table_fine (rows (services w)) /\ table_ok (rows (associations w)) /\
  Forall (fun a => GetID a <> "" /\ POOL_ID a ∈ map GetID (rows (pools w)) /\
                   SERVICE_ID a ∈ map GetID (rows (services w))) (rows (associations w)).

(** ** Requests and reachable states *)

Inductive request :=
| ReqAddPool (p : PoolBase)
| ReqUpdatePool (id : string) (fields : Fields) (n : list bool)
| ReqDeletePool (id : string) (n : list bool)
| ReqAddService (s : PoolServiceBase)
| ReqUpdateService (id : string) (fields : Fields) (n : list bool)
| ReqDeleteService (id : string) (n : list bool)
| ReqAddServiceToPool (pId sId role : string) (n : list bool)
| ReqRemoveServiceFromPool (id role : string) (n : list bool)
| ReqRemoveAllServicesFromPool (id : string) (n : list bool)
| ReqRemoveServiceFromAllPools (id : string) (n : list bool)
| ReqGetPoolBindings (id : string) (n : list bool)
| ReqGetServiceBindings (id : string) (n : list bool).

(** Updates leave the identifier alone, under whatever spelling. *)
Definition admissible (r : request) : Prop :=
  match r with
  | ReqUpdatePool _ fields _ | ReqUpdateService _ fields _ => leaves_id fields
  | _ => True
  end.

(** Fields of the columns of a table but its identifier are such. *)
Lemma typed_admissible fields : fields !! "id" = None ->
  typed (R := PoolBase) fields = true \/ typed (R := PoolServiceBase) fields = true -> leaves_id fields.
Proof.
  intros Hid [Ht|Ht]; [apply (typed_leaves_id (R := PoolBase))|apply (typed_leaves_id (R := PoolServiceBase))]; try done;
    apply (bool_decide_unpack _); vm_compute; exact I.
Qed.

Section Requests.
Context `{!Engine PoolBase, !Engine PoolServiceBase, !Engine PoolServiceAssociationBase, JE : !JoinEngine}.
Import PoolController.
Local Abbreviation state := (St OpLogPool PoolWorld).

(** A request, its error kept. *)
Definition run (r : request) : M state (option error) :=
  match r with
  | ReqAddPool p => let* r := AddPool p in ret r.2
  | ReqUpdatePool id fields n => let* r := UpdatePool id fields n in ret r.2
  | ReqDeletePool id n => DeletePool id n
  | ReqAddService s => let* r := AddService s in ret r.2
  | ReqUpdateService id fields n => let* r := UpdateService id fields n in ret r.2
  | ReqDeleteService id n => DeleteService id n
  | ReqAddServiceToPool p s role n => AddServiceToPool p s role n
  | ReqRemoveServiceFromPool id role n => RemoveServiceFromPool id role n
  | ReqRemoveAllServicesFromPool id n => RemoveAllServicesFromPool id n
  | ReqRemoveServiceFromAllPools id n => RemoveServiceFromAllPools id n
  | ReqGetPoolBindings id n => let* r := GetPoolBindings id n in ret r.2
  | ReqGetServiceBindings id n => let* r := GetServiceBindings id n in ret r.2
  end.

Inductive step : state -> state -> Prop :=
| step_request r s : admissible r -> step s (run r s).2.
End Requests.

(** ** Preservation *)

Section Preservation.
Context `{!Engine PoolBase, !Engine PoolServiceBase, !Engine PoolServiceAssociationBase, JE : !JoinEngine}.
Context `{!EngineOk PoolBase, !EngineOk PoolServiceBase, !EngineOk PoolServiceAssociationBase}.
Implicit Types (o : Op OpLogPool) (w : PoolWorld).
Import PoolController.

(** More pools and services, or the same IDs, and no more associations. *)
Lemma integrity_mono w w' :
  integrity w ->
  table_fine (rows (pools w')) -> table_fine (rows (services w')) -> table_ok (rows (associations w')) ->
  (forall x, x ∈ map GetID (rows (pools w)) -> x ∈ map GetID (rows (pools w'))) ->
  (forall x, x ∈ map GetID (rows (services w)) -> x ∈ map GetID (rows (services w'))) ->
  (forall a, a ∈ rows (associations w') -> a ∈ rows (associations w)) ->
  integrity w'.
Proof.
  intros (_ & _ & _ & Hall) Hp Hs Ha Ip Is Ia. repeat (split; [done|]).
  rewrite Forall_forall in *. intros a Hin. destruct (Hall a (Ia a Hin)) as (? & ? & ?). auto.
Qed.

Lemma integrity_same w w' : same_rows w w' -> integrity w -> integrity w'.
Proof.
  intros (Hp & Hs & Ha) Hi. unfold same_pools, same_services, same_associations in *.
  unfold integrity. by rewrite Hp, Hs, Ha.
Qed.

Lemma integrity_associations w w' f :
  same_pools w w' -> same_services w w' ->
  rows (associations w') = List.filter f (rows (associations w)) -> integrity w -> integrity w'.
Proof.
  unfold same_pools, same_services. intros Hp Hs Ha Hi. pose proof Hi as (Kp & Ks & Ka & _).
  apply (integrity_mono w); rewrite ?Hp, ?Hs, ?Ha; try done.
  - by apply table_ok_filter.
  - intros a Hin. apply list_elem_of_In, filter_In in Hin as [Hin _]. by apply list_elem_of_In.
Qed.

Lemma table_fine_snoc `{Entity R} (rs : list R) r :
  table_fine rs -> (table_ok rs -> table_ok (rs ++ [r])) -> GetID r <> "" -> table_fine (rs ++ [r]).
Proof.
  intros [Hok Hne] Hs Hr. split; [auto|]. rewrite map_app, not_elem_of_app. split; [done|].
  intros E%list_elem_of_singleton. congruence.
Qed.

Lemma table_fine_ids `{Entity R} (rs rs' : list R) :
  table_fine rs -> (table_ok rs -> table_ok rs') -> map GetID rs' = map GetID rs -> table_fine rs'.
Proof. intros [Hok Hne] Hs E. split; [auto|]. by rewrite E. Qed.

Lemma table_fine_without `{EntityOk R} id (rs : list R) : table_fine rs -> table_fine (rows_without id rs).
Proof.
  intros [Hok Hne]. split; [by apply table_ok_filter|]. intros Hin. apply Hne.
  apply list_elem_of_fmap in Hin as (r & -> & Hr). apply elem_of_rows_without in Hr as [Hr _].
  apply list_elem_of_fmap. by exists r.
Qed.

Lemma AddPool_post_integrity p o w r o' w' : AddPool_post p o w r o' w' -> integrity w -> integrity w'.
Proof.
  intros (Hs & Ha & H) Hi. destruct r as [[p'|] [e|]]; try done.
  - destruct H as (_ & Hid & Hp & Hok & _). unfold same_services, same_associations in *.
    pose proof Hi as (Kp & Ks & Ka & _). rewrite Hp in Hok.
    apply (integrity_mono w); rewrite ?Hs, ?Ha, ?Hp; try done; [by apply table_fine_snoc|].
    intros x Hx. rewrite map_app. apply elem_of_app. by left.
  - destruct H as [Hp _]. by apply (integrity_same w).
Qed.

Lemma AddService_post_integrity s o w r o' w' : AddService_post s o w r o' w' -> integrity w -> integrity w'.
Proof.
  intros (Hp & Ha & H) Hi. destruct r as [[p'|] [e|]]; try done.
  - destruct H as (_ & Hid & Hs & Hok & _). unfold same_pools, same_associations in *.
    pose proof Hi as (Kp & Ks & Ka & _). rewrite Hs in Hok.
    apply (integrity_mono w); rewrite ?Hp, ?Ha, ?Hs; try done; [by apply table_fine_snoc|].
    intros x Hx. rewrite map_app. apply elem_of_app. by left.
  - destruct H as [Hs _]. by apply (integrity_same w).
Qed.

Lemma UpdatePool_post_integrity id fields n o w r o' w' :
  leaves_id fields ->
  UpdatePool_post id fields n o w r o' w' -> integrity w -> integrity w'.
Proof.
  intros Hl (Hs & Ha & H) Hi. pose proof Hi as (Kp & Ks & Ka & _).
  assert (Hup : forall q, updates (names_pool id n) fields (rows (pools w)) (rows (pools w')) q -> integrity w').
  { intros q (_ & _ & _ & Hok & E). specialize (E Hl).
    unfold same_services, same_associations in *.
    apply (integrity_mono w); rewrite ?Hs, ?Ha, ?E; auto. by eapply table_fine_ids. }
  destruct r as [[p'|] [e|]]; try done.
  - destruct H as (q & Hq & _). by apply (Hup q).
  - destruct H as [Hp|(q & Hq)]; [by apply (integrity_same w)|by apply (Hup q)].
Qed.

Lemma UpdateService_post_integrity id fields n o w r o' w' :
  leaves_id fields ->
  UpdateService_post id fields n o w r o' w' -> integrity w -> integrity w'.
Proof.
  intros Hl (Hp & Ha & H) Hi. pose proof Hi as (Kp & Ks & Ka & _).
  assert (Hup : forall q, updates (names_service id n) fields (rows (services w)) (rows (services w')) q -> integrity w').
  { intros q (_ & _ & _ & Hok & E). specialize (E Hl).
    unfold same_pools, same_associations in *.
    apply (integrity_mono w); rewrite ?Hp, ?Ha, ?E; auto. by eapply table_fine_ids. }
  destruct r as [[p'|] [e|]]; try done.
  - destruct H as (q & Hq & _). by apply (Hup q).
  - destruct H as [Hs|(q & Hq)]; [by apply (integrity_same w)|by apply (Hup q)].
  - destruct H as (q & Hq). by apply (Hup q).
Qed.

(** Removing the rows with an ID no association refers to. *)
Lemma ids_without `{EntityOk R} id (rs : list R) x :
  x <> id -> x ∈ map GetID rs -> x ∈ map GetID (rows_without id rs).
Proof.
  intros Hne Hx. apply list_elem_of_fmap in Hx as (r & -> & Hr). apply list_elem_of_fmap.
  exists r. split; [done|]. by apply elem_of_rows_without.
Qed.

Lemma DeletePool_post_integrity id n o w r o' w' :
  DeletePool_post id n o w r o' w' -> integrity w -> integrity w'.
Proof.
  intros (Hs & Ha & H) Hi. pose proof Hi as (Kp & Ks & Ka & Hall).
  destruct r; [by apply (integrity_same w)|]. destruct H as (pid & _ & H).
  case_decide; [by apply (integrity_same w)|]. destruct H as [Hp Hfree].
  unfold same_services, same_associations in *. unfold integrity. rewrite Hs, Ha, Hp.
  split; [by apply table_fine_without|]. do 2 (split; [done|]). rewrite Forall_forall in *.
  intros a Hin. destruct (Hall a Hin) as (? & Hp' & ?). split; [done|]. split; [|done].
  apply ids_without; [by apply Hfree|done].
Qed.

Lemma DeleteService_post_integrity id n o w r o' w' :
  DeleteService_post id n o w r o' w' -> integrity w -> integrity w'.
Proof.
  intros (Hp & Ha & H) Hi. pose proof Hi as (Kp & Ks & Ka & Hall).
  destruct r; [by apply (integrity_same w)|]. destruct H as (sid & _ & H).
  case_decide; [by apply (integrity_same w)|]. destruct H as [Hs Hfree].
  unfold same_pools, same_associations in *. unfold integrity. rewrite Hs, Ha, Hp.
  split; [done|]. split; [by apply table_fine_without|]. split; [done|]. rewrite Forall_forall in *.
  intros a Hin. destruct (Hall a Hin) as (? & ? & ?). split; [done|]. split; [done|].
  apply ids_without; [by apply Hfree|done].
Qed.

Lemma AddServiceToPool_post_integrity p s role n o w r o' w' :
  AddServiceToPool_post p s role n o w r o' w' -> integrity w -> integrity w'.
Proof.
  intros (Hp & Hs & H) Hi. pose proof Hi as (Kp & Ks & Ka & Hall).
  destruct r; [by apply (integrity_same w)|].
  destruct H as (q & t & a & Hq & _ & Ht & _ & E1 & E2 & _ & Hid & _ & Hc & Hok).
  unfold same_pools, same_services in *. unfold integrity. rewrite Hp, Hs.
  do 2 (split; [done|]). split; [auto|]. rewrite Hc. apply Forall_app. split; [done|].
  apply Forall_singleton. split; [done|]. rewrite E1, E2. split; apply list_elem_of_fmap; eauto.
Qed.

Lemma RemoveServiceFromPool_post_integrity id role n o w r o' w' :
  RemoveServiceFromPool_post id role n o w r o' w' -> integrity w -> integrity w'.
Proof.
  intros (Hp & Hs & H) Hi. destruct r; [by apply (integrity_same w)|]. destruct H as (pid & _ & H).
  case_decide; [by apply (integrity_same w)|]. destruct H as [[Ha _]|(a & Hin & _ & _ & Hd)].
  - by apply (integrity_same w).
  - pose proof Hi as (_ & _ & _ & Hall). rewrite Forall_forall in Hall.
    eapply integrity_associations; [done|done| |done]. apply Hd. by apply Hall.
Qed.

Lemma RemoveAll_integrity w w' sel (r : option error) :
  same_pools w w' -> same_services w w' ->
  (match r with
   | None => exists x, if decide (x = "") then same_associations w w'
                       else rows (associations w') = List.filter (sel x) (rows (associations w))
   | Some _ => same_associations w w'
   end) -> integrity w -> integrity w'.
Proof.
  intros Hp Hs H Hi. destruct r; [by apply (integrity_same w)|]. destruct H as (x & H).
  case_decide; [by apply (integrity_same w)|by eapply integrity_associations].
Qed.

Lemma spec_join_query filter (Q : list PoolServiceBinding * option error -> Op OpLogPool -> PoolWorld -> Prop) o w :
  (forall bs e t w', same_rows w w' -> eng_join t filter w = (bs, e) -> Q (bs, e) o w') ->
  spec (join_query filter) Q o w.
Proof.
  intros HQ. unfold join_query. spec_go. apply spec_on_ext. cbn.
  destruct (eng_join _ _ _) as [bs [e|]] eqn:E; spec_go; by eapply HQ.
Qed.

Lemma spec_GetPoolBindings id n (Q : list PoolServiceBinding * option error -> Op OpLogPool -> PoolWorld -> Prop) o w :
  (forall bs e o' w', same_rows w w' ->
     (e = None -> bs = [] \/ exists t w1, same_rows w w1 /\
        eng_join t (Filter.AddField "pools.id" (VStr id) NewFilter) w1 = (bs, None)) -> Q (bs, e) o' w') ->
  (OptionalArg false n = false -> id <> "" ->
     forall bs t w', same_rows w w' ->
       eng_join t (Filter.AddField "pools.id" (VStr id) NewFilter) w = (bs, None) -> Q (bs, None) o w') ->
  spec (GetPoolBindings id n) Q o w.
Proof.
  intros HQ HQ'. unfold GetPoolBindings. spec_go. apply spec_PoolId.
  - intros En. spec_go. destruct (decide (id = "")); [spec_go; by apply HQ; auto|].
    spec_go. apply spec_join_query. intros bs [e|] t w' Hw E; spec_go; [by apply HQ|by eapply HQ'].
  - intros _ p _ _. spec_go. destruct (decide _); [spec_go; by apply HQ; auto|].
    spec_go. apply spec_join_query. intros bs [e|] t w' Hw E; spec_go; [by apply HQ|].
    apply HQ; [done|]. intros _. right. by exists t, (touch_pools w).
  - intros _ _. spec_go. rewrite decide_True by done. spec_go. by apply HQ; auto.
  - intros e. spec_go. by apply HQ.
Qed.

Lemma spec_GetServiceBindings id n (Q : list PoolServiceBinding * option error -> Op OpLogPool -> PoolWorld -> Prop) o w :
  (forall bs e o' w', same_rows w w' -> Q (bs, e) o' w') -> spec (GetServiceBindings id n) Q o w.
Proof.
  intros HQ. unfold GetServiceBindings. spec_go. apply spec_ServiceId_resolves.
  intros sid e o1 w1 Hw _ _. destruct e; spec_go; [by apply HQ|].
  destruct (decide _); [spec_go; by apply HQ|]. spec_go. apply spec_join_query.
  intros bs [e|] t w' (? & ? & ?) E; spec_go; apply HQ; destruct Hw as (? & ? & ?);
    unfold same_rows, same_pools, same_services, same_associations in *; repeat split; congruence.
Qed.

(** The two removals by a column. *)
Lemma RemoveAllServicesFromPool_post_integrity id n o w r o' w' :
  RemoveAllServicesFromPool_post id n o w r o' w' -> integrity w -> integrity w'.
Proof.
  intros (Hp & Hs & H).
  apply (RemoveAll_integrity w w' (fun x a => negb (bool_decide (POOL_ID a = x))) r Hp Hs).
  destruct r; [exact H|]. destruct H as (x & _ & H). by exists x.
Qed.

Lemma RemoveServiceFromAllPools_post_integrity id n o w r o' w' :
  RemoveServiceFromAllPools_post id n o w r o' w' -> integrity w -> integrity w'.
Proof.
  intros (Hp & Hs & H).
  apply (RemoveAll_integrity w w' (fun x a => negb (bool_decide (SERVICE_ID a = x))) r Hp Hs).
  destruct r; [exact H|]. destruct H as (x & _ & H). by exists x.
Qed.

(** Proves the preservation of one request from its specification and its lemma. *)
Ltac preserve spec_lemma post_lemma :=
  spec_go; eapply spec_mono; [|apply spec_lemma]; cbn beta; intros ??? Hpost; spec_go;
  by eapply post_lemma.

Lemma run_integrity r o w :
  admissible r -> integrity w -> spec (run r) (fun _ _ w' => integrity w') o w.
Proof.
  intros Hr Hi. destruct r; cbn [run admissible] in *.
  - preserve AddPool_spec AddPool_post_integrity.
  - preserve UpdatePool_spec UpdatePool_post_integrity.
  - preserve DeletePool_spec DeletePool_post_integrity.
  - preserve AddService_spec AddService_post_integrity.
  - preserve UpdateService_spec UpdateService_post_integrity.
  - preserve DeleteService_spec DeleteService_post_integrity.
  - preserve AddServiceToPool_spec AddServiceToPool_post_integrity.
  - preserve RemoveServiceFromPool_spec RemoveServiceFromPool_post_integrity.
  - preserve RemoveAllServicesFromPool_spec RemoveAllServicesFromPool_post_integrity.
  - preserve RemoveServiceFromAllPools_spec RemoveServiceFromAllPools_post_integrity.
  - spec_go. apply spec_GetPoolBindings; intros; spec_go; by eapply integrity_same.
  - spec_go. apply spec_GetServiceBindings; intros; spec_go; by eapply integrity_same.
Qed.
End Preservation.

(** ** Reachable states, and what a client sees *)

Section Clients.
Context `{!Engine PoolBase, !Engine PoolServiceBase, !Engine PoolServiceAssociationBase, JE : !JoinEngine}.
Context `{!EngineOk PoolBase, !EngineOk PoolServiceBase, !EngineOk PoolServiceAssociationBase}.
Implicit Types (o : Op OpLogPool) (w : PoolWorld) (s : St OpLogPool PoolWorld).
Import PoolController.

(** [C9] Integrity of the tables in every reachable state: whatever the requests, in whatever
    order, and whatever queries of theirs fail, the names of pools and of services stay unique,
    a pool has one service per role, and the pool and the service of every association exist. *)
Theorem reachable_integrity s s' : rtc step s s' -> integrity (st_ext s) -> integrity (st_ext s').
Proof.
  induction 1 as [|s s1 s' Hstep _ IH]; [done|]. intros Hi. apply IH.
  destruct Hstep as [r [t o w] Hr]. exact (run_integrity r o w Hr Hi t).
Qed.

(** Updating a pool: in an unambiguous table a successful [UpdatePool] returns the pool
    the argument names, each given column holding its new value and every other column but the
    time of the update its old one. *)
Theorem UpdatePool_columns id fields n p' s o' :
  integrity (st_ext s) -> typed (R := PoolBase) fields = true -> fields !! "id" = None ->
  (let r := UpdatePool id fields n s in r.1 = (Some p', None) /\ st_op r.2 = o') ->
  exists p, p ∈ rows (pools (st_ext s)) /\ names_pool id n p /\
    forall k, k <> "updated_at" ->
      column k p' = match fields !! k with Some v => Some v | None => column k p end.
Proof.
  intros ((Kp & _) & _) Ht Hid [Hr _]. destruct s as [t o w]. cbn in Kp.
  pose proof (UpdatePool_spec id fields n o w t) as (_ & _ & H). rewrite Hr in H.
  destruct H as (q & (Hq & Hn & [now E] & Hok & _) & Hin & Hp'). exists q. do 2 (split; [done|]).
  intros k Hk. specialize (E Ht). specialize (Hp' Hid). specialize (Hok Kp).
  set (f := <["updated_at" := VTime now]> fields) in *.
  assert (Hf : typed (R := PoolBase) f = true) by (by apply typed_insert).
  assert (Hfid : f !! "id" = None) by (unfold f; by rewrite lookup_insert_ne).
  assert (p' = assign_all f q) as ->.
  { rewrite E in Hin, Hok. apply list_elem_of_In, in_map_iff in Hin as (q' & Hq' & Hin).
    apply list_elem_of_In in Hin.
    assert (GetID q' = GetID q) as Hids.
    { rewrite <- Hp', <- Hq'. destruct (matches _ q'); [by rewrite GetID_assign_all|done]. }
    assert (q' = q) as ->.
    { eapply (unique_id_inj ["id"]); [|exact Kp|done|done|].
      - apply list_elem_of_In. by left.
      - by apply index_key_id. }
    rewrite <- Hq'. by rewrite matches_id, bool_decide_eq_true_2. }
  rewrite column_assign_all by done. unfold f. by rewrite lookup_insert_ne by done.
Qed.

(** Deleting a pool: a pool with bound services is never deleted; a successful deletion
    removes every pool with the ID the argument stands for, and only those, and leaves the
    associations and the services as they were. *)
Theorem DeletePool_effect id n s :
  let r := DeletePool id n s in
  (r.1 = None -> exists pid, resolves_pool id n (st_ext s) pid /\
     (pid <> "" -> Forall (fun a => POOL_ID a <> pid) (rows (associations (st_ext s))) /\
        forall p, p ∈ rows (pools (st_ext r.2)) <-> p ∈ rows (pools (st_ext s)) /\ GetID p <> pid)) /\
  (r.1 <> None -> rows (pools (st_ext r.2)) = rows (pools (st_ext s))) /\
  rows (services (st_ext r.2)) = rows (services (st_ext s)) /\
  rows (associations (st_ext r.2)) = rows (associations (st_ext s)).
Proof.
  destruct s as [t o w]. cbn zeta. destruct (DeletePool_spec id n o w t) as (Hs & Ha & H).
  split; [|split; [|split; [exact Hs|exact Ha]]].
  - intros E. rewrite E in H. destruct H as (pid & Hres & H). exists pid. split; [exact Hres|].
    intros Hne. rewrite decide_False in H by done. destruct H as [E1 Hall]. split; [exact Hall|].
    intros p. rewrite E1. apply elem_of_rows_without.
  - intros Hne. destruct ((DeletePool id n _).1) eqn:E; [exact H|done].
Qed.

(** Adding a pool and finding it: after a successful [AddPool], [FindPool] by the pool's
    name or by its ID either reports a failure of the database or returns that pool. *)
Theorem AddPool_FindPool p p' (byName : bool) s :
  integrity (st_ext s) -> (AddPool p s).1 = (Some p', None) ->
  let r := FindPool (if byName then p_NAME p else GetID p') [byName] (AddPool p s).2 in
  r.1 = (Some p', None) \/ exists e, r.1 = (None, Some e).
Proof.
  intros ((Kp & _) & _) Hr. destruct s as [t o w]. cbn in Kp.
  pose proof (AddPool_spec p o w t) as (_ & _ & H). rewrite Hr in H.
  destruct H as (Hp' & _ & Hrows & Hok & Hfree & _). specialize (Hok Kp).
  destruct (AddPool p (Build_St t o w)).2 as [t1 o1 w1]. cbn in *.
  assert (Hin : p' ∈ rows (pools w1)) by (rewrite Hrows; apply elem_of_app; right; by apply list_elem_of_singleton).
  refine (spec_FindPool _ [byName] (fun r _ _ => r = (Some p', None) \/ exists e, r = (None, Some e)) o1 w1 _ _ _ t1).
  - intros q Hq Hm. left. apply names_pool_matches in Hm. unfold names_pool in Hm. cbn in Hm.
    f_equal. f_equal. destruct byName.
    + eapply (unique_id_inj ["name"]); [|exact Hok|done|done|].
      * apply list_elem_of_In. right. by left.
      * unfold index_key. cbn [map]. rewrite !pool_name_column, Hm. by rewrite Hp'.
    + eapply (unique_id_inj ["id"]); [|exact Hok|done|done|].
      * apply list_elem_of_In. by left.
      * by apply index_key_id.
  - intros Hall. exfalso. rewrite Forall_forall in Hall. specialize (Hall _ Hin).
    apply not_true_iff_false in Hall. apply Hall, names_pool_matches. unfold names_pool. cbn.
    destruct byName; [by rewrite Hp'|done].
  - intros e. right. by exists e.
Qed.

(** Binding a service: a successful [AddServiceToPool] adds one association, between the
    pool and the service the arguments name and under the role, and a role already taken in the
    pool is never given to a second service. *)
Theorem AddServiceToPool_effect pId sId role n s :
  let r := AddServiceToPool pId sId role n s in
  (r.1 = None -> exists p sv a,
     p ∈ rows (pools (st_ext s)) /\ names_pool pId n p /\
     sv ∈ rows (services (st_ext s)) /\ names_service sId n sv /\
     rows (associations (st_ext r.2)) = rows (associations (st_ext s)) ++ [a] /\
     POOL_ID a = GetID p /\ SERVICE_ID a = GetID sv /\ ROLE a = role /\
     Forall (fun a' => POOL_ID a' = GetID p -> ROLE a' <> role) (rows (associations (st_ext s)))) /\
  (r.1 <> None -> rows (associations (st_ext r.2)) = rows (associations (st_ext s))).
Proof.
  destruct s as [t o w]. cbn zeta. destruct (AddServiceToPool_spec pId sId role n o w t) as (_ & _ & H).
  split.
  - intros E. rewrite E in H.
    destruct H as (p & sv & a & Hp & Hpn & Hs & Hsn & E1 & E2 & E3 & _ & Hfree & [Hc _]).
    exists p, sv, a. do 4 (split; [done|]). split; [exact Hc|]. do 3 (split; [done|]).
    eapply Forall_impl; [exact Hfree|]. cbn beta. naive_solver.
  - intros Hne. destruct ((AddServiceToPool _ _ _ _ _).1); [exact H|done].
Qed.
End Clients.

(** ** A database for the examples *)

Definition no_fault (t : nat) : option error := None.

(** The join over the rows in memory, for the two filters of the controller. *)
Definition mem_join : JoinEngine := {|
  eng_join _ f w :=
    match f_Fields f !! "pools.id", f_Fields f !! "pool_services.id" with
    | Some (VStr id), _ => (joined (fun p _ => bool_decide (GetID p = id)) w, None)
    | None, Some (VStr id) => (joined (fun _ s => bool_decide (GetID s = id)) w, None)
    | _, _ => ([], Some (Native "unsupported filter"))
    end
|}.

Lemma mem_join_ok : @JoinEngineOk mem_join.
Proof. split; intros t id w bs [= <-]; done. Qed.

Module Demo.
#[export] Instance pools_db : Engine PoolBase := mem_engine no_fault.
#[export] Instance services_db : Engine PoolServiceBase := mem_engine no_fault.
#[export] Instance associations_db : Engine PoolServiceAssociationBase := mem_engine no_fault.
#[export] Instance pools_db_ok : EngineOk PoolBase := mem_engine_ok no_fault.
#[export] Instance services_db_ok : EngineOk PoolServiceBase := mem_engine_ok no_fault.
#[export] Instance associations_db_ok : EngineOk PoolServiceAssociationBase := mem_engine_ok no_fault.
#[export] Existing Instances mem_join mem_join_ok.

Definition env : Env :=
  {| env_now := fun t => (Z.of_nat t * second)%Z; env_rand := fun t => Z.of_nat (S t); env_tick := 0; idCount := 0 |}.
Definition empty {R} : table R := {| rows := []; queries := 0 |}.
Definition op : Op OpLogPool :=
  {| op_id := "op1"; op_name := "demo"; genericError := None; oplogs := [];
     errorManager := ErrorManagerBase.InitHttp; dbTransaction := false; errorAsWarn := false;
     writeCloseLog := true; origin := None; logs := [] |}.
Definition start : St OpLogPool PoolWorld :=
  Build_St trace0 op {| pools := empty; services := empty; associations := empty; pw_env := env |}.

Definition pool (name : string) : PoolBase :=
  {| p_base := ObjectBase.zero; p_NAME := name; p_LONG_NAME := ""; p_DESCRIPTION := ""; p_ACTIVE := false |}.
Definition service (name : string) : PoolServiceBase :=
  {| s_base := ObjectBase.zero; s_NAME := name; s_data := zero_data |}.

(** Two pools and a service, bound to the first pool. *)
Definition setup : list request :=
  [ReqAddPool (pool "main"); ReqAddPool (pool "spare"); ReqAddService (service "sql");
   ReqAddServiceToPool "main" "sql" "db" [true]].
Definition run_all (l : list request) (s : St OpLogPool PoolWorld) : St OpLogPool PoolWorld :=
  foldl (fun s r => (run r s).2) s l.
Definition ready : St OpLogPool PoolWorld := run_all setup start.
End Demo.

Section Witnesses.
Import Demo PoolController.

Lemma start_integrity : integrity (st_ext start).
Proof. repeat split; try (cbn; set_solver); repeat constructor. Qed.

Lemma run_all_step l s : Forall admissible l -> rtc step s (run_all l s).
Proof.
  revert s; induction l as [|r l IH]; intros s Hl; [done|]. apply Forall_cons in Hl as [Hr Hl].
  eapply rtc_l; [by constructor|]. by apply IH.
Qed.

Lemma setup_admissible : Forall admissible setup.
Proof. by repeat constructor. Qed.

Lemma ready_rows :
  map p_NAME (rows (pools (st_ext ready))) = ["main"; "spare"] /\
  map ROLE (rows (associations (st_ext ready))) = ["db"].
Proof. vm_compute. done. Qed.

Lemma reachable_integrity_witness : integrity (st_ext ready).
Proof.
  apply (reachable_integrity start ready).
  - apply run_all_step, setup_admissible.
  - exact start_integrity.
Defined.

Lemma ready_integrity : integrity (st_ext ready).
Proof.
  pose proof (run_all_step setup start setup_admissible) as H. fold ready in H.
  revert H. generalize start_integrity. generalize start, ready. intros s s' Hi Hs. revert Hi.
  induction Hs as [|s s1 s' Hstep _ IH]; [done|]. intros Hi. apply IH.
  destruct Hstep as [r [t o w] Hr]. exact (run_integrity r o w Hr Hi t).
Qed.

Lemma UpdatePool_columns_witness :
  exists p p', p ∈ rows (pools (st_ext ready)) /\ p_NAME p = "main" /\
    (UpdatePool "main" {["active" := VBool true]} [true] ready).1 = (Some p', None) /\
    column "active" p' = Some (VBool true) /\ column "name" p' = column "name" p.
Proof.
  destruct (UpdatePool "main" {["active" := VBool true]} [true] ready) as [[p1 e1] s1] eqn:E.
  assert (H : exists p', p1 = Some p' /\ e1 = None).
  { apply (f_equal fst) in E. vm_compute in E. injection E as <- <-. eexists. split; reflexivity. }
  destruct H as (p' & -> & ->).
  destruct (UpdatePool_columns "main" {["active" := VBool true]} [true] p' ready (st_op s1))
    as (p & Hp & Hn & Hc).
  - exact ready_integrity.
  - reflexivity.
  - reflexivity.
  - rewrite E. split; reflexivity.
  - exists p, p'. split; [exact Hp|]. split; [exact Hn|]. split; [reflexivity|].
    split; (etransitivity; [apply Hc; discriminate|reflexivity]).
Defined.

Lemma AddPool_FindPool_witness :
  exists p', (AddPool (pool "third") ready).1 = (Some p', None) /\
    ((FindPool "third" [true] (AddPool (pool "third") ready).2).1 = (Some p', None) \/
     exists e, (FindPool "third" [true] (AddPool (pool "third") ready).2).1 = (None, Some e)).
Proof.
  assert (H : exists p', (AddPool (pool "third") ready).1 = (Some p', None))
    by (eexists; vm_compute; reflexivity).
  destruct H as [p' E]. exists p'. split; [exact E|].
  exact (AddPool_FindPool (pool "third") p' true ready ready_integrity E).
Defined.

(** The spare pool can be deleted, the main one has a service. *)
Lemma spare_deleted : (DeletePool "spare" [true] ready).1 = None.
Proof. vm_compute. reflexivity. Qed.
Lemma main_kept : (DeletePool "main" [true] ready).1 <> None.
Proof.
  assert (Hr : exists e, (DeletePool "main" [true] ready).1 = Some e) by (eexists; vm_compute; reflexivity).
  destruct Hr as [e Hr]. by rewrite Hr.
Qed.
Lemma resolves_nonempty name w pid :
  integrity w -> name ∈ map p_NAME (rows (pools w)) -> resolves_pool name [true] w pid -> pid <> "".
Proof.
  intros ((_ & Hid) & _) Hname [(p0 & Hin & _ & ->)|[Hall _]].
  - intros E. apply Hid. rewrite <- E. by apply list_elem_of_fmap_2.
  - apply list_elem_of_fmap_1 in Hname as (p0 & -> & Hin). rewrite Forall_forall in Hall. by destruct (Hall p0 Hin).
Qed.
Lemma spare_there : "spare" ∈ map p_NAME (rows (pools (st_ext ready))).
Proof. rewrite (proj1 ready_rows). apply list_elem_of_In. right. by left. Qed.

Lemma DeletePool_effect_witness :
  (forall p, p ∈ rows (pools (st_ext (DeletePool "spare" [true] ready).2)) -> p ∈ rows (pools (st_ext ready))) /\
  rows (pools (st_ext (DeletePool "main" [true] ready).2)) = rows (pools (st_ext ready)).
Proof.
  split.
  - intros p Hp. destruct (proj1 (DeletePool_effect "spare" [true] ready) spare_deleted) as (pid & Hres & Hdel).
    pose proof (resolves_nonempty "spare" (st_ext ready) pid ready_integrity spare_there Hres) as Hne.
    exact (proj1 (proj1 (proj2 (Hdel Hne) p) Hp)).
  - exact (proj1 (proj2 (DeletePool_effect "main" [true] ready)) main_kept).
Defined.

Lemma spare_bound : (AddServiceToPool "spare" "sql" "db" [true] ready).1 = None.
Proof. vm_compute. reflexivity. Qed.

Lemma AddServiceToPool_effect_witness :
  let r := AddServiceToPool "spare" "sql" "db" [true] ready in
  r.1 = None /\ exists a, rows (associations (st_ext r.2)) = rows (associations (st_ext ready)) ++ [a] /\ ROLE a = "db".
Proof.
  split; [exact spare_bound|].
  destruct (proj1 (AddServiceToPool_effect "spare" "sql" "db" [true] ready) spare_bound)
    as (p & sv & a & _ & _ & _ & _ & Ha & _ & _ & Hr & _). exact (ex_intro _ a (conj Ha Hr)).
Defined.

(** The service of a pool asked for by its name is not returned: the query compares the ID of
    the pool with the name. *)
Lemma GetPoolBindings_by_name_empty :
  map pb_ROLE (GetPoolBindings "main" [true] ready).1.1 = [] /\
  map pb_ROLE (GetPoolBindings (PoolId_ 0 "main" [true] ready).1.1 [] ready).1.1 = ["db"].
Proof. split; vm_compute; reflexivity. Qed.

(** The operation log of an update of a pool has the pool's name in the field of a service. *)
Lemma UpdatePool_oplog :
  let l := map payload (oplogs (st_op (UpdatePool "main" {["description" := VStr "d"]} [true] ready).2)) in
  option_map ServiceName (last l) = Some "main" /\ option_map PoolName (last l) = Some "".
Proof. split; vm_compute; reflexivity. Qed.
End Witnesses.
