(* ===== verification/PoolStore.v ===== *)
(** * pkg/pool: loading pools with their services, and the pool store

    [LoadPool] reads a pool and its bindings; a loaded pool answers [Service role].  The store
    loads either every pool of the database or its own pool, and answers by ID and by name. *)
From S2P Require Import Prelude GoTime Utils Common Errors OpContext Db Crud PoolData Pool PoolInv.
Open Scope go_scope.

(** ** Pools with services (pool.go) *)

Record LoadedPool := { lp_pool : PoolBase; Services : gmap string PoolServiceBinding }.

Definition Service (role : string) (p : LoadedPool) : PoolServiceBinding + error :=
  match Services p !! role with
  | Some service => inl service
  | None => inr (Native "service not found")
  end.

Definition SetServices (services : list PoolServiceBinding) (p : PoolBase) : LoadedPool :=
  {| lp_pool := p; Services := foldl (fun m b => <[pb_ROLE b := b]> m) ∅ services |}.

(** ** The store (pool_store.go, LoadPool of pool_controller.go) *)

Record PoolStoreBase := {
  selfPool : option LoadedPool;
  poolsByName : gmap string LoadedPool;
  poolsById : gmap string LoadedPool
}.

Definition NewPoolStore : PoolStoreBase := {| selfPool := None; poolsByName := ∅; poolsById := ∅ |}.

Definition store_pool (pool : LoadedPool) (st : PoolStoreBase) : PoolStoreBase :=
  {| selfPool := selfPool st;
     poolsByName := <[p_NAME (lp_pool pool) := pool]> (poolsByName st);
     poolsById := <[GetID (lp_pool pool) := pool]> (poolsById st) |}.

Definition SelfPool (st : PoolStoreBase) : LoadedPool + error :=
  match selfPool st with Some p => inl p | None => inr (Native "self pool undefined") end.
Definition Pool (id : string) (st : PoolStoreBase) : LoadedPool + error :=
  match poolsById st !! id with Some p => inl p | None => inr (Native "pool not found") end.
Definition PoolByName (name : string) (st : PoolStoreBase) : LoadedPool + error :=
  match poolsByName st !! name with Some p => inl p | None => inr (Native "pool not found") end.
Definition Pools (st : PoolStoreBase) : list LoadedPool := AllMapValues (poolsById st).

Section Store.
Context `{!Engine PoolBase, !Engine PoolServiceBase, !Engine PoolServiceAssociationBase, JE : !JoinEngine}.
Import PoolController.
Local Abbreviation act := (M (St OpLogPool PoolWorld)).

Definition LoadPool (id : string) (idIsName : list bool) : act (option LoadedPool * option error) :=
  traced_exit "LoadPool" (fun c =>
    let* '(pool, err) := FindPool id idIsName in
    match err, pool with
    | Some _, _ => ret ((None, err), err)
    | None, None => ret ((None, None), None)
    | None, Some pool =>
        let* '(services, err) := GetPoolBindings (GetID pool) [] in
        match err with
        | Some _ => ret ((None, err), err)
        | None => ret ((Some (SetServices services pool), None), None)
        end
    end).

(** The closure [loadServices] of [Init], with the call context of [Init]. *)
Definition loadServices (c : nat) (pool : PoolBase) : act (LoadedPool * option error) :=
  let* '(services, err) := GetPoolBindings (GetID pool) [] in
  match err with
  | Some _ =>
      SetMessage c "failed to load pool services" ;;
      SetError c err ;;
      ret ({| lp_pool := pool; Services := ∅ |}, err)
  | None => ret (SetServices services pool, None)
  end.

Fixpoint load_all (c : nat) (pools : list PoolBase) (st : PoolStoreBase) : act (PoolStoreBase * option error) :=
  match pools with
  | [] => ret (st, None)
  | pool :: r =>
      let* '(loaded, err) := loadServices c pool in
      match err with
      | Some _ => ret (st, err)
      | None => load_all c r (store_pool loaded st)
      end
  end.

(** [loaded] is the outcome of reading the configuration: the configured name of the pool of
    this application, or an error. *)
Definition Init (loaded : string + error) (st : PoolStoreBase) : act (PoolStoreBase * option error) :=
  traced "PoolStore.Init" (fun c =>
    match loaded with
    | inr e =>
        SetMessage c "failed to init PoolStore" ;;
        let* err := SetError c (Some e) in ret (st, err)
    | inl "" =>
        let* '(pools, _, err) := GetPools None in
        match err with
        | Some _ => SetMessage c "failed to load pools" ;; SetError c err ;; ret (st, err)
        | None => load_all c pools st
        end
    | inl POOL_NAME =>
        let* '(pool, err) := FindPool POOL_NAME [true] in
        match err, pool with
        | Some _, _ => SetMessage c "failed to load self pool" ;; SetError c err ;; ret (st, err)
        | None, None => let* err := SetErrorStr c "self pool not found" in ret (st, err)
        | None, Some pool =>
            let* '(loaded, err) := loadServices c pool in
            match err with
            | Some _ => ret (st, err)
            | None =>
                let st := store_pool loaded st in
                ret ({| selfPool := Some loaded; poolsByName := poolsByName st;
                        poolsById := poolsById st |}, None)
            end
        end
    end).
End Store.

(** ** What a loaded pool answers *)

Lemma SetServices_snoc bs b p :
  Services (SetServices (bs ++ [b]) p) = <[pb_ROLE b := b]> (Services (SetServices bs p)).
Proof. unfold SetServices. cbn. by rewrite foldl_app. Qed.

(** The last binding of a role wins. *)
Lemma SetServices_lookup bs p role b :
  Services (SetServices bs p) !! role = Some b -> b ∈ bs /\ pb_ROLE b = role.
Proof.
  induction bs as [|x bs IH] using rev_ind; [cbn; by rewrite lookup_empty|].
  rewrite SetServices_snoc, lookup_insert_Some, elem_of_app, list_elem_of_singleton.
  intros [[Hr ->]|[_ Hb]]; [auto|]. destruct (IH Hb). auto.
Qed.

Lemma SetServices_is_Some bs p b :
  b ∈ bs -> is_Some (Services (SetServices bs p) !! pb_ROLE b).
Proof.
  induction bs as [|x bs IH] using rev_ind; [by intros ?%not_elem_of_nil|].
  rewrite SetServices_snoc, lookup_insert_is_Some, elem_of_app, list_elem_of_singleton.
  intros [Hin|<-]; [|by left]. destruct (decide (pb_ROLE x = pb_ROLE b)); [by left|]. right. auto.
Qed.

(** Membership in the joined rows. *)
Lemma elem_of_joined sel w b :
  b ∈ joined sel w <-> exists a p s, a ∈ rows (associations w) /\ p ∈ rows (pools w) /\ s ∈ rows (services w) /\
    POOL_ID a = GetID p /\ SERVICE_ID a = GetID s /\ sel p s = true /\ b = binding a p s.
Proof.
  unfold joined. rewrite list_elem_of_In, in_flat_map. split.
  - intros (a & Ha & Hin). rewrite in_flat_map in Hin. destruct Hin as (p & Hp & Hin).
    rewrite in_flat_map in Hin. destruct Hin as (s & Hs & Hin).
    destruct (_ && _) eqn:E; [|done]. destruct Hin as [<-|[]]. rewrite !andb_true_iff in E.
    destruct E as [[E1%bool_decide_eq_true E2%bool_decide_eq_true] E3].
    exists a, p, s. by rewrite !list_elem_of_In.
  - intros (a & p & s & Ha & Hp & Hs & E1 & E2 & E3 & ->). rewrite !list_elem_of_In in *.
    exists a. split; [done|]. apply in_flat_map. exists p. split; [done|]. apply in_flat_map. exists s.
    split; [done|]. rewrite !bool_decide_eq_true_2, E3 by done. by left.
Qed.

(** The services of the pool [p], by role, as the tables have them. *)
Definition pool_services (w : PoolWorld) (p : PoolBase) (role : string) (b : PoolServiceBinding) : Prop :=
  exists a s, a ∈ rows (associations w) /\ s ∈ rows (services w) /\
    POOL_ID a = GetID p /\ SERVICE_ID a = GetID s /\ ROLE a = role /\ b = binding a p s.

(** In tables with integrity a role determines the association and the service. *)
Lemma pool_services_unique w p role b b' :
  integrity w -> pool_services w p role b -> pool_services w p role b' -> b = b'.
Proof.
  intros (_ & (Ks & _) & Ka & _) (a & s & Ha & Hs & E1 & E2 & E3 & ->) (a' & s' & Ha' & Hs' & E1' & E2' & E3' & ->).
  assert (a = a') as <-.
  { eapply (unique_id_inj ["pool_id"; "role"]); [|exact Ka|done|done|].
    - apply list_elem_of_In. right. by left.
    - unfold index_key. cbn [map]. destruct (association_columns_eq a) as (-> & -> & _).
      destruct (association_columns_eq a') as (-> & -> & _). congruence. }
  assert (s = s') as <-; [|done].
  eapply (unique_id_inj ["id"]); [|exact Ks|done|done|].
  - apply list_elem_of_In. by left.
  - apply index_key_id. congruence.
Qed.

Definition loaded_ok (w : PoolWorld) (p : PoolBase) (l : LoadedPool) : Prop :=
  lp_pool l = p /\ forall role b, Service role l = inl b <-> pool_services w p role b.

Lemma SetServices_ok w p bs :
  integrity w -> p ∈ rows (pools w) -> bs ≡ₚ joined (fun q _ => bool_decide (GetID q = GetID p)) w ->
  loaded_ok w p (SetServices bs p).
Proof.
  intros Hi Hp Hbs. split; [done|].
  assert (Hin : forall b, b ∈ bs <-> pool_services w p (pb_ROLE b) b).
  { intros b. rewrite Hbs, elem_of_joined. split.
    - intros (a & q & s & Ha & Hq & Hs & E1 & E2 & E3%bool_decide_eq_true & ->).
      assert (q = p) as ->; [|by exists a, s].
      destruct Hi as ((Kp & _) & _). eapply (unique_id_inj ["id"]); [|exact Kp|done|done|by apply index_key_id].
      apply list_elem_of_In. by left.
    - intros (a & s & Ha & Hs & E1 & E2 & E3 & ->). exists a, p, s. by rewrite bool_decide_eq_true_2. }
  intros role b. unfold Service. split.
  - destruct (Services _ !! role) eqn:E; [|done]. intros [= ->].
    apply SetServices_lookup in E as [Hb <-]. by apply Hin.
  - intros Hb. assert (pb_ROLE b = role) as Hr by (by destruct Hb as (a & s & _ & _ & _ & _ & <- & ->)).
    destruct (SetServices_is_Some bs p b) as [b' E]; [rewrite Hin; by rewrite Hr|].
    rewrite Hr in E. rewrite E. apply SetServices_lookup in E as [Hb' E']. rewrite Hin, E' in Hb'.
    f_equal. by eapply pool_services_unique.
Qed.

Section StoreFacts.
Context `{!Engine PoolBase, !Engine PoolServiceBase, !Engine PoolServiceAssociationBase, JE : !JoinEngine}.
Context `{!EngineOk PoolBase, !EngineOk PoolServiceBase, !EngineOk PoolServiceAssociationBase, JOK : !JoinEngineOk}.
Implicit Types (o : Op OpLogPool) (w : PoolWorld) (s : St OpLogPool PoolWorld).
Import PoolController.

Lemma same_rows_trans w w1 w2 : same_rows w w1 -> same_rows w1 w2 -> same_rows w w2.
Proof. unfold same_rows, same_pools, same_services, same_associations. intuition congruence. Qed.

Lemma loaded_ok_same w w' p l : same_rows w w' -> loaded_ok w' p l -> loaded_ok w p l.
Proof.
  intros (Hp & Hs & Ha) [El Hl]. split; [done|]. intros role b. rewrite Hl.
  unfold pool_services. unfold same_pools, same_services, same_associations in *. by rewrite Hs, Ha.
Qed.

(** The bindings of a pool that exists, read by its ID. *)
Lemma spec_bindings_of p (Q : list PoolServiceBinding * option error -> Op OpLogPool -> PoolWorld -> Prop) o w :
  integrity w -> p ∈ rows (pools w) ->
  (forall bs o' w', same_rows w w' -> loaded_ok w p (SetServices bs p) -> Q (bs, None) o' w') ->
  (forall bs e o' w', same_rows w w' -> Q (bs, Some e) o' w') ->
  spec (GetPoolBindings (GetID p) []) Q o w.
Proof.
  intros Hi Hp Hok Herr.
  assert (GetID p <> "") by (destruct Hi as ((_ & Hne) & _); intros E; apply Hne, list_elem_of_fmap; by exists p).
  unfold GetPoolBindings. spec_go. apply spec_PoolId; [|done|done|].
  - intros _. spec_go. rewrite decide_False by done. spec_go. apply spec_join_query.
    intros bs [e|] t w' Hw E; spec_go; [by apply Herr|]. apply Hok; [done|].
    apply SetServices_ok; [done..|]. by eapply join_pool_ok.
  - intros e. spec_go. by apply Herr.
Qed.

(** A store that holds exactly the pools [qs], each with its services and under its ID and name. *)
Definition store_ok w (qs : list PoolBase) (st : PoolStoreBase) : Prop :=
  (forall p, p ∈ qs -> exists l, loaded_ok w p l /\
     poolsById st !! GetID p = Some l /\ poolsByName st !! p_NAME p = Some l) /\
  (forall id l, poolsById st !! id = Some l -> exists p, p ∈ qs /\ GetID p = id /\ loaded_ok w p l) /\
  (forall name l, poolsByName st !! name = Some l -> exists p, p ∈ qs /\ p_NAME p = name /\ loaded_ok w p l).

Lemma store_ok_empty w : store_ok w [] NewPoolStore.
Proof. repeat split; cbn; [by intros p ?%not_elem_of_nil|by intros ??|by intros ??]. Qed.

Lemma pools_same_key w p q cols :
  integrity w -> cols ∈ [["id"]; ["name"]] -> p ∈ rows (pools w) -> q ∈ rows (pools w) ->
  index_key cols p = index_key cols q -> p = q.
Proof. intros ((Kp & _) & _) Hc. by apply unique_id_inj. Qed.

Lemma index_key_name (p q : PoolBase) : p_NAME p = p_NAME q -> index_key ["name"] p = index_key ["name"] q.
Proof. intros E. unfold index_key. cbn [map]. by rewrite !pool_name_column, E. Qed.

Lemma store_ok_add w qs st p l :
  integrity w -> Forall (fun q => q ∈ rows (pools w)) qs -> p ∈ rows (pools w) -> loaded_ok w p l ->
  store_ok w qs st -> store_ok w (qs ++ [p]) (store_pool l st).
Proof.
  intros Hi Hqs Hp Hl (H1 & H2 & H3). rewrite Forall_forall in Hqs.
  pose proof Hl as [El _]. unfold store_pool, store_ok. cbn [poolsById poolsByName]. rewrite El.
  split; [|split].
  - intros q Hq. destruct (decide (q = p)) as [->|Hne]; [exists l; by rewrite !lookup_insert_eq|].
    rewrite elem_of_app, list_elem_of_singleton in Hq. destruct Hq as [Hq|]; [|done].
    destruct (H1 q Hq) as (l' & Hl' & E1 & E2). exists l'. split; [done|].
    rewrite !lookup_insert_ne; [done| |]; intros E; apply Hne; symmetry.
    + apply (pools_same_key w p q ["name"]); auto; [set_solver|by apply index_key_name].
    + apply (pools_same_key w p q ["id"]); auto; [set_solver|by apply index_key_id].
  - intros id l'. rewrite lookup_insert_Some. intros [[<- <-]|[_ E]].
    + exists p. split; [apply elem_of_app; right; by left|done].
    + destruct (H2 id l' E) as (q & Hq & ?). exists q. split; [apply elem_of_app; by left|done].
  - intros name l'. rewrite lookup_insert_Some. intros [[<- <-]|[_ E]].
    + exists p. split; [apply elem_of_app; right; by left|done].
    + destruct (H3 name l' E) as (q & Hq & ?). exists q. split; [apply elem_of_app; by left|done].
Qed.

Lemma spec_loadServices c p (Q : LoadedPool * option error -> Op OpLogPool -> PoolWorld -> Prop) o w :
  integrity w -> p ∈ rows (pools w) ->
  (forall l o' w', same_rows w w' -> loaded_ok w p l -> Q (l, None) o' w') ->
  (forall l e o' w', same_rows w w' -> Q (l, Some e) o' w') ->
  spec (loadServices c p) Q o w.
Proof.
  intros Hi Hp Hok Herr. unfold loadServices. spec_go.
  apply spec_bindings_of; [done..| |]; intros; spec_go; auto.
Qed.

Lemma spec_load_all c ps qs st o w :
  integrity w -> Forall (fun q => q ∈ rows (pools w)) (qs ++ ps) -> store_ok w qs st ->
  spec (load_all c ps st) (fun r _ _ => r.2 = None -> store_ok w (qs ++ ps) r.1) o w.
Proof.
  assert (H : forall w0, same_rows w w0 -> integrity w -> Forall (fun q => q ∈ rows (pools w)) (qs ++ ps) ->
    store_ok w qs st -> forall o, spec (load_all c ps st) (fun r _ _ => r.2 = None -> store_ok w (qs ++ ps) r.1) o w0);
    [|intros; by apply H].
  revert qs st. induction ps as [|p ps IH]; intros qs st w0 Hw Hi Hin Hst o'; cbn [load_all]; spec_go.
  - intros _. by rewrite app_nil_r.
  - assert (Hp : p ∈ rows (pools w)).
    { rewrite Forall_forall in Hin. apply Hin, elem_of_app. right. by left. }
    apply spec_loadServices; [by apply (integrity_same w)| | |].
    + destruct Hw as (E & _). unfold same_pools in E. by rewrite E.
    + intros l o1 w1 Hw1 Hl. spec_go. apply (loaded_ok_same w) in Hl; [|done].
      replace (qs ++ p :: ps) with ((qs ++ [p]) ++ ps) in * by (by rewrite <- app_assoc).
      apply IH; [by eapply same_rows_trans|done|done|].
      apply store_ok_add; try done. apply Forall_app in Hin as [Hin _]. by apply Forall_app in Hin as [Hin _].
    + intros l e o1 w1 _. by spec_go.
Qed.

(** A loaded pool: [LoadPool] returns the pool the argument names, and its [Service role]
    is exactly the binding of the association of that pool with that role. *)
Theorem LoadPool_services id n s l :
  integrity (st_ext s) -> (LoadPool id n s).1 = (Some l, None) ->
  exists p, p ∈ rows (pools (st_ext s)) /\ names_pool id n p /\ lp_pool l = p /\
    forall role b, Service role l = inl b <-> pool_services (st_ext s) p role b.
Proof.
  intros Hi. destruct s as [t o w]. cbn [st_ext] in *.
  assert (H : spec (LoadPool id n) (fun r _ _ => r = (Some l, None) ->
    exists p, p ∈ rows (pools w) /\ names_pool id n p /\ loaded_ok w p l) o w).
  { unfold LoadPool. spec_go. apply spec_FindPool.
    - intros p Hp Hm. apply names_pool_matches in Hm. spec_go.
      apply spec_bindings_of; [exact Hi|done| |].
      + intros bs o' w' Hw Hl. spec_go. intros [= <-]. exists p. by split.
      + intros bs e o' w' _. by spec_go.
    - intros _. by spec_go.
    - intros e. by spec_go. }
  intros Hr. destruct (H t Hr) as (p & Hp & Hn & Hl1 & Hl2). by exists p.
Qed.

(** The pool store: initialised without a pool name it holds exactly the pools of the
    database, each found under its ID and under its name, with the same services, and with its
    services as the tables bind them; initialised with a name its own pool is the one with that
    name. *)
Theorem Init_store POOL_NAME s st :
  integrity (st_ext s) -> (Init (inl POOL_NAME) NewPoolStore s).1 = (st, None) ->
  if decide (POOL_NAME = "") then
    (forall p, p ∈ rows (pools (st_ext s)) -> exists l, loaded_ok (st_ext s) p l /\
       Pool (GetID p) st = inl l /\ PoolByName (p_NAME p) st = inl l) /\
    (forall id l, Pool id st = inl l -> exists p, p ∈ rows (pools (st_ext s)) /\ GetID p = id /\
       loaded_ok (st_ext s) p l)
  else exists p l, p ∈ rows (pools (st_ext s)) /\ p_NAME p = POOL_NAME /\ loaded_ok (st_ext s) p l /\
       SelfPool st = inl l /\ Pool (GetID p) st = inl l.
Proof.
  intros Hi. destruct s as [t o w]. cbn [st_ext] in *. unfold Init.
  case_decide as Hn.
  - subst.
    assert (H : spec (Init (inl "") NewPoolStore) (fun r _ _ => r.2 = None -> exists ps,
                  ps ≡ₚ rows (pools w) /\ store_ok w ps r.1) o w).
    { unfold Init, GetPools. spec_go. apply spec_List. intros rs n [e|] Hl; spec_go; [done|].
      eapply spec_mono; [|apply (spec_load_all c rs [] NewPoolStore)].
      + cbn. intros r _ _ H E. exists rs. split; [exact Hl|auto].
      + by apply (integrity_same w).
      + cbn. apply Forall_forall. intros q Hq. by rewrite <- Hl.
      + apply store_ok_empty. }
    intros Hr. specialize (H t). cbn in H. unfold Init in H. rewrite Hr in H.
    destruct (H eq_refl) as (ps & Hps & H1 & H2 & _). cbn [fst] in *. unfold Pool, PoolByName. split.
    + intros p Hp. rewrite <- Hps in Hp. destruct (H1 p Hp) as (l & Hl & -> & ->). by exists l.
    + intros id l. destruct (poolsById st !! id) eqn:E; [|done]. intros [= ->].
      destruct (H2 _ _ E) as (p & Hp & ?). exists p. by rewrite <- Hps.
  - assert (H : spec (Init (inl POOL_NAME) NewPoolStore) (fun r _ _ => r.2 = None -> exists p l,
                  p ∈ rows (pools w) /\ p_NAME p = POOL_NAME /\ loaded_ok w p l /\
                  SelfPool r.1 = inl l /\ Pool (GetID p) r.1 = inl l) o w).
    { unfold Init. spec_go. destruct POOL_NAME as [|a name]; [done|]. spec_go. apply spec_FindPool.
      - intros p Hp Hm. apply names_pool_matches in Hm. spec_go. apply spec_loadServices; [exact Hi|done| |].
        + intros l o' w' _ Hl. spec_go. intros _. exists p, l. pose proof Hl as [El _].
          repeat split; [done|exact Hm|apply Hl|apply Hl|apply Hl|]. unfold Pool. cbn.
          by rewrite El, lookup_insert_eq.
        + intros l e o' w' _. by spec_go.
      - intros _. by spec_go.
      - intros e. by spec_go. }
    intros Hr. specialize (H t). cbn in H. unfold Init in H. rewrite Hr in H. by apply H.
Qed.
End StoreFacts.

Section Witnesses.
Import Demo PoolController.

(** What the demonstrations look at. *)
Definition service_host (r : PoolServiceBinding + error) : option string :=
  match r with inl b => Some (pb_ServiceName b) | inr _ => None end.

Lemma LoadPool_services_witness :
  exists l p, (LoadPool "main" [true] ready).1 = (Some l, None) /\ p_NAME p = "main" /\
    exists b, Service "db" l = inl b /\ pool_services (st_ext ready) p "db" b.
Proof.
  assert (Hok : match (LoadPool "main" [true] ready).1 with
                | (Some l, None) => service_host (Service "db" l)
                | _ => None
                end = Some "sql") by (vm_compute; reflexivity).
  destruct (LoadPool "main" [true] ready).1 as [[l|] [e|]] eqn:E; try discriminate Hok.
  destruct (LoadPool_services "main" [true] ready l) as (p & _ & Hn & _ & Hs).
  - exact ready_integrity.
  - exact E.
  - exists l, p. split; [reflexivity|]. split; [exact Hn|].
    destruct (Service "db" l) as [b|e] eqn:Eb; [|discriminate Hok].
    exists b. split; [reflexivity|]. apply Hs, Eb.
Defined.

Lemma Init_store_witness :
  exists st l, (Init (inl "spare") NewPoolStore ready).1 = (st, None) /\ SelfPool st = inl l /\
    p_NAME (lp_pool l) = "spare".
Proof.
  assert (Hok : (Init (inl "spare") NewPoolStore ready).1.2 = None) by (vm_compute; reflexivity).
  destruct (Init (inl "spare") NewPoolStore ready).1 as [st e] eqn:E. cbn in Hok. subst e.
  pose proof (Init_store "spare" ready st ready_integrity E) as H.
  rewrite decide_False in H by discriminate. destruct H as (p & l & _ & Hn & [El _] & Hs & _).
  exists st, l. split; [reflexivity|]. split; [exact Hs|]. by rewrite El.
Defined.
End Witnesses.
