(* ===== verification/Pubsub.v ===== *)
(** * pkg/pubsub: topics, subscribers, the buses in memory and over Redis

    A topic is an object with the clients that handle its messages; a bus has subscriptions of
    topics by the names of the topics.  Topics and buses are given by reference, since a topic can be
    subscribed to several buses and the factory gives a bus in memory to all who ask for it
    ([Hub]).  A client is its name and what it does with a message, which is not to change topics
    or buses.  A server of Redis is what it answers ([RedisServers]); a message it passes on is a step of
    its own ([Redis.receive]). *)
From S2P Require Import Prelude GoTime Utils Common Errors OpContext Db PoolData Pool PoolStore.
Open Scope go_scope.

(** ** Messages and clients (message/, topic.go) *)

(** [ParseMessage] into the object a builder makes. *)
Class Messages (Obj Kind : Type) := {
  SerializeMessage : Obj -> string + error;
  ParseMessage : string -> Kind -> Obj + error
}.

Class SubscriberClients (P X Obj C : Type) := {
  client_Name : C -> string;
  client_Handle : C -> Obj -> M (St P X) (option error)
}.

Record Topic (C Kind : Type) := { t_name : string; builder : Kind; subscribers : gmap string C }.
Arguments t_name {C Kind}.
Arguments builder {C Kind}.
Arguments subscribers {C Kind}.
Arguments Build_Topic {C Kind}.

(** A bus: in memory, or the subscriber of a server of Redis with the channels it reads. *)
Record Bus := { topics : gmap string (gmap string nat); channels : option (gset string) }.

Record RedisConfig := { r_Host : string; r_Port : Z; r_Db : Z; r_Password : string }.
Inductive redis_request :=
| ReqPing (cfg : RedisConfig)
| ReqSubscribe (bus : nat) (topic : string)
| ReqPublish (cfg : RedisConfig) (topic payload : string).
(** What a server answers to a request after all the requests so far. *)
Class RedisServers := { redis_answer : list redis_request -> redis_request -> option error }.

Record Hub (C Kind : Type) := {
  topic_heap : gmap nat (Topic C Kind);
  bus_heap : list Bus;
  (** the buses in memory of the factory, and of the process *)
  inmems : gmap string nat;
  singletonInmem : gmap string nat;
  redis_requests : list redis_request
}.
Arguments topic_heap {C Kind}.
Arguments bus_heap {C Kind}.
Arguments inmems {C Kind}.
Arguments singletonInmem {C Kind}.
Arguments redis_requests {C Kind}.
Arguments Build_Hub {C Kind}.

Section Updates.
Context {C Kind : Type}.
Implicit Types (h : Hub C Kind).
Definition set_topic (r : nat) (t : Topic C Kind) h : Hub C Kind :=
  {| topic_heap := <[r := t]> (topic_heap h); bus_heap := bus_heap h; inmems := inmems h; singletonInmem := singletonInmem h;
     redis_requests := redis_requests h |}.
Definition set_bus (b : nat) (x : Bus) h : Hub C Kind :=
  {| topic_heap := topic_heap h; bus_heap := <[b := x]> (bus_heap h); inmems := inmems h; singletonInmem := singletonInmem h;
     redis_requests := redis_requests h |}.
Definition no_bus : Bus := {| topics := ∅; channels := None |}.
Definition get_bus (b : nat) h : Bus := default no_bus (bus_heap h !! b).
(** A new bus, and its reference. *)
Definition new_bus (x : Bus) h : nat * Hub C Kind :=
  (length (bus_heap h),
   {| topic_heap := topic_heap h; bus_heap := bus_heap h ++ [x]; inmems := inmems h; singletonInmem := singletonInmem h;
      redis_requests := redis_requests h |}).
Definition ask `{!RedisServers} (r : redis_request) : M (Hub C Kind) (option error) := fun h =>
  (redis_answer (redis_requests h) r,
   {| topic_heap := topic_heap h; bus_heap := bus_heap h; inmems := inmems h; singletonInmem := singletonInmem h;
      redis_requests := redis_requests h ++ [r] |}).
End Updates.

Section Pubsub.
Context {P X Obj Kind C : Type} `{Ms : !Messages Obj Kind, Cl : !SubscriberClients P X Obj C, Mr : !MapRange, Rs : !RedisServers}.
Context `{Lh : !Lens X (Hub C Kind), Le : !Lens X Env}.
(** The application, its instance, and the host; the writer of operation logs. *)
Variables (application instance_ hostname : string) (Write : Oplog P -> M (St P X) (option error)).
Local Abbreviation hub := (Hub C Kind).
Local Abbreviation act := (M (St P X)).

(** ** Topics (topic.go) *)

Definition NewTopic (name : string) (b : Kind) : Topic C Kind := {| t_name := name; builder := b; subscribers := ∅ |}.
Definition on_topic (f : gmap string C -> gmap string C) (r : nat) : M hub unit := modify (fun h =>
  match topic_heap h !! r with
  | Some t => set_topic r {| t_name := t_name t; builder := builder t; subscribers := f (subscribers t) |} h
  | None => h
  end).
Definition TopicSubscribe (r : nat) (c : C) : M hub unit := on_topic (<[client_Name c := c]>) r.
Definition TopicUnsubscribe (r : nat) (id : string) : M hub unit := on_topic (delete id) r.

(** An error of a client is logged, and the next one handles the message. *)
Fixpoint handle_each (obj : Obj) (clients : list C) : act unit :=
  match clients with
  | [] => ret tt
  | c :: clients => client_Handle c obj ;; handle_each obj clients
  end.
Definition TopicHandle (r : nat) (msg : string) : act (option error) := traced "pubsub.Topic.Handle" (fun c =>
  let* t := on (gets (fun h : hub => topic_heap h !! r)) in
  match t with
  | None => ret None
  | Some t =>
      match ParseMessage msg (builder t) with
      | inr err => SetMessage c "failed to unmarshal message" ;; SetError c (Some err)
      | inl obj => handle_each obj (range (subscribers t)).*2 ;; ret None
      end
  end).

(** ** Subscribers (subscriber.go) *)

Definition Topics (b : nat) (topicName : string) (h : hub) : gmap string nat + error :=
  match topics (get_bus b h) !! topicName with Some ts => inl ts | None => inr (Native "topics not found") end.

Fixpoint handle_topics (msg : string) (ts : list nat) : act (option error) :=
  match ts with
  | [] => ret None
  | r :: ts =>
      let* err := TopicHandle r msg in
      match err with
      | Some _ => ret err
      | None => handle_topics msg ts
      end
  end.
Definition Handle (b : nat) (topicName msg : string) : act (option error) :=
  let* ts := on (gets (fun h : hub => topics (get_bus b h) !! topicName)) in
  match ts with
  | None => ret None
  | Some ts => handle_topics msg (range ts).*2
  end.

Definition AddTopic (b r : nat) : act string :=
  let* subscriptionId := on GenerateID in
  on (modify (fun h : hub =>
    match topic_heap h !! r with
    | None => h
    | Some t =>
        let x := get_bus b h in
        set_bus b {| topics := <[t_name t := <[subscriptionId := r]> (default ∅ (topics x !! t_name t))]> (topics x);
                     channels := channels x |} h
    end)) ;;
  ret subscriptionId.

(** Is nothing of the name subscribed any more? *)
Definition DeleteTopic (b : nat) (topicName : string) (subscriptionId : list string) : M hub bool := fun h =>
  let x := get_bus b h in
  let set_topics ts := set_bus b {| topics := ts; channels := channels x |} h in
  match subscriptionId with
  | [] => (true, set_topics (delete topicName (topics x)))
  | id :: _ =>
      match topics x !! topicName with
      | None => (true, h)
      | Some ts =>
          let ts := delete id ts in
          if decide (ts = ∅) then (true, set_topics (delete topicName (topics x)))
          else (false, set_topics (<[topicName := ts]> (topics x)))
      end
  end.

Definition pubsub_origin : Origin :=
  {| App := application; Name := instance_; Source := hostname; SessionClient := ""; User := ""; UserType := "pubsub" |}.
Definition new_trace : Trace := {| calls := []; stack := []; errorStack := None |}.
(** A message is handled in a context of its own, which is closed after it. *)
Definition NewOpContext (topicName : string) {A} (m : act A) : act A := fun s =>
  let '(id, x) := zoom GenerateID (st_ext s) in
  let o : Op P := {| op_id := id; op_name := topicName; genericError := None; oplogs := [];
                     errorManager := ErrorManagerBase.Init 500; dbTransaction := false; errorAsWarn := false;
                     writeCloseLog := true; origin := Some pubsub_origin; logs := [] |} in
  let '(a, s') := (let* a := m in Close Write [] ;; ret a) {| st_trace := new_trace; st_op := o; st_ext := x |} in
  (a, {| st_trace := st_trace s; st_op := st_op s; st_ext := st_ext s' |}).

(** ** In memory (pubsub_inmem.go) *)

Definition InmemPublish (b : nat) (topicName : string) (obj : Obj) : act (option error) :=
  match SerializeMessage obj with
  | inr err => ret (Some err)
  | inl msg => NewOpContext topicName (Handle b topicName msg) ;; ret None
  end.

(** ** Redis (pubsub_redis.go) *)

Definition RedisPublish (cfg : RedisConfig) (topicName : string) (obj : Obj) : act (option error) :=
  match SerializeMessage obj with
  | inr err => ret (Some err)
  | inl payload => on (ask (Kind := Kind) (ReqPublish cfg topicName payload))
  end.

Definition open_channel (b : nat) (name : string) : M hub unit := modify (fun h =>
  let x := get_bus b h in set_bus b {| topics := topics x; channels := (fun cs => {[name]} ∪ cs) <$> channels x |} h).
Definition close_channel (b : nat) (name : string) : M hub unit := modify (fun h =>
  let x := get_bus b h in set_bus b {| topics := topics x; channels := (fun cs => cs ∖ {[name]}) <$> channels x |} h).
Definition reads_channel (b : nat) (name : string) (h : hub) : bool :=
  match channels (get_bus b h) with Some cs => bool_decide (name ∈ cs) | None => false end.

(** A topic that the server does not subscribe stays with the bus. *)
Definition RedisSubscribe (b r : nat) : act (string * option error) :=
  let* subscriptionId := AddTopic b r in
  let* t := on (gets (fun h : hub => topic_heap h !! r)) in
  match t with
  | None => ret ("", None)
  | Some t =>
      let* open := on (gets (reads_channel b (t_name t))) in
      if open then ret (subscriptionId, None)
      else
        let* err := on (ask (ReqSubscribe b (t_name t))) in
        match err with
        | Some _ => ret ("", Some (Native "failed to receive from redis pubsub channel"))
        | None => on (open_channel b (t_name t)) ;; ret (subscriptionId, None)
        end
  end.
Definition RedisUnsubscribe (b : nat) (topicName : string) (subscriptionId : list string) : M hub unit :=
  let* unsubscribe := DeleteTopic b topicName subscriptionId in
  if unsubscribe : bool then close_channel b topicName else ret tt.
(** A message of an open channel, as the loop that reads it handles it. *)
Definition RedisReceive (b : nat) (topicName payload : string) : act unit :=
  let* open := on (gets (reads_channel b topicName)) in
  if open then NewOpContext topicName (Handle b topicName payload) ;; ret tt else ret tt.

(** ** The interfaces *)

Inductive publisher := InmemPublisher (b : nat) | RedisPublisher (cfg : RedisConfig).
Definition PublishTo (p : publisher) (topicName : string) (obj : Obj) : act (option error) :=
  match p with
  | InmemPublisher b => InmemPublish b topicName obj
  | RedisPublisher cfg => RedisPublish cfg topicName obj
  end.
Definition Subscribe (b r : nat) : act (string * option error) :=
  let* x := on (gets (fun h : hub => channels (get_bus b h))) in
  match x with
  | Some _ => RedisSubscribe b r
  | None => let* id := AddTopic b r in ret (id, None)
  end.
Definition Unsubscribe (b : nat) (topicName : string) (subscriptionId : list string) : act unit :=
  let* x := on (gets (fun h : hub => channels (get_bus b h))) in
  match x with
  | Some _ => on (RedisUnsubscribe b topicName subscriptionId)
  | None => on (DeleteTopic b topicName subscriptionId) ;; ret tt
  end.

(** ** The factory (pubsub_factory.go) *)

Definition RedisProvider := "redis".
Definition InmemProvider := "inmem".
Definition SingletonInmemProvider := "singleton_inmem".

(** The provider of the configuration of the application, at a path, and what it has for Redis there. *)
Variable cfg_provider : string -> string.
Variable cfg_redis : string -> RedisConfig + error.

Record PubsubConfig := { PoolService : option PoolServiceBinding; ConfigKeyPath : string }.
Definition splitConfig (config : list PubsubConfig) : option PoolServiceBinding * string :=
  match config with
  | [] => (None, "pubsub")
  | c :: _ => (PoolService c, ConfigKeyPath c)
  end.
Definition provider (poolService : option PoolServiceBinding) (configPath : string) : string :=
  match poolService with
  | Some s => PROVIDER (s_config (pb_data s))
  | None => cfg_provider configPath
  end.

Definition DbName (s : PoolServiceBinding) : string := DB_NAME (s_config (pb_data s)).
Definition nil_service : error := Native "invalid memory address or nil pointer dereference".

(** The bus in memory for a database name: the same for all who ask. *)
Definition MakeInmemPubsub (poolService : option PoolServiceBinding) : M hub (nat + error) := fun h =>
  match poolService with
  | None => (inr nil_service, h)
  | Some s =>
      match inmems h !! DbName s with
      | Some b => (inl b, h)
      | None =>
          let '(b, h) := new_bus no_bus h in
          (inl b, {| topic_heap := topic_heap h; bus_heap := bus_heap h; inmems := <[DbName s := b]> (inmems h);
                     singletonInmem := singletonInmem h; redis_requests := redis_requests h |})
      end
  end.
Definition MakeSingletonInmemPubsub (poolService : option PoolServiceBinding) : M hub (nat + error) := fun h =>
  match poolService with
  | None => (inr nil_service, h)
  | Some s =>
      match singletonInmem h !! DbName s with
      | Some b => (inl b, h)
      | None =>
          let '(b, h) := new_bus no_bus h in
          (inl b, {| topic_heap := topic_heap h; bus_heap := bus_heap h; inmems := inmems h;
                     singletonInmem := <[DbName s := b]> (singletonInmem h); redis_requests := redis_requests h |})
      end
  end.
Definition ResetSingletonInmemPubsub : M hub unit := modify (fun h =>
  {| topic_heap := topic_heap h; bus_heap := bus_heap h; inmems := inmems h; singletonInmem := ∅;
     redis_requests := redis_requests h |}).

(** [InitWithConfig] connects. *)
Definition connect (cfg : RedisConfig) : M hub (RedisConfig + error) :=
  let* err := ask (ReqPing cfg) in ret (match err with Some e => inr e | None => inl cfg end).
Definition initRedis (poolService : option PoolServiceBinding) (configPath : string) : M hub (RedisConfig + error) :=
  match poolService with
  | None => match cfg_redis configPath with inr err => ret (inr err) | inl cfg => connect cfg end
  | Some s =>
      let c := s_config (pb_data s) in
      match (if decide (DbName s = "") then inl 0%Z else StrToUint32 (DbName s)) with
      | inr _ => ret (inr (Native "invalid number of redis database"))
      | inl db => connect {| r_Host := PRIVATE_HOST c; r_Port := PRIVATE_PORT c; r_Db := db; r_Password := SECRET1 (pb_data s) |}
      end
  end.

Definition MakePublisher (config : list PubsubConfig) : M hub (publisher + error) :=
  let '(poolService, configPath) := splitConfig config in
  let p := provider poolService configPath in
  let inmem (r : nat + error) : publisher + error := match r with inl b => inl (InmemPublisher b) | inr err => inr err end in
  if decide (p = RedisProvider) then
    let* r := initRedis poolService configPath in ret (match r with inl cfg => inl (RedisPublisher cfg) | inr err => inr err end)
  else if decide (p = InmemProvider) then let* r := MakeInmemPubsub poolService in ret (inmem r)
  else if decide (p = SingletonInmemProvider) then let* r := MakeSingletonInmemPubsub poolService in ret (inmem r)
  else ret (inr (Native "unknown pubsub publisher provider")).
Definition MakeSubscriber (config : list PubsubConfig) : M hub (nat + error) :=
  let '(poolService, configPath) := splitConfig config in
  let p := provider poolService configPath in
  if decide (p = RedisProvider) then
    let* r := initRedis poolService configPath in
    match r with
    | inr err => ret (inr err)
    | inl _ => fun h => let '(b, h) := new_bus {| topics := ∅; channels := Some ∅ |} h in (inl b, h)
    end
  else if decide (p = InmemProvider) then MakeInmemPubsub poolService
  else if decide (p = SingletonInmemProvider) then MakeSingletonInmemPubsub poolService
  else ret (inr (Native "unknown pubsub subscriber provider")).
End Pubsub.
