(* ===== verification/PoolPubsub.v ===== *)
(** * pkg/pubsub/pool_pubsub: a publisher and a subscriber for each pool

    [Init] makes them from the services of the pools.  What is delivered of a message that is
    published to pools is [PoolPubsub.publish_reaches]. *)
From S2P Require Import Prelude GoTime Utils Common Errors OpContext Db PoolData Pool PoolStore Pubsub.
Open Scope go_scope.

Record PoolPubsubBase := {
  selfPoolSubscriber : option nat;
  selfPoolPublisher : option publisher;
  publishers : gmap string publisher;
  p_subscribers : gmap string nat
}.
Definition NewPubsub : PoolPubsubBase :=
  {| selfPoolSubscriber := None; selfPoolPublisher := None; publishers := ∅; p_subscribers := ∅ |}.

Section PoolPubsub.
Context {P X Obj Kind C : Type} `{Ms : !Messages Obj Kind, Cl : !SubscriberClients P X Obj C, Mr : !MapRange, Rs : !RedisServers}.
Context `{Lh : !Lens X (Hub C Kind), Le : !Lens X Env}.
Variables (application instance_ hostname : string) (Write : Oplog P -> M (St P X) (option error)).
Variable cfg_provider : string -> string.
Variable cfg_redis : string -> RedisConfig + error.
Local Abbreviation hub := (Hub C Kind).
Local Abbreviation act := (M (St P X)).

(** ** Init *)

(** Nothing is made for a service that is not active. *)
Definition makePublisher (poo : LoadedPool) (p : PoolPubsubBase) :
    M hub (PoolPubsubBase * (option (publisher * PubsubConfig) + error)) :=
  match Service TypePubsub poo with
  | inr err => ret (p, inr err)
  | inl service =>
      if negb (s_ACTIVE (pb_data service)) then ret (p, inl None)
      else
        let cfg := {| PoolService := Some service; ConfigKeyPath := "" |} in
        let* r := MakePublisher cfg_provider cfg_redis [cfg] in
        match r with
        | inr err => ret (p, inr err)
        | inl publisher =>
            ret ({| selfPoolSubscriber := selfPoolSubscriber p; selfPoolPublisher := selfPoolPublisher p;
                    publishers := <[GetID (lp_pool poo) := publisher]> (publishers p); p_subscribers := p_subscribers p |},
                 inl (Some (publisher, cfg)))
        end
  end.

Definition makeSubscriber (poo : LoadedPool) (cfg : PubsubConfig) (p : PoolPubsubBase) : M hub (PoolPubsubBase * (nat + error)) :=
  let* r := MakeSubscriber cfg_provider cfg_redis [cfg] in
  match r with
  | inr err => ret (p, inr err)
  | inl subscriber =>
      ret ({| selfPoolSubscriber := selfPoolSubscriber p; selfPoolPublisher := selfPoolPublisher p; publishers := publishers p;
              p_subscribers := <[GetID (lp_pool poo) := subscriber]> (p_subscribers p) |}, inl subscriber)
  end.

Definition set_self (pub : option publisher) (sub : option nat) (p : PoolPubsubBase) : PoolPubsubBase :=
  {| selfPoolSubscriber := sub; selfPoolPublisher := pub; publishers := publishers p; p_subscribers := p_subscribers p |}.

Definition init_self (pool : LoadedPool) (p : PoolPubsubBase) : M hub (PoolPubsubBase * option error) :=
  if negb (p_ACTIVE (lp_pool pool)) then ret (p, None)
  else
    let* '(p, r) := makePublisher pool p in
    match r with
    | inr err => ret (set_self None (selfPoolSubscriber p) p, Some err)
    | inl None => ret (set_self None (selfPoolSubscriber p) p, None)
    | inl (Some (pub, cfg)) =>
        let* '(p, r) := makeSubscriber pool cfg p in
        match r with
        | inr err => ret (set_self (Some pub) None p, Some err)
        | inl sub => ret (set_self (Some pub) (Some sub) p, None)
        end
    end.

Fixpoint init_pools (pools : list LoadedPool) (p : PoolPubsubBase) : M hub (PoolPubsubBase * option error) :=
  match pools with
  | [] => ret (p, None)
  | pool :: pools =>
      if p_ACTIVE (lp_pool pool) then
        let* '(p, r) := makePublisher pool p in
        match r with
        | inr err => ret (p, Some err)
        | inl None => init_pools pools p
        | inl (Some (_, cfg)) =>
            let* '(p, r) := makeSubscriber pool cfg p in
            match r with
            | inr err => ret (p, Some err)
            | inl _ => init_pools pools p
            end
        end
      else init_pools pools p
  end.

Definition Init (pools : PoolStoreBase) (p : PoolPubsubBase) : M hub (PoolPubsubBase * option error) :=
  match SelfPool pools with
  | inl pool => init_self pool p
  | inr _ => init_pools (Pools pools) p
  end.

(** ** Messages *)

Definition PublishSelfPool (p : PoolPubsubBase) (topicName : string) (msg : Obj) : act (option error) :=
  match selfPoolPublisher p with
  | None => ret (Some (Native "self publisher not set"))
  | Some pub => PublishTo application instance_ hostname Write pub topicName msg
  end.

(** Publishing in turn until one fails. *)
Fixpoint publish_each (topicName : string) (msg : Obj) (l : list (string * publisher)) : act (option error) :=
  match l with
  | [] => ret None
  | (poolId, pub) :: l =>
      let* err := PublishTo application instance_ hostname Write pub topicName msg in
      match err with
      | Some _ => ret (Some (Native ("failed to publish to " +:+ poolId +:+ " pool")))
      | None => publish_each topicName msg l
      end
  end.
(** The entries of the pools that are named, in the order of the names; all of them without names. *)
Definition chosen {A} (m : gmap string A) (poolIds : list string) : list (string * A) :=
  match poolIds with
  | [] => range m
  | _ => omap (fun id => pair id <$> m !! id) poolIds
  end.
Definition PublishPools (p : PoolPubsubBase) (topicName : string) (msg : Obj) (poolIds : list string) : act (option error) :=
  publish_each topicName msg (chosen (publishers p) poolIds).

(** ** Subscriptions *)

Definition SubscribeSelfPool (p : PoolPubsubBase) (topic : nat) : act (string * option error) :=
  traced "PoolPubsub.SubscribeSelfPool" (fun c =>
    match selfPoolSubscriber p with
    | None => let* err := SetErrorStr c "self pool subscriber not set" in ret ("", err)
    | Some sub =>
        let* '(id, err) := Subscribe sub topic in
        match err with
        | Some _ => let* err := SetError c err in ret ("", err)
        | None => ret (id, None)
        end
    end).
Definition UnsubscribeSelfPool (p : PoolPubsubBase) (topicName : string) : act unit :=
  match selfPoolSubscriber p with
  | Some sub => Unsubscribe sub topicName []
  | None => ret tt
  end.

Fixpoint subscribe_each (c : nat) (topic : nat) (l : list (string * nat)) (ids : gmap string string) :
    act (gmap string string * option error) :=
  match l with
  | [] => ret (ids, None)
  | (poolId, sub) :: l =>
      let* '(id, err) := Subscribe sub topic in
      match err with
      | Some _ =>
          SetMessage c "failed to subscribe topic to pool" ;;
          let* err := SetError c err in ret (∅, err)
      | None => subscribe_each c topic l (<[poolId := id]> ids)
      end
  end.
Definition SubscribePools (p : PoolPubsubBase) (topic : nat) (poolIds : list string) : act (gmap string string * option error) :=
  traced "PoolPubsub.SubscribePools" (fun c => subscribe_each c topic (chosen (p_subscribers p) poolIds) ∅).

Fixpoint unsubscribe_each (topicName : string) (l : list (string * nat)) : act unit :=
  match l with
  | [] => ret tt
  | (_, sub) :: l => Unsubscribe sub topicName [] ;; unsubscribe_each topicName l
  end.
Definition UnsubscribePools (p : PoolPubsubBase) (topicName : string) (poolIds : list string) : act unit :=
  unsubscribe_each topicName (chosen (p_subscribers p) poolIds).
End PoolPubsub.
