(* ===== verification/PubsubDelivery.v ===== *)
(** * Publish and subscribe: what is delivered

    Clients are only asked to handle messages: whatever they record of it ([keeps]), a message
    reaches every client of every topic that is subscribed under its name, once per subscription, and
    nobody else. *)
From S2P Require Import Prelude GoTime Utils Common Errors OpContext Db PoolData Pool PoolStore Pubsub PoolPubsub.
Open Scope go_scope.

Section Delivery.
Context {P X Obj Kind C : Type} `{Ms : !Messages Obj Kind, Cl : !SubscriberClients P X Obj C, Mr : !MapRange, Rs : !RedisServers}.
Context `{Lh : !Lens X (Hub C Kind), Le : !Lens X Env}.
Variables (application instance_ hostname : string) (Write : Oplog P -> M (St P X) (option error)).
Local Abbreviation hub := (Hub C Kind).
Local Abbreviation hub_of := (view (S := X) (A := Hub C Kind)).
Implicit Types (h : hub) (x : X) (r b : nat).

(** The clients of a topic a message reaches, each with the object it is given; a message that is not
    read ends the round. *)
Fixpoint reached_topics h (msg : string) (ts : list nat) : list (C * Obj) :=
  match ts with
  | [] => []
  | r :: ts =>
      match topic_heap h !! r with
      | None => reached_topics h msg ts
      | Some t =>
          match ParseMessage msg (builder t) with
          | inr _ => []
          | inl obj => map (fun c => (c, obj)) (range (subscribers t)).*2 ++ reached_topics h msg ts
          end
      end
  end.
Definition reached h b (topicName msg : string) : list (C * Obj) :=
  match topics (get_bus b h) !! topicName with Some ts => reached_topics h msg (range ts).*2 | None => [] end.

(** A record of what was handled: every client adds to it what it is given; time, operation logs and
    subscriptions are no part of it. *)
Record keeps (I : list (C * Obj) -> X -> Prop) : Prop := {
  keeps_handle l c obj o x : I l x ->
    spec (client_Handle c obj) (fun _ _ x' => I (l ++ [(c, obj)]) x' /\ hub_of x' = hub_of x) o x;
  keeps_write l ol o x : I l x -> spec (Write ol) (fun _ _ x' => I l x' /\ hub_of x' = hub_of x) o x;
  keeps_env l (e : Env) x : I l x -> I l (put e x) /\ hub_of (put e x) = hub_of x;
  keeps_hub l h x : I l x -> I l (put h x)
}.

Context (I : list (C * Obj) -> X -> Prop) (HI : keeps I).

Lemma spec_handle_each obj cs l o x : I l x ->
  spec (handle_each obj cs) (fun _ _ x' => I (l ++ map (fun c => (c, obj)) cs) x' /\ hub_of x' = hub_of x) o x.
Proof.
  revert l o x. induction cs as [|c cs IH]; intros l o x Hx; cbn.
  - apply spec_ret. by rewrite app_nil_r.
  - apply spec_bind. eapply spec_mono; [|by apply (keeps_handle I HI)]. intros ? o' x' [Hx' Hh].
    eapply spec_mono; [|apply IH, Hx']. intros ? o'' x''. rewrite <- app_assoc, Hh. done.
Qed.

Lemma spec_handle_topics msg ts l o x : I l x ->
  spec (handle_topics msg ts) (fun _ _ x' => I (l ++ reached_topics (hub_of x) msg ts) x' /\ hub_of x' = hub_of x) o x.
Proof.
  revert l o x. induction ts as [|r ts IH]; intros l o x Hx; cbn.
  - apply spec_ret. by rewrite app_nil_r.
  - apply spec_bind, spec_traced. intros c. apply spec_bind, spec_on. unfold gets, wp. cbn. rewrite put_view.
    destruct (topic_heap (hub_of x) !! r) as [t|] eqn:Et; cycle 1.
    { apply spec_ret. cbn. by apply IH. }
    destruct (ParseMessage msg (builder t)) as [obj|err].
    + apply spec_bind. eapply spec_mono; [|apply spec_handle_each, Hx]. intros ? o' x' [Hx' Hh]. apply spec_ret.
      eapply spec_mono; [|apply IH, Hx']. intros ? o'' x''. rewrite <- app_assoc, Hh. done.
    + apply spec_bind, spec_SetMessage, spec_SetError, spec_ret. by rewrite app_nil_r.
Qed.

Lemma spec_bus_Handle b topicName msg l o x : I l x ->
  spec (Handle b topicName msg) (fun _ _ x' => I (l ++ reached (hub_of x) b topicName msg) x' /\ hub_of x' = hub_of x) o x.
Proof.
  intros Hx. unfold Handle, reached. apply spec_bind, spec_on. unfold gets, wp. cbn. rewrite put_view.
  destruct (topics _ !! topicName) as [ts|]; [by apply spec_handle_topics|]. apply spec_ret. by rewrite app_nil_r.
Qed.

Lemma spec_DumpLog_kept msgs (o : Op P) x (Q : X -> Prop) : Q x -> spec (DumpLog msgs) (fun _ _ x' => Q x') o x.
Proof.
  intros Hx [c s es]. unfold DumpLog, ClearError, SetGenericError, on_trace, on_op, bind, ret. cbn.
  destruct es as [es|]; cbn; [|by destruct (_ && _)]. by destruct (foldl _ _ _).
Qed.

Lemma spec_Close_kept msgs l h (o : Op P) x : I l x -> hub_of x = h -> spec (Close Write msgs) (fun _ _ x' => I l x' /\ hub_of x' = h) o x.
Proof.
  intros Hx Hh. unfold Close. apply spec_bind, spec_on_op. apply spec_bind. cbn [gets fst snd]. generalize (oplogs o). intros ols.
  assert (Hw : forall o' x', I l x' -> hub_of x' = h -> spec ((fix write_all (l : list (Oplog P)) : M (St P X) unit :=
     match l with
     | [] => ret tt
     | x :: r => let* base := on (ObjectBase.InitObject (ol_base x)) in Write (fill_oplog o base x) ;; write_all r
     end) ols) (fun _ _ x' => I l x' /\ hub_of x' = h) o' x').
  { induction ols as [|ol ols IH]; intros o' x' Hx' Hh'; [by apply spec_ret|].
    apply spec_bind, spec_on. unfold wp. destruct (keeps_env I HI l (ObjectBase.InitObject (ol_base ol) (view x')).2 x' Hx') as [Hx2 Hh2].
    apply spec_bind. eapply spec_mono; [|apply (keeps_write I HI), Hx2]. intros ? o3 x3 [Hx3 Hh3]. apply IH; congruence. }
  eapply spec_mono; [|by apply Hw]. intros ? o' x' [Hx' Hh']. by apply spec_DumpLog_kept.
Qed.

Lemma spec_NewOpContext {A} topicName (m : M (St P X) A) l ds h (o : Op P) x : I l x -> hub_of x = h ->
  (forall o' x', I l x' -> hub_of x' = h -> spec m (fun _ _ x'' => I (l ++ ds) x'' /\ hub_of x'' = h) o' x') ->
  spec (NewOpContext application instance_ hostname Write topicName m) (fun _ o' x' => o' = o /\ I (l ++ ds) x' /\ hub_of x' = h) o x.
Proof.
  intros Hx Hh Hm t. unfold NewOpContext. cbn [st_ext]. destruct (zoom GenerateID x) as [id x1] eqn:E1.
  assert (Hx1 : I l x1 /\ hub_of x1 = h).
  { unfold zoom in E1. injection E1 as _ <-. rewrite <- Hh. by apply (keeps_env I HI). }
  destruct Hx1 as [Hx1 Hh1].
  match goal with |- context [(?mm {| st_trace := ?tt; st_op := ?oo; st_ext := x1 |})] =>
    assert (Hs : spec mm (fun _ _ x' => I (l ++ ds) x' /\ hub_of x' = h) oo x1) end.
  { apply spec_bind. eapply spec_mono; [|by apply Hm]. intros a o' x' [Hx' Hh']. apply spec_bind.
    eapply spec_mono; [|by apply spec_Close_kept]. intros ? o'' x'' H. by apply spec_ret. }
  specialize (Hs new_trace). cbn in Hs |- *. destruct (bind _ _ _) as [a s']. cbn in *. done.
Qed.

(** A message that is published in memory is handled at once, by those it reaches. *)
Lemma spec_InmemPublish b topicName obj payload l (o : Op P) x : SerializeMessage obj = inl payload -> I l x ->
  spec (InmemPublish application instance_ hostname Write b topicName obj)
    (fun e o' x' => e = None /\ o' = o /\ I (l ++ reached (hub_of x) b topicName payload) x' /\ hub_of x' = hub_of x) o x.
Proof.
  intros Es Hx. unfold InmemPublish. rewrite Es. apply spec_bind.
  eapply spec_mono; [|apply (spec_NewOpContext _ _ l (reached (hub_of x) b topicName payload) (hub_of x)); [done..|]].
  - intros ? o' x' (-> & Hx' & Hh). by apply spec_ret.
  - intros o' x' Hx' Hh. rewrite <- Hh. by apply spec_bus_Handle.
Qed.

(** The same of a message that arrives on an open channel. *)
Lemma spec_RedisReceive b topicName payload l (o : Op P) x : I l x ->
  spec (RedisReceive application instance_ hostname Write b topicName payload)
    (fun _ o' x' => o' = o /\
       I (l ++ (if reads_channel b topicName (hub_of x) then reached (hub_of x) b topicName payload else [])) x' /\ hub_of x' = hub_of x) o x.
Proof.
  intros Hx. unfold RedisReceive. apply spec_bind, spec_on. unfold gets, wp. cbn. rewrite put_view.
  destruct (reads_channel _ _ _); [|apply spec_ret; by rewrite app_nil_r]. apply spec_bind.
  eapply spec_mono; [|apply (spec_NewOpContext _ _ l (reached (hub_of x) b topicName payload) (hub_of x)); [done..|]].
  - intros ? o' x' (-> & Hx' & Hh). by apply spec_ret.
  - intros o' x' Hx' Hh. rewrite <- Hh. by apply spec_bus_Handle.
Qed.

(** ** Buses *)

Lemma get_set_bus b y h : is_Some (bus_heap h !! b) -> get_bus b (set_bus b y h) = y.
Proof. intros [z Hz]. unfold get_bus, set_bus. cbn. rewrite list_lookup_insert_eq; [done|]. by eapply lookup_lt_Some. Qed.

(** A bus in memory. *)
Definition in_memory b h : Prop := exists y, bus_heap h !! b = Some y /\ channels y = None.

Definition add_subscription b (id : string) r (t : Topic C Kind) h : hub :=
  set_bus b {| topics := <[t_name t := <[id := r]> (default ∅ (topics (get_bus b h) !! t_name t))]> (topics (get_bus b h));
               channels := channels (get_bus b h) |} h.

Lemma spec_Subscribe_memory b r t l (o : Op P) x : in_memory b (hub_of x) -> topic_heap (hub_of x) !! r = Some t -> I l x ->
  spec (Subscribe b r) (fun res _ x' => res.2 = None /\ I l x' /\ hub_of x' = add_subscription b res.1 r t (hub_of x)) o x.
Proof.
  intros (y & Hy & Hc) Ht Hx. unfold Subscribe. apply spec_bind, spec_on. unfold gets, wp. cbn. rewrite put_view.
  replace (channels (get_bus b (hub_of x))) with (@None (gset string)) by (unfold get_bus; by rewrite Hy).
  apply spec_bind. unfold AddTopic. apply spec_bind, spec_on. unfold wp.
  destruct (keeps_env I HI l (GenerateID (view x)).2 x Hx) as [Hx1 Hh1].
  set (x1 := put (GenerateID (view x)).2 x) in *. set (id := (GenerateID (view x)).1).
  apply spec_bind, spec_on. unfold wp, modify. cbn [fst snd]. rewrite Hh1, Ht.
  do 2 apply spec_ret. cbn [fst snd]. split; [done|]. split; [by apply (keeps_hub I HI)|]. apply view_put.
Qed.

Lemma reached_topics_all h msg ts : (forall r t, r ∈ ts -> topic_heap h !! r = Some t -> exists obj, ParseMessage msg (builder t) = inl obj) ->
  forall r t obj, r ∈ ts -> topic_heap h !! r = Some t -> ParseMessage msg (builder t) = inl obj ->
  map (fun c => (c, obj)) (range (subscribers t)).*2 ⊆+ reached_topics h msg ts.
Proof.
  induction ts as [|r' ts IH]; intros Hp r t obj Hr Ht Ho; [by apply elem_of_nil in Hr|]. cbn.
  assert (Hp' : forall r t, r ∈ ts -> topic_heap h !! r = Some t -> exists obj, ParseMessage msg (builder t) = inl obj).
  { intros ? ? ?. apply Hp. by apply list_elem_of_further. }
  apply elem_of_cons in Hr as [->|Hr].
  - rewrite Ht, Ho. apply submseteq_inserts_r. done.
  - destruct (topic_heap h !! r') as [t'|] eqn:Et; [|by eapply IH].
    destruct (Hp r' t') as [obj' ->]; [left|done|]. apply submseteq_inserts_l. by eapply IH.
Qed.

Lemma reached_topics_only h msg ts co : co ∈ reached_topics h msg ts ->
  exists r t, r ∈ ts /\ topic_heap h !! r = Some t /\ co.1 ∈ (range (subscribers t)).*2 /\ ParseMessage msg (builder t) = inl co.2.
Proof.
  induction ts as [|r ts IH]; cbn; [by intros ?%elem_of_nil|]. destruct (topic_heap h !! r) as [t|] eqn:Et; cycle 1.
  { intros (r' & t' & ? & ?)%IH. exists r', t'. split; [by right|done]. }
  destruct (ParseMessage msg (builder t)) as [obj|] eqn:Eo; [|by intros ?%elem_of_nil]. intros [Hin|Hin]%elem_of_app.
  - apply list_elem_of_In, in_map_iff in Hin as (c & <- & Hc). apply list_elem_of_In in Hc. exists r, t. split; [left|done].
  - apply IH in Hin as (r' & t' & ? & ?). exists r', t'. split; [by right|done].
Qed.
End Delivery.

(** ** The buses of pools *)

Section Pools.
Context {C Kind : Type} `{Mr : !MapRange, Rs : !RedisServers}.
Variable cfg_provider : string -> string.
Variable cfg_redis : string -> RedisConfig + error.
Local Abbreviation hub := (Hub C Kind).
Implicit Types (h : hub) (p : PoolPubsubBase).

(** The buses the factory gives out are in memory, and stay so. *)
Definition factory_ok h : Prop :=
  map_Forall (fun _ b => in_memory b h) (inmems h) /\ map_Forall (fun _ b => in_memory b h) (singletonInmem h).
Definition grows h h' : Prop := forall b, in_memory b h -> in_memory b h'.
(** A publisher in memory of a pool is the bus of its subscriber. *)
Definition same_bus p h : Prop :=
  map_Forall (fun id pub => forall b, pub = InmemPublisher b -> in_memory b h /\ p_subscribers p !! id = Some b) (publishers p).

Lemma buses_grow_refl h : grows h h.
Proof. by intros b. Qed.
Lemma buses_grow_trans h h' h'' : grows h h' -> grows h' h'' -> grows h h''.
Proof. unfold grows. auto. Qed.
Lemma new_bus_grows y h : grows h (new_bus y h).2.
Proof. intros b (z & Hz & Hc). exists z. split; [|done]. cbn. by rewrite lookup_app_l by by eapply lookup_lt_Some. Qed.
Lemma factory_ok_grows h h' : inmems h' = inmems h -> singletonInmem h' = singletonInmem h -> grows h h' -> factory_ok h -> factory_ok h'.
Proof.
  unfold factory_ok. intros -> -> Hg [H1 H2]. split; eapply map_Forall_impl; eauto.
Qed.

(** Whoever asks for the bus of a name gets it. *)
Definition gives (m : option PoolServiceBinding -> M hub (nat + error)) : Prop := forall s b h h', m s h = (inl b, h') -> factory_ok h ->
  factory_ok h' /\ grows h h' /\ in_memory b h' /\ m s h' = (inl b, h').

Lemma MakeInmemPubsub_gives : gives MakeInmemPubsub.
Proof.
  intros [s|] b h h'; [|done]. cbn. destruct (inmems h !! DbName s) as [b'|] eqn:E.
  - intros [= <- <-] Hf. rewrite E. split_and!; [done|apply buses_grow_refl| |done]. by eapply (proj1 Hf).
  - intros [= <- <-] [Hf1 Hf2]. cbn. rewrite lookup_insert_eq.
    assert (Hg : grows h (new_bus no_bus h).2) by apply new_bus_grows.
    assert (Hb : in_memory (length (bus_heap h)) (new_bus no_bus h).2).
    { exists no_bus. split; [|done]. cbn. by rewrite lookup_app_r, Nat.sub_diag by done. }
    split_and!; try done. split; [|eapply map_Forall_impl; [exact Hf2|intros ? ? H; by apply Hg]].
    apply map_Forall_insert_2; [exact Hb|]. eapply map_Forall_impl; [exact Hf1|]. intros ? ? H. by apply Hg.
Qed.
Lemma MakeSingletonInmemPubsub_gives : gives MakeSingletonInmemPubsub.
Proof.
  intros [s|] b h h'; [|done]. cbn. destruct (singletonInmem h !! DbName s) as [b'|] eqn:E.
  - intros [= <- <-] Hf. rewrite E. split_and!; [done|apply buses_grow_refl| |done]. by eapply (proj2 Hf).
  - intros [= <- <-] [Hf1 Hf2]. cbn. rewrite lookup_insert_eq.
    assert (Hg : grows h (new_bus no_bus h).2) by apply new_bus_grows.
    assert (Hb : in_memory (length (bus_heap h)) (new_bus no_bus h).2).
    { exists no_bus. split; [|done]. cbn. by rewrite lookup_app_r, Nat.sub_diag by done. }
    split_and!; try done. split; [eapply map_Forall_impl; [exact Hf1|intros ? ? H; by apply Hg]|].
    apply map_Forall_insert_2; [exact Hb|]. eapply map_Forall_impl; [exact Hf2|]. intros ? ? H. by apply Hg.
Qed.

Lemma connect_keeps cfg h : let r := connect cfg h in bus_heap r.2 = bus_heap h /\ inmems r.2 = inmems h /\ singletonInmem r.2 = singletonInmem h.
Proof. done. Qed.
Lemma initRedis_keeps s path h : let r := initRedis cfg_redis s path h in
  bus_heap r.2 = bus_heap h /\ inmems r.2 = inmems h /\ singletonInmem r.2 = singletonInmem h.
Proof.
  unfold initRedis. destruct s as [s|]; [|destruct (cfg_redis path); [apply connect_keeps|done]].
  destruct (if decide _ then _ else _); [apply connect_keeps|done].
Qed.
Lemma redis_factory_ok s path h : factory_ok h -> let r := initRedis cfg_redis s path h in factory_ok r.2 /\ grows h r.2.
Proof.
  intros Hf. destruct (initRedis_keeps s path h) as (Hb & Hi & Hs).
  assert (Hg : grows h (initRedis cfg_redis s path h).2). { intros b (y & Hy & Hc). exists y. by rewrite Hb. }
  split; [by eapply factory_ok_grows|done].
Qed.

(** A publisher and a subscriber of one configuration. *)
Lemma make_pair cfg h pub h1 sub h2 : MakePublisher cfg_provider cfg_redis [cfg] h = (inl pub, h1) ->
  MakeSubscriber cfg_provider cfg_redis [cfg] h1 = (inl sub, h2) -> factory_ok h ->
  factory_ok h2 /\ grows h h2 /\ forall b, pub = InmemPublisher b -> sub = b /\ in_memory b h2.
Proof.
  unfold MakePublisher, MakeSubscriber. cbn [splitConfig]. set (pr := provider _ _ _). unfold bind.
  destruct (decide (pr = RedisProvider)).
  - pose proof (redis_factory_ok (PoolService cfg) (ConfigKeyPath cfg) h) as Hr1.
    destruct (initRedis _ _ _ h) as [r1 h1']. cbn in Hr1 |- *. intros [= E <-]. destruct r1 as [c1|]; [|done]. injection E as <-.
    pose proof (redis_factory_ok (PoolService cfg) (ConfigKeyPath cfg) h1') as Hr2.
    destruct (initRedis _ _ _ h1') as [r2 h2']. cbn in Hr2 |- *. destruct r2; [|done]. intros [= _ <-] Hf.
    destruct (Hr1 Hf) as [Hf1 Hg1]. destruct (Hr2 Hf1) as [Hf2 Hg2].
    pose proof (new_bus_grows {| topics := ∅; channels := Some ∅ |} h2') as Hg3. split_and!; [|by eauto using buses_grow_trans|done].
    by apply (factory_ok_grows h2').
  - assert (Hgo : forall m, gives m -> (let r := m (PoolService cfg) h in
        ret (match r.1 with inl b => inl (InmemPublisher b) | inr err => inr err end) r.2) = (inl pub, h1) ->
        m (PoolService cfg) h1 = (inl sub, h2) -> factory_ok h ->
        factory_ok h2 /\ grows h h2 /\ forall b, pub = InmemPublisher b -> sub = b /\ in_memory b h2).
    { intros m Hm. destruct (m (PoolService cfg) h) as [[b|] h'] eqn:E; cbn; [|done]. intros [= <- <-] E2 Hf.
      destruct (Hm _ _ _ _ E Hf) as (Hf' & Hg & Hb & E3). rewrite E3 in E2. injection E2 as <- <-.
      split_and!; try done. by intros b' [= <-]. }
    destruct (decide (pr = InmemProvider)); [by apply Hgo, MakeInmemPubsub_gives|].
    destruct (decide (pr = SingletonInmemProvider)); [by apply Hgo, MakeSingletonInmemPubsub_gives|]. done.
Qed.

Lemma same_bus_insert p h id pub sub : same_bus p h -> (forall b, pub = InmemPublisher b -> sub = b /\ in_memory b h) ->
  same_bus {| selfPoolSubscriber := selfPoolSubscriber p; selfPoolPublisher := selfPoolPublisher p;
              publishers := <[id := pub]> (publishers p); p_subscribers := <[id := sub]> (p_subscribers p) |} h.
Proof.
  intros Hs Hp id' pub' Hl b ->. cbn [publishers p_subscribers] in *. destruct (decide (id' = id)) as [->|Hne].
  - rewrite lookup_insert_eq in Hl. rewrite lookup_insert_eq. injection Hl as ->. by destruct (Hp b eq_refl) as [-> ?].
  - rewrite lookup_insert_ne in Hl by done. rewrite lookup_insert_ne by done. by apply (Hs id' _ Hl b).
Qed.
Lemma same_bus_grows p h h' : grows h h' -> same_bus p h -> same_bus p h'.
Proof. intros Hg Hs id pub Hl b Hb. destruct (Hs id pub Hl b Hb). auto. Qed.

(** One pool. *)
Lemma pool_pair poo p h p1 cfg pub h1 p2 sub h2 : makePublisher cfg_provider cfg_redis poo p h = ((p1, inl (Some (pub, cfg))), h1) ->
  makeSubscriber cfg_provider cfg_redis poo cfg p1 h1 = ((p2, inl sub), h2) -> factory_ok h -> same_bus p h ->
  factory_ok h2 /\ grows h h2 /\ same_bus p2 h2.
Proof.
  unfold makePublisher, makeSubscriber, bind, ret. destruct (Service _ _) as [s|]; [|done]. destruct (negb _); [done|].
  destruct (MakePublisher _ _ _ h) as [[pub'|] h1'] eqn:E1; [|done]. cbn [fst snd]. intros [= <- -> <- ->].
  destruct (MakeSubscriber _ _ _ h1) as [[sub'|] h2'] eqn:E2; [|done]. cbn [fst snd]. intros [= <- <- <-] Hf Hs.
  destruct (make_pair _ _ _ _ _ _ E1 E2 Hf) as (Hf2 & Hg & Hb). split_and!; [done..|].
  apply (same_bus_insert p h2' _ pub sub'); [by eapply same_bus_grows|done].
Qed.
Lemma no_publisher poo p h p1 h1 : makePublisher cfg_provider cfg_redis poo p h = ((p1, inl None), h1) -> p1 = p /\ h1 = h.
Proof.
  unfold makePublisher, bind, ret. destruct (Service _ _) as [s|]; [|done]. destruct (negb _); [by intros [= <- <-]|].
  destruct (MakePublisher _ _ _ h) as [[|]]; done.
Qed.

Lemma init_pools_ok pools p h p' h' : init_pools cfg_provider cfg_redis pools p h = ((p', None), h') -> factory_ok h -> same_bus p h ->
  factory_ok h' /\ grows h h' /\ same_bus p' h'.
Proof.
  revert p h. induction pools as [|poo pools IH]; intros p h; cbn; [intros [= <- <-] ? ?; split_and!; [done|apply buses_grow_refl|done]|].
  destruct (p_ACTIVE (lp_pool poo)); [|by apply IH]. unfold bind. destruct (makePublisher _ _ _ p h) as [[p1 [[[pub cfg]|]|]] h1] eqn:E1; cbn; [| |done].
  - destruct (makeSubscriber _ _ _ _ p1 h1) as [[p2 [sub|]] h2] eqn:E2; cbn; [|done]. intros E3 Hf Hs.
    destruct (pool_pair _ _ _ _ _ _ _ _ _ _ E1 E2 Hf Hs) as (Hf2 & Hg2 & Hs2). destruct (IH _ _ E3 Hf2 Hs2) as (? & ? & ?).
    split_and!; [done|by eapply buses_grow_trans|done].
  - apply no_publisher in E1 as [-> ->]. apply IH.
Qed.

Lemma Init_ok pools p h p' h' : Init cfg_provider cfg_redis pools p h = ((p', None), h') -> factory_ok h -> same_bus p h ->
  factory_ok h' /\ grows h h' /\ same_bus p' h'.
Proof.
  unfold Init. destruct (SelfPool pools) as [poo|]; [|by apply init_pools_ok]. unfold init_self.
  destruct (negb _); [intros [= <- <-] ? ?; split_and!; [done|apply buses_grow_refl|done]|].
  unfold bind. destruct (makePublisher _ _ _ p h) as [[p1 [[[pub cfg]|]|]] h1] eqn:E1; cbn; [| |done].
  - destruct (makeSubscriber _ _ _ _ p1 h1) as [[p2 [sub|]] h2] eqn:E2; cbn; [|done]. intros [= <- <-] Hf Hs.
    by destruct (pool_pair _ _ _ _ _ _ _ _ _ _ E1 E2 Hf Hs) as (Hf2 & Hg2 & Hs2).
  - apply no_publisher in E1 as [-> ->]. intros [= <- <-] Hf Hs. split_and!; [done|apply buses_grow_refl|done].
Qed.
End Pools.

(** ** Messages to pools *)

Section Reach.
Context {P X Obj Kind C : Type} `{Ms : !Messages Obj Kind, Cl : !SubscriberClients P X Obj C, Mr : !MapRange, Rs : !RedisServers}.
Context `{Lh : !Lens X (Hub C Kind), Le : !Lens X Env}.
Variables (application instance_ hostname : string) (Write : Oplog P -> M (St P X) (option error)).
Variable cfg_provider : string -> string.
Variable cfg_redis : string -> RedisConfig + error.
Local Abbreviation hub_of := (view (S := X) (A := Hub C Kind)).

Implicit Types (h : Hub C Kind).

(** The topics of a name at a bus that a message of it is for. *)
Definition subscribed (b : nat) (name : string) (r : nat) (h : Hub C Kind) : Prop :=
  exists ts id, topics (get_bus b h) !! name = Some ts /\ ts !! id = Some r.

(** A message is read by every topic that is subscribed. *)
Definition readable_by (b : nat) (name payload : string) (h : Hub C Kind) : Prop :=
  forall r t, subscribed b name r h -> topic_heap h !! r = Some t -> exists obj, ParseMessage payload (builder t) = inl obj.

Lemma reached_subscribed b name payload r t obj (h : Hub C Kind) : subscribed b name r h -> topic_heap h !! r = Some t ->
  readable_by b name payload h -> ParseMessage payload (builder t) = inl obj ->
  map (fun c => (c, obj)) (range (subscribers t)).*2 ⊆+ reached h b name payload.
Proof.
  intros (ts & id & Ets & Hid) Ht Hr Ho. unfold reached. rewrite Ets. apply (reached_topics_all _ _ _) with (r := r); try done.
  - intros r' t' Hin Ht'. apply list_elem_of_fmap in Hin as ((id' & r0) & -> & Hin). apply elem_of_range in Hin.
    apply (Hr r0 t'); [by exists ts, id'|done].
  - apply list_elem_of_fmap. exists (id, r). split; [done|]. by apply elem_of_range.
Qed.

Lemma add_subscription_subscribed b id r t (h : Hub C Kind) : in_memory b h ->
  subscribed b (t_name t) r (add_subscription b id r t h) /\ topic_heap (add_subscription b id r t h) = topic_heap h.
Proof.
  intros (y & Hy & _). split; [|done]. exists (<[id := r]> (default ∅ (topics (get_bus b h) !! t_name t))), id.
  unfold add_subscription. rewrite get_set_bus by by eexists. split; apply lookup_insert_eq.
Qed.

(** [C21] Messages to a pool are delivered, on buses in memory.  When the publishers and subscribers have
    been made for the pools, a topic that is subscribed at a pool with a bus in memory receives what is
    published to this pool under its name, if this topic and every other one subscribed there under the
    name can read the message: every client of the topic is given the message as the topic reads
    it, and nobody but clients of topics that are subscribed there under this name is given
    anything. *)
Theorem publish_reaches (I : list (C * Obj) -> X -> Prop) pools h0 p h1 poolId b r t msg payload obj l (o : Op P) x :
  keeps Write I -> Init cfg_provider cfg_redis pools NewPubsub h0 = ((p, None), h1) -> factory_ok h0 ->
  publishers p !! poolId = Some (InmemPublisher b) ->
  grows h1 (hub_of x) -> topic_heap (hub_of x) !! r = Some t -> I l x ->
  SerializeMessage msg = inl payload -> ParseMessage payload (builder t) = inl obj -> readable_by b (t_name t) payload (hub_of x) ->
  spec (let* '(ids, err) := SubscribePools p r [poolId] in PublishPools application instance_ hostname Write p (t_name t) msg [poolId])
    (fun err _ x' => err = None /\ exists ds, I (l ++ ds) x' /\
       map (fun c => (c, obj)) (range (subscribers t)).*2 ⊆+ ds /\
       Forall (fun co => exists r' t', (r' = r \/ subscribed b (t_name t) r' (hub_of x)) /\ topic_heap (hub_of x) !! r' = Some t' /\
                 co.1 ∈ (range (subscribers t')).*2 /\ ParseMessage payload (builder t') = inl co.2) ds) o x.
Proof.
  intros HI HInit Hf Hpub Hg Ht Hx Es Ep Hr.
  destruct (Init_ok _ _ _ _ _ _ _ HInit Hf (map_Forall_empty _)) as (_ & _ & Hs).
  destruct (Hs _ _ Hpub b eq_refl) as [Hb%Hg Hsub]. destruct Hb as (y & Hy & Hc). assert (Hb : in_memory b (hub_of x)) by by exists y.
  apply spec_bind, spec_traced. intros c. unfold chosen. cbn [omap list_omap]. rewrite Hsub. cbn [fmap option_fmap option_map subscribe_each].
  apply spec_bind. eapply spec_mono; [|by apply (spec_Subscribe_memory Write I HI b r t l)].
  intros [id err] o' x' (Herr & Hx' & Hh'). cbn in Herr, Hh'. subst err. apply spec_ret.
  destruct (add_subscription_subscribed b id r t (hub_of x) Hb) as [Hsubd Hheap].
  assert (Hback : forall r', subscribed b (t_name t) r' (add_subscription b id r t (hub_of x)) ->
      r' = r \/ subscribed b (t_name t) r' (hub_of x)).
  { intros r' (ts & id' & Ets & Hid'). unfold add_subscription in Ets. rewrite get_set_bus in Ets by by eexists. cbn in Ets.
    rewrite lookup_insert_eq in Ets. injection Ets as <-. apply lookup_insert_Some in Hid' as [[_ ->]|[_ Hid']]; [by left|right].
    destruct (topics (get_bus b (hub_of x)) !! t_name t) as [ts|] eqn:E; [by exists ts, id'|cbn in Hid'; by rewrite lookup_empty in Hid']. }
  unfold PublishPools, chosen. cbn [omap list_omap]. rewrite Hpub. cbn [fmap option_fmap option_map publish_each PublishTo].
  apply spec_bind. eapply spec_mono; [|by apply (spec_InmemPublish application instance_ hostname Write I HI b _ msg payload l)].
  intros err o'' x'' (-> & _ & Hx'' & _). apply spec_ret. split; [done|]. rewrite Hh' in Hx''. eexists. split; [exact Hx''|]. split.
  - apply (reached_subscribed _ _ _ r); [done|by rewrite Hheap| |done].
    intros r' t' Hr' Ht'. rewrite Hheap in Ht'. destruct (Hback r' Hr') as [->|Hold]; [|by apply (Hr r')].
    rewrite Ht in Ht'. injection Ht' as <-. eauto.
  - apply Forall_forall. intros co Hco. unfold reached in Hco.
    destruct (topics (get_bus b (add_subscription b id r t (hub_of x))) !! t_name t) as [ts|] eqn:Ets; [|by apply elem_of_nil in Hco].
    apply reached_topics_only in Hco as (r' & t' & Hin & Ht' & Hc' & Hp'). apply list_elem_of_fmap in Hin as ((id' & r0) & -> & Hin).
    apply elem_of_range in Hin. exists r0, t'. rewrite Hheap in Ht'. split; [|done]. apply Hback. by exists ts, id'.
Qed.

(** ** Channels of Redis *)

(** A channel that is read has a topic that handles its messages. *)
Definition channels_ok (h : Hub C Kind) : Prop :=
  forall b y cs n, bus_heap h !! b = Some y -> channels y = Some cs -> n ∈ cs -> is_Some (topics y !! n).

Lemma channels_ok_set_bus b y h : channels_ok h ->
  (forall cs n, channels y = Some cs -> n ∈ cs -> is_Some (topics y !! n)) -> channels_ok (set_bus b y h).
Proof.
  intros Hok Hy b' y' cs n Hl. unfold set_bus in Hl. cbn in Hl. destruct (decide (b' = b)) as [->|Hne].
  - destruct (decide (b < length (bus_heap h))) as [Hlt|Hge].
    + rewrite list_lookup_insert_eq in Hl by done. injection Hl as <-. apply Hy.
    + rewrite list_insert_ge in Hl by lia. by eapply Hok.
  - rewrite list_lookup_insert_ne in Hl by done. by eapply Hok.
Qed.
Lemma channels_ok_get b cs n h : channels_ok h -> channels (get_bus b h) = Some cs -> n ∈ cs -> is_Some (topics (get_bus b h) !! n).
Proof. intros Hok. unfold get_bus. destruct (bus_heap h !! b) as [y|] eqn:E; [by eapply Hok|done]. Qed.

Lemma channels_ok_add b id r t h : channels_ok h -> channels_ok (add_subscription b id r t h).
Proof.
  intros Hok. apply channels_ok_set_bus; [done|]. cbn. intros cs n Hc Hn.
  destruct (decide (n = t_name t)) as [->|Hne]; [by rewrite lookup_insert_eq|]. rewrite lookup_insert_ne by done.
  by eapply channels_ok_get.
Qed.

Lemma set_bus_nowhere b y h : bus_heap h !! b = None -> set_bus b y h = h.
Proof. intros H. unfold set_bus. rewrite list_insert_ge by by apply lookup_ge_None. by destruct h. Qed.
Lemma set_set_bus b y z h : set_bus b y (set_bus b z h) = set_bus b y h.
Proof. unfold set_bus. cbn. by rewrite list_insert_insert_eq. Qed.

(** A channel is closed with the last subscription of its name. *)
Lemma channels_ok_unsubscribe b name ids h : channels_ok h -> channels_ok (RedisUnsubscribe b name ids h).2.
Proof.
  intros Hok. destruct (bus_heap h !! b) as [y|] eqn:Eb; cycle 1.
  { assert (Hset : forall y, set_bus b y h = h) by (intros; by apply set_bus_nowhere).
    unfold RedisUnsubscribe, DeleteTopic, bind, close_channel, modify. cbn zeta.
    destruct ids as [|id ids]; [by rewrite !Hset; cbn; rewrite Hset|].
    destruct (topics (get_bus b h) !! name); [|cbn; by rewrite Hset].
    destruct (decide _); [by rewrite !Hset; cbn; rewrite Hset|by rewrite !Hset]. }
  assert (Hclose : forall ts, (forall n, n <> name -> ts !! n = topics (get_bus b h) !! n) ->
    channels_ok (set_bus b {| topics := ts; channels := (fun cs => cs ∖ {[name]}) <$> channels (get_bus b h) |} h)).
  { intros ts Hts. apply channels_ok_set_bus; [done|]. cbn. intros cs n Hc Hn.
    destruct (channels (get_bus b h)) as [cs0|] eqn:Ec; [|done]. injection Hc as <-. apply elem_of_difference in Hn as [Hn Hnn].
    rewrite Hts by by intros ->; apply Hnn, elem_of_singleton. by eapply channels_ok_get. }
  assert (Hsome : is_Some (bus_heap h !! b)) by by eexists.
  unfold RedisUnsubscribe, DeleteTopic, bind, close_channel, modify. destruct ids as [|id ids]; cbn zeta.
  - cbn [fst snd]. rewrite get_set_bus, set_set_bus by done. apply Hclose. intros n Hn. cbn. by rewrite lookup_delete_ne.
  - destruct (topics (get_bus b h) !! name) as [ts|] eqn:Et; [|cbn [fst snd]; by apply Hclose].
    destruct (decide _); cbn [fst snd].
    + rewrite get_set_bus, set_set_bus by done. apply Hclose. intros n Hn. cbn. by rewrite lookup_delete_ne.
    + apply channels_ok_set_bus; [done|]. cbn. intros cs n' Hc Hn'.
      destruct (decide (n' = name)) as [->|Hne]; [by rewrite lookup_insert_eq|]. rewrite lookup_insert_ne by done. by eapply channels_ok_get.
Qed.

(** A subscription that succeeds is read from its channel. *)
Lemma spec_RedisSubscribe (I : list (C * Obj) -> X -> Prop) b r t l (o : Op P) x : keeps Write I -> I l x ->
  topic_heap (hub_of x) !! r = Some t -> is_Some (bus_heap (hub_of x) !! b) -> is_Some (channels (get_bus b (hub_of x))) ->
  spec (RedisSubscribe b r) (fun res _ x' => I l x' /\
    (res.2 = None -> reads_channel b (t_name t) (hub_of x') = true /\ exists ts, topics (get_bus b (hub_of x')) !! t_name t = Some ts /\ ts !! res.1 = Some r) /\
    (channels_ok (hub_of x) -> channels_ok (hub_of x'))) o x.
Proof.
  intros HI Hx Ht Hb [cs Hcs]. unfold RedisSubscribe, AddTopic. apply spec_bind, spec_bind, spec_on. unfold wp.
  destruct (keeps_env Write I HI l (GenerateID (view x)).2 x Hx) as [Hx1 Hh1].
  set (x1 := put (GenerateID (view x)).2 x) in *. set (id := (GenerateID (view x)).1).
  apply spec_bind, spec_on. unfold wp, modify. cbn [fst snd]. rewrite Hh1, Ht. apply spec_ret.
  change (set_bus b _ (hub_of x)) with (add_subscription b id r t (hub_of x)). set (h' := add_subscription b id r t (hub_of x)).
  assert (Hg : get_bus b h' = {| topics := <[t_name t := <[id := r]> (default ∅ (topics (get_bus b (hub_of x)) !! t_name t))]>
                 (topics (get_bus b (hub_of x))); channels := Some cs |}).
  { unfold h', add_subscription. rewrite get_set_bus by done. by rewrite Hcs. }
  apply spec_bind, spec_on. unfold gets, wp. cbn [fst snd]. rewrite put_view, view_put.
  replace (topic_heap h' !! r) with (Some t) by (unfold h'; done).
  apply spec_bind, spec_on. unfold gets, wp. cbn [fst snd]. rewrite put_view, view_put.
  destruct (reads_channel b (t_name t) h') eqn:Er.
  - apply spec_ret. cbn [fst snd]. rewrite view_put. split; [by apply (keeps_hub Write I HI)|]. split; [|by apply channels_ok_add].
    intros _. split; [done|]. rewrite Hg. cbn. eexists. split; apply lookup_insert_eq.
  - apply spec_bind, spec_on. unfold ask, wp. cbn [fst snd]. rewrite view_put, put_put.
    set (h2 := {| topic_heap := _; bus_heap := bus_heap h' |}).
    assert (Hok2 : channels_ok (hub_of x) -> channels_ok h2) by (intros Hok; by apply (channels_ok_add b id r t) in Hok).
    destruct (redis_answer _ _).
    + apply spec_ret. cbn [fst snd]. rewrite view_put. split; [by apply (keeps_hub Write I HI)|]. by split.
    + apply spec_bind, spec_on. unfold open_channel, modify, wp. cbn [fst snd]. rewrite view_put, put_put. apply spec_ret. cbn [fst snd].
      rewrite view_put. split; [by apply (keeps_hub Write I HI)|].
      assert (Hb2 : is_Some (bus_heap h2 !! b)).
      { unfold h2. cbn. unfold h', add_subscription, set_bus. cbn. destruct Hb as [z Hz]. rewrite list_lookup_insert_eq by by eapply lookup_lt_Some. by eexists. }
      assert (Hg2 : get_bus b h2 = get_bus b h') by done. split.
      * intros _. unfold reads_channel. rewrite get_set_bus by done. rewrite Hg2, Hg. cbn. split; [|eexists; split; apply lookup_insert_eq].
        apply bool_decide_eq_true_2. by apply elem_of_union_l, elem_of_singleton.
      * intros Hok. apply channels_ok_set_bus; [by apply Hok2|]. rewrite Hg2, Hg. cbn. intros cs' n [= <-] [->%elem_of_singleton|Hn]%elem_of_union.
        { by rewrite lookup_insert_eq. }
        pose proof (channels_ok_get b cs n h' (channels_ok_add b id r t _ Hok)) as Hget. rewrite Hg in Hget. by apply Hget.
Qed.
End Reach.
