(* ===== verification/PubsubDemo.v ===== *)
(** * Publish and subscribe: a concrete application

    Two pools with buses in memory of their own, a topic with two clients that write down what
    they are given, messages that are texts. *)
From S2P Require Import Prelude GoTime Utils Common Errors OpContext Db PoolData Pool PoolStore Pubsub PoolPubsub PubsubDelivery.
Open Scope go_scope.

Module PubsubDemo.
#[export] Instance pubsub_range : MapRange := {| range A m := map_to_list m; range_perm A m := reflexivity _ |}.
#[export] Instance no_redis : RedisServers := {| redis_answer _ _ := Some (Native "connection refused") |}.
(** Objects are texts; a topic of the kind [true] reads only those that are not empty. *)
#[export] Instance texts : Messages string bool := {|
  SerializeMessage s := inl s;
  ParseMessage s strict := if strict && bool_decide (s = "") then inr (Native "empty message") else inl s |}.

Record World := { w_hub : Hub string bool; w_env : Env; received : list (string * string) }.
#[export] Instance hub_lens : Lens World (Hub string bool).
Proof. by refine {| view := w_hub; put h w := {| w_hub := h; w_env := w_env w; received := received w |} |}; try intros []. Defined.
#[export] Instance world_env : Lens World Env.
Proof. by refine {| view := w_env; put e w := {| w_hub := w_hub w; w_env := e; received := received w |} |}; try intros []. Defined.
#[export] Instance recorders : SubscriberClients unit World string string := {|
  client_Name c := c;
  client_Handle c obj := on_ext (fun w =>
    (None, {| w_hub := w_hub w; w_env := w_env w; received := received w ++ [(c, obj)] |})) |}.
Definition Write (_ : Oplog unit) : M (St unit World) (option error) := ret None.

Definition recorded (l : list (string * string)) (w : World) : Prop := received w = l.
Lemma recorded_keeps : keeps Write recorded.
Proof.
  split; unfold recorded.
  - intros l c obj o x <-. by apply spec_on_ext.
  - intros l ol o x <-. by apply spec_ret.
  - by intros l e x <-.
  - by intros l h x <-.
Qed.

Definition pool (id name : string) : PoolBase :=
  {| p_base := ObjectBase.SetID id ObjectBase.zero; p_NAME := name; p_LONG_NAME := ""; p_DESCRIPTION := ""; p_ACTIVE := true |}.
Definition service (db : string) : PoolServiceBinding :=
  {| pb_base := ObjectBase.zero; pb_PoolId := ""; pb_PoolName := ""; pb_ROLE := TypePubsub; pb_ServiceId := "s"; pb_ServiceName := "bus";
     pb_data := {| s_LONG_NAME := ""; s_DESCRIPTION := ""; s_ACTIVE := true; TYPE_NAME := TypePubsub; REFID := "";
       s_config := {| PROVIDER := InmemProvider; PUBLIC_HOST := ""; PUBLIC_PORT := 0; PUBLIC_URL := ""; PRIVATE_HOST := "";
                      PRIVATE_PORT := 0; PRIVATE_URL := ""; USER := ""; DB_NAME := db; PARAMETER1 := ""; PARAMETER2 := "";
                      PARAMETER3 := ""; PARAMETER1_NAME := ""; PARAMETER2_NAME := ""; PARAMETER3_NAME := "" |};
       SECRET1 := ""; SECRET2 := "" |} |}.
Definition store : PoolStoreBase :=
  store_pool (SetServices [service "b"] (pool "p2" "spare")) (store_pool (SetServices [service "a"] (pool "p1" "main")) NewPoolStore).
Definition no_provider (_ : string) : string := "".
Definition no_config (_ : string) : RedisConfig + error := inr (Native "not configured").

Definition empty_hub : Hub string bool :=
  {| topic_heap := ∅; bus_heap := []; inmems := ∅; singletonInmem := ∅; redis_requests := [] |}.
Definition made := Init no_provider no_config store NewPubsub empty_hub.
Definition pubsub : PoolPubsubBase := made.1.1.
Definition news : Topic string bool := {| t_name := "news"; builder := true; subscribers := {["alice" := "alice"; "bob" := "bob"]} |}.
Definition with_topic : Hub string bool := set_topic 0 news made.2.
Definition world : World := {| w_hub := with_topic; w_env := {| env_now _ := 0%Z; env_rand n := Z.of_nat (1000 + n); env_tick := 0; idCount := 0 |}; received := [] |}.
Definition op : Op unit :=
  {| op_id := "op1"; op_name := "publish"; genericError := None; oplogs := []; errorManager := ErrorManagerBase.InitHttp;
     dbTransaction := false; errorAsWarn := false; writeCloseLog := true; origin := None; logs := [] |}.
Definition bus_of (id : string) : nat := default 99 (p_subscribers pubsub !! id).
End PubsubDemo.

Section Witnesses.
Import PubsubDemo.

Lemma bus_p1 : publishers pubsub !! "p1" = Some (InmemPublisher (bus_of "p1")).
Proof. vm_compute. reflexivity. Qed.

Lemma publish_reaches_witness :
  made.1.2 = None /\
  spec (let* '(ids, err) := SubscribePools pubsub 0 ["p1"] in PublishPools "app" "main" "host" Write pubsub "news" "hello" ["p1"])
    (fun err _ x' => err = None /\ exists ds, recorded ([] ++ ds) x' /\
       map (fun c => (c, "hello")) (range (subscribers news)).*2 ⊆+ ds /\
       Forall (fun co => exists r' t', (r' = 0 \/ subscribed (bus_of "p1") "news" r' with_topic) /\ topic_heap with_topic !! r' = Some t' /\
                 co.1 ∈ (range (subscribers t')).*2 /\ ParseMessage "hello" (builder t') = inl co.2) ds) op world.
Proof.
  assert (E : Init no_provider no_config store NewPubsub empty_hub = ((pubsub, None), made.2)) by (vm_compute; reflexivity).
  split; [vm_compute; reflexivity|].
  apply (publish_reaches "app" "main" "host" Write no_provider no_config recorded store empty_hub pubsub made.2 "p1" (bus_of "p1") 0 news
           "hello" "hello" "hello" [] op world recorded_keeps E).
  - split; apply map_Forall_empty.
  - exact bus_p1.
  - intros b (y & Hy & Hc). by exists y.
  - reflexivity.
  - reflexivity.
  - reflexivity.
  - reflexivity.
  - intros r t _ Ht. assert (Hh : topic_heap (view world) = {[0 := news]}) by (vm_compute; reflexivity).
    rewrite Hh in Ht. apply lookup_singleton_Some in Ht as [_ <-]. by exists "hello".
Defined.

(** A message reaches the subscribers of its own pool only; one the first topic does not read
    reaches nobody; a publisher in memory for a configuration without a service is a nil
    dereference. *)
Example deliveries :
  let run (ids : list string) (msg : string) :=
    received (st_ext ((SubscribePools pubsub 0 ["p1"] ;; PublishPools "app" "main" "host" Write pubsub "news" msg ids)
                {| st_trace := new_trace; st_op := op; st_ext := world |}).2) in
  run ["p1"] "hello" = [("alice", "hello"); ("bob", "hello")] /\ run ["p2"] "hello" = [] /\ run [] "hello" = run ["p1"] "hello" /\
  run ["p1"] "" = [] /\
  (MakePublisher (fun _ => InmemProvider) no_config [] empty_hub).1 = inr nil_service.
Proof. vm_compute. done. Qed.
End Witnesses.
