(* ===== verification/Access.v ===== *)
(** * pkg/access_control: access masks, HTTP methods, and the search for a rule

    Masks are 32-bit unsigned integers.  [CheckAccess] walks the paths of a resource from the
    most specific one, then the tags, then the roles of the subject, and the first rule found
    decides; [candidates] is the order of that search as a list.  The rules and the tags are
    behind the interfaces [Acl] and [ResourceManager]: they are functions here. *)
From S2P Require Import Prelude Utils Common Errors OpContext.
Open Scope go_scope.

(** ** Masks (access.go) *)

Definition AccessType := Z.

Definition Read : AccessType := 1%Z.
Definition Create : AccessType := 2%Z.
Definition UpdateReplace : AccessType := 4%Z.
Definition UpdatePartial : AccessType := 8%Z.
Definition Update : AccessType := Z.lor UpdateReplace UpdatePartial.
Definition Delete : AccessType := 16%Z.
Definition Post := Create.
Definition Get := Read.
Definition Put := UpdateReplace.
Definition Patch := UpdatePartial.
Definition All : AccessType := 4294967295%Z.

(** [^x] on 32 bits. *)
Definition not32 (x : Z) : Z := Z.lxor x All.

Module AccessBase.
(** The struct holds the mask only. *)
Definition t := Z.
Definition New (mask : Z) : t := mask.
Definition Grant (accessType : AccessType) (a : t) : t := Z.lor a accessType.
Definition Revoke (accessType : AccessType) (a : t) : t := Z.land a (not32 accessType).
Definition Check (a : t) (accessType : AccessType) : bool := negb (Z.land a accessType =? 0)%Z.
Definition Mask (a : t) : Z := a.
End AccessBase.

Definition Check (accessMask accessType : AccessType) : bool := negb (Z.land accessMask accessType =? 0)%Z.

(** The constants of net/http. *)
Definition MethodGet := "GET".
Definition MethodPost := "POST".
Definition MethodPut := "PUT".
Definition MethodPatch := "PATCH".
Definition MethodDelete := "DELETE".

Definition httpMethods2AccessTypes : gmap string AccessType := list_to_map
  [(MethodGet, Read); (MethodPost, Create); (MethodPut, UpdateReplace); (MethodPatch, UpdatePartial);
   (MethodDelete, Delete)].

Definition HttpMethod2Access (method : string) : AccessType :=
  default 0%Z (httpMethods2AccessTypes !! method).

Definition Access2HttpMethod (access : AccessType) : string :=
  let a := AccessBase.New access in
  if AccessBase.Check a Read then MethodGet
  else if AccessBase.Check a Create then MethodPost
  else if AccessBase.Check a UpdateReplace then MethodPut
  else if AccessBase.Check a UpdatePartial then MethodPatch
  else if AccessBase.Check a Delete then MethodDelete
  else "".

Definition HttpContentInQuery (accessType : AccessType) : bool :=
  let a := AccessBase.New accessType in AccessBase.Check a Get || AccessBase.Check a Delete.

(** ** Access control (access_control.go) *)

(** A resource as [CheckAccess] uses it. *)
Record Resource (Subject : Type) := {
  IsOwner : Subject -> bool;
  OwnerAccess : AccessBase.t;
  Paths : list string
}.
Arguments IsOwner {Subject}.
Arguments OwnerAccess {Subject}.
Arguments Paths {Subject}.

Section CheckAccess.
Context {Subject Role : Type}.
(** [subject.Roles()]; [acl.FindRule], the access of the rule if there is one; the tags of a
    path; the default access. *)
Variable Roles : Subject -> list Role.
Variable FindRule : string -> string -> Role -> option AccessBase.t + error.
Variable ResourceTags : string -> list string + error.
Variable defaultAccess : AccessBase.t.

(** The state of the search after a loop: a failure, a rule found, or nothing yet. *)
Inductive search := Failed (err : error) | Found (allow : bool) | NotFound.

(** The next step of a loop runs unless the search is over. *)
Definition or_else (s : search) (next : search) : search :=
  match s with NotFound => next | _ => s end.

Fixpoint search_roles (path tag : string) (accessType : AccessType) (roles : list Role) : search :=
  match roles with
  | [] => NotFound
  | role :: r =>
      or_else (match FindRule path tag role with
               | inr err => Failed err
               | inl (Some access) => Found (AccessBase.Check access accessType)
               | inl None => NotFound
               end) (search_roles path tag accessType r)
  end.

Fixpoint search_tags (path : string) (accessType : AccessType) (roles : list Role) (tags : list string) : search :=
  match tags with
  | [] => NotFound
  | tag :: r => or_else (search_roles path tag accessType roles) (search_tags path accessType roles r)
  end.

(** The loop over [j], from the given index down to 0. *)
Fixpoint search_levels (path : string) (accessType : AccessType) (roles : list Role)
    (tags : list (list string)) (j : nat) : search :=
  let here := search_tags path accessType roles (default [] (tags !! j) ++ [""]) in
  match j with
  | O => here
  | S j' => or_else here (search_levels path accessType roles tags j')
  end.

(** The loop over [i]: the paths of index below [n], the last one first. *)
Fixpoint search_paths (paths : list string) (accessType : AccessType) (roles : list Role)
    (tags : list (list string)) (n : nat) : search :=
  match n with
  | O => NotFound
  | S i => or_else (search_levels (default "" (paths !! i)) accessType roles tags i)
                   (search_paths paths accessType roles tags i)
  end.

(** The tags of each path, collected from the last path to the first one. *)
Fixpoint collect_tags (paths : list string) : list (list string) + error :=
  match paths with
  | [] => inl []
  | path :: r =>
      match collect_tags r with
      | inr err => inr err
      | inl tags => match ResourceTags path with inr err => inr err | inl l => inl (l :: tags) end
      end
  end.

Definition check_access (resource : Resource Subject) (subject : Subject) (accessType : AccessType) :
  bool * option error :=
  if IsOwner resource subject && AccessBase.Check (OwnerAccess resource) accessType then (true, None)
  else
    let allow := AccessBase.Check defaultAccess accessType in
    let paths := Paths resource in
    match collect_tags paths with
    | inr err => (false, Some err)
    | inl tags =>
        match search_paths paths accessType (Roles subject) tags (length paths) with
        | Failed err => (false, Some err)
        | Found allow => (allow, None)
        | NotFound => (allow, None)
        end
    end.

Definition CheckAccess {P X} (resource : Resource Subject) (subject : Subject) (accessType : AccessType) :
  M (St P X) (bool * option error) :=
  traced "AccessControl.CheckAccess" (fun _ => ret (check_access resource subject accessType)).

(** ** The order of the search *)

(** What is looked up for a path, given the tags of the paths up to it, the most specific level
    first: each tag of a level, then no tag, with each role. *)
Definition level_candidates (path : string) (roles : list Role) (tags : list string) :
  list (string * string * Role) :=
  flat_map (fun tag => map (fun role => (path, tag, role)) roles) (tags ++ [""]).

Definition path_candidates (path : string) (roles : list Role) (tags : list (list string)) :
  list (string * string * Role) :=
  flat_map (level_candidates path roles) (reverse tags).

Definition candidates (paths : list string) (roles : list Role) (tags : list (list string)) :
  list (string * string * Role) :=
  flat_map (fun i => path_candidates (default "" (paths !! i)) roles (take (S i) tags))
    (reverse (seq 0 (length paths))).

(** The first candidate with a rule or a failure. *)
Fixpoint first_rule (accessType : AccessType) (l : list (string * string * Role)) : search :=
  match l with
  | [] => NotFound
  | (path, tag, role) :: r =>
      match FindRule path tag role with
      | inr err => Failed err
      | inl (Some access) => Found (AccessBase.Check access accessType)
      | inl None => first_rule accessType r
      end
  end.

Lemma first_rule_app at_ l1 l2 : first_rule at_ (l1 ++ l2) = or_else (first_rule at_ l1) (first_rule at_ l2).
Proof.
  induction l1 as [|[[p t] r] l1 IH]; [done|]. cbn. destruct (FindRule p t r) as [[a|]|]; done.
Qed.

Lemma search_roles_first path tag at_ roles :
  search_roles path tag at_ roles = first_rule at_ (map (fun role => (path, tag, role)) roles).
Proof.
  induction roles as [|r l IH]; [done|]. cbn. rewrite IH. by destruct (FindRule path tag r) as [[a|]|].
Qed.

Lemma search_tags_first path at_ roles tags :
  search_tags path at_ roles tags =
  first_rule at_ (flat_map (fun tag => map (fun role => (path, tag, role)) roles) tags).
Proof.
  induction tags as [|t l IH]; [done|]. cbn. by rewrite first_rule_app, <- search_roles_first, IH.
Qed.

Lemma reverse_take_S {A} (l : list A) j x :
  l !! j = Some x -> reverse (take (S j) l) = x :: reverse (take j l).
Proof. intros E. by rewrite (take_S_r _ _ _ E), reverse_snoc. Qed.

Lemma search_levels_first path at_ roles tags j :
  j < length tags ->
  search_levels path at_ roles tags j = first_rule at_ (path_candidates path roles (take (S j) tags)).
Proof.
  intros Hj. unfold path_candidates. induction j as [|j IH].
  - destruct (lookup_lt_is_Some_2 tags 0 Hj) as [t E].
    rewrite (reverse_take_S _ _ _ E). cbn [flat_map]. rewrite take_0. cbn [reverse flat_map].
    rewrite app_nil_r. cbn [search_levels]. by rewrite E, search_tags_first.
  - destruct (lookup_lt_is_Some_2 tags (S j) Hj) as [t E].
    rewrite (reverse_take_S _ _ _ E). cbn [flat_map]. rewrite first_rule_app, <- IH by lia.
    cbn [search_levels]. by rewrite E, search_tags_first.
Qed.

Lemma search_paths_first paths at_ roles tags n :
  n <= length tags ->
  search_paths paths at_ roles tags n =
  first_rule at_ (flat_map (fun i => path_candidates (default "" (paths !! i)) roles (take (S i) tags))
                    (reverse (seq 0 n))).
Proof.
  intros Hn. induction n as [|n IH]; [done|].
  rewrite seq_S, reverse_snoc. cbn [flat_map]. rewrite first_rule_app, <- IH by lia.
  cbn [search_paths]. by rewrite search_levels_first by lia.
Qed.

Lemma collect_tags_length paths tags : collect_tags paths = inl tags -> length tags = length paths.
Proof.
  revert tags; induction paths as [|p l IH]; intros tags; cbn; [by intros [= <-]|].
  destruct (collect_tags l) as [ts|]; [|done]. destruct (ResourceTags p); [|done].
  intros [= <-]. cbn. by rewrite (IH ts).
Qed.

(** [C38] The decision of the access control: owner access wins; otherwise the nested loops over
    paths, levels of tags, tags and roles decide as the first rule in the order of [candidates],
    most specific path first; without any rule the default access decides; a failure to read the
    tags or a rule before that denies. *)
Theorem check_access_first_rule resource subject accessType :
  check_access resource subject accessType =
  if IsOwner resource subject && AccessBase.Check (OwnerAccess resource) accessType then (true, None)
  else match collect_tags (Paths resource) with
       | inr err => (false, Some err)
       | inl tags =>
           match first_rule accessType (candidates (Paths resource) (Roles subject) tags) with
           | Failed err => (false, Some err)
           | Found allow => (allow, None)
           | NotFound => (AccessBase.Check defaultAccess accessType, None)
           end
       end.
Proof.
  unfold check_access. destruct (_ && _); [done|].
  destruct (collect_tags (Paths resource)) as [tags|] eqn:E; [|done].
  apply collect_tags_length in E. unfold candidates. by rewrite search_paths_first by lia.
Qed.
End CheckAccess.

(** ** Masks bit by bit *)

Definition in_uint32 (z : Z) : Prop := (0 <= z < 2 ^ 32)%Z.

Lemma testbit_high z k : in_uint32 z -> (32 <= k)%Z -> Z.testbit z k = false.
Proof.
  intros [H0 H1] Hk. destruct (decide (z = 0)%Z) as [->|Hz]; [apply Z.bits_0|].
  apply Z.bits_above_log2; [done|]. apply Z.log2_lt_pow2 in H1; lia.
Qed.

Lemma uint32_of_testbit z : (0 <= z)%Z -> (forall k, (32 <= k)%Z -> Z.testbit z k = false) -> in_uint32 z.
Proof.
  intros H0 Hk. split; [done|]. destruct (decide (z = 0)%Z) as [->|Hz]; [lia|].
  apply Z.log2_lt_pow2; [lia|]. destruct (Z_lt_ge_dec (Z.log2 z) 32) as [|Hge]; [done|].
  specialize (Hk (Z.log2 z) ltac:(lia)). rewrite Z.bit_log2 in Hk by lia. done.
Qed.

Lemma All_testbit k : (0 <= k)%Z -> Z.testbit All k = (k <? 32)%Z.
Proof. change All with (Z.ones 32). intros. rewrite Z.testbit_ones by lia. by destruct (0 <=? k)%Z eqn:E; [|lia]. Qed.

(** Two masks intersect when they share a bit. *)
Lemma Check_testbit m t : in_uint32 m ->
  Check m t = true <-> exists k, (0 <= k < 32)%Z /\ Z.testbit m k = true /\ Z.testbit t k = true.
Proof.
  intros Hm. unfold Check. rewrite negb_true_iff, Z.eqb_neq. split.
  - intros Hne. destruct (decide (0 <= Z.land m t)%Z) as [Hp|]; [|exfalso; apply n, Z.land_nonneg; left; apply Hm].
    assert (Hb : Z.testbit (Z.land m t) (Z.log2 (Z.land m t)) = true) by (apply Z.bit_log2; lia).
    rewrite Z.land_spec, andb_true_iff in Hb. destruct Hb as [Hb1 Hb2].
    exists (Z.log2 (Z.land m t)). split; [|done]. split; [apply Z.log2_nonneg|].
    destruct (Z_lt_ge_dec (Z.log2 (Z.land m t)) 32) as [|Hge]; [done|].
    rewrite testbit_high in Hb1 by (done || lia). done.
  - intros (k & Hk & H1 & H2) E. apply (f_equal (fun z => Z.testbit z k)) in E.
    by rewrite Z.land_spec, H1, H2, Z.bits_0 in E.
Qed.

(** Granting and revoking: the mask stays a 32-bit mask; after [Grant] an access is allowed
    exactly when it was allowed before or meets the granted one, and after [Revoke] no part of the
    revoked access is allowed while an access disjoint from it is allowed as before. *)
Theorem Grant_Revoke_Check m t u :
  in_uint32 m -> in_uint32 t ->
  in_uint32 (AccessBase.Grant t m) /\ in_uint32 (AccessBase.Revoke t m) /\
  AccessBase.Check (AccessBase.Grant t m) u = AccessBase.Check m u || AccessBase.Check t u /\
  AccessBase.Check (AccessBase.Revoke t m) t = false /\
  (AccessBase.Check t u = false -> AccessBase.Check (AccessBase.Revoke t m) u = AccessBase.Check m u).
Proof.
  intros Hm Ht. pose proof Hm as [Hm0 _]. pose proof Ht as [Ht0 _].
  assert (Hg : in_uint32 (AccessBase.Grant t m)).
  { apply uint32_of_testbit; [by apply Z.lor_nonneg|]. intros k Hk. unfold AccessBase.Grant.
    by rewrite Z.lor_spec, !testbit_high. }
  assert (Hr : in_uint32 (AccessBase.Revoke t m)).
  { apply uint32_of_testbit; [apply Z.land_nonneg; by left|]. intros k Hk. unfold AccessBase.Revoke.
    by rewrite Z.land_spec, testbit_high. }
  assert (Hrb : forall k, (0 <= k < 32)%Z ->
            Z.testbit (AccessBase.Revoke t m) k = Z.testbit m k && negb (Z.testbit t k)).
  { intros k Hk. unfold AccessBase.Revoke, not32. rewrite Z.land_spec, Z.lxor_spec, All_testbit by lia.
    by destruct (k <? 32)%Z eqn:E; [rewrite xorb_true_r|lia]. }
  change AccessBase.Check with Check. split; [done|]. split; [done|]. split; [|split].
  - apply eq_true_iff_eq. rewrite orb_true_iff, !Check_testbit by done. unfold AccessBase.Grant. split.
    + intros (k & Hk & Hb & Hu). rewrite Z.lor_spec, orb_true_iff in Hb. destruct Hb; [left|right]; by exists k.
    + intros [(k & Hk & Hb & Hu)|(k & Hk & Hb & Hu)]; exists k; rewrite Z.lor_spec, Hb, ?orb_true_r; done.
  - apply not_true_iff_false. rewrite Check_testbit by done. intros (k & Hk & Hb & Hu).
    rewrite Hrb, Hu, andb_false_r in Hb by done. done.
  - intros Hd. apply eq_true_iff_eq. rewrite !Check_testbit by done. split.
    + intros (k & Hk & Hb & Hu). rewrite Hrb, andb_true_iff in Hb by done. exists k. tauto.
    + intros (k & Hk & Hb & Hu). exists k. split; [done|]. split; [|done]. rewrite Hrb, Hb by done. cbn.
      destruct (Z.testbit t k) eqn:E; [|done]. apply not_true_iff_false in Hd. exfalso. apply Hd.
      apply Check_testbit; [done|]. by exists k.
Qed.

Lemma Grant_Revoke_Check_witness :
  AccessBase.Check (AccessBase.Grant Update 0%Z) UpdatePartial = true /\
  AccessBase.Check (AccessBase.Revoke UpdatePartial (AccessBase.Grant Update Read)) UpdatePartial = false.
Proof.
  destruct (Grant_Revoke_Check 0%Z Update UpdatePartial) as (_ & _ & E & _); [vm_compute; split; congruence..|].
  destruct (Grant_Revoke_Check (AccessBase.Grant Update Read) UpdatePartial UpdatePartial)
    as (_ & _ & _ & F & _); [vm_compute; split; congruence..|].
  rewrite E, F. vm_compute. split; reflexivity.
Defined.

(** HTTP methods: the access of a known method gives the method back, the access of any other
    method allows nothing under any mask. *)
Theorem HttpMethod_roundtrip method mask :
  if decide (method ∈ [MethodGet; MethodPost; MethodPut; MethodPatch; MethodDelete]) then
    Access2HttpMethod (HttpMethod2Access method) = method
  else Check mask (HttpMethod2Access method) = false.
Proof.
  case_decide as H.
  - rewrite !elem_of_cons in H. destruct H as [->|[->|[->|[->|[->|H]]]]]; [reflexivity..|].
    by apply not_elem_of_nil in H.
  - unfold HttpMethod2Access, Check. replace (httpMethods2AccessTypes !! method) with (@None AccessType).
    + cbn. by rewrite Z.land_0_r.
    + symmetry. apply not_elem_of_list_to_map_1. cbn. exact H.
Qed.
