(* ===== verification/Auth.v ===== *)
(** * pkg/auth: contexts, handlers, schemas, the manager, endpoints

    A handler answers whether the request has its section and an error.  A schema runs its
    handlers one after another and combines the answers, the manager finds the schema of a
    request.  The request and its response are [AuthContext]: parameters are headers, named as
    the REST server names them. *)
From S2P Require Import Prelude GoTime Utils Common Errors OpContext.
From S2P Require Access.
Open Scope go_scope.

(** ** Errors (auth_errors.go) *)

Definition ErrorCodeUnauthorized := "unauthorized".
Definition ErrorCodeInvalidAuthSchema := "invalid_auth_schema".
Definition ErrorCodeUnsupportedAuthMethod := "unknown_auth_method".

Definition ErrorDescriptions : gmap string string := list_to_map
  [(ErrorCodeUnauthorized, "Request is not authorized.");
   (ErrorCodeInvalidAuthSchema, "Invalid authorization schema.");
   (ErrorCodeUnsupportedAuthMethod, "Unsupported authorization method.")].

Definition ErrorHttpCodes : gmap string Z := list_to_map
  [(ErrorCodeUnauthorized, 401%Z); (ErrorCodeInvalidAuthSchema, 500%Z);
   (ErrorCodeUnsupportedAuthMethod, 401%Z)].

(** ** Users and the context of a request (auth_user.go, auth_handler.go) *)

(** An [auth.User] by the results of its methods; the optional interfaces handlers ask for
    are options. *)
Record AuthUser := {
  GetID : string; Display : string; Login : string; IsBlocked : bool;
  (** [auth_sms.UserWithPhone] *)
  Phone : option string;
  (** [auth_login_phash.User]: password hash and salt *)
  Phash : option (string * string);
  (** [auth_hmac.UserWithHmacSecret] *)
  HmacSecret : option string;
  (** [signature.UserWithPubkey]: public key and its hash *)
  Pubkey : option (string * string)
}.

Module WithUserBase.
Record t := { UserId : string; UserLogin : string; UserDisplay : string }.
Definition zero : t := {| UserId := ""; UserLogin := ""; UserDisplay := "" |}.
Definition SetUser (user : AuthUser) (_ : t) : t :=
  {| UserId := GetID user; UserLogin := Login user; UserDisplay := Display user |}.
End WithUserBase.

(** What [UserBase] answers as an [auth.User]. *)
Definition UserBase (UserId UserLogin UserDisplay : string) (UserBlocked : bool) : AuthUser :=
  {| GetID := UserId; Display := UserDisplay; Login := UserLogin; IsBlocked := UserBlocked;
     Phone := None; Phash := None; HmacSecret := None; Pubkey := None |}.

(** [precheck] is the endpoint's [PrecheckRequestBeforeAuth]: given the SMS message it returns
    the message and an error.  [tenancy] is the ID of the tenancy of the request. *)
Record AuthContext := {
  request_path : string; request_method : string; request_content : string;
  client_ip : string; user_agent : string;
  precheck : string -> string * option error;
  request_headers : gmap string string;
  response_headers : gmap string string;
  session_ : string; client_ : string;
  authUser : option AuthUser;
  tenancy : option string
}.

Definition with_response (h : gmap string string) (x : AuthContext) : AuthContext :=
  {| request_path := request_path x; request_method := request_method x;
     request_content := request_content x; client_ip := client_ip x; user_agent := user_agent x;
     precheck := precheck x; request_headers := request_headers x; response_headers := h;
     session_ := session_ x; client_ := client_ x; authUser := authUser x; tenancy := tenancy x |}.
Definition with_session (s : string) (x : AuthContext) : AuthContext :=
  {| request_path := request_path x; request_method := request_method x;
     request_content := request_content x; client_ip := client_ip x; user_agent := user_agent x;
     precheck := precheck x; request_headers := request_headers x; response_headers := response_headers x;
     session_ := s; client_ := client_ x; authUser := authUser x; tenancy := tenancy x |}.
Definition with_client (s : string) (x : AuthContext) : AuthContext :=
  {| request_path := request_path x; request_method := request_method x;
     request_content := request_content x; client_ip := client_ip x; user_agent := user_agent x;
     precheck := precheck x; request_headers := request_headers x; response_headers := response_headers x;
     session_ := session_ x; client_ := s; authUser := authUser x; tenancy := tenancy x |}.
Definition with_user (u : option AuthUser) (x : AuthContext) : AuthContext :=
  {| request_path := request_path x; request_method := request_method x;
     request_content := request_content x; client_ip := client_ip x; user_agent := user_agent x;
     precheck := precheck x; request_headers := request_headers x; response_headers := response_headers x;
     session_ := session_ x; client_ := client_ x; authUser := u; tenancy := tenancy x |}.

(** Headers of the REST server (request.go, server.go): anti-CSRF tokens have a name of
    their own, and setting an empty value removes a header. *)
Definition AntiCsrfProtocol := "csrf".
Definition AuthKey (key : string) : string := "x-auth-" +:+ key.
Definition csrfKey (key : string) : string := "x-" +:+ key.
Definition auth_header (authMethodProtocol key : string) : string :=
  if decide (authMethodProtocol = AntiCsrfProtocol) then csrfKey key else AuthKey key.
Definition set_header (name val : string) (h : gmap string string) : gmap string string :=
  if decide (val = "") then delete name h else <[name := val]> h.

Section ContextOps.
Context {P X : Type} `{Lx : !Lens X AuthContext}.
Local Abbreviation act := (M (St P X)).

Definition request {A} (f : AuthContext -> A) : act A := on (gets f).
Definition AuthUser_ : act (option AuthUser) := request authUser.
Definition SetAuthUser (u : option AuthUser) : act unit := on (modify (with_user u)).
Definition GetSessionId : act string := request session_.
Definition SetSessionId (id : string) : act unit := on (modify (with_session id)).
Definition GetClientId : act string := request client_.
Definition SetClientId (id : string) : act unit := on (modify (with_client id)).
Definition GetAuthParameter (authMethodProtocol key : string) : act string :=
  request (fun x => default "" (request_headers x !! auth_header authMethodProtocol key)).
Definition SetAuthParameter (authMethodProtocol key val : string) : act unit :=
  on (modify (fun x => with_response (set_header (auth_header authMethodProtocol key) val (response_headers x)) x)).
End ContextOps.

(** ** Tokens that expire (expire_token.go) *)

Module ExpireToken.
Record t := { Exp : Z }.
Definition zero : t := {| Exp := 0 |}.
(** [time.Second * time.Duration(seconds)] wraps. *)
Definition SetTTL (seconds : Z) : M Env t :=
  let* now := Now in ret {| Exp := (now + int64 (second * seconds))%Z |}.
Definition Expired (e : t) : M Env bool :=
  let* now := Now in ret (Exp e <? now)%Z.
End ExpireToken.

(** ** Handlers (auth_handler.go) *)

Record AuthHandler (P X : Type) := {
  Name : string;
  Protocol : string;
  Handle : M (St P X) (bool * option error);
  h_ErrorDescriptions : gmap string string;
  h_ErrorProtocolCodes : gmap string Z;
  IsReal : bool
}.
Arguments Name {P X}.
Arguments Protocol {P X}.
Arguments Handle {P X}.
Arguments h_ErrorDescriptions {P X}.
Arguments h_ErrorProtocolCodes {P X}.
Arguments IsReal {P X}.

(** ** Schemas (auth_schema.go) *)

Definition And := "and".
Definition Or := "or".
Definition AggregationProtocol := "aggregation".

Record AuthSchema (P X : Type) := {
  schema_name : string;
  AGGREGATION : string;
  handlers : list (AuthHandler P X)
}.
Arguments schema_name {P X}.
Arguments AGGREGATION {P X}.
Arguments handlers {P X}.

Module AuthSchema.
Section Methods.
Context {P X : Type}.
Local Abbreviation act := (M (St P X)).

(** [NewAuthSchema]: the aggregation is empty until the configuration is loaded. *)
Definition New : AuthSchema P X := {| schema_name := ""; AGGREGATION := ""; handlers := [] |}.
Definition SetAggregation (aggregation : string) (a : AuthSchema P X) : AuthSchema P X :=
  {| schema_name := schema_name a; AGGREGATION := aggregation; handlers := handlers a |}.
Definition AppendHandlers (hs : list (AuthHandler P X)) (a : AuthSchema P X) : AuthSchema P X :=
  {| schema_name := schema_name a; AGGREGATION := AGGREGATION a; handlers := handlers a ++ hs |}.

Fixpoint handle_loop (a : AuthSchema P X) (c : nat) (hs : list (AuthHandler P X)) (authMethodFound : bool) :
  act (bool * option error) :=
  match hs with
  | [] =>
      if negb (length (handlers a) =? 0)%nat && negb authMethodFound then
        SetGenericErrorCode ErrorCodeUnauthorized [] ;;
        let* err := SetError c (Some (Native "no auth section in request")) in
        ret (authMethodFound, err)
      else ret (authMethodFound, None)
  | handler :: rest =>
      let* '(sectionFound, err) := Handle handler in
      if negb (IsReal handler) || (negb sectionFound && bool_decide (AGGREGATION a = Or)) then
        handle_loop a c rest authMethodFound
      else
        match err with
        | Some _ =>
            SetGenericErrorCode ErrorCodeUnauthorized [] ;;
            let* err := SetError c err in
            ret (sectionFound, err)
        | None =>
            if bool_decide (AGGREGATION a = Or) then ret (sectionFound, None)
            else handle_loop a c rest (authMethodFound || sectionFound)
        end
  end.

Definition Handle (a : AuthSchema P X) : act (bool * option error) :=
  traced "AuthSchema.Handle" (fun c => handle_loop a c (handlers a) false).

(** A schema is a handler itself. *)
Definition handler (a : AuthSchema P X) : AuthHandler P X :=
  {| Name := schema_name a; Protocol := AggregationProtocol; Auth.Handle := Handle a;
     h_ErrorDescriptions := ∅; h_ErrorProtocolCodes := ∅; IsReal := true |}.
End Methods.
End AuthSchema.

(** ** The manager (auth_manager.go) *)

Module HandlerStoreBase.
Section Methods.
Context {P X : Type}.
Local Abbreviation t := (gmap string (AuthHandler P X)).
Definition Handler (name : string) (h : t) : AuthHandler P X + error :=
  match h !! name with
  | Some handler => inl handler
  | None => inr (Native "unknown authorization handler")
  end.
Definition HandlerNames (h : t) : list string := (map_to_list h).*1.
(** The first handler of a name stays. *)
Definition AddHandler (handler : AuthHandler P X) (h : t) : t :=
  match h !! Name handler with
  | Some _ => h
  | None => <[Name handler := handler]> h
  end.
End Methods.
End HandlerStoreBase.

(** A method as the factory creates it: the handler, the handlers inside it, and whether
    [SetAuthManager] puts it among the schemas. *)
Record AuthMethod (P X : Type) := {
  m_handler : AuthHandler P X;
  m_Handlers : list (AuthHandler P X);
  m_in_schemas : bool
}.
Arguments m_handler {P X}.
Arguments m_Handlers {P X}.
Arguments m_in_schemas {P X}.

Module AuthManagerBase.
Record t (P X : Type) := {
  handlers : gmap string (AuthHandler P X);
  schemas : gmap string (AuthHandler P X)
}.
Arguments handlers {P X}.
Arguments schemas {P X}.

Section Methods.
Context {P X : Type}.
Local Abbreviation act := (M (St P X)).

(** The part of [Init] after the configuration is read: the methods in the order Go ranges
    over the section, which is a map, then the schemas of the configuration. *)
Definition add_method (m : AuthMethod P X) (a : t P X) : t P X :=
  {| schemas := if m_in_schemas m then HandlerStoreBase.AddHandler (m_handler m) (schemas a) else schemas a;
     handlers := foldl (fun s h => HandlerStoreBase.AddHandler h s) (handlers a) (m_handler m :: m_Handlers m) |}.

Definition add_schema (s : AuthHandler P X) (a : t P X) : t P X :=
  {| handlers := HandlerStoreBase.AddHandler s (handlers a);
     schemas := HandlerStoreBase.AddHandler s (schemas a) |}.

Definition Init (methods : list (AuthMethod P X)) (configured : list (AuthHandler P X)) : t P X :=
  foldl (fun a s => add_schema s a)
    (foldl (fun a m => add_method m a) {| handlers := ∅; schemas := ∅ |} methods) configured.

Definition ErrorDescriptions (a : t P X) : gmap string string :=
  foldl (fun m h => AppendMap m (h_ErrorDescriptions h)) ErrorDescriptions (map_to_list (handlers a)).*2.
Definition ErrorProtocolCodes (a : t P X) : gmap string Z :=
  foldl (fun m h => AppendMap m (h_ErrorProtocolCodes h)) ErrorHttpCodes (map_to_list (handlers a)).*2.

Definition Handle (a : t P X) (schema : string) : act (option error) :=
  traced_exit "AuthManagerBase.Handle" (fun c =>
    match HandlerStoreBase.Handler schema (schemas a) with
    | inr err =>
        SetGenericErrorCode ErrorCodeInvalidAuthSchema [] ;;
        let* r := SetError c (Some err) in
        ret (r, Some err)
    | inl handler =>
        let* '(_, err) := Auth.Handle handler in
        ret (err, err)
    end).
End Methods.
End AuthManagerBase.

(** ** Endpoints (endpoint_config.go) *)

Record endpointSchema := { ACCESS : Access.AccessType; HTTP_METHOD : string; SCHEMA : string }.

Module EndpointsAuthConfigBase.
Definition t := gmap string (list endpointSchema).

Fixpoint find_schema (ep : list endpointSchema) (access : Access.AccessType) : string * bool :=
  match ep with
  | [] => ("", false)
  | epSchema :: rest =>
      if Access.Check (ACCESS epSchema) access then (SCHEMA epSchema, true) else find_schema rest access
  end.

Definition Schema (e : t) (path : string) (access : Access.AccessType) : string * bool :=
  match e !! path with
  | None => ("", false)
  | Some ep => find_schema ep access
  end.

(** A section of the configuration: a HTTP method replaces the access mask. *)
Definition load_schema (s : endpointSchema) : endpointSchema :=
  if decide (HTTP_METHOD s = "") then s
  else {| ACCESS := Access.HttpMethod2Access (HTTP_METHOD s); HTTP_METHOD := HTTP_METHOD s; SCHEMA := SCHEMA s |}.
Definition Init (sections : gmap string (list endpointSchema)) : t := map load_schema <$> sections.
End EndpointsAuthConfigBase.

(** ** Requests (auth.go, noauth.go) *)

Module AuthBase.
Record t (P X : Type) := {
  DEFAULT_SCHEMA : string;
  manager : AuthManagerBase.t P X;
  endpointsConfig : EndpointsAuthConfigBase.t
}.
Arguments DEFAULT_SCHEMA {P X}.
Arguments manager {P X}.
Arguments endpointsConfig {P X}.

Section Methods.
Context {P X : Type}.

Definition schema_of (a : t P X) (path : string) (access : Access.AccessType) : string :=
  let '(schema, ok) := EndpointsAuthConfigBase.Schema (endpointsConfig a) path access in
  if (ok : bool) then schema else DEFAULT_SCHEMA a.

Definition HandleRequest (a : t P X) (path : string) (access : Access.AccessType) : M (St P X) (option error) :=
  traced_exit "AuthBase.Handle" (fun c =>
    let* err := AuthManagerBase.Handle (manager a) (schema_of a path access) in
    let* r := SetError c err in
    ret (r, err)).

Definition AttachToErrorManager (a : t P X) (m : ErrorManagerBase.t) : ErrorManagerBase.t :=
  ErrorManagerBase.AddErrorProtocolCodes (AuthManagerBase.ErrorProtocolCodes (manager a))
    (ErrorManagerBase.AddErrorDescriptions (AuthManagerBase.ErrorDescriptions (manager a)) m).
End Methods.
End AuthBase.

Module NoAuthMethod.
Definition NoAuthProtocol := "noauth".

Section Methods.
Context {P X : Type} `{Lx : !Lens X AuthContext}.

Definition user : AuthUser := UserBase "0" "_noauth_" "_none_" false.

Definition Handle : M (St P X) (bool * option error) :=
  traced "NoAuth.Handle" (fun _ =>
    SetAuthUser (Some user) ;;
    ret (true, None)).

Definition HandleRequest : M (St P X) (option error) := Handle ;; ret None.
End Methods.
End NoAuthMethod.

(** ** What a schema accepts *)

Section SchemaFacts.
Context {P X : Type}.
Implicit Types (hs : list (AuthHandler P X)) (a : AuthSchema P X) (s : St P X).

(** Handlers run one after another, with their answers. *)
Inductive runs : list (AuthHandler P X) -> St P X -> list (bool * option error) -> St P X -> Prop :=
| runs_nil s : runs [] s [] s
| runs_cons h hs s rs s' :
    runs hs (Handle h s).2 rs s' -> runs (h :: hs) s ((Handle h s).1 :: rs) s'.

(** An "or" schema stops at the first real handler that finds its section, which must agree;
    any other schema asks every handler: no real one may fail and one must find its section. *)
Definition skipped_or (x : AuthHandler P X * (bool * option error)) : Prop :=
  IsReal x.1 = false \/ x.2.1 = false.
Definition accepted_or (l : list (AuthHandler P X * (bool * option error))) : Prop :=
  exists l0 h, l = l0 ++ [(h, (true, None))] /\ IsReal h = true /\ Forall skipped_or l0.
Definition accepted_and (l : list (AuthHandler P X * (bool * option error))) : Prop :=
  Forall (fun x => IsReal x.1 = true -> x.2.2 = None) l /\
  Exists (fun x => IsReal x.1 = true /\ x.2.1 = true) l.

Definition same_data s s' : Prop := st_op s = st_op s' /\ st_ext s = st_ext s'.

Lemma accepted_or_skip h b e l : skipped_or (h, (b, e)) -> accepted_or l -> accepted_or ((h, (b, e)) :: l).
Proof. intros Hs (l0 & h' & -> & Hr & Hl). exists ((h, (b, e)) :: l0), h'. repeat split; [done|by constructor]. Qed.

Lemma handle_loop_or a c hs s found s' :
  AGGREGATION a = Or -> handlers a <> [] ->
  AuthSchema.handle_loop a c hs false s = ((found, None), s') ->
  found = true /\ exists n rs s1, runs (take n hs) s rs s1 /\ same_data s1 s' /\
    length rs = length (take n hs) /\ accepted_or (zip (take n hs) rs).
Proof.
  intros Hagg Hne. revert s. induction hs as [|h hs IH]; intros s; cbn [AuthSchema.handle_loop].
  - destruct (handlers a) as [|h0 hs0]; [done|]. cbn. by intros [= _ ? _].
  - unfold bind at 1. destruct (Handle h s) as [[b e] s1] eqn:Eh. cbn [fst snd].
    destruct (negb (IsReal h) || _) eqn:Eskip.
    + intros E. apply IH in E as (-> & n & rs & s2 & Hr & Hd & Hl & Hacc). split; [done|].
      exists (S n), ((b, e) :: rs), s2. split_and!; [|done|cbn; lia|].
      * cbn [take]. replace (b, e) with (Handle h s).1 by (by rewrite Eh). constructor. by rewrite Eh.
      * apply accepted_or_skip; [|done]. unfold skipped_or; cbn. destruct (IsReal h); [right|by left].
        by destruct b.
    + apply orb_false_iff in Eskip as [Er Eb]. rewrite Hagg in Eb |- *. rewrite bool_decide_eq_true_2 in * by done.
      destruct e as [e|]; [by intros [= _ ? _]|]. intros [= <- <-]. destruct b; [|done]. split; [done|].
      exists 1, [(true, None)], s1. replace (take 1 (h :: hs)) with [h] by (by destruct hs). split_and!; [|done|done|].
      * replace (true, None) with (Handle h s).1 by (by rewrite Eh). constructor. rewrite Eh. constructor.
      * exists [], h. by destruct (IsReal h).
Qed.

Lemma handle_loop_and a c hs s found0 found s' :
  AGGREGATION a <> Or ->
  AuthSchema.handle_loop a c hs found0 s = ((found, None), s') ->
  (handlers a <> [] -> found = true) /\ exists rs s1, runs hs s rs s1 /\ same_data s1 s' /\
    Forall (fun x => IsReal x.1 = true -> x.2.2 = None) (zip hs rs) /\
    (found = found0 \/ Exists (fun x => IsReal x.1 = true /\ x.2.1 = true) (zip hs rs)).
Proof.
  intros Hagg. revert s found0. induction hs as [|h hs IH]; intros s found0; cbn [AuthSchema.handle_loop].
  - destruct (handlers a) as [|h0 hs0], found0; cbn; intros [= <- <-];
      (split; [done|exists [], s; split_and!; [constructor|done|constructor|by left]]).
  - unfold bind at 1. destruct (Handle h s) as [[b e] s1] eqn:Eh. cbn [fst snd].
    rewrite (bool_decide_eq_false_2 (AGGREGATION a = Or)) by done. rewrite andb_false_r, orb_false_r.
    assert (Hrun : forall rs s2, runs hs s1 rs s2 -> runs (h :: hs) s ((b, e) :: rs) s2).
    { intros rs s2 Hr. replace (b, e) with (Handle h s).1 by (by rewrite Eh). constructor. by rewrite Eh. }
    destruct (IsReal h) eqn:Er; cbn [negb].
    + destruct e as [e|]; [by intros [= _ ? _]|]. intros E.
      apply IH in E as (Hf & rs & s2 & Hr & Hd & Hall & Hex). split; [done|].
      exists ((b, None) :: rs), s2. split_and!; [by apply Hrun|done|by constructor|].
      destruct Hex as [Hf0|Hex]; [|right; by constructor]. destruct b; [right; left; done|].
      left. by rewrite Hf0, orb_false_r.
    + intros E. apply IH in E as (Hf & rs & s2 & Hr & Hd & Hall & Hex). split; [done|].
      exists ((b, e) :: rs), s2. split_and!; [by apply Hrun|done| |].
      * constructor; [|done]. cbn. by rewrite Er.
      * destruct Hex as [|Hex]; [by left|right; by constructor].
Qed.

(** A failed loop leaves a generic error, and the error it returns is in the call stack. *)
Lemma handle_loop_rejects a c hs s found0 found e s' :
  AuthSchema.handle_loop a c hs found0 s = ((found, Some e), s') -> genericError (st_op s') <> None.
Proof.
  revert s found0. induction hs as [|h hs IH]; intros s found0; cbn [AuthSchema.handle_loop].
  - destruct (_ && _); [|done]. intros [= _ _ <-]. cbn -[bool_decide].
    destruct (genericError (st_op s)) eqn:E; [|done]. cbn. by rewrite E.
  - unfold bind at 1. destruct (Handle h s) as [[b r] s1]. cbn [fst snd].
    destruct (_ || _); [apply IH|]. destruct r as [r|].
    + intros [= _ _ <-]. cbn -[bool_decide]. destruct (genericError (st_op s1)) eqn:E; [|done]. cbn. by rewrite E.
    + case_bool_decide; [done|apply IH].
Qed.
End SchemaFacts.

Section SchemaTheorems.
Context {P X : Type}.
Implicit Types (a : AuthSchema P X) (s : St P X).

(** The meaning of an aggregation.  When a schema with handlers accepts a request it says
    that the section was found, and: an "or" schema ran a prefix of its handlers, all but the
    last one not real or without their section in the request, and the last one real, with its
    section, and agreeing; any other schema ran all its handlers, no real one failed, and at
    least one real one found its section.  The data afterwards is what the handlers left. *)
Theorem AuthSchema_accepts a s found s' :
  handlers a <> [] -> AuthSchema.Handle a s = ((found, None), s') ->
  found = true /\
  exists n rs s1, runs (take n (handlers a)) (TraceInMethod "AuthSchema.Handle" s).2 rs s1 /\ same_data s1 s' /\
    if decide (AGGREGATION a = Or) then accepted_or (zip (take n (handlers a)) rs)
    else n = length (handlers a) /\ accepted_and (zip (take n (handlers a)) rs).
Proof.
  intros Hne. unfold AuthSchema.Handle, traced, bind, ret.
  destruct (TraceInMethod _ s) as [c s0]. cbn [fst snd].
  destruct (AuthSchema.handle_loop _ _ _ _ _) as [[b e] s1] eqn:E. cbn [fst snd].
  intros [= <- -> <-]. case_decide as Hagg.
  - apply handle_loop_or in E as (-> & n & rs & s2 & Hr & [? ?] & _ & Hacc); [|done..].
    split; [done|]. exists n, rs, s2. split_and!; [done|done|done].
  - apply handle_loop_and in E as (Hf & rs & s2 & Hr & Hd & Hall & Hex); [|done].
    specialize (Hf Hne). subst b. split; [done|]. exists (length (handlers a)), rs, s2.
    rewrite firstn_all. destruct Hex as [|Hex]; [done|]. repeat split; by try apply Hd.
Qed.

(** A schema that rejects a request leaves a generic error for the response, whatever
    its handlers did. *)
Theorem AuthSchema_rejects a s found e s' :
  AuthSchema.Handle a s = ((found, Some e), s') -> genericError (st_op s') <> None.
Proof.
  unfold AuthSchema.Handle, traced, bind, ret. destruct (TraceInMethod _ s) as [c s0]. cbn [fst snd].
  destruct (AuthSchema.handle_loop _ _ _ _ _) as [[b r] s1] eqn:E. cbn [fst snd].
  intros [= <- -> <-]. exact (handle_loop_rejects _ _ _ _ _ _ _ _ E).
Qed.

(** ** Dispatch *)

Lemma find_schema_app pre e post access :
  Forall (fun x => Access.Check (ACCESS x) access = false) pre -> Access.Check (ACCESS e) access = true ->
  EndpointsAuthConfigBase.find_schema (pre ++ e :: post) access = (SCHEMA e, true).
Proof. intros Hpre He. induction Hpre as [|x pre Hx _ IH]; cbn; [by rewrite He|by rewrite Hx]. Qed.

Lemma find_schema_none ep access :
  Forall (fun x => Access.Check (ACCESS x) access = false) ep ->
  EndpointsAuthConfigBase.find_schema ep access = ("", false).
Proof. intros Hpre. induction Hpre as [|x pre Hx _ IH]; cbn; [done|by rewrite Hx]. Qed.

(** The rules of a path split at the first one that admits the access, if there is one. *)
Definition first_rule_for (access : Access.AccessType) (rules : list endpointSchema) (rule : option endpointSchema) : Prop :=
  match rule with
  | Some e => exists pre post, rules = pre ++ e :: post /\ Access.Check (ACCESS e) access = true /\
              Forall (fun x => Access.Check (ACCESS x) access = false) pre
  | None => Forall (fun x => Access.Check (ACCESS x) access = false) rules
  end.

Lemma schema_of_first (auth : AuthBase.t P X) path access rule :
  first_rule_for access (default [] (AuthBase.endpointsConfig auth !! path)) rule ->
  AuthBase.schema_of auth path access = match rule with Some e => SCHEMA e | None => AuthBase.DEFAULT_SCHEMA auth end.
Proof.
  unfold AuthBase.schema_of, EndpointsAuthConfigBase.Schema. intros Hr.
  destruct (_ !! path) as [ep|]; cbn in Hr.
  - destruct rule as [e|]; [|by rewrite find_schema_none].
    destruct Hr as (pre & post & -> & He & Hpre). by rewrite find_schema_app.
  - destruct rule as [e|]; [|done]. by destruct Hr as ([|? ?] & post & ? & _).
Qed.

(** What the request makes of the data under a schema name. *)
Lemma spec_HandleRequest (auth : AuthBase.t P X) path access (Q : option error -> Op P -> X -> Prop) o x :
  match AuthManagerBase.schemas (AuthBase.manager auth) !! AuthBase.schema_of auth path access with
  | Some h => spec (Handle h) (fun r o' x' => Q r.2 o' x') o x
  | None => Q (Some (Native "unknown authorization handler")) (with_code ErrorCodeInvalidAuthSchema o) x
  end ->
  spec (AuthBase.HandleRequest auth path access) Q o x.
Proof.
  intros H. unfold AuthBase.HandleRequest, AuthManagerBase.Handle, HandlerStoreBase.Handler. spec_go.
  destruct (_ !! _) as [h|]; spec_go; [|done].
  eapply spec_mono; [|exact H]. intros [b e] o' x' HQ. by spec_go.
Qed.

(** [C34] Which handler judges a request: the one named by the first rule of the path that
    admits the access, or by the default schema when no rule does.  When no handler has that
    name the request is refused as a server error and no handler runs: the data does not
    change. *)
Theorem HandleRequest_dispatch (auth : AuthBase.t P X) path access rule s :
  first_rule_for access (default [] (AuthBase.endpointsConfig auth !! path)) rule ->
  let name := match rule with Some e => SCHEMA e | None => AuthBase.DEFAULT_SCHEMA auth end in
  let '(r, s') := AuthBase.HandleRequest auth path access s in
  match AuthManagerBase.schemas (AuthBase.manager auth) !! name with
  | Some h => exists t, let '(r1, s1) := Handle h (Build_St t (st_op s) (st_ext s)) in r = r1.2 /\ same_data s1 s'
  | None => r = Some (Native "unknown authorization handler") /\ st_ext s' = st_ext s /\
            genericError (st_op s') = Some (default (coded (st_op s) ErrorCodeInvalidAuthSchema) (genericError (st_op s)))
  end.
Proof.
  intros Hr name. pose proof (schema_of_first auth path access rule Hr) as Hname. fold name in Hname.
  destruct s as [t o x].
  pose proof (spec_HandleRequest auth path access (fun r o' x' =>
    match AuthManagerBase.schemas (AuthBase.manager auth) !! name with
    | Some h => exists t, let '(r1, s1) := Handle h (Build_St t o x) in
                r = r1.2 /\ st_op s1 = o' /\ st_ext s1 = x'
    | None => r = Some (Native "unknown authorization handler") /\ x' = x /\ o' = with_code ErrorCodeInvalidAuthSchema o
    end) o x) as HS.
  rewrite Hname in HS. cbn [st_op st_ext].
  destruct (AuthManagerBase.schemas (AuthBase.manager auth) !! name) as [h|].
  - specialize (HS ltac:(intros t'; exists t'; by destruct (Handle h _)) t).
    destruct (AuthBase.HandleRequest _ _ _ _) as [r s']. exact HS.
  - specialize (HS ltac:(done) t). destruct (AuthBase.HandleRequest _ _ _ _) as [r s'].
    destruct HS as (Hr' & Hx & Ho). cbn in Hr', Hx, Ho. rewrite Hr', Ho, with_code_genericError. done.
Qed.
End SchemaTheorems.

(** ** The order of the methods *)

Section ManagerFacts.
Context {P X : Type}.
Implicit Types (h : AuthHandler P X) (l : list (AuthHandler P X)) (m : gmap string (AuthHandler P X)).
Local Abbreviation add_all := (foldl (fun s h => HandlerStoreBase.AddHandler h s)).

(** A store after registrations: what it had, then the first handler of the name. *)
Lemma add_all_lookup l m n :
  add_all m l !! n = match m !! n with Some h => Some h | None => List.find (fun h => bool_decide (Name h = n)) l end.
Proof.
  revert m. induction l as [|h l IH]; intros m; cbn [foldl List.find]; [by destruct (m !! n)|].
  rewrite IH. unfold HandlerStoreBase.AddHandler. case_bool_decide as Hn.
  - subst n. destruct (m !! Name h) eqn:E; [by rewrite E|by rewrite lookup_insert_eq].
  - destruct (m !! Name h) eqn:E; [done|by rewrite lookup_insert_ne].
Qed.

Lemma find_permutation l l' n :
  l ≡ₚ l' -> NoDup (map Name l) ->
  List.find (fun h => bool_decide (Name h = n)) l = List.find (fun h => bool_decide (Name h = n)) l'.
Proof.
  induction 1 as [|h l l' Hp IH|h1 h2 l|l l1 l2 Hp IH Hp' IH']; intros Hnd; cbn in *.
  - done.
  - apply NoDup_cons in Hnd as [_ Hnd]. by case_bool_decide; [|apply IH].
  - apply NoDup_cons in Hnd as [Hnin _]. rewrite list_elem_of_In in Hnin.
    repeat case_bool_decide; try done. exfalso. apply Hnin. left. congruence.
  - rewrite IH by done. apply IH'. rewrite <- Hp. done.
Qed.

Lemma add_all_permutation l l' m : l ≡ₚ l' -> NoDup (map Name l) -> add_all m l = add_all m l'.
Proof. intros Hp Hnd. apply map_eq. intros n. rewrite !add_all_lookup. by rewrite (find_permutation l l'). Qed.

Definition all_handlers (methods : list (AuthMethod P X)) : list (AuthHandler P X) :=
  concat (map (fun x => m_handler x :: m_Handlers x) methods).
Definition schema_handlers (methods : list (AuthMethod P X)) : list (AuthHandler P X) :=
  concat (map (fun x => if m_in_schemas x then [m_handler x] else []) methods).

Lemma add_methods methods (a : AuthManagerBase.t P X) :
  foldl (fun a x => AuthManagerBase.add_method x a) a methods =
  {| AuthManagerBase.handlers := add_all (AuthManagerBase.handlers a) (all_handlers methods);
     AuthManagerBase.schemas := add_all (AuthManagerBase.schemas a) (schema_handlers methods) |}.
Proof.
  revert a. induction methods as [|x methods IH]; intros a; [by destruct a|].
  cbn [foldl]. rewrite IH. cbn [AuthManagerBase.add_method AuthManagerBase.handlers AuthManagerBase.schemas].
  unfold all_handlers, schema_handlers. cbn [map concat]. rewrite !foldl_app. by destruct (m_in_schemas x).
Qed.

Lemma add_schemas configured (a : AuthManagerBase.t P X) :
  foldl (fun a s => AuthManagerBase.add_schema s a) a configured =
  {| AuthManagerBase.handlers := add_all (AuthManagerBase.handlers a) configured;
     AuthManagerBase.schemas := add_all (AuthManagerBase.schemas a) configured |}.
Proof.
  revert a. induction configured as [|s l IH]; intros a; [by destruct a|]. cbn [foldl]. by rewrite IH.
Qed.

Lemma NoDup_schema_handlers methods :
  NoDup (map Name (all_handlers methods)) -> NoDup (map Name (schema_handlers methods)).
Proof.
  intros Hnd. refine (sublist_NoDup _ _ Hnd _). clear Hnd. induction methods as [|x methods IH]; [done|].
  unfold all_handlers, schema_handlers. cbn [map concat]. rewrite !map_app. apply sublist_app; [|exact IH].
  destruct (m_in_schemas x); cbn; [apply sublist_skip|]; apply sublist_nil_l.
Qed.

(** The configuration of the methods is a map that Go ranges over in any order: when no two
    handlers of the methods have the same name, the stores the manager ends with do not depend
    on that order. *)
Theorem Init_order (methods methods' : list (AuthMethod P X)) configured :
  methods ≡ₚ methods' -> NoDup (map Name (all_handlers methods)) ->
  AuthManagerBase.Init methods configured = AuthManagerBase.Init methods' configured.
Proof.
  intros Hp Hnd. unfold AuthManagerBase.Init. rewrite !add_schemas, !add_methods. cbn.
  assert (Ha : all_handlers methods ≡ₚ all_handlers methods') by (unfold all_handlers; by rewrite Hp).
  assert (Hs : schema_handlers methods ≡ₚ schema_handlers methods') by (unfold schema_handlers; by rewrite Hp).
  rewrite (add_all_permutation _ _ ∅ Ha Hnd).
  by rewrite (add_all_permutation _ _ ∅ Hs (NoDup_schema_handlers _ Hnd)).
Qed.

(** With two methods of one name the first one in the order of the map wins. *)
Lemma Init_same_name (m1 m2 : AuthMethod P X) :
  Name (m_handler m1) = Name (m_handler m2) -> m_in_schemas m1 = true -> m_in_schemas m2 = true ->
  AuthManagerBase.schemas (AuthManagerBase.Init [m1; m2] []) !! Name (m_handler m1) = Some (m_handler m1) /\
  AuthManagerBase.schemas (AuthManagerBase.Init [m2; m1] []) !! Name (m_handler m1) = Some (m_handler m2).
Proof.
  intros Hn H1 H2. unfold AuthManagerBase.Init. rewrite !add_schemas, !add_methods. cbn [foldl AuthManagerBase.schemas].
  unfold schema_handlers. cbn [map concat]. rewrite H1, H2, !add_all_lookup, lookup_empty. cbn.
  rewrite !bool_decide_eq_true_2 by congruence. done.
Qed.
End ManagerFacts.

(** ** Instances *)

Definition answering (name : string) (real : bool) (r : bool * option error) : AuthHandler unit unit :=
  {| Name := name; Protocol := name; Handle := ret r; h_ErrorDescriptions := ∅; h_ErrorProtocolCodes := ∅;
     IsReal := real |}.
Definition demo_schema (aggregation : string) : AuthSchema unit unit :=
  AuthSchema.SetAggregation aggregation (AuthSchema.AppendHandlers
    [answering "hmac" true (false, None); answering "token" true (true, None); answering "sms" true (true, Some (Native "no code"))]
    AuthSchema.New).
Definition s_demo : St unit unit := Build_St trace0 op_demo tt.

Lemma AuthSchema_accepts_witness :
  exists n rs s1, runs (take n (handlers (demo_schema Or))) (TraceInMethod "AuthSchema.Handle" s_demo).2 rs s1 /\
    accepted_or (zip (take n (handlers (demo_schema Or))) rs).
Proof.
  destruct (AuthSchema_accepts (demo_schema Or) s_demo true (AuthSchema.Handle (demo_schema Or) s_demo).2
              ltac:(discriminate) ltac:(reflexivity)) as (_ & n & rs & s1 & Hr & _ & Hacc).
  exists n, rs, s1. split; [exact Hr|exact Hacc].
Defined.

Lemma AuthSchema_rejects_witness :
  genericError (st_op (AuthSchema.Handle (demo_schema And) s_demo).2) <> None.
Proof.
  apply (AuthSchema_rejects (demo_schema And) s_demo true (Native "no code")). reflexivity.
Defined.

Definition demo_rules : gmap string (list endpointSchema) :=
  EndpointsAuthConfigBase.Init {["/pools" := [
    {| ACCESS := 0%Z; HTTP_METHOD := "POST"; SCHEMA := "or_schema" |};
    {| ACCESS := Access.All; HTTP_METHOD := ""; SCHEMA := "none" |}]]}.
Definition demo_auth : AuthBase.t unit unit :=
  {| AuthBase.DEFAULT_SCHEMA := "check_token";
     AuthBase.manager := AuthManagerBase.Init [] [answering "or_schema" true (true, None)];
     AuthBase.endpointsConfig := demo_rules |}.

Lemma HandleRequest_dispatch_witness :
  (AuthBase.HandleRequest demo_auth "/pools" Access.Create s_demo).1 = None.
Proof.
  pose proof (HandleRequest_dispatch demo_auth "/pools" Access.Create
    (Some {| ACCESS := Access.Create; HTTP_METHOD := "POST"; SCHEMA := "or_schema" |}) s_demo) as H.
  destruct (AuthBase.HandleRequest demo_auth "/pools" Access.Create s_demo) as [r s'].
  destruct H as [t [Hr _]]; [|exact Hr].
  exists [], [{| ACCESS := Access.All; HTTP_METHOD := ""; SCHEMA := "none" |}].
  repeat split. constructor.
Defined.

Lemma Init_order_witness :
  let m n := {| m_handler := answering n true (true, None); m_Handlers := []; m_in_schemas := true |} in
  AuthManagerBase.Init [m "hmac"; m "token"] [] = AuthManagerBase.Init [m "token"; m "hmac"] [].
Proof.
  intros m. apply (Init_order [m "hmac"; m "token"] [m "token"; m "hmac"]).
  - constructor.
  - cbn. repeat constructor; set_solver.
Defined.
