(* ===== verification/Crypt.v ===== *)
(** * utils/base64.go, pkg/message, pkg/crypt_utils: codings, digests, ciphers

    Bytes are strings.  Base 64 and SHA-256 are computed.  The digest is a parameter, as the
    [DigestBuilder] of the code is, with SHA-256 the default; the AEAD cipher and PBKDF2, which
    are third-party, are the interface [Aead]; a serializer is the interface of the code. *)
From Stdlib Require Import Ascii.
From S2P Require Import Prelude Utils Errors.
Open Scope go_scope.

(** ** Base 64 (base64.go, encoding/base64) *)

(** [utils.StringCoding] *)
Class StringCoding := {
  Encode : string -> string;
  Decode : string -> string + error
}.
Class StringCodingOk `{StringCoding} := {
  decode_encode s : Decode (Encode s) = inl s;
  encode_nonempty s : s <> "" -> Encode s <> ""
}.

Definition b64_char (v : N) : ascii :=
  (if v <? 26 then ascii_of_N (v + 65)
   else if v <? 52 then ascii_of_N (v + 71)
   else if v <? 62 then ascii_of_N (v - 4)
   else if v =? 62 then "+" else "/")%N%char.

Definition b64_value (c : ascii) : option N :=
  let n := N_of_ascii c in
  (if (65 <=? n) && (n <=? 90) then Some (n - 65)
   else if (97 <=? n) && (n <=? 122) then Some (n - 71)
   else if (48 <=? n) && (n <=? 57) then Some (n + 4)
   else if n =? 43 then Some 62
   else if n =? 47 then Some 63
   else None)%N.

(** The [k] first of the four digits of 24 bits. *)
Definition b64_digits (n : N) : list N := [n / 262144; (n / 4096) mod 64; (n / 64) mod 64; n mod 64]%N.
Definition byte_of (c : ascii) : N := N_of_ascii c.

Fixpoint b64_encode (s : string) : string :=
  match s with
  | String a (String b (String c r)) =>
      let n := (byte_of a * 65536 + byte_of b * 256 + byte_of c)%N in
      String.string_of_list_ascii (map b64_char (b64_digits n)) +:+ b64_encode r
  | String a (String b "") =>
      let n := (byte_of a * 65536 + byte_of b * 256)%N in
      String.string_of_list_ascii (map b64_char (take 3 (b64_digits n))) +:+ "="
  | String a "" =>
      String.string_of_list_ascii (map b64_char (take 2 (b64_digits (byte_of a * 65536)%N))) +:+ "=="
  | "" => ""
  end.

Fixpoint strip_newlines (s : string) : string :=
  match s with
  | "" => ""
  | String c r => if (bool_decide (c = "010"%char) || bool_decide (c = "013"%char)) then strip_newlines r
                  else String c (strip_newlines r)
  end.

(** The bytes of four digits, two or one fewer before padding. *)
Definition b64_join (v1 v2 v3 v4 : N) : N := (v1 * 262144 + v2 * 4096 + v3 * 64 + v4)%N.
Definition byte_at (n k : N) : ascii := ascii_of_N ((n / 256 ^ k) mod 256).

Fixpoint b64_decode (s : string) : option string :=
  match s with
  | "" => Some ""
  | String c1 (String c2 (String c3 (String c4 r))) =>
      match b64_value c1, b64_value c2, b64_value c3, b64_value c4 with
      | Some v1, Some v2, Some v3, Some v4 =>
          let n := b64_join v1 v2 v3 v4 in
          match b64_decode r with
          | Some t => Some (String (byte_at n 2) (String (byte_at n 1) (String (byte_at n 0) t)))
          | None => None
          end
      | Some v1, Some v2, Some v3, None =>
          if decide (c4 = "="%char /\ r = "") then
            let n := b64_join v1 v2 v3 0 in Some (String (byte_at n 2) (String (byte_at n 1) ""))
          else None
      | Some v1, Some v2, None, None =>
          if decide (c3 = "="%char /\ c4 = "="%char /\ r = "") then
            Some (String (byte_at (b64_join v1 v2 0 0) 2) "")
          else None
      | _, _, _, _ => None
      end
  | _ => None
  end.

(** The error of [encoding/base64], without its offset. *)
Definition CorruptInputError : error := Native "illegal base64 data".

Definition Base64Encode (data : string) : string := b64_encode data.
Definition Base64Decode (data : string) : string + error :=
  match b64_decode (strip_newlines data) with Some b => inl b | None => inr CorruptInputError end.

#[export] Instance Base64StringCoding : StringCoding := { Encode := Base64Encode; Decode := Base64Decode }.

Lemma b64_value_char v : (v < 64)%N -> b64_value (b64_char v) = Some v.
Proof.
  intros Hv.
  assert (Hall : forallb (fun v => bool_decide (b64_value (b64_char v) = Some v)) (map N.of_nat (seq 0 64)) = true)
    by (vm_compute; reflexivity).
  rewrite forallb_forall in Hall. specialize (Hall v).
  rewrite bool_decide_eq_true in Hall. apply Hall, in_map_iff. exists (N.to_nat v).
  rewrite N2Nat.id, in_seq. split; [done|lia].
Qed.

Lemma b64_char_plain v : (v < 64)%N ->
  (bool_decide (b64_char v = "010"%char) || bool_decide (b64_char v = "013"%char)) = false.
Proof.
  intros Hv. pose proof (b64_value_char v Hv) as E.
  rewrite !bool_decide_eq_false_2; [done| |]; intros H; by rewrite H in E.
Qed.

Lemma byte_of_lt a : (byte_of a < 256)%N.
Proof. apply N_ascii_bounded. Qed.

Lemma b64_digits_join n : (n < 2 ^ 24)%N ->
  exists v1 v2 v3 v4, b64_digits n = [v1; v2; v3; v4] /\ b64_join v1 v2 v3 v4 = n /\
    (v1 < 64)%N /\ (v2 < 64)%N /\ (v3 < 64)%N /\ (v4 < 64)%N.
Proof.
  intros Hn. unfold b64_digits, b64_join. do 4 eexists. split; [reflexivity|].
  change (2 ^ 24)%N with 16777216%N in Hn. zify. Z.to_euclidean_division_equations. lia.
Qed.

Lemma byte_at_2 a b c : (b < 256)%N -> (c < 256)%N -> byte_at (byte_of a * 65536 + b * 256 + c) 2 = a.
Proof.
  intros. unfold byte_at. pose proof (byte_of_lt a). change (256 ^ 2)%N with 65536%N.
  replace ((byte_of a * 65536 + b * 256 + c) / 65536)%N with (byte_of a)
    by (zify; Z.to_euclidean_division_equations; lia).
  rewrite N.mod_small by done. apply ascii_N_embedding.
Qed.
Lemma byte_at_1 a b c : (a < 256)%N -> (c < 256)%N -> byte_at (a * 65536 + byte_of b * 256 + c) 1 = b.
Proof.
  intros. unfold byte_at. pose proof (byte_of_lt b). change (256 ^ 1)%N with 256%N.
  replace (((a * 65536 + byte_of b * 256 + c) / 256) mod 256)%N with (byte_of b)
    by (zify; Z.to_euclidean_division_equations; lia).
  apply ascii_N_embedding.
Qed.
Lemma byte_at_0 a b c : byte_at (a * 65536 + b * 256 + byte_of c) 0 = c.
Proof.
  intros. unfold byte_at. pose proof (byte_of_lt c). change (256 ^ 0)%N with 1%N.
  replace (((a * 65536 + b * 256 + byte_of c) / 1) mod 256)%N with (byte_of c)
    by (rewrite N.div_1_r; zify; Z.to_euclidean_division_equations; lia).
  apply ascii_N_embedding.
Qed.

Lemma str_ind3 (Q : string -> Prop) :
  Q "" -> (forall a, Q (String a "")) -> (forall a b, Q (String a (String b ""))) ->
  (forall a b c r, Q r -> Q (String a (String b (String c r)))) -> forall s, Q s.
Proof.
  intros H0 H1 H2 H3. fix IH 1. intros [|a [|b [|c r]]]; [done|apply H1|apply H2|apply H3, IH].
Qed.

Lemma strip_newlines_digit v s : (v < 64)%N -> strip_newlines (String (b64_char v) s) = String (b64_char v) (strip_newlines s).
Proof. intros Hv. cbn [strip_newlines]. by rewrite b64_char_plain. Qed.

Ltac b64_digits_of Hn :=
  destruct (b64_digits_join _ Hn) as (v1 & v2 & v3 & v4 & Ed & Ej & Hv1 & Hv2 & Hv3 & Hv4); rewrite Ed.

Lemma b64_lt a b c : (byte_of a * 65536 + byte_of b * 256 + byte_of c < 2 ^ 24)%N.
Proof. pose proof (byte_of_lt a). pose proof (byte_of_lt b). pose proof (byte_of_lt c). change (2 ^ 24)%N with 16777216%N. lia. Qed.
Lemma b64_lt2 a b : (byte_of a * 65536 + byte_of b * 256 < 2 ^ 24)%N.
Proof. pose proof (b64_lt a b "000"). unfold byte_of in *. cbn in *. lia. Qed.
Lemma b64_lt1 a : (byte_of a * 65536 < 2 ^ 24)%N.
Proof. pose proof (b64_lt2 a "000"). unfold byte_of in *. cbn in *. lia. Qed.

Lemma strip_b64_encode s : strip_newlines (b64_encode s) = b64_encode s.
Proof.
  induction s as [|a|a b|a b c r IH] using str_ind3; [done| | |]; cbn [b64_encode].
  - b64_digits_of (b64_lt1 a). cbn -[strip_newlines]. rewrite !str_app_cons, str_app_nil_l.
    by rewrite !strip_newlines_digit.
  - b64_digits_of (b64_lt2 a b). cbn -[strip_newlines]. rewrite !str_app_cons, str_app_nil_l.
    by rewrite !strip_newlines_digit.
  - b64_digits_of (b64_lt a b c). cbn -[strip_newlines]. rewrite !str_app_cons, str_app_nil_l.
    rewrite !strip_newlines_digit by done. by rewrite IH.
Qed.

(** Two digits determine the first byte, three the first two. *)
Lemma b64_join_pad v1 v2 v3 v4 a b :
  b64_join v1 v2 v3 v4 = (byte_of a * 65536 + b * 256)%N -> (b < 256)%N ->
  (v1 < 64)%N -> (v2 < 64)%N -> (v3 < 64)%N -> (v4 < 64)%N ->
  v4 = 0%N /\ (b = 0%N -> v3 = 0%N).
Proof.
  unfold b64_join. intros. pose proof (byte_of_lt a). zify. Z.to_euclidean_division_equations. lia.
Qed.

Lemma b64_decode_encode s : b64_decode (b64_encode s) = Some s.
Proof.
  induction s as [|a|a b|a b c r IH] using str_ind3; [done| | |]; cbn [b64_encode].
  - b64_digits_of (b64_lt1 a). cbn -[b64_decode]. rewrite !str_app_cons, str_app_nil_l. cbn [b64_decode].
    rewrite !b64_value_char by done. change (b64_value "=") with (@None N). cbn iota.
    rewrite decide_True by done. do 2 f_equal.
    destruct (b64_join_pad v1 v2 v3 v4 a 0) as [-> H3]; [lia|lia|done..|]. rewrite H3 in Ej by done.
    rewrite Ej. rewrite <- (N.add_0_r (_ * _)), <- (N.add_0_r (_ + _)). by apply (byte_at_2 a 0 0).
  - b64_digits_of (b64_lt2 a b). cbn -[b64_decode]. rewrite !str_app_cons, str_app_nil_l. cbn [b64_decode].
    rewrite !b64_value_char by done. change (b64_value "=") with (@None N). cbn iota.
    rewrite decide_True by done. pose proof (byte_of_lt a). pose proof (byte_of_lt b).
    destruct (b64_join_pad v1 v2 v3 v4 a (byte_of b)) as [-> _]; [lia|lia|done..|]. rewrite Ej.
    rewrite <- (N.add_0_r (_ + _)). by rewrite byte_at_2, byte_at_1.
  - b64_digits_of (b64_lt a b c). cbn -[b64_decode]. rewrite !str_app_cons, str_app_nil_l. cbn [b64_decode].
    rewrite !b64_value_char, IH, Ej by done. cbn iota beta zeta.
    rewrite byte_at_2, byte_at_1, byte_at_0 by apply byte_of_lt. done.
Qed.

(** Base 64 round trip: what is encoded is decoded, for any bytes; an encoding is empty only
    for no bytes, and line breaks put into an encoding do not matter. *)
Theorem Base64_roundtrip data text :
  strip_newlines text = Base64Encode data ->
  Base64Decode text = inl data /\ (data <> "" -> text <> "").
Proof.
  unfold Base64Encode, Base64Decode. intros E. rewrite E, b64_decode_encode. split; [done|].
  intros Hd ->. destruct data as [|a [|b [|c r]]]; done.
Qed.

Lemma Base64_roundtrip_witness :
  Base64Decode ("AP8=" +:+ String "010"%char "") = inl (String "000"%char (String "255"%char "")).
Proof. by apply Base64_roundtrip. Defined.

#[export] Instance Base64StringCoding_ok : StringCodingOk.
Proof.
  split; intros s; cbn [Encode Decode Base64StringCoding].
  - unfold Base64Decode, Base64Encode. by rewrite strip_b64_encode, b64_decode_encode.
  - by destruct s as [|a [|b [|c r]]].
Qed.

(** ** Digests (hash.go, hmac.go; crypto/sha256, crypto/hmac) *)

(** [DigestBuilder] *)
Class Digest := { digest : string -> string; block_size : nat }.

Module Sha256.
Local Open Scope N_scope.
Definition add32 (a b : N) : N := (a + b) mod 4294967296.
Definition rotr (k x : N) : N := N.lor (N.shiftr x k) (N.shiftl x (32 - k) mod 4294967296).
(** The constants of the standard: the first 32 bits of the fractional parts of the cube roots of
    the first 64 primes, and of the square roots of the first eight. *)
Definition is_prime (n : nat) : bool := forallb (fun d => negb (n mod d =? 0)%nat) (seq 2 (n - 2)).
Definition primes : list N := map N.of_nat (List.filter is_prime (seq 2 310)).
(** The integer cube root, bit by bit from the highest one. *)
Definition cbrt (bits : nat) (n : N) : N :=
  foldr (fun i r => let c := r + 2 ^ N.of_nat i in if c * c * c <=? n then c else r) 0 (seq 0 bits).
Definition K : list N := Eval vm_compute in map (fun p => cbrt 40 (p * 2 ^ 96) mod 2 ^ 32) primes.
Definition H0 : list N := Eval vm_compute in map (fun p => N.sqrt (p * 2 ^ 64) mod 2 ^ 32) (take 8 primes).

(** The schedule, last word first. *)
Fixpoint schedule (k : nat) (w : list N) : list N :=
  match k with
  | O => w
  | S k' =>
      let w2 := nth 1 w 0 in let w15 := nth 14 w 0 in
      let s0 := N.lxor (N.lxor (rotr 7 w15) (rotr 18 w15)) (N.shiftr w15 3) in
      let s1 := N.lxor (N.lxor (rotr 17 w2) (rotr 19 w2)) (N.shiftr w2 10) in
      schedule k' (add32 (add32 s1 (nth 6 w 0)) (add32 s0 (nth 15 w 0)) :: w)
  end.

Definition round (h : list N) (kw : N * N) : list N :=
  match h with
  | [a; b; c; d; e; f; g; h] =>
      let s1 := N.lxor (N.lxor (rotr 6 e) (rotr 11 e)) (rotr 25 e) in
      let ch := N.lxor (N.land e f) (N.land (N.lxor e 4294967295) g) in
      let t1 := add32 (add32 h s1) (add32 ch (add32 kw.1 kw.2)) in
      let s0 := N.lxor (N.lxor (rotr 2 a) (rotr 13 a)) (rotr 22 a) in
      let maj := N.lxor (N.lxor (N.land a b) (N.land a c)) (N.land b c) in
      [add32 t1 (add32 s0 maj); a; b; c; add32 d t1; e; f; g]
  | _ => h
  end.

Fixpoint words (s : string) : list N :=
  match s with
  | String a (String b (String c (String d r))) =>
      N_of_ascii a * 16777216 + N_of_ascii b * 65536 + N_of_ascii c * 256 + N_of_ascii d :: words r
  | _ => []
  end.
Definition bytes4 (w : N) : string :=
  String (byte_at w 3) (String (byte_at w 2) (String (byte_at w 1) (String (byte_at w 0) ""))).

(** One 64-byte block. *)
Definition compress (h : list N) (block : list N) : list N :=
  zip_with add32 h (foldl round h (zip K (reverse (schedule 48 (reverse block))))).
Fixpoint blocks (n : nat) (h w : list N) : list N :=
  match n with
  | O => h
  | S n' => blocks n' (compress h (take 16 w)) (drop 16 w)
  end.

Definition Sum256 (s : string) : string :=
  let n := String.length s in
  let zeros := ((64 - (n + 9) mod 64) mod 64)%nat in
  let bits := 8 * N.of_nat n in
  let padded := s +:+ String "128"%char (str_repeat zeros (String "000"%char "") +:+
                (bytes4 (bits / 4294967296) +:+ bytes4 (bits mod 4294967296))) in
  let w := words padded in
  foldr (fun x acc => bytes4 x +:+ acc) "" (blocks (length w / 16) H0 w).
End Sha256.

#[export] Instance sha256 : Digest := { digest := Sha256.Sum256; block_size := 64 }.

Definition hex (s : string) : string :=
  (fix go (s : string) : string :=
     match s with "" => "" | String c r => fmt_0x 2 (Z.of_N (N_of_ascii c)) +:+ go r end) s.

Example sha256_abc :
  hex (digest "abc") = "ba7816bf8f01cfea414140de5dae2223b00361a396177a9cb410ff61f20015ad".
Proof. vm_compute. reflexivity. Qed.

Definition concat_str (l : list string) : string := foldr (fun b acc => b +:+ acc) "" l.

Lemma concat_str_app l1 l2 : concat_str (l1 ++ l2) = concat_str l1 +:+ concat_str l2.
Proof.
  induction l1 as [|b l IH]; [done|].
  change (concat_str ((b :: l) ++ l2)) with (b +:+ concat_str (l ++ l2)). by rewrite IH, <- str_app_assoc.
Qed.

(** [hmac.Equal]: comparison in constant time. *)
Definition hmac_Equal (a b : string) : bool := bool_decide (a = b).

Module Hash.
Section Methods.
Context `{!Digest, !StringCoding}.
Record t := { written : string }.
Definition New : t := {| written := "" |}.
Definition Sum (h : t) : string := digest (written h).
Definition Add (data : string) (h : t) : t := {| written := written h +:+ data |}.
Definition add_all (data : list string) (h : t) : t := foldl (fun h block => Add block h) h data.
Definition Calc (data : list string) (h : t) : string * t := let h := add_all data h in (Sum h, h).
Definition CalcStr (data : list string) (h : t) : string * t := let '(s, h) := Calc data h in (Encode s, h).
Definition CalcStrStr (data : list string) (h : t) : string * t := CalcStr [] (add_all data h).
Definition CalcStrIn (data : list string) (h : t) : t := add_all data h.
Definition Check (sum : string) (h : t) : bool := hmac_Equal (Sum h) sum.
Definition CheckStr (sum : string) (h : t) : option error :=
  match Decode sum with
  | inr err => Some (Native ("failed to decode sum: " +:+ Error err))
  | inl sumB => if negb (hmac_Equal (Sum h) sumB) then Some (Native "hash sums mismatch") else None
  end.
End Methods.
End Hash.

Definition HashEqual (hash1 hash2 : string) : bool := hmac_Equal hash1 hash2.

Section H256.
Context `{!Digest, !StringCoding}.
Definition H256 (data : string) (extras : list string) : string :=
  Hash.Sum (Hash.add_all extras (Hash.Add data Hash.New)).
Definition H256B64 (data : string) (extras : list string) : string := Encode (H256 data extras).
End H256.

Module Hmac.
Section Methods.
Context `{!Digest, !StringCoding}.
Record t := { key : string; written : string }.

(** [crypto/hmac] *)
Definition block_key (secret : string) : string :=
  let k := if (block_size <? String.length secret)%nat then digest secret else secret in
  k +:+ str_repeat (block_size - String.length k) (String "000"%char "").
Fixpoint xor_with (b : N) (s : string) : string :=
  match s with
  | "" => ""
  | String c r => String (ascii_of_N (N.lxor b (N_of_ascii c))) (xor_with b r)
  end.
Definition hmac (secret data : string) : string :=
  digest (xor_with 92 (block_key secret) +:+ digest (xor_with 54 (block_key secret) +:+ data)).

Definition New (secret : string) : t := {| key := secret; written := "" |}.
Definition Sum (h : t) : string := hmac (key h) (written h).
Definition add_all (data : list string) (h : t) : t :=
  foldl (fun h block => {| key := key h; written := written h +:+ block |}) h data.
Definition Calc (data : list string) (h : t) : string * t := let h := add_all data h in (Sum h, h).
Definition CalcStrings (data : list string) (h : t) : string * t := Calc data h.
Definition CalcStr (data : string) (h : t) : string * t := let '(s, h) := Calc [data] h in (Encode s, h).
Definition CalcStrStr (data : string) (h : t) : string * t := CalcStr data h.
Definition SumStr (h : t) : string := Encode (Sum h).
Definition Check (sum : string) (h : t) : bool := hmac_Equal (Sum h) sum.
Definition CheckStr (sum : string) (h : t) : option error :=
  match Decode sum with
  | inr err => Some (Native ("failed to decode sum: " +:+ Error err))
  | inl sumB => if negb (hmac_Equal (Sum h) sumB) then Some (Native "invalid HMAC") else None
  end.

Lemma add_all_eq data h : add_all data h = {| key := key h; written := written h +:+ concat_str data |}.
Proof.
  revert h. induction data as [|b l IH]; intros h; cbn.
  - destruct h as [k w]. cbn. by rewrite str_app_nil_r.
  - change (add_all l {| key := key h; written := written h +:+ b |} =
            {| key := key h; written := written h +:+ b +:+ concat_str l |}).
    rewrite IH. cbn. by rewrite str_app_assoc.
Qed.

(** A checksum depends on the concatenation of the blocks only. *)
Lemma Calc_concat secret data : (Calc data (New secret)).2 = {| key := secret; written := concat_str data |}.
Proof. unfold Calc; cbn [snd]. by rewrite add_all_eq. Qed.

Lemma CheckStr_spec sum h : CheckStr sum h = None <-> Decode sum = inl (Sum h).
Proof.
  unfold CheckStr, hmac_Equal. destruct (Decode sum) as [b|e]; [|done]. case_bool_decide as E; cbn.
  - by subst b.
  - split; [done|]. intros [= Hb]. by rewrite Hb in E.
Qed.

(** The check of a checksum: the sum of the same secret over the same bytes is accepted
    however the bytes were split into blocks, and an accepted text decodes to exactly that
    sum. *)
Theorem Hmac_check `{!StringCodingOk} secret blocks blocks' sum :
  (concat_str blocks = concat_str blocks' ->
   CheckStr (SumStr (Calc blocks (New secret)).2) (Calc blocks' (New secret)).2 = None) /\
  (CheckStr sum (Calc blocks' (New secret)).2 = None ->
   Decode sum = inl (hmac secret (concat_str blocks'))).
Proof.
  split.
  - intros E. rewrite !Calc_concat, E. apply CheckStr_spec, decode_encode.
  - intros Hc%CheckStr_spec. by rewrite Calc_concat in Hc.
Qed.
End Methods.
End Hmac.

Lemma Hmac_check_witness :
  Hmac.CheckStr (Hmac.SumStr (Hmac.Calc ["GET"; "/pools"] (Hmac.New "key")).2)
    (Hmac.Calc ["GE"; "T/pools"] (Hmac.New "key")).2 = None.
Proof.
  exact (proj1 (Hmac.Hmac_check "key" ["GET"; "/pools"] ["GE"; "T/pools"] "") eq_refl).
Defined.

(** ** Randomness (rand.go) *)

(** [size] bytes of one reading of the source; a negative word is a source that fails. *)
Fixpoint bytes_of (size : nat) (w : Z) : string :=
  match size with
  | O => ""
  | S n => String (ascii_of_N (Z.to_N (w mod 256))) (bytes_of n (w / 256))
  end.
Definition GenerateCryptoRand (size : nat) : M Env (string + error) := fun e =>
  let w := env_rand e (env_tick e) in
  (if (w <? 0)%Z then inr (Native "random source failed") else inl (bytes_of size w), tick_env e).

Lemma bytes_of_length n w : String.length (bytes_of n w) = n.
Proof. revert w; induction n as [|n IH]; intros w; cbn; [done|]. by rewrite IH. Qed.

Lemma wp_GenerateCryptoRand size (Q : string + error -> Env -> Prop) e :
  (forall s e', String.length s = size -> same_clock e e' -> Q (inl s) e') ->
  (forall err e', same_clock e e' -> Q (inr err) e') ->
  wp (GenerateCryptoRand size) Q e.
Proof.
  intros Hok Herr. unfold wp, GenerateCryptoRand. cbn. destruct (_ <? 0)%Z; [by apply Herr|].
  apply Hok; [apply bytes_of_length|done].
Qed.

(** [uniuri.New], third-party: the string of a random word. *)
Class Uniuri := { uniuri : nat -> Z -> string }.
Definition GenerateString `{Uniuri} (length : list nat) : M Env string := fun e =>
  (uniuri (match length with [] => 16 | n :: _ => n end) (env_rand e (env_tick e)), tick_env e).

(** ** Ciphers (aead.go) *)

(** chacha20poly1305 and PBKDF2, third-party: [NewX] makes a cipher of a key, [Seal] and [Open]
    take the key, the nonce, the text and the additional data. *)
Class CipherLib := {
  KeySize : nat;
  NonceSize : nat;
  NewX : string -> option error;
  Seal : string -> string -> string -> string -> string;
  Open : string -> string -> string -> string -> string + error;
  pbkdf2_Key : string -> string -> Z -> nat -> string
}.
(** What their documentation says. *)
Class CipherLibOk `{CipherLib} := {
  nonce_size_pos : 0 < NonceSize;
  open_seal key nonce plaintext extra :
    NewX key = None -> String.length nonce = NonceSize ->
    Open key nonce (Seal key nonce plaintext extra) extra = inl plaintext
}.

(** [DefaultPbkdfConfig] with the number of iterations. *)
Definition DefaultIterations : Z := 256.

Module AEAD.
Section Methods.
Context `{CipherLib}.
(** A cipher is its key. *)
Record t := { Cipher : string }.

Definition NewAEAD (secret salt : string) (iter : Z) : t + error :=
  let key := pbkdf2_Key secret salt iter KeySize in
  match NewX key with
  | Some err => inr err
  | None => inl {| Cipher := key |}
  end.

Definition Encrypt (plaintext : string) (additionalData : list string) (a : t) : M Env (string + error) :=
  let* nonce := GenerateCryptoRand NonceSize in
  match nonce with
  | inr err => ret (inr err)
  | inl nonce => ret (inl (nonce +:+ Seal (Cipher a) nonce plaintext (OptionalArg "" additionalData)))
  end.

Definition Decrypt (ciphertext : string) (additionalData : list string) (a : t) : string + error :=
  if (String.length ciphertext <? NonceSize)%nat then inr (Native "ciphertext too short")
  else
    let nonce := str_take NonceSize ciphertext in
    let ciphertextSplit := str_drop NonceSize ciphertext in
    Open (Cipher a) nonce ciphertextSplit (OptionalArg "" additionalData).

(** What a cipher encrypts it decrypts; a ciphertext is never empty. *)
Lemma wp_Encrypt `{!CipherLibOk} secret salt iter a plaintext extra (Q : string + error -> Env -> Prop) e :
  NewAEAD secret salt iter = inl a ->
  (forall c e', c <> "" -> Decrypt c extra a = inl plaintext -> same_clock e e' -> Q (inl c) e') ->
  (forall err e', same_clock e e' -> Q (inr err) e') ->
  wp (Encrypt plaintext extra a) Q e.
Proof.
  unfold NewAEAD. destruct (NewX _) eqn:Ek; [done|]. intros [= <-] Hok Herr. unfold Encrypt. wp_go.
  apply wp_GenerateCryptoRand; [|intros; wp_go; by apply Herr].
  intros nonce e' Hn Hclock. wp_go. pose proof nonce_size_pos. apply Hok; [| |done].
  - intros E. apply (f_equal String.length) in E. rewrite str_length_app in E. cbn in E. lia.
  - unfold Decrypt. rewrite str_length_app, (proj2 (Nat.ltb_ge _ _)) by lia.
    rewrite <- Hn, str_take_app, str_drop_app. by apply open_seal.
Qed.
End Methods.
End AEAD.

(** [crypt_utils.Decrypt] with the default configuration. *)
Definition Decrypt `{CipherLib} (secret salt ciphertext : string) (additionalData : list string) : string + error :=
  match AEAD.NewAEAD secret salt DefaultIterations with
  | inr err => inr err
  | inl aead => AEAD.Decrypt ciphertext additionalData aead
  end.

(** ** Serializers (message.go) *)

(** [ParseMessage] fills an object; [lossless] are the objects the format represents. *)
Class Serializer (T : Type) := {
  SerializeMessage : T -> string + error;
  ParseMessage : string -> T -> T * option error;
  lossless : T -> Prop
}.
Class SerializerOk (T : Type) `{Serializer T} := {
  parse_serialize x b y : lossless x -> SerializeMessage x = inl b -> ParseMessage b y = (x, None)
}.
