(* ===== verification/AuthParams.v ===== *)
(** * auth/parameter_encryption.go: encrypted parameters of requests

    [AuthParameterEncryption] is the interface handlers use, with what it promises in
    [AuthParameterEncryptionOk]; [AuthParameterEncryptionBase] is the implementation and keeps
    the promises. *)
From S2P Require Import Prelude GoTime Utils Common Errors OpContext Auth Crypt.
Open Scope go_scope.

(** ** The interface *)

(** Parameters that hold objects of type [T]. *)
Class AuthParameterEncryption (P X T : Type) := {
  EncSetAuthParameter : string -> string -> T -> M (St P X) (option error);
  EncGetAuthParameter : string -> string -> T -> M (St P X) (bool * option error * T)
}.

(** Reading depends on the header only and changes nothing; a parameter that is not found has no
    header; writing touches response headers and the environment; what is written is read. *)
Class AuthParameterEncryptionOk (P X T : Type) `{!Lens X AuthContext, !Lens X Env, !AuthParameterEncryption P X T} := {
  opened : string -> T -> bool * option error * T;
  sendable : T -> Prop;
  opened_empty y : opened "" y = (false, None, y);
  opened_found header y : header <> "" -> (opened header y).1.1 = true;
  get_spec protocol name y (Q : bool * option error * T -> Op P -> X -> Prop) o x :
    Q (opened (default "" (request_headers (view x) !! auth_header protocol name)) y) o x ->
    spec (EncGetAuthParameter protocol name y) Q o x;
  set_spec protocol name obj (Q : option error -> Op P -> X -> Prop) o x :
    (forall err env, same_clock (view x) env -> Q (Some err) o (put (env : Env) x)) ->
    (forall header env, header <> "" -> same_clock (view x) env ->
       (sendable obj -> forall y, opened header y = (true, None, obj)) ->
       Q None o (put (with_response (set_header (auth_header protocol name) header
                        (response_headers (view x))) (view x)) (put (env : Env) x))) ->
    spec (EncSetAuthParameter protocol name obj) Q o x
}.

(** ** The implementation *)

Module AuthParameterEncryptionBase.
Record t := { SECRET : string; PBKDF2_ITERATIONS : Z; SALT_SIZE : nat }.

Section Methods.
Context {P X T : Type} `{Lx : !Lens X AuthContext, Le : !Lens X Env}.
Context `{!StringCoding, !CipherLib, !Serializer T}.
Local Abbreviation act := (M (St P X)).

(** [int(a.PBKDF2_ITERATIONS)] of an unsigned integer. *)
Definition createCipher (a : t) (salt : string) : AEAD.t + error :=
  AEAD.NewAEAD (SECRET a) salt (int64 (PBKDF2_ITERATIONS a)).

(** [if err != nil { c.SetMessage(msg); return err }] for the variable that is recorded. *)
Definition fail {A} (c : nat) (msg : string) (r : A) (err : error) : act (A * option error) :=
  SetMessage c msg ;; ret (r, Some err).

Definition SetAuthParameter (a : t) (authMethodProtocol name : string) (obj : T) : act (option error) :=
  traced_exit "AuthParameterEncryptionBase.SetAuthParameter" (fun c =>
    match SerializeMessage obj with
    | inr err => fail c "failed to serialize object" (Some err) err
    | inl plaintext =>
        let* salt := on (GenerateCryptoRand (SALT_SIZE a)) in
        match salt with
        | inr err => fail c "failed to generate salt" (Some err) err
        | inl salt =>
            match createCipher a salt with
            | inr err => fail c "failed to create AEAD cipher" (Some err) err
            | inl cipher =>
                let* ciphertext := on (AEAD.Encrypt plaintext [] cipher) in
                match ciphertext with
                | inr err => fail c "failed to encrypt data" (Some err) err
                | inl ciphertext =>
                    Auth.SetAuthParameter authMethodProtocol name (Encode (ciphertext +:+ salt)) ;;
                    ret (None, None)
                end
            end
        end
    end).

Definition GetAuthParameter (a : t) (authMethodProtocol name : string) (obj : T) : act (bool * option error * T) :=
  traced_exit "AuthParameterEncryptionBase.GetAuthParameter" (fun c =>
    let* data := Auth.GetAuthParameter authMethodProtocol name in
    if decide (data = "") then ret ((false, None, obj), None)
    else
      match Decode data with
      | inr err => fail c "failed to decode data" (true, Some err, obj) err
      | inl ciphertext =>
          if (String.length ciphertext <? SALT_SIZE a)%nat then
            (* [err] is a new variable here: the call is left without an error *)
            ret ((true, Some (Native "ciphertext too short for salt"), obj), None)
          else
            let salt := str_drop (String.length ciphertext - SALT_SIZE a) ciphertext in
            let ciphertext := str_take (String.length ciphertext - String.length salt) ciphertext in
            match createCipher a salt with
            | inr err => fail c "failed to create AEAD cipher" (true, Some err, obj) err
            | inl cipher =>
                match AEAD.Decrypt ciphertext [] cipher with
                | inr err => fail c "failed to decrypt ciphertext" (true, Some err, obj) err
                | inl plaintext =>
                    let '(obj, err) := ParseMessage plaintext obj in
                    match err with
                    | Some err => fail c "failed to parse plaintext" (true, Some err, obj) err
                    | None => ret ((true, None, obj), None)
                    end
                end
            end
      end).
End Methods.

(** ** Facts *)

Section Facts.
Context {P X T : Type} `{Lx : !Lens X AuthContext, Le : !Lens X Env, Ld : !Disjoint_lens X AuthContext Env}.
Context `{StringCodingOk, CipherLibOk, SerializerOk T}.

(** What is read from the text of a header. *)
Definition open_data (a : t) (data : string) (obj : T) : bool * option error * T :=
  if decide (data = "") then (false, None, obj)
  else
    match Decode data with
    | inr err => (true, Some err, obj)
    | inl text =>
        let n := String.length text - SALT_SIZE a in
        if (String.length text <? SALT_SIZE a)%nat then (true, Some (Native "ciphertext too short for salt"), obj)
        else
          match createCipher a (str_drop n text) with
          | inr err => (true, Some err, obj)
          | inl cipher =>
              match AEAD.Decrypt (str_take n text) [] cipher with
              | inr err => (true, Some err, obj)
              | inl plaintext => let '(obj, err) := ParseMessage plaintext obj in (true, err, obj)
              end
          end
    end.

Lemma spec_GetAuthParameter a protocol name obj (Q : bool * option error * T -> Op P -> X -> Prop) o x :
  Q (open_data a (default "" (request_headers (view x) !! auth_header protocol name)) obj) o x ->
  spec (GetAuthParameter a protocol name obj) Q o x.
Proof.
  intros HQ. unfold GetAuthParameter, open_data, fail in *. spec_go. apply spec_on, wp_gets. cbn beta.
  rewrite put_view. destruct (decide _); [by spec_go|]. destruct (Decode _) as [text|err]; [|by spec_go].
  destruct (Nat.ltb_spec (String.length text) (SALT_SIZE a)); [by spec_go|].
  rewrite str_length_drop.
  replace (String.length text - (String.length text - (String.length text - SALT_SIZE a)))
    with (String.length text - SALT_SIZE a) by lia.
  destruct (createCipher _ _); [|by spec_go]. destruct (AEAD.Decrypt _ _ _); [|by spec_go].
  destruct (ParseMessage _ _) as [y [err|]]; by spec_go.
Qed.

Lemma open_data_sealed a cipher salt ciphertext plaintext obj obj' :
  String.length salt = SALT_SIZE a -> createCipher a salt = inl cipher ->
  ciphertext <> "" -> AEAD.Decrypt ciphertext [] cipher = inl plaintext ->
  SerializeMessage obj = inl plaintext -> lossless obj ->
  open_data a (Encode (ciphertext +:+ salt)) obj' = (true, None, obj).
Proof.
  intros Hs Hc Hne Hd Hser Hl. unfold open_data. rewrite decide_False.
  - rewrite decode_encode, str_length_app, (proj2 (Nat.ltb_ge _ _)) by lia.
    replace (String.length ciphertext + String.length salt - SALT_SIZE a) with (String.length ciphertext) by lia.
    rewrite str_drop_app, str_take_app, Hc, Hd. by rewrite (parse_serialize _ _ _ Hl Hser).
  - apply encode_nonempty. by destruct ciphertext.
Qed.

Lemma spec_SetAuthParameter a protocol name obj (Q : option error -> Op P -> X -> Prop) o x :
  (forall err env, same_clock (view x) env -> Q (Some err) o (put (env : Env) x)) ->
  (forall data env, data <> "" -> same_clock (view x) env -> (lossless obj -> forall y, open_data a data y = (true, None, obj)) ->
     Q None o (put (with_response (set_header (auth_header protocol name) data (response_headers (view x))) (view x))
                 (put (env : Env) x))) ->
  spec (SetAuthParameter a protocol name obj) Q o x.
Proof.
  intros Herr HQ. unfold SetAuthParameter, fail. spec_go.
  destruct (SerializeMessage obj) as [plaintext|err] eqn:Eser;
    [|spec_go; specialize (Herr err (view x) (same_clock_refl _)); by rewrite put_view in Herr].
  spec_go. apply spec_on, wp_GenerateCryptoRand; [|intros; spec_go; by apply Herr]. intros salt e1 Hsalt Hclock.
  destruct (createCipher a salt) as [cipher|err] eqn:Ec; [|spec_go; by apply Herr].
  spec_go. apply spec_on. unfold createCipher in Ec. eapply AEAD.wp_Encrypt; [exact Ec| |].
  - intros ct e2 Hct Hdec Hclock2. rewrite view_put in Hclock2. rewrite put_put. spec_go. apply spec_on, wp_modify.
    spec_go. rewrite view_put_l. apply HQ; [|by eapply same_clock_trans|].
    + apply encode_nonempty. by destruct ct.
    + intros Hl y. by eapply open_data_sealed.
  - intros err e2 Hclock2. rewrite view_put in Hclock2. rewrite put_put. spec_go. apply Herr. by eapply same_clock_trans.
Qed.
(** The implementation of the interface for a configuration. *)
#[local] Instance implementation (a : t) : AuthParameterEncryption P X T := {|
  EncSetAuthParameter := SetAuthParameter a;
  EncGetAuthParameter := GetAuthParameter a
|}.

Lemma open_data_found a data y : data <> "" -> (open_data a data y).1.1 = true.
Proof.
  intros Hd. unfold open_data. rewrite decide_False by done.
  destruct (Decode data); [|done]. destruct (_ <? _)%nat; [done|]. destruct (createCipher _ _); [|done].
  destruct (AEAD.Decrypt _ _ _); [|done]. by destruct (ParseMessage _ _).
Qed.

Definition implementation_ok (a : t) : AuthParameterEncryptionOk P X T (AuthParameterEncryption0 := implementation a).
Proof.
  refine {| opened := open_data a; sendable := lossless |}.
  - done.
  - apply open_data_found.
  - intros. by apply spec_GetAuthParameter.
  - intros. by apply spec_SetAuthParameter.
Defined.

(** [C35] Encrypted parameters survive the way to the client and back.  Whatever the salt and
    the nonce, when writing an object succeeds, any later request whose header carries what the
    response header held reads the object; reading changes nothing.  When writing fails the
    response is as it was. *)
Theorem parameter_roundtrip a protocol name obj (s : St P X) :
  lossless obj ->
  let '(err, s1) := SetAuthParameter a protocol name obj s in
  st_op s1 = st_op s /\
  match err with
  | Some _ => view (A := AuthContext) (st_ext s1) = view (st_ext s)
  | None =>
      forall (s2 : St P X) (obj0 : T),
        request_headers (view (st_ext s2)) !! auth_header protocol name =
        response_headers (view (st_ext s1)) !! auth_header protocol name ->
        let '(r, s3) := GetAuthParameter a protocol name obj0 s2 in
        r = (true, None, obj) /\ st_op s3 = st_op s2 /\ st_ext s3 = st_ext s2
  end.
Proof.
  intros Hl. destruct s as [t o x].
  pose proof (spec_SetAuthParameter a protocol name obj (fun err o' x' => o' = o /\
    match err with
    | Some _ => view (A := AuthContext) x' = view x
    | None => exists data, response_headers (view x') !! auth_header protocol name = Some data /\
              forall y, open_data a data y = (true, None, obj)
    end) o x) as HS.
  specialize (HS ltac:(intros; split; [done|]; by rewrite view_put_l)
    ltac:(intros data env Hd Hclock Ho; split; [done|]; exists data; rewrite view_put; cbn;
          unfold set_header; rewrite decide_False by done; rewrite lookup_insert_eq; auto) t).
  cbn in HS. destruct (SetAuthParameter _ _ _ _ _) as [err [t1 o1 x1]]. cbn in HS |- *.
  destruct HS as [-> HS]. split; [done|]. destruct err; [done|]. destruct HS as (data & Hh & Ho).
  intros [t2 o2 x2] y Hr.
  pose proof (spec_GetAuthParameter a protocol name y
    (fun r o' x' => r = (true, None, obj) /\ o' = o2 /\ x' = x2) o2 x2) as HG.
  cbn in Hr. rewrite Hr, Hh in HG. specialize (HG ltac:(cbn; by rewrite Ho) t2). cbn in HG.
  by destruct (GetAuthParameter _ _ _ _ _) as [r [t3 o3 x3]].
Qed.
End Facts.

(** A cipher that puts its key before the text. *)
#[local] Instance demo_cipher : CipherLib := {|
  KeySize := 32; NonceSize := 24;
  NewX key := if (String.length key =? 32)%nat then None else Some (Native "bad key length");
  Seal key _ plaintext _ := key +:+ plaintext;
  Open key _ ciphertext _ :=
    if decide (str_take (String.length key) ciphertext = key) then inl (str_drop (String.length key) ciphertext)
    else inr (Native "message authentication failed");
  pbkdf2_Key password salt _ size := str_take size (digest (password +:+ salt))
|}.
#[local] Instance demo_cipher_ok : CipherLibOk.
Proof.
  split; cbn; [lia|]. intros. by rewrite str_take_app, decide_True, str_drop_app.
Qed.
#[local] Instance demo_serializer : Serializer string := {|
  SerializeMessage x := inl x; ParseMessage b _ := (b, None); lossless _ := True
|}.
#[local] Instance demo_serializer_ok : SerializerOk string.
Proof. split. by intros ? ? ? _ [= <-]. Qed.
#[local] Existing Instances fst_lens snd_lens pair_disjoint.

Definition demo_config : t := {| SECRET := "secret"; PBKDF2_ITERATIONS := 256; SALT_SIZE := 8 |}.
Definition demo_request (headers : gmap string string) : AuthContext :=
  {| request_path := "/"; request_method := "GET"; request_content := ""; client_ip := "10.0.0.1";
     user_agent := "curl"; precheck m := (m, None); request_headers := headers; response_headers := ∅;
     session_ := ""; client_ := ""; authUser := None; tenancy := None |}.
Definition demo_env : Env := {| env_now _ := 0%Z; env_rand n := Z.of_nat (1000 + n); env_tick := 0; idCount := 0 |}.

Lemma parameter_roundtrip_witness :
  let s := Build_St trace0 op_demo (demo_request ∅, demo_env) in
  let '(err, s1) := SetAuthParameter demo_config "token" "access-token" "hello" s in
  let s2 := Build_St trace0 op_demo (demo_request (response_headers (st_ext s1).1), demo_env) in
  err = None /\ (GetAuthParameter demo_config "token" "access-token" "" s2).1 = (true, None, "hello").
Proof.
  intros s. pose proof (parameter_roundtrip demo_config "token" "access-token" "hello" s I) as HR.
  assert (E : (SetAuthParameter demo_config "token" "access-token" "hello" s).1 = None) by (vm_compute; reflexivity).
  destruct (SetAuthParameter demo_config "token" "access-token" "hello" s) as [err s1].
  cbn in E. subst err. destruct HR as [_ HR]. split; [reflexivity|].
  specialize (HR (Build_St trace0 op_demo (demo_request (response_headers (st_ext s1).1), demo_env)) "" eq_refl).
  destruct (GetAuthParameter _ _ _ _ _) as [r s3]. exact (proj1 HR).
Defined.
End AuthParameterEncryptionBase.
