(* ===== verification/Cache.v ===== *)
(** * pkg/cache: caches of strings and of objects

    [StringCache] is the interface of a cache of strings, [StringCacheOk] what it promises:
    [contents] is what was set and not removed, whether it has expired or not, so that a value
    that is found is there, and a value that is there may not be found.  [InmemCache] is the
    implementation in memory over a third-party cache with expiration, [SerializedObjectCache]
    keeps objects in a cache of strings. *)
From S2P Require Import Prelude Utils Errors Crypt.
Open Scope go_scope.

(** ** Caches of strings (cache.go) *)

Class StringCache (C : Type) := {
  sc_Set : string -> string -> list Z -> M C (option error);
  sc_Get : string -> string -> M C (bool * option error * string);
  sc_Unset : string -> M C (option error);
  sc_Touch : string -> M C (option error);
  sc_Keys : M C (list string * option error);
  sc_Clear : M C (option error)
}.

(** Removing a value never fails to remove it, as in the memory. *)
Class StringCacheOk (C : Type) `{StringCache C} := {
  contents : C -> gmap string string;
  cache_set key val ttl (Q : option error -> C -> Prop) c :
    (forall e c', contents c' = (match e with None => <[key := val]> (contents c) | Some _ => contents c end) -> Q e c') ->
    wp (sc_Set key val ttl) Q c;
  cache_get key old (Q : bool * option error * string -> C -> Prop) c :
    (forall found e val c', contents c' = contents c ->
       (found = true -> e = None -> contents c !! key = Some val) -> Q (found, e, val) c') ->
    wp (sc_Get key old) Q c;
  cache_unset key (Q : option error -> C -> Prop) c :
    (forall e c', contents c' = delete key (contents c) -> Q e c') -> wp (sc_Unset key) Q c
}.

(** ** The cache in memory (inmem_cache.go) *)

(** ttlcache, third-party: an item is its value and whether it has expired. *)
Class TtlCache (C : Type) := {
  ttl_Set : string -> string -> option Z -> C -> C;
  ttl_Get : string -> M C (option (string * bool));
  ttl_Delete : string -> C -> C;
  ttl_DeleteAll : C -> C;
  ttl_Touch : string -> C -> C;
  ttl_Keys : C -> list string
}.
Class TtlCacheOk (C : Type) `{TtlCache C} := {
  ttl_items : C -> gmap string string;
  ttl_set key val ttl c : ttl_items (ttl_Set key val ttl c) = <[key := val]> (ttl_items c);
  ttl_get key c : ttl_items (ttl_Get key c).2 = ttl_items c;
  ttl_found key c val expired : (ttl_Get key c).1 = Some (val, expired) -> ttl_items c !! key = Some val;
  ttl_delete key c : ttl_items (ttl_Delete key c) = delete key (ttl_items c)
}.

Module InmemCache.
Section Methods.
Context {C : Type} `{TtlCache C}.

(** [time.Second * time.Duration(ttlSeconds[0])]; without it there is no expiration. *)
Definition Set_ (key val : string) (ttlSeconds : list Z) : M C (option error) :=
  let ttl := match ttlSeconds with [] => None | s :: _ => Some (int64 (second * s)) end in
  modify (ttl_Set key val ttl) ;; ret None.
Definition Get (key old : string) : M C (bool * option error * string) :=
  let* item := ttl_Get key in
  match item with
  | None => ret (false, None, old)
  | Some (val, expired) => if (expired : bool) then ret (false, None, old) else ret (true, None, val)
  end.
Definition Unset (key : string) : M C (option error) := modify (ttl_Delete key) ;; ret None.
Definition Clear : M C (option error) := modify ttl_DeleteAll ;; ret None.
Definition Touch (key : string) : M C (option error) := modify (ttl_Touch key) ;; ret None.
Definition Keys : M C (list string * option error) := let* keys := gets ttl_Keys in ret (keys, None).
End Methods.

#[global] Instance inmem_cache {C} `{TtlCache C} : StringCache C := {|
  sc_Set := Set_; sc_Get := Get; sc_Unset := Unset; sc_Touch := Touch; sc_Keys := Keys; sc_Clear := Clear
|}.

#[global] Program Instance inmem_cache_ok {C} `{TtlCacheOk C} : StringCacheOk C := {| contents := ttl_items |}.
Next Obligation. intros. cbn. unfold Set_. wp_go. apply H1. cbn. apply ttl_set. Qed.
Next Obligation.
  intros C ? ? key old Q c HQ. cbn. unfold Get. apply wp_bind. unfold wp.
  destruct (ttl_Get key c) as [item c'] eqn:E. cbn [fst snd].
  assert (Hc : ttl_items c' = ttl_items c) by (pose proof (ttl_get key c) as Ht; by rewrite E in Ht).
  destruct item as [[val expired]|]; [|by apply HQ].
  destruct expired; [by apply HQ|]. apply HQ; [done|]. intros _ _. eapply ttl_found. by rewrite E.
Qed.
Next Obligation. intros. cbn. unfold Unset. wp_go. apply H1. cbn. apply ttl_delete. Qed.
End InmemCache.

(** ** Objects in a cache (cache.go) *)

Module SerializedObjectCache.
Section Methods.
Context {C T : Type} `{StringCache C, StringCoding, Serializer T}.

Definition Set_ (key : string) (val : T) (ttlSeconds : list Z) : M C (option error) :=
  match SerializeMessage val with
  | inr err => ret (Some err)
  | inl b => sc_Set key (Encode b) ttlSeconds
  end.

Definition Get (key : string) (obj : T) : M C (bool * option error * T) :=
  let* '(found, err, val) := sc_Get key "" in
  if negb found || bool_decide (err <> None) then ret (false, err, obj)
  else
    match Decode val with
    | inr err => ret (true, Some err, obj)
    | inl b => let '(obj, err) := ParseMessage b obj in ret (true, err, obj)
    end.

Definition Unset (key : string) : M C (option error) := sc_Unset key.
Definition Clear : M C (option error) := sc_Clear.
Definition Touch (key : string) : M C (option error) := sc_Touch key.
Definition Keys : M C (list string * option error) := sc_Keys.
End Methods.

Section Facts.
Context {C T : Type} `{StringCacheOk C, StringCodingOk, SerializerOk T}.

(** The object a cache holds under a key. *)
Definition holds (c : C) (key : string) (val : T) : Prop :=
  exists text b, contents c !! key = Some text /\ Decode text = inl b /\ forall y : T, ParseMessage b y = (val, None).
(** The object read from what a cache holds under a key. *)
Definition reads (c : C) (key : string) (old val : T) : Prop :=
  exists text b, contents c !! key = Some text /\ Decode text = inl b /\ ParseMessage b old = (val, None).

Lemma holds_reads c key old val val' : holds c key val -> reads c key old val' -> val' = val.
Proof. intros (t & b & E & D & HP) (t' & b' & E' & D' & HP'). specialize (HP old). congruence. Qed.

Lemma wp_Set key (val : T) ttl (Q : option error -> C -> Prop) c :
  (forall e c', (forall k, k <> key -> contents c' !! k = contents c !! k) ->
     (e = None -> lossless val -> holds c' key val) -> (e <> None -> contents c' = contents c) -> Q e c') ->
  wp (Set_ key val ttl) Q c.
Proof.
  intros HQ. unfold Set_. destruct (SerializeMessage val) as [b|err] eqn:E; [|by apply wp_ret, HQ].
  apply cache_set. intros e c' Hc. apply HQ.
  - intros k Hk. rewrite Hc. destruct e; [done|by rewrite lookup_insert_ne].
  - intros -> Hl. exists (Encode b), b. rewrite Hc, lookup_insert_eq, decode_encode.
    split_and!; [done|done|]. intros y. by apply parse_serialize.
  - destruct e; [done|]. by intros [].
Qed.

Lemma wp_Get key (old : T) (Q : bool * option error * T -> C -> Prop) c :
  (forall found err val c', contents c' = contents c -> (found = true -> err = None -> reads c key old val) ->
     Q (found, err, val) c') ->
  wp (Get key old) Q c.
Proof.
  intros HQ. unfold Get. apply wp_bind, cache_get. intros found e text c' Hc Hf.
  destruct found; cbn; [|by apply wp_ret, HQ].
  case_bool_decide as He; [by apply wp_ret, HQ; destruct e|].
  destruct e; [done|]. specialize (Hf eq_refl eq_refl).
  destruct (Decode text) as [b|err] eqn:Ed; [|by apply wp_ret, HQ].
  destruct (ParseMessage b old) as [val err] eqn:Ep. apply wp_ret, HQ; [done|]. intros _ ->. by exists text, b.
Qed.

(** [C40] An object put into a cache is found as it was put, or not found any more; no other key
    is touched, and after its removal it is never found. *)
Theorem cache_roundtrip key (val old : T) ttl c :
  lossless val ->
  let '(e, c1) := Set_ key val ttl c in
  (forall k, k <> key -> contents c1 !! k = contents c !! k) /\
  (e = None -> let '(found, err, val', c2) := Get key old c1 in
               (found = true -> err = None -> val' = val) /\
               let '(found', _, _, _) := Get key old (Unset key c2).2 in found' = false).
Proof.
  intros Hl. pose proof (wp_Set key val ttl (fun e c1 =>
    (forall k, k <> key -> contents c1 !! k = contents c !! k) /\ (e = None -> holds c1 key val)) c) as HS.
  specialize (HS ltac:(intros; split; auto)). apply wp_run in HS. destruct (Set_ key val ttl c) as [e c1].
  cbn in HS. destruct HS as [Ho Hh]. split; [done|]. intros He. specialize (Hh He).
  pose proof (wp_Get key old (fun r c2 => r.1.1 = true -> r.1.2 = None -> reads c1 key old r.2) c1) as HG.
  specialize (HG ltac:(intros; cbn in *; auto)). apply wp_run in HG.
  destruct (Get key old c1) as [[[found err] val'] c2]. cbn in HG. split.
  - intros. eapply holds_reads; [exact Hh|by apply HG].
  - pose proof (cache_unset (C := C) key (fun _ (c3 : C) => contents (StringCacheOk := H0) c3 = delete key (contents c2)) c2 ltac:(intros e3 c3 E3; exact E3)) as HU.
    apply wp_run in HU. unfold Unset. destruct (sc_Unset key c2) as [e3 c3]. cbn in HU |- *.
    pose proof (cache_get key "" (fun r _ => r.1.1 = true -> r.1.2 = None -> False) c3) as HG3.
    specialize (HG3 ltac:(intros f ? ? ? _ Hf Ht Hn; cbn in Ht, Hn; specialize (Hf Ht Hn);
      by rewrite HU, lookup_delete_eq in Hf)). apply wp_run in HG3. unfold Get, bind.
    destruct (sc_Get key "" c3) as [[[f3 e3'] t3] c4]. cbn in HG3 |- *.
    destruct f3; cbn; [|done]. case_bool_decide as He3; [done|]. destruct e3'; [done|].
    by destruct (HG3 eq_refl eq_refl).
Qed.
End Facts.
End SerializedObjectCache.

(** A cache that never forgets. *)
Definition MapCache := gmap string string.
#[export] Instance map_ttl : TtlCache MapCache := {|
  ttl_Set key val _ c := <[key := val]> c; ttl_Get key c := ((fun v => (v, false)) <$> c !! key, c);
  ttl_Delete key c := delete key c; ttl_DeleteAll _ := ∅; ttl_Touch _ c := c; ttl_Keys c := (map_to_list c).*1
|}.
#[export] Program Instance map_ttl_ok : TtlCacheOk MapCache := {| ttl_items c := c |}.
Next Obligation. done. Qed.
Next Obligation. done. Qed.
Next Obligation. intros key c val expired E. apply fmap_Some in E as (v & Ev & Hv). by injection Hv as -> _. Qed.
Next Obligation. done. Qed.

#[local] Instance string_serializer : Serializer string := {|
  SerializeMessage x := inl x; ParseMessage b _ := (b, None); lossless _ := True
|}.
#[local] Instance string_serializer_ok : SerializerOk string.
Proof. split. by intros ? ? ? _ [= <-]. Qed.

Lemma cache_roundtrip_witness :
  let '(e, c1) := SerializedObjectCache.Set_ (C := MapCache) "k" "value" [300%Z] ∅ in
  e = None /\ (SerializedObjectCache.Get (T := string) "k" "" c1).1.2 = "value".
Proof.
  pose proof (SerializedObjectCache.cache_roundtrip (C := MapCache) "k" "value" "" [300%Z] ∅ I) as H.
  destruct (SerializedObjectCache.Set_ "k" "value" [300%Z] ∅) as [e c1] eqn:E.
  vm_compute in E. injection E as <- <-. destruct H as [_ H]. specialize (H eq_refl). split; [reflexivity|].
  destruct (SerializedObjectCache.Get "k" "" _) as [[[found err] val'] c2] eqn:G. destruct H as [H _].
  vm_compute in G. injection G as <- <- <- <-. exact (H eq_refl eq_refl).
Defined.
