(* ===== verification/Session.v ===== *)
(** * auth/auth_session: sessions, clients of sessions, and their controller

    A session and a client of a session are rows of two tables.  The operations of the
    controller are generic in the state: they need the two tables, the context of the request
    and the environment as components of it. *)
From S2P Require Import Prelude GoTime Utils Common Errors OpContext Db Crud Auth Crypt.
Open Scope go_scope.

(** ** Data (session.go, auth_user.go) *)

Record SessionBase := {
  ss_base : ObjectBase.t;
  ss_user : WithUserBase.t;
  Valid : bool;
  Expiration : Z
}.

Record SessionClientBase := {
  sc_base : ObjectBase.t;
  sc_user : WithUserBase.t;
  SessionId : string;
  ClientIp : string;
  UserAgent : string;
  ClientHash : string
}.

Definition NewSession : SessionBase :=
  {| ss_base := ObjectBase.zero; ss_user := WithUserBase.zero; Valid := false; Expiration := 0 |}.
Definition NewSessionClient : SessionClientBase :=
  {| sc_base := ObjectBase.zero; sc_user := WithUserBase.zero; SessionId := ""; ClientIp := "";
     UserAgent := ""; ClientHash := "" |}.

Definition set_ss_base (b : ObjectBase.t) (s : SessionBase) : SessionBase :=
  {| ss_base := b; ss_user := ss_user s; Valid := Valid s; Expiration := Expiration s |}.
Definition set_ss_user (u : WithUserBase.t) (s : SessionBase) : SessionBase :=
  {| ss_base := ss_base s; ss_user := u; Valid := Valid s; Expiration := Expiration s |}.
Definition SetValid (valid : bool) (s : SessionBase) : SessionBase :=
  {| ss_base := ss_base s; ss_user := ss_user s; Valid := valid; Expiration := Expiration s |}.
Definition SetExpiration (exp : Z) (s : SessionBase) : SessionBase :=
  {| ss_base := ss_base s; ss_user := ss_user s; Valid := Valid s; Expiration := exp |}.
Definition SetUser (user : AuthUser) (s : SessionBase) : SessionBase :=
  set_ss_user (WithUserBase.SetUser user (ss_user s)) s.

Definition set_sc_base (b : ObjectBase.t) (s : SessionClientBase) : SessionClientBase :=
  {| sc_base := b; sc_user := sc_user s; SessionId := SessionId s; ClientIp := ClientIp s;
     UserAgent := UserAgent s; ClientHash := ClientHash s |}.
Definition set_sc_user (u : WithUserBase.t) (s : SessionClientBase) : SessionClientBase :=
  {| sc_base := sc_base s; sc_user := u; SessionId := SessionId s; ClientIp := ClientIp s;
     UserAgent := UserAgent s; ClientHash := ClientHash s |}.
Definition SetSessionId_ (v : string) (s : SessionClientBase) : SessionClientBase :=
  {| sc_base := sc_base s; sc_user := sc_user s; SessionId := v; ClientIp := ClientIp s;
     UserAgent := UserAgent s; ClientHash := ClientHash s |}.
Definition SetClientIp (v : string) (s : SessionClientBase) : SessionClientBase :=
  {| sc_base := sc_base s; sc_user := sc_user s; SessionId := SessionId s; ClientIp := v;
     UserAgent := UserAgent s; ClientHash := ClientHash s |}.
Definition SetUserAgent (v : string) (s : SessionClientBase) : SessionClientBase :=
  {| sc_base := sc_base s; sc_user := sc_user s; SessionId := SessionId s; ClientIp := ClientIp s;
     UserAgent := v; ClientHash := ClientHash s |}.
Definition SetClientHash (v : string) (s : SessionClientBase) : SessionClientBase :=
  {| sc_base := sc_base s; sc_user := sc_user s; SessionId := SessionId s; ClientIp := ClientIp s;
     UserAgent := UserAgent s; ClientHash := v |}.

(** The columns of the embedded structs. *)
Definition object_columns {R} (get : R -> ObjectBase.t) (set : ObjectBase.t -> R -> R) : list (string * Col R) :=
  [("id", str_col (fun r => ObjectBase.ID (get r)) (fun v r => set (ObjectBase.SetID v (get r)) r));
   ("created_at", time_col (fun r => ObjectBase.CREATED_AT (get r)) (fun v r => set (ObjectBase.SetCreatedAt v (get r)) r));
   ("updated_at", time_col (fun r => ObjectBase.UPDATED_AT (get r)) (fun v r => set (ObjectBase.SetUpDatedAt v (get r)) r))].
Definition user_columns {R} (get : R -> WithUserBase.t) (set : WithUserBase.t -> R -> R) : list (string * Col R) :=
  [("user_id", str_col (fun r => WithUserBase.UserId (get r)) (fun v r => set
     {| WithUserBase.UserId := v; WithUserBase.UserLogin := WithUserBase.UserLogin (get r);
        WithUserBase.UserDisplay := WithUserBase.UserDisplay (get r) |} r));
   ("user_login", str_col (fun r => WithUserBase.UserLogin (get r)) (fun v r => set
     {| WithUserBase.UserId := WithUserBase.UserId (get r); WithUserBase.UserLogin := v;
        WithUserBase.UserDisplay := WithUserBase.UserDisplay (get r) |} r));
   ("user_display", str_col (fun r => WithUserBase.UserDisplay (get r)) (fun v r => set
     {| WithUserBase.UserId := WithUserBase.UserId (get r); WithUserBase.UserLogin := WithUserBase.UserLogin (get r);
        WithUserBase.UserDisplay := v |} r))].

Definition session_columns : list (string * Col SessionBase) :=
  Eval cbn in object_columns ss_base set_ss_base ++ user_columns ss_user set_ss_user ++
  [("valid", bool_col Valid SetValid); ("expiration", time_col Expiration SetExpiration)].
Definition client_columns : list (string * Col SessionClientBase) :=
  Eval cbn in object_columns sc_base set_sc_base ++ user_columns sc_user set_sc_user ++
  [("session_id", str_col SessionId SetSessionId_); ("client_ip", str_col ClientIp SetClientIp);
   ("user_agent", str_col UserAgent SetUserAgent); ("client_hash", str_col ClientHash SetClientHash)].

#[export] Instance session_entity : Entity SessionBase := {|
  obj_base := ss_base; set_base := set_ss_base; columns := session_columns; unique_indexes := [["id"]]
|}.
#[export] Instance client_entity : Entity SessionClientBase := {|
  obj_base := sc_base; set_base := set_sc_base; columns := client_columns;
  unique_indexes := [["id"]; ["session_id"; "client_hash"]]
|}.
#[export] Instance session_entity_ok : EntityOk SessionBase.
Proof. split; try done. solve_columns. Qed.
#[export] Instance client_entity_ok : EntityOk SessionClientBase.
Proof. split; try done. solve_columns. Qed.

(** ** The controller (session_controller.go) *)

(** [ctx.AuthUser()] is dereferenced by some operations, whose callers check it: without a user
    the code panics, which is this error here. *)
Definition nil_user : error := Native "invalid memory address or nil pointer dereference".

Module SessionController.
Section Methods.
Context {P X : Type}.
Context `{Ls : !Lens X (table SessionBase), Lc : !Lens X (table SessionClientBase), Lx : !Lens X AuthContext, Le : !Lens X Env}.
Context `{Es : !Engine SessionBase, Ec : !Engine SessionClientBase, Di : !Digest, Sc : !StringCoding}.
Local Abbreviation act := (M (St P X)).

Definition CreateSession (expiration : Z) : act (option SessionBase * option error) :=
  traced "auth_session.CreateSession" (fun c =>
    let* session := on (InitObject NewSession) in
    let* user := AuthUser_ in
    match user with
    | None => ret (None, Some nil_user)
    | Some user =>
        let session := SetExpiration expiration (SetValid true (SetUser user session)) in
        let* err := DbCRUD.Create session in
        match err with
        | Some _ => SetError c err ;; ret (None, err)
        | None => ret (Some session, None)
        end
    end).

(** Whether the session was found is not looked at: the zero session stands for an unknown one. *)
Definition FindSession (sessionId : string) : act (option SessionBase * option error) :=
  traced "auth_session.FindSession" (fun c =>
    let* '(_, err, session) := DbCRUD.ReadByField "id" (VStr sessionId) NewSession in
    match err with
    | Some _ => SetError c err ;; ret (None, err)
    | None => ret (Some session, None)
    end).

(** The client as [UpdateSessionClient] initialises a new one. *)
Definition new_client (clientIp clientHash sessionId userAgent : string) (user : AuthUser)
    (client : SessionClientBase) : SessionClientBase :=
  SetUserAgent userAgent (set_sc_user (WithUserBase.SetUser user (sc_user client))
    (SetSessionId_ sessionId (SetClientHash clientHash (SetClientIp clientIp client)))).

(** The end of [UpdateSessionClient]. *)
Definition finish_client (c : nat) (tryUpdate : bool) (client : SessionClientBase) : act (option error * option error) :=
  let* '(err, client) :=
    (if tryUpdate then
       let* now := on Now in
       DbCRUD.Update client {["updated_at" := VTime now]}
     else ret (None, client)) in
  match err with
  | Some _ => SetMessage c "failed to update client in database" ;; ret (err, err)
  | None => SetClientId (Db.GetID client) ;; ret (None, None)
  end.

Definition UpdateSessionClient : act (option error) :=
  traced_exit "auth_session.UpdateSessionClient" (fun c =>
    let* clientIp := request client_ip in
    let* userAgent := request user_agent in
    let clientHash := (Hash.CalcStrStr [clientIp; userAgent] Hash.New).1 in
    let* sessionId := GetSessionId in
    let fields := <["session_id" := VStr sessionId]> {["client_hash" := VStr clientHash]} in
    let* '(found, err, client) := DbCRUD.Read fields NewSessionClient in
    match err with
    | Some _ => SetMessage c "failed to find client in database" ;; ret (err, err)
    | None =>
        if (found : bool) then finish_client c true client
        else
          let* client := on (InitObject client) in
          let* user := AuthUser_ in
          match user with
          | None => ret (Some nil_user, Some nil_user)
          | Some user =>
              let client := new_client clientIp clientHash sessionId userAgent user client in
              let* err1 := DbCRUD.Create client in
              finish_client c (bool_decide (err1 <> None)) client
          end
    end).

Definition UpdateSessionExpiration (session : SessionBase) : act (option error) :=
  traced "auth_session.UpdateSessionExpiration" (fun c =>
    let* '(err, _) := DbCRUD.Update session {["expiration" := VTime (Expiration session)]} in
    DbCRUD.checked c err).

(** The three invalidations. *)
Definition invalidate (name : string) (filter : option Fields) : act (option error) :=
  traced name (fun c =>
    let* now := on Now in
    let* err := DbCRUD.UpdateMulti NewSession filter (<["valid" := VBool false]> {["updated_at" := VTime now]}) in
    DbCRUD.checked c err).

Definition InvalidateSession (userId sessionId : string) : act (option error) :=
  invalidate "auth_session.InvalidateSession" (Some (<["id" := VStr sessionId]> {["user_id" := VStr userId]})).
Definition InvalidateUserSessions (userId : string) : act (option error) :=
  invalidate "auth_session.InvalidateUserSessions" (Some {["user_id" := VStr userId]}).
Definition InvalidateAllSessions : act (option error) := invalidate "auth_session.InvalidateAllSessions" None.

Definition GetSessions (filter : option Filter) : act (list SessionBase * Z * option error) :=
  traced "auth_session.GetSessions" (fun c =>
    let* '(sessions, count, err) := DbCRUD.List_ filter in
    match err with
    | Some _ => SetError c err ;; ret (sessions, 0%Z, err)
    | None => ret (sessions, count, None)
    end).
Definition GetSessionClients (filter : option Filter) : act (list SessionClientBase * Z * option error) :=
  traced "auth_session.GetSessionClients" (fun c =>
    let* '(clients, count, err) := DbCRUD.List_ filter in
    match err with
    | Some _ => SetError c err ;; ret (clients, 0%Z, err)
    | None => ret (clients, count, None)
    end).
End Methods.
End SessionController.
