(* ===== verification/Http.v ===== *)
(** * pkg/http_request: requests to other servers, queries and bodies

    The transport of net/http is the interface [HttpTransport]; the requests that left the
    application are the state [Network], and a server answers a request as it likes depending on
    those before it.  Query strings (net/url) are computed; the encoder and decoder of structs
    (gorilla/schema) are the interface [Schema]. *)
From Stdlib Require Import Ascii.
From S2P Require Import Prelude Utils Common Errors OpContext Crypt.
Open Scope go_scope.

(** ** Query strings (net/url) *)

(** [url.Values] *)
Abbreviation Values := (gmap string (list string)).

Module Url.
Definition unreserved (c : ascii) : bool :=
  let n := N_of_ascii c in
  ((48 <=? n) && (n <=? 57) || (65 <=? n) && (n <=? 90) || (97 <=? n) && (n <=? 122) ||
   (n =? 45) || (n =? 46) || (n =? 95) || (n =? 126))%N.
Definition upper_hex (d : N) : ascii := nth (N.to_nat d)
  ["0"; "1"; "2"; "3"; "4"; "5"; "6"; "7"; "8"; "9"; "A"; "B"; "C"; "D"; "E"; "F"]%char "0"%char.

Fixpoint QueryEscape (s : string) : string :=
  match s with
  | "" => ""
  | String c r =>
      if unreserved c then String c (QueryEscape r)
      else if decide (c = " "%char) then String "+"%char (QueryEscape r)
      else String "%"%char (String (upper_hex (N_of_ascii c / 16)) (String (upper_hex (N_of_ascii c mod 16)) (QueryEscape r)))
  end.

Fixpoint QueryUnescape (s : string) : option string :=
  match s with
  | "" => Some ""
  | String c r =>
      if decide (c = "%"%char) then
        match r with
        | String a (String b r) =>
            match digit_value 16 a, digit_value 16 b, QueryUnescape r with
            | Some x, Some y, Some t => Some (String (ascii_of_N (x * 16 + y)) t)
            | _, _, _ => None
            end
        | _ => None
        end
      else String (if decide (c = "+"%char) then " "%char else c) <$> QueryUnescape r
  end.

Definition pair_text (kv : string * string) : string := QueryEscape kv.1 +:+ "=" +:+ QueryEscape kv.2.
(** The keys in order, each with its values. *)
Definition value_pairs (v : Values) : list (string * string) :=
  concat (map (fun k => map (pair k) (default [] (v !! k))) (SliceStable String.ltb (map_to_list v).*1)).
Definition Encode (v : Values) : string := Join (map pair_text (value_pairs v)) "&".

Definition EscapeError : error := Native "invalid URL escape".
Fixpoint has_char (c : ascii) (s : string) : bool :=
  match s with "" => false | String d r => bool_decide (d = c) || has_char c r end.
(** [strings.Cut] at a character. *)
Fixpoint Cut (c : ascii) (s : string) : string * string :=
  match s with
  | "" => ("", "")
  | String d r => if decide (d = c) then ("", r) else let '(a, b) := Cut c r in (String d a, b)
  end.

Definition add_value (m : Values) (kv : string * string) : Values := <[kv.1 := default [] (m !! kv.1) ++ [kv.2]]> m.
(** One segment between "&"; the first error is kept and the segment is skipped. *)
Definition parse_segment (acc : Values * option error) (segment : string) : Values * option error :=
  let '(m, err) := acc in
  let failed (e : error) := (m, match err with Some _ => err | None => Some e end) in
  if has_char ";"%char segment then failed (Native "invalid semicolon separator in query")
  else if decide (segment = "") then acc
  else
    let '(key, value) := Cut "="%char segment in
    match QueryUnescape key, QueryUnescape value with
    | Some key, Some value => (add_value m (key, value), err)
    | _, _ => failed EscapeError
    end.
Definition ParseQuery (query : string) : Values * option error :=
  foldl parse_segment (∅, None) (Split query "&").

(** *** What is encoded is parsed *)

Lemma unescape_escape s : QueryUnescape (QueryEscape s) = Some s.
Proof.
  induction s as [|c s IH]; [done|]. cbn [QueryEscape].
  destruct (unreserved c) eqn:Eu.
  - cbn [QueryUnescape]. rewrite IH, !decide_False; [done|..]; by intros ->.
  - destruct (decide (c = " "%char)) as [->|Hs]; [cbn; by rewrite IH|].
    cbn [QueryUnescape]. rewrite decide_True by done.
    assert (Hc : digit_value 16 (upper_hex (N_of_ascii c / 16)) = Some (N_of_ascii c / 16)%N /\
                 digit_value 16 (upper_hex (N_of_ascii c mod 16)) = Some (N_of_ascii c mod 16)%N)
      by (by destruct c as [[] [] [] [] [] [] [] []]).
    destruct Hc as [-> ->]. rewrite IH. do 2 f_equal.
    rewrite N.mul_comm, <- N.div_mod by done. apply ascii_N_embedding.
Qed.

(** Characters of escaped text. *)
Definition plain_char (c : ascii) : bool := unreserved c || bool_decide (c = "%"%char) || bool_decide (c = "+"%char).
Lemma escaped_plain c s : plain_char c = false -> has_char c (QueryEscape s) = false.
Proof.
  intros Hc. assert (Hne : forall d, plain_char d = true -> bool_decide (d = c) = false)
    by (intros d Hd; apply bool_decide_eq_false; by intros ->; rewrite Hd in Hc).
  assert (Hh : forall n, (n < 16)%N -> plain_char (upper_hex n) = true).
  { intros n Hn. assert (Hall : forallb (fun n => plain_char (upper_hex n)) (map N.of_nat (seq 0 16)) = true) by (vm_compute; reflexivity).
    rewrite forallb_forall in Hall. apply Hall, in_map_iff. exists (N.to_nat n). rewrite N2Nat.id, in_seq. split; [done|lia]. }
  induction s as [|d s IH]; [done|]. cbn [QueryEscape]. destruct (unreserved d) eqn:Eu; [|destruct (decide _)]; cbn [has_char].
  - rewrite Hne, IH; [done|]. unfold plain_char. by rewrite Eu.
  - by rewrite Hne, IH.
  - rewrite !Hne; [by rewrite IH|apply Hh|apply Hh|done].
    + by apply N.mod_lt.
    + apply N.Div0.div_lt_upper_bound. pose proof (N_ascii_bounded d). lia.
Qed.

Lemma has_char_app c a b : has_char c (a +:+ b) = has_char c a || has_char c b.
Proof. induction a as [|d a IH]; [done|]. rewrite str_app_cons. cbn. by rewrite IH, orb_assoc. Qed.

Lemma cut_at c a b : has_char c a = false -> Cut c (a +:+ String c b) = (a, b).
Proof.
  induction a as [|d a IH].
  - intros _. rewrite str_app_nil_l. cbn [Cut]. by rewrite decide_True.
  - cbn [has_char]. rewrite orb_false_iff, bool_decide_eq_false. intros [Hd Ha]. rewrite str_app_cons. cbn [Cut].
    by rewrite decide_False, IH.
Qed.

Lemma split_go_app c acc a b : has_char c a = false ->
  split_go (String c "") 0 acc (a +:+ b) = split_go (String c "") 0 (acc +:+ a) b.
Proof.
  revert acc. induction a as [|d a IH]; intros acc; [by rewrite str_app_nil_l, str_app_nil_r|].
  cbn [has_char]. rewrite orb_false_iff, bool_decide_eq_false. intros [Hd Ha]. rewrite str_app_cons. cbn [split_go].
  assert (String.prefix (String c "") (String d (a +:+ b)) = false) as ->.
  { cbn. by destruct (ascii_dec c d) as [<-|]. }
  rewrite IH by done. by rewrite str_app_assoc.
Qed.

(** Parts without the separator come back from their join. *)
Lemma Split_Join c x l : Forall (fun s => has_char c s = false) (x :: l) ->
  Split (Join (x :: l) (String c "")) (String c "") = x :: l.
Proof.
  intros Hf. change (split_go (String c "") 0 "" (Join (x :: l) (String c "")) = ("" +:+ x) :: l).
  enough (forall acc, split_go (String c "") 0 acc (Join (x :: l) (String c "")) = (acc +:+ x) :: l) by done.
  revert x Hf. induction l as [|y l IH]; intros x Hf acc; inversion Hf as [|? ? Hc Hf']; subst.
  - change (Join [x] (String c "")) with x. pose proof (split_go_app c acc x "" Hc) as E. rewrite str_app_nil_r in E. exact E.
  - rewrite join_cons_ne by done. rewrite split_go_app by done.
    rewrite str_app_cons, str_app_nil_l. cbn [split_go].
    assert (String.prefix (String c "") (String c (Join (y :: l) (String c ""))) = true) as ->
      by exact (prefix_app (String c "") (Join (y :: l) (String c ""))).
    change (String.length (String c "") - 1) with 0. by rewrite IH.
Qed.

Lemma parse_pairs l m : foldl parse_segment (m, None) (map pair_text l) = (foldl add_value m l, None).
Proof.
  revert m. induction l as [|[k v] l IH]; intros m; [done|]. cbn [map foldl]. rewrite <- IH. f_equal.
  unfold parse_segment, pair_text. cbn [fst snd].
  rewrite !has_char_app, !escaped_plain by (vm_compute; reflexivity). cbn [orb has_char bool_decide].
  rewrite bool_decide_eq_false_2 by done. cbn [orb]. rewrite decide_False by (by destruct (QueryEscape k)).
  rewrite str_app_cons, str_app_nil_l, cut_at by (by apply escaped_plain; vm_compute). by rewrite !unescape_escape.
Qed.

(** The values of a key in a list of pairs. *)
Definition values_of (k : string) (l : list (string * string)) : list string :=
  (List.filter (fun kv => bool_decide (kv.1 = k)) l).*2.
Lemma add_values_lookup l m k :
  default [] (foldl add_value m l !! k) = default [] (m !! k) ++ values_of k l /\
  (is_Some (foldl add_value m l !! k) <-> is_Some (m !! k) \/ values_of k l <> []).
Proof.
  revert m. induction l as [|[k' v] l IH]; intros m; cbn [foldl].
  - unfold values_of. cbn. rewrite app_nil_r. tauto.
  - destruct (IH (add_value m (k', v))) as [-> ->]. unfold add_value, values_of. cbn [fst snd List.filter].
    destruct (decide (k' = k)) as [->|Hk].
    + rewrite lookup_insert_eq, bool_decide_eq_true_2 by done. cbn. rewrite <- app_assoc. split; [done|].
      split; [intros _; by right|intros _; left; by eexists].
    + by rewrite lookup_insert_ne, bool_decide_eq_false_2 by done.
Qed.

Lemma values_of_app k l1 l2 : values_of k (l1 ++ l2) = values_of k l1 ++ values_of k l2.
Proof. unfold values_of. by rewrite List.filter_app, fmap_app. Qed.
Lemma values_of_pairs k k' vs : values_of k (map (pair k') vs) = if decide (k' = k) then vs else [].
Proof.
  unfold values_of. induction vs as [|v vs IH]; cbn; [by destruct (decide _)|].
  destruct (decide (k' = k)); [rewrite bool_decide_eq_true_2 by done; cbn; by rewrite IH|by rewrite bool_decide_eq_false_2, IH by done].
Qed.
Lemma values_of_keys k f ks : NoDup ks ->
  values_of k (concat (map (fun k => map (pair k) (f k)) ks)) = if decide (k ∈ ks) then f k else [].
Proof.
  induction 1 as [|k' ks Hn Hd IH]; [done|]. cbn [map concat]. rewrite values_of_app, values_of_pairs, IH.
  destruct (decide (k' = k)) as [->|Hk].
  - rewrite decide_False by done. rewrite decide_True by apply list_elem_of_here. apply app_nil_r.
  - destruct (decide (k ∈ ks)); [rewrite decide_True by (by apply list_elem_of_further)|]; [done|].
    rewrite decide_False; [done|]. intros [E|?]%elem_of_cons; [by subst|done].
Qed.

Lemma value_pairs_of v k : values_of k (value_pairs v) = default [] (v !! k).
Proof.
  unfold value_pairs. rewrite values_of_keys by (rewrite SliceStable_perm; apply NoDup_fst_map_to_list).
  destruct (decide _) as [H|H]; [done|]. rewrite SliceStable_perm in H.
  destruct (v !! k) as [vs|] eqn:E; [|done]. destruct H. apply list_elem_of_fmap. exists (k, vs). split; [done|by apply elem_of_map_to_list].
Qed.

(** Query strings.  Values that are encoded come back: the same keys with the same values in
    their order, whatever characters they have, and no error. *)
Theorem query_roundtrip (v : Values) :
  map_Forall (fun _ vs => vs <> []) v -> ParseQuery (Encode v) = (v, None).
Proof.
  intros Hne. unfold ParseQuery, Encode.
  assert (Hv : foldl add_value ∅ (value_pairs v) = v).
  { apply map_eq. intros k. destruct (add_values_lookup (value_pairs v) ∅ k) as [Hd Hs].
    rewrite value_pairs_of, lookup_empty in Hd, Hs. cbn in Hd.
    destruct (v !! k) as [vs|] eqn:E; cbn in Hd, Hs.
    - destruct (proj2 Hs ltac:(right; by eapply Hne)) as [vs' E']. rewrite E' in Hd |- *. cbn in Hd. by subst.
    - destruct (foldl _ _ _ !! k) eqn:E'; [|done]. destruct (proj1 Hs ltac:(by eexists)) as [[? ?]|]; done. }
  destruct (value_pairs v) as [|p l] eqn:El; [by rewrite <- Hv|].
  change (map pair_text (p :: l)) with (pair_text p :: map pair_text l). rewrite Split_Join.
  - change (pair_text p :: map pair_text l) with (map pair_text (p :: l)). by rewrite parse_pairs, Hv.
  - change (pair_text p :: map pair_text l) with (map pair_text (p :: l)). apply List.Forall_forall.
    intros s (kv & <- & _)%in_map_iff. unfold pair_text.
    rewrite !has_char_app, !escaped_plain by (vm_compute; reflexivity). done.
Qed.
End Url.

(** ** Requests (request.go) *)

(** A response; names of headers are canonical, the body is what could be read of it. *)
Record Response := { StatusCode : Z; rp_Header : gmap string (list string); Body : string }.
Record NativeRequest := {
  rq_Method : string; rq_Url : string; rq_RawQuery : option string;
  rq_Header : gmap string (list string); rq_Body : string
}.
(** The requests sent so far. *)
Record Network := { sent : list NativeRequest }.

(** net/http: whether a request can be created for a method and a URL, and what the servers answer
    to a request after those sent before. *)
Class HttpTransport := {
  NewRequest_err : string -> string -> option error;
  Do : list NativeRequest -> NativeRequest -> Response + error
}.
(** gorilla/schema: a struct as values, and values read into a struct. *)
Class Schema (T : Type) := {
  schema_Encode : T -> Values + error;
  schema_Decode : Values -> T -> T * option error
}.
(** The mime type of a format. *)
Class ContentMime := { mime : string }.

Definition MethodGet := "GET".
Definition MethodPost := "POST".
Definition StatusBadRequest_ : Z := 400.

(** Header names are canonical: upper case at the start and after a hyphen. *)
Definition token_char (c : ascii) : bool :=
  let n := N_of_ascii c in
  ((48 <=? n) && (n <=? 57) || (65 <=? n) && (n <=? 90) || (97 <=? n) && (n <=? 122) ||
   existsb (fun d => bool_decide (c = d)) ["!"; "#"; "$"; "%"; "&"; "'"; "*"; "+"; "-"; "."; "^"; "_"; "`"; "|"; "~"]%char)%N.
Fixpoint all_chars (p : ascii -> bool) (s : string) : bool :=
  match s with "" => true | String c r => p c && all_chars p r end.
Definition ascii_upper (c : ascii) : ascii :=
  let n := N_of_ascii c in if ((97 <=? n) && (n <=? 122))%N then ascii_of_N (n - 32) else c.
Fixpoint canonical_go (upper : bool) (s : string) : string :=
  match s with
  | "" => ""
  | String c r => String (if upper then ascii_upper c else ascii_lower c) (canonical_go (bool_decide (c = "-"%char)) r)
  end.
Definition CanonicalHeaderKey (s : string) : string := if all_chars token_char s then canonical_go true s else s.

Definition Header_Set (key v : string) (r : NativeRequest) : NativeRequest :=
  {| rq_Method := rq_Method r; rq_Url := rq_Url r; rq_RawQuery := rq_RawQuery r;
     rq_Header := <[CanonicalHeaderKey key := [v]]> (rq_Header r); rq_Body := rq_Body r |}.
Definition Header_Add (key v : string) (r : NativeRequest) : NativeRequest :=
  {| rq_Method := rq_Method r; rq_Url := rq_Url r; rq_RawQuery := rq_RawQuery r;
     rq_Header := (let k := CanonicalHeaderKey key in <[k := default [] (rq_Header r !! k) ++ [v]]> (rq_Header r));
     rq_Body := rq_Body r |}.
Definition set_RawQuery (q : string) (r : NativeRequest) : NativeRequest :=
  {| rq_Method := rq_Method r; rq_Url := rq_Url r; rq_RawQuery := Some q; rq_Header := rq_Header r; rq_Body := rq_Body r |}.

Module HttpRequest.
(** [GoodResponse] and [BadResponse] point to objects of the caller, which may be one object: they
    are arguments of [Send], as ways to read a body into the caller's state. *)
Record t := { Native_ : NativeRequest; NativeResponse : option Response; ResponseStatus : Z; ResponseContent : string }.
Definition of_native (n : NativeRequest) : t :=
  {| Native_ := n; NativeResponse := None; ResponseStatus := 0; ResponseContent := "" |}.
Definition AddHeader (key value : string) (r : t) : t :=
  {| Native_ := Header_Add key value (Native_ r); NativeResponse := NativeResponse r; ResponseStatus := ResponseStatus r;
     ResponseContent := ResponseContent r |}.
Definition SetAuthHeader (key value : string) (r : t) : t :=
  {| Native_ := Header_Set "Authorization" (key +:+ " " +:+ value) (Native_ r); NativeResponse := NativeResponse r;
     ResponseStatus := ResponseStatus r; ResponseContent := ResponseContent r |}.
Definition HttpHeadersSet (req : NativeRequest) (headers : list (gmap string string)) : NativeRequest :=
  match headers with
  | [] => req
  | h :: _ => map_fold Header_Set req h
  end.

Section Methods.
Context {P X : Type} `{Ln : !Lens X Network, Ht : !HttpTransport}.
Local Abbreviation act := (M (St P X)).

Definition http_NewRequest (method url body : string) : NativeRequest + error :=
  match NewRequest_err method url with
  | Some err => inr err
  | None => inl {| rq_Method := method; rq_Url := url; rq_RawQuery := None; rq_Header := ∅; rq_Body := body |}
  end.

Definition NewPost {T} `{!Serializer T, !ContentMime} (url : string) (msg : T) : act (t + error) :=
  traced "http_request.NewPost" (fun c =>
    match SerializeMessage msg with
    | inr err => SetMessage c "failed to marshal message" ;; SetError c (Some err) ;; ret (inr err)
    | inl cmdByte =>
        match http_NewRequest MethodPost url cmdByte with
        | inr err => SetMessage c "failed to create request" ;; SetError c (Some err) ;; ret (inr err)
        | inl n =>
            ret (inl (of_native (if decide (mime = "") then n
                                 else Header_Set "Content-Type" (ConcatStrings [mime; ";charset=UTF-8"]) n)))
        end
    end).

(** [msg] may be nil. *)
Definition UrlEncode {T} `{!Schema T} (msg : option T) : string + error :=
  match msg with
  | None => inl ""
  | Some msg => match schema_Encode msg with inr err => inr err | inl v => inl (Url.Encode v) end
  end.

Definition NewGet {T} `{!Schema T} (uRL : string) (msg : option T) : act (t + error) :=
  traced "http_request.NewGet" (fun c =>
    match http_NewRequest MethodGet uRL "" with
    | inr err => SetMessage c "failed to create request" ;; SetError c (Some err) ;; ret (inr err)
    | inl n =>
        match UrlEncode msg with
        | inr err => SetMessage c "failed to build query" ;; SetError c (Some err) ;; ret (inr err)
        | inl query => ret (inl (of_native (set_RawQuery query n)))
        end
    end).

(** [client.Do] *)
Definition client_Do (n : NativeRequest) : M Network (Response + error) := fun w =>
  (Do (sent w) n, {| sent := sent w ++ [n] |}).

(** [parseResponse(obj)] with its message, if there is an object. *)
Definition parse_into {T} (c : nat) (msg : string) (parse : option (string -> T -> T * option error)) (body : string) (obj : T) :
    act (T * option error) :=
  match parse with
  | None => ret (obj, None)
  | Some parse =>
      let '(obj, err) := parse body obj in
      match err with
      | None => ret (obj, None)
      | Some _ => (if decide (msg = "") then ret tt else SetMessage c msg) ;; ret (obj, err)
      end
  end.

Definition Send {T} (r : t) (GoodResponse BadResponse : option (string -> T -> T * option error)) (relaxedParsing : list bool)
    (obj : T) : act (option error * t * T) :=
  traced_exit "Request.Send" (fun c =>
    let* res := on (client_Do (Native_ r)) in
    match res with
    | inr err => SetMessage c "failed to send request" ;; ret ((Some err, r, obj), Some err)
    | inl resp =>
        let r := {| Native_ := Native_ r; NativeResponse := Some resp; ResponseStatus := StatusCode resp;
                    ResponseContent := Body resp |} in
        let relaxed := OptionalArg false relaxedParsing in
        let* '(obj, err) :=
          (if (ResponseStatus r <? StatusBadRequest_)%Z then
             let* '(obj, err) := parse_into c (if relaxed then "" else "failed to parse good response") GoodResponse (Body resp) obj in
             ret (obj, if relaxed then None else err)
           else parse_into c "failed to parse bad response" BadResponse (Body resp) obj) in
        ret ((err, r, obj), err)
    end).

(** [SendRawRequest] *)
Definition SendRawRequest (request : NativeRequest) : act (option Response * option error) :=
  traced "http_request.Send" (fun c =>
    let* res := on (client_Do request) in
    match res with
    | inr err => SetError c (Some err) ;; ret (None, Some err)
    | inl resp => ret (Some resp, None)
    end).

(** [ParseQuery] of a request with a raw query (parse_request.go). *)
Definition ParseQuery {T} `{!Schema T} (RawQuery : string) (cmd : T) : act (option error * T) :=
  traced "http_request.ParseQuery" (fun c =>
    if decide (RawQuery = "") then ret (None, cmd)
    else
      let '(vals, err) := Url.ParseQuery RawQuery in
      match err with
      | Some err => SetMessage c "failed to parse query" ;; SetError c (Some err) ;; ret (Some err, cmd)
      | None =>
          let '(cmd, err) := schema_Decode vals cmd in
          match err with
          | Some err => SetMessage c "failed to decode schema" ;; SetError c (Some err) ;; ret (Some err, cmd)
          | None => ret (None, cmd)
          end
      end).

(** [ParseBody]; the body stays readable. *)
Definition ParseBody {T} `{!Serializer T} (body : string) (cmd : T) : act (option error * T) :=
  traced "http_request.ParseBody" (fun c =>
    let '(cmd, err) := ParseMessage body cmd in
    match err with
    | Some err => SetMessage c "failed to parse body" ;; SetError c (Some err) ;; ret (Some err, cmd)
    | None => ret (None, cmd)
    end).
End Methods.

(** ** What the operations do *)

Section Facts.
Context {P X : Type} `{Ln : !Lens X Network, Ht : !HttpTransport}.
Implicit Types (o : Op P) (x : X).

Definition after_sending (n : NativeRequest) x : X := put {| sent := sent (view x) ++ [n] |} x.
Definition answered (r : t) (resp : Response) : t :=
  {| Native_ := Native_ r; NativeResponse := Some resp; ResponseStatus := StatusCode resp; ResponseContent := Body resp |}.

(** What a response makes of the objects of the caller. *)
Definition read_into {T} (parse : option (string -> T -> T * option error)) (body : string) (obj : T) : T * option error :=
  match parse with None => (obj, None) | Some parse => parse body obj end.
Definition read_response {T} (good bad : option (string -> T -> T * option error)) (relaxed : bool) (resp : Response) (obj : T) :
    T * option error :=
  if (StatusCode resp <? StatusBadRequest_)%Z then
    let r := read_into good (Body resp) obj in (r.1, if relaxed then None else r.2)
  else read_into bad (Body resp) obj.

Lemma spec_parse_into {T} c msg (parse : option (string -> T -> T * option error)) body obj
    (Q : T * option error -> Op P -> X -> Prop) o x :
  Q (read_into parse body obj) o x -> spec (parse_into c msg parse body obj) Q o x.
Proof.
  intros HQ. unfold parse_into, read_into in *. destruct parse as [parse|]; [|by spec_go].
  destruct (parse body obj) as [obj' [err|]]; [|by spec_go]. spec_go. destruct (decide _); by spec_go.
Qed.

Lemma spec_Send {T} r good bad relaxed (obj : T) (Q : option error * t * T -> Op P -> X -> Prop) o x :
  (forall err, Do (sent (view x)) (Native_ r) = inr err -> Q (Some err, r, obj) o (after_sending (Native_ r) x)) ->
  (forall resp, Do (sent (view x)) (Native_ r) = inl resp ->
     let res := read_response good bad (OptionalArg false relaxed) resp obj in
     Q (res.2, answered r resp, res.1) o (after_sending (Native_ r) x)) ->
  spec (Send r good bad relaxed obj) Q o x.
Proof.
  intros He HQ. unfold Send. spec_go. apply spec_on. unfold wp, client_Do. cbn [fst snd].
  destruct (Do _ _) as [resp|err] eqn:Ed; spec_go; [|by apply He].
  specialize (HQ resp eq_refl). unfold read_response in HQ. cbn [ResponseStatus] in *.
  destruct (StatusCode resp <? StatusBadRequest_)%Z; spec_go; apply spec_parse_into; spec_go; cbn zeta in HQ.
  - destruct (read_into good _ _). by spec_go.
  - destruct (read_into bad _ _). by spec_go.
Qed.

Lemma spec_NewPost {T} `{!Serializer T, !ContentMime} url (msg : T) (Q : t + error -> Op P -> X -> Prop) o x :
  (forall err, Q (inr err) o x) ->
  (forall r body, SerializeMessage msg = inl body -> NewRequest_err MethodPost url = None ->
     rq_Method (Native_ r) = MethodPost -> rq_Url (Native_ r) = url -> rq_Body (Native_ r) = body ->
     Q (inl r) o x) ->
  spec (NewPost url msg) Q o x.
Proof.
  intros He HQ. unfold NewPost, http_NewRequest. spec_go. destruct (SerializeMessage msg) as [body|err]; [|by spec_go].
  destruct (NewRequest_err MethodPost url) eqn:En; [by spec_go|]. spec_go. eapply HQ; try done; by destruct (decide _).
Qed.

Lemma spec_NewGet {T} `{!Schema T} url (msg : option T) (Q : t + error -> Op P -> X -> Prop) o x :
  (forall err, Q (inr err) o x) ->
  (forall query, UrlEncode msg = inl query -> NewRequest_err MethodGet url = None ->
     Q (inl (of_native {| rq_Method := MethodGet; rq_Url := url; rq_RawQuery := Some query; rq_Header := ∅; rq_Body := "" |})) o x) ->
  spec (NewGet url msg) Q o x.
Proof.
  intros He HQ. unfold NewGet, http_NewRequest. spec_go. destruct (NewRequest_err MethodGet url) eqn:En; [by spec_go|].
  destruct (UrlEncode msg) as [query|err] eqn:Eq; [|by spec_go]. spec_go. by apply HQ.
Qed.
End Facts.

(** What the schema encoder writes the decoder reads, in an object with nothing in it. *)
Class SchemaOk (T : Type) `{Schema T} := {
  schema_zero : T;
  schema_roundtrip x v : schema_Encode x = inl v ->
    map_Forall (fun _ vs => vs <> []) v /\ schema_Decode v schema_zero = (x, None) /\ (v = ∅ -> x = schema_zero)
}.

Section RoundTrip.
Context {P X T : Type} `{Ln : !Lens X Network, Ht : !HttpTransport}.
Context `{So : SchemaOk T, Sr : SerializerOk T, !ContentMime}.

Lemma ParseQuery_of query v (cmd msg : T) (s : St P X) :
  Url.Encode v = query -> schema_Encode msg = inl v ->
  (ParseQuery query schema_zero s).1 = (None, msg).
Proof.
  intros <- He. destruct (schema_roundtrip _ _ He) as (Hne & Hd & Hz). pose proof (Url.query_roundtrip v Hne) as Hp.
  destruct s as [t o x].
  enough (HS : spec (ParseQuery (Url.Encode v) schema_zero) (fun r _ _ => r = (None, msg)) o x) by exact (HS t).
  unfold ParseQuery. spec_go. destruct (decide (Url.Encode v = "")) as [E|_].
  - spec_go. rewrite E in Hp. assert (v = ∅) as ->; [|by rewrite Hz]. by injection Hp.
  - rewrite Hp, Hd. by spec_go.
Qed.

(** Messages reach the other side.  The server that parses the query of a request made by
    [NewGet], or the body of a request made by [NewPost], reads the message the client gave,
    whatever characters it has; nothing is sent before [Send]. *)
Theorem request_roundtrip url (msg : T) (s s2 : St P X) :
  lossless msg ->
  (let '(r, s1) := NewGet url (Some msg) s in
   st_ext s1 = st_ext s /\
   forall req, r = inl req -> exists query, rq_RawQuery (Native_ req) = Some query /\ (ParseQuery query schema_zero s2).1 = (None, msg)) /\
  (let '(r, s1) := NewPost url msg s in
   st_ext s1 = st_ext s /\
   forall req, r = inl req -> forall old, (ParseBody (rq_Body (Native_ req)) old s2).1 = (None, msg)).
Proof.
  intros Hl. destruct s as [t o x]. split.
  - pose proof (spec_NewGet url (Some msg) (fun r o' x' => x' = x /\
      forall req, r = inl req -> exists query, rq_RawQuery (Native_ req) = Some query /\ UrlEncode (Some msg) = inl query) o x) as HS.
    specialize (HS ltac:(intros; split; [done|]; by intros) ltac:(intros query Hq _; split; [done|]; intros req [= <-]; by exists query) t).
    destruct (NewGet url (Some msg) _) as [r s1]. cbn in HS |- *. destruct HS as [Hx Hr]. split; [done|].
    intros req Hreq. destruct (Hr req Hreq) as (query & Hq & Hu). exists query. split; [done|].
    destruct (schema_Encode msg) as [v|err] eqn:Ev; [|done]. injection Hu as Hu. by eapply ParseQuery_of.
  - pose proof (spec_NewPost url msg (fun r o' x' => x' = x /\
      forall req, r = inl req -> SerializeMessage msg = inl (rq_Body (Native_ req))) o x) as HS.
    specialize (HS ltac:(intros; split; [done|]; by intros) ltac:(intros r body Hb _ _ _ Hr; split; [done|]; intros req [= <-]; by subst) t).
    destruct (NewPost url msg _) as [r s1]. cbn in HS |- *. destruct HS as [Hx Hr]. split; [done|].
    intros req Hreq old. specialize (Hr req Hreq). destruct s2 as [t2 o2 x2].
    enough (HP : spec (ParseBody (rq_Body (Native_ req)) old) (fun r _ _ => r = (None, msg)) o2 x2) by exact (HP t2).
    unfold ParseBody. spec_go. rewrite (parse_serialize _ _ old Hl Hr). by spec_go.
Qed.
End RoundTrip.
End HttpRequest.

(** ** A transport, and a struct with one field *)

Module HttpDemo.
#[export] Instance transport : HttpTransport := {|
  NewRequest_err _ url := if decide (url = "") then Some (Native "empty url") else None;
  Do _ n := if decide (rq_Method n = MethodGet) then inl {| StatusCode := 200; rp_Header := ∅; Body := default "" (rq_RawQuery n) |}
            else inl {| StatusCode := 400; rp_Header := ∅; Body := rq_Body n |}
|}.
#[export] Instance text_schema : Schema string := {|
  schema_Encode s := inl (if decide (s = "") then ∅ else {["q" := [s]]});
  schema_Decode v old := (match v !! "q" with Some (s :: _) => s | _ => old end, None)
|}.
#[export] Program Instance text_schema_ok : HttpRequest.SchemaOk string := {| HttpRequest.schema_zero := "" |}.
Next Obligation.
  cbn. intros x v [= <-]. destruct (decide (x = "")) as [->|Hx]; [done|]. split; [by apply map_Forall_singleton|].
  by rewrite lookup_singleton_eq.
Qed.
#[export] Instance text_format : Serializer string := {|
  SerializeMessage x := inl x; ParseMessage b _ := (b, None); lossless _ := True
|}.
#[export] Instance text_format_ok : SerializerOk string.
Proof. split. by intros ? ? ? _ [= <-]. Qed.
#[export] Instance text_mime : ContentMime := {| mime := "text/plain" |}.
Definition start : St unit Network := Build_St trace0 op_demo {| sent := [] |}.
Definition url := "https://example.org/send".
End HttpDemo.

Section Witnesses.
Import HttpDemo.
Lemma request_roundtrip_witness :
  let r := (HttpRequest.NewGet (T := string) HttpDemo.url (Some "a+b & c") HttpDemo.start).1 in
  exists req, r = inl req /\ rq_RawQuery (HttpRequest.Native_ req) = Some "q=a%2Bb+%26+c" /\
    (HttpRequest.ParseQuery "q=a%2Bb+%26+c" "" HttpDemo.start).1 = (None, "a+b & c").
Proof.
  cbv zeta. pose proof (HttpRequest.request_roundtrip HttpDemo.url "a+b & c" HttpDemo.start HttpDemo.start I) as [H _].
  destruct (HttpRequest.NewGet HttpDemo.url (Some "a+b & c") HttpDemo.start) as [r s1] eqn:E.
  vm_compute in E. injection E as <- _. destruct H as [_ H]. eexists. split; [reflexivity|]. split; [reflexivity|].
  destruct (H _ eq_refl) as (query & Hq & Hp). injection Hq as <-. exact Hp.
Defined.
End Witnesses.
