(* ===== verification/Sms.v ===== *)
(** * pkg/sms: messages, providers, and the manager that sends them

    A message is a row of a table; it is stored before it is handed to the provider its phone
    number selects, and the row then gets the outcome.  A provider is its name and its [Send];
    [ProviderOk] is what providers promise. *)
From Stdlib Require Import Ascii Sorted.
From stdpp Require Import relations.
From S2P Require Import Prelude GoTime Utils Common Errors OpContext Db Crud Auth Crypt Session Http.
Open Scope go_scope.

(** ** Data (sms.go, sms_manager.go) *)

Record ProviderResponse := { ProviderMessageID : string; RawContent : string }.

Record Provider (P X : Type) := {
  p_Name : string;
  p_Send : string -> string -> M (St P X) (option ProviderResponse * option error)
}.
Arguments p_Name {P X}.
Arguments p_Send {P X}.

Definition ErrorCodeSmsSendingFailed := "sms_sending_failed".
Definition SmsErrorDescriptions : gmap string string := {[ErrorCodeSmsSendingFailed := "Failed to send SMS."]}.
Definition SmsErrorHttpCodes : gmap string Z := {[ErrorCodeSmsSendingFailed := 500%Z]}.

Definition StatusSending := "sending".
Definition StatusSuccess := "success".
Definition StatusFail := "fail".

Module SmsMessage.
Record t := {
  base : ObjectBase.t; user : WithUserBase.t;
  ForeignId : string; Phone : string; Operation : string; Provider : string; Status : string; Tenancy : string;
  Message : string; RawResponse : string
}.
Definition zero : t :=
  {| base := ObjectBase.zero; user := WithUserBase.zero; ForeignId := ""; Phone := ""; Operation := ""; Provider := "";
     Status := ""; Tenancy := ""; Message := ""; RawResponse := "" |}.
Definition set_base b m := {| base := b; user := user m; ForeignId := ForeignId m; Phone := Phone m; Operation := Operation m;
  Provider := Provider m; Status := Status m; Tenancy := Tenancy m; Message := Message m; RawResponse := RawResponse m |}.
Definition set_user u m := {| base := base m; user := u; ForeignId := ForeignId m; Phone := Phone m; Operation := Operation m;
  Provider := Provider m; Status := Status m; Tenancy := Tenancy m; Message := Message m; RawResponse := RawResponse m |}.
Definition set_ForeignId v m := {| base := base m; user := user m; ForeignId := v; Phone := Phone m; Operation := Operation m;
  Provider := Provider m; Status := Status m; Tenancy := Tenancy m; Message := Message m; RawResponse := RawResponse m |}.
Definition set_Phone v m := {| base := base m; user := user m; ForeignId := ForeignId m; Phone := v; Operation := Operation m;
  Provider := Provider m; Status := Status m; Tenancy := Tenancy m; Message := Message m; RawResponse := RawResponse m |}.
Definition set_Operation v m := {| base := base m; user := user m; ForeignId := ForeignId m; Phone := Phone m; Operation := v;
  Provider := Provider m; Status := Status m; Tenancy := Tenancy m; Message := Message m; RawResponse := RawResponse m |}.
Definition set_Provider v m := {| base := base m; user := user m; ForeignId := ForeignId m; Phone := Phone m;
  Operation := Operation m; Provider := v; Status := Status m; Tenancy := Tenancy m; Message := Message m; RawResponse := RawResponse m |}.
Definition set_Status v m := {| base := base m; user := user m; ForeignId := ForeignId m; Phone := Phone m; Operation := Operation m;
  Provider := Provider m; Status := v; Tenancy := Tenancy m; Message := Message m; RawResponse := RawResponse m |}.
Definition set_Tenancy v m := {| base := base m; user := user m; ForeignId := ForeignId m; Phone := Phone m; Operation := Operation m;
  Provider := Provider m; Status := Status m; Tenancy := v; Message := Message m; RawResponse := RawResponse m |}.
Definition set_Message v m := {| base := base m; user := user m; ForeignId := ForeignId m; Phone := Phone m; Operation := Operation m;
  Provider := Provider m; Status := Status m; Tenancy := Tenancy m; Message := v; RawResponse := RawResponse m |}.
Definition set_RawResponse v m := {| base := base m; user := user m; ForeignId := ForeignId m; Phone := Phone m; Operation := Operation m;
  Provider := Provider m; Status := Status m; Tenancy := Tenancy m; Message := Message m; RawResponse := v |}.
Definition columns : list (string * Col t) :=
  Eval cbn in object_columns base set_base ++ user_columns user set_user ++
  [("foreign_id", str_col ForeignId set_ForeignId); ("phone", str_col Phone set_Phone);
   ("operation", str_col Operation set_Operation); ("provider", str_col Provider set_Provider);
   ("status", str_col Status set_Status); ("tenancy", str_col Tenancy set_Tenancy);
   ("message", str_col Message set_Message); ("raw_response", str_col RawResponse set_RawResponse)].
End SmsMessage.
Abbreviation SmsMessage := SmsMessage.t.

#[export] Instance sms_entity : Entity SmsMessage := {|
  obj_base := SmsMessage.base; set_base := SmsMessage.set_base; columns := SmsMessage.columns; unique_indexes := [["id"]]
|}.
#[export] Instance sms_entity_ok : EntityOk SmsMessage.
Proof. split; try done. solve_columns. Qed.

(** ** The manager (sms_manager.go) *)

Record SmsManagerBaseConfig := { DEFAULT_PROVIDER : string; ENCRYPT_MESSAGE_STORE : bool; SECRET : string; SALT : string }.
Record SmsDestinationConfig := { PREFIX : string; PROVIDER : string }.

(** The interface of a manager of messages. *)
Class SmsManager (P X : Type) := {
  sms_Send : string -> string -> M (St P X) (string * option error);
  sms_FindSms : string -> M (St P X) (option SmsMessage * option error)
}.

Module SmsManagerBase.
Record SmsDestination (P X : Type) := { dest_config : SmsDestinationConfig; dest_provider : Provider P X }.
Arguments dest_config {P X}.
Arguments dest_provider {P X}.
Record t (P X : Type) := {
  config : SmsManagerBaseConfig;
  destinations : list (SmsDestination P X);
  cipher : option AEAD.t;
  defaultProvider : Provider P X
}.
Arguments config {P X}.
Arguments destinations {P X}.
Arguments cipher {P X}.
Arguments defaultProvider {P X}.

Section Init.
Context {P X : Type} `{!CipherLib}.
Definition longer (a b : SmsDestination P X) : bool :=
  (String.length (PREFIX (dest_config b)) <? String.length (PREFIX (dest_config a)))%nat.

Fixpoint load_destinations (providers : gmap string (Provider P X)) (l : list SmsDestinationConfig) :
    list (SmsDestination P X) + error :=
  match l with
  | [] => inl []
  | d :: r =>
      match providers !! PROVIDER d with
      | None => inr (Native "unknown provider for destination")
      | Some p => match load_destinations providers r with
                  | inl r => inl ({| dest_config := d; dest_provider := p |} :: r)
                  | inr err => inr err
                  end
      end
  end.

(** [Init] with the configuration, the providers and the destinations that were loaded. *)
Definition Init (cfg : SmsManagerBaseConfig) (providers : gmap string (Provider P X)) (dests : list SmsDestinationConfig) :
    t P X + error :=
  let cipher : option AEAD.t + error :=
    if ENCRYPT_MESSAGE_STORE cfg then
      if decide (SECRET cfg = "") then inr (Native "encryption secret must not be empty")
      else if decide (SALT cfg = "") then inr (Native "encryption salt must not be empty")
      else match AEAD.NewAEAD (SECRET cfg) (SALT cfg) DefaultIterations with
           | inl c => inl (Some c)
           | inr err => inr err
           end
    else inl None in
  match cipher with
  | inr err => inr err
  | inl cipher =>
      match providers !! DEFAULT_PROVIDER cfg with
      | None => inr (Native "unknown default provider")
      | Some p =>
          match load_destinations providers dests with
          | inr err => inr err
          | inl ds => inl {| config := cfg; destinations := SliceStable longer ds; cipher := cipher; defaultProvider := p |}
          end
      end
  end.
End Init.

Section Methods.
Context {P X : Type}.
Context `{Lt : !Lens X (table SmsMessage), Lx : !Lens X AuthContext, Le : !Lens X Env}.
Context `{Es : !Engine SmsMessage, Ci : !CipherLib, Sc : !StringCoding}.
Local Abbreviation act := (M (St P X)).

Fixpoint find_provider (dflt : Provider P X) (l : list (SmsDestination P X)) (recipient : string) : Provider P X :=
  match l with
  | [] => dflt
  | d :: r => if String.prefix (PREFIX (dest_config d)) recipient then dest_provider d else find_provider dflt r recipient
  end.
Definition provider_of (s : t P X) (recipient : string) : Provider P X := find_provider (defaultProvider s) (destinations s) recipient.

(** The text that is stored; without a cipher the code panics. *)
Definition stored_message (s : t P X) (message : string) : act (string + error) :=
  if ENCRYPT_MESSAGE_STORE (config s) then
    match cipher s with
    | None => ret (inr nil_user)
    | Some cipher =>
        let* ciphertext := on (AEAD.Encrypt message [] cipher) in
        match ciphertext with
        | inr err => ret (inr err)
        | inl ciphertext => ret (inl (Encode ciphertext))
        end
    end
  else ret (inl message).

(** The new message before its text is set. *)
Definition new_sms (recipient : string) (user : AuthUser) (tenancy name provider : string) (sms : SmsMessage) : SmsMessage :=
  SmsMessage.set_Status StatusSending (SmsMessage.set_Provider provider (SmsMessage.set_Operation name
    (SmsMessage.set_Phone recipient (SmsMessage.set_Tenancy tenancy
      (SmsMessage.set_user (WithUserBase.SetUser user (SmsMessage.user sms)) sms))))).

(** [provider.Send] and what follows. *)
Definition deliver (c : nat) (provider : Provider P X) (message recipient : string) (sms : SmsMessage) :
    act ((string * option error) * option error) :=
  let* '(resp, err) := p_Send provider message recipient in
  let sms := match resp with
             | Some resp => SmsMessage.set_ForeignId (ProviderMessageID resp) (SmsMessage.set_RawResponse (RawContent resp) sms)
             | None => sms
             end in
  let* sms := (match err with
               | Some _ => SetMessage c "failed to send SMS" ;; ret (SmsMessage.set_Status StatusFail sms)
               | None => ret (SmsMessage.set_Status StatusSuccess sms)
               end) in
  (* an error of the update is only logged *)
  let* '(_, sms) := DbCRUD.db_Update sms
    (<["status" := VStr (SmsMessage.Status sms)]> (<["raw_response" := VStr (SmsMessage.RawResponse sms)]>
      {["foreign_id" := VStr (SmsMessage.ForeignId sms)]})) in
  ret ((Db.GetID sms, err), err).

Definition Send (s : t P X) (message recipient : string) : act (string * option error) :=
  traced_exit "SmsManagerBase.Send" (fun c =>
    let provider := provider_of s recipient in
    let* user := AuthUser_ in
    match user with
    | None => ret (("", Some nil_user), Some nil_user)
    | Some user =>
        let* sms := on (InitObject SmsMessage.zero) in
        let* tenancy := request tenancy in
        let* name := on_op (gets op_name) in
        let sms := new_sms recipient user (default "" tenancy) name (p_Name provider) sms in
        let* text := stored_message s message in
        match text with
        | inr err =>
            (* [err] is a new variable here *)
            SetMessage c "failed to encrypt message" ;;
            SetGenericErrorCode ErrorCodeInternalServerError [] ;;
            ret (("", Some err), None)
        | inl text =>
            let sms := SmsMessage.set_Message text sms in
            let* err := on (query (fun t => eng_create t sms)) in
            match err with
            | Some _ =>
                SetMessage c "failed to save SMS in database" ;;
                SetGenericErrorCode ErrorCodeInternalServerError [] ;;
                ret (("", err), err)
            | None => deliver c provider message recipient sms
            end
        end
    end).

Definition AttachToErrorManager (m : ErrorManagerBase.t) : ErrorManagerBase.t :=
  ErrorManagerBase.AddErrorProtocolCodes SmsErrorHttpCodes (ErrorManagerBase.AddErrorDescriptions SmsErrorDescriptions m).

Definition FindSms (smsId : string) : act (option SmsMessage * option error) :=
  traced_exit "SmsManagerBase.FindSms" (fun c =>
    let* '(row, err) := on (read_query (fun t => eng_find NoLock t {["id" := VStr smsId]})) in
    match err, row with
    | Some _, _ => SetMessage c "failed to find SMS in database" ;; ret ((None, err), err)
    | None, None => ret ((None, Some (Native "SMS not found")), Some (Native "SMS not found"))
    | None, Some msg => ret ((Some msg, None), None)
    end).
End Methods.

(** The manager as the interface. *)
Definition implementation {P X} `{Lt : !Lens X (table SmsMessage), Lx : !Lens X AuthContext, Le : !Lens X Env}
    `{Es : !Engine SmsMessage, Ci : !CipherLib, Sc : !StringCoding} (s : t P X) : SmsManager P X :=
  {| sms_Send := Send s; sms_FindSms := FindSms |}.

(** ** The provider of a phone number *)

Section Destinations.
Context {P X : Type} `{!CipherLib}.
Implicit Types (ds : list (SmsDestination P X)).
Local Abbreviation prefix d := (PREFIX (dest_config d)).
Local Abbreviation len d := (String.length (PREFIX (dest_config d))).

(** [d] is the destination for the number: no longer prefix matches, and of those with the same
    prefix it is the first. *)
Definition selected (ds : list (SmsDestination P X)) (recipient : string) (p : Provider P X) : Prop :=
  exists before d after, ds = before ++ d :: after /\ dest_provider d = p /\ String.prefix (prefix d) recipient = true /\
    Forall (fun e => prefix e <> prefix d) before /\
    Forall (fun e => String.prefix (prefix e) recipient = true -> len e <= len d) ds.

Lemma find_provider_first dflt ds recipient :
  (find_provider dflt ds recipient = dflt /\ Forall (fun d => String.prefix (prefix d) recipient = false) ds) \/
  exists before d after, ds = before ++ d :: after /\ find_provider dflt ds recipient = dest_provider d /\
    String.prefix (prefix d) recipient = true /\ Forall (fun d => String.prefix (prefix d) recipient = false) before.
Proof.
  induction ds as [|d ds IH]; cbn; [by left|]. destruct (String.prefix (prefix d) recipient) eqn:E.
  - right. by exists [], d, ds.
  - destruct IH as [[-> Hf]|(before & d' & after & -> & -> & Hp & Hf)]; [left|right].
    + split; [done|by constructor].
    + exists (d :: before), d', after. split_and!; try done. by constructor.
Qed.

(** Prefixes of one text are determined by their length. *)
Lemma prefix_same_length p q s :
  String.prefix p s = true -> String.prefix q s = true -> String.length p = String.length q -> p = q.
Proof.
  revert q s. induction p as [|c p IH]; intros [|d q] s; cbn; try done. destruct s as [|e s]; [done|].
  cbn. destruct (ascii_dec c e) as [->|]; [|done]. destruct (ascii_dec d e) as [->|]; [|done].
  intros Hp Hq [= Hl]. f_equal. exact (IH q s Hp Hq Hl).
Qed.

(** The first of the elements with a property, and the list without the others. *)
Lemma filter_first {A} (f : A -> bool) l before d after :
  List.filter f l = before ++ d :: after ->
  exists l1 l2, l = l1 ++ d :: l2 /\ List.filter f l1 = before /\ List.filter f l2 = after.
Proof.
  revert before. induction l as [|x l IH]; intros before E; cbn in E; [by destruct before|].
  destruct (f x) eqn:Ef.
  - destruct before as [|y before]; injection E as -> E; [by exists [], l|].
    destruct (IH before E) as (l1 & l2 & -> & <- & <-). exists (y :: l1), l2. cbn. by rewrite Ef.
  - destruct (IH before E) as (l1 & l2 & -> & <- & <-). exists (x :: l1), l2. cbn. by rewrite Ef.
Qed.

Lemma filter_none {A} (f : A -> bool) l : List.filter f l = [] <-> Forall (fun x => f x = false) l.
Proof.
  induction l as [|x l IH]; cbn; [done|]. rewrite Forall_cons. destruct (f x); [by split; [|intros [? _]]|]. rewrite IH. tauto.
Qed.

(** The loaded destinations: those of the configuration in its order. *)
Lemma load_destinations_spec providers l ds :
  load_destinations (P := P) (X := X) providers l = inl ds ->
  map dest_config ds = l /\ Forall (fun d => providers !! PROVIDER (dest_config d) = Some (dest_provider d)) ds.
Proof.
  revert ds. induction l as [|c l IH]; intros ds; cbn; [by intros [= <-]|].
  destruct (providers !! PROVIDER c) as [p|] eqn:Ep; [|done].
  destruct (load_destinations providers l) as [r|err]; [|done]. intros [= <-].
  destruct (IH r eq_refl) as [<- Hf]. split; [done|]. by constructor.
Qed.

Lemma sorted_longest ds recipient before d after :
  SliceStable longer ds = before ++ d :: after -> String.prefix (prefix d) recipient = true ->
  Forall (fun d => String.prefix (prefix d) recipient = false) before ->
  selected ds recipient (dest_provider d).
Proof.
  intros E Hp Hb. set (f := fun e : SmsDestination P X => bool_decide (prefix e = prefix d)).
  assert (Hst : List.filter f (SliceStable longer ds) = List.filter f ds).
  { apply SliceStable_stable. unfold f, longer. intros x y Hx%bool_decide_eq_true Hy%bool_decide_eq_true.
    rewrite Hx, Hy. apply Nat.ltb_irrefl. }
  assert (Hfb : List.filter f before = []).
  { apply filter_none. eapply Forall_impl; [exact Hb|]. unfold f. intros e He.
    apply bool_decide_eq_false. intros Ee. by rewrite Ee, Hp in He. }
  assert (Hfd : List.filter f ds = [] ++ d :: List.filter f after).
  { rewrite <- Hst, E, List.filter_app, Hfb. cbn. unfold f. by rewrite bool_decide_eq_true_2. }
  destruct (filter_first _ _ _ _ _ Hfd) as (l1 & l2 & El & H1 & _). exists l1, d, l2. split_and!; try done.
  - apply filter_none in H1. eapply Forall_impl; [exact H1|]. unfold f. cbn. intros e He. by apply bool_decide_eq_false in He.
  - rewrite <- (SliceStable_perm longer ds), E.
    assert (Hs : StronglySorted (fun a b => longer b a = false) (SliceStable longer ds)).
    { apply SliceStable_sorted; unfold longer; intros *; rewrite ?Nat.ltb_lt, ?Nat.ltb_ge; lia. }
    rewrite E in Hs. apply Forall_app. split; [eapply Forall_impl; [exact Hb|]; cbn; intros e He He'; congruence|].
    constructor; [done|]. clear -Hs. induction before as [|b before IH]; cbn in Hs; inversion Hs as [|? ? Hs' Hf]; subst.
    + eapply Forall_impl; [exact Hf|]. unfold longer. cbn. intros e He _. by apply Nat.ltb_ge in He.
    + by apply IH.
Qed.

(** The provider of a number.  A manager made from its configuration sends a message to the
    provider of the longest prefix of the phone number among the destinations - the first one in
    the configuration if several have this prefix - and to the default provider when no prefix
    matches. *)
Theorem provider_selection cfg providers dests (s : t P X) recipient :
  Init cfg providers dests = inl s ->
  exists ds, load_destinations providers dests = inl ds /\ map dest_config ds = dests /\
    Forall (fun d => providers !! PROVIDER (dest_config d) = Some (dest_provider d)) ds /\
    (selected ds recipient (provider_of s recipient) \/
     (providers !! DEFAULT_PROVIDER cfg = Some (provider_of s recipient) /\
      Forall (fun c => String.prefix (PREFIX c) recipient = false) dests)).
Proof.
  unfold Init. destruct (if ENCRYPT_MESSAGE_STORE cfg then _ else _) as [c|err]; [|done].
  destruct (providers !! DEFAULT_PROVIDER cfg) as [p|] eqn:Ep; [|done].
  destruct (load_destinations providers dests) as [ds|err] eqn:El; [|done]. intros [= <-].
  destruct (load_destinations_spec _ _ _ El) as [Hc Hf]. exists ds. do 3 (split; [done|]).
  unfold provider_of. cbn [defaultProvider destinations].
  destruct (find_provider_first p (SliceStable longer ds) recipient) as [[-> Hn]|(before & d & after & E & -> & Hp & Hb)].
  - right. split; [done|]. rewrite <- Hc. rewrite SliceStable_perm in Hn. by apply Forall_fmap.
  - left. by eapply sorted_longest.
Qed.
End Destinations.

(** ** What sending does *)

Section Sending.
Context {P X : Type}.
Context `{Lt : !Lens X (table SmsMessage), Lx : !Lens X AuthContext, Le : !Lens X Env, Ln : !Lens X Network}.
Context `{Dte : !Disjoint_lens X (table SmsMessage) Env, Dtn : !Disjoint_lens X (table SmsMessage) Network}.
Context `{Dne : !Disjoint_lens X Network Env, Dxe : !Disjoint_lens X AuthContext Env}.
Context `{Es : !Engine SmsMessage, Eso : !EngineOk SmsMessage, Ci : !CipherLib, Cio : !CipherLibOk, Sc : !StringCoding, Sco : !StringCodingOk}.
Implicit Types (o : Op P) (x : X).
Local Abbreviation messages x := (rows (view (A := table SmsMessage) x)).

(** Only the messages, the environment - not its clock - and the network change. *)
Definition sms_step x x' : Prop :=
  (exists t : table SmsMessage, x' = put t x) \/ (exists e : Env, same_clock (view x) e /\ x' = put e x) \/
  (exists n : Network, x' = put n x).
Definition sms_frame : X -> X -> Prop := rtc sms_step.

Lemma frame_table x y (t : table SmsMessage) : sms_frame x y -> sms_frame x (put t y).
Proof. intros H. eapply rtc_r; [exact H|]. left. by eexists. Qed.
Lemma frame_env x y (e : Env) : sms_frame x y -> same_clock (view y) e -> sms_frame x (put e y).
Proof. intros H He. eapply rtc_r; [exact H|]. right; left. by eexists. Qed.
Lemma frame_net x y (n : Network) : sms_frame x y -> sms_frame x (put n y).
Proof. intros H. eapply rtc_r; [exact H|]. right; right. by eexists. Qed.

(** What a provider promises: a message that is accepted has an answer; a failure is reported. *)
Definition ProviderOk (p : Provider P X) : Prop :=
  forall message recipient (Q : option ProviderResponse * option error -> Op P -> X -> Prop) o x,
    (forall resp err o' env net, same_clock (view x) env ->
       match err with None => is_Some resp /\ o' = o | Some _ => genericError o' <> None end ->
       Q (resp, err) o' (put (net : Network) (put (env : Env) x))) ->
    spec (p_Send p message recipient) Q o x.

(** The manager after [Init], with providers that keep their promises. *)
Definition manager_ok (s : t P X) : Prop :=
  (forall recipient, ProviderOk (provider_of s recipient)) /\
  (ENCRYPT_MESSAGE_STORE (config s) = true ->
     exists c, cipher s = Some c /\ AEAD.NewAEAD (SECRET (config s)) (SALT (config s)) DefaultIterations = inl c).

Lemma Init_manager_ok cfg providers dests (s : t P X) :
  Init cfg providers dests = inl s -> map_Forall (fun _ p => ProviderOk p) providers -> manager_ok s.
Proof.
  intros Hi Hp. split.
  - intros recipient. destruct (provider_selection _ _ _ _ recipient Hi) as (ds & _ & _ & Hf & [Hs|[Hd _]]); [|by eapply Hp].
    destruct Hs as (before & d & after & -> & <- & _). apply Forall_app in Hf as [_ Hf]. inversion Hf; subst. by eapply Hp.
  - unfold Init in Hi. destruct (ENCRYPT_MESSAGE_STORE cfg) eqn:Ee.
    + destruct (decide _); [done|]. destruct (decide _); [done|]. destruct (AEAD.NewAEAD _ _ _) as [c|] eqn:Ec; [|done].
      destruct (providers !! _); [|done]. destruct (load_destinations _ _); [|done]. injection Hi as <-. by exists c.
    + destruct (providers !! _); [|done]. destruct (load_destinations _ _); [|done]. injection Hi as <-. cbn. by rewrite Ee.
Qed.

(** The text of a row stands for the message: it is the message, or decrypts to it. *)
Definition stands_for (s : t P X) (message text : string) : Prop :=
  if ENCRYPT_MESSAGE_STORE (config s) then
    exists c ciphertext, cipher s = Some c /\ Decode text = inl ciphertext /\ AEAD.Decrypt ciphertext [] c = inl message
  else text = message.

Lemma spec_stored_message s message (Q : string + error -> Op P -> X -> Prop) o x :
  manager_ok s ->
  (forall text env, same_clock (view x) env -> stands_for s message text -> Q (inl text) o (put (env : Env) x)) ->
  (forall err env, same_clock (view x) env -> Q (inr err) o (put (env : Env) x)) ->
  spec (stored_message s message) Q o x.
Proof.
  intros [_ Hc] HQ He. unfold stored_message, stands_for in *. destruct (ENCRYPT_MESSAGE_STORE (config s)).
  - destruct (Hc eq_refl) as (c & Hs & Hk). rewrite Hs. spec_go. apply spec_on. eapply AEAD.wp_Encrypt; [exact Hk| |].
    + intros ct env _ Hd Hclock. spec_go. apply HQ; [done|]. exists c, ct. by rewrite decode_encode.
    + intros err env Hclock. spec_go. by apply He.
  - spec_go. specialize (HQ message (view x) (same_clock_refl _) eq_refl). by rewrite put_view in HQ.
Qed.

(** The row of a message: whom it is for, who asked, and what it says. *)
Definition describes (s : t P X) (message recipient : string) (u : AuthUser) (tenancy name : string) (row : SmsMessage) : Prop :=
  SmsMessage.Phone row = recipient /\ SmsMessage.Provider row = p_Name (provider_of s recipient) /\
  SmsMessage.Operation row = name /\ SmsMessage.Tenancy row = tenancy /\
  WithUserBase.UserId (SmsMessage.user row) = Auth.GetID u /\ stands_for s message (SmsMessage.Message row).

Definition outcome (err : option error) : string := match err with None => StatusSuccess | Some _ => StatusFail end.

(** The result of [Send]: nothing stored and an error, or one row more, with its outcome unless the
    last write failed. *)
Definition send_post (s : t P X) (message recipient : string) (u : AuthUser) (r : string * option error) o x o' x' : Prop :=
  sms_frame x x' /\
  ((r.1 = "" /\ r.2 <> None /\ genericError o' <> None /\ messages x' = messages x) \/
   exists row,
     messages x' = messages x ++ [row] /\ table_ok (messages x') /\ Db.GetID row = r.1 /\ r.1 <> "" /\
     describes s message recipient u (default "" (tenancy (view x))) (op_name o) row /\
     (SmsMessage.Status row = StatusSending \/ SmsMessage.Status row = outcome r.2) /\
     match r.2 with None => o' = o | Some _ => genericError o' <> None end).

Lemma updated_last (rs : list SmsMessage) (r : SmsMessage) f :
  table_ok (rs ++ [r]) -> updated_rows {["id" := VStr (Db.GetID r)]} f (rs ++ [r]) = rs ++ [assign_all f r].
Proof.
  intros Hok%unique_ids_NoDup; [|by apply list_elem_of_here]. unfold updated_rows. rewrite map_app. cbn [map].
  rewrite matches_id, bool_decide_eq_true_2 by done. f_equal.
  rewrite map_app in Hok. apply NoDup_app in Hok as (_ & Hn & _). induction rs as [|r' rs IH]; [done|]. cbn [map].
  rewrite matches_id, bool_decide_eq_false_2.
  - f_equal. apply IH. intros i Hi. apply Hn. by apply list_elem_of_further.
  - intros E. apply (Hn (Db.GetID r')); [apply list_elem_of_here|]. rewrite E. by apply list_elem_of_singleton.
Qed.

(** The fields of the last write leave the rest of a row. *)
Lemma assign_outcome (r : SmsMessage) now status raw foreign :
  let f := <["updated_at" := VTime now]> (<["status" := VStr status]> (<["raw_response" := VStr raw]> {["foreign_id" := VStr foreign]})) in
  Db.GetID (assign_all f r) = Db.GetID r /\ SmsMessage.Status (assign_all f r) = status /\
  SmsMessage.Phone (assign_all f r) = SmsMessage.Phone r /\ SmsMessage.Provider (assign_all f r) = SmsMessage.Provider r /\
  SmsMessage.Operation (assign_all f r) = SmsMessage.Operation r /\ SmsMessage.Tenancy (assign_all f r) = SmsMessage.Tenancy r /\
  WithUserBase.UserId (SmsMessage.user (assign_all f r)) = WithUserBase.UserId (SmsMessage.user r) /\
  SmsMessage.Message (assign_all f r) = SmsMessage.Message r.
Proof.
  intros f. assert (Ht : typed (R := SmsMessage) f = true) by (repeat apply typed_insert; done || by apply typed_singleton).
  assert (Hc : forall k v w, column k (assign_all f r) = Some v -> column k r = Some w -> v = match f !! k with Some u => u | None => w end).
  { intros k v w E F. rewrite column_assign_all, F in E by done. destruct (f !! k); congruence. }
  assert (Hstr : forall get : SmsMessage -> string, forall k, (forall r, column k r = Some (VStr (get r))) -> f !! k = None ->
    get (assign_all f r) = get r).
  { intros get k Hg Hk. specialize (Hc k _ _ (Hg _) (Hg _)). rewrite Hk in Hc. by injection Hc. }
  split; [apply (Hstr Db.GetID "id"); [done|reflexivity]|]. split.
  { assert (Hset : forall (get : SmsMessage -> string) k v, (forall r, column k r = Some (VStr (get r))) -> f !! k = Some (VStr v) ->
      get (assign_all f r) = v).
    { intros get k v Hg Hk. specialize (Hc k _ _ (Hg _) (Hg _)). rewrite Hk in Hc. by injection Hc. }
    apply (Hset SmsMessage.Status "status"); [done|reflexivity]. }
  split; [apply (Hstr SmsMessage.Phone "phone"); [done|reflexivity]|].
  split; [apply (Hstr SmsMessage.Provider "provider"); [done|reflexivity]|].
  split; [apply (Hstr SmsMessage.Operation "operation"); [done|reflexivity]|].
  split; [apply (Hstr SmsMessage.Tenancy "tenancy"); [done|reflexivity]|].
  split; [apply (Hstr (fun r => WithUserBase.UserId (SmsMessage.user r)) "user_id"); [done|reflexivity]|].
  apply (Hstr SmsMessage.Message "message"); [done|reflexivity].
Qed.

Lemma spec_deliver s c message recipient u tenancy name rs sms x0 (Q : (string * option error) * option error -> Op P -> X -> Prop) o x :
  manager_ok s -> sms_frame x0 x -> messages x = rs ++ [sms] -> table_ok (rs ++ [sms]) -> Db.GetID sms <> "" ->
  describes s message recipient u tenancy name sms -> SmsMessage.Status sms = StatusSending ->
  (forall r o' x' row, sms_frame x0 x' -> messages x' = rs ++ [row] -> table_ok (rs ++ [row]) -> Db.GetID row = r.1.1 -> r.1.1 <> "" ->
     describes s message recipient u tenancy name row ->
     (SmsMessage.Status row = StatusSending \/ SmsMessage.Status row = outcome r.1.2) ->
     match r.1.2 with None => o' = o | Some _ => genericError o' <> None end -> Q r o' x') ->
  spec (deliver c (provider_of s recipient) message recipient sms) Q o x.
Proof.
  intros [Hp _] Hf Hm Hok Hid Hd Hst HQ. unfold deliver. spec_go. apply Hp. intros resp err o' env net Hclock He.
  set (x1 := put net (put env x)).
  assert (Hf1 : sms_frame x0 x1) by (by apply frame_net, frame_env).
  assert (Hm1 : messages x1 = rs ++ [sms]) by (unfold x1; by rewrite !view_put_l).
  match goal with |- context [SmsMessage.set_Status StatusFail ?e] => set (sms1 := e) end.
  assert (Hid1 : Db.GetID sms1 = Db.GetID sms) by (unfold sms1; by destruct resp).
  assert (Hupd : forall sms2, Db.GetID sms2 = Db.GetID sms -> SmsMessage.Status sms2 = outcome err ->
    spec (DbCRUD.db_Update sms2
      (<["status" := VStr (SmsMessage.Status sms2)]> (<["raw_response" := VStr (SmsMessage.RawResponse sms2)]>
         {["foreign_id" := VStr (SmsMessage.ForeignId sms2)]})))
      (fun r o x => spec (let '(_, sms) := r in ret ((Db.GetID sms, err), err)) Q o x) o' x1).
  { intros sms2 Hid2 Hs2. apply spec_db_Update. intros e obj' env' rs' Hpost Hobj Hclock'.
    spec_go. rewrite Hm1 in Hpost.
    assert (Hobj' : Db.GetID obj' = Db.GetID sms) by (rewrite <- Hid2; by eapply updated_object_id).
    assert (Hrow : exists row, rs' = rs ++ [row] /\ table_ok (rs ++ [row]) /\ Db.GetID row = Db.GetID sms /\
      describes s message recipient u tenancy name row /\ (SmsMessage.Status row = StatusSending \/ SmsMessage.Status row = outcome err)).
    { destruct e as [e|]; cbn in Hpost; [exists sms; split_and!; auto|]. destruct Hpost as [[now Hrs] Hok'].
      rewrite Hs2, Hid2, updated_last in Hrs by done.
      destruct (assign_outcome sms now (outcome err) (SmsMessage.RawResponse sms2) (SmsMessage.ForeignId sms2))
        as (A1 & A2 & A3 & A4 & A5 & A6 & A7 & A8).
      eexists. split; [apply Hrs; repeat apply typed_insert; done || by apply typed_singleton|].
      split; [|split; [exact A1|split; [|right; exact A2]]].
      - rewrite <- Hrs by (repeat apply typed_insert; done || by apply typed_singleton). by apply Hok'.
      - unfold describes. rewrite A3, A4, A5, A6, A7, A8. exact Hd. }
    destruct Hrow as (row & -> & Hokr & Hidr & Hdr & Hsr).
    eapply (HQ _ _ _ row); cbn [fst snd]; try done.
    - by apply frame_table, frame_env.
    - by rewrite view_put.
    - congruence.
    - congruence.
    - destruct err; [done|]. by destruct He as [_ ->]. }
  destruct err as [err|]; spec_go; apply Hupd; done.
Qed.

Lemma spec_sms_Send s message recipient u (Q : string * option error -> Op P -> X -> Prop) o x :
  manager_ok s -> authUser (view x) = Some u -> table_ok (messages x) ->
  (forall r o' x', send_post s message recipient u r o x o' x' -> Q r o' x') ->
  spec (Send s message recipient) Q o x.
Proof.
  intros Hs Hu Hok HQ. unfold Send, AuthUser_, request. spec_go. apply spec_on, wp_gets. rewrite put_view, Hu.
  spec_go. apply spec_on, wp_InitObject_clock. intros b env Hid _ Hclock. spec_go.
  apply spec_on, wp_gets. rewrite put_view. spec_go.
  set (x1 := put env x). assert (Hf1 : sms_frame x x1) by (by apply frame_env; [apply rtc_refl|]).
  assert (Hm1 : messages x1 = messages x) by (unfold x1; by rewrite view_put_l).
  apply spec_stored_message; [done| |].
  - intros text env2 Hclock2 Hst. spec_go. set (x2 := put env2 x1). set (sms := SmsMessage.set_Message text _).
    assert (Hf2 : sms_frame x x2) by (by apply frame_env).
    assert (Hm2 : messages x2 = messages x) by (unfold x2; by rewrite view_put_l).
    apply spec_query. intros e rs' E. rewrite Hm2 in E. destruct e as [e|]; spec_go.
    + apply HQ. split; [by apply frame_table|]. left. cbn [fst snd]. rewrite with_code_genericError. split_and!; try done.
      rewrite view_put. cbn. by eapply create_err.
    + apply create_ok in E as [-> Hok']. specialize (Hok' Hok).
      eapply (spec_deliver _ _ _ _ u (default "" (tenancy (view x1))) (op_name o) (messages x) sms x); try done.
      * by apply frame_table.
      * by rewrite view_put.
      * intros r o' x' row Hf Hm Hokr Hidr Hne Hd Hstat He. apply HQ. split; [done|]. right. exists row.
        rewrite Hm. split_and!; try done. unfold x1 in Hd. by rewrite view_put_l in Hd.
  - intros err env2 Hclock2. spec_go. apply HQ. split; [by apply frame_env|]. left. cbn [fst snd].
    rewrite with_code_genericError. split_and!; try done. by rewrite view_put_l.
Qed.

(** A message is found by its identifier, and only then. *)
Lemma spec_FindSms smsId (Q : option SmsMessage * option error -> Op P -> X -> Prop) o x :
  (forall r x', sms_frame x x' -> messages x' = messages x ->
     match r with
     | (Some row, None) => row ∈ messages x /\ Db.GetID row = smsId
     | (None, Some _) => True
     | _ => False
     end -> Q r o x') ->
  spec (FindSms smsId) Q o x.
Proof.
  intros HQ. unfold FindSms. spec_go. apply spec_query. intros [row e] rs' [= E <-].
  assert (Hf : sms_frame x (put (queried (messages x) (view x)) x)) by (apply frame_table, rtc_refl).
  assert (Hm : messages (put (queried (messages x) (view x)) x) = messages x) by (by rewrite view_put).
  destruct e as [e|]; [|destruct row as [row|]]; spec_go; apply HQ; try done.
  apply find_some in E as [Hin Hid]. rewrite matches_id in Hid. by apply bool_decide_eq_true in Hid.
Qed.

(** Sending a message.  For an authenticated user either nothing is stored, an error is
    returned and reported; or there is exactly one message more, with a new identifier, which is
    returned: for this phone number, by the provider selected for it, for the user and the tenancy
    of the request, whose text is the message or decrypts to it.  Its status is the outcome of the
    provider, or still "sending" if the outcome could not be written.  No other message changes,
    and without an error there is no generic error either. *)
Theorem Send_effect s message recipient u (st : St P X) :
  manager_ok s -> authUser (view (st_ext st)) = Some u -> table_ok (messages (st_ext st)) ->
  let '(r, st') := Send s message recipient st in
  send_post s message recipient u r (st_op st) (st_ext st) (st_op st') (st_ext st').
Proof.
  destruct st as [t0 o x]. intros Hs Hu Hok.
  pose proof (spec_sms_Send s message recipient u (fun r o' x' => send_post s message recipient u r o x o' x') o x Hs Hu Hok ltac:(done) t0) as HS.
  by destruct (Send s message recipient _) as [r st'].
Qed.
End Sending.
End SmsManagerBase.
