(* ===== verification/SmsProviders.v ===== *)
(** * pkg/sms/providers: the providers of messages, and their factories

    The mock answers by its configuration; smsru and gatewayapi send requests over HTTP.  Each
    keeps the promises of [SmsManagerBase.ProviderOk]. *)
From S2P Require Import Prelude GoTime Utils Common Errors OpContext Db Crud Auth Crypt Session Http Sms.
Open Scope go_scope.

Section Reported.
Context {P X : Type}.
(** [onExit]: an error sets the generic error and is recorded. *)
Definition reported (name : string) (body : nat -> M (St P X) (option ProviderResponse * option error)) :
    M (St P X) (option ProviderResponse * option error) :=
  traced_exit name (fun c =>
    let* '(resp, err) := body c in
    match err with
    | Some _ => SetGenericErrorCode ErrorCodeSmsSendingFailed [] ;; ret ((resp, err), err)
    | None => ret ((resp, None), None)
    end).

Lemma spec_reported name body (Q : option ProviderResponse * option error -> Op P -> X -> Prop) o x :
  (forall c, spec (body c) (fun r o' x' => Q r (match r.2 with Some _ => with_code ErrorCodeSmsSendingFailed o' | None => o' end) x') o x) ->
  spec (reported name body) Q o x.
Proof.
  intros HQ. unfold reported. spec_go. eapply spec_mono; [|apply HQ]. intros [resp err] o' x' H. cbn in H.
  destruct err; by spec_go.
Qed.
End Reported.

(** ** The mock (sms_mock.go) *)

Module SmsMock.
Definition Protocol := "sms_mock".
Record t := { NAME : string; ALWAYS_FAIL : bool }.

Section Methods.
Context {P X : Type} `{Le : !Lens X Env}.
Definition Send (s : t) (message recipient : string) : M (St P X) (option ProviderResponse * option error) :=
  reported "SmsMock.Send" (fun c =>
    let* id := on GenerateID in
    if ALWAYS_FAIL s then ret (Some {| ProviderMessageID := id; RawContent := "failed" |}, Some (Native "expected failure"))
    else ret (Some {| ProviderMessageID := id; RawContent := "ok" |}, None)).
Definition provider (s : t) : Provider P X :=
  {| p_Name := OptionalString Protocol (NAME s); p_Send := Send s |}.
End Methods.
End SmsMock.

(** ** smsru (smsru.go) *)

Module Smsru.
Definition Protocol := "smsru".
Definition CodeOk : Z := 100.
Definition CodeInvalidRoute : Z := 150.
Definition CodeInvalidPhone : Z := 202.
Definition CodeForeignPhone : Z := 214.
Definition CodePhoneDayLimit : Z := 230.
Definition CodePhoneSameMinuteLimit : Z := 231.
Definition CodePhoneSameDayLimit : Z := 232.
Definition CodePhoneCodeSpamLimit : Z := 233.

Record t := { NAME : string; URL : string; API_ID : string; TEST : Z }.
Record request := { ApiId : string; To : string; Message : string; Json : Z; Test : Z }.
Record responseItem := { i_Status : string; i_StatusCode : Z; SmsId : string; ErrorMessage : string }.
(** The balance by the bits of the number. *)
Record response := { r_Status : string; r_StatusCode : Z; Balance : Z; Items : gmap string responseItem }.
Definition no_response : response := {| r_Status := ""; r_StatusCode := 0; Balance := 0; Items := ∅ |}.

Section Methods.
Context {P X : Type} `{Ln : !Lens X Network, Ht : !HttpTransport, Sr : !Schema request, Se : !Serializer response}.
Local Abbreviation act := (M (St P X)).

(** What the answer to a message says. *)
Definition verdict (recipient content : string) (resp : response) : ProviderResponse * option error :=
  let err := if decide (r_StatusCode resp <> CodeOk) then Some (Native "failed status code") else None in
  match Items resp !! recipient with
  | Some item =>
      ({| ProviderMessageID := SmsId item; RawContent := content |},
       if bool_decide (err = None) && bool_decide (i_StatusCode item <> CodeOk) then Some (Native "failed item status code") else err)
  | None =>
      ({| ProviderMessageID := ""; RawContent := content |},
       match err with None => Some (Native "phone not found in response") | Some _ => err end)
  end.

Definition message_request (s : t) (message recipient : string) : request :=
  {| ApiId := API_ID s; To := recipient; Message := message; Json := 1; Test := TEST s |}.

Definition Send (s : t) (message recipient : string) : act (option ProviderResponse * option error) :=
  reported "Smsru.Send" (fun c =>
    let* req := HttpRequest.NewGet (URL s +:+ "/send") (Some (message_request s message recipient)) in
    match req with
    | inr err => ret (None, Some err)
    | inl req =>
        (* both responses are one object *)
        let* '(err, req, resp) := HttpRequest.Send req (Some ParseMessage) (Some ParseMessage) [] no_response in
        match err with
        | Some _ => ret (None, err)
        | None =>
            let '(result, err) := verdict recipient (HttpRequest.ResponseContent req) resp in
            ret (Some result, err)
        end
    end).
Definition provider (s : t) : Provider P X :=
  {| p_Name := OptionalString Protocol (NAME s); p_Send := Send s |}.
End Methods.
End Smsru.

(** ** gatewayapi (gatewayapi.go) *)

Module SmsGatewayapi.
Definition Protocol := "gatewayapi".
Record Recipient := { Msisdn : string }.
Record Message := { m_Message : string; Recipients : list Recipient; Usereref : string; m_Sender : string }.
Record MessageWithSender := { ms_Message : Message; ms_Sender : string }.
Record GoodResponse := { Ids : list Z }.
Definition no_response : GoodResponse := {| Ids := [] |}.
Record t := { NAME : string; URL : string; TOKEN : string; SENDER : string }.
Definition sendUrl (s : t) : string := URL s +:+ "/rest/mtsms?token=" +:+ TOKEN s.

Section Methods.
Context {P X : Type} `{Ln : !Lens X Network, Ht : !HttpTransport, Sm : !Serializer Message, Sw : !Serializer MessageWithSender}.
Context `{Se : !Serializer GoodResponse, Cm : !ContentMime}.
Local Abbreviation act := (M (St P X)).

Definition message_of (message recipient : string) (smsID : list string) : Message :=
  {| m_Message := message; Recipients := [{| Msisdn := recipient |}]; Usereref := match smsID with [] => "" | id :: _ => id end;
     m_Sender := "" |}.

Definition Send (s : t) (message recipient : string) (smsID : list string) : act (option ProviderResponse * option error) :=
  reported "SmsGatewayapi.Send" (fun c =>
    let msg := message_of message recipient smsID in
    let* request := (if decide (SENDER s <> "") then HttpRequest.NewPost (sendUrl s) {| ms_Message := msg; ms_Sender := SENDER s |}
                     else HttpRequest.NewPost (sendUrl s) msg) in
    match request with
    | inr err => ret (None, Some err)
    | inl request =>
        let* '(err, request, response) := HttpRequest.Send request (Some ParseMessage) None [] no_response in
        match err with
        | Some _ => ret (None, err)
        | None =>
            ret (Some {| ProviderMessageID := match Ids response with [] => "" | id :: _ => fmt_d id end;
                         RawContent := HttpRequest.ResponseContent request |}, None)
        end
    end).
Definition provider (s : t) : Provider P X :=
  {| p_Name := OptionalString Protocol (NAME s); p_Send message recipient := Send s message recipient [] |}.
End Methods.
End SmsGatewayapi.

(** ** Factories (sms_provider_factory.go) *)

(** The provider a protocol names, before its configuration. *)
Inductive new_provider := NewGatewayapi | NewSmsru | NewMock.
Definition DefaultFactory_Create (protocol : string) : new_provider + error :=
  if decide (protocol = SmsGatewayapi.Protocol) then inl NewGatewayapi
  else if decide (protocol = Smsru.Protocol) then inl NewSmsru
  else inr (Native "unknown SMS provider").
Definition MockFactory_Create (protocol : string) : new_provider + error :=
  if decide (protocol = SmsMock.Protocol) then inl NewMock else inr (Native "unknown SMS provider").

(** ** What they do *)

Section Facts.
Context {P X : Type} `{Le : !Lens X Env, Ln : !Lens X Network, Ht : !HttpTransport}.
Context `{Sr : !Schema Smsru.request, Se : !Serializer Smsru.response}.
Context `{Sm : !Serializer SmsGatewayapi.Message, Sw : !Serializer SmsGatewayapi.MessageWithSender}.
Context `{Sg : !Serializer SmsGatewayapi.GoodResponse, Cm : !ContentMime}.
Implicit Types (o : Op P) (x : X).
Local Abbreviation requests x := (sent (view (A := Network) x)).

Lemma mock_ok s : SmsManagerBase.ProviderOk (P := P) (X := X) (SmsMock.provider s).
Proof.
  intros message recipient Q o x HQ. cbn. apply spec_reported. intros c. spec_go.
  apply spec_on, wp_GenerateID_clock. intros id env Hclock.
  assert (HQ' : forall r o', match r.2 with None => is_Some r.1 /\ o' = o | Some _ => genericError o' <> None end -> Q r o' (put env x)).
  { intros [resp err] o' Hr. specialize (HQ resp err o' env (view (put env x)) Hclock Hr). by rewrite put_view in HQ. }
  destruct (SmsMock.ALWAYS_FAIL s); spec_go; apply HQ'; cbn; [by rewrite with_code_genericError|done].
Qed.

(** The answer of a server to a message: accepted with the identifier of the message. *)
Definition smsru_accepted (s : Smsru.t) (message recipient : string) (n : NativeRequest) (before : list NativeRequest)
    (result : ProviderResponse) : Prop :=
  exists query resp v item,
    HttpRequest.UrlEncode (Some (Smsru.message_request s message recipient)) = inl query /\
    n = {| rq_Method := MethodGet; rq_Url := Smsru.URL s +:+ "/send"; rq_RawQuery := Some query; rq_Header := ∅; rq_Body := "" |} /\
    Do before n = inl resp /\ ParseMessage (Body resp) Smsru.no_response = (v, None) /\ Smsru.r_StatusCode v = Smsru.CodeOk /\
    Smsru.Items v !! recipient = Some item /\ Smsru.i_StatusCode item = Smsru.CodeOk /\
    result = {| ProviderMessageID := Smsru.SmsId item; RawContent := Body resp |}.

Lemma verdict_accepts recipient content resp result err :
  Smsru.verdict recipient content resp = (result, err) ->
  (err = None <-> Smsru.r_StatusCode resp = Smsru.CodeOk /\ exists item, Smsru.Items resp !! recipient = Some item /\
     Smsru.i_StatusCode item = Smsru.CodeOk /\ result = {| ProviderMessageID := Smsru.SmsId item; RawContent := content |}).
Proof.
  unfold Smsru.verdict. destruct (decide (Smsru.r_StatusCode resp <> Smsru.CodeOk)) as [Hc|Hc];
    destruct (Smsru.Items resp !! recipient) as [item|]; intros [= <- <-].
  - cbn. split; [done|]. by intros [? _].
  - split; [done|]. by intros [? _].
  - apply dec_stable in Hc. case_bool_decide as Hi; cbn.
    + split; [done|]. intros (_ & item' & [= <-] & Hi' & _). done.
    + split; [|done]. intros _. split; [done|]. by exists item.
  - split; [done|]. by intros (_ & ? & ? & _).
Qed.

Lemma read_both {T} (parse : string -> T -> T * option error) resp obj :
  HttpRequest.read_response (Some parse) (Some parse) false resp obj = parse (Body resp) obj.
Proof. unfold HttpRequest.read_response, HttpRequest.read_into. destruct (_ <? _)%Z; [|done]. cbn. by destruct (parse _ _). Qed.

Lemma spec_Smsru s message recipient (Q : option ProviderResponse * option error -> Op P -> X -> Prop) o x :
  (forall resp err o', genericError o' <> None -> Q (resp, Some err) o' x) ->
  (forall resp err o' n, genericError o' <> None -> Q (resp, Some err) o' (HttpRequest.after_sending n x)) ->
  (forall result n, smsru_accepted s message recipient n (requests x) result -> Q (Some result, None) o (HttpRequest.after_sending n x)) ->
  spec (Smsru.Send s message recipient) Q o x.
Proof.
  intros He Hs HQ. apply spec_reported. intros c. spec_go. apply HttpRequest.spec_NewGet.
  - intros err. spec_go. apply He. by rewrite with_code_genericError.
  - intros query Hq _. spec_go. apply HttpRequest.spec_Send.
    + intros err _. spec_go. apply Hs. by rewrite with_code_genericError.
    + cbn [HttpRequest.Native_ HttpRequest.of_native]. intros resp Hd. cbv zeta. cbn [OptionalArg]. rewrite read_both.
      destruct (ParseMessage (Body resp) Smsru.no_response) as [v [err|]] eqn:Ep; cbn; spec_go.
      * apply Hs. by rewrite with_code_genericError.
      * destruct (Smsru.verdict recipient (Body resp) v) as [result err] eqn:Ev. spec_go.
        pose proof (verdict_accepts _ _ _ _ _ Ev) as Hv. destruct err as [err|]; [apply Hs; by rewrite with_code_genericError|].
        destruct (proj1 Hv eq_refl) as (Hcode & item & Hi & Hic & Hres). apply HQ. exists query, resp, v, item. by split_and!.
Qed.

Lemma smsru_ok s : SmsManagerBase.ProviderOk (P := P) (X := X) (Smsru.provider s).
Proof.
  intros message recipient Q o x HQ. cbn.
  assert (HQ' : forall r o' net, match r.2 with None => is_Some r.1 /\ o' = o | Some _ => genericError o' <> None end -> Q r o' (put (net : Network) x)).
  { intros [resp err] o' net Hr. specialize (HQ resp err o' (view x) net (same_clock_refl _) Hr). by rewrite put_view in HQ. }
  apply spec_Smsru.
  - intros resp err o' Hg. specialize (HQ' (resp, Some err) o' (view x) Hg). by rewrite put_view in HQ'.
  - intros resp err o' n Hg. by apply HQ'.
  - intros result n _. apply HQ'. by split.
Qed.

(** A message is accepted by smsru only if the request that was sent is for this phone number
    and this text, and the server answered it with the code of success, for all and for this
    number; the identifier is the one of the answer.  Every other outcome is an error with a
    generic error, and at most one request is sent. *)
Theorem smsru_accepts s message recipient (st : St P X) :
  let '(r, st') := Smsru.Send s message recipient st in
  match r with
  | (_, Some _) => genericError (st_op st') <> None /\
      (st_ext st' = st_ext st \/ exists n, st_ext st' = HttpRequest.after_sending n (st_ext st))
  | (Some result, None) => st_op st' = st_op st /\ exists n, st_ext st' = HttpRequest.after_sending n (st_ext st) /\
      smsru_accepted s message recipient n (requests (st_ext st)) result
  | (None, None) => False
  end.
Proof.
  destruct st as [t o x].
  enough (HS : spec (Smsru.Send s message recipient) (fun r o' x' => match r with
    | (_, Some _) => genericError o' <> None /\ (x' = x \/ exists n, x' = HttpRequest.after_sending n x)
    | (Some result, None) => o' = o /\ exists n, x' = HttpRequest.after_sending n x /\ smsru_accepted s message recipient n (requests x) result
    | (None, None) => False
    end) o x) by (specialize (HS t); by destruct (Smsru.Send s message recipient _) as [r st']).
  apply spec_Smsru.
  - intros [resp|] err o' Hg; split; auto.
  - intros [resp|] err o' n Hg; split; eauto.
  - intros result n Hr. split; eauto.
Qed.

(** gatewayapi: the status of the response is not looked at. *)
Definition gatewayapi_posts (s : SmsGatewayapi.t) (message recipient : string) (n : NativeRequest) : Prop :=
  rq_Method n = MethodPost /\ rq_Url n = SmsGatewayapi.sendUrl s /\
  let msg := SmsGatewayapi.message_of message recipient [] in
  if decide (SmsGatewayapi.SENDER s <> "")
  then SerializeMessage {| SmsGatewayapi.ms_Message := msg; SmsGatewayapi.ms_Sender := SmsGatewayapi.SENDER s |} = inl (rq_Body n)
  else SerializeMessage msg = inl (rq_Body n).

Lemma spec_gatewayapi s message recipient (Q : option ProviderResponse * option error -> Op P -> X -> Prop) o x :
  (forall err o', genericError o' <> None -> Q (None, Some err) o' x) ->
  (forall n, gatewayapi_posts s message recipient n ->
     let res := Do (requests x) n in
     (forall err o', genericError o' <> None -> Q (None, Some err) o' (HttpRequest.after_sending n x)) /\
     (forall resp, res = inl resp -> (400 <= StatusCode resp)%Z ->
        Q (Some {| ProviderMessageID := ""; RawContent := Body resp |}, None) o (HttpRequest.after_sending n x)) /\
     (forall resp v, res = inl resp -> (StatusCode resp < 400)%Z -> ParseMessage (Body resp) SmsGatewayapi.no_response = (v, None) ->
        Q (Some {| ProviderMessageID := match SmsGatewayapi.Ids v with [] => "" | id :: _ => fmt_d id end;
                   RawContent := Body resp |}, None) o (HttpRequest.after_sending n x))) ->
  spec (SmsGatewayapi.Send s message recipient []) Q o x.
Proof.
  intros He HQ. apply spec_reported. intros c. spec_go.
  assert (Hsend : forall r, gatewayapi_posts s message recipient (HttpRequest.Native_ r) ->
    spec (let* '(err, request, response) := HttpRequest.Send r (Some ParseMessage) None [] SmsGatewayapi.no_response in
          match err with
          | Some _ => ret (None, err)
          | None => ret (Some {| ProviderMessageID := match SmsGatewayapi.Ids response with [] => "" | id :: _ => fmt_d id end;
                                 RawContent := HttpRequest.ResponseContent request |}, None)
          end) (fun r o' x' => Q r (match r.2 with Some _ => with_code ErrorCodeSmsSendingFailed o' | None => o' end) x') o x).
  { intros r Hr. destruct (HQ _ Hr) as (Herr & Hbad & Hgood). spec_go. apply HttpRequest.spec_Send.
    - intros err _. spec_go. apply Herr. by rewrite with_code_genericError.
    - intros resp Hd. unfold HttpRequest.read_response, HttpRequest.read_into, StatusBadRequest_.
      destruct (Z.ltb_spec (StatusCode resp) 400); cbn.
      + destruct (ParseMessage (Body resp) SmsGatewayapi.no_response) as [v [err|]] eqn:Ep; cbn; spec_go.
        * apply Herr. by rewrite with_code_genericError.
        * by eapply Hgood.
      + spec_go. by eapply Hbad. }
  unfold gatewayapi_posts in Hsend. destruct (decide (SmsGatewayapi.SENDER s <> "")); cbv zeta; spec_go; apply HttpRequest.spec_NewPost;
    (intros err; spec_go; apply He; by rewrite with_code_genericError) || (intros r body Hb _ Hm Hu Hbody; apply Hsend; split_and!; congruence).
Qed.

Lemma gatewayapi_ok s : SmsManagerBase.ProviderOk (P := P) (X := X) (SmsGatewayapi.provider s).
Proof.
  intros message recipient Q o x HQ. cbn.
  assert (HQ' : forall r o' net, match r.2 with None => is_Some r.1 /\ o' = o | Some _ => genericError o' <> None end -> Q r o' (put (net : Network) x)).
  { intros [resp err] o' net Hr. specialize (HQ resp err o' (view x) net (same_clock_refl _) Hr). by rewrite put_view in HQ. }
  apply spec_gatewayapi.
  - intros err o' Hg. specialize (HQ' (None, Some err) o' (view x) Hg). by rewrite put_view in HQ'.
  - intros n _. cbn zeta. split; [|split]; intros; apply HQ'; done || by split.
Qed.
End Facts.

(** ** A server of messages *)

Module SmsruDemo.
Import Smsru.
(** It answers with the code and the identifier of the request, or with another code when the
    message is empty. *)
#[export] Instance transport : HttpTransport := {|
  NewRequest_err _ _ := None;
  Do before n := inl {| StatusCode := 200; rp_Header := ∅; Body := default "" (rq_RawQuery n) |}
|}.
#[export] Instance request_schema : Schema request := {|
  schema_Encode r := inl (<["to" := [To r]]> {["msg" := [Message r]]}); schema_Decode _ r := (r, None)
|}.
#[export] Instance response_format : Serializer response := {|
  SerializeMessage r := inl (r_Status r);
  ParseMessage b _ :=
    ({| r_Status := "OK"; r_StatusCode := if String.prefix "msg=&" b then 201 else CodeOk; Balance := 0;
        Items := {["100" := {| i_Status := "OK"; i_StatusCode := CodeOk; SmsId := b; ErrorMessage := "" |}]} |}, None);
  lossless _ := False
|}.
Definition provider : t := {| NAME := ""; URL := "https://sms.ru/sms"; API_ID := "key"; TEST := 0 |}.
Definition start : St unit Network := Build_St trace0 op_demo {| sent := [] |}.
End SmsruDemo.

Section Witnesses.
Import SmsruDemo.
Lemma smsru_accepts_witness :
  let r := Smsru.Send (P := unit) SmsruDemo.provider "hello" "100" SmsruDemo.start in
  exists result, r.1 = (Some result, None) /\ ProviderMessageID result = "msg=hello&to=100" /\
    exists n, sent (st_ext r.2) = [n] /\ smsru_accepted SmsruDemo.provider "hello" "100" n [] result.
Proof.
  cbv zeta. pose proof (smsru_accepts SmsruDemo.provider "hello" "100" SmsruDemo.start) as H.
  assert (E : (Smsru.Send (P := unit) SmsruDemo.provider "hello" "100" SmsruDemo.start).1 =
    (Some {| ProviderMessageID := "msg=hello&to=100"; RawContent := "msg=hello&to=100" |}, None)) by (vm_compute; reflexivity).
  destruct (Smsru.Send SmsruDemo.provider "hello" "100" SmsruDemo.start) as [r st']. cbn [fst snd] in *. subst r.
  destruct H as [_ (n & Hn & Ha)]. eexists. split; [reflexivity|]. split; [reflexivity|]. exists n. split; [|exact Ha].
  rewrite Hn. reflexivity.
Defined.

(** An empty message is refused. *)
Example smsru_refuses :
  (Smsru.Send (P := unit) SmsruDemo.provider "" "100" SmsruDemo.start).1.2 = Some (Native "failed status code").
Proof. vm_compute. reflexivity. Qed.
End Witnesses.
