(* ===== verification/Users.v ===== *)
(** * pkg/user and the users of auth_login_phash: users and their controller

    A user is a row with a unique login; the password is kept as a salted hash.  The fields
    setters of [Add] are actions on the user that return the fields to check for duplicates. *)
From Stdlib Require Import Ascii.
From S2P Require Import Prelude GoTime Utils Common Errors OpContext Db Crud Auth Crypt Session.
Open Scope go_scope.

(** ** Password hashes (auth_login_phash.go) *)

Definition Phash_ `{!Digest, !StringCoding} (password salt : string) : string :=
  (Hash.CalcStrStr [salt; password] Hash.New).1.

(** ** Data (user.go, user_oplog.go) *)

Record UserBaseDB := {
  u_base : ObjectBase.t;
  PHONE : string;
  EMAIL : string;
  BLOCKED : bool;
  LOGIN : string;
  PASSWORD_HASH : string;
  PASSWORD_SALT : string
}.

(** The payload of operation logs. *)
Record OpLogUser := { ol_Login : string; ol_UserId : string }.

Definition set_u_base (v : ObjectBase.t) (u : UserBaseDB) : UserBaseDB :=
  {| u_base := v; PHONE := PHONE u; EMAIL := EMAIL u; BLOCKED := BLOCKED u; LOGIN := LOGIN u;
     PASSWORD_HASH := PASSWORD_HASH u; PASSWORD_SALT := PASSWORD_SALT u |}.
Definition SetPhone_ (v : string) (u : UserBaseDB) : UserBaseDB :=
  {| u_base := u_base u; PHONE := v; EMAIL := EMAIL u; BLOCKED := BLOCKED u; LOGIN := LOGIN u;
     PASSWORD_HASH := PASSWORD_HASH u; PASSWORD_SALT := PASSWORD_SALT u |}.
Definition SetEmail_ (v : string) (u : UserBaseDB) : UserBaseDB :=
  {| u_base := u_base u; PHONE := PHONE u; EMAIL := v; BLOCKED := BLOCKED u; LOGIN := LOGIN u;
     PASSWORD_HASH := PASSWORD_HASH u; PASSWORD_SALT := PASSWORD_SALT u |}.
Definition SetBlocked_ (v : bool) (u : UserBaseDB) : UserBaseDB :=
  {| u_base := u_base u; PHONE := PHONE u; EMAIL := EMAIL u; BLOCKED := v; LOGIN := LOGIN u;
     PASSWORD_HASH := PASSWORD_HASH u; PASSWORD_SALT := PASSWORD_SALT u |}.
Definition SetLogin_ (v : string) (u : UserBaseDB) : UserBaseDB :=
  {| u_base := u_base u; PHONE := PHONE u; EMAIL := EMAIL u; BLOCKED := BLOCKED u; LOGIN := v;
     PASSWORD_HASH := PASSWORD_HASH u; PASSWORD_SALT := PASSWORD_SALT u |}.
Definition set_hash (v : string) (u : UserBaseDB) : UserBaseDB :=
  {| u_base := u_base u; PHONE := PHONE u; EMAIL := EMAIL u; BLOCKED := BLOCKED u; LOGIN := LOGIN u;
     PASSWORD_HASH := v; PASSWORD_SALT := PASSWORD_SALT u |}.
Definition set_salt (v : string) (u : UserBaseDB) : UserBaseDB :=
  {| u_base := u_base u; PHONE := PHONE u; EMAIL := EMAIL u; BLOCKED := BLOCKED u; LOGIN := LOGIN u;
     PASSWORD_HASH := PASSWORD_HASH u; PASSWORD_SALT := v |}.

Definition MakeUser : UserBaseDB :=
  {| u_base := ObjectBase.zero; PHONE := ""; EMAIL := ""; BLOCKED := false; LOGIN := "";
     PASSWORD_HASH := ""; PASSWORD_SALT := "" |}.

Definition users_columns : list (string * Col UserBaseDB) :=
  Eval cbn in object_columns u_base set_u_base ++
  [("phone", str_col PHONE SetPhone_); ("email", str_col EMAIL SetEmail_); ("blocked", bool_col BLOCKED SetBlocked_);
   ("login", str_col LOGIN SetLogin_); ("password_hash", str_col PASSWORD_HASH set_hash);
   ("password_salt", str_col PASSWORD_SALT set_salt)].

#[export] Instance user_entity : Entity UserBaseDB := {|
  obj_base := u_base; set_base := set_u_base; columns := users_columns; unique_indexes := [["id"]; ["login"]]
|}.
#[export] Instance user_entity_ok : EntityOk UserBaseDB.
Proof. split; try done. solve_columns. Qed.

(** A user as an [auth.User]: it has a phone and a password, and no HMAC secret. *)
Definition auth_user (u : UserBaseDB) : AuthUser :=
  {| Auth.GetID := Db.GetID u; Display := LOGIN u; Login := LOGIN u; IsBlocked := BLOCKED u;
     Phone := Some (PHONE u); Phash := Some (PASSWORD_HASH u, PASSWORD_SALT u); HmacSecret := None; Pubkey := None |}.

Section Passwords.
Context `{!Digest, !StringCoding, !Uniuri}.
Definition SetPassword_ (password : string) (u : UserBaseDB) : M Env UserBaseDB :=
  let* salt := GenerateString [] in
  ret (set_hash (Phash_ password salt) (set_salt salt u)).

Lemma wp_SetPassword password u (Q : UserBaseDB -> Env -> Prop) e :
  (forall salt e', Q (set_hash (Phash_ password salt) (set_salt salt u)) e') -> wp (SetPassword_ password u) Q e.
Proof. intros HQ. apply wp_bind. unfold wp, GenerateString. cbn [fst snd]. apply HQ. Qed.
End Passwords.
(** [CheckPasswordHash] of a user with the hash [PASSWORD_HASH]. *)
Definition CheckPasswordHash (PASSWORD_HASH phash : string) : bool := HashEqual PASSWORD_HASH phash.

(** ** Validators (users.go) *)

(** A [ValidationError] by its text. *)
Definition quote (s : string) : string := String "034"%char (s +:+ String "034"%char "").
Definition ValidationError (field msg : string) : error :=
  Native ("validation failed on field " +:+ quote field +:+ ": " +:+ msg).

(** [auth_session.UserValidators] *)
Record UserValidators := {
  ValidateLogin : string -> option error;
  ValidatePassword : string -> option error
}.

(** [validate_value] is [ValidateValue] of the third-party validator with the configured rules. *)
Definition UsersValidator (validate_value : string -> string -> option error) (rules : string) : UserValidators :=
  {| ValidateLogin login :=
       match validate_value login rules with
       | Some _ => Some (ValidationError "login" "Invalid format of login")
       | None => None
       end;
     ValidatePassword password :=
       if (String.length password <? 8)%nat then
         Some (ValidationError "password" "Password must be at least 8 characters")
       else None |}.

(** ** The controller (users.go) *)

Definition ErrorCodeDuplicateLogin := "duplicate_login".
Definition ErrorCodeDuplicateEmail := "duplicate_email".
Definition ErrorCodeDuplicatePhone := "duplicate_phone".

Record CheckDuplicateField := { cd_Name : string; cd_Value : value; cd_ErrorCode : string }.

(** A type of users, as the controller is generic in it: a zero value and the login. *)
Class UserRow (R : Type) `{Entity R} := {
  NewUser : R;
  RowLogin : R -> string
}.
Class UserRowOk (R : Type) `{Entity R, !UserRow R} := {
  login_column : forall r, column "login" r = Some (VStr (RowLogin r));
  login_assignable : forall v, assignable "login" (VStr v) = true
}.

#[export] Instance user_row : UserRow UserBaseDB := {| NewUser := MakeUser; RowLogin := LOGIN |}.
#[export] Instance user_row_ok : UserRowOk UserBaseDB.
Proof. by split. Qed.

Module UserController.
(** What is common to all types of users. *)
Section Rows.
Context {P R X : Type} `{!Entity R, !UserRow R, !Engine R, !Lens X (table R), !Lens X Env}.

(** [if err != nil { c.SetMessage(msg); return nil, err }] *)
Definition failed {A} (r : A) (err : option error) : M (St P X) (A * option error * option error) := ret (r, err, err).

(** [Find] and [FindByLogin]: the row with the value of a field, which must exist. *)
Definition find_by (name field v missing : string) : M (St P X) (option R * option error) :=
  traced_exit name (fun c =>
    let* '(found, err, user) := DbCRUD.Read {[field := VStr v]} NewUser in
    match err with
    | Some _ => SetMessage c "failed to find user in database" ;; failed None err
    | None =>
        if negb found then
          SetGenericErrorCode ErrorCodeNotFound [] ;; failed None (Some (Native missing))
        else failed (Some user) None
    end).
Definition Find (id : string) := find_by "Users.Find" "id" id "user with such ID does not exist".
Definition FindByLogin (login : string) := find_by "Users.FindByLogin" "login" login "user with such login does not exist".

Definition FindUser (id : string) (idIsLogin : list bool) : M (St P X) (option R * option error) :=
  if OptionalArg false idIsLogin then FindByLogin id else Find id.

End Rows.

Section Changes.
Context {R X : Type} `{!Entity R, !UserRow R, !Engine R, !Lens X (table R), !Lens X Env}.
Local Abbreviation act := (M (St OpLogUser X)).

Definition OpLog (op userId login : string) : act unit :=
  AddOplog (new_oplog op {| ol_Login := login; ol_UserId := userId |}).

(** The changes of a user: find it, update the columns [fields] computes, log [op]. *)
Definition change (c : nat) (id : string) (idIsLogin : list bool) (op : string)
    (fields : R -> act (R * Fields)) : act (option error * option error) :=
  let* '(user, err) := FindUser id idIsLogin in
  match err, user with
  | Some _, _ | _, None => ret (err, err)
  | None, Some user =>
      let* '(user, f) := fields user in
      let* '(err, user) := DbCRUD.Update user f in
      match err with
      | Some _ => ret (err, err)
      | None => OpLog op (Db.GetID user) (RowLogin user) ;; ret (None, None)
      end
  end.

Definition SetPhone (id phone : string) (idIsLogin : list bool) : act (option error) :=
  traced_exit "Users.SetPhone" (fun c =>
    change c id idIsLogin "set_phone" (fun user => ret (user, {["phone" := VStr phone]}))).
Definition SetEmail (id email : string) (idIsLogin : list bool) : act (option error) :=
  traced_exit "Users.SetEmail" (fun c =>
    change c id idIsLogin "set_email" (fun user => ret (user, {["email" := VStr email]}))).
Definition SetBlocked (id : string) (blocked : bool) (idIsLogin : list bool) : act (option error) :=
  traced_exit "Users.SetBlocked" (fun c =>
    change c id idIsLogin "set_blocked" (fun user => ret (user, {["blocked" := VBool blocked]}))).
End Changes.

Section Methods.
Context {X : Type}.
Context `{Lu : !Lens X (table UserBaseDB), Le : !Lens X Env}.
Context `{Eu : !Engine UserBaseDB, Di : !Digest, Sc : !StringCoding, Un : !Uniuri}.
Local Abbreviation act := (M (St OpLogUser X)).
Local Abbreviation setter := (UserBaseDB -> act (UserBaseDB * list CheckDuplicateField * option error)).

Definition FindUsers (filter : option Filter) : act (list UserBaseDB * Z * option error) := DbCRUD.List_ filter.

(** [SetUserFields] of [UserBaseFields], [Phone] and [Email]. *)
Definition dup_field (name v code : string) : list CheckDuplicateField :=
  if decide (v = "") then [] else [{| cd_Name := name; cd_Value := VStr v; cd_ErrorCode := code |}].
Definition SetUserFields (fields : UserBaseDB) : setter := fun user =>
  ret (SetBlocked_ (BLOCKED fields) (SetPhone_ (PHONE fields) (SetEmail_ (EMAIL fields) user)),
       dup_field "email" (EMAIL fields) ErrorCodeDuplicateEmail ++
       dup_field "phone" (PHONE fields) ErrorCodeDuplicatePhone, None).
Definition Phone (phone : string) : setter := fun user =>
  ret (SetPhone_ phone user, dup_field "phone" phone ErrorCodeDuplicatePhone, None).
Definition Email (email : string) : setter := fun user =>
  ret (SetEmail_ email user, dup_field "email" email ErrorCodeDuplicateEmail, None).

(** The search for one row with a value of a field. *)
Definition find_one (name : string) (v : value) : act (list UserBaseDB * Z * option error) :=
  FindUsers (Some (SetLimit 1 (Filter.AddField name v NewFilter))).

Fixpoint check_duplicates (c : nat) (l : list CheckDuplicateField) : act (option error) :=
  match l with
  | [] => ret None
  | checkDup :: rest =>
      let* '(users, _, err) := find_one (cd_Name checkDup) (cd_Value checkDup) in
      match err with
      | Some _ => SetMessage c "failed to check unique field" ;; ret err
      | None =>
          if (0 <? length users)%nat then
            SetGenericErrorCode (cd_ErrorCode checkDup) [] ;;
            ret (Some (Native ("duplicate " +:+ cd_Name checkDup)))
          else check_duplicates c rest
      end
  end.

Fixpoint set_fields (c : nat) (l : list setter) (user : UserBaseDB) : act (UserBaseDB * option error) :=
  match l with
  | [] => ret (user, None)
  | setter :: rest =>
      let* '(user, dups, err) := setter user in
      match err with
      | Some _ => SetMessage c "failed to set extra fields" ;; ret (user, err)
      | None =>
          let* err := check_duplicates c dups in
          match err with
          | Some _ => ret (user, err)
          | None => set_fields c rest user
          end
      end
  end.

Definition Add (validators : option UserValidators) (login password : string) (extraFieldsSetters : list setter) :
  act (option UserBaseDB * option error) :=
  traced_exit "Users.Add" (fun c =>
    match (v ← validators; ValidateLogin v login) with
    | Some err => SetMessage c "failed to validate login" ;; failed None (Some err)
    | None =>
    match (v ← validators; ValidatePassword v password) with
    | Some err => SetMessage c "failed to validate password" ;; failed None (Some err)
    | None =>
      let* '(users, _, err) := find_one "login" (VStr login) in
      match err with
      | Some _ => SetMessage c "failed to check login duplicates" ;; failed None err
      | None =>
          if (0 <? length users)%nat then
            SetGenericErrorCode ErrorCodeDuplicateLogin [] ;;
            failed None (Some (Native "duplicate login"))
          else
            let* user := on (InitObject MakeUser) in
            let* user := on (SetPassword_ password (SetLogin_ login user)) in
            let* '(user, err) := set_fields c extraFieldsSetters user in
            match err with
            | Some _ => failed None err
            | None =>
                let* err := DbCRUD.Create user in
                match err with
                | Some _ => SetMessage c "failed to create user" ;; failed None err
                | None => OpLog "add" (Db.GetID user) login ;; failed (Some user) None
                end
            end
      end
    end
    end).

Definition SetPassword (validators : option UserValidators) (id password : string) (idIsLogin : list bool) :
  act (option error) :=
  traced_exit "Users.SetPassword" (fun c =>
    match (v ← validators; ValidatePassword v password) with
    | Some err => SetMessage c "failed to validate password" ;; ret (Some err, Some err)
    | None =>
        change c id idIsLogin "set_password" (fun user =>
          let* user := on (SetPassword_ password user) in
          ret (user, <["password_hash" := VStr (PASSWORD_HASH user)]> {["password_salt" := VStr (PASSWORD_SALT user)]}))
    end).
End Methods.

(** The user of an authorization, in any operation. *)
Section FindAuthUser.
Context {P X : Type} `{Lu : !Lens X (table UserBaseDB), Le : !Lens X Env, Eu : !Engine UserBaseDB}.
Definition FindAuthUser (login : string) : M (St P X) (option AuthUser * option error) :=
  let* '(found, err, user) := DbCRUD.Read {["login" := VStr login]} MakeUser in
  match err with
  | Some _ => ret (None, err)
  | None => if (found : bool) then ret (Some (auth_user user), None) else ret (None, None)
  end.
End FindAuthUser.
End UserController.

(** ** What the operations do *)

(** The facts that all types of users share. *)
Section RowFacts.
Context {R X : Type}.
Context `{HE : Entity R, UR : !UserRow R, En : !Engine R, Eo : !EntityOk R, Uo : !UserRowOk R, Ok : !EngineOk R}.
Context `{Lu : !Lens X (table R), Le : !Lens X Env, Ld : !Disjoint_lens X (table R) Env}.
Import UserController.
Implicit Types (x : X).
Local Abbreviation users := (fun x => rows (view (S := X) (A := table R) x)).

(** The users and the logs are as they were. *)
Definition unchanged {P} (o : Op P) x (o' : Op P) x' : Prop := oplogs o' = oplogs o /\ users x' = users x.

Lemma unchanged_refl {P} (o : Op P) x : unchanged o x o x.
Proof. done. Qed.
Lemma unchanged_trans {P} (o1 : Op P) x1 o2 x2 o3 x3 : unchanged o1 x1 o2 x2 -> unchanged o2 x2 o3 x3 -> unchanged o1 x1 o3 x3.
Proof. intros [E1 E2] [E3 E4]. split; congruence. Qed.
Lemma unchanged_query {P} (o : Op P) x : unchanged o x o (put (queried (users x) (view x)) x).
Proof. split; [done|]. by rewrite view_put. Qed.
Lemma unchanged_env {P} (o : Op P) x env : unchanged o x o (put (env : Env) x).
Proof. split; [done|]. by rewrite view_put_l. Qed.
Lemma unchanged_code {P} (o : Op P) x code : unchanged o x (with_code code o) x.
Proof. split; [|done]. unfold with_code. by destruct (genericError o). Qed.
Hint Resolve unchanged_refl unchanged_query unchanged_env unchanged_code : go.

(** The user an operation is about: the one with the ID, or with the login. *)
Definition identified (id : string) (idIsLogin : list bool) (u : R) : Prop :=
  (if OptionalArg false idIsLogin then RowLogin u else Db.GetID u) = id.

(** The context and the data after a search: the context is as it was, but for the code of a
    missing row, and one query was made. *)
Lemma spec_find_by {P} name field v missing (Q : option R * option error -> Op P -> X -> Prop) o x :
  assignable (R := R) field (VStr v) = true ->
  let x' := put (queried (users x) (view x)) x in
  (forall e, Q (None, Some e) o x') ->
  (Forall (fun u : R => column field u <> Some (VStr v)) (users x) ->
     Q (None, Some (Native missing)) (with_code ErrorCodeNotFound o) x') ->
  (forall u, u ∈ users x -> column field u = Some (VStr v) -> Q (Some u, None) o x') ->
  spec (find_by name field v missing) Q o x.
Proof.
  intros Ha x' He Hm Hf. unfold find_by, failed. spec_go. apply spec_read_with. intros row e E.
  destruct e as [e|]; cbn; spec_go; [apply He|].
  destruct row as [u|]; cbn; spec_go.
  - destruct E as [Hin Hc]. rewrite matches_singleton in Hc. apply bool_decide_eq_true in Hc. by apply Hf.
  - apply Hm. eapply Forall_impl; [by apply E, typed_singleton|]. cbn beta. intros u Hu.
    rewrite matches_singleton in Hu. by apply bool_decide_eq_false in Hu.
Qed.

Lemma spec_FindUser {P} id idIsLogin (Q : option R * option error -> Op P -> X -> Prop) o x :
  (forall e o' x', unchanged o x o' x' -> Q (None, Some e) o' x') ->
  (forall u x', u ∈ users x -> identified id idIsLogin u -> unchanged o x o x' -> Q (Some u, None) o x') ->
  spec (FindUser id idIsLogin) Q o x.
Proof.
  intros He Hf.
  assert (Hby : forall name field missing, assignable (R := R) field (VStr id) = true ->
    (forall u : R, column field u = Some (VStr id) -> identified id idIsLogin u) ->
    spec (find_by name field id missing) Q o x).
  { intros name field missing Ha Hc. apply spec_find_by; [done| | |].
    - intros e. apply He. auto with go.
    - intros _. apply He. eapply unchanged_trans; [apply unchanged_query|auto with go].
    - intros u Hin Hu. apply Hf; auto with go. }
  unfold FindUser, FindByLogin, Find, identified in *. destruct (OptionalArg false idIsLogin); apply Hby.
  - apply login_assignable.
  - intros u. rewrite login_column. by intros [= ->].
  - apply id_assignable.
  - intros u. rewrite id_column. by intros [= ->].
Qed.

(** What a change of [f] to a user makes of the users. *)
Definition change_post (id : string) (idIsLogin : list bool) (op : string) (f : Fields) (e : option error) o x o' x' : Prop :=
  match e with
  | Some _ => unchanged o x o' x'
  | None =>
      exists u login, u ∈ users x /\ identified id idIsLogin u /\
        Forall2 (fun r r' => if decide (Db.GetID r = Db.GetID u) then changed_columns f r r' else r' = r)
          (users x) (users x') /\
        oplogs o' = oplogs o ++ [new_oplog op {| ol_Login := login; ol_UserId := Db.GetID u |}]
  end.

Lemma spec_change c id idIsLogin op (fields : R -> M (St OpLogUser X) (R * Fields)) (Q : option error * option error -> Op OpLogUser -> X -> Prop)
    (good : Fields -> Prop) o x :
  (forall user (K : R * Fields -> Op OpLogUser -> X -> Prop) o1 x1,
     (forall user' f env, good f -> typed (R := R) f = true -> f !! "id" = None -> Db.GetID user' = Db.GetID user ->
        K (user', f) o1 (put (env : Env) x1)) -> spec (fields user) K o1 x1) ->
  (forall e e' o' x', unchanged o x o' x' -> Q (Some e, e') o' x') ->
  (forall f e' o' x', good f -> change_post id idIsLogin op f None o x o' x' -> Q (None, e') o' x') ->
  spec (change c id idIsLogin op fields) Q o x.
Proof.
  intros Hf He HQ. unfold change, OpLog. spec_go. apply spec_FindUser; [intros; spec_go; by apply He|].
  intros u x1 Hin Hident [Ho1 Hx1]. spec_go. apply Hf. intros user f env Hgood Ht Hid Hu.
  spec_go. apply spec_DbUpdate. intros e obj' env' rs' Hpost Hobj _. specialize (Hobj Hid).
  rewrite view_put_l, Hx1 in Hpost. destruct e as [e|]; spec_go; cbn in Hpost.
  - apply He. split; [done|]. by rewrite view_put.
  - destruct Hpost as [[now Hrs] _]. apply (HQ f); [done|]. exists u, (RowLogin obj'). split_and!; [done|done| |].
    + rewrite view_put. cbn. rewrite Hrs by done. rewrite Hu. by apply updated_rows_changed.
    + rewrite Hobj, Hu. by cbn.
Qed.

(** A change to given values. *)
Lemma change_columns name op f id idIsLogin (s : St OpLogUser X) :
  typed (R := R) f = true -> f !! "id" = None ->
  let r := traced_exit name (fun c => change c id idIsLogin op (fun user : R => ret (user, f))) s in
  change_post id idIsLogin op f r.1 (st_op s) (st_ext s) (st_op r.2) (st_ext r.2).
Proof.
  intros Ht Hid. destruct s as [t o x].
  enough (HS : spec (traced_exit name (fun c => change c id idIsLogin op (fun user : R => ret (user, f))))
    (fun e o' x' => change_post id idIsLogin op f e o x o' x') o x) by exact (HS t).
  spec_go. apply (spec_change _ _ _ _ _ _ (eq f)).
  - intros user K o1 x1 HK. apply spec_ret. rewrite <- (put_view (A := Env) x1). by apply HK.
  - intros e e' o' x' Hu. done.
  - by intros f' e' o' x' <-.
Qed.
End RowFacts.
#[export] Hint Resolve unchanged_refl unchanged_query unchanged_env unchanged_code : go.

Section Facts.
Context {X : Type}.
Context `{Lu : !Lens X (table UserBaseDB), Le : !Lens X Env, Ld : !Disjoint_lens X (table UserBaseDB) Env}.
Context `{Eu : !Engine UserBaseDB, Eo : !EngineOk UserBaseDB, Di : !Digest, Sc : !StringCoding, Un : !Uniuri}.
Import UserController.
Implicit Types (o : Op OpLogUser) (x : X).
Local Abbreviation users := (fun x => rows (view (S := X) (A := table UserBaseDB) x)).
Local Abbreviation act := (M (St OpLogUser X)).

Lemma find_one_login login (Q : list UserBaseDB * Z * option error -> Op OpLogUser -> X -> Prop) o x :
  (forall rs k e x', unchanged o x o x' -> Q (rs, k, Some e) o x') ->
  (forall r rs k x', r ∈ users x -> LOGIN r = login -> unchanged o x o x' -> Q (r :: rs, k, None) o x') ->
  (forall k x', Forall (fun r => LOGIN r <> login) (users x) -> unchanged o x o x' -> Q ([], k, None) o x') ->
  spec (find_one "login" (VStr login)) Q o x.
Proof.
  intros He Hy Hn. apply spec_DbList_limit; [auto with go|lia|by apply typed_singleton| | |].
  - intros. apply He. auto with go.
  - intros r rs k Hin Hm. change (matches {["login" := VStr login]} r = true) in Hm.
    rewrite matches_singleton in Hm. apply bool_decide_eq_true in Hm.
    apply Hy; [done|by injection Hm|auto with go].
  - intros k Hall. apply Hn; [|auto with go]. eapply Forall_impl; [exact Hall|]. cbn beta. intros r Hm E.
    change (matches {["login" := VStr login]} r = false) in Hm.
    rewrite matches_singleton, bool_decide_eq_false in Hm. apply Hm. by subst login.
Qed.

Lemma spec_check_duplicates c l (Q : option error -> Op OpLogUser -> X -> Prop) o x :
  (forall e o' x', unchanged o x o' x' -> Q e o' x') -> spec (check_duplicates c l) Q o x.
Proof.
  revert o x. induction l as [|d l IH]; intros o x HQ; cbn [check_duplicates]; [apply spec_ret; auto with go|].
  apply spec_bind, spec_DbList. intros rs n e _. destruct e; spec_go; [apply HQ; auto with go|].
  destruct (0 <? length rs)%nat; spec_go.
  - apply HQ. eapply unchanged_trans; [apply unchanged_query|]. auto with go.
  - apply IH. intros e o' x' Hu. apply HQ. eapply unchanged_trans; [apply unchanged_query|done].
Qed.

(** A setter of extra fields: it leaves the data and the identity of the user alone. *)
Definition extra_fields (f : UserBaseDB -> act (UserBaseDB * list CheckDuplicateField * option error)) : Prop :=
  forall user (Q : UserBaseDB * list CheckDuplicateField * option error -> Op OpLogUser -> X -> Prop) o x,
    (forall user' dups, Db.GetID user' = Db.GetID user -> LOGIN user' = LOGIN user ->
       PASSWORD_HASH user' = PASSWORD_HASH user -> PASSWORD_SALT user' = PASSWORD_SALT user ->
       Q (user', dups, None) o x) ->
    spec (f user) Q o x.

Lemma extra_fields_of_code :
  (forall f, extra_fields (SetUserFields f)) /\ (forall p, extra_fields (Phone p)) /\ (forall e, extra_fields (Email e)).
Proof. repeat split; intros ? user Q o x HQ; apply spec_ret, HQ; done. Qed.

Lemma spec_set_fields c l user (Q : UserBaseDB * option error -> Op OpLogUser -> X -> Prop) o x :
  Forall extra_fields l ->
  (forall user' e o' x', unchanged o x o' x' -> Db.GetID user' = Db.GetID user -> LOGIN user' = LOGIN user ->
     PASSWORD_HASH user' = PASSWORD_HASH user -> PASSWORD_SALT user' = PASSWORD_SALT user -> Q (user', e) o' x') ->
  spec (set_fields c l user) Q o x.
Proof.
  intros Hl. revert user o x. induction Hl as [|f l Hf _ IH]; intros user o x HQ; cbn [set_fields];
    [apply spec_ret, HQ; auto with go|].
  apply spec_bind, Hf. intros user' dups Hid Hlog Hh Hs. apply spec_bind, spec_check_duplicates.
  intros e o' x' Hu. destruct e; spec_go; [by apply HQ|].
  apply IH. intros user2 e o2 x2 Hu2 ? ? ? ?. apply HQ; [by eapply unchanged_trans|congruence..].
Qed.

Definition validated (validators : option UserValidators) (login password : string) : Prop :=
  match validators with
  | Some v => ValidateLogin v login = None /\ ValidatePassword v password = None
  | None => True
  end.

(** What [Add] makes of the users: nothing when it fails; otherwise it adds one user, whose
    login no user had. *)
Definition add_post (validators : option UserValidators) (login password : string)
    (r : option UserBaseDB * option error) o x o' x' : Prop :=
  match r with
  | (Some u, None) =>
      validated validators login password /\ Forall (fun r => LOGIN r <> login) (users x) /\
      users x' = users x ++ [u] /\ LOGIN u = login /\ Db.GetID u <> "" /\
      CheckPasswordHash (PASSWORD_HASH u) (Phash_ password (PASSWORD_SALT u)) = true /\
      oplogs o' = oplogs o ++ [new_oplog "add" {| ol_Login := login; ol_UserId := Db.GetID u |}]
  | (None, Some _) => unchanged o x o' x'
  | _ => False
  end.

Lemma spec_Add validators login password setters (Q : option UserBaseDB * option error -> Op OpLogUser -> X -> Prop) o x :
  Forall extra_fields setters ->
  (forall r o' x', add_post validators login password r o x o' x' -> Q r o' x') ->
  spec (Add validators login password setters) Q o x.
Proof.
  intros Hl HQ. unfold Add, failed. spec_go.
  destruct (v ← validators; ValidateLogin v login) as [err|] eqn:El; spec_go; [by apply HQ|].
  destruct (v ← validators; ValidatePassword v password) as [err|] eqn:Ep; spec_go; [by apply HQ|].
  apply find_one_login; [intros; spec_go; by apply HQ| |].
  { intros r rs k x' _ _ Hu. cbn. spec_go. apply HQ. eapply unchanged_trans; [exact Hu|apply unchanged_code]. }
  intros k x1 Hfree Hu1. cbn. spec_go. apply spec_on, wp_InitObject. intros b e1 Hid _.
  spec_go. apply spec_on, wp_SetPassword. intros salt e2. rewrite put_put. spec_go. apply spec_set_fields; [done|].
  intros user err o2 x2 Hu2 Hid2 Hlog Hh Hs.
  assert (Hu : unchanged o x o2 x2).
  { eapply unchanged_trans; [exact Hu1|]. eapply unchanged_trans; [apply unchanged_env|exact Hu2]. }
  destruct err as [err|]; spec_go; [by apply HQ|]. apply spec_DbCreate. intros err rs' Hc.
  destruct err as [err|]; spec_go; cbn in Hc.
  - apply HQ. destruct Hu as [Ho Hx]. split; [done|]. by rewrite view_put, Hc.
  - destruct Hc as [-> _], Hu as [Ho Hx]. unfold OpLog. spec_go. apply HQ. cbn -[CheckPasswordHash]. split_and!.
    + destruct validators as [v|]; [split; assumption|done].
    + done.
    + by rewrite view_put, Hx.
    + done.
    + by rewrite Hid2.
    + unfold CheckPasswordHash, HashEqual, hmac_Equal. apply bool_decide_eq_true. rewrite Hh, Hs. done.
    + rewrite Ho. done.
Qed.

(** Changes of users.  Setting the phone, the e-mail, the blocked flag or the password of a
    user, found by ID or by login, changes these columns of this user and nothing else, and logs
    one operation; a failed call changes no user and logs nothing.  A new password is checked
    by its length when there are validators, and stored as the hash of itself with a salt. *)
Theorem user_changes id idIsLogin (s : St OpLogUser X) :
  let post op f r := change_post id idIsLogin op f r.1 (st_op s) (st_ext s) (st_op r.2) (st_ext r.2) in
  (forall phone, post "set_phone" {["phone" := VStr phone]} (SetPhone (R := UserBaseDB) id phone idIsLogin s)) /\
  (forall email, post "set_email" {["email" := VStr email]} (SetEmail (R := UserBaseDB) id email idIsLogin s)) /\
  (forall b, post "set_blocked" {["blocked" := VBool b]} (SetBlocked (R := UserBaseDB) id b idIsLogin s)) /\
  (forall validators password, exists salt,
     let r := SetPassword validators id password idIsLogin s in
     post "set_password" (<["password_hash" := VStr (Phash_ password salt)]> {["password_salt" := VStr salt]}) r /\
     (r.1 = None -> forall v, validators = Some v -> ValidatePassword v password = None)).
Proof.
  cbn zeta. split_and!.
  - intros phone. by apply change_columns; [apply typed_singleton|].
  - intros email. by apply change_columns; [apply typed_singleton|].
  - intros b. by apply change_columns; [apply typed_singleton|].
  - destruct s as [t o x]. intros validators password. cbn [st_op st_ext].
    enough (HS : spec (SetPassword validators id password idIsLogin) (fun e o' x' => exists salt,
      change_post id idIsLogin "set_password" (<["password_hash" := VStr (Phash_ password salt)]> {["password_salt" := VStr salt]})
        e o x o' x' /\ (e = None -> forall v, validators = Some v -> ValidatePassword v password = None)) o x) by exact (HS t).
    unfold SetPassword. spec_go.
    destruct (v ← validators; ValidatePassword v password) as [err|] eqn:Ep; spec_go; [by exists ""|].
    apply (spec_change _ _ _ _ _ _ (fun f => exists salt, f = <["password_hash" := VStr (Phash_ password salt)]> {["password_salt" := VStr salt]})).
    + intros user R o1 x1 HR. spec_go. apply spec_on, wp_SetPassword. intros salt env. spec_go. apply HR.
      * by exists salt.
      * by apply typed_insert, typed_singleton.
      * done.
      * done.
    + intros e e' o' x' Hu. by exists "".
    + intros f e' o' x' [salt ->] Hpost. exists salt. split; [exact Hpost|]. intros _ v ->. exact Ep.
Qed.

(** A new user.  [Add] succeeds only for a login and a password the validators accept and a
    login no user has; it then adds exactly one user with this login, an ID, and a password hash
    that the password passes with the salt of the user, and logs the addition.  When it fails
    no user is added and nothing is logged. *)
Theorem Add_effect validators login password setters (s : St OpLogUser X) :
  Forall extra_fields setters ->
  let '(r, s') := Add validators login password setters s in
  add_post validators login password r (st_op s) (st_ext s) (st_op s') (st_ext s').
Proof.
  intros Hl. destruct s as [t o x].
  pose proof (spec_Add validators login password setters
    (fun r o' x' => add_post validators login password r o x o' x') o x Hl ltac:(done) t) as HS.
  by destruct (Add _ _ _ _ _) as [r s'].
Qed.
End Facts.

(** ** Instances *)

Module UsersDemo.
#[export] Existing Instances fst_lens snd_lens pair_disjoint.
Definition no_fault (_ : nat) : option error := None.
#[export] Instance users_db : Engine UserBaseDB := mem_engine no_fault.
#[export] Instance users_db_ok : EngineOk UserBaseDB := mem_engine_ok no_fault.
#[export] Instance uniuri_demo : Uniuri := {| uniuri n w := str_repeat n (to_base 10 (Z.to_N (w mod 10))) |}.

Definition env : Env :=
  {| env_now := fun t => (Z.of_nat t * second)%Z; env_rand := fun t => Z.of_nat (S t); env_tick := 0; idCount := 0 |}.
Definition op : Op OpLogUser :=
  {| op_id := "op1"; op_name := "users"; genericError := None; oplogs := [];
     errorManager := ErrorManagerBase.InitHttp; dbTransaction := false; errorAsWarn := false;
     writeCloseLog := true; origin := None; logs := [] |}.
Definition start : St OpLogUser (table UserBaseDB * Env) :=
  Build_St trace0 op ({| rows := []; queries := 0 |}, env).
Definition validators : UserValidators := UsersValidator (fun _ _ => None) "required".

Definition added := UserController.Add (Some validators) "alice" "password1" [UserController.Phone "+100200300"] start.
Definition user : UserBaseDB := default MakeUser (added.1).1.
End UsersDemo.

Section Witnesses.
Import UsersDemo.

Lemma Add_effect_witness :
  add_post (Some validators) "alice" "password1" added.1 op (st_ext start) (st_op added.2) (st_ext added.2) /\
  bool_decide (added.1.2 = None) = true.
Proof.
  split; [|vm_compute; reflexivity].
  pose proof (Add_effect (Some validators) "alice" "password1" [UserController.Phone "+100200300"] start) as H.
  unfold added. destruct (UserController.Add _ _ _ _ _) as [r s']. apply H.
  apply Forall_cons. split; [apply extra_fields_of_code|constructor].
Defined.

Lemma user_changes_witness :
  change_post "alice" [true] "set_blocked" {["blocked" := VBool true]}
    (UserController.SetBlocked (R := UserBaseDB) "alice" true [true] added.2).1 (st_op added.2) (st_ext added.2)
    (st_op (UserController.SetBlocked (R := UserBaseDB) "alice" true [true] added.2).2)
    (st_ext (UserController.SetBlocked (R := UserBaseDB) "alice" true [true] added.2).2).
Proof. apply (user_changes "alice" [true] added.2). Defined.
End Witnesses.
