(* ===== verification/AuthWorld.v ===== *)
(** * The state of authorization: requests, sessions, users, the cache

    [AuthWorld] puts the parts together: the context of the request, the tables of sessions,
    of their clients and of users, the cache, the environment, the table of text messages and
    the network.  Here are the components as lenses, and what the operations of the session controller
    and of the users do to the whole. *)
From S2P Require Import Prelude GoTime Utils Common Errors OpContext Db Crud Auth Crypt AuthParams Cache Session Http Sms Users.
Open Scope go_scope.

Record AuthWorld (C : Type) := {
  w_ctx : AuthContext;
  w_sessions : table SessionBase;
  w_clients : table SessionClientBase;
  w_users : table UserBaseDB;
  w_cache : C;
  w_env : Env;
  w_messages : table SmsMessage;
  w_net : Network
}.
Arguments w_ctx {C}.
Arguments w_sessions {C}.
Arguments w_clients {C}.
Arguments w_users {C}.
Arguments w_cache {C}.
Arguments w_env {C}.
Arguments w_messages {C}.
Arguments w_net {C}.

(** Components. *)
Section Lenses.
Context {C : Type}.
#[global] Instance ctx_lens : Lens (AuthWorld C) (AuthContext).
Proof.
  by refine {| view := w_ctx;
     put v w := {| w_ctx := v; w_sessions := w_sessions w; w_clients := w_clients w; w_users := w_users w; w_cache := w_cache w; w_env := w_env w; w_messages := w_messages w; w_net := w_net w |} |}; try intros [].
Defined.
#[global] Instance sessions_lens : Lens (AuthWorld C) (table SessionBase).
Proof.
  by refine {| view := w_sessions;
     put v w := {| w_ctx := w_ctx w; w_sessions := v; w_clients := w_clients w; w_users := w_users w; w_cache := w_cache w; w_env := w_env w; w_messages := w_messages w; w_net := w_net w |} |}; try intros [].
Defined.
#[global] Instance clients_lens : Lens (AuthWorld C) (table SessionClientBase).
Proof.
  by refine {| view := w_clients;
     put v w := {| w_ctx := w_ctx w; w_sessions := w_sessions w; w_clients := v; w_users := w_users w; w_cache := w_cache w; w_env := w_env w; w_messages := w_messages w; w_net := w_net w |} |}; try intros [].
Defined.
#[global] Instance users_lens : Lens (AuthWorld C) (table UserBaseDB).
Proof.
  by refine {| view := w_users;
     put v w := {| w_ctx := w_ctx w; w_sessions := w_sessions w; w_clients := w_clients w; w_users := v; w_cache := w_cache w; w_env := w_env w; w_messages := w_messages w; w_net := w_net w |} |}; try intros [].
Defined.
Definition cache_lens : Lens (AuthWorld C) C.
Proof.
  by refine {| view := w_cache;
     put v w := {| w_ctx := w_ctx w; w_sessions := w_sessions w; w_clients := w_clients w; w_users := w_users w; w_cache := v; w_env := w_env w; w_messages := w_messages w; w_net := w_net w |} |}; try intros [].
Defined.
#[global] Instance env_lens : Lens (AuthWorld C) (Env).
Proof.
  by refine {| view := w_env;
     put v w := {| w_ctx := w_ctx w; w_sessions := w_sessions w; w_clients := w_clients w; w_users := w_users w; w_cache := w_cache w; w_env := v; w_messages := w_messages w; w_net := w_net w |} |}; try intros [].
Defined.
#[global] Instance messages_lens : Lens (AuthWorld C) (table SmsMessage).
Proof.
  by refine {| view := w_messages;
     put v w := {| w_ctx := w_ctx w; w_sessions := w_sessions w; w_clients := w_clients w; w_users := w_users w; w_cache := w_cache w; w_env := w_env w; w_messages := v; w_net := w_net w |} |}; try intros [].
Defined.
#[global] Instance net_lens : Lens (AuthWorld C) Network.
Proof.
  by refine {| view := w_net;
     put v w := {| w_ctx := w_ctx w; w_sessions := w_sessions w; w_clients := w_clients w; w_users := w_users w; w_cache := w_cache w; w_env := w_env w; w_messages := w_messages w; w_net := v |} |}; try intros [].
Defined.
#[global] Instance sessions_env : Disjoint_lens (AuthWorld C) (table SessionBase) Env.
Proof. by split. Qed.
#[global] Instance clients_env : Disjoint_lens (AuthWorld C) (table SessionClientBase) Env.
Proof. by split. Qed.
#[global] Instance users_env : Disjoint_lens (AuthWorld C) (table UserBaseDB) Env.
Proof. by split. Qed.
#[global] Instance ctx_env : Disjoint_lens (AuthWorld C) (AuthContext) Env.
Proof. by split. Qed.
#[global] Instance messages_env : Disjoint_lens (AuthWorld C) (table SmsMessage) Env.
Proof. by split. Qed.
#[global] Instance messages_net : Disjoint_lens (AuthWorld C) (table SmsMessage) Network.
Proof. by split. Qed.
#[global] Instance net_env : Disjoint_lens (AuthWorld C) Network Env.
Proof. by split. Qed.
End Lenses.

(** ** The session controller in the world *)

Section Sessions.
Context {P C : Type}.
Context `{Es : !Engine SessionBase, Eso : !EngineOk SessionBase}.
Context `{Ec : !Engine SessionClientBase, Eco : !EngineOk SessionClientBase}.
Context `{Eu : !Engine UserBaseDB, Euo : !EngineOk UserBaseDB, Di : !Digest, Sc : !StringCoding}.
Implicit Types (o : Op P) (x : AuthWorld C).
Local Abbreviation sessions := (fun x => rows (w_sessions x)).
Local Abbreviation users := (fun x => rows (w_users x)).
Local Abbreviation clients := (fun x => rows (w_clients x)).
Import SessionController.

(** Users, cache, messages and network are as they were, and so is the request: the clients of sessions
    and the environment may have changed. *)
Definition request_part (c : AuthContext) :=
  (request_path c, request_method c, request_content c, client_ip c, user_agent c, precheck c, request_headers c, tenancy c).
Definition frame x x' : Prop :=
  users x' = users x /\ w_cache x' = w_cache x /\ (w_messages x', w_net x') = (w_messages x, w_net x) /\
  request_part (w_ctx x') = request_part (w_ctx x) /\ same_clock (w_env x) (w_env x').

Lemma frame_refl x : frame x x.
Proof. done. Qed.
Lemma frame_trans x y z : frame x y -> frame y z -> frame x z.
Proof. intros (?&?&?&?&?) (?&?&?&?&?). unfold same_clock in *. repeat split; congruence. Qed.

(** Rows changed where [sel] says so, by [f]; the others are the same. *)
Definition session_change (sel : SessionBase -> bool) (f : SessionBase -> SessionBase -> Prop) (rs rs' : list SessionBase) : Prop :=
  Forall2 (fun r r' => if sel r then f r r' else r' = r) rs rs'.

Lemma session_change_elem sel f rs rs' r' :
  session_change sel f rs rs' -> r' ∈ rs' -> exists r, r ∈ rs /\ if sel r then f r r' else r' = r.
Proof.
  intros HF Hin. apply list_elem_of_lookup in Hin as [i Hi].
  destruct (Forall2_lookup_r _ _ _ _ _ HF Hi) as (r & Hr & Hc). exists r. split; [|done].
  by eapply list_elem_of_lookup_2.
Qed.

(** Invalid, and otherwise the same session. *)
Definition invalidated (r r' : SessionBase) : Prop :=
  Valid r' = false /\ Db.GetID r' = Db.GetID r /\ ss_user r' = ss_user r /\ Expiration r' = Expiration r.
(** With another expiration. *)
Definition prolongated (exp : Z) (r r' : SessionBase) : Prop :=
  Expiration r' = exp /\ Valid r' = Valid r /\ Db.GetID r' = Db.GetID r /\ ss_user r' = ss_user r.

(** A session is determined by its columns. *)
Lemma session_columns_eq (r : SessionBase) :
  column "id" r = Some (VStr (Db.GetID r)) /\ column "valid" r = Some (VBool (Valid r)) /\
  column "expiration" r = Some (VTime (Expiration r)) /\
  column "user_id" r = Some (VStr (WithUserBase.UserId (ss_user r))) /\
  column "user_login" r = Some (VStr (WithUserBase.UserLogin (ss_user r))) /\
  column "user_display" r = Some (VStr (WithUserBase.UserDisplay (ss_user r))).
Proof. done. Qed.

Lemma user_of_columns (u u' : WithUserBase.t) :
  WithUserBase.UserId u' = WithUserBase.UserId u -> WithUserBase.UserLogin u' = WithUserBase.UserLogin u ->
  WithUserBase.UserDisplay u' = WithUserBase.UserDisplay u -> u' = u.
Proof. destruct u, u'; cbn. congruence. Qed.

Lemma assign_invalid (r : SessionBase) t t' :
  invalidated r (assign_all (<["updated_at" := VTime t]> (<["valid" := VBool false]> {["updated_at" := VTime t']})) r).
Proof.
  set (f := <["updated_at" := VTime t]> _).
  assert (Ht : typed (R := SessionBase) f = true) by (repeat apply typed_insert; done || by apply typed_singleton).
  pose proof (session_columns_eq (assign_all f r)) as (E1 & E2 & E3 & E4 & E5 & E6).
  rewrite column_assign_all in E1, E2, E3, E4, E5, E6 by done.
  destruct (session_columns_eq r) as (F1 & F2 & F3 & F4 & F5 & F6).
  change (f !! "id") with (@None value) in E1. change (f !! "valid") with (Some (VBool false)) in E2.
  change (f !! "expiration") with (@None value) in E3. change (f !! "user_id") with (@None value) in E4.
  change (f !! "user_login") with (@None value) in E5. change (f !! "user_display") with (@None value) in E6.
  cbn iota in *. split_and!; [congruence|congruence| |congruence]. apply user_of_columns; congruence.
Qed.

Lemma assign_expiration (r : SessionBase) t exp :
  prolongated exp r (assign_all (<["updated_at" := VTime t]> {["expiration" := VTime exp]}) r).
Proof.
  set (f := <["updated_at" := VTime t]> _).
  assert (Ht : typed (R := SessionBase) f = true) by (apply typed_insert; [done|by apply typed_singleton]).
  pose proof (session_columns_eq (assign_all f r)) as (E1 & E2 & E3 & E4 & E5 & E6).
  rewrite column_assign_all in E1, E2, E3, E4, E5, E6 by done.
  destruct (session_columns_eq r) as (F1 & F2 & F3 & F4 & F5 & F6).
  change (f !! "id") with (@None value) in E1. change (f !! "valid") with (@None value) in E2.
  change (f !! "expiration") with (Some (VTime exp)) in E3. change (f !! "user_id") with (@None value) in E4.
  change (f !! "user_login") with (@None value) in E5. change (f !! "user_display") with (@None value) in E6.
  cbn iota in *. split_and!; [congruence|congruence|congruence|]. apply user_of_columns; congruence.
Qed.

Lemma updated_rows_change filter fields f (sel : SessionBase -> bool) rs :
  (forall r, sel r = true -> f r (assign_all fields r)) -> (forall r, matches filter r = sel r) ->
  session_change sel f rs (updated_rows filter fields rs).
Proof.
  intros Hf Hs. unfold session_change, updated_rows. induction rs as [|r rs IH]; cbn; constructor; [|done].
  rewrite Hs. destruct (sel r) eqn:E; [by apply Hf|done].
Qed.

(** Which sessions an invalidation is about. *)
Definition of_user (userId : string) (r : SessionBase) : bool := bool_decide (WithUserBase.UserId (ss_user r) = userId).
Definition of_session (userId sessionId : string) (r : SessionBase) : bool :=
  bool_decide (Db.GetID r = sessionId) && of_user userId r.

Lemma matches_of_user userId (r : SessionBase) : matches {["user_id" := VStr userId]} r = of_user userId r.
Proof.
  rewrite matches_singleton. unfold of_user. apply bool_decide_ext.
  change (column "user_id" r) with (Some (VStr (WithUserBase.UserId (ss_user r)))).
  split; [by intros [= ->]|by intros ->].
Qed.

Lemma matches_of_session userId sessionId (r : SessionBase) :
  matches (<["id" := VStr sessionId]> {["user_id" := VStr userId]}) r = of_session userId sessionId r.
Proof.
  unfold of_session. apply eq_true_iff_eq. rewrite matches_spec, andb_true_iff, bool_decide_eq_true.
  rewrite <- matches_of_user, matches_spec. split.
  - intros Hm. split.
    + specialize (Hm "id" (VStr sessionId) (lookup_insert_eq _ _ _)). rewrite id_column in Hm. by injection Hm.
    + intros k v Hk. apply Hm. rewrite lookup_insert_ne; [done|]. intros <-. by rewrite lookup_singleton_ne in Hk.
  - intros [Hid Hm] k v. rewrite lookup_insert_Some. intros [[<- <-]|[_ Hk]]; [|by apply Hm].
    rewrite id_column. by subst.
Qed.

(** What a call makes of the sessions: a change when it succeeds, nothing when it fails. *)
Definition session_post (sel : SessionBase -> bool) (f : SessionBase -> SessionBase -> Prop) (e : option error) x x' : Prop :=
  w_ctx x' = w_ctx x /\ frame x x' /\ clients x' = clients x /\
  match e with Some _ => sessions x' = sessions x | None => session_change sel f (sessions x) (sessions x') end.

Lemma session_change_all fields f (rs : list SessionBase) :
  (forall r, f r (assign_all fields r)) -> session_change (fun _ => true) f rs (map (assign_all fields) rs).
Proof. intros Hf. induction rs; cbn; constructor; [apply Hf|done]. Qed.

Lemma spec_invalidate name filter sel (Q : option error -> Op P -> AuthWorld C -> Prop) o x :
  match filter with Some f => typed (R := SessionBase) f = true /\ forall r, matches f r = sel r | None => sel = fun _ => true end ->
  (forall e x', session_post sel invalidated e x x' -> Q e o x') ->
  spec (invalidate name filter) Q o x.
Proof.
  intros Hsel HQ. unfold invalidate. spec_go. apply spec_on. unfold wp, Now. cbn [fst snd].
  spec_go. apply spec_UpdateMulti; [done|]. intros e env rs' Hpost Hclock. apply spec_checked, HQ.
  split_and!; [done|done|done|]. cbn. destruct e as [e|]; cbn in Hpost; [done|].
  destruct Hpost as [now ->].
  - by apply typed_insert, typed_singleton.
  - destruct filter; [apply Hsel|done].
  - destruct filter as [flt|].
    + apply updated_rows_change; [|apply Hsel]. intros r _. apply assign_invalid.
    + subst sel. apply session_change_all. intros r. apply assign_invalid.
Qed.

(** Invalidation.  Invalidating one session of a user, all sessions of a user, or all
    sessions makes exactly these sessions invalid and changes nothing else of them; the other
    sessions, users, clients and the request stay as they are.  A failed call changes no
    session. *)
Theorem invalidation userId sessionId (s : St P (AuthWorld C)) :
  let post sel r := session_post sel invalidated r.1 (st_ext s) (st_ext r.2) /\ st_op r.2 = st_op s in
  post (of_session userId sessionId) (InvalidateSession userId sessionId s) /\
  post (of_user userId) (InvalidateUserSessions userId s) /\
  post (fun _ => true) (InvalidateAllSessions s).
Proof.
  destruct s as [t o x]. cbn zeta. cbn [st_op st_ext].
  assert (Hinv : forall name filter sel,
    match filter with Some f => typed (R := SessionBase) f = true /\ forall r, matches f r = sel r | None => sel = fun _ => true end ->
    let r := invalidate name filter (Build_St t o x) in
    session_post sel invalidated r.1 x (st_ext r.2) /\ st_op r.2 = o).
  { intros name filter sel Hsel.
    enough (HS : spec (invalidate name filter) (fun e o' x' => session_post sel invalidated e x x' /\ o' = o) o x) by exact (HS t).
    by apply (spec_invalidate _ _ sel). }
  split; [|split].
  - apply Hinv. split; [by apply typed_insert, typed_singleton|]. apply matches_of_session.
  - apply Hinv. split; [by apply typed_singleton|]. apply matches_of_user.
  - by apply Hinv.
Qed.

Lemma spec_InvalidateSession userId sessionId (Q : option error -> Op P -> AuthWorld C -> Prop) o x :
  (forall e x', session_post (of_session userId sessionId) invalidated e x x' -> Q e o x') ->
  spec (InvalidateSession userId sessionId) Q o x.
Proof.
  apply spec_invalidate. split; [by apply typed_insert, typed_singleton|]. apply matches_of_session.
Qed.

Lemma spec_UpdateSessionExpiration session (Q : option error -> Op P -> AuthWorld C -> Prop) o x :
  (forall e x', session_post (fun r => bool_decide (Db.GetID r = Db.GetID session)) (prolongated (Expiration session)) e x x' ->
     Q e o x') ->
  spec (UpdateSessionExpiration session) Q o x.
Proof.
  intros HQ. unfold UpdateSessionExpiration. spec_go. apply spec_DbUpdate. intros e obj' env rs' Hpost _ Hclock.
  apply spec_checked, HQ. split_and!; [done|done|done|]. cbn. destruct e as [e|]; cbn in Hpost; [done|].
  destruct Hpost as [[now Hrs] _]. rewrite Hrs by (by apply typed_singleton).
  apply updated_rows_change; [intros; apply assign_expiration|apply matches_id].
Qed.

(** An unknown session is the zero session, which is not valid. *)
Lemma spec_FindSession sessionId (Q : option SessionBase * option error -> Op P -> AuthWorld C -> Prop) o x :
  (forall r x', w_ctx x' = w_ctx x -> frame x x' -> sessions x' = sessions x -> clients x' = clients x ->
     match r with
     | (Some session, None) => (session ∈ sessions x /\ Db.GetID session = sessionId) \/ session = NewSession
     | (None, Some _) => True
     | _ => False
     end -> Q r o x') ->
  spec (FindSession sessionId) Q o x.
Proof.
  intros HQ. unfold FindSession. spec_go. apply spec_read_with. intros row e E.
  destruct e as [e|]; spec_go; apply HQ; try done.
  destruct row as [r|]; cbn; [left|by right]. destruct E as [Hin Hm]. rewrite matches_id in Hm.
  by apply bool_decide_eq_true in Hm.
Qed.

Lemma spec_CreateSession exp u (Q : option SessionBase * option error -> Op P -> AuthWorld C -> Prop) o x :
  authUser (w_ctx x) = Some u ->
  (forall r x', w_ctx x' = w_ctx x -> frame x x' -> clients x' = clients x ->
     match r with
     | (Some session, None) =>
         sessions x' = sessions x ++ [session] /\ (table_ok (sessions x) -> table_ok (sessions x')) /\ Valid session = true /\ Expiration session = exp /\
         Db.GetID session <> "" /\ WithUserBase.UserId (ss_user session) = Auth.GetID u /\
         WithUserBase.UserLogin (ss_user session) = Login u
     | (None, Some _) => sessions x' = sessions x
     | _ => False
     end -> Q r o x') ->
  spec (CreateSession exp) Q o x.
Proof.
  intros Hu HQ. unfold CreateSession, AuthUser_, request. spec_go. apply spec_on, wp_InitObject_clock. intros b env Hid _ Hclock.
  spec_go. apply spec_on, wp_gets. cbn -[InitObject]. rewrite Hu. spec_go. apply spec_DbCreate.
  intros e rs' Hpost. destruct e as [e|]; cbn in Hpost; spec_go; apply HQ; try done.
  destruct Hpost as [-> Hok]. cbn -[table_ok]. by split_and!.
Qed.

(** With reads that never fail the session is found when there is one. *)
Lemma spec_FindSession_found sessionId session (Q : option SessionBase * option error -> Op P -> AuthWorld C -> Prop) o x :
  reads_never_fail (R := SessionBase) -> session ∈ sessions x -> Db.GetID session = sessionId ->
  (forall r, r ∈ sessions x -> Db.GetID r = sessionId -> r = session) ->
  (forall x', w_ctx x' = w_ctx x -> frame x x' -> sessions x' = sessions x -> Q (Some session, None) o x') ->
  spec (FindSession sessionId) Q o x.
Proof.
  intros Hn Hin Hid Huniq HQ. unfold FindSession. spec_go. apply spec_read_never_fails; [done|]. intros row E.
  spec_go. cbn in E. destruct row as [r|].
  - destruct E as [Hr Hm]. rewrite matches_id in Hm. apply bool_decide_eq_true in Hm.
    rewrite (Huniq r) by done. by apply HQ.
  - exfalso. specialize (E ltac:(by apply typed_singleton)). rewrite Forall_forall in E.
    specialize (E _ Hin). rewrite matches_id in E. by apply bool_decide_eq_false in E.
Qed.

(** The hash of the client of a request. *)
Definition client_hash (c : AuthContext) : string := (Hash.CalcStrStr [client_ip c; user_agent c] Hash.New).1.
Definition client_of (c : AuthContext) (r : SessionClientBase) : Prop :=
  SessionId r = session_ c /\ ClientHash r = client_hash c.

(** After a success the client of the request is a row of the session and the hash, found or
    created.  When the creation fails the code goes on with the identifier of the row that was
    not created. *)
Definition client_post (e : option error) x x' : Prop :=
  frame x x' /\ sessions x' = sessions x /\
  match e with
  | Some _ => w_ctx x' = w_ctx x
  | None =>
      exists id, w_ctx x' = with_client id (w_ctx x) /\
        ((exists r, r ∈ clients x /\ client_of (w_ctx x) r /\ Db.GetID r = id /\
                    map Db.GetID (clients x') = map Db.GetID (clients x)) \/
         (exists r, clients x' = clients x ++ [r] /\ client_of (w_ctx x) r /\ Db.GetID r = id /\ id <> "") \/
         (Forall (fun r => ~ client_of (w_ctx x) r) (clients x) /\
          map Db.GetID (clients x') = map Db.GetID (clients x)))
  end.

Lemma matches_client (c : AuthContext) (r : SessionClientBase) :
  matches (<["session_id" := VStr (session_ c)]> {["client_hash" := VStr (client_hash c)]}) r = true <-> client_of c r.
Proof.
  unfold client_of. rewrite matches_spec. split.
  - intros Hm. split.
    + specialize (Hm "session_id" (VStr (session_ c)) (lookup_insert_eq _ _ _)). by injection Hm.
    + specialize (Hm "client_hash" (VStr (client_hash c))).
      rewrite lookup_insert_ne in Hm by done. specialize (Hm (lookup_singleton_eq _ _)). by injection Hm.
  - intros [Hs Hh] k v. rewrite lookup_insert_Some, lookup_singleton_Some.
    intros [[<- <-]|[_ [<- <-]]]; [rewrite <- Hs|rewrite <- Hh]; done.
Qed.

Lemma spec_finish_client c tryUpdate client (Q : option error * option error -> Op P -> AuthWorld C -> Prop) o x :
  (forall e x', frame x x' -> sessions x' = sessions x ->
     map Db.GetID (clients x') = map Db.GetID (clients x) -> (tryUpdate = false -> clients x' = clients x) ->
     w_ctx x' = (match e with Some _ => w_ctx x | None => with_client (Db.GetID client) (w_ctx x) end) -> Q (e, e) o x') ->
  spec (finish_client c tryUpdate client) Q o x.
Proof.
  intros HQ. unfold finish_client. spec_go. destruct tryUpdate; spec_go.
  - apply spec_on. unfold wp, Now. cbn [fst snd]. apply spec_DbUpdate. intros e obj' env rs' Hpost Hid Hclock.
    assert (Hids : map Db.GetID rs' = map Db.GetID (clients x)).
    { destruct e as [e|]; cbn in Hpost; [by rewrite Hpost|]. destruct Hpost as [[now Hrs] _].
      rewrite Hrs by (by apply typed_singleton). apply updated_rows_ids; [|done]. by apply typed_insert, typed_singleton. }
    destruct e as [e|]; spec_go.
    + apply HQ; try done.
    + unfold SetClientId. apply spec_on, wp_modify. spec_go. apply HQ; try done. rewrite Hid by done. done.
  - unfold SetClientId. apply spec_on, wp_modify. spec_go. by apply HQ.
Qed.

Lemma spec_UpdateSessionClient u (Q : option error -> Op P -> AuthWorld C -> Prop) o x :
  authUser (w_ctx x) = Some u ->
  (forall e x', client_post e x x' -> Q e o x') -> spec UpdateSessionClient Q o x.
Proof.
  intros Hu HQ. unfold UpdateSessionClient, request, GetSessionId, AuthUser_.
  spec_go. do 3 (apply spec_on, wp_gets; rewrite put_view; spec_go). apply spec_read_with. intros row e E.
  destruct e as [e|]; spec_go; [by apply HQ|]. destruct row as [r|]; cbn.
  - destruct E as [Hin Hm]. apply matches_client in Hm. apply spec_finish_client.
    intros e x' Hf Hs Hids _ Hc. apply HQ. split_and!; [done|done|]. destruct e; [done|].
    exists (Db.GetID r). split; [done|]. left. by exists r.
  - spec_go. apply spec_on, wp_InitObject_clock. intros b env Hid _ Hclock. spec_go. apply spec_on, wp_gets.
    cbn -[InitObject]. rewrite Hu. spec_go. apply spec_DbCreate. intros e1 rs' Hpost.
    apply spec_finish_client. intros e x' Hf Hs Hids Hcl Hc. apply HQ.
    split; [by eapply frame_trans, Hf|]. split; [done|].
    destruct e; [done|]. eexists. split; [exact Hc|]. cbn in E. destruct e1 as [e1|]; cbn in Hpost.
    + right; right. split; [|by rewrite Hids; cbn; rewrite Hpost]. eapply Forall_impl; [apply E; by apply typed_insert, typed_singleton|].
      cbn beta. intros r Hm Hof. apply matches_client in Hof.
      assert (Htf : true = false) by (etransitivity; [symmetry; exact Hof|exact Hm]). discriminate Htf.
    + right; left. destruct Hpost as [-> _]. eexists. split; [exact (Hcl eq_refl)|]. by split_and!.
Qed.

(** The client of a session.  For an authenticated request, when the call succeeds the
    client set in the context is the row of this session and this address and user agent: the one
    found, or one created with an identifier; if there was none and its creation failed no row was
    added.  Nothing but clients and the context changes, and after a failure not the context. *)
Theorem UpdateSessionClient_effect (s : St P (AuthWorld C)) u :
  authUser (w_ctx (st_ext s)) = Some u ->
  let '(e, s') := UpdateSessionClient s in client_post e (st_ext s) (st_ext s') /\ st_op s' = st_op s.
Proof.
  destruct s as [t o x]. intros Hu.
  pose proof (spec_UpdateSessionClient u (fun e o' x' => client_post e x x' /\ o' = o) o x Hu ltac:(done) t) as HS.
  by destruct (UpdateSessionClient _) as [e s'].
Qed.

Lemma spec_FindAuthUser_found login row (Q : option AuthUser * option error -> Op P -> AuthWorld C -> Prop) o x :
  reads_never_fail (R := UserBaseDB) -> row ∈ users x -> LOGIN row = login ->
  (forall r, r ∈ users x -> LOGIN r = login -> r = row) ->
  (forall x', w_ctx x' = w_ctx x -> frame x x' -> sessions x' = sessions x -> Q (Some (auth_user row), None) o x') ->
  spec (UserController.FindAuthUser login) Q o x.
Proof.
  intros Hn Hin Hl Huniq HQ. unfold UserController.FindAuthUser. spec_go. apply spec_read_never_fails; [done|]. intros r E.
  cbn in E. destruct r as [r|]; cbn; spec_go.
  - destruct E as [Hr Hm]. rewrite matches_singleton in Hm. apply bool_decide_eq_true in Hm.
    rewrite (Huniq r); [by apply HQ|done|by injection Hm].
  - exfalso. specialize (E ltac:(by apply typed_singleton)). rewrite Forall_forall in E.
    specialize (E _ Hin). rewrite matches_singleton, bool_decide_eq_false in E. apply E. by subst login.
Qed.

(** Finding the user of an authorization. *)
Lemma spec_FindAuthUser login (Q : option AuthUser * option error -> Op P -> AuthWorld C -> Prop) o x :
  (forall r x', w_ctx x' = w_ctx x -> frame x x' -> sessions x' = sessions x -> clients x' = clients x ->
     match r with
     | (Some u, None) => exists row, row ∈ users x /\ LOGIN row = login /\ u = auth_user row
     | (None, None) => Forall (fun row => LOGIN row <> login) (users x)
     | (None, Some _) => True
     | _ => False
     end -> Q r o x') ->
  spec (UserController.FindAuthUser login) Q o x.
Proof.
  intros HQ. unfold UserController.FindAuthUser. spec_go. apply spec_read_with. intros row e E.
  destruct e as [e|]; spec_go; [by apply HQ|]. destruct row as [r|]; cbn; spec_go; apply HQ; try done.
  - destruct E as [Hin Hm]. rewrite matches_singleton in Hm. apply bool_decide_eq_true in Hm.
    exists r. split_and!; [done|by injection Hm|done].
  - eapply Forall_impl; [apply E; by apply typed_singleton|]. cbn beta. intros r Hm Hl.
    rewrite matches_singleton, bool_decide_eq_false in Hm. apply Hm. by subst login.
Qed.
End Sessions.
