(* ===== verification/AuthMethods.v ===== *)
(** * auth/auth_methods: anti-CSRF tokens, HMAC, signatures, logins with password hashes

    One module per method, with its [Handle].  The result of a handler is whether the request
    has its section, and an error; a handler may also leave a generic error without returning an
    error, and the lemmas say where. *)
From S2P Require Import Prelude GoTime Utils Common Errors OpContext Db Crud Auth Crypt AuthParams Cache Session Http Sms Users AuthWorld.
Open Scope go_scope.

Section Lift.
Context {P C : Type}.
Implicit Types (o : Op P) (x : AuthWorld C).

Lemma spec_request {A} (f : AuthContext -> A) (Q : A -> Op P -> AuthWorld C -> Prop) o x :
  Q (f (w_ctx x)) o x -> spec (request f) Q o x.
Proof. intros H. unfold request. apply spec_on, wp_gets. by rewrite put_view. Qed.

Lemma spec_context (f : AuthContext -> AuthContext) (Q : unit -> Op P -> AuthWorld C -> Prop) o x :
  Q tt o (put (f (w_ctx x)) x) -> spec (on (modify f)) Q o x.
Proof. intros H. by apply spec_on, wp_modify. Qed.

Lemma spec_Expired (e : ExpireToken.t) (Q : bool -> Op P -> AuthWorld C -> Prop) o x :
  Q (ExpireToken.Exp e <? env_now (w_env x) (env_tick (w_env x)))%Z o (put (tick_env (w_env x)) x) ->
  spec (on (ExpireToken.Expired e)) Q o x.
Proof. intros H. by apply spec_on. Qed.

(** What a [SetTTL] makes of an expiration: some reading of the clock and the TTL. *)
Definition ttl_token (seconds : Z) (x : AuthWorld C) (e : ExpireToken.t) : Prop :=
  exists k, ExpireToken.Exp e = (env_now (w_env x) k + int64 (second * seconds))%Z.

Lemma spec_SetTTL seconds (Q : ExpireToken.t -> Op P -> AuthWorld C -> Prop) o x :
  (forall e, ttl_token seconds x e -> Q e o (put (tick_env (w_env x)) x)) ->
  spec (on (ExpireToken.SetTTL seconds)) Q o x.
Proof. intros H. apply spec_on. unfold wp, ExpireToken.SetTTL, Now, bind, ret. cbn. apply H. by eexists. Qed.
End Lift.

Ltac handler_step :=
  lazymatch goal with
  | |- spec (request _) _ _ _ => apply spec_request
  | |- spec AuthUser_ _ _ _ => apply spec_request
  | |- spec GetSessionId _ _ _ => apply spec_request
  | |- spec (Auth.GetAuthParameter _ _) _ _ _ => apply spec_request
  | |- spec (SetAuthUser _) _ _ _ => apply spec_context
  | |- spec (SetSessionId _) _ _ _ => apply spec_context
  | |- spec (SetClientId _) _ _ _ => apply spec_context
  | |- spec (Auth.SetAuthParameter _ _ _) _ _ _ => apply spec_context
  | |- spec (on (ExpireToken.Expired _)) _ _ _ => apply spec_Expired
  | _ => spec_step
  end.
Ltac handler_go := repeat (handler_step; cbn [fst snd gets modify]).

(** ** Anti-CSRF tokens (auth_csrf.go) *)

Module AuthCsrf.
Definition AntiCsrfTokenName := "csrf".
Definition ErrorCodeAntiCsrfRequired := "anti_csrf_token_required".
Definition ErrorCodeTokenExpired := "anti_csrf_token_expired".
Definition ErrorCodeInvalidToken := "anti_csrf_token_invalid".

Definition ErrorDescriptions : gmap string string := list_to_map
  [(ErrorCodeAntiCsrfRequired, "Request must be protected with anti-CSRF token.");
   (ErrorCodeTokenExpired, "Anti-CSRF token expired."); (ErrorCodeInvalidToken, "Invalid anti-CSRF token.")].
Definition ErrorProtocolCodes : gmap string Z := list_to_map
  [(ErrorCodeAntiCsrfRequired, 403%Z); (ErrorCodeTokenExpired, 403%Z); (ErrorCodeInvalidToken, 403%Z)].
Definition IsCsrfError (code : string) : bool :=
  bool_decide (code = ErrorCodeAntiCsrfRequired) || bool_decide (code = ErrorCodeInvalidToken) ||
  bool_decide (code = ErrorCodeTokenExpired).

Record t := { TOKEN_TTL_SECONDS : Z; skipPaths : list string }.
(** [Init]: the status service is skipped when no path is configured. *)
Definition Init (ttl : Z) (IGNORE_PATHS : list string) : t :=
  {| TOKEN_TTL_SECONDS := ttl;
     skipPaths := if (length IGNORE_PATHS =? 0)%nat then ["/status/check"] else IGNORE_PATHS |}.

Section Methods.
Context {P C : Type} `{En : !AuthParameterEncryption P (AuthWorld C) ExpireToken.t}.
Local Abbreviation act := (M (St P (AuthWorld C))).

(** The answer of the check of the token in the request, if the handler returns there.  The
    variable [err] of the block is not the one recorded on exit. *)
Definition check_token (a : t) (c : nat) : act (option (bool * option error)) :=
  let* path := request request_path in
  if bool_decide (path ∈ skipPaths a) then ret None
  else
    let* '(exists_, err, prev) := EncGetAuthParameter AntiCsrfProtocol AntiCsrfTokenName ExpireToken.zero in
    if negb exists_ then
      SetGenericErrorCode ErrorCodeAntiCsrfRequired [] ;;
      ret (Some (false, Some (Native "CSRF token not found")))
    else
      match err with
      | Some _ =>
          SetMessage c "failed to get encrypted auth parameter" ;;
          SetGenericErrorCode ErrorCodeInvalidToken [] ;;
          ret (Some (true, err))
      | None =>
          let* expired := on (ExpireToken.Expired prev) in
          if (expired : bool) then
            SetMessage c "token expired" ;;
            SetGenericErrorCode ErrorCodeTokenExpired [] ;;
            ret (Some (true, err))
          else ret None
      end.

(** The token of the response. *)
Definition renew (a : t) (c : nat) : act ((bool * option error) * option error) :=
  let* next := on (ExpireToken.SetTTL (TOKEN_TTL_SECONDS a)) in
  let* err := EncSetAuthParameter AntiCsrfProtocol AntiCsrfTokenName next in
  match err with
  | Some _ =>
      SetMessage c "failed to set encrypted auth parameter" ;;
      SetGenericErrorCode ErrorCodeInternalServerError [] ;;
      ret ((true, err), err)
  | None => ret ((true, None), None)
  end.

Definition Handle (a : t) : act (bool * option error) :=
  traced_exit "AuthCsrf.Handle" (fun c =>
    let* checked := check_token a c in
    match checked with
    | Some r => ret (r, None)
    | None => renew a c
    end).
End Methods.

Section Facts.
Context {P C : Type} `{En : !AuthParameterEncryption P (AuthWorld C) ExpireToken.t}.
Context `{Eo : !AuthParameterEncryptionOk P (AuthWorld C) ExpireToken.t}.
Implicit Types (o : Op P) (x : AuthWorld C).

Definition token_in (x : AuthWorld C) : bool * option error * ExpireToken.t :=
  opened (default "" (request_headers (w_ctx x) !! auth_header AntiCsrfProtocol AntiCsrfTokenName)) ExpireToken.zero.
(** The request is of a path that is not checked, or has a token that opens and has not
    expired. *)
Definition protected (a : t) x : Prop :=
  request_path (w_ctx x) ∈ skipPaths a \/
  exists tok, token_in x = (true, None, tok) /\ (env_now (w_env x) (env_tick (w_env x)) <= ExpireToken.Exp tok)%Z.

(** The response has a token for the next request. *)
Definition renewed (a : t) x x' : Prop :=
  exists text tok, response_headers (w_ctx x') !! auth_header AntiCsrfProtocol AntiCsrfTokenName = Some text /\
    ttl_token (TOKEN_TTL_SECONDS a) x tok /\ (sendable tok -> forall y, opened text y = (true, None, tok)).

Definition post (a : t) o x (r : bool * option error) o' x' : Prop :=
  match r.2 with
  | Some _ => genericError o' <> None
  | None => (protected a x /\ renewed a x x' /\ o' = o) \/
            (r.1 = true /\ w_ctx x' = w_ctx x /\ o' = with_code ErrorCodeTokenExpired o /\
             exists tok, token_in x = (true, None, tok))
  end.

Lemma with_code_set code o : genericError (with_code code o) <> None.
Proof. by rewrite with_code_genericError. Qed.

Lemma spec_csrf a (Q : bool * option error -> Op P -> AuthWorld C -> Prop) o x :
  (forall r o' x', post a o x r o' x' -> Q r o' x') -> spec (Handle a) Q o x.
Proof.
  intros HQ. unfold Handle, check_token. handler_go.
  assert (Hnext : forall c x1, env_now (w_env x1) = env_now (w_env x) -> w_ctx x1 = w_ctx x -> protected a x ->
    spec (renew a c) (fun r => Q r.1) o x1).
  { intros c0 x1 He Hc Hp. unfold renew. spec_go. apply spec_SetTTL. intros tok Htok. spec_go. apply set_spec.
    - intros err env _. spec_go. apply HQ, with_code_set.
    - intros text env Ht _ Ho. spec_go. apply HQ. left. split_and!; [done| |done].
      exists text, tok. cbn. unfold set_header. rewrite decide_False, lookup_insert_eq by done.
      split_and!; [done| |done]. unfold ttl_token in *. by rewrite He in Htok. }
  case_bool_decide as Hskip; spec_go; [apply Hnext; [done|done|by left]|].
  apply get_spec. change (opened _ _) with (token_in x). destruct (token_in x) as [[found err] tok] eqn:Et.
  destruct found; cbn; handler_go; [|apply HQ, with_code_set].
  destruct err as [err|]; handler_go; [apply HQ, with_code_set|].
  destruct (Z.ltb_spec (ExpireToken.Exp tok) (env_now (w_env x) (env_tick (w_env x)))); handler_go.
  - apply HQ. right. split_and!; [done|done|done|by exists tok].
  - apply Hnext; [done|done|]. right. by exists tok.
Qed.


(** An expired token is reported but not refused: no error is returned. *)
Lemma csrf_expired a o x (Q : bool * option error -> Op P -> AuthWorld C -> Prop) tok :
  request_path (w_ctx x) ∉ skipPaths a -> token_in x = (true, None, tok) ->
  (ExpireToken.Exp tok < env_now (w_env x) (env_tick (w_env x)))%Z ->
  (forall x', w_ctx x' = w_ctx x -> Q (true, None) (with_code ErrorCodeTokenExpired o) x') -> spec (Handle a) Q o x.
Proof.
  intros Hs Ht He HQ. unfold Handle, check_token. handler_go. rewrite bool_decide_eq_false_2 by done. spec_go.
  apply get_spec. change (opened _ _) with (token_in x). rewrite Ht. cbn. handler_go.
  rewrite (proj2 (Z.ltb_lt _ _)) by done. handler_go. by apply HQ.
Qed.

(** The request itself stays. *)
Lemma csrf_request a o x : spec (Handle a) (fun _ _ x' => request_part (w_ctx x') = request_part (w_ctx x)) o x.
Proof.
  unfold Handle, check_token. handler_go.
  assert (Hnext : forall c x1, w_ctx x1 = w_ctx x ->
    spec (renew a c) (fun _ _ x' => request_part (w_ctx x') = request_part (w_ctx x)) o x1).
  { intros c0 x1 Hc. unfold renew. spec_go. apply spec_SetTTL. intros tok _. spec_go. apply set_spec.
    - intros err env _. spec_go. by rewrite <- Hc.
    - intros text env _ _ _. spec_go. by rewrite <- Hc. }
  case_bool_decide; spec_go; [eapply spec_mono; [|by apply Hnext]; by intros [] ? ? ?|].
  apply get_spec. destruct (opened _ _) as [[[] [e|]] tok]; cbn; handler_go; try done.
  destruct (_ <? _)%Z; handler_go; [done|]. eapply spec_mono; [|by apply Hnext]. by intros [] ? ? ?.
Qed.
End Facts.
End AuthCsrf.

(** ** HMAC (auth_hmac.go) *)

Module AuthHmac.
Definition HmacProtocol := "hmac".
Definition HmacParameter := "hmac".
Definition ErrorCodeInvalidHmac := "hmac_invalid".
Definition ErrorDescriptions : gmap string string := {[ErrorCodeInvalidHmac := "Invalid HMAC."]}.
Definition ErrorProtocolCodes : gmap string Z := {[ErrorCodeInvalidHmac := 401%Z]}.

Section Methods.
Context {P C : Type} `{Di : !Digest, Sc : !StringCoding}.
Local Abbreviation act := (M (St P (AuthWorld C))).

Definition Handle : act (bool * option error) :=
  traced_exit "AuthHmac.Handle" (fun c =>
    let* requestHmac := GetAuthParameter HmacProtocol HmacParameter in
    if decide (requestHmac = "") then ret ((false, None), None)
    else
      let* user := AuthUser_ in
      match user with
      | None =>
          SetGenericErrorCode ErrorCodeUnauthorized [] ;;
          ret ((true, Some (Native "unknown user")), None)
      | Some user =>
          match HmacSecret user with
          | None =>
              SetMessage c "user must be of UserWithHmacSecret interface" ;;
              SetGenericErrorCode ErrorCodeInternalServerError [] ;;
              ret ((true, None), None)
          | Some secret =>
              if decide (secret = "") then
                SetGenericErrorCode ErrorCodeUnauthorized [] ;;
                ret ((true, Some (Native "hmac secret is not set for user")), None)
              else
                let* method := request request_method in
                let* path := request request_path in
                let* content := request request_content in
                let hmac := (Hmac.Calc [method; path; content] (Hmac.New secret)).2 in
                match Hmac.CheckStr requestHmac hmac with
                | Some err =>
                    SetGenericErrorCode ErrorCodeInvalidHmac [] ;;
                    ret ((true, Some err), Some err)
                | None => ret ((true, None), None)
                end
          end
      end).

Implicit Types (o : Op P) (x : AuthWorld C).

(** The HMAC a request must have: that of the secret over the method, the path and the
    content, put one after another without separators. *)
Definition signed (secret : string) (c : AuthContext) : Prop :=
  Decode (default "" (request_headers c !! auth_header HmacProtocol HmacParameter)) =
  inl (Hmac.hmac secret (request_method c +:+ (request_path c +:+ (request_content c +:+ "")))).

(** The HMAC in the header of a request. *)
Definition hmac_in (c : AuthContext) : string := default "" (request_headers c !! auth_header HmacProtocol HmacParameter).

(** [C37] HMAC.  The handler changes nothing but the generic error.  A request without an HMAC in its
    header is not one for this handler, and nothing happens.  When a request has one, no error is
    returned and no generic error is left, the user of the request has a secret and the
    HMAC of the request is the one of that secret; an error comes with a generic error, and so
    does a user without the interface, for which no error is returned. *)
Theorem hmac_checks (s : St P (AuthWorld C)) :
  let '((found, err), s') := Handle s in
  st_ext s' = st_ext s /\
  (if found then hmac_in (w_ctx (st_ext s)) <> "" else hmac_in (w_ctx (st_ext s)) = "" /\ err = None /\ st_op s' = st_op s) /\
  match err with
  | Some _ => found = true /\ genericError (st_op s') <> None
  | None =>
      genericError (st_op s') = None -> found = true ->
      exists u secret, authUser (w_ctx (st_ext s)) = Some u /\ HmacSecret u = Some secret /\ secret <> "" /\
        signed secret (w_ctx (st_ext s))
  end.
Proof.
  destruct s as [t o x].
  enough (HS : spec Handle (fun r o' x' => x' = x /\
    (if r.1 then hmac_in (w_ctx x) <> "" else hmac_in (w_ctx x) = "" /\ r.2 = None /\ o' = o) /\
    match r.2 with
    | Some _ => r.1 = true /\ genericError o' <> None
    | None => genericError o' = None -> r.1 = true ->
        exists u secret, authUser (w_ctx x) = Some u /\ HmacSecret u = Some secret /\ secret <> "" /\ signed secret (w_ctx x)
    end) o x).
  { specialize (HS t). cbn in HS. by destruct (Handle _) as [[[] err] [t' o' x']]. }
  unfold Handle. handler_go. fold (hmac_in (w_ctx x)). case_decide; handler_go; [done|].
  destruct (authUser (w_ctx x)) as [u|] eqn:Eu; handler_go; [|by auto using AuthCsrf.with_code_set].
  destruct (HmacSecret u) as [secret|] eqn:Es; handler_go.
  2:{ split; [done|]. split; [done|]. intros Hg. by apply AuthCsrf.with_code_set in Hg. }
  case_decide; handler_go; [by auto using AuthCsrf.with_code_set|].
  destruct (Hmac.CheckStr _ _) as [err|] eqn:Ec; handler_go; [by auto using AuthCsrf.with_code_set|].
  split; [done|]. split; [done|]. intros _ _. exists u, secret. split_and!; try done.
  apply Hmac.CheckStr_spec in Ec. by rewrite Hmac.Calc_concat in Ec.
Qed.

(** Two requests with the same concatenation of method, path and content have the same HMAC. *)
Lemma hmac_boundaries secret c c' :
  request_headers c = request_headers c' ->
  request_method c +:+ (request_path c +:+ request_content c) =
  request_method c' +:+ (request_path c' +:+ request_content c') ->
  signed secret c -> signed secret c'.
Proof. unfold signed. intros Hh E. rewrite !str_app_nil_r, Hh, E. done. Qed.
End Methods.
End AuthHmac.

(** ** Signatures (auth_signature.go) *)

(** The signature manager: the signature, the content, the method and the path. *)
Class SignatureManager (P X : Type) := {
  Verify : string -> string -> string -> string -> M (St P X) (option error)
}.

Module AuthSignature.
Definition SignatureProtocol := "signature".
Definition SignatureParameter := "signature".

Section Methods.
Context {P X : Type} `{Lx : !Lens X AuthContext, Sm : !SignatureManager P X}.
Definition Handle : M (St P X) (bool * option error) :=
  traced_exit "AuthSignature.Handle" (fun c =>
    let* requestSignature := GetAuthParameter SignatureProtocol SignatureParameter in
    if decide (requestSignature = "") then ret ((false, None), None)
    else
      let* content := request request_content in
      let* method := request request_method in
      let* path := request request_path in
      let* err := Verify requestSignature content method path in
      ret ((true, err), err)).
End Methods.
End AuthSignature.

(** ** Logins (auth_login_phash.go) *)

Module LoginHandler.
Definition LoginProtocol := "login_phash".
Definition LoginName := "login".
Definition SaltName := "login-salt".
Definition PasswordHashName := "login-phash".
Definition ErrorCodeLoginFailed := "login_failed".
Definition ErrorCodeCredentialsRequired := "login_credentials_required".
Definition ErrorDescriptions : gmap string string := list_to_map
  [(ErrorCodeLoginFailed, "Invalid login or password.");
   (ErrorCodeCredentialsRequired, "Credentials hash must be provided in request.")].
Definition ErrorProtocolCodes : gmap string Z := list_to_map
  [(ErrorCodeLoginFailed, 401%Z); (ErrorCodeCredentialsRequired, 401%Z)].

Section Methods.
Context {P C : Type} `{Eu : !Engine UserBaseDB, Un : !Uniuri}.
Local Abbreviation act := (M (St P (AuthWorld C))).

(** The answer to a login that is not known: a salt is sent anyway. *)
Definition reject (phash : string) : act unit :=
  if decide (phash = "") then
    let* salt := on (GenerateString []) in
    SetAuthParameter LoginProtocol SaltName salt ;;
    SetGenericErrorCode ErrorCodeCredentialsRequired []
  else SetGenericErrorCode ErrorCodeLoginFailed [].

Definition Handle (validators : UserValidators) : act (bool * option error) :=
  traced_exit "LoginHandler.Handle" (fun c =>
    let* phash := GetAuthParameter LoginProtocol PasswordHashName in
    let* login := GetAuthParameter LoginProtocol LoginName in
    if decide (login = "") then ret ((false, None), None)
    else
      match ValidateLogin validators login with
      | Some _ =>
          let err := Some (Native "invalid login format") in
          reject phash ;; ret ((true, err), err)
      | None =>
          let* '(dbUser, err) := UserController.FindAuthUser login in
          match err, dbUser with
          | Some _, _ =>
              SetMessage c "failed to load user" ;;
              SetGenericErrorCode ErrorCodeInternalServerError [] ;;
              ret ((true, err), err)
          | None, None =>
              SetMessage c "user not found" ;;
              reject phash ;; ret ((true, None), None)
          | None, Some dbUser =>
              if IsBlocked dbUser then
                SetGenericErrorCode ErrorCodeLoginFailed [] ;;
                ret ((true, Some (Native "user blocked")), Some (Native "user blocked"))
              else
                match Phash dbUser with
                | None =>
                    SetMessage c "user must be of UserWithPasswordHash interface" ;;
                    SetGenericErrorCode ErrorCodeInternalServerError [] ;;
                    ret ((true, None), None)
                | Some (hash, salt) =>
                    if decide (phash <> "") then
                      if negb (CheckPasswordHash hash phash) then
                        SetGenericErrorCode ErrorCodeLoginFailed [] ;;
                        ret ((true, Some (Native "invalid password hash")), Some (Native "invalid password hash"))
                      else
                        SetAuthUser (Some dbUser) ;;
                        ret ((true, None), None)
                    else
                      SetAuthParameter LoginProtocol SaltName salt ;;
                      SetGenericErrorCode ErrorCodeCredentialsRequired [] ;;
                      (* a new error, not the variable recorded on exit *)
                      ret ((true, Some (Native "credentials not provided")), None)
                end
          end
      end).
End Methods.

Section Facts.
Context {P C : Type} `{Eu : !Engine UserBaseDB, Euo : !EngineOk UserBaseDB, Un : !Uniuri}.
Implicit Types (o : Op P) (x : AuthWorld C).

Definition parameter (c : AuthContext) (name : string) : string :=
  default "" (request_headers c !! auth_header LoginProtocol name).

(** The row the request logs in as: it has the login, is not blocked, and its hash is the one
    in the request. *)
Definition credentials (c : AuthContext) (row : UserBaseDB) : Prop :=
  parameter c LoginName = LOGIN row /\ LOGIN row <> "" /\ BLOCKED row = false /\
  parameter c PasswordHashName = PASSWORD_HASH row /\ PASSWORD_HASH row <> "".

(** The result of the handler: a user is set only for credentials; otherwise the context keeps
    its user, and a found section without an error has a generic error. *)
Definition post (validators : UserValidators) (r : bool * option error) o x o' x' : Prop :=
  frame x x' /\ rows (w_sessions x') = rows (w_sessions x) /\ rows (w_clients x') = rows (w_clients x) /\
  session_ (w_ctx x') = session_ (w_ctx x) /\ client_ (w_ctx x') = client_ (w_ctx x) /\
  ((r = (true, None) /\ o' = o /\ ValidateLogin validators (parameter (w_ctx x) LoginName) = None /\
    exists row, row ∈ rows (w_users x) /\ credentials (w_ctx x) row /\ authUser (w_ctx x') = Some (auth_user row)) \/
   (r = (false, None) /\ o' = o /\ parameter (w_ctx x) LoginName = "" /\ authUser (w_ctx x') = authUser (w_ctx x)) \/
   (r.1 = true /\ genericError o' <> None /\ authUser (w_ctx x') = authUser (w_ctx x) /\
    (r.2 = None -> parameter (w_ctx x) LoginName <> "" /\
       Forall (fun row => LOGIN row <> parameter (w_ctx x) LoginName) (rows (w_users x))))).

Lemma spec_reject phash (Q : unit -> Op P -> AuthWorld C -> Prop) o x :
  (forall o' h env, genericError o' <> None -> same_clock (w_env x) env -> Q tt o' (put (with_response h (w_ctx x)) (put (env : Env) x))) ->
  spec (reject phash) Q o x.
Proof.
  intros HQ. unfold reject. case_decide; spec_go.
  - apply spec_on. unfold wp, GenerateString. cbn [fst snd]. handler_go. apply HQ; [apply AuthCsrf.with_code_set|apply same_clock_tick].
  - specialize (HQ (with_code ErrorCodeLoginFailed o) (response_headers (w_ctx x)) (w_env x) (AuthCsrf.with_code_set _ _) (same_clock_refl _)).
    by destruct x as [[] ? ? ? ? ? ? ?].
Qed.

Lemma spec_login validators (Q : bool * option error -> Op P -> AuthWorld C -> Prop) o x :
  (forall r o' x', post validators r o x o' x' -> Q r o' x') -> spec (Handle validators) Q o x.
Proof.
  intros HQ. unfold Handle. handler_go. fold (parameter (w_ctx x) PasswordHashName). fold (parameter (w_ctx x) LoginName).
  set (login := parameter (w_ctx x) LoginName) in *. set (phash := parameter (w_ctx x) PasswordHashName) in *.
  case_decide as Hl; handler_go.
  { apply HQ. unfold post. do 5 (split; [done|]). right; left. by split_and!. }
  assert (Hfail : forall e o' x', genericError o' <> None -> frame x x' -> rows (w_sessions x') = rows (w_sessions x) ->
    rows (w_clients x') = rows (w_clients x) -> session_ (w_ctx x') = session_ (w_ctx x) ->
    client_ (w_ctx x') = client_ (w_ctx x) -> authUser (w_ctx x') = authUser (w_ctx x) ->
    (e = None -> Forall (fun row => LOGIN row <> login) (rows (w_users x))) -> Q (true, e) o' x').
  { intros e o' x' Hg ? ? ? ? ? Hu Hn. apply HQ. unfold post. do 5 (split; [done|]). right; right.
    split; [done|]. split; [done|]. split; [done|]. intros He. split; [exact Hl|by apply Hn]. }
  destruct (ValidateLogin validators login) as [err|] eqn:Ev; handler_go.
  { apply spec_reject. intros. handler_go. by apply Hfail. }
  apply spec_FindAuthUser. intros [u e] x1 Hc Hf Hs Hcl Hr. cbn [fst snd].
  assert (Hfail1 : forall e o', genericError o' <> None ->
    (e = None -> Forall (fun row => LOGIN row <> login) (rows (w_users x))) -> Q (true, e) o' x1).
  { intros. apply Hfail; by rewrite ?Hc. }
  destruct e as [e|]; [destruct u; [done|]; handler_go; by apply Hfail1; [apply AuthCsrf.with_code_set|]|].
  destruct u as [u|]; handler_go.
  2:{ apply spec_reject. intros o' h env Hg Hclock. handler_go.
      apply Hfail; try done; cbn; try by rewrite ?Hc.
      eapply frame_trans; [exact Hf|]. repeat split; [..|done]; cbn. }
  destruct Hr as (row & Hin & Hlog & ->). cbn [IsBlocked Phash auth_user].
  destruct (BLOCKED row) eqn:Eb; handler_go; [by apply Hfail1; [apply AuthCsrf.with_code_set|]|].
  case_decide as Hp; handler_go.
  - unfold CheckPasswordHash, HashEqual, hmac_Equal. case_bool_decide as Eh; cbn [negb]; handler_go.
    + apply HQ. unfold post. split; [done|]. split; [done|]. split; [done|]. cbn. rewrite Hc.
      do 2 (split; [done|]). left. split_and!; [done|done|done|]. exists row. split_and!; try done. unfold credentials. fold login phash. split_and!; congruence.
    + by apply Hfail1; [apply AuthCsrf.with_code_set|].
  - apply Hfail; try done; cbn; try by rewrite Hc. apply AuthCsrf.with_code_set.
Qed.

(** [C4] Logins.  The handler sets a user only when the request has the login and the password
    hash of a user that is not blocked, and it is that user; then there is no error.  In every
    other case the user of the context stays, and either the request has no login, or there is a
    generic error.  No error is returned for an unknown login: only the generic error tells.
    Sessions, users and the session of the request do not change. *)
Theorem login_checks validators (s : St P (AuthWorld C)) :
  let '(r, s') := Handle validators s in post validators r (st_op s) (st_ext s) (st_op s') (st_ext s').
Proof.
  destruct s as [t o x].
  pose proof (spec_login validators (fun r o' x' => post validators r o x o' x') o x ltac:(done) t) as HS.
  by destruct (Handle _ _) as [r s'].
Qed.

Lemma login_unique (rs : list UserBaseDB) r r' : table_ok rs -> r ∈ rs -> r' ∈ rs -> LOGIN r = LOGIN r' -> r = r'.
Proof.
  intros Ht Hr Hr' E. apply (unique_id_inj ["login"] rs); try done; [set_solver|].
  change (index_key ["login"] r) with [Some (VStr (LOGIN r))].
  change (index_key ["login"] r') with [Some (VStr (LOGIN r'))]. by rewrite E.
Qed.

(** Who knows the password gets in.  With unique logins, a request with the credentials of a
    user is accepted and this user is set, unless the database fails. *)
Theorem login_complete validators (s : St P (AuthWorld C)) row :
  table_ok (rows (w_users (st_ext s))) -> row ∈ rows (w_users (st_ext s)) ->
  credentials (w_ctx (st_ext s)) row -> ValidateLogin validators (LOGIN row) = None ->
  let '(r, s') := Handle validators s in
  (r = (true, None) /\ authUser (w_ctx (st_ext s')) = Some (auth_user row) /\ st_op s' = st_op s) \/
  (exists e, r = (true, Some e) /\ authUser (w_ctx (st_ext s')) = authUser (w_ctx (st_ext s))).
Proof.
  destruct s as [t o x]. cbn [st_ext st_op]. intros Hok Hin (Hlog & Hne & Hb & Hph & Hhne) Hv.
  enough (HS : spec (Handle validators) (fun r o' x' =>
    (r = (true, None) /\ authUser (w_ctx x') = Some (auth_user row) /\ o' = o) \/
    (exists e, r = (true, Some e) /\ authUser (w_ctx x') = authUser (w_ctx x))) o x).
  { specialize (HS t). cbn in HS. by destruct (Handle _ _) as [r [t' o' x']]. }
  unfold Handle. handler_go. fold (parameter (w_ctx x) PasswordHashName). fold (parameter (w_ctx x) LoginName).
  rewrite Hlog, Hph, decide_False, Hv by done. handler_go.
  apply spec_FindAuthUser. intros [u e] x1 Hc _ _ _ Hr. cbn [fst snd].
  destruct e as [e|]; [destruct u; [done|]; handler_go; right; exists e; by rewrite Hc|].
  destruct u as [u|].
  2:{ exfalso. rewrite Forall_forall in Hr. by apply (Hr row). }
  destruct Hr as (row' & Hin' & Hlog' & ->).
  assert (row' = row) as -> by (by eapply login_unique). cbn [IsBlocked Phash auth_user]. rewrite Hb, decide_True by done.
  unfold CheckPasswordHash, HashEqual, hmac_Equal. rewrite bool_decide_eq_true_2 by done. cbn [negb]. handler_go.
  by left.
Qed.
End Facts.
End LoginHandler.
