(* ===== verification/AuthToken.v ===== *)
(** * auth/auth_methods/auth_token: access and refresh tokens

    [CheckToken] authenticates a request by the token it carries, renews tokens, and logs out;
    [NewToken] gives tokens to a user some other handler has authenticated.  The handlers return
    early in many places: the steps of the code are actions with the value to go on with or the
    answer to return, composed by [let?]. *)
From S2P Require Import Prelude GoTime Utils Common Errors OpContext Db Crud Auth Crypt AuthParams Cache Session Users AuthWorld AuthMethods.
Open Scope go_scope.

(** ** Early returns *)

Definition bind_or {S A R} (m : M S (A + R)) (k : A -> M S R) : M S R :=
  let* r := m in
  match r with
  | inl a => k a
  | inr r => ret r
  end.
Notation "'let?' x := m 'in' k" := (bind_or m (fun x => k))
  (at level 10, x name, m at level 100, k at level 200) : go_scope.

(** The answer of a handler with the value of its variable [err], which is recorded on exit. *)
Definition answer := ((bool * option error) * option error)%type.
Definition answers (found : bool) (err : option error) : answer := ((found, err), err).

(** ** Tokens (auth_token.go) *)

Definition CheckTokenProtocol := "check_token".
Definition TokenProtocol := "token".
Definition NewTokenProtocol := "new_token".
Definition AccessTokenName := "access-token".
Definition RefreshTokenName := "refresh-token".

Definition ErrorCodeTokenExpired := "auth_token_expired".
Definition ErrorCodeInvalidToken := "auth_token_invalid".
Definition ErrorCodeSessionExpired := "session_expired".
Definition ErrorCodeUnknownUser := "unknown_user".

Definition ErrorDescriptions : gmap string string := list_to_map
  [(ErrorCodeTokenExpired, "Provided authentication token token expired.");
   (ErrorCodeInvalidToken, "Invalid authentication token token."); (ErrorCodeSessionExpired, "Session expired.");
   (ErrorCodeUnknownUser, "Unknown user.")].
Definition ErrorProtocolCodes : gmap string Z := list_to_map
  [(ErrorCodeTokenExpired, 401%Z); (ErrorCodeInvalidToken, 401%Z); (ErrorCodeSessionExpired, 401%Z);
   (ErrorCodeUnknownUser, 401%Z)].

Definition ReloginRequired (code : string) : bool :=
  bool_decide (code = ErrorCodeInvalidToken) || bool_decide (code = ErrorCodeSessionExpired) ||
  bool_decide (code = ErrorCodeUnknownUser).
Definition RefreshRequired (code : string) : bool := bool_decide (code = ErrorCodeTokenExpired).

Record Token := {
  t_exp : ExpireToken.t; t_Id : string; t_UserId : string; t_UserDisplay : string; t_SessionId : string;
  t_Tenancy : string
}.
Definition no_token : Token :=
  {| t_exp := ExpireToken.zero; t_Id := ""; t_UserId := ""; t_UserDisplay := ""; t_SessionId := ""; t_Tenancy := "" |}.

Record AuthTokenHandlerConfig := {
  ACCESS_TOKEN_TTL_SECONDS : Z;
  REFRESH_TOKEN_TTL_SECONDS : Z;
  AUTO_PROLONGATE_ACCESS : bool;
  AUTO_PROLONGATE_REFRESH : bool;
  REFRESH_PATH : string;
  LOGOUT_PATH : string
}.

(** The defaults of the configuration. *)
Definition default_config : AuthTokenHandlerConfig :=
  {| ACCESS_TOKEN_TTL_SECONDS := 900; REFRESH_TOKEN_TTL_SECONDS := 43200; AUTO_PROLONGATE_ACCESS := true;
     AUTO_PROLONGATE_REFRESH := true; REFRESH_PATH := "/auth/refresh"; LOGOUT_PATH := "/auth/logout" |}.

Section Handlers.
Context {P C : Type} `{En : !AuthParameterEncryption P (AuthWorld C) Token}.
Context `{Es : !Engine SessionBase, Ec : !Engine SessionClientBase, Eu : !Engine UserBaseDB, Di : !Digest, Sc : !StringCoding}.
Local Abbreviation act := (M (St P (AuthWorld C))).

(** ** Generation *)

Definition SessionExpiration (a : AuthTokenHandlerConfig) : M Env Z :=
  let* now := Now in ret (now + int64 (second * REFRESH_TOKEN_TTL_SECONDS a))%Z.

Definition GenToken (protocol paramName : string) (expirationSeconds : Z) : act (option error) :=
  traced "AuthTokenHandler.GenToken" (fun c =>
    let* id := on GenerateRand64 in
    let* sessionId := GetSessionId in
    let* user := AuthUser_ in
    match user with
    | None => ret (Some nil_user)
    | Some user =>
        let* tenancy := request tenancy in
        let* exp := on (ExpireToken.SetTTL expirationSeconds) in
        let token := {| t_exp := exp; t_Id := id; t_UserId := Auth.GetID user; t_UserDisplay := Display user;
                        t_SessionId := sessionId; t_Tenancy := default "" tenancy |} in
        let* err := EncSetAuthParameter protocol paramName token in
        SetError c err
    end).

Definition GenAccessToken (protocol : string) (a : AuthTokenHandlerConfig) : act (option error) :=
  traced "AuthTokenHandler.GenAccessToken" (fun c =>
    let* err := GenToken protocol AccessTokenName (ACCESS_TOKEN_TTL_SECONDS a) in SetError c err).

(** The session is returned with its new expiration. *)
Definition GenRefreshToken (protocol : string) (a : AuthTokenHandlerConfig) (session : SessionBase) :
  act (option error * SessionBase) :=
  traced_exit "AuthTokenHandler.GenRefreshToken" (fun c =>
    let* exp := on (SessionExpiration a) in
    let session := SetExpiration exp session in
    let* err := SessionController.UpdateSessionExpiration session in
    match err with
    | Some _ => SetMessage c "failed to update session expiration" ;; ret ((err, session), err)
    | None =>
        let* err := GenToken protocol RefreshTokenName (REFRESH_TOKEN_TTL_SECONDS a) in
        ret ((err, session), err)
    end).

(** ** The check of a token *)

Definition read_token (c : nat) (protocol : string) (refresh : bool) : act (Token + answer) :=
  let* '(exists_, err, prev) :=
    EncGetAuthParameter protocol (if refresh then RefreshTokenName else AccessTokenName) no_token in
  if negb exists_ then ret (inr (answers false err))
  else
    match err with
    | Some _ =>
        SetMessage c "failed to get encrypted auth parameter" ;;
        SetGenericErrorCode ErrorCodeInvalidToken [] ;;
        ret (inr (answers true err))
    | None =>
        let* expired := on (ExpireToken.Expired (t_exp prev)) in
        if (expired : bool) then
          SetMessage c "token expired" ;;
          SetGenericErrorCode (if refresh then ErrorCodeSessionExpired else ErrorCodeTokenExpired) [] ;;
          ret (inr (answers true err))
        else ret (inl prev)
    end.

Definition refuse {A} (msg code : string) : act (A + answer) :=
  SetGenericErrorCode code [] ;; ret (inr (answers true (Some (Native msg)))).

Definition check_tenancy (prev : Token) : act (unit + answer) :=
  let* tenancy := request tenancy in
  if bool_decide (tenancy <> None) || bool_decide (t_Tenancy prev <> "") then
    if bool_decide (tenancy = None) || bool_decide (t_Tenancy prev <> default "" tenancy) then
      refuse "invalid tenancy" ErrorCodeSessionExpired
    else ret (inl tt)
  else ret (inl tt).

(** The session of the token and the time it was checked at. *)
Definition find_session (prev : Token) : act ((SessionBase * Z) + answer) :=
  let* '(session, err) := SessionController.FindSession (t_SessionId prev) in
  match session, err with
  | Some session, None =>
      if negb (Valid session) then refuse "session invalidated" ErrorCodeSessionExpired
      else
        let* now := on Now in
        if (Expiration session <? now)%Z then refuse "session expired" ErrorCodeSessionExpired
        else ret (inl (session, now))
  | _, _ => SetGenericErrorCode ErrorCodeSessionExpired [] ;; ret (inr (answers true err))
  end.

Definition load_user (c : nat) (session : SessionBase) : act (AuthUser + answer) :=
  let* '(user, err) := UserController.FindAuthUser (WithUserBase.UserLogin (ss_user session)) in
  match err, user with
  | Some _, _ =>
      SetMessage c "failed to load user" ;;
      SetGenericErrorCode ErrorCodeInternalServerError [] ;;
      ret (inr (answers true err))
  | None, None =>
      SetMessage c "user not found" ;;
      SetGenericErrorCode ErrorCodeUnknownUser [] ;;
      ret (inr (answers true err))
  | None, Some user =>
      if IsBlocked user then refuse "user blocked" ErrorCodeSessionExpired else ret (inl user)
  end.

(** [if err != nil { ctx.SetGenericErrorCode(internal); return true, err }] *)
Definition internal (m : act (option error)) : act (unit + answer) :=
  let* err := m in
  match err with
  | Some _ => SetGenericErrorCode ErrorCodeInternalServerError [] ;; ret (inr (answers true err))
  | None => ret (inl tt)
  end.

Definition add_tokens (protocol : string) (a : AuthTokenHandlerConfig) (refresh : bool) (session : SessionBase) (now : Z) :
  act answer :=
  let? _ := internal (if refresh || (negb refresh && AUTO_PROLONGATE_ACCESS a) then GenAccessToken protocol a
                      else ret None) in
  let tokenExpirationTime := (now + int64 (second * ACCESS_TOKEN_TTL_SECONDS a))%Z in
  let regenerateRefreshToken :=
    AUTO_PROLONGATE_REFRESH a && (refresh || (Expiration session <? tokenExpirationTime)%Z) in
  let? _ := internal (if regenerateRefreshToken then
                        let* '(err, _) := GenRefreshToken protocol a session in ret err
                      else ret None) in
  ret (answers true None).

Definition logout (session : SessionBase) : act answer :=
  SetAuthUser None ;;
  let? _ := internal (SessionController.InvalidateSession (WithUserBase.UserId (ss_user session)) (Db.GetID session)) in
  ret (answers true None).

Definition CheckToken (protocol : string) (a : AuthTokenHandlerConfig) : act (bool * option error) :=
  traced_exit "AuthTokenHandler.Handle" (fun c =>
    let* path := request request_path in
    let refresh := bool_decide (path = REFRESH_PATH a) in
    let? prev := read_token c protocol refresh in
    let? _ := check_tenancy prev in
    let? found := find_session prev in
    let? user := load_user c found.1 in
    SetAuthUser (Some user) ;;
    SetSessionId (Db.GetID found.1) ;;
    let? _ := internal SessionController.UpdateSessionClient in
    if bool_decide (path <> LOGOUT_PATH a) then add_tokens protocol a refresh found.1 found.2
    else logout found.1).

(** ** New tokens (auth_new_token.go) *)

Definition session_for_user (a : AuthTokenHandlerConfig) : act (SessionBase + answer) :=
  let* sessionId := GetSessionId in
  if decide (sessionId = "") then
    let* exp := on (SessionExpiration a) in
    let* '(session, err) := SessionController.CreateSession exp in
    match session, err with
    | Some session, None => SetSessionId (Db.GetID session) ;; ret (inl session)
    | _, _ => SetGenericErrorCode ErrorCodeInternalServerError [] ;; ret (inr (answers true err))
    end
  else
    let* '(session, err) := SessionController.FindSession sessionId in
    match session, err with
    | Some session, None => ret (inl session)
    | _, _ => SetGenericErrorCode ErrorCodeSessionExpired [] ;; ret (inr (answers true err))
    end.

(** One of the two generations of the refresh token. *)
Definition refresh_token (protocol : string) (a : AuthTokenHandlerConfig) (session : SessionBase) : act (SessionBase + answer) :=
  let* '(err, session) := GenRefreshToken protocol a session in
  match err with
  | Some _ => SetGenericErrorCode ErrorCodeInternalServerError [] ;; ret (inr (answers true err))
  | None => ret (inl session)
  end.

Definition NewToken (protocol : string) (a : AuthTokenHandlerConfig) : act (bool * option error) :=
  traced_exit "AuthNewTokenHandler.Handle" (fun c =>
    let* user := AuthUser_ in
    match user with
    | None => ret (answers false None)
    | Some _ =>
        let? session := session_for_user a in
        let? _ := internal SessionController.UpdateSessionClient in
        let? session := refresh_token protocol a session in
        let? _ := internal (GenAccessToken protocol a) in
        let? _ := refresh_token protocol a session in
        ret (answers true None)
    end).
End Handlers.

(** ** What the steps do *)

Section Facts.
Context {P C : Type} `{En : !AuthParameterEncryption P (AuthWorld C) Token, Eno : !AuthParameterEncryptionOk P (AuthWorld C) Token}.
Context `{Es : !Engine SessionBase, Eso : !EngineOk SessionBase}.
Context `{Ec : !Engine SessionClientBase, Eco : !EngineOk SessionClientBase}.
Context `{Eu : !Engine UserBaseDB, Euo : !EngineOk UserBaseDB, Di : !Digest, Sc : !StringCoding}.
Implicit Types (o : Op P) (x : AuthWorld C).
Local Abbreviation sessions := (fun x => rows (w_sessions x)).
Local Abbreviation users := (fun x => rows (w_users x)).
Local Abbreviation reading x := (env_now (w_env x)).

Lemma spec_bind_or {A R} (m : M (St P (AuthWorld C)) (A + R)) (k : A -> M (St P (AuthWorld C)) R)
    (Q : R -> Op P -> AuthWorld C -> Prop) o x :
  spec m (fun r o' x' => match r with inl a => spec (k a) Q o' x' | inr r => Q r o' x' end) o x ->
  spec (bind_or m k) Q o x.
Proof.
  intros H. apply spec_bind. eapply spec_mono; [|exact H]. intros [a|r] o' x' HQ; [exact HQ|by apply spec_ret].
Qed.

(** The expiration a TTL gives at some reading of the clock. *)
Definition expires_after (x : AuthWorld C) (seconds exp : Z) : Prop :=
  exists k, exp = (reading x k + int64 (second * seconds))%Z.

Lemma expires_after_frame x x' seconds exp : frame x x' -> expires_after x' seconds exp -> expires_after x seconds exp.
Proof. intros (_&_&_&_&E) [k ->]. exists k. by rewrite E. Qed.

(** A token of the response: for the user and the session of the request. *)
Definition token_set (protocol name : string) (ttl : Z) (u : AuthUser) x x' : Prop :=
  exists text tok,
    w_ctx x' = with_response (set_header (auth_header protocol name) text (response_headers (w_ctx x))) (w_ctx x) /\
    text <> "" /\ expires_after x ttl (ExpireToken.Exp (t_exp tok)) /\
    t_SessionId tok = session_ (w_ctx x) /\ t_UserId tok = Auth.GetID u /\ t_Tenancy tok = default "" (tenancy (w_ctx x)) /\
    (sendable tok -> forall y, opened text y = (true, None, tok)).

Lemma spec_GenToken protocol name ttl u (Q : option error -> Op P -> AuthWorld C -> Prop) o x :
  authUser (w_ctx x) = Some u ->
  (forall e x', frame x x' -> w_sessions x' = w_sessions x ->
     match e with Some _ => w_ctx x' = w_ctx x | None => token_set protocol name ttl u x x' end -> Q e o x') ->
  spec (GenToken protocol name ttl) Q o x.
Proof.
  intros Hu HQ. unfold GenToken. spec_go. apply spec_on, wp_GenerateRand64. intros id env Hclock.
  handler_go. cbn -[second]. rewrite Hu. handler_go. apply spec_SetTTL. intros exp [k Hexp]. spec_go.
  apply set_spec.
  - intros err env2 Hc2. spec_go. apply HQ; [|done|done].
    cbn in Hc2. repeat split. unfold same_clock in *. cbn. by rewrite Hc2.
  - intros text env2 Ht Hc2 Ho. spec_go. apply HQ; [|done|].
    + cbn in Hc2. repeat split. unfold same_clock in *. cbn. by rewrite Hc2.
    + eexists text, _. split; [done|]. split; [done|]. split; [|split; [|split; [|split; [|exact Ho]]]]; try done.
      exists k. cbn in Hexp |- *. rewrite Hexp. by rewrite Hclock.
Qed.

Lemma spec_GenAccessToken protocol a u (Q : option error -> Op P -> AuthWorld C -> Prop) o x :
  authUser (w_ctx x) = Some u ->
  (forall e x', frame x x' -> w_sessions x' = w_sessions x ->
     match e with Some _ => w_ctx x' = w_ctx x | None => token_set protocol AccessTokenName (ACCESS_TOKEN_TTL_SECONDS a) u x x' end ->
     Q e o x') ->
  spec (GenAccessToken protocol a) Q o x.
Proof.
  intros Hu HQ. unfold GenAccessToken. spec_go. apply (spec_GenToken _ _ _ u); [done|]. intros e x' Hf Hs He.
  spec_go. by apply HQ.
Qed.

Lemma spec_SessionExpiration a (Q : Z -> Op P -> AuthWorld C -> Prop) o x :
  (forall exp, expires_after x (REFRESH_TOKEN_TTL_SECONDS a) exp -> Q exp o (put (tick_env (w_env x)) x)) ->
  spec (on (SessionExpiration a)) Q o x.
Proof. intros H. apply spec_on. unfold wp, SessionExpiration, Now, bind, ret. cbn -[second]. apply H. by eexists. Qed.

(** Only the expiration of a session changes. *)
Definition prolongation (session : SessionBase) (exp : Z) (rs rs' : list SessionBase) : Prop :=
  session_change (fun r => bool_decide (Db.GetID r = Db.GetID session)) (prolongated exp) rs rs'.

Lemma spec_GenRefreshToken protocol a session u (Q : option error * SessionBase -> Op P -> AuthWorld C -> Prop) o x :
  authUser (w_ctx x) = Some u ->
  (forall e exp x', frame x x' -> expires_after x (REFRESH_TOKEN_TTL_SECONDS a) exp ->
     (sessions x' = sessions x \/ prolongation session exp (sessions x) (sessions x')) ->
     match e with
     | Some _ => w_ctx x' = w_ctx x
     | None => token_set protocol RefreshTokenName (REFRESH_TOKEN_TTL_SECONDS a) u x x' /\
               prolongation session exp (sessions x) (sessions x')
     end -> Q (e, SetExpiration exp session) o x') ->
  spec (GenRefreshToken protocol a session) Q o x.
Proof.
  intros Hu HQ. unfold GenRefreshToken. spec_go. apply spec_SessionExpiration. intros exp Hexp.
  set (x1 := put _ x). assert (Hx1 : frame x x1) by (repeat split).
  apply spec_bind, spec_UpdateSessionExpiration. intros e x' (Hctx & Hf & _ & He). cbn [Expiration SetExpiration] in He.
  assert (Hf' : frame x x') by (by eapply frame_trans).
  destruct e as [e|]; spec_go.
  - by apply (HQ (Some e) exp); [done|done|left|].
  - apply (spec_GenToken _ _ _ u); [by rewrite Hctx|]. intros e x2 Hf2 Hs2 He2. spec_go.
    apply HQ; [by eapply frame_trans|done|right; by rewrite Hs2|].
    destruct e as [e|]; [by rewrite He2, Hctx|]. rewrite Hs2. split; [|exact He].
    destruct He2 as (text & tok & E & ? & Ht & ?). exists text, tok. rewrite Hctx in *.
    split; [done|]. split; [done|]. split; [by eapply expires_after_frame|done].
Qed.

Lemma spec_internal (m : M (St P (AuthWorld C)) (option error)) (Q : unit + answer -> Op P -> AuthWorld C -> Prop) o x :
  spec m (fun e o' x' => match e with
                         | Some _ => Q (inr (answers true e)) (with_code ErrorCodeInternalServerError o') x'
                         | None => Q (inl tt) o' x'
                         end) o x ->
  spec (internal m) Q o x.
Proof. intros H. apply spec_bind. eapply spec_mono; [|exact H]. intros [e|] o' x' HQ; by spec_go. Qed.

(** ** Who is authenticated *)

Definition token_name (a : AuthTokenHandlerConfig) (c : AuthContext) : string :=
  if bool_decide (request_path c = REFRESH_PATH a) then RefreshTokenName else AccessTokenName.
(** What the header of the token opens to. *)
Definition token_of (protocol : string) (a : AuthTokenHandlerConfig) (c : AuthContext) : bool * option error * Token :=
  opened (default "" (request_headers c !! auth_header protocol (token_name a c))) no_token.

(** The token is of a valid session, in the tenancy of the request, of a user that is not blocked;
    the token and the session had not expired at a reading of the clock. *)
Definition authenticated (protocol : string) (a : AuthTokenHandlerConfig) x (tok : Token) (session : SessionBase) (row : UserBaseDB) : Prop :=
  token_of protocol a (w_ctx x) = (true, None, tok) /\
  (reading x (env_tick (w_env x)) <= ExpireToken.Exp (t_exp tok))%Z /\
  t_Tenancy tok = default "" (tenancy (w_ctx x)) /\
  session ∈ sessions x /\ Db.GetID session = t_SessionId tok /\ Valid session = true /\
  (exists k, reading x k <= Expiration session)%Z /\
  row ∈ users x /\ LOGIN row = WithUserBase.UserLogin (ss_user session) /\ BLOCKED row = false.

(** A request that is not authenticated keeps its user and its session, and has a generic error
    for the response, unless it has no token. *)
Definition refused x (r : bool * option error) o' x' : Prop :=
  r.1 = true /\ genericError o' <> None /\ w_ctx x' = w_ctx x /\ frame x x' /\ sessions x' = sessions x.

Lemma spec_read_token c protocol a (Q : Token + answer -> Op P -> AuthWorld C -> Prop) o x :
  ((token_of protocol a (w_ctx x)).1.1 = false -> Q (inr (answers false (token_of protocol a (w_ctx x)).1.2)) o x) ->
  (forall r o' x', refused x r.1 o' x' -> Q (inr r) o' x') ->
  (forall tok, token_of protocol a (w_ctx x) = (true, None, tok) ->
     (reading x (env_tick (w_env x)) <= ExpireToken.Exp (t_exp tok))%Z -> Q (inl tok) o (put (tick_env (w_env x)) x)) ->
  spec (read_token c protocol (bool_decide (request_path (w_ctx x) = REFRESH_PATH a))) Q o x.
Proof.
  intros Hn Hr Hq. unfold read_token. spec_go. apply get_spec. fold (token_name a (w_ctx x)).
  change (opened _ _) with (token_of protocol a (w_ctx x)).
  destruct (token_of protocol a (w_ctx x)) as [[found err] tok] eqn:E. cbn [fst snd] in *.
  destruct found; cbn [negb]; [|spec_go; by apply Hn].
  destruct err as [err|]; handler_go; [apply Hr; repeat split; apply AuthCsrf.with_code_set|].
  destruct (Z.ltb_spec (ExpireToken.Exp (t_exp tok)) (reading x (env_tick (w_env x)))); handler_go; [|by apply Hq].
  apply Hr. repeat split. apply AuthCsrf.with_code_set.
Qed.

Lemma spec_refuse {A} msg code (Q : A + answer -> Op P -> AuthWorld C -> Prop) o x :
  (forall r o', refused x r.1 o' x -> Q (inr r) o' x) -> spec (refuse msg code) Q o x.
Proof. intros H. unfold refuse. spec_go. apply H. repeat split. apply AuthCsrf.with_code_set. Qed.

Lemma spec_check_tenancy tok (Q : unit + answer -> Op P -> AuthWorld C -> Prop) o x :
  (forall r o', refused x r.1 o' x -> Q (inr r) o' x) ->
  (t_Tenancy tok = default "" (tenancy (w_ctx x)) -> Q (inl tt) o x) ->
  spec (check_tenancy tok) Q o x.
Proof.
  intros Hr Hq. unfold check_tenancy. handler_go. destruct (tenancy (w_ctx x)) as [t|]; cbn [default from_option].
  - rewrite (bool_decide_eq_true_2 (Some t <> None)), (bool_decide_eq_false_2 (Some t = None)) by done. cbn [orb].
    case_bool_decide as Ht; [by apply spec_refuse|]. spec_go. apply Hq. by destruct (decide (t_Tenancy tok = t)).
  - rewrite (bool_decide_eq_false_2 (None <> None)), (bool_decide_eq_true_2 (None = None)) by auto. cbn [orb].
    case_bool_decide as Ht; [by apply spec_refuse|]. spec_go. apply Hq. by destruct (decide (t_Tenancy tok = "")).
Qed.

Lemma spec_find_session tok (Q : (SessionBase * Z) + answer -> Op P -> AuthWorld C -> Prop) o x :
  (forall r o' x', refused x r.1 o' x' -> Q (inr r) o' x') ->
  (forall session now x', w_ctx x' = w_ctx x -> frame x x' -> sessions x' = sessions x ->
     session ∈ sessions x -> Db.GetID session = t_SessionId tok -> Valid session = true ->
     (exists k, now = reading x k) -> (now <= Expiration session)%Z -> Q (inl (session, now)) o x') ->
  spec (find_session tok) Q o x.
Proof.
  intros Hr Hq. unfold find_session. spec_go. apply spec_FindSession. intros [session e] x1 Hc Hf Hs _ Hres. cbn [fst snd].
  assert (Href : forall (r : answer) o', r.1.1 = true -> genericError o' <> None -> Q (inr r) o' x1).
  { intros r o' ? ?. by apply Hr. }
  destruct session as [session|], e as [e|]; try done; spec_go.
  - destruct (Valid session) eqn:Ev; cbn [negb].
    2:{ apply spec_refuse. intros r o' (? & ? & _). by apply Href. }
    spec_go. apply spec_on. unfold wp, Now. cbn [fst snd].
    set (x2 := put _ x1). assert (Hf2 : frame x x2) by (eapply frame_trans; [exact Hf|repeat split]).
    change (env_now (view x1) (env_tick (view x1))) with (reading x1 (env_tick (w_env x1))).
    destruct (Z.ltb_spec (Expiration session) (reading x1 (env_tick (w_env x1)))) as [Hlt|Hle].
    + apply spec_refuse. intros r o' (? & ? & _). apply Hr. by repeat split; try apply Hf2.
    + spec_go. destruct Hres as [[Hin Hid]|Hz]; [|by rewrite Hz in Ev].
      apply Hq; try done. exists (env_tick (w_env x1)). destruct Hf as (_&_&_&_&Hclk). by rewrite Hclk.
  - apply Href; [done|apply AuthCsrf.with_code_set].
Qed.

Lemma spec_load_user c session (Q : AuthUser + answer -> Op P -> AuthWorld C -> Prop) o x :
  (forall r o' x', refused x r.1 o' x' -> Q (inr r) o' x') ->
  (forall row x', w_ctx x' = w_ctx x -> frame x x' -> sessions x' = sessions x ->
     row ∈ users x -> LOGIN row = WithUserBase.UserLogin (ss_user session) -> BLOCKED row = false ->
     Q (inl (auth_user row)) o x') ->
  spec (load_user c session) Q o x.
Proof.
  intros Hr Hq. unfold load_user. spec_go. apply spec_FindAuthUser. intros [u e] x1 Hc Hf Hs _ Hres. cbn [fst snd].
  assert (Href : forall (r : answer) o', r.1.1 = true -> genericError o' <> None -> Q (inr r) o' x1).
  { intros r o' ? ?. by apply Hr. }
  destruct e as [e|]; [destruct u; [done|]; spec_go; apply Href; [done|apply AuthCsrf.with_code_set]|].
  destruct u as [u|]; spec_go; [|apply Href; [done|apply AuthCsrf.with_code_set]].
  destruct Hres as (row & Hin & Hlog & ->). cbn [IsBlocked auth_user]. destruct (BLOCKED row) eqn:Eb.
  - apply spec_refuse. intros r o' (? & ? & _). by apply Href.
  - spec_go. by apply Hq.
Qed.

(** The user and the session of the context stay, the expiration of the session may change. *)
Definition kept session x x' : Prop :=
  frame x x' /\ authUser (w_ctx x') = authUser (w_ctx x) /\ session_ (w_ctx x') = session_ (w_ctx x) /\
  (sessions x' = sessions x \/ exists exp, prolongation session exp (sessions x) (sessions x')).

Lemma token_set_kept protocol name ttl u x x' :
  token_set protocol name ttl u x x' -> authUser (w_ctx x') = authUser (w_ctx x) /\ session_ (w_ctx x') = session_ (w_ctx x).
Proof. intros (text & tok & -> & _). done. Qed.

Lemma spec_add_tokens protocol a refresh session now u (Q : answer -> Op P -> AuthWorld C -> Prop) o x :
  authUser (w_ctx x) = Some u ->
  (forall e o' x', kept session x x' -> (match e with Some _ => genericError o' <> None | None => o' = o end) ->
     Q (answers true e) o' x') ->
  spec (add_tokens protocol a refresh session now) Q o x.
Proof.
  intros Hu HQ. unfold add_tokens. apply spec_bind_or, spec_internal.
  assert (Hsnd : forall x1, kept session x x1 -> sessions x1 = sessions x -> spec
    (let? _ := internal (if AUTO_PROLONGATE_REFRESH a &&
        (refresh || (Expiration session <? now + int64 (second * ACCESS_TOKEN_TTL_SECONDS a))%Z)
        then let* '(err, _) := GenRefreshToken protocol a session in ret err else ret None) in
     ret (answers true None)) Q o x1).
  { intros x1 (Hf1 & Hu1 & Hs1 & _) Hse1. apply spec_bind_or, spec_internal. destruct (_ && _); spec_go.
    - apply (spec_GenRefreshToken _ _ _ u); [congruence|]. intros e exp x2 Hf2 _ Hse2 He2. spec_go.
      assert (Hk : kept session x x2).
      { assert (Hc2 : authUser (w_ctx x2) = authUser (w_ctx x1) /\ session_ (w_ctx x2) = session_ (w_ctx x1)).
        { destruct e; [by rewrite He2|]. destruct He2 as [He2 _]. by eapply token_set_kept. }
        destruct Hc2. rewrite Hse1 in Hse2. split_and!; [by eapply frame_trans|congruence|congruence|].
        destruct Hse2 as [|Hp]; [by left|right; by exists exp]. }
      destruct e as [e|]; spec_go; apply HQ; try done. apply AuthCsrf.with_code_set.
    - apply HQ; [|done]. split_and!; [done|done|done|by left]. }
  destruct (refresh || (negb refresh && _)); spec_go.
  - apply (spec_GenAccessToken _ _ u); [done|]. intros e x1 Hf1 Hs1 He1. destruct e as [e|].
    + apply HQ; [|apply AuthCsrf.with_code_set]. split_and!; [done|by rewrite He1|by rewrite He1|left; by rewrite Hs1].
    + destruct (token_set_kept _ _ _ _ _ _ He1). apply Hsnd; [|by rewrite Hs1].
      split_and!; [done|done|done|left; by rewrite Hs1].
  - apply Hsnd; [|done]. split_and!; [done|done|done|by left].
Qed.

Lemma spec_logout session (Q : answer -> Op P -> AuthWorld C -> Prop) o x :
  (forall e o' x', frame x x' -> authUser (w_ctx x') = None -> session_ (w_ctx x') = session_ (w_ctx x) ->
     match e with
     | Some _ => genericError o' <> None /\ sessions x' = sessions x
     | None => o' = o /\ session_change (of_session (WithUserBase.UserId (ss_user session)) (Db.GetID session))
                           invalidated (sessions x) (sessions x')
     end -> Q (answers true e) o' x') ->
  spec (logout session) Q o x.
Proof.
  intros HQ. unfold logout. handler_go. apply spec_bind_or, spec_internal, spec_InvalidateSession.
  intros e x' (Hc & Hf & _ & He). assert (Hf' : frame x x') by (by eapply frame_trans, Hf).
  destruct e as [e|]; spec_go; apply HQ; try done; rewrite ?Hc; try done.
  split; [apply AuthCsrf.with_code_set|done].
Qed.

(** What [CheckToken] makes of a request: without a token nothing happens; it is refused; or it is
    authenticated, and then the user and the session of the token are set, a request for another
    path than the logout keeps them, and the logout removes the user and invalidates the session. *)
Definition check_post (protocol : string) (a : AuthTokenHandlerConfig) (r : bool * option error) o x o' x' : Prop :=
  ((token_of protocol a (w_ctx x)).1.1 = false /\ r = (false, (token_of protocol a (w_ctx x)).1.2) /\ o' = o /\ x' = x) \/
  refused x r o' x' \/
  (exists tok session row, authenticated protocol a x tok session row /\
    r.1 = true /\ frame x x' /\ session_ (w_ctx x') = Db.GetID session /\
    match r.2 with
    | Some _ => genericError o' <> None
    | None => o' = o
    end /\
    if decide (request_path (w_ctx x) = LOGOUT_PATH a) then
      match r.2 with
      | None => authUser (w_ctx x') = None /\
                session_change (of_session (WithUserBase.UserId (ss_user session)) (Db.GetID session)) invalidated
                  (sessions x) (sessions x')
      | Some _ => sessions x' = sessions x
      end
    else
      authUser (w_ctx x') = Some (auth_user row) /\
      (sessions x' = sessions x \/ exists exp, prolongation session exp (sessions x) (sessions x'))).

Lemma spec_CheckToken protocol a (Q : bool * option error -> Op P -> AuthWorld C -> Prop) o x :
  (forall r o' x', check_post protocol a r o x o' x' -> Q r o' x') -> spec (CheckToken protocol a) Q o x.
Proof.
  intros HQ. unfold CheckToken. handler_go.
  assert (Href : forall (r : answer) o' x', refused x r.1 o' x' -> Q r.1 o' x').
  { intros r o' x' H. apply HQ. by right; left. }
  assert (Hmono : forall y (r : bool * option error) o' x', w_ctx y = w_ctx x -> frame x y -> sessions y = sessions x ->
    refused y r o' x' -> refused x r o' x').
  { intros y r o' x' E1 E2 E3 (? & ? & ? & ? & ?). repeat split; try congruence; by eapply frame_trans. }
  apply spec_bind_or, spec_read_token; [|exact Href|].
  { intros Hn. apply HQ. left. by repeat split. }
  intros tok Htok Hexp. set (x1 := put _ x).
  apply spec_bind_or, spec_check_tenancy; [intros r o' Hr; by eapply Href, Hmono, Hr|].
  intros Hten. apply spec_bind_or, spec_find_session; [intros r o' x' Hr; by eapply Href, Hmono, Hr|].
  intros session now x2 Hc2 Hf2 Hs2 Hin Hid Hv [k Hk] Hnow. cbn [fst snd].
  assert (Hf2' : frame x x2) by (by eapply frame_trans, Hf2).
  apply spec_bind_or, spec_load_user; [intros r o' x' Hr; by eapply Href, Hmono, Hr|].
  intros row x3 Hc3 Hf3 Hs3 Hrow Hlog Hb.
  assert (Hf3' : frame x x3) by (by eapply frame_trans).
  assert (Hauth : authenticated protocol a x tok session row).
  { split_and!; try done.
    - exists k. rewrite Hk in Hnow. exact Hnow.
    - destruct Hf2' as (Hu & _). by rewrite <- Hu. }
  handler_go. set (x4 := put _ _).
  assert (Hf4 : frame x x4) by (eapply frame_trans; [exact Hf3'|repeat split]).
  assert (Hse4 : sessions x4 = sessions x) by (etransitivity; [exact Hs3|exact Hs2]).
  apply spec_bind_or, spec_internal, (spec_UpdateSessionClient (auth_user row)); [done|].
  intros e x5 (Hf5 & Hse5 & He5). assert (Hf5' : frame x x5) by (by eapply frame_trans).
  assert (Hc5 : authUser (w_ctx x5) = Some (auth_user row) /\ session_ (w_ctx x5) = Db.GetID session).
  { destruct e as [e|]; [by rewrite He5|]. by destruct He5 as (id & -> & _). }
  destruct Hc5 as [Hu5 Hid5].
  assert (Hse5' : sessions x5 = sessions x) by (etransitivity; [exact Hse5|exact Hse4]).
  destruct e as [e|].
  { apply HQ. right; right. exists tok, session, row. split; [done|]. split; [done|]. split; [done|]. split; [done|].
    split; [apply AuthCsrf.with_code_set|]. case_decide; [done|]. split; [done|by left]. }
  case_bool_decide as Hpath.
  - apply (spec_add_tokens _ _ _ _ _ (auth_user row)); [done|]. intros e o' x6 (Hf6 & Hu6 & Hid6 & Hse6) He6.
    apply HQ. right; right. exists tok, session, row. split; [done|]. split; [done|]. split; [by eapply frame_trans|].
    split; [by rewrite Hid6|]. split; [exact He6|]. rewrite decide_False by done.
    split; [by rewrite Hu6|]. rewrite <- Hse5'. exact Hse6.
  - apply spec_logout. intros e o' x6 Hf6 Hu6 Hid6 He6.
    apply HQ. right; right. exists tok, session, row. split; [done|]. split; [done|]. split; [by eapply frame_trans|].
    split; [by rewrite Hid6|]. rewrite decide_True by (by destruct (decide (request_path (w_ctx x) = LOGOUT_PATH a))).
    cbn [snd answers fst]. rewrite <- Hse5'. by destruct e as [e|], He6.
Qed.

(** ** Who gets in *)

(** A token that is accepted at any reading of the clock. *)
Definition acceptable (protocol : string) (a : AuthTokenHandlerConfig) x (tok : Token) (session : SessionBase) (row : UserBaseDB) : Prop :=
  token_of protocol a (w_ctx x) = (true, None, tok) /\
  t_Tenancy tok = default "" (tenancy (w_ctx x)) /\
  (forall k, reading x k <= ExpireToken.Exp (t_exp tok) /\ reading x k <= Expiration session)%Z /\
  session ∈ sessions x /\ Db.GetID session = t_SessionId tok /\ Valid session = true /\
  (forall r, r ∈ sessions x -> Db.GetID r = t_SessionId tok -> r = session) /\
  row ∈ users x /\ LOGIN row = WithUserBase.UserLogin (ss_user session) /\ BLOCKED row = false /\
  (forall r, r ∈ users x -> LOGIN r = LOGIN row -> r = row).

Lemma spec_check_tenancy_ok tok (Q : unit + answer -> Op P -> AuthWorld C -> Prop) o x :
  t_Tenancy tok = default "" (tenancy (w_ctx x)) -> Q (inl tt) o x -> spec (check_tenancy tok) Q o x.
Proof.
  intros Ht HQ. unfold check_tenancy. handler_go. rewrite Ht. destruct (tenancy (w_ctx x)) as [t|]; cbn [default from_option].
  - rewrite (bool_decide_eq_true_2 (Some t <> None)), (bool_decide_eq_false_2 (Some t = None)) by done. cbn [orb].
    case_bool_decide as Hb; [by destruct Hb|]. by spec_go.
  - rewrite (bool_decide_eq_false_2 (None <> None)) by auto. cbn [orb].
    case_bool_decide as Hb; [by destruct Hb|]. by spec_go.
Qed.

Lemma spec_CheckToken_accepts protocol a tok session row (Q : bool * option error -> Op P -> AuthWorld C -> Prop) o x :
  reads_never_fail (R := SessionBase) -> reads_never_fail (R := UserBaseDB) ->
  acceptable protocol a x tok session row -> request_path (w_ctx x) <> LOGOUT_PATH a ->
  (forall e o' x', authUser (w_ctx x') = Some (auth_user row) -> session_ (w_ctx x') = Db.GetID session ->
     match e with Some _ => genericError o' <> None | None => o' = o end -> Q (true, e) o' x') ->
  spec (CheckToken protocol a) Q o x.
Proof.
  intros Hns Hnu (Htok & Hten & Hclk & Hin & Hid & Hv & Huniq & Hrow & Hlog & Hb & Hurow) Hpath HQ.
  unfold CheckToken. handler_go. apply spec_bind_or. unfold read_token. spec_go. apply get_spec.
  fold (token_name a (w_ctx x)). change (opened _ _) with (token_of protocol a (w_ctx x)). rewrite Htok. cbn [negb]. handler_go.
  rewrite (proj2 (Z.ltb_ge _ _)) by apply Hclk. handler_go. set (x1 := put _ x).
  apply spec_bind_or, spec_check_tenancy_ok; [done|].
  apply spec_bind_or. unfold find_session. spec_go.
  apply (spec_FindSession_found _ session); [done|done|done|exact Huniq|]. intros x2 Hc2 Hf2 Hs2.
  assert (Hf2' : frame x x2) by (eapply frame_trans; [|exact Hf2]; repeat split).
  rewrite Hv. cbn [negb]. spec_go. apply spec_on. unfold wp, Now. cbn [fst snd].
  change (env_now (view x2) (env_tick (view x2))) with (reading x2 (env_tick (w_env x2))).
  assert (Hle : (reading x2 (env_tick (w_env x2)) <= Expiration session)%Z).
  { destruct Hf2' as (_&_&_&_&E). rewrite E. apply Hclk. }
  rewrite (proj2 (Z.ltb_ge _ _)) by done. spec_go. set (x3 := put _ x2). cbn [fst snd].
  assert (Hf3 : frame x x3) by (eapply frame_trans; [exact Hf2'|repeat split]).
  apply spec_bind_or. unfold load_user. spec_go.
  assert (Hu3 : users x3 = users x) by (by destruct Hf3).
  apply (spec_FindAuthUser_found _ row); [done|by rewrite Hu3|done|by rewrite Hu3, <- Hlog|].
  intros x4 Hc4 Hf4 Hs4. cbn [IsBlocked auth_user]. rewrite Hb. handler_go. set (x5 := put _ _).
  apply spec_bind_or, spec_internal, (spec_UpdateSessionClient (auth_user row)); [done|].
  intros e x6 (Hf6 & Hse6 & He6).
  assert (Hc6 : authUser (w_ctx x6) = Some (auth_user row) /\ session_ (w_ctx x6) = Db.GetID session).
  { destruct e as [e|]; [by rewrite He6|]. by destruct He6 as (id & -> & _). }
  destruct Hc6 as [Hu6 Hid6]. destruct e as [e|]; [apply HQ; [done|done|apply AuthCsrf.with_code_set]|].
  rewrite bool_decide_eq_true_2 by done.
  apply (spec_add_tokens _ _ _ _ _ (auth_user row)); [done|]. intros e o' x7 (_ & Hu7 & Hid7 & _) He7.
  apply HQ; [by rewrite Hu7|by rewrite Hid7|done].
Qed.

(** ** New tokens *)

Lemma prolongation_ids session exp rs rs' : prolongation session exp rs rs' -> map Db.GetID rs' = map Db.GetID rs.
Proof.
  induction 1 as [|r r' rs rs' Hr _ IH]; [done|]. cbn. rewrite IH. f_equal.
  destruct (bool_decide _); [by destruct Hr as (_&_&?&_)|by subst].
Qed.

Lemma table_ok_ids (rs : list SessionBase) : table_ok rs -> NoDup (map Db.GetID rs).
Proof.
  apply unique_ids_NoDup. apply list_elem_of_here.
Qed.

Lemma prolongation_last rs session exp rs' :
  NoDup (map Db.GetID (rs ++ [session])) -> prolongation session exp (rs ++ [session]) rs' ->
  exists s', rs' = rs ++ [s'] /\ prolongated exp session s'.
Proof.
  intros Hnd Hp. apply Forall2_app_inv_l in Hp as (l1 & l2 & H1 & H2 & ->).
  apply Forall2_cons_inv_l in H2 as (s' & l3 & Hs & H3 & ->). apply Forall2_nil_inv_l in H3 as ->.
  rewrite bool_decide_eq_true_2 in Hs by done. exists s'. split; [|done]. f_equal.
  rewrite map_app in Hnd. apply NoDup_app in Hnd as (_ & Hnd & _).
  assert (Hne : Forall (fun r => Db.GetID r <> Db.GetID session) rs).
  { apply Forall_forall. intros r Hr E. apply (Hnd (Db.GetID r)); [by apply list_elem_of_fmap_2|]. rewrite E. cbn. set_solver. }
  clear Hnd Hs. induction H1 as [|r r' l l' Hr _ IH]; [done|]. apply Forall_cons in Hne as [Hr' Hne].
  rewrite bool_decide_eq_false_2 in Hr by done. subst. f_equal. by apply IH.
Qed.

(** A session of the user has been added: the last row, valid, with an identifier of its own. *)
Definition has_session (a : AuthTokenHandlerConfig) (u : AuthUser) (id : string) x x' : Prop :=
  frame x x' /\ authUser (w_ctx x') = Some u /\ session_ (w_ctx x') = id /\
  exists row, sessions x' = sessions x ++ [row] /\ NoDup (map Db.GetID (sessions x')) /\ Db.GetID row = id /\
    Valid row = true /\ WithUserBase.UserLogin (ss_user row) = Login u /\
    expires_after x (REFRESH_TOKEN_TTL_SECONDS a) (Expiration row).

(** Steps that leave users and the session of the request alone. *)
Lemma has_session_step a u id x x1 x2 :
  has_session a u id x x1 -> frame x1 x2 -> authUser (w_ctx x2) = authUser (w_ctx x1) ->
  session_ (w_ctx x2) = session_ (w_ctx x1) -> sessions x2 = sessions x1 -> has_session a u id x x2.
Proof.
  intros (Hf & Hu & Hs & row & Hr) Hf2 Hu2 Hs2 Hse. split_and!; [by eapply frame_trans|congruence|congruence|].
  exists row. cbn in Hse. by rewrite Hse.
Qed.

Lemma has_session_prolongation a u session x x1 x2 exp :
  has_session a u (Db.GetID session) x x1 -> frame x1 x2 -> authUser (w_ctx x2) = authUser (w_ctx x1) ->
  session_ (w_ctx x2) = session_ (w_ctx x1) -> expires_after x1 (REFRESH_TOKEN_TTL_SECONDS a) exp ->
  prolongation session exp (sessions x1) (sessions x2) -> has_session a u (Db.GetID session) x x2.
Proof.
  intros (Hf & Hu & Hs & row & Hse & Hnd & Hid & Hv & Hl & _) Hf2 Hu2 Hs2 He Hp.
  split_and!; [by eapply frame_trans|congruence|congruence|].
  rewrite (prolongation_ids _ _ _ _ Hp). cbn in Hse. rewrite Hse in Hp.
  assert (Hp' : prolongation row exp (rows (w_sessions x) ++ [row]) (rows (w_sessions x2))).
  { unfold prolongation. rewrite Hid. exact Hp. }
  apply prolongation_last in Hp' as (row' & Hse2 & Hx & Hv' & Hid' & Hus'); [|by rewrite <- Hse].
  exists row'. rewrite Hse2. split_and!; try congruence.
  rewrite Hx. by eapply expires_after_frame.
Qed.

(** An answer with an error. *)
Definition failed (r : answer) : Prop := r.1.1 = true /\ r.1.2 <> None.

Lemma spec_session_for_user a u (Q : SessionBase + answer -> Op P -> AuthWorld C -> Prop) o x :
  authUser (w_ctx x) = Some u -> session_ (w_ctx x) = "" -> table_ok (sessions x) ->
  (forall r o' x', failed r -> Q (inr r) o' x') ->
  (forall session x', has_session a u (Db.GetID session) x x' ->
     response_headers (w_ctx x') = response_headers (w_ctx x) -> Q (inl session) o x') ->
  spec (session_for_user a) Q o x.
Proof.
  intros Hu Hs Hok Hr HQ. unfold session_for_user. handler_go. rewrite decide_True by done. spec_go.
  apply spec_SessionExpiration. intros exp Hexp. spec_go. apply (spec_CreateSession _ u); [done|].
  intros [session e] x' Hc Hf _ Hres. cbn [fst snd]. destruct session as [session|], e as [e|]; try done; handler_go.
  - destruct Hres as (Hse & Hok' & Hv & He & _ & _ & Hl). apply HQ; [|cbn; by rewrite Hc].
    split_and!; [eapply frame_trans; [|eapply frame_trans; [exact Hf|]]; by repeat split|cbn; by rewrite Hc|done|].
    exists session. split_and!; try done; [by apply table_ok_ids, Hok'|by rewrite He].
  - by apply Hr.
Qed.

Lemma spec_refresh_token protocol a u session x0 (Q : SessionBase + answer -> Op P -> AuthWorld C -> Prop) o x :
  has_session a u (Db.GetID session) x0 x ->
  (forall r o' x', failed r -> Q (inr r) o' x') ->
  (forall session' x', Db.GetID session' = Db.GetID session -> has_session a u (Db.GetID session) x0 x' ->
     frame x x' -> token_set protocol RefreshTokenName (REFRESH_TOKEN_TTL_SECONDS a) u x x' -> Q (inl session') o x') ->
  spec (refresh_token protocol a session) Q o x.
Proof.
  intros Hh Hr HQ. unfold refresh_token. spec_go. destruct (Hh) as (_ & Hu & _).
  apply (spec_GenRefreshToken _ _ _ u); [done|]. intros e exp x' Hf Hexp _ He. cbn [fst snd].
  destruct e as [e|]; spec_go; [by apply Hr|]. destruct He as [Ht Hp].
  destruct (token_set_kept _ _ _ _ _ _ Ht) as [Hu' Hs']. apply HQ; [done| |done|done].
  by eapply has_session_prolongation.
Qed.

(** A token of the response: of the user and the session of the request. *)
Definition token_given (protocol name : string) (ttl : Z) (u : AuthUser) x x' : Prop :=
  exists text tok,
    response_headers (w_ctx x') !! auth_header protocol name = Some text /\
    expires_after x ttl (ExpireToken.Exp (t_exp tok)) /\
    t_SessionId tok = session_ (w_ctx x') /\ t_UserId tok = Auth.GetID u /\ t_Tenancy tok = default "" (tenancy (w_ctx x)) /\
    (sendable tok -> forall y, opened text y = (true, None, tok)).
(** Both tokens of the response are those of the session; no other header is set. *)
Definition access_given (protocol : string) (a : AuthTokenHandlerConfig) (u : AuthUser) x x' : Prop :=
  has_session a u (session_ (w_ctx x')) x x' /\
  token_given protocol AccessTokenName (ACCESS_TOKEN_TTL_SECONDS a) u x x' /\
  token_given protocol RefreshTokenName (REFRESH_TOKEN_TTL_SECONDS a) u x x' /\
  forall k, k <> auth_header protocol AccessTokenName -> k <> auth_header protocol RefreshTokenName ->
    response_headers (w_ctx x') !! k = response_headers (w_ctx x) !! k.

(** The headers after a token is set. *)
Lemma token_set_headers protocol name ttl u x x' : token_set protocol name ttl u x x' ->
  (exists text, response_headers (w_ctx x') !! auth_header protocol name = Some text) /\
  forall k, k <> auth_header protocol name -> response_headers (w_ctx x') !! k = response_headers (w_ctx x) !! k.
Proof.
  intros (text & tok & -> & Hne & _). unfold set_header. cbn. rewrite decide_False by done. split; [exists text; apply lookup_insert_eq|].
  intros k Hk. by rewrite lookup_insert_ne.
Qed.
(** A token that is set is given, if nothing changes it and the request later. *)
Lemma token_set_given protocol name ttl u x0 x x1 x' :
  token_set protocol name ttl u x x1 -> frame x0 x ->
  response_headers (w_ctx x') !! auth_header protocol name = response_headers (w_ctx x1) !! auth_header protocol name ->
  session_ (w_ctx x') = session_ (w_ctx x) -> token_given protocol name ttl u x0 x'.
Proof.
  intros (text & tok & Hc & Hne & Hexp & Hts & Htu & Htt & Ho) Hf Hh Hs. exists text, tok. split_and!; try done.
  - rewrite Hh, Hc. unfold set_header. cbn. rewrite decide_False by done. apply lookup_insert_eq.
  - by eapply expires_after_frame.
  - by rewrite Hs.
  - destruct Hf as (_&_&_&E&_). rewrite Htt. unfold request_part in E. congruence.
Qed.

Lemma auth_header_inj protocol n1 n2 : auth_header protocol n1 = auth_header protocol n2 -> n1 = n2.
Proof.
  unfold auth_header, AuthKey, csrfKey. case_decide; intros E.
  - injection E as E. apply (inj (String.append _)) in E. exact E.
  - by apply (inj (String.append "x-auth-")) in E.
Qed.

Lemma spec_NewToken protocol a u (Q : bool * option error -> Op P -> AuthWorld C -> Prop) o x :
  authUser (w_ctx x) = Some u -> session_ (w_ctx x) = "" -> table_ok (sessions x) ->
  (forall r o' x', r.1 = true -> r.2 <> None -> Q r o' x') ->
  (forall x', access_given protocol a u x x' -> Q (true, None) o x') ->
  spec (NewToken protocol a) Q o x.
Proof.
  intros Hu Hs Hok Hr HQ. unfold NewToken. handler_go. cbn. rewrite Hu. apply spec_bind_or.
  assert (Hr' : forall (r : answer) o' x', failed r -> Q r.1 o' x') by (intros r o' x' [? ?]; by apply Hr).
  apply (spec_session_for_user _ u); [done|done|done|intros; by apply Hr'|].
  intros session x1 Hh1 Hresp1. apply spec_bind_or, spec_internal.
  destruct (Hh1) as (_ & Hu1 & _). apply (spec_UpdateSessionClient u); [done|].
  intros e x2 (Hf2 & Hse2 & He2). destruct e as [e|]; [by apply Hr'|].
  destruct He2 as (cl & Hc2 & _).
  assert (Hh2 : has_session a u (Db.GetID session) x x2).
  { eapply has_session_step; [exact Hh1|exact Hf2|by rewrite Hc2|by rewrite Hc2|exact Hse2]. }
  apply spec_bind_or, (spec_refresh_token _ _ u _ x); [done|intros; by apply Hr'|].
  intros session3 x3 Hid3 Hh3 _ Hr3. apply spec_bind_or, spec_internal.
  destruct (Hh3) as (Hf3 & Hu3 & Hs3 & _).
  apply (spec_GenAccessToken _ _ u); [done|]. intros e x4 Hf4 Hse4 He4. destruct e as [e|]; [by apply Hr'|].
  destruct (token_set_kept _ _ _ _ _ _ He4) as [Hu4 Hs4].
  assert (Hh4 : has_session a u (Db.GetID session3) x x4).
  { rewrite Hid3. eapply has_session_step; [exact Hh3|exact Hf4|exact Hu4|exact Hs4|by rewrite Hse4]. }
  apply spec_bind_or, (spec_refresh_token _ _ u _ x); [done|intros; by apply Hr'|].
  intros session5 x5 Hid5 Hh5 Hf5 Hr5. spec_go. apply HQ.
  destruct (Hh4) as (Hf04 & _ & Hs4' & _). destruct (Hh5) as (_ & _ & Hs5 & _).
  destruct (token_set_headers _ _ _ _ _ _ Hr3) as [_ H3], (token_set_headers _ _ _ _ _ _ He4) as [_ H4], (token_set_headers _ _ _ _ _ _ Hr5) as [_ H5].
  assert (Hne : auth_header protocol AccessTokenName <> auth_header protocol RefreshTokenName) by (by intros E%auth_header_inj).
  split_and!; [by rewrite Hs5| | |].
  - eapply token_set_given; [exact He4|done|by apply H5|congruence].
  - eapply token_set_given; [exact Hr5|done|done|congruence].
  - intros k Ha Hb. rewrite H5, H4, H3 by done. rewrite <- Hresp1. by rewrite Hc2.
Qed.

(** [C1] Who is authenticated by a token.  A request without a token is left alone.  Otherwise
    either it is refused, with a generic error, its user and session as they were and no session
    changed; or the token was opened with the key of the server and has not expired, is for the
    tenancy of the request and for a valid session that has not expired, and the user of this
    session exists and is not blocked: then the session is that of the token and, but for the
    logout, the user is the one of the session.  Every error comes with a generic error. *)
Theorem check_token_sound protocol a (s : St P (AuthWorld C)) :
  let '(r, s') := CheckToken protocol a s in check_post protocol a r (st_op s) (st_ext s) (st_op s') (st_ext s').
Proof.
  destruct s as [t o x].
  pose proof (spec_CheckToken protocol a (fun r o' x' => check_post protocol a r o x o' x') o x ltac:(done) t) as HS.
  by destruct (CheckToken _ _ _) as [r s'].
Qed.

(** No valid session has the identifier of the token. *)
Lemma spec_CheckToken_revoked protocol a tok (Q : bool * option error -> Op P -> AuthWorld C -> Prop) o x :
  token_of protocol a (w_ctx x) = (true, None, tok) ->
  (forall r, r ∈ sessions x -> Db.GetID r = t_SessionId tok -> Valid r = false) ->
  (forall r o' x', refused x r o' x' -> Q r o' x') -> spec (CheckToken protocol a) Q o x.
Proof.
  intros Htok Hv HQ. apply spec_CheckToken. intros r o' x' [(Hn & _)|[Hr|Ha]]; [by rewrite Htok in Hn|by apply HQ|].
  destruct Ha as (tok' & session & row & (Htok' & _ & _ & Hin & Hid & Hval & _) & _).
  rewrite Htok in Htok'. injection Htok' as <-. by rewrite (Hv session) in Hval.
Qed.

Lemma invalidated_by_id (rs rs' : list SessionBase) session r' :
  table_ok rs -> session ∈ rs ->
  session_change (of_session (WithUserBase.UserId (ss_user session)) (Db.GetID session)) invalidated rs rs' ->
  r' ∈ rs' -> Db.GetID r' = Db.GetID session -> Valid r' = false.
Proof.
  intros Hok Hin Hch Hr' Hid. destruct (session_change_elem _ _ _ _ _ Hch Hr') as (r & Hr & Hc).
  assert (Hidr : Db.GetID r = Db.GetID session).
  { destruct (of_session _ _ r); [destruct Hc as (_ & E & _); congruence|by subst]. }
  assert (r = session) as ->.
  { apply table_ok_ids in Hok. apply list_elem_of_lookup in Hr as [i Hi]. apply list_elem_of_lookup in Hin as [j Hj].
    assert (i = j) as ->; [|congruence].
    eapply (NoDup_lookup _ i j (Db.GetID session) Hok); rewrite list_lookup_fmap.
    - by rewrite Hi; cbn; rewrite Hidr.
    - by rewrite Hj. }
  unfold of_session, of_user in Hc. rewrite !bool_decide_eq_true_2 in Hc by done. by destruct Hc.
Qed.

(** [C2] Logout revokes tokens.  When a request to the logout path is served without a generic
    error, no token of its session - access or refresh, of this or another client, whatever its
    own expiration - authenticates a later request, as long as the sessions are not changed by
    something else: such a request is refused and gets no user. *)
Theorem logout_revokes protocol a (s s2 : St P (AuthWorld C)) :
  table_ok (sessions (st_ext s)) -> request_path (w_ctx (st_ext s)) = LOGOUT_PATH a ->
  let '(r, s1) := CheckToken protocol a s in
  r = (true, None) -> genericError (st_op s1) = None ->
  sessions (st_ext s2) = sessions (st_ext s1) ->
  forall protocol2 a2 tok tok2,
    token_of protocol a (w_ctx (st_ext s)) = (true, None, tok) ->
    token_of protocol2 a2 (w_ctx (st_ext s2)) = (true, None, tok2) -> t_SessionId tok2 = t_SessionId tok ->
    let '(r2, s3) := CheckToken protocol2 a2 s2 in
    refused (st_ext s2) r2 (st_op s3) (st_ext s3).
Proof.
  destruct s as [t o x], s2 as [t2 o2 x2]. cbn [st_op st_ext]. intros Hok Hpath.
  pose proof (spec_CheckToken protocol a (fun r o' x' => check_post protocol a r o x o' x') o x ltac:(done) t) as HS.
  destruct (CheckToken protocol a _) as [r [t1 o1 x1]]. cbn [fst snd st_op st_ext] in HS |- *.
  intros -> Hg Hse protocol2 a2 tok tok2 Htok Htok2 Hid2.
  destruct HS as [(_ & Hr & _)|[(_ & Hge & _)|Ha]]; [done|by rewrite Hg in Hge|].
  destruct Ha as (tok' & session & row & (Htok' & _ & _ & Hin & Hid & _) & _ & _ & _ & _ & Ha).
  rewrite Htok in Htok'. injection Htok' as <-. rewrite decide_True in Ha by done. cbn in Ha. destruct Ha as [_ Hch].
  pose proof (spec_CheckToken_revoked protocol2 a2 tok2 (fun r o' x' => refused x2 r o' x') o2 x2 Htok2) as HR.
  assert (Hrev : forall r', r' ∈ sessions x2 -> Db.GetID r' = t_SessionId tok2 -> Valid r' = false).
  { intros r' Hr' Hidr. assert (Hr1 : r' ∈ rows (w_sessions x1)) by (rewrite <- Hse; exact Hr').
    eapply invalidated_by_id; [exact Hok|exact Hin|exact Hch|exact Hr1|congruence]. }
  specialize (HR Hrev ltac:(done) t2).
  by destruct (CheckToken protocol2 a2 _) as [r2 [t3 o3 x3]].
Qed.

(** The request [x2] follows the answer [x1] to the request [x]: the client returns the access
    token, the tables are as they were left, and the clock has not passed the expirations. *)
Definition follows (protocol : string) (a : AuthTokenHandlerConfig) x x1 x2 : Prop :=
  request_headers (w_ctx x2) !! auth_header protocol AccessTokenName =
    response_headers (w_ctx x1) !! auth_header protocol AccessTokenName /\
  tenancy (w_ctx x2) = tenancy (w_ctx x) /\
  request_path (w_ctx x2) <> LOGOUT_PATH a /\ request_path (w_ctx x2) <> REFRESH_PATH a /\
  sessions x2 = sessions x1 /\ users x2 = users x1 /\
  (forall k k', reading x2 k <= reading x k' + int64 (second * ACCESS_TOKEN_TTL_SECONDS a) /\
                reading x2 k <= reading x k' + int64 (second * REFRESH_TOKEN_TTL_SECONDS a))%Z.

Lemma access_given_acceptable protocol a row x x1 x2 :
  access_given protocol a (auth_user row) x x1 -> follows protocol a x x1 x2 ->
  table_ok (users x) -> row ∈ users x -> BLOCKED row = false ->
  (forall tok, t_UserId tok = Auth.GetID (auth_user row) -> t_Tenancy tok = default "" (tenancy (w_ctx x)) -> sendable tok) ->
  exists tok session, Db.GetID session = session_ (w_ctx x1) /\ acceptable protocol a x2 tok session row.
Proof.
  intros [(Hf & _ & Hs & session & Hse & Hnd & Hid & Hv & Hl & [k2 Hexp2]) [(text & tok & Hh & [k1 Hexp1] & Hts & Htu & Htt & Ho) _]].
  intros (Hh2 & Hten & Hpl & Hpr & Hse2 & Hus2 & Hclk) Hok Hin Hb Hsend. cbn in *.
  assert (Hus : rows (w_users x1) = rows (w_users x)) by (by destruct Hf).
  exists tok, session. split; [congruence|]. split_and!.
  - unfold token_of, token_name. rewrite bool_decide_eq_false_2 by done. rewrite Hh2, Hh. cbn. apply Ho. by apply Hsend.
  - by rewrite Htt, Hten.
  - intros k. rewrite Hexp1, Hexp2. split; apply Hclk.
  - rewrite Hse2, Hse. apply elem_of_app. right. by apply list_elem_of_singleton.
  - congruence.
  - done.
  - intros r Hr Hidr. rewrite Hse2 in Hr. apply list_elem_of_lookup in Hr as [i Hi].
    assert (Hj : rows (w_sessions x1) !! length (rows (w_sessions x)) = Some session).
    { rewrite Hse, lookup_app_r, Nat.sub_diag by lia. done. }
    assert (i = length (rows (w_sessions x))) as ->; [|congruence].
    eapply (NoDup_lookup _ i _ (Db.GetID session) Hnd); rewrite list_lookup_fmap; [|by rewrite Hj].
    rewrite Hi. cbn. f_equal. congruence.
  - by rewrite Hus2, Hus.
  - by rewrite Hl.
  - done.
  - intros r Hr Hlr. rewrite Hus2, Hus in Hr. by eapply LoginHandler.login_unique.
Qed.

(** [C3] Who logs in gets access.  After a login - the user is set, no session yet - the answer
    that gives tokens without an error has an access token such that the next request that
    carries it, before the token and the session expire, to neither the refresh nor the logout
    path, is authenticated: it has the user and the session of the login.  (Recording the client
    or prolongating the session may fail; then there is an error too.) *)
Theorem login_then_access protocol a (s s2 : St P (AuthWorld C)) row :
  reads_never_fail (R := SessionBase) -> reads_never_fail (R := UserBaseDB) ->
  let x := st_ext s in
  authUser (w_ctx x) = Some (auth_user row) -> session_ (w_ctx x) = "" ->
  table_ok (sessions x) -> table_ok (users x) -> row ∈ users x -> BLOCKED row = false ->
  (forall tok, t_UserId tok = Auth.GetID (auth_user row) -> t_Tenancy tok = default "" (tenancy (w_ctx x)) -> sendable tok) ->
  let '(r, s1) := NewToken protocol a s in
  r = (true, None) -> follows protocol a x (st_ext s1) (st_ext s2) ->
  let '(r2, s3) := CheckToken protocol a s2 in
  r2.1 = true /\ authUser (w_ctx (st_ext s3)) = Some (auth_user row) /\
  session_ (w_ctx (st_ext s3)) = session_ (w_ctx (st_ext s1)) /\
  (r2.2 = None -> st_op s3 = st_op s2).
Proof.
  destruct s as [t o x], s2 as [t2 o2 x2]. cbn [st_op st_ext]. cbn zeta. intros Hns Hnu Hu Hs Hoks Hoku Hin Hb Hsend.
  pose proof (spec_NewToken protocol a (auth_user row) (fun r o' x' => r = (true, None) -> access_given protocol a (auth_user row) x x') o x
    Hu Hs Hoks ltac:(intros [? ?] ? ? _ Hne [= -> ->]; done) ltac:(cbn; auto) t) as HN.
  destruct (NewToken protocol a _) as [r [t1 o1 x1]]. cbn [fst snd st_op st_ext] in HN |- *. intros Hr Hfol.
  destruct (access_given_acceptable protocol a row x x1 x2 (HN Hr) Hfol Hoku Hin Hb Hsend) as (tok & session & Hid & Hacc).
  enough (HC : spec (CheckToken protocol a) (fun r o' x' => r.1 = true /\ authUser (w_ctx x') = Some (auth_user row) /\
    session_ (w_ctx x') = session_ (w_ctx x1) /\ (r.2 = None -> o' = o2)) o2 x2).
  { specialize (HC t2). cbn in HC. by destruct (CheckToken protocol a _) as [r2 [t3 o3 x3]]. }
  apply (spec_CheckToken_accepts _ _ tok session row); [done|done|done|by destruct Hfol as (_ & _ & ? & _)|].
  intros e o' x' Hu' Hs' He. cbn [fst snd]. split_and!; [done|done|congruence|]. intros ->. exact He.
Qed.
End Facts.
