(* ===== verification/AuthSms.v ===== *)
(** * auth/auth_methods/auth_sms: confirmation of requests with a code sent to a phone

    The first request of a user gets no further than a message: the code, the checksum of the
    request and the number of tries go to the cache, and a token that names them to the client.
    A request with a code is checked against what the cache has for its token.  The handler
    records the error of its last part only; in the part that checks a code the variable is
    hidden by another of the same name. *)
From Stdlib Require Import Ascii.
From S2P Require Import Prelude GoTime Utils Common Errors OpContext Db Crud Auth Crypt AuthParams Cache Session Http Sms Users AuthWorld AuthMethods AuthToken.
Open Scope go_scope.

(** ** [fmt.Sprintf] with one text as argument *)

(** Verbs without flags; [%s] and [%v] take the argument, an argument that is left over is
    appended. *)
Fixpoint sprintf_go (skip : bool) (format : string) (arg : option string) : string :=
  match format with
  | "" => match arg with Some a => "%!(EXTRA string=" +:+ a +:+ ")" | None => "" end
  | String c r =>
      if skip then sprintf_go false r arg
      else if decide (c = "%"%char) then
        match r with
        | "" => "%!(NOVERB)" +:+ sprintf_go false r arg
        | String d _ =>
            if decide (d = "%"%char) then "%" +:+ sprintf_go true r arg
            else
              let v := String d "" in
              match arg with
              | None => "%!" +:+ v +:+ "(MISSING)" +:+ sprintf_go true r None
              | Some a => (if bool_decide (d = "s"%char) || bool_decide (d = "v"%char) then a
                           else "%!" +:+ v +:+ "(string=" +:+ a +:+ ")") +:+ sprintf_go true r None
              end
        end
      else String c (sprintf_go false r arg)
  end.
Definition Sprintf (format arg : string) : string := sprintf_go false format (Some arg).

Module AuthSms.
Definition SmsProtocol := "sms".
Definition TokenName := "sms-token".
Definition PhoneName := "sms-phone".
Definition DelayName := "sms-delay".
Definition CodeName := "sms-code".
Definition SmsDelayCacheKey := "sms-delay".
Definition SmsTokenCacheKey := "sms-token".

Definition ErrorCodeSmsConfirmationRequired := "sms_confirmation_required".
Definition ErrorCodeSmsTokenRequired := "sms_token_required".
Definition ErrorCodeTokenExpired := "sms_token_expired".
Definition ErrorCodeInvalidToken := "sms_token_invalid".
Definition ErrorCodeInvalidSmsCode := "sms_code_invalid".
Definition ErrorCodeWaitDelay := "sms_wait_delay".
Definition ErrorCodeContentMismatch := "sms_content_mismatch".
Definition ErrorCodeInvalidPhone := "sms_invalid_phone".
Definition ErrorCodeTooManyTries := "sms_too_many_tries".

Definition ErrorDescriptions : gmap string string := list_to_map
  [(ErrorCodeSmsConfirmationRequired, "Request must be confirmed with SMS.");
   (ErrorCodeSmsTokenRequired, "SMS token must be present in request.");
   (ErrorCodeTokenExpired, "SMS token expired."); (ErrorCodeInvalidToken, "Invalid SMS token.");
   (ErrorCodeInvalidSmsCode, "Invalid SMS code."); (ErrorCodeWaitDelay, "Wait before requesting new SMS code.");
   (ErrorCodeContentMismatch, "Content of initial request and content of current request mismatch.");
   (ErrorCodeInvalidPhone, "failed to send SMS confirmation because of invalid phone number.");
   (ErrorCodeTooManyTries, "Too many code tries.")].
(** No status for an invalid phone. *)
Definition ErrorProtocolCodes : gmap string Z := list_to_map
  [(ErrorCodeSmsConfirmationRequired, 401%Z); (ErrorCodeSmsTokenRequired, 401%Z); (ErrorCodeTokenExpired, 401%Z);
   (ErrorCodeInvalidToken, 401%Z); (ErrorCodeInvalidSmsCode, 401%Z); (ErrorCodeWaitDelay, 401%Z);
   (ErrorCodeTooManyTries, 401%Z); (ErrorCodeContentMismatch, 401%Z)].

(** [SmsDelay] is a time of creation. *)
Record SmsDelay := { CREATED_AT : Z }.
Record SmsCacheToken := { Try : Z; Code : string; Checksum : string; SmsId : string }.
Record SmsToken := { st_exp : ExpireToken.t; ID : string }.
Definition no_cache_token : SmsCacheToken := {| Try := 0; Code := ""; Checksum := ""; SmsId := "" |}.
Definition no_token : SmsToken := {| st_exp := ExpireToken.zero; ID := "" |}.

Record AuthSmsConfig := {
  TOKEN_TTL_SECONDS : Z; SMS_DELAY_SECONDS : Z; SECRET : string; MAX_TRIES : Z; CODE_LENGTH : Z
}.
(** The defaults, and what the validation of the configuration requires. *)
Definition default_config (secret : string) : AuthSmsConfig :=
  {| TOKEN_TTL_SECONDS := 300; SMS_DELAY_SECONDS := 30; SECRET := secret; MAX_TRIES := 3; CODE_LENGTH := 5 |}.
Definition valid_config (a : AuthSmsConfig) : bool :=
  (0 <? TOKEN_TTL_SECONDS a)%Z && (0 <? SMS_DELAY_SECONDS a)%Z && bool_decide (SECRET a <> "") && (1 <? MAX_TRIES a)%Z &&
  (4 <=? CODE_LENGTH a)%Z.

Definition smsDelayCacheKey (userId : string) : string := SmsDelayCacheKey +:+ "/" +:+ userId.
Definition smsTokenCacheKey (id : string) : string := SmsTokenCacheKey +:+ "/" +:+ id.

(** A slice out of bounds panics, which is this error here. *)
Definition slice_bounds : error := Native "slice bounds out of range".

Section Methods.
Context {P C : Type} `{En : !AuthParameterEncryption P (AuthWorld C) SmsToken, Ca : !StringCache C}.
Context `{Di : !Digest, Sc : !StringCoding, Sct : !Serializer SmsCacheToken, Ssd : !Serializer SmsDelay, Sm : !SmsManager P (AuthWorld C)}.
Local Abbreviation act := (M (St P (AuthWorld C))).

(** Calls of [ctx.Cache()]. *)
Definition in_cache {A} (m : M C A) : act A := @on P (AuthWorld C) C cache_lens A m.

(** The time in whole seconds since the creation; [Seconds] is exact for delays of up to 97 days. *)
Definition delay_left (a : AuthSmsConfig) (now created : Z) : Z :=
  let delay := Z.quot (now - created) second in
  if (delay >? SMS_DELAY_SECONDS a)%Z then 0 else SMS_DELAY_SECONDS a - delay.

Definition request_hmac (a : AuthSmsConfig) (userId method path content : string) : Hmac.t :=
  (Hmac.Calc [userId; method; path; content] (Hmac.New (SECRET a))).2.
Definition hmacOfRequest (a : AuthSmsConfig) (userId : string) : act Hmac.t :=
  let* method := request request_method in
  let* path := request request_path in
  let* content := request request_content in
  ret (request_hmac a userId method path content).

(** The last digits of a random number; more digits than it has are out of bounds. *)
Definition genCode (a : AuthSmsConfig) : M Env (string + error) :=
  let* r := rand_below (2 ^ 32) in
  let str := fmt_0d 8 r in
  ret (if ((CODE_LENGTH a <? 0) || (Z.of_nat (String.length str) <? CODE_LENGTH a))%Z then inr slice_bounds
       else inl (str_drop (String.length str - Z.to_nat (CODE_LENGTH a)) str)).

(** The token of the request gets a new expiration. *)
Definition setToken (a : AuthSmsConfig) (c : nat) (cacheToken : SmsCacheToken) (requestToken : SmsToken) : act (option error) :=
  let* err := in_cache (SerializedObjectCache.Set_ (smsTokenCacheKey (ID requestToken)) cacheToken [TOKEN_TTL_SECONDS a]) in
  match err with
  | Some _ =>
      SetMessage c "failed to save token in cache" ;;
      SetGenericErrorCode ErrorCodeInternalServerError [] ;; ret err
  | None =>
      let* exp := on (ExpireToken.SetTTL (TOKEN_TTL_SECONDS a)) in
      let* err := EncSetAuthParameter SmsProtocol TokenName {| st_exp := exp; ID := ID requestToken |} in
      match err with
      | Some _ =>
          SetMessage c "failed to put token to response" ;;
          SetGenericErrorCode ErrorCodeInternalServerError [] ;; ret err
      | None => ret None
      end
  end.

(** *** A request with a code *)

(** [c.SetMessage(msg); ctx.SetGenericErrorCode(code); return found, err] *)
Definition leave {A} (c : nat) (msg code : string) (found : bool) (err : option error) : act (A + (bool * option error)) :=
  SetMessage c msg ;; SetGenericErrorCode code [] ;; ret (inr (found, err)).

Definition read_token (c : nat) : act (SmsToken + (bool * option error)) :=
  let* '(exists_, err, token) := EncGetAuthParameter SmsProtocol TokenName no_token in
  if negb exists_ then leave c "SMS token not found" ErrorCodeSmsTokenRequired false err
  else
    match err with
    | Some _ => leave c "failed to get encrypted SMS token" ErrorCodeInvalidToken true err
    | None =>
        let* expired := on (ExpireToken.Expired (st_exp token)) in
        if (expired : bool) then leave c "token expired" ErrorCodeTokenExpired true err
        else ret (inl token)
    end.

Definition read_cache (c : nat) (oldCacheKey : string) : act (SmsCacheToken + (bool * option error)) :=
  let* '(found, err, cacheToken) := in_cache (SerializedObjectCache.Get oldCacheKey no_cache_token) in
  match err with
  | Some _ => leave c "failed to get cache token" ErrorCodeInternalServerError true err
  | None => if negb found then leave c "cache token expired" ErrorCodeTokenExpired true err else ret (inl cacheToken)
  end.

Definition unset (key : string) : act (option error) := in_cache (SerializedObjectCache.Unset key).

(** Another token with one try more. *)
Definition bad_code (a : AuthSmsConfig) (c : nat) (oldCacheKey : string) (token : SmsToken) (cacheToken : SmsCacheToken) :
    act (bool * option error) :=
  unset oldCacheKey ;;
  let* id := on GenerateID in
  let* exp := on (ExpireToken.SetTTL (TOKEN_TTL_SECONDS a)) in
  let cacheToken := {| Try := int64 (Try cacheToken + 1); Code := Code cacheToken; Checksum := Checksum cacheToken;
                       SmsId := SmsId cacheToken |} in
  let* err := setToken a c cacheToken {| st_exp := exp; ID := id |} in
  match err with
  | Some _ => ret (true, err)
  | None => SetGenericErrorCode ErrorCodeInvalidSmsCode [] ;; ret (true, Some (Native "invalid SMS code"))
  end.

Definition check_code (a : AuthSmsConfig) (c : nat) (userId code : string) : act (bool * option error) :=
  let? token := read_token c in
  let oldCacheKey := smsTokenCacheKey (ID token) in
  let? cacheToken := read_cache c oldCacheKey in
  if (MAX_TRIES a <=? Try cacheToken)%Z then
    unset oldCacheKey ;;
    SetGenericErrorCode ErrorCodeTooManyTries [] ;; ret (true, Some (Native "too many tries"))
  else
    let* h := hmacOfRequest a userId in
    match Hmac.CheckStr (Checksum cacheToken) h with
    | Some err =>
        SetMessage c "invalid request checksum" ;;
        SetGenericErrorCode ErrorCodeContentMismatch [] ;; ret (false, Some err)
    | None =>
        if decide (code <> Code cacheToken) then bad_code a c oldCacheKey token cacheToken
        else
          unset oldCacheKey ;;
          unset (smsDelayCacheKey userId) ;;
          ret (true, None)
    end.

(** *** A request without a code *)

(** [c.SetMessage(msg); ctx.SetGenericErrorCode(code); return true, err] where [err] is recorded. *)
Definition stop {A} (c : nat) (msg code : string) (err : option error) : act (A + answer) :=
  SetMessage c msg ;; SetGenericErrorCode code [] ;; ret (inr (answers true err)).

Definition check_delay (a : AuthSmsConfig) (c : nat) (delayCacheKey : string) : act (unit + answer) :=
  let* '(found, err, delayItem) := in_cache (SerializedObjectCache.Get delayCacheKey {| CREATED_AT := 0 |}) in
  match err with
  | Some _ => stop c "failed to get delay item from cache" ErrorCodeInternalServerError err
  | None =>
      if (found : bool) then
        let* now := on Now in
        SetAuthParameter SmsProtocol DelayName (fmt_d (delay_left a now (CREATED_AT delayItem))) ;;
        SetGenericErrorCode ErrorCodeWaitDelay [] ;; ret (inr (answers true (Some (Native "wait for delay"))))
      else ret (inl tt)
  end.

Definition phone_of (c : nat) (user : AuthUser) : act (string + answer) :=
  match Phone user with
  | None => stop c "user must be of UserWithPhone interface" ErrorCodeInternalServerError None
  | Some phone =>
      if decide (phone = "") then stop c "unknown phone number" ErrorCodeInvalidPhone None else ret (inl phone)
  end.

Definition generate_code (a : AuthSmsConfig) : act (string + answer) :=
  let* code := on (genCode a) in
  match code with inl code => ret (inl code) | inr err => ret (inr (answers true (Some err))) end.

(** The text of the message. *)
Definition sms_text (message code : string) : string := Sprintf (if decide (message = "") then "code %s" else message) code.

Definition send_code (a : AuthSmsConfig) (c : nat) (user : AuthUser) : act answer :=
  let delayCacheKey := smsDelayCacheKey (Auth.GetID user) in
  let? _ := check_delay a c delayCacheKey in
  let* check := request precheck in
  let '(message, err) := check "" in
  match err with
  | Some _ =>
      SetMessage c "failed to check request content" ;; SetGenericErrorCode ErrorCodeFormat [] ;; ret (answers true err)
  | None =>
      let? phone := phone_of c user in
      SetAuthParameter SmsProtocol PhoneName (MaskPhone phone) ;;
      let* id := on GenerateID in
      let? code := generate_code a in
      let* h := hmacOfRequest a (Auth.GetID user) in
      let* '(smsId, err) := sms_Send (sms_text message code) phone in
      match err with
      | Some _ =>
          SetMessage c "failed to send SMS" ;; SetGenericErrorCode ErrorCodeInternalServerError [] ;; ret (answers true err)
      | None =>
          let* err := setToken a c {| Try := 1; Code := code; Checksum := Hmac.SumStr h; SmsId := smsId |}
                        {| st_exp := ExpireToken.zero; ID := id |} in
          match err with
          | Some _ => ret (answers true err)
          | None =>
              let* now := on Now in
              (* an error is only logged *)
              in_cache (SerializedObjectCache.Set_ delayCacheKey {| CREATED_AT := truncate microsecond now |} [SMS_DELAY_SECONDS a]) ;;
              SetAuthParameter SmsProtocol DelayName (fmt_d (SMS_DELAY_SECONDS a)) ;;
              SetGenericErrorCode ErrorCodeSmsConfirmationRequired [] ;;
              (* a new error, not the variable recorded on exit *)
              ret ((true, Some (Native "sms code not found")), None)
          end
      end
  end.

Definition Handle (a : AuthSmsConfig) : act (bool * option error) :=
  traced_exit "AuthSms.Handle" (fun c =>
    let* user := AuthUser_ in
    match user with
    | None =>
        SetMessage c "unknown user" ;; SetGenericErrorCode ErrorCodeUnauthorized [] ;; ret (answers true None)
    | Some user =>
        let* code := GetAuthParameter SmsProtocol CodeName in
        if decide (code <> "") then
          let* r := check_code a c (Auth.GetID user) code in ret (r, None)
        else send_code a c user
    end).
End Methods.
End AuthSms.
