(* ===== verification/AuthSmsCode.v ===== *)
(** * Confirmations by SMS: what a request with a code does

    [SmsManagerOk] is what the handler relies on of a manager of messages; [code_post] is the
    outcome of a request with a code: it is refused, or the code was compared with that of the
    token, and then the token is used up. *)
From S2P Require Import Prelude GoTime Utils Common Errors OpContext Db Crud Auth Crypt AuthParams Cache Session Http Sms Users AuthWorld AuthMethods AuthToken AuthSms.
Open Scope go_scope.

(** Only the messages, the network and the environment - not its clock - change. *)
Definition only_messages {C} (x x' : AuthWorld C) : Prop :=
  w_ctx x' = w_ctx x /\ w_sessions x' = w_sessions x /\ w_clients x' = w_clients x /\ w_users x' = w_users x /\
  w_cache x' = w_cache x /\ same_clock (w_env x) (w_env x').

(** A message that is sent is one row more, for the phone and the user, and its text says the
    message; nothing else is stored. *)
Class SmsManagerOk (P C : Type) `{!SmsManager P (AuthWorld C)} := {
  says : string -> string -> Prop;
  send_spec message recipient u (Q : string * option error -> Op P -> AuthWorld C -> Prop) o x :
    authUser (w_ctx x) = Some u -> table_ok (rows (w_messages x)) ->
    (forall r o' x', only_messages x x' -> table_ok (rows (w_messages x')) ->
       match r.2 with
       | None => o' = o /\ exists row, rows (w_messages x') = rows (w_messages x) ++ [row] /\ Db.GetID row = r.1 /\
           SmsMessage.Phone row = recipient /\ WithUserBase.UserId (SmsMessage.user row) = Auth.GetID u /\
           says message (SmsMessage.Message row)
       | Some _ => genericError o' <> None /\ exists new, rows (w_messages x') = rows (w_messages x) ++ new
       end -> Q r o' x') ->
    spec (sms_Send message recipient) Q o x
}.

(** The manager of pkg/sms keeps this promise. *)
Section Base.
Context {P C : Type} `{Es : !Engine SmsMessage, Eso : !EngineOk SmsMessage, Ci : !CipherLib, Cio : !CipherLibOk}.
Context `{Sc : !StringCoding, Sco : !StringCodingOk}.

Lemma sms_frame_world (x x' : AuthWorld C) : SmsManagerBase.sms_frame x x' -> only_messages x x'.
Proof.
  induction 1 as [x|x y z Hs _ IH]; [done|]. destruct IH as (E1 & E2 & E3 & E4 & E5 & E6).
  assert (only_messages x y) as (F1 & F2 & F3 & F4 & F5 & F6)
    by (destruct Hs as [[t ->]|[(e & He & ->)|[n ->]]]; repeat split; exact He || done).
  split_and!; unfold same_clock in *; congruence.
Qed.

Definition base_manager_ok (s : SmsManagerBase.t P (AuthWorld C)) (Hs : SmsManagerBase.manager_ok s) :
  SmsManagerOk P C (SmsManager0 := SmsManagerBase.implementation s).
Proof.
  refine {| says := SmsManagerBase.stands_for s |}. intros message recipient u Q o x Hu Hok HQ. cbn.
  apply (SmsManagerBase.spec_sms_Send s message recipient u); [done|done|done|].
  intros r o' x' [Hf [(_ & Hr & Hg & Hm)|(row & Hm & Hok' & Hid & _ & Hd & _ & Hr)]];
    apply HQ; try (by apply sms_frame_world).
  - change (table_ok (rows (view (A := table SmsMessage) x'))). by rewrite Hm.
  - destruct r.2; [|done]. split; [done|]. exists []. rewrite app_nil_r. exact Hm.
  - exact Hok'.
  - destruct Hd as (Hp & _ & _ & _ & Hui & Hst). destruct r.2; [|split; [done|]; by exists row].
    split; [done|]. by exists [row].
Defined.
End Base.

(** ** The cache, the token of a request *)

Section Facts.
Context {P C : Type} `{En : !AuthParameterEncryption P (AuthWorld C) AuthSms.SmsToken}.
Context `{Eno : !AuthParameterEncryptionOk P (AuthWorld C) AuthSms.SmsToken, Ca : !StringCache C, Cao : !StringCacheOk C}.
Context `{Di : !Digest, Sc : !StringCoding, Sco : !StringCodingOk, Sct : !Serializer AuthSms.SmsCacheToken, Scto : !SerializerOk AuthSms.SmsCacheToken}.
Context `{Ssd : !Serializer AuthSms.SmsDelay, Ssdo : !SerializerOk AuthSms.SmsDelay, Sm : !SmsManager P (AuthWorld C), Smo : !SmsManagerOk P C}.
Implicit Types (o : Op P) (x : AuthWorld C) (a : AuthSms.AuthSmsConfig).
Import AuthSms.
Local Abbreviation cached x := (contents (w_cache x)).

Lemma spec_in_cache {A} (m : M C A) (Q : A -> Op P -> AuthWorld C -> Prop) o x :
  wp m (fun r c => Q r o (@put _ _ cache_lens c x)) (w_cache x) -> spec (in_cache m) Q o x.
Proof. intros H. unfold in_cache. by apply (spec_on (Lens0 := cache_lens)). Qed.

Lemma spec_unset key (Q : option error -> Op P -> AuthWorld C -> Prop) o x :
  (forall e c, contents c = delete key (cached x) -> Q e o (@put _ _ cache_lens c x)) -> spec (unset key) Q o x.
Proof. intros HQ. apply spec_in_cache, cache_unset. intros e c Hc. by apply HQ. Qed.

(** What stays of a state: all but the headers of the response, the cache, the environment. *)
Definition rest x x' : Prop :=
  w_sessions x' = w_sessions x /\ w_clients x' = w_clients x /\ w_users x' = w_users x /\
  w_messages x' = w_messages x /\ w_net x' = w_net x /\ request_part (w_ctx x') = request_part (w_ctx x) /\
  (authUser (w_ctx x'), session_ (w_ctx x'), client_ (w_ctx x')) = (authUser (w_ctx x), session_ (w_ctx x), client_ (w_ctx x)) /\
  same_clock (w_env x) (w_env x').
Lemma rest_refl x : rest x x.
Proof. done. Qed.
Lemma rest_trans x y z : rest x y -> rest y z -> rest x z.
Proof. intros (?&?&?&?&?&?&?&?) (?&?&?&?&?&?&?&?). unfold same_clock in *. split_and!; congruence. Qed.

(** A text in the cache that reads as a token. *)
Definition text_of (text : string) (ct : SmsCacheToken) : Prop :=
  exists b, Decode text = inl b /\ ParseMessage b no_cache_token = (ct, None).

(** The token in the header of the request. *)
Definition token_in x : bool * option error * SmsToken :=
  opened (default "" (request_headers (w_ctx x) !! auth_header SmsProtocol TokenName)) no_token.

(** After [setToken] without an error the cache has the token under its key, and the response has a
    token for the client. *)
Definition token_set a (ct : SmsCacheToken) (id : string) x x' : Prop :=
  exists text header exp,
    cached x' = <[smsTokenCacheKey id := text]> (cached x) /\ (lossless ct -> text_of text ct) /\
    response_headers (w_ctx x') = set_header (auth_header SmsProtocol TokenName) header (response_headers (w_ctx x)) /\ header <> "" /\
    (let tok := {| st_exp := exp; ID := id |} in sendable tok -> forall y, opened header y = (true, None, tok)).

Lemma wp_set_object {T} `{!Serializer T, !SerializerOk T} key (val : T) ttl (Q : option error -> C -> Prop) c :
  (forall e c', contents c' = contents c -> Q (Some e) c') ->
  (forall text c', contents c' = <[key := text]> (contents c) ->
     (lossless val -> exists b, Decode text = inl b /\ forall y, ParseMessage b y = (val, None)) -> Q None c') ->
  wp (SerializedObjectCache.Set_ key val ttl) Q c.
Proof.
  intros He HQ. unfold SerializedObjectCache.Set_. destruct (SerializeMessage val) as [b|err] eqn:E; [|by apply wp_ret, He].
  apply cache_set. intros e c' Hc. destruct e as [e|]; [by apply He|]. eapply HQ; [exact Hc|].
  intros Hl. exists b. rewrite decode_encode. split; [done|]. intros y. by apply parse_serialize.
Qed.

Lemma spec_setToken a c ct tok (Q : option error -> Op P -> AuthWorld C -> Prop) o x :
  (forall err o' x', genericError o' <> None -> (exists code, code <> ErrorCodeInvalidSmsCode /\ o' = with_code code o) ->
     rest x x' -> w_ctx x' = w_ctx x ->
     (cached x' = cached x \/ exists text, cached x' = <[smsTokenCacheKey (ID tok) := text]> (cached x) /\ (lossless ct -> text_of text ct)) ->
     Q (Some err) o' x') ->
  (forall x', rest x x' -> token_set a ct (ID tok) x x' -> Q None o x') ->
  spec (setToken a c ct tok) Q o x.
Proof.
  intros He HQ. unfold setToken. spec_go. apply spec_in_cache, wp_set_object.
  - intros e c' Hc. spec_go. apply He; [apply AuthCsrf.with_code_set|by exists ErrorCodeInternalServerError|done|done|by left].
  - intros text c' Hc Hp. spec_go. apply spec_SetTTL. intros exp _. spec_go.
    assert (Htext : lossless ct -> text_of text ct) by (intros Hl; destruct (Hp Hl) as (b & ? & ?); by exists b).
    apply set_spec.
    + intros err env Hclock. spec_go. apply He; [apply AuthCsrf.with_code_set|by exists ErrorCodeInternalServerError| |done|right; by exists text].
      repeat split. exact Hclock.
    + intros header env Hne Hclock Ho. spec_go. apply HQ; [repeat split; exact Hclock|].
      exists text, header, exp. split; [exact Hc|]. by split_and!.
Qed.

(** ** A request with a code *)

(** The code of the request is compared with that of [ct]: the token of the request opens and has
    not expired, the cache has [ct] for it, with tries left, and its checksum is that of this
    very request. *)
Definition compared a (userId : string) x (tok : SmsToken) (ct : SmsCacheToken) : Prop :=
  token_in x = (true, None, tok) /\ (env_now (w_env x) (env_tick (w_env x)) <= ExpireToken.Exp (st_exp tok))%Z /\
  (exists text, cached x !! smsTokenCacheKey (ID tok) = Some text /\ text_of text ct) /\ (Try ct < MAX_TRIES a)%Z /\
  Decode (Checksum ct) = inl (Hmac.hmac (SECRET a)
    (userId +:+ (request_method (w_ctx x) +:+ (request_path (w_ctx x) +:+ (request_content (w_ctx x) +:+ ""))))).
Definition tried (ct : SmsCacheToken) : SmsCacheToken :=
  {| Try := int64 (Try ct + 1); Code := Code ct; Checksum := Checksum ct; SmsId := SmsId ct |}.
Definition other_code o o' : Prop := exists code, code <> ErrorCodeInvalidSmsCode /\ o' = with_code code o.

Lemma other_code_intro code o : code <> ErrorCodeInvalidSmsCode -> other_code o (with_code code o).
Proof. intros H. by exists code. Qed.

(** Another token takes the place of the one that was used. *)
Definition replaced a (tok : SmsToken) (ct : SmsCacheToken) o x o' x' : Prop :=
  (o' = with_code ErrorCodeInvalidSmsCode o /\
   exists id x1, cached x1 = delete (smsTokenCacheKey (ID tok)) (cached x) /\ w_ctx x1 = w_ctx x /\ token_set a (tried ct) id x1 x') \/
  (other_code o o' /\ w_ctx x' = w_ctx x /\
   (cached x' = delete (smsTokenCacheKey (ID tok)) (cached x) \/
    exists id text, cached x' = <[smsTokenCacheKey id := text]> (delete (smsTokenCacheKey (ID tok)) (cached x)) /\
      (lossless (tried ct) -> text_of text (tried ct)))).

Definition code_post a (userId code : string) (r : bool * option error) o x o' x' : Prop :=
  rest x x' /\
  ((other_code o o' /\ w_ctx x' = w_ctx x /\ (cached x' = cached x \/ exists k, cached x' = delete k (cached x))) \/
   exists tok ct, compared a userId x tok ct /\
     ((code = Code ct /\ r = (true, None) /\ o' = o /\ w_ctx x' = w_ctx x /\
       cached x' = delete (smsDelayCacheKey userId) (delete (smsTokenCacheKey (ID tok)) (cached x))) \/
      (code <> Code ct /\ r.1 = true /\ r.2 <> None /\ replaced a tok ct o x o' x'))).

Lemma spec_leave {A} c msg code found err (Q : A + (bool * option error) -> Op P -> AuthWorld C -> Prop) o x :
  Q (inr (found, err)) (with_code code o) x -> spec (leave c msg code found err) Q o x.
Proof. intros HQ. unfold leave. by spec_go. Qed.

Lemma spec_sms_token c (Q : SmsToken + (bool * option error) -> Op P -> AuthWorld C -> Prop) o x :
  (forall r o' env, same_clock (w_env x) env -> other_code o o' -> Q (inr r) o' (put (env : Env) x)) ->
  (forall tok env, same_clock (w_env x) env -> token_in x = (true, None, tok) ->
     (env_now (w_env x) (env_tick (w_env x)) <= ExpireToken.Exp (st_exp tok))%Z -> Q (inl tok) o (put (env : Env) x)) ->
  spec (read_token c) Q o x.
Proof.
  intros Hr HQ. unfold read_token. spec_go. apply get_spec. change (opened _ _) with (token_in x).
  assert (Hr0 : forall r o', other_code o o' -> Q (inr r) o' x).
  { intros r o' Ho. specialize (Hr r o' (w_env x) (same_clock_refl _) Ho).
    change (put (w_env x) x) with (put (view x : Env) x) in Hr. by rewrite put_view in Hr. }
  destruct (token_in x) as [[found err] tok] eqn:Et. destruct found; cbn [negb]; [|apply spec_leave, Hr0; by apply other_code_intro].
  destruct err as [err|]; [apply spec_leave, Hr0; by apply other_code_intro|]. handler_go.
  destruct (Z.ltb_spec (ExpireToken.Exp (st_exp tok)) (env_now (w_env x) (env_tick (w_env x)))).
  - apply spec_leave, Hr; [apply same_clock_tick|by apply other_code_intro].
  - spec_go. by apply HQ; [apply same_clock_tick|..].
Qed.

Lemma spec_read_cache c key (Q : SmsCacheToken + (bool * option error) -> Op P -> AuthWorld C -> Prop) o x :
  (forall r o' cache, contents cache = cached x -> other_code o o' -> Q (inr r) o' (@put _ _ cache_lens cache x)) ->
  (forall ct cache, contents cache = cached x -> (exists text, cached x !! key = Some text /\ text_of text ct) ->
     Q (inl ct) o (@put _ _ cache_lens cache x)) ->
  spec (read_cache c key) Q o x.
Proof.
  intros Hr HQ. unfold read_cache. spec_go. apply spec_in_cache, SerializedObjectCache.wp_Get.
  intros found err ct c' Hc Hreads. destruct err as [err|]; [apply spec_leave, Hr; [done|by apply other_code_intro]|].
  destruct found; cbn [negb]; [|apply spec_leave, Hr; [done|by apply other_code_intro]]. spec_go. apply HQ; [done|].
  destruct (Hreads eq_refl eq_refl) as (text & b & ? & ? & ?). exists text. split; [done|]. by exists b.
Qed.

Lemma spec_hmacOfRequest a userId (Q : Hmac.t -> Op P -> AuthWorld C -> Prop) o x :
  Q (request_hmac a userId (request_method (w_ctx x)) (request_path (w_ctx x)) (request_content (w_ctx x))) o x ->
  spec (hmacOfRequest a userId) Q o x.
Proof. intros HQ. unfold hmacOfRequest. by handler_go. Qed.

Lemma spec_bad_code a c tok ct x0 (Q : bool * option error -> Op P -> AuthWorld C -> Prop) o x :
  rest x0 x -> w_ctx x = w_ctx x0 -> cached x = cached x0 ->
  (forall r o' x', rest x0 x' -> r.1 = true -> r.2 <> None -> replaced a tok ct o x0 o' x' -> Q r o' x') ->
  spec (bad_code a c (smsTokenCacheKey (ID tok)) tok ct) Q o x.
Proof.
  intros Hrest Hctx Hcache HQ. unfold bad_code. spec_go. apply spec_unset. intros e0 cache1 Hc1. spec_go.
  set (x1 := put cache1 x). apply spec_on, wp_GenerateID_clock. intros id env1 Hclock1.
  spec_go. apply spec_SetTTL. intros exp _. spec_go. set (x2 := put _ (put env1 x1)).
  assert (Hrest2 : rest x0 x2) by (eapply rest_trans; [exact Hrest|]; repeat split; exact Hclock1).
  assert (Hc2 : cached x2 = delete (smsTokenCacheKey (ID tok)) (cached x0)) by (rewrite <- Hcache; exact Hc1).
  fold (tried ct). apply spec_setToken; cbn [ID].
  - intros err o' x' _ Ho Hr Hw Hcc. spec_go. apply HQ; [by eapply rest_trans|done|done|].
    right. split; [done|]. split; [rewrite Hw; exact Hctx|]. rewrite Hc2 in Hcc.
    destruct Hcc as [->|(text & -> & Ht)]; [by left|right; by exists id, text].
  - intros x' Hr Ht. spec_go. apply HQ; [by eapply rest_trans|done|done|].
    left. split; [done|]. by exists id, x2.
Qed.

Lemma checksum_of a userId c ct :
  Hmac.CheckStr (Checksum ct) (request_hmac a userId (request_method c) (request_path c) (request_content c)) = None <->
  Decode (Checksum ct) = inl (Hmac.hmac (SECRET a) (userId +:+ (request_method c +:+ (request_path c +:+ (request_content c +:+ ""))))).
Proof. rewrite Hmac.CheckStr_spec. unfold request_hmac. by rewrite Hmac.Calc_concat. Qed.

Lemma spec_check_code a c userId code (Q : bool * option error -> Op P -> AuthWorld C -> Prop) o x :
  (forall r o' x', code_post a userId code r o x o' x' -> Q r o' x') -> spec (check_code a c userId code) Q o x.
Proof.
  intros HQ. unfold check_code.
  assert (Href : forall r o' x', rest x x' -> w_ctx x' = w_ctx x -> other_code o o' ->
    (cached x' = cached x \/ exists k, cached x' = delete k (cached x)) -> Q r o' x').
  { intros r o' x' Hr Hw Ho Hc. apply HQ. split; [done|]. by left. }
  apply spec_bind_or, spec_sms_token; [intros r o' env He Ho; apply Href; [by repeat split|done|done|by left]|].
  intros tok env Hclock Htok Hexp. set (x1 := put env x).
  apply spec_bind_or, spec_read_cache; [intros r o' cache Hc Ho; apply Href; [by repeat split|done|done|by left]|].
  intros ct cache Hcache Htext. set (x2 := @put _ _ cache_lens cache x1).
  assert (Hr2 : rest x x2) by (repeat split; exact Hclock).
  assert (Hc2 : cached x2 = cached x) by exact Hcache. change (cached x1) with (cached x) in Htext.
  destruct (Z.leb_spec (MAX_TRIES a) (Try ct)) as [Hmax|Hmax].
  - spec_go. apply spec_unset. intros e cache3 Hc3. spec_go.
    apply Href; [by apply Hr2|done|by apply other_code_intro|right]. exists (smsTokenCacheKey (ID tok)). rewrite <- Hc2. exact Hc3.
  - spec_go. apply spec_hmacOfRequest. change (w_ctx x2) with (w_ctx x).
    destruct (Hmac.CheckStr _ _) as [err|] eqn:Ecs.
    { spec_go. apply Href; [by apply Hr2|done|by apply other_code_intro|by left]. }
    assert (Hcmp : compared a userId x tok ct) by (split_and!; try done; by apply checksum_of).
    destruct (decide (code <> Code ct)) as [Hne|Heq].
    + apply (spec_bad_code _ _ _ _ x); [done|done|done|]. intros r o' x' Hr H1 H2 Hrep. apply HQ. split; [done|].
      right. exists tok, ct. split; [done|]. right. by split_and!.
    + apply dec_stable in Heq. spec_go. apply spec_unset. intros e3 cache3 Hc3. spec_go. apply spec_unset. intros e4 cache4 Hc4.
      spec_go. apply HQ. split; [by apply Hr2|]. right. exists tok, ct. split; [done|]. left. split_and!; try done.
      rewrite <- Hc2. transitivity (delete (smsDelayCacheKey userId) (contents cache3)); [exact Hc4|]. by f_equal.
Qed.

(** The request has a code. *)
Definition code_in x : string := default "" (request_headers (w_ctx x) !! auth_header SmsProtocol CodeName).

Lemma spec_Handle_code a u (Q : bool * option error -> Op P -> AuthWorld C -> Prop) o x :
  authUser (w_ctx x) = Some u -> code_in x <> "" ->
  (forall r o' x', code_post a (Auth.GetID u) (code_in x) r o x o' x' -> Q r o' x') -> spec (Handle a) Q o x.
Proof.
  intros Hu Hc HQ. unfold Handle. handler_go. rewrite Hu. handler_go. fold (code_in x). rewrite decide_True by done.
  spec_go. apply spec_check_code. intros r o' x' Hp. spec_go. by apply HQ.
Qed.

(** [C5] What a code confirms.  A request with a code that the handler handles without an error and
    without leaving a generic error is a request of an authenticated user, with a token that opens and
    has not expired; the cache has the code of the request for this token, with tries left, under the checksum of this
    very request: its user, method, path and content.  The token is used up by it, the next message
    need not wait, and nothing else changes. *)
Theorem sms_confirms a (s : St P (AuthWorld C)) :
  let x := st_ext s in
  genericError (st_op s) = None -> code_in x <> "" ->
  let '(r, s') := Handle a s in
  let x' := st_ext s' in
  r.2 = None -> genericError (st_op s') = None ->
  exists u tok ct, authUser (w_ctx x) = Some u /\ compared a (Auth.GetID u) x tok ct /\ code_in x = Code ct /\
    cached x' = delete (smsDelayCacheKey (Auth.GetID u)) (delete (smsTokenCacheKey (ID tok)) (cached x)) /\
    w_ctx x' = w_ctx x /\ rest x x'.
Proof.
  destruct s as [t o x]. cbn [st_ext st_op]. intros Hg Hc.
  assert (Hcode : forall code, genericError (with_code code o) = None -> False) by (intros code E; by rewrite with_code_genericError in E).
  destruct (authUser (w_ctx x)) as [u|] eqn:Eu.
  - pose proof (spec_Handle_code a u (fun r o' x' => code_post a (Auth.GetID u) (code_in x) r o x o' x') o x Eu Hc ltac:(done) t) as HS.
    destruct (Handle a _) as [r [t' o' x']]. cbn [st_ext st_op fst snd] in *. intros Hr Hg'.
    destruct HS as [Hrest [((code & _ & ->) & _)|(tok & ct & Hcmp & Hres)]]; [by apply Hcode in Hg'|].
    destruct Hres as [(Hcc & _ & _ & Hw & Hca)|(_ & _ & Hn & _)]; [|done]. exists u, tok, ct. by split_and!.
  - enough (HS : spec (Handle a) (fun _ o' _ => genericError o' <> None) o x).
    { specialize (HS t). destruct (Handle a _) as [r [t' o' x']]. by intros _ Hg'. }
    unfold Handle. handler_go. rewrite Eu. handler_go. intros E. by apply Hcode in E.
Qed.

(** A code without a token is reported and not refused: no error is returned. *)
Lemma code_without_token a u o x (Q : bool * option error -> Op P -> AuthWorld C -> Prop) :
  authUser (w_ctx x) = Some u -> code_in x <> "" -> request_headers (w_ctx x) !! auth_header SmsProtocol TokenName = None ->
  Q (false, None) (with_code ErrorCodeSmsTokenRequired o) x -> spec (Handle a) Q o x.
Proof.
  intros Hu Hc Ht HQ. unfold Handle. handler_go. rewrite Hu. handler_go. fold (code_in x). rewrite decide_True by done.
  spec_go. unfold check_code. apply spec_bind_or. unfold read_token. spec_go. apply get_spec. cbn [view ctx_lens]. rewrite Ht. cbn [default].
  rewrite opened_empty. cbn [negb]. apply spec_leave. by spec_go.
Qed.
End Facts.
