(* ===== verification/AuthSmsSend.v ===== *)
(** * Confirmations by SMS: sending codes, and how often a code can be guessed

    [sent_post] is the outcome of a request without a code.  Over any sequence of requests the
    answers that tell whether a code is right are bounded by the messages sent
    ([AuthSmsSend.sms_guesses_bounded]). *)
From stdpp Require Import fin_maps.
From S2P Require Import Prelude GoTime Utils Common Errors OpContext Db Crud Auth Crypt AuthParams Cache Session Http Sms Users AuthWorld AuthMethods AuthToken AuthSms AuthSmsCode.
Open Scope go_scope.
Import AuthSms.

(** ** Codes *)

Lemma pad_zero_ge w s : w <= String.length (pad_zero w s).
Proof. unfold pad_zero. rewrite str_length_app, str_length_repeat. lia. Qed.

(** A code has the configured length, which is at most eight, or ten for large random numbers. *)
Lemma wp_genCode a (Q : string + error -> Env -> Prop) e :
  (forall code e', same_clock e e' -> Z.of_nat (String.length code) = CODE_LENGTH a -> Q (inl code) e') ->
  (forall e', same_clock e e' -> (CODE_LENGTH a < 0 \/ 8 < CODE_LENGTH a)%Z -> Q (inr slice_bounds) e') -> wp (genCode a) Q e.
Proof.
  intros Hc He. unfold genCode. apply wp_bind. unfold wp, rand_below. cbn [fst snd]. set (s := fmt_0d 8 _).
  assert (Hs : 8 <= String.length s).
  { unfold s, fmt_0d, fmt_0. rewrite (proj2 (Z.ltb_ge _ _)) by (by apply Z.mod_pos_bound). apply pad_zero_ge. }
  unfold ret. cbn [fst snd].
  destruct (Z.ltb_spec (CODE_LENGTH a) 0), (Z.ltb_spec (Z.of_nat (String.length s)) (CODE_LENGTH a)); cbn [orb];
    try (apply He; [done|lia]).
  apply Hc; [done|]. rewrite str_length_drop. lia.
Qed.

(** ** A request without a code *)

Section Facts.
Context {P C : Type} `{En : !AuthParameterEncryption P (AuthWorld C) SmsToken}.
Context `{Eno : !AuthParameterEncryptionOk P (AuthWorld C) SmsToken, Ca : !StringCache C, Cao : !StringCacheOk C}.
Context `{Di : !Digest, Sc : !StringCoding, Sco : !StringCodingOk, Sct : !Serializer SmsCacheToken, Scto : !SerializerOk SmsCacheToken}.
Context `{Ssd : !Serializer SmsDelay, Ssdo : !SerializerOk SmsDelay, Sm : !SmsManager P (AuthWorld C), Smo : !SmsManagerOk P C}.
Implicit Types (o : Op P) (x : AuthWorld C) (a : AuthSmsConfig).
Local Abbreviation cached x := (contents (w_cache x)).
Local Abbreviation messages x := (rows (w_messages x)).

(** All but the headers of the response, the cache, the messages, the network, the environment. *)
Definition sms_rest x x' : Prop :=
  w_sessions x' = w_sessions x /\ w_clients x' = w_clients x /\ w_users x' = w_users x /\
  request_part (w_ctx x') = request_part (w_ctx x) /\
  (authUser (w_ctx x'), session_ (w_ctx x'), client_ (w_ctx x')) = (authUser (w_ctx x), session_ (w_ctx x), client_ (w_ctx x)) /\
  same_clock (w_env x) (w_env x').
Lemma rest_sms_rest x x' : rest x x' -> sms_rest x x'.
Proof. intros (?&?&?&_&_&?&?&?). by split_and!. Qed.
Lemma sms_rest_trans x y z : sms_rest x y -> sms_rest y z -> sms_rest x z.
Proof. intros (?&?&?&?&?&?) (?&?&?&?&?&?). unfold same_clock in *. split_and!; congruence. Qed.
Lemma only_messages_rest x x' : only_messages x x' -> sms_rest x x'.
Proof. intros (E&?&?&?&_&?). unfold sms_rest. rewrite E. by split_and!. Qed.

Lemma keys_ne id userId : smsTokenCacheKey id <> smsDelayCacheKey userId.
Proof. done. Qed.

(** No entry for the delay is found in the cache. *)
Definition may_send x (userId : string) : Prop :=
  (SerializedObjectCache.Get (smsDelayCacheKey userId) {| CREATED_AT := 0 |} (w_cache x)).1.1.1 = false.
Definition first_token a (userId : string) (c : AuthContext) (code smsId : string) : SmsCacheToken :=
  {| Try := 1; Code := code;
     Checksum := Hmac.SumStr (request_hmac a userId (request_method c) (request_path c) (request_content c)); SmsId := smsId |}.

(** The message that is sent: to the phone of the user, with a new code, which the cache then has
    for a new token unless it fails. *)
Definition code_sent a u x x' : Prop :=
  exists phone message code row id,
    may_send x (Auth.GetID u) /\ precheck (w_ctx x) "" = (message, None) /\ Phone u = Some phone /\ phone <> "" /\
    messages x' = messages x ++ [row] /\ SmsMessage.Phone row = phone /\
    WithUserBase.UserId (SmsMessage.user row) = Auth.GetID u /\ says (sms_text message code) (SmsMessage.Message row) /\
    Z.of_nat (String.length code) = CODE_LENGTH a /\
    (forall k, k <> smsTokenCacheKey id -> k <> smsDelayCacheKey (Auth.GetID u) -> cached x' !! k = cached x !! k) /\
    (cached x' !! smsTokenCacheKey id = cached x !! smsTokenCacheKey id \/
     exists text, cached x' !! smsTokenCacheKey id = Some text /\
       (lossless (first_token a (Auth.GetID u) (w_ctx x) code (Db.GetID row)) ->
        text_of text (first_token a (Auth.GetID u) (w_ctx x) code (Db.GetID row)))).

Definition sent_post a u (r : bool * option error) o x o' x' : Prop :=
  sms_rest x x' /\ table_ok (messages x') /\ genericError o' <> None /\ r.1 = true /\
  ((cached x' = cached x /\ exists new, messages x' = messages x ++ new /\ (r.2 = None -> new = [])) \/ code_sent a u x x').

(** The answers of the handler before anything is sent. *)
Lemma spec_stop {A} c msg code err (Q : A + answer -> Op P -> AuthWorld C -> Prop) o x :
  Q (inr (answers true err)) (with_code code o) x -> spec (stop c msg code err) Q o x.
Proof. intros HQ. unfold stop. by spec_go. Qed.

Lemma spec_check_delay a c userId (Q : unit + answer -> Op P -> AuthWorld C -> Prop) o x :
  (forall r o' x', r.1.1 = true -> genericError o' <> None -> sms_rest x x' -> w_messages x' = w_messages x ->
     cached x' = cached x -> Q (inr r) o' x') ->
  (forall cache, contents cache = cached x -> may_send x userId -> Q (inl tt) o (@put _ _ cache_lens cache x)) ->
  spec (check_delay a c (smsDelayCacheKey userId)) Q o x.
Proof.
  intros Hr HQ. unfold check_delay. spec_go. apply spec_in_cache.
  pose proof (SerializedObjectCache.wp_Get (smsDelayCacheKey userId) {| CREATED_AT := 0 |}
    (fun _ cache => contents (StringCacheOk := Cao) cache = cached x) (w_cache x) ltac:(intros ? ? ? ? Hc _; exact Hc)) as Hc. apply wp_run in Hc.
  unfold wp. destruct (SerializedObjectCache.Get _ _ (w_cache x)) as [[[found err] item] cache] eqn:Eg. cbn [fst snd] in *.
  destruct err as [err|]; [apply spec_stop, Hr; exact Hc || apply AuthCsrf.with_code_set || done|].
  destruct found; handler_go.
  - apply spec_on. unfold wp, Now. cbn [fst snd]. handler_go. apply Hr; exact Hc || apply AuthCsrf.with_code_set || done.
  - apply HQ; [done|]. unfold may_send. by rewrite Eg.
Qed.

Lemma spec_phone_of c u (Q : string + answer -> Op P -> AuthWorld C -> Prop) o x :
  (forall r o', r.1.1 = true -> genericError o' <> None -> Q (inr r) o' x) ->
  (forall phone, Phone u = Some phone -> phone <> "" -> Q (inl phone) o x) ->
  spec (phone_of c u) Q o x.
Proof.
  intros Hr HQ. unfold phone_of. destruct (Phone u) as [phone|]; [|apply spec_stop, Hr; [done|apply AuthCsrf.with_code_set]].
  destruct (decide (phone = "")); [apply spec_stop, Hr; [done|apply AuthCsrf.with_code_set]|]. spec_go. by apply HQ.
Qed.

Lemma spec_generate_code a (Q : string + answer -> Op P -> AuthWorld C -> Prop) o x :
  (0 <= CODE_LENGTH a <= 8)%Z ->
  (forall code env, same_clock (w_env x) env -> Z.of_nat (String.length code) = CODE_LENGTH a -> Q (inl code) o (put (env : Env) x)) ->
  spec (generate_code a) Q o x.
Proof.
  intros Hl HQ. unfold generate_code. spec_go. apply spec_on, wp_genCode.
  - intros code env Hclock Hlen. spec_go. by apply HQ.
  - intros env _ Hbad. lia.
Qed.

Lemma spec_send_code a c u (Q : answer -> Op P -> AuthWorld C -> Prop) o x :
  authUser (w_ctx x) = Some u -> table_ok (messages x) -> (0 <= CODE_LENGTH a <= 8)%Z ->
  (forall r o' x', sent_post a u r.1 o x o' x' -> Q r o' x') -> spec (send_code a c u) Q o x.
Proof.
  intros Hu Hok Hlen HQ. unfold send_code.
  assert (Href : forall (r : answer) o' x', r.1.1 = true -> genericError o' <> None -> sms_rest x x' -> w_messages x' = w_messages x ->
    cached x' = cached x -> Q r o' x').
  { intros r o' x' Hr Hg Hrest Hm Hc. apply HQ. split; [done|]. split; [by rewrite Hm|]. do 2 (split; [done|]). left.
    split; [done|]. exists []. by rewrite Hm, app_nil_r. }
  apply spec_bind_or, spec_check_delay; [exact Href|]. intros cache Hcache Hmay. set (x1 := @put _ _ cache_lens cache x).
  handler_go. change (precheck (w_ctx x1) "") with (precheck (w_ctx x) "").
  destruct (precheck (w_ctx x) "") as [message [err|]] eqn:Epre; handler_go.
  { apply Href; exact Hcache || apply AuthCsrf.with_code_set || done. }
  apply spec_bind_or, spec_phone_of; [intros r o' Hr Hg; apply Href; exact Hcache || done|]. intros phone Hp Hpne.
  handler_go. apply spec_on, wp_GenerateID_clock. intros id env Hclock. set (x2 := put env _).
  apply spec_bind_or, spec_generate_code; [done|]. intros code env3 Hclock3 Hcl. set (x3 := put env3 x2).
  spec_go. apply spec_hmacOfRequest. spec_go.
  assert (Hrest3 : sms_rest x x3) by (repeat split; by eapply same_clock_trans).
  apply (send_spec _ _ u); [exact Hu|exact Hok|]. intros [smsId err] o4 x4 Hx4 Hok4 Hres. cbn [fst snd] in *.
  assert (Hrest4 : sms_rest x x4) by (eapply sms_rest_trans; [exact Hrest3|by apply only_messages_rest]).
  assert (Hc4 : cached x4 = cached x) by (destruct Hx4 as (_&_&_&_&->&_); exact Hcache).
  destruct err as [err|]; spec_go.
  { destruct Hres as [Hg [new Hnew]]. apply HQ. split; [done|]. split; [done|]. cbn. rewrite with_code_genericError.
    do 2 (split; [done|]). left. split; [done|]. by exists new. }
  destruct Hres as (-> & row & Hrow & Hid & Hph & Hui & Hsays). cbn [fst] in Hid. subst smsId.
  set (ct := first_token a (Auth.GetID u) (w_ctx x) code (Db.GetID row)).
  assert (Hsent : forall x', w_messages x' = w_messages x4 ->
    (forall k, k <> smsTokenCacheKey id -> k <> smsDelayCacheKey (Auth.GetID u) -> cached x' !! k = cached x !! k) ->
    (cached x' !! smsTokenCacheKey id = cached x !! smsTokenCacheKey id \/
     exists text, cached x' !! smsTokenCacheKey id = Some text /\ (lossless ct -> text_of text ct)) -> code_sent a u x x').
  { intros x' Hm Ho Ht. exists phone, message, code, row, id. split_and!; try done. by rewrite Hm. }
  change (request_hmac a _ _ _ _) with (request_hmac a (Auth.GetID u) (request_method (w_ctx x)) (request_path (w_ctx x)) (request_content (w_ctx x))).
  apply spec_setToken; cbn [ID].
  - intros e5 o5 x5 Hg _ Hr5 _ Hc5. spec_go. apply HQ. split; [by eapply sms_rest_trans, rest_sms_rest|].
    destruct Hr5 as (_&_&_&Hm5&_). split; [by rewrite Hm5|]. do 2 (split; [done|]). right. apply Hsent; [done|..].
    + intros k Hk _. destruct Hc5 as [->|(text & -> & _)]; [by rewrite Hc4|by rewrite lookup_insert_ne, Hc4].
    + destruct Hc5 as [->|(text & -> & Ht)]; [left; by rewrite Hc4|right]. exists text. by rewrite lookup_insert_eq.
  - intros x5 Hr5 (text & header & exp & Hc5 & Ht & _). spec_go. apply spec_on. unfold wp, Now. cbn [fst snd].
    spec_go. apply spec_in_cache, SerializedObjectCache.wp_Set. intros e6 c6 Hc6 _ _. handler_go.
    apply HQ. pose proof Hr5 as (_&_&_&Hm5&_). split; [eapply sms_rest_trans; [exact Hrest4|by apply rest_sms_rest in Hr5]|].
    split; [cbn; by rewrite Hm5|]. split; [apply AuthCsrf.with_code_set|]. split; [done|]. right. apply Hsent; [exact Hm5|..].
    + intros k Hk Hkd. cbn. rewrite Hc6 by done. cbn. by rewrite Hc5, lookup_insert_ne, Hc4.
    + right. exists text. cbn. rewrite Hc6 by done. cbn. by rewrite Hc5, lookup_insert_eq.
Qed.

(** ** A request *)

Lemma spec_Handle_no_user a (Q : bool * option error -> Op P -> AuthWorld C -> Prop) o x :
  authUser (w_ctx x) = None -> Q (true, None) (with_code ErrorCodeUnauthorized o) x -> spec (Handle a) Q o x.
Proof. intros Hu HQ. unfold Handle. handler_go. rewrite Hu. by handler_go. Qed.

Lemma spec_Handle_no_code a u (Q : bool * option error -> Op P -> AuthWorld C -> Prop) o x :
  authUser (w_ctx x) = Some u -> code_in x = "" -> table_ok (messages x) -> (0 <= CODE_LENGTH a <= 8)%Z ->
  (forall r o' x', sent_post a u r o x o' x' -> Q r o' x') -> spec (Handle a) Q o x.
Proof.
  intros Hu Hc Hok Hlen HQ. unfold Handle. handler_go. rewrite Hu. handler_go. fold (code_in x).
  rewrite decide_False by (intros H; by apply H). spec_go. apply spec_send_code; [done|done|done|]. intros r o' x' Hp. by apply HQ.
Qed.


(** ** Guesses *)

Section Guesses.
Context (a : AuthSmsConfig).
Hypothesis code_length : (0 <= CODE_LENGTH a <= 8)%Z.
Hypothesis max_tries : (1 <= MAX_TRIES a < 2 ^ 63)%Z.
(** The format keeps every token of a machine integer, and numbers that are read are such integers. *)
Hypothesis tokens_lossless : forall ct : SmsCacheToken, in_int64 (Try ct) -> lossless ct.
Hypothesis tries_int : forall b ct, ParseMessage b no_cache_token = (ct, None) -> in_int64 (Try ct).

(** The tries a text in the cache has left. *)
Definition tries_left (text : string) : Z :=
  match Decode text with
  | inr _ => 0
  | inl b => match ParseMessage b no_cache_token with (ct, None) => Z.max 0 (MAX_TRIES a - Try ct) | _ => 0 end
  end.
Definition is_token_key (k : string) : bool := String.prefix (SmsTokenCacheKey +:+ "/") k.
Definition left_at (k : string) (v : option string) : Z :=
  if is_token_key k then match v with Some text => tries_left text | None => 0 end else 0.
(** The tries all tokens in the cache have left. *)
Definition budget (m : gmap string string) : Z := map_fold (fun k v n => left_at k (Some v) + n)%Z 0%Z m.

Lemma tries_left_pos text : (0 <= tries_left text)%Z.
Proof. unfold tries_left. destruct (Decode text); [|done]. destruct (ParseMessage _ _) as [? []]; lia. Qed.
Lemma left_at_pos k v : (0 <= left_at k v)%Z.
Proof. unfold left_at. destruct (is_token_key k); [|done]. destruct v; [apply tries_left_pos|done]. Qed.
Lemma text_of_left text ct : text_of text ct -> tries_left text = Z.max 0 (MAX_TRIES a - Try ct).
Proof. intros (b & Hd & Hp). unfold tries_left. by rewrite Hd, Hp. Qed.
Lemma token_key id : is_token_key (smsTokenCacheKey id) = true.
Proof. unfold is_token_key, smsTokenCacheKey. rewrite <- str_app_assoc. apply prefix_app. Qed.

Lemma budget_insert m k v : m !! k = None -> budget (<[k := v]> m) = (left_at k (Some v) + budget m)%Z.
Proof. intros Hm. unfold budget. apply (map_fold_insert_L (fun k v n => left_at k (Some v) + n)%Z); [lia|done]. Qed.
Lemma budget_split m k : budget m = (left_at k (m !! k) + budget (delete k m))%Z.
Proof.
  destruct (m !! k) as [v|] eqn:E.
  - rewrite <- (insert_delete_id m k v) at 1 by done. apply budget_insert, lookup_delete_eq.
  - rewrite (delete_id m k) by done. unfold left_at. by destruct (is_token_key k).
Qed.
Lemma budget_delete m k : (budget (delete k m) <= budget m)%Z.
Proof. rewrite (budget_split m k). pose proof (left_at_pos k (m !! k)). lia. Qed.
Lemma budget_set m k v : (budget (<[k := v]> m) <= left_at k (Some v) + budget m)%Z.
Proof.
  rewrite (budget_split (<[k := v]> m) k), lookup_insert_eq, delete_insert_eq.
  pose proof (budget_delete m k). lia.
Qed.
Lemma budget_pos m : (0 <= budget m)%Z.
Proof.
  induction m as [|k v m Hk IH] using map_ind; [done|]. rewrite budget_insert by done.
  pose proof (left_at_pos k (Some v)). lia.
Qed.

(** Fewer tokens, whatever the other entries. *)
Lemma budget_le m m' :
  (forall k, is_token_key k = true -> m' !! k = m !! k \/ m' !! k = None) -> (budget m' <= budget m)%Z.
Proof.
  revert m'. induction m as [|k v m Hk IH] using map_ind; intros m' Hm.
  - assert (budget m' = 0%Z) as ->; [|done]. induction m' as [|k v m' Hk IH] using map_ind; [done|].
    rewrite budget_insert by done. rewrite IH.
    + unfold left_at. destruct (is_token_key k) eqn:E; [|done]. specialize (Hm k E).
      rewrite lookup_insert_eq, lookup_empty in Hm. by destruct Hm.
    + intros j Hj. specialize (Hm j Hj). destruct (decide (j = k)) as [->|Hne]; [by rewrite Hk; right|].
      by rewrite lookup_insert_ne in Hm.
  - rewrite (budget_split m' k), (budget_insert m k v Hk).
    assert (left_at k (m' !! k) <= left_at k (Some v))%Z.
    { destruct (is_token_key k) eqn:E; [|unfold left_at; by rewrite E]. specialize (Hm k E). rewrite lookup_insert_eq in Hm.
      destruct Hm as [-> | ->]; [done|]. unfold left_at at 1. rewrite E. apply left_at_pos. }
    assert (budget (delete k m') <= budget m)%Z; [|lia]. apply IH. intros j Hj. destruct (decide (j = k)) as [->|Hne].
    + right. apply lookup_delete_eq.
    + rewrite lookup_delete_ne by done. specialize (Hm j Hj). by rewrite lookup_insert_ne in Hm.
Qed.

(** The answer tells whether the code of the request is right: it is let through, or told that the
    code is wrong. *)
Definition tells x (r : bool * option error) (o' : Op P) : bool :=
  bool_decide (code_in x <> "") &&
  (bool_decide (r.2 = None /\ genericError o' = None) || bool_decide (Errors.Code (genericError o') = ErrorCodeInvalidSmsCode)).

Lemma other_code_tells x r o o' : genericError o = None -> other_code o o' -> tells x r o' = false.
Proof.
  intros Hg (code & Hne & ->). unfold tells. rewrite with_code_genericError, Hg. cbn [default Errors.Code].
  rewrite (bool_decide_eq_false_2 (_ /\ _)) by (by intros [_ ?]).
  rewrite (bool_decide_eq_false_2 (_ = ErrorCodeInvalidSmsCode)) by exact Hne. apply andb_false_r.
Qed.

Lemma compared_left userId x tok ct : compared a userId x tok ct ->
  (budget (delete (smsTokenCacheKey (ID tok)) (cached x)) + 1 <= budget (cached x) /\
   budget (delete (smsTokenCacheKey (ID tok)) (cached x)) + (MAX_TRIES a - Try ct) <= budget (cached x) /\
   Z.max 0 (MAX_TRIES a - Try (tried ct)) + 1 <= MAX_TRIES a - Try ct)%Z.
Proof.
  intros (_ & _ & (text & Ht & Htext) & Hlt & _).
  rewrite (budget_split (cached x) (smsTokenCacheKey (ID tok))), Ht. unfold left_at. rewrite token_key, (text_of_left _ _ Htext).
  destruct Htext as (b & _ & Hp). apply tries_int in Hp. unfold tried, in_int64 in *. cbn [Try].
  rewrite int64_id by (unfold in_int64; lia). lia.
Qed.

Lemma code_budget userId code r o x o' x' :
  genericError o = None -> code_post a userId code r o x o' x' ->
  ((if tells x r o' then 1 else 0) + budget (cached x') <= budget (cached x))%Z.
Proof.
  intros Hg [_ [(Ho & _ & Hc)|(tok & ct & Hcmp & Hres)]].
  - rewrite (other_code_tells _ _ _ _ Hg Ho). destruct Hc as [->|[k ->]]; [lia|]. pose proof (budget_delete (cached x) k). lia.
  - destruct (compared_left _ _ _ _ Hcmp) as (H1 & H2 & H3). set (m := delete (smsTokenCacheKey (ID tok)) (cached x)) in *.
    assert (Hle : ((if tells x r o' then 1 else 0) <= 1)%Z) by (by destruct (tells x r o')).
    assert (Hset : forall id text, (lossless (tried ct) -> text_of text (tried ct)) ->
      (budget (<[smsTokenCacheKey id := text]> m) + 1 <= budget (cached x))%Z).
    { intros id text Ht. pose proof (budget_set m (smsTokenCacheKey id) text) as Hb. unfold left_at in Hb.
      rewrite token_key, (text_of_left _ _ (Ht (tokens_lossless (tried ct) (int64_range _)))) in Hb. lia. }
    destruct Hres as [(_ & _ & _ & _ & ->)|(_ & _ & _ & Hrep)].
    + pose proof (budget_delete m (smsDelayCacheKey userId)). lia.
    + destruct Hrep as [(_ & id & x1 & E1 & _ & text & header & exp & -> & Ht & _)|(Ho & _ & [->|(id & text & -> & Ht)])].
      * rewrite E1. fold m. specialize (Hset id text Ht). lia.
      * fold m. lia.
      * fold m. specialize (Hset id text Ht). lia.
Qed.

Lemma sent_budget u r o x o' x' :
  code_in x = "" -> sent_post a u r o x o' x' ->
  ((if tells x r o' then 1 else 0) + budget (cached x') <=
   budget (cached x) + (MAX_TRIES a - 1) * (Z.of_nat (length (messages x')) - Z.of_nat (length (messages x))))%Z.
Proof.
  intros Hc (_ & _ & _ & _ & Hres). unfold tells. rewrite (bool_decide_eq_false_2 (code_in x <> "")) by (intros H; by apply H).
  cbn [andb]. destruct Hres as [[-> (new & -> & _)]|(phone & message & code & row & id & _ & _ & _ & _ & Hm & _ & _ & _ & _ & Ho & Ht)].
  - rewrite length_app. nia.
  - rewrite Hm, length_app. cbn [length].
    set (k := smsTokenCacheKey id) in *. set (kd := smsDelayCacheKey (Auth.GetID u)) in *.
    rewrite (budget_split (cached x') k), (budget_split (cached x) k).
    assert (Hd : forall m, budget (delete k m) = budget (delete kd (delete k m))).
    { intros m. rewrite (budget_split (delete k m) kd). unfold left_at at 1. change (is_token_key kd) with false. done. }
    assert (delete kd (delete k (cached x')) = delete kd (delete k (cached x))) as Hsame.
    { apply map_eq. intros j. destruct (decide (j = kd)) as [->|Hjd]; [by rewrite !lookup_delete_eq|].
      rewrite !(lookup_delete_ne _ kd) by done. destruct (decide (j = k)) as [->|Hjk]; [by rewrite !lookup_delete_eq|].
      rewrite !lookup_delete_ne by done. by apply Ho. }
    rewrite (Hd (cached x')), (Hd (cached x)), Hsame.
    assert (left_at k (cached x' !! k) <= left_at k (cached x !! k) + (MAX_TRIES a - 1))%Z; [|lia].
    destruct Ht as [->|(text & -> & Ht)]; [lia|]. unfold left_at at 1. unfold k at 1. rewrite token_key.
    rewrite (text_of_left _ _ (Ht ltac:(apply tokens_lossless; by vm_compute))). cbn [Try first_token]. pose proof (left_at_pos k (cached x !! k)). lia.
Qed.

(** Requests handled one after another on one cache, each with a context of its own; in between
    entries of the cache expire, other parts of the application use other keys of the cache and
    send other messages, and anything else changes. *)
Inductive sms_run (x : AuthWorld C) : Z -> AuthWorld C -> Prop :=
  | run_start : sms_run x 0 x
  | run_request g y t o c : sms_run x g y -> genericError o = None ->
      let r := Handle a (Build_St t o (put (c : AuthContext) y)) in
      sms_run x (g + if tells (put c y) r.1 (st_op r.2) then 1 else 0) (st_ext r.2)
  | run_other g y z : sms_run x g y ->
      (forall k, is_token_key k = true -> cached z !! k = cached y !! k \/ cached z !! k = None) ->
      length (messages y) <= length (messages z) -> table_ok (messages z) -> sms_run x g z.

Lemma sms_run_bound x g y :
  sms_run x g y -> table_ok (messages x) ->
  table_ok (messages y) /\ length (messages x) <= length (messages y) /\
  (g + budget (cached y) <= budget (cached x) +
    (MAX_TRIES a - 1) * (Z.of_nat (length (messages y)) - Z.of_nat (length (messages x))))%Z.
Proof.
  intros Hrun Hok. induction Hrun as [|g y t o c Hrun IH Hg r|g y z Hrun IH Hk Hlen Hokz].
  - split; [done|]. split; [done|]. lia.
  - destruct (IH) as (Hoky & Hly & Hb). set (y' := put c y) in *.
    assert (HS : spec (Handle a) (fun r o' x' => table_ok (messages x') /\ length (messages y) <= length (messages x') /\
      ((if tells y' r o' then 1 else 0) + budget (cached x') <= budget (cached y) +
        (MAX_TRIES a - 1) * (Z.of_nat (length (messages x')) - Z.of_nat (length (messages y))))%Z) o y').
    { destruct (authUser (w_ctx y')) as [u|] eqn:Eu.
      - destruct (decide (code_in y' = "")) as [Hc|Hc].
        + apply (spec_Handle_no_code _ u); [done|done|done|done|]. intros r0 o' x' Hp.
          pose proof (sent_budget _ _ _ _ _ _ Hc Hp) as Hbud. destruct Hp as (_ & Hok' & _ & _ & Hm). split; [done|]. split; [|exact Hbud].
          destruct Hm as [[_ (new & -> & _)]|(? & ? & ? & row & ? & _ & _ & _ & _ & -> & _)];
            change (messages y') with (messages y); rewrite length_app; lia.
        + apply (spec_Handle_code _ u); [done|done|]. intros r0 o' x' Hp.
          pose proof (code_budget _ _ _ _ _ _ _ Hg Hp) as Hbud. destruct Hp as [(_&_&_&Hm&_) _]. rewrite Hm.
          split; [done|]. split; [done|]. change (cached y') with (cached y) in Hbud. change (w_messages y') with (w_messages y). lia.
      - apply spec_Handle_no_user; [done|]. split; [done|]. split; [done|].
        rewrite (other_code_tells _ _ o) by (done || by apply other_code_intro).
        change (cached y') with (cached y). change (messages y') with (messages y). lia. }
    specialize (HS t). cbn zeta in HS. fold r in HS. destruct HS as (H1 & H2 & H3). split; [done|]. split; [lia|]. nia.
  - destruct IH as (_ & Hly & Hb). split; [done|]. split; [lia|].
    pose proof (budget_le (cached y) (cached z) Hk). nia.
Qed.

(** [C6] Codes cannot be tried out.  Start with no token of this handler in the cache.  Over any
    sequence of requests, of any users and clients, with whatever contents and in whatever order,
    while entries of the cache expire and other messages are sent, the number of answers that tell
    whether a code is right is at most [MAX_TRIES - 1] for every message sent. *)
Theorem sms_guesses_bounded x g y :
  sms_run x g y -> table_ok (messages x) ->
  (forall k, is_token_key k = true -> cached x !! k = None) ->
  (g <= (MAX_TRIES a - 1) * (Z.of_nat (length (messages y)) - Z.of_nat (length (messages x))))%Z.
Proof.
  intros Hrun Hok Hnone. destruct (sms_run_bound _ _ _ Hrun Hok) as (_ & _ & Hb).
  pose proof (budget_pos (cached y)). assert (Hx : (budget (cached x) <= budget ∅)%Z) by (apply budget_le; intros; right; by apply Hnone).
  change (budget ∅) with 0%Z in Hx. lia.
Qed.
End Guesses.
End Facts.
