(* ===== verification/Signature.v ===== *)
(** * pkg/signature and the signatures of pkg/crypt_utils

    A request can be signed with the RSA key of its user.  Keys and signatures are those of Go's
    crypto packages ([RsaLib]); the hash, the text forms and the checks are the code's.  The manager
    of signatures keeps each signature it has verified in a table. *)
From S2P Require Import Prelude Utils Common Errors OpContext Db Crud Auth Crypt AuthParams Session AuthMethods.
Open Scope go_scope.

(** ** Signatures (rsa_verifier.go, rsa_signer.go, signature.go) *)

(** encoding/pem, crypto/x509 and crypto/rsa: blocks with their types, keys, and PKCS #1 signatures of
    SHA-256 sums.  A parsed key is [None] if it is not an RSA key. *)
Class RsaLib := {
  PublicKey : Type;
  PrivateKey : Type;
  pem_Decode : string -> option (string * string);
  ParsePKIXPublicKey : string -> option PublicKey + error;
  DecryptPEMBlock : string -> string -> string + error;
  ParsePKCS1PrivateKey : string -> PrivateKey + error;
  ParsePKCS8PrivateKey : string -> option PrivateKey + error;
  VerifyPKCS1v15 : PublicKey -> string -> string -> option error;
  SignPKCS1v15 : PrivateKey -> string -> string + error;
  (** The keys of one pair. *)
  key_pair : PublicKey -> PrivateKey -> Prop
}.
Class RsaLibOk `{RsaLib} :=
  sign_verifies pub priv hash sig : key_pair pub priv -> SignPKCS1v15 priv hash = inl sig -> VerifyPKCS1v15 pub hash sig = None.

Definition RSA_H256_SIGNATURE := "rsa_h256_signature".

Module RsaVerifier.
Definition LoadKey `{!RsaLib} (data : string) : PublicKey + error :=
  match pem_Decode data with
  | None => inr (Native "RSA public key not in pem format")
  | Some (type, bytes) =>
      if decide (type <> "RSA PUBLIC KEY" /\ type <> "PUBLIC KEY") then inr (Native "RSA public key is of the wrong type")
      else match ParsePKIXPublicKey bytes with
           | inr err => inr (Native ("unable to parse RSA public key: " +:+ Error err))
           | inl None => inr (Native "unable to parse RSA public key")
           | inl (Some key) => inl key
           end
  end.
Definition Verify `{!RsaLib, !Digest} (key : PublicKey) (data signature : string) (extraData : list string) : option error :=
  VerifyPKCS1v15 key (H256 data extraData) signature.
End RsaVerifier.

Module RsaSigner.
(** [None]: a text that is not in pem format is dereferenced. *)
Definition LoadKey `{!RsaLib} (data password : string) : option (PrivateKey + error) :=
  match pem_Decode data with
  | None => None
  | Some (type, bytes) => Some (
      if decide (type <> "RSA PRIVATE KEY") then inr (Native "RSA private key is of the wrong type")
      else
        match (if decide (password <> "") then DecryptPEMBlock bytes password else inl bytes) with
        | inr _ => inr (Native "unable to decrypt passphrase")
        | inl bytes =>
            match ParsePKCS1PrivateKey bytes with
            | inl key => inl key
            | inr _ =>
                match ParsePKCS8PrivateKey bytes with
                | inl (Some key) => inl key
                | _ => inr (Native "unable to parse RSA private key")
                end
            end
        end)
  end.
Definition Sign `{!RsaLib, !Digest} (key : PrivateKey) (data : string) (extraData : list string) : string + error :=
  SignPKCS1v15 key (H256 data extraData).
End RsaSigner.

Section Rsa.
Context `{Rl : !RsaLib, Di : !Digest, Sc : !StringCoding}.
(** The text of a signature; the extra data are not signed. *)
Definition Sign (signer : PrivateKey) (data : string) (extraData : list string) : string + error :=
  match RsaSigner.Sign signer data [] with inr err => inr err | inl signature => inl (Encode signature) end.
Definition VerifySignature (verifier : PublicKey) (data signature : string) (extraData : list string) : option error :=
  match Decode signature with inr err => Some err | inl sig => RsaVerifier.Verify verifier data sig extraData end.

Lemma sign_verify `{!RsaLibOk, !StringCodingOk} pub priv data extraData sig :
  key_pair pub priv -> Sign priv data extraData = inl sig -> VerifySignature pub data sig [] = None.
Proof.
  unfold Sign, VerifySignature, RsaSigner.Sign, RsaVerifier.Verify. intros Hk.
  destruct (SignPKCS1v15 _ _) as [s|] eqn:E; [|done]. intros [= <-]. rewrite decode_encode. by eapply sign_verifies.
Qed.
End Rsa.

(** ** The table of signatures (db_models.go) *)

Module MessageSignature.
Record t := {
  base : ObjectBase.t; Month : Utils.Month.t; user : WithUserBase.t;
  Context : string; Operation : string; Algorithm : string; Message : string; Signature : string; ExtraData : string; PubKeyHash : string
}.
Definition zero : t := {| base := ObjectBase.zero; Month := 0%Z; user := WithUserBase.zero; Context := ""; Operation := "";
  Algorithm := ""; Message := ""; Signature := ""; ExtraData := ""; PubKeyHash := "" |}.
Definition set_base b m := {| base := b; Month := Month m; user := user m; Context := Context m; Operation := Operation m;
  Algorithm := Algorithm m; Message := Message m; Signature := Signature m; ExtraData := ExtraData m; PubKeyHash := PubKeyHash m |}.
Definition SetMonth v m := {| base := base m; Month := v; user := user m; Context := Context m; Operation := Operation m;
  Algorithm := Algorithm m; Message := Message m; Signature := Signature m; ExtraData := ExtraData m; PubKeyHash := PubKeyHash m |}.
Definition set_user u m := {| base := base m; Month := Month m; user := u; Context := Context m; Operation := Operation m;
  Algorithm := Algorithm m; Message := Message m; Signature := Signature m; ExtraData := ExtraData m; PubKeyHash := PubKeyHash m |}.
Definition set_Context v m := {| base := base m; Month := Month m; user := user m; Context := v; Operation := Operation m;
  Algorithm := Algorithm m; Message := Message m; Signature := Signature m; ExtraData := ExtraData m; PubKeyHash := PubKeyHash m |}.
Definition set_Operation v m := {| base := base m; Month := Month m; user := user m; Context := Context m; Operation := v;
  Algorithm := Algorithm m; Message := Message m; Signature := Signature m; ExtraData := ExtraData m; PubKeyHash := PubKeyHash m |}.
Definition set_Algorithm v m := {| base := base m; Month := Month m; user := user m; Context := Context m; Operation := Operation m;
  Algorithm := v; Message := Message m; Signature := Signature m; ExtraData := ExtraData m; PubKeyHash := PubKeyHash m |}.
Definition set_Message v m := {| base := base m; Month := Month m; user := user m; Context := Context m; Operation := Operation m;
  Algorithm := Algorithm m; Message := v; Signature := Signature m; ExtraData := ExtraData m; PubKeyHash := PubKeyHash m |}.
Definition set_Signature v m := {| base := base m; Month := Month m; user := user m; Context := Context m; Operation := Operation m;
  Algorithm := Algorithm m; Message := Message m; Signature := v; ExtraData := ExtraData m; PubKeyHash := PubKeyHash m |}.
Definition set_ExtraData v m := {| base := base m; Month := Month m; user := user m; Context := Context m; Operation := Operation m;
  Algorithm := Algorithm m; Message := Message m; Signature := Signature m; ExtraData := v; PubKeyHash := PubKeyHash m |}.
Definition set_PubKeyHash v m := {| base := base m; Month := Month m; user := user m; Context := Context m; Operation := Operation m;
  Algorithm := Algorithm m; Message := Message m; Signature := Signature m; ExtraData := ExtraData m; PubKeyHash := v |}.
Definition columns : list (string * Col t) :=
  Eval cbn in object_columns base set_base ++ [("month", int_col (- 2 ^ 63) (2 ^ 63 - 1) Month SetMonth)] ++ user_columns user set_user ++
  [("context", str_col Context set_Context); ("operation", str_col Operation set_Operation);
   ("algorithm", str_col Algorithm set_Algorithm); ("message", str_col Message set_Message);
   ("signature", str_col Signature set_Signature); ("extra_data", str_col ExtraData set_ExtraData);
   ("pub_key_hash", str_col PubKeyHash set_PubKeyHash)].
End MessageSignature.
Abbreviation MessageSignature := MessageSignature.t.

#[export] Instance signature_entity : Entity MessageSignature := {|
  obj_base := MessageSignature.base; set_base := MessageSignature.set_base; columns := MessageSignature.columns;
  unique_indexes := [["id"]; ["context"]]
|}.
#[export] Instance signature_entity_ok : EntityOk MessageSignature.
Proof. split; try done. solve_columns. Qed.

(** ** The manager (signature_manager.go) *)

Definition ErrorCodeInvalidKey := "invalid_key".
Definition ErrorCodeInvalidSignature := "invalid_signature".
Definition ErrorDescriptions : gmap string string := list_to_map
  [(ErrorCodeInvalidSignature, "Invalid signature."); (ErrorCodeInvalidKey, "Invalid key.")].
Definition ErrorHttpCodes : gmap string Z := {[ErrorCodeInvalidSignature := 401%Z]}.

Module SignatureManagerBase.
Record Config := { ALGORITHM : string; ENCRYPT_MESSAGE_STORE : bool; SECRET : string; SALT : string }.
Record t := { config : Config; cipher : option AEAD.t }.

(** [Init] after the configuration is loaded. *)
Definition Init `{!CipherLib} (c : Config) : t + error :=
  if ENCRYPT_MESSAGE_STORE c then
    if decide (SECRET c = "") then inr (Native "encryption secret must not be empty")
    else if decide (SALT c = "") then inr (Native "encryption salt must not be empty")
    else match AEAD.NewAEAD (SECRET c) (SALT c) DefaultIterations with
         | inr err => inr err
         | inl cipher => inl {| config := c; cipher := Some cipher |}
         end
  else inl {| config := c; cipher := None |}.

(** The texts of the errors of [utils.MonthFromId]. *)
Definition id_error_text (e : Utils.Month.id_error) : string :=
  match e with Utils.Month.ErrTooShortID => "too short ID" | Utils.Month.ErrInvalidTime => "invalid time in ID" end.

Section Methods.
Context {P X : Type}.
Context `{Lt : !Lens X (table MessageSignature), Lx : !Lens X AuthContext, Le : !Lens X Env}.
Context `{Es : !Engine MessageSignature, Ci : !CipherLib, Sc : !StringCoding, Di : !Digest, Rl : !RsaLib}.
Local Abbreviation act := (M (St P X)).
(** The local time zone, for months of identifiers. *)
Variable tz : Z.

Definition MakeVerifier (s : t) (key : string) : act (PublicKey + error) :=
  traced "SignatureManagerBase.MakeVerfier" (fun c =>
    if decide (ALGORITHM (config s) <> RSA_H256_SIGNATURE) then
      let err := Native "unsupported algorithm" in SetError c (Some err) ;; ret (inr err)
    else
      match RsaVerifier.LoadKey key with
      | inr err =>
          SetGenericErrorCode ErrorCodeInvalidKey [] ;;
          SetMessage c "failed to load public key" ;; SetError c (Some err) ;; ret (inr err)
      | inl verifier => ret (inl verifier)
      end).

Definition CheckPubKey (s : t) (key : string) : act (option error) :=
  traced_exit "SignatureManagerBase.CheckPubKey" (fun c =>
    let* v := MakeVerifier s key in
    match v with inr err => ret (Some err, Some err) | inl _ => ret (None, None) end).

(** The text that is kept. *)
Definition stored (s : t) (message : string) : act (string + error) :=
  if ENCRYPT_MESSAGE_STORE (config s) then
    match cipher s with
    | None => ret (inr nil_user)
    | Some cipher =>
        let* ciphertext := on (AEAD.Encrypt message [] cipher) in
        match ciphertext with inr err => ret (inr err) | inl ciphertext => ret (inl (Encode ciphertext)) end
    end
  else ret (inl message).

Definition new_signature (s : t) (id name signature hash : string) (extraData : list string) (user : AuthUser) (obj : MessageSignature) :
    MessageSignature :=
  MessageSignature.set_PubKeyHash hash (MessageSignature.set_ExtraData (Join extraData "+")
    (MessageSignature.set_Signature signature (MessageSignature.set_Algorithm (ALGORITHM (config s))
      (MessageSignature.set_Operation name (MessageSignature.set_user (WithUserBase.SetUser user (MessageSignature.user obj))
        (MessageSignature.set_Context id (MessageSignature.SetMonth
          (match Utils.Month.MonthFromId tz id with inl m => m | inr _ => 0%Z end) obj))))))).

Definition Verify (s : t) (signature message : string) (extraData : list string) : act (option error) :=
  traced_exit "SignatureManagerBase.Verify" (fun c =>
    let* user := AuthUser_ in
    match user with
    | None => ret (Some nil_user, None)
    | Some user =>
        match Pubkey user with
        | None =>
            SetMessage c "user must be of UserWithPubkey interface" ;;
            SetGenericErrorCode ErrorCodeInternalServerError [] ;;
            ret (None, None)
        | Some (key, hash) =>
            let* verifier := MakeVerifier s key in
            match verifier with
            | inr err => ret (Some err, Some err)
            | inl verifier =>
                match VerifySignature verifier message signature [] with
                | Some err =>
                    SetMessage c "invalid signature" ;;
                    SetGenericErrorCode ErrorCodeInvalidSignature [] ;; ret (Some err, Some err)
                | None =>
                    let* obj := on (InitObject MessageSignature.zero) in
                    let* id := on_op (gets op_id) in
                    let* name := on_op (gets op_name) in
                    let obj := new_signature s id name signature hash extraData user obj in
                    let* text := stored s message in
                    match text with
                    | inr err =>
                        SetMessage c "failed to encrypt message" ;;
                        SetGenericErrorCode ErrorCodeInternalServerError [] ;; ret (Some err, None)
                    | inl text =>
                        let* err := on (query (fun t => eng_create t (MessageSignature.set_Message text obj))) in
                        match err with
                        | Some _ =>
                            SetMessage c "failed to save message signature in database" ;;
                            SetGenericErrorCode ErrorCodeInternalServerError [] ;; ret (err, err)
                        | None => ret (None, None)
                        end
                    end
                end
            end
        end
    end).

Definition Find (contextId : string) : act (option MessageSignature * option error) :=
  traced_exit "SmsManagerBase.FindSms" (fun c =>
    match Utils.Month.MonthFromId tz contextId with
    | inr err =>
        let err := Some (Native (id_error_text err)) in SetMessage c "invalid context ID" ;; ret ((None, err), err)
    | inl month =>
        let* '(row, err) := on (read_query (fun t => eng_find NoLock t (<["context" := VStr contextId]> {["month" := VInt month]}))) in
        match err, row with
        | Some _, _ => SetMessage c "failed to find signature in database" ;; ret ((None, err), err)
        | None, None => let err := Some (Native "signature not found") in ret ((None, err), err)
        | None, Some row => ret ((Some row, None), None)
        end
    end).

(** The manager as the handler of signed requests uses it. *)
Definition manager (s : t) : SignatureManager P X := {|
  AuthMethods.Verify signature message method path := Verify s signature message [method; path]
|}.
End Methods.

Definition AttachToErrorManager (m : ErrorManagerBase.t) : ErrorManagerBase.t :=
  ErrorManagerBase.AddErrorProtocolCodes ErrorHttpCodes (ErrorManagerBase.AddErrorDescriptions ErrorDescriptions m).

(** ** Signed requests *)

Section Facts.
Context {P X : Type}.
Context `{Lt : !Lens X (table MessageSignature), Lx : !Lens X AuthContext, Le : !Lens X Env}.
Context `{Ld : !Disjoint_lens X (table MessageSignature) Env, Es : !Engine MessageSignature, Eo : !EngineOk MessageSignature}.
Context `{Ci : !CipherLib, Co : !CipherLibOk, Sc : !StringCoding, So : !StringCodingOk, Di : !Digest, Rl : !RsaLib}.
Implicit Types (o : Op P) (x : X).
Variable tz : Z.

Definition signatures x : list MessageSignature := rows (view x).

(** A manager as [Init] makes it. *)
Definition manager_ok (s : t) : Prop := Init (config s) = inl s.

(** The text that is kept says what the message is. *)
Definition keeps (s : t) (message text : string) : Prop :=
  if ENCRYPT_MESSAGE_STORE (config s) then
    exists c ct, cipher s = Some c /\ Decode text = inl ct /\ AEAD.Decrypt ct [] c = inl message
  else text = message.

Lemma spec_stored s message (Q : string + error -> Op P -> X -> Prop) o x :
  manager_ok s ->
  (forall text env, keeps s message text -> Q (inl text) o (put (env : Env) x)) ->
  (forall err env, Q (inr err) o (put (env : Env) x)) ->
  spec (stored s message) Q o x.
Proof.
  unfold manager_ok, Init, stored, keeps. intros Hok HQ He. destruct (ENCRYPT_MESSAGE_STORE (config s)).
  - destruct (decide _); [done|]. destruct (decide _); [done|]. destruct (AEAD.NewAEAD _ _ _) as [c|] eqn:Ek; [|done].
    injection Hok as Hs. rewrite <- Hs in *. cbn [cipher] in *. spec_go. apply spec_on. eapply AEAD.wp_Encrypt; [exact Ek| |].
    + intros ct env _ Hd _. spec_go. apply HQ. exists c, ct. by rewrite decode_encode.
    + intros err env _. spec_go. by apply He.
  - spec_go. specialize (HQ message (view x) eq_refl). by rewrite put_view in HQ.
Qed.

(** The request of a user with a key that signs the content. *)
Definition signed_by (s : t) (u : AuthUser) (hash signature message : string) : Prop :=
  exists key pub, Pubkey u = Some (key, hash) /\ ALGORITHM (config s) = RSA_H256_SIGNATURE /\
    RsaVerifier.LoadKey key = inl pub /\ VerifySignature pub message signature [] = None.

(** The row that is kept of it. *)
Definition kept (s : t) (u : AuthUser) (hash signature message : string) (extraData : list string) o (row : MessageSignature) : Prop :=
  WithUserBase.UserId (MessageSignature.user row) = Auth.GetID u /\ MessageSignature.Context row = op_id o /\
  MessageSignature.Operation row = op_name o /\ MessageSignature.Signature row = signature /\
  MessageSignature.ExtraData row = Join extraData "+" /\ MessageSignature.PubKeyHash row = hash /\
  keeps s message (MessageSignature.Message row).

Definition verify_post (s : t) (signature message : string) (extraData : list string) (r : option error) o x o' x' : Prop :=
  (exists u hash row, r = None /\ o' = o /\ authUser (view x) = Some u /\ signed_by s u hash signature message /\
     kept s u hash signature message extraData o row /\ signatures x' = signatures x ++ [row]) \/
  (signatures x' = signatures x /\
   (r <> None \/ genericError o' <> None /\ exists u, authUser (view x) = Some u /\ Pubkey u = None)).

Lemma code_left code o : genericError (with_code code o) <> None.
Proof. by rewrite with_code_genericError. Qed.

Lemma spec_MakeVerifier s key (Q : PublicKey + error -> Op P -> X -> Prop) o x :
  (forall pub, ALGORITHM (config s) = RSA_H256_SIGNATURE -> RsaVerifier.LoadKey key = inl pub -> Q (inl pub) o x) ->
  (forall err o', Q (inr err) o' x) ->
  spec (MakeVerifier s key) Q o x.
Proof.
  intros HQ He. unfold MakeVerifier. spec_go. destruct (decide _) as [Ha|Ha]; cbn zeta; [spec_go; by apply He|].
  apply dec_stable in Ha. destruct (RsaVerifier.LoadKey key) as [pub|err] eqn:E; spec_go; [by apply HQ|by apply He].
Qed.

Lemma spec_ask {A} (f : AuthContext -> A) (Q : A -> Op P -> X -> Prop) o x : Q (f (view x)) o x -> spec (request f) Q o x.
Proof. intros HQ. apply spec_on. unfold wp, gets. cbn [fst snd]. by rewrite put_view. Qed.

Lemma spec_Verify s signature message extraData (Q : option error -> Op P -> X -> Prop) o x :
  manager_ok s ->
  (forall r o' x', verify_post s signature message extraData r o x o' x' -> Q r o' x') ->
  spec (Verify tz s signature message extraData) Q o x.
Proof.
  intros Hok HQ. assert (Hno : forall r o' x', signatures x' = signatures x ->
    (r <> None \/ genericError o' <> None /\ exists u, authUser (view x) = Some u /\ Pubkey u = None) -> Q r o' x')
    by (intros; apply HQ; by right).
  unfold Verify, AuthUser_. spec_go. apply spec_ask. destruct (authUser (view x)) as [u|] eqn:Eu; [|spec_go; apply Hno; [done|by left]].
  destruct (Pubkey u) as [[key hash]|] eqn:Ek.
  2: { spec_go. apply Hno; [done|]. right. split; [apply code_left|eauto]. }
  spec_go. apply spec_MakeVerifier; [|intros; spec_go; apply Hno; [done|by left]]. intros pub Ha Hl.
  destruct (VerifySignature pub message signature []) as [err|] eqn:Ev; [spec_go; apply Hno; [done|by left]|].
  spec_go. apply spec_on, wp_InitObject. intros b env _ _. spec_go. apply spec_stored; [done| |].
  2: { intros err env'. spec_go. apply Hno; [|by left]. unfold signatures. by rewrite !view_put_l. }
  intros text env' Hk. spec_go. apply spec_query. rewrite !view_put_l. intros e rs' E.
  assert (Hrs : signatures (put (queried rs' (view (A := table MessageSignature) x)) (put (env' : Env) (put (env : Env) x))) = rs')
    by (unfold signatures; by rewrite view_put).
  destruct e as [e|]; spec_go.
  - apply Hno; [|by left]. rewrite Hrs. apply (create_err _ _ _ _ _ E).
  - apply HQ. left. eexists u, hash, _. split; [done|]. split; [done|]. split; [done|].
    split; [by exists key, pub|]. split; [|rewrite Hrs; apply (create_ok _ _ _ _ E)]. by split_and!.
Qed.

(** [C22] Signed requests.  A request that passes the handler of signatures and leaves no generic error
    is one of a user with an RSA key that signs its content; one row is kept of it, with the user, the
    hash of the key, the context of the request, its method and its path.  Every other request keeps
    nothing, and it has no signature, is refused, or is of a user without a key, who passes with a
    generic error.  The method and the path are not signed: what is accepted depends on the content. *)
Theorem signature_checks (s : t) (st : St P X) :
  manager_ok s ->
  let c := view (A := AuthContext) (st_ext st) in
  let signature := default "" (request_headers c !! auth_header AuthSignature.SignatureProtocol AuthSignature.SignatureParameter) in
  let '(r, st') := AuthSignature.Handle (Sm := manager tz s) st in
  (exists u hash row, r = (true, None) /\ st_op st' = st_op st /\ authUser c = Some u /\ signed_by s u hash signature (request_content c) /\
     kept s u hash signature (request_content c) [request_method c; request_path c] (st_op st) row /\
     signatures (st_ext st') = signatures (st_ext st) ++ [row]) \/
  (signatures (st_ext st') = signatures (st_ext st) /\
   (r = (false, None) /\ signature = "" \/ r.2 <> None \/
    genericError (st_op st') <> None /\ exists u, authUser c = Some u /\ Pubkey u = None)).
Proof.
  destruct st as [t0 o x]. cbn [st_op st_ext]. intros Hok. set (c := view (A := AuthContext) x). cbn zeta.
  set (sg := default "" _).
  enough (HS : spec (AuthSignature.Handle (Sm := manager tz s)) (fun r o' x' =>
    (exists u hash row, r = (true, None) /\ o' = o /\ authUser c = Some u /\ signed_by s u hash sg (request_content c) /\
       kept s u hash sg (request_content c) [request_method c; request_path c] o row /\ signatures x' = signatures x ++ [row]) \/
    (signatures x' = signatures x /\ (r = (false, None) /\ sg = "" \/ r.2 <> None \/
       genericError o' <> None /\ exists u, authUser c = Some u /\ Pubkey u = None))) o x).
  { specialize (HS t0). by destruct (AuthSignature.Handle _) as [r [t' o' x']]. }
  unfold AuthSignature.Handle, Auth.GetAuthParameter. spec_go. apply spec_ask. fold c. fold sg.
  case_decide as Hs; spec_go; [right; split; [done|by left]|].
  apply spec_ask. spec_go. apply spec_ask. spec_go. apply spec_ask. spec_go. fold c. apply spec_Verify; [done|]. intros r o' x' [(u & hash & row & -> & -> & Hu & Hsig & Hk & Hrs)|[Hrs Hr]]; spec_go.
  - left. exists u, hash, row. by split_and!.
  - right. split; [done|]. right. destruct Hr as [Hr|Hr]; [by left|by right].
Qed.
End Facts.
End SignatureManagerBase.
