(* ===== verification/AuthFactory.v ===== *)
(** * auth/auth_methods/auth_factory: the methods a configuration can name

    [Create] makes the method of a protocol, with the configuration it loads; the two schemas for
    logins put handlers together.  A schema that was not constructed has no configuration. *)
From S2P Require Import Prelude GoTime Utils Common Errors OpContext Db Crud Auth Crypt AuthParams Cache Session Http Sms Signature Users AuthWorld AuthMethods AuthToken AuthSms.
Open Scope go_scope.

Definition LoginphashTokenProtocol := "login_phash_token".
Definition LoginphashSmsTokenProtocol := "login_phash_sms_token".

(** The configuration of the handlers. *)
Record MethodsConfig := { mc_validators : UserValidators; mc_token : AuthTokenHandlerConfig; mc_sms : AuthSms.AuthSmsConfig }.

(** An embedded [AuthSchema]: its configuration is a pointer, nil before [Construct]. *)
Record schema_object (P X : Type) := {
  so_name : string; so_protocol : string; so_config : option string; so_handlers : list (AuthHandler P X)
}.
Arguments so_name {P X}.
Arguments so_protocol {P X}.
Arguments so_config {P X}.
Arguments so_handlers {P X}.

Section Schemas.
Context {P X : Type}.
Definition zero_schema : schema_object P X := {| so_name := ""; so_protocol := ""; so_config := None; so_handlers := [] |}.
Definition Construct (s : schema_object P X) : schema_object P X :=
  {| so_name := so_name s; so_protocol := so_protocol s; so_config := Some ""; so_handlers := [] |}.
(** [AuthHandlerBase.Init(protocol); SetName(name)] *)
Definition init_base (protocol name : string) (s : schema_object P X) : schema_object P X :=
  {| so_name := name; so_protocol := protocol; so_config := so_config s; so_handlers := so_handlers s |}.
Definition SetAggregation (aggregation : string) (s : schema_object P X) : schema_object P X + error :=
  match so_config s with
  | None => inr nil_user
  | Some _ => inl {| so_name := so_name s; so_protocol := so_protocol s; so_config := Some aggregation; so_handlers := so_handlers s |}
  end.
Definition AppendHandlers (hs : list (AuthHandler P X)) (s : schema_object P X) : schema_object P X :=
  {| so_name := so_name s; so_protocol := so_protocol s; so_config := so_config s; so_handlers := so_handlers s ++ hs |}.

Definition schema_handler (s : schema_object P X) : AuthHandler P X :=
  {| Auth.Name := so_name s; Protocol := so_protocol s;
     Auth.Handle := match so_config s with
                    | None => ret (false, Some nil_user)
                    | Some aggregation => AuthSchema.Handle
                        {| schema_name := so_name s; AGGREGATION := aggregation; handlers := so_handlers s |}
                    end;
     h_ErrorDescriptions := ∅; h_ErrorProtocolCodes := ∅; IsReal := true |}.
(** With its handlers, among the schemas. *)
Definition schema_method (s : schema_object P X) : AuthMethod P X :=
  {| m_handler := schema_handler s; m_Handlers := so_handlers s; m_in_schemas := true |}.
Definition plain_method (in_schemas : bool) (h : AuthHandler P X) : AuthMethod P X :=
  {| m_handler := h; m_Handlers := []; m_in_schemas := in_schemas |}.
(** A handler by its protocol, which is its name. *)
Definition base_handler (protocol : string) (handle : M (St P X) (bool * option error)) (d : gmap string string) (c : gmap string Z) :
    AuthHandler P X :=
  {| Auth.Name := protocol; Protocol := protocol; Auth.Handle := handle; h_ErrorDescriptions := d; h_ErrorProtocolCodes := c; IsReal := true |}.
End Schemas.

Section Factory.
Context {P C : Type} `{Et : !AuthParameterEncryption P (AuthWorld C) Token, Es : !AuthParameterEncryption P (AuthWorld C) AuthSms.SmsToken}.
Context `{Ess : !Engine SessionBase, Ec : !Engine SessionClientBase, Eu : !Engine UserBaseDB, Un : !Uniuri}.
Context `{Ca : !StringCache C, Di : !Digest, Sc : !StringCoding, Sct : !Serializer AuthSms.SmsCacheToken, Ssd : !Serializer AuthSms.SmsDelay}.
Context `{Sm : !SmsManager P (AuthWorld C)}.
Local Abbreviation X := (AuthWorld C).
Implicit Types (cfg : MethodsConfig).

Definition login_handler cfg : AuthHandler P X :=
  base_handler LoginHandler.LoginProtocol (LoginHandler.Handle (mc_validators cfg)) LoginHandler.ErrorDescriptions LoginHandler.ErrorProtocolCodes.
Definition check_token_handler cfg : AuthHandler P X :=
  base_handler CheckTokenProtocol (CheckToken CheckTokenProtocol (mc_token cfg)) AuthToken.ErrorDescriptions AuthToken.ErrorProtocolCodes.
Definition new_token_handler cfg : AuthHandler P X :=
  base_handler NewTokenProtocol (NewToken NewTokenProtocol (mc_token cfg)) AuthToken.ErrorDescriptions AuthToken.ErrorProtocolCodes.
Definition hmac_handler : AuthHandler P X :=
  base_handler AuthHmac.HmacProtocol AuthHmac.Handle AuthHmac.ErrorDescriptions AuthHmac.ErrorProtocolCodes.
(** [&AuthSignature{}]: the manager of signatures is nil, and so a request with a signature makes it
    panic. *)
Definition nil_manager : SignatureManager P X := {| Verify _ _ _ _ := ret (Some nil_user) |}.
Definition signature_handler : AuthHandler P X :=
  base_handler AuthSignature.SignatureProtocol (AuthSignature.Handle (Sm := nil_manager)) Signature.ErrorDescriptions Signature.ErrorHttpCodes.
Definition sms_handler cfg : AuthHandler P X :=
  base_handler AuthSms.SmsProtocol (AuthSms.Handle (mc_sms cfg)) AuthSms.ErrorDescriptions AuthSms.ErrorProtocolCodes.
Definition noauth_handler : AuthHandler P X := base_handler NoAuthMethod.NoAuthProtocol NoAuthMethod.Handle ∅ ∅.

(** [TokenSchema] (auth_token.go): the aggregation stays empty. *)
Definition TokenSchema_Init cfg : AuthMethod P X :=
  schema_method (AppendHandlers [check_token_handler cfg] (init_base TokenProtocol TokenProtocol (Construct zero_schema))).

(** [LoginphashToken] (login_phash_token.go) *)
Definition NewLoginphashToken : schema_object P X := Construct zero_schema.
Definition InitLoginToken (l : schema_object P X) : schema_object P X + error := SetAggregation And l.
Definition LoginphashToken_Init cfg (l : schema_object P X) : AuthMethod P X + error :=
  match InitLoginToken (init_base LoginphashTokenProtocol LoginphashTokenProtocol l) with
  | inr err => inr err
  | inl l => inl (schema_method (AppendHandlers [login_handler cfg; new_token_handler cfg] l))
  end.

(** [LoginphashSmsToken] (login_sms_token.go): it is not constructed, and has the name of the other
    schema. *)
Definition NewLoginphashSmsToken : schema_object P X := zero_schema.
Definition LoginphashSmsToken_Init cfg (l : schema_object P X) : AuthMethod P X + error :=
  match InitLoginToken (init_base LoginphashSmsTokenProtocol LoginphashTokenProtocol l) with
  | inr err => inr err
  | inl l => inl (schema_method (AppendHandlers [login_handler cfg; sms_handler cfg; new_token_handler cfg] l))
  end.

(** [Create] and [Init] of what it makes. *)
Definition Create cfg (protocol : string) : AuthMethod P X + error :=
  if decide (protocol = LoginphashTokenProtocol) then LoginphashToken_Init cfg NewLoginphashToken
  else if decide (protocol = LoginphashSmsTokenProtocol) then LoginphashSmsToken_Init cfg NewLoginphashSmsToken
  else if decide (protocol = LoginHandler.LoginProtocol) then inl (plain_method false (login_handler cfg))
  else if decide (protocol = CheckTokenProtocol) then inl (plain_method true (check_token_handler cfg))
  else if decide (protocol = TokenProtocol) then inl (TokenSchema_Init cfg)
  else if decide (protocol = AuthHmac.HmacProtocol) then inl (plain_method false hmac_handler)
  else if decide (protocol = AuthSms.SmsProtocol) then inl (plain_method true (sms_handler cfg))
  else if decide (protocol = AuthSignature.SignatureProtocol) then inl (plain_method false signature_handler)
  else if decide (protocol = NoAuthMethod.NoAuthProtocol) then inl (plain_method true noauth_handler)
  else inr (Native ("unknown auth handler " +:+ protocol)).

Definition login_token_object cfg : schema_object P X :=
  {| so_name := LoginphashTokenProtocol; so_protocol := LoginphashTokenProtocol; so_config := Some And;
     so_handlers := [login_handler cfg; new_token_handler cfg] |}.
Lemma Create_login_token cfg : Create cfg LoginphashTokenProtocol = inl (schema_method (login_token_object cfg)).
Proof. reflexivity. Qed.

(** The schema of logins confirmed by SMS cannot be initialised. *)
Lemma login_sms_token_fails cfg : Create cfg LoginphashSmsTokenProtocol = inr nil_user.
Proof. done. Qed.
End Factory.

(** ** Tokens for credentials *)

Section Logins.
Context {P C : Type} `{Et : !AuthParameterEncryption P (AuthWorld C) Token, Es : !AuthParameterEncryption P (AuthWorld C) AuthSms.SmsToken}.
Context `{Ess : !Engine SessionBase, Ec : !Engine SessionClientBase, Eu : !Engine UserBaseDB, Euo : !EngineOk UserBaseDB, Un : !Uniuri}.
Context `{Ca : !StringCache C, Di : !Digest, Sc : !StringCoding, Sct : !Serializer AuthSms.SmsCacheToken, Ssd : !Serializer AuthSms.SmsDelay}.
Context `{Sm : !SmsManager P (AuthWorld C)}.
Context `{Eto : !AuthParameterEncryptionOk P (AuthWorld C) Token, Eso : !EngineOk SessionBase, Eco : !EngineOk SessionClientBase}.
Implicit Types (o : Op P) (x : AuthWorld C) (cfg : MethodsConfig).

(** Only the salt is written to the response of a login. *)
Definition other_headers x x' : Prop :=
  forall k, k <> auth_header LoginHandler.LoginProtocol LoginHandler.SaltName ->
    response_headers (w_ctx x') !! k = response_headers (w_ctx x) !! k.

Lemma set_header_other name v h k : k <> name -> set_header name v h !! k = h !! k.
Proof. intros Hk. unfold set_header. destruct (decide _); [by rewrite lookup_delete_ne|by rewrite lookup_insert_ne]. Qed.

Lemma login_headers validators o x : spec (LoginHandler.Handle validators) (fun _ _ x' => other_headers x x') o x.
Proof.
  assert (Hsalt : forall salt y, w_ctx y = w_ctx x -> other_headers x
    (put (with_response (set_header (auth_header LoginHandler.LoginProtocol LoginHandler.SaltName) salt (response_headers (w_ctx y))) (w_ctx y)) y)).
  { intros salt y Hy k Hk. cbn. rewrite set_header_other by done. by rewrite Hy. }
  assert (Hsame : forall y, w_ctx y = w_ctx x -> other_headers x y) by (intros y Hy k _; by rewrite Hy).
  assert (Hrej : forall phash o0 y, w_ctx y = w_ctx x -> spec (LoginHandler.reject phash) (fun _ _ x' => other_headers x x') o0 y).
  { intros phash o0 y Hy. unfold LoginHandler.reject. destruct (decide _); spec_go.
    - apply spec_on. unfold wp, GenerateString. cbn [fst snd]. handler_go. by apply Hsalt.
    - by apply Hsame. }
  unfold LoginHandler.Handle. handler_go. destruct (decide _); handler_go; [done|].
  destruct (ValidateLogin _ _).
  { spec_go. eapply spec_mono; [|by apply Hrej]. intros; by spec_go. }
  spec_go. apply spec_FindAuthUser. intros [u e] x1 Hc _ _ _ _. cbn [fst snd].
  destruct e as [e|]; [handler_go; by apply Hsame|]. destruct u as [u|].
  2:{ spec_go. eapply spec_mono; [|by apply Hrej]. intros; by spec_go. }
  destruct (IsBlocked u); handler_go; [by apply Hsame|]. destruct (Phash u) as [[hash salt]|]; handler_go; [|by apply Hsame].
  destruct (decide _); handler_go; [|by apply Hsalt].
  destruct (CheckPasswordHash _ _); cbn [negb]; handler_go; [|by apply Hsame].
  intros k Hk. cbn. by rewrite Hc.
Qed.

(** What a login gives a user: one new session, an access token and a refresh token of this user and
    of this session; but for the salt no other header is written. *)
Definition login_given cfg (u : AuthUser) x x' : Prop :=
  has_session (mc_token cfg) u (session_ (w_ctx x')) x x' /\
  token_given NewTokenProtocol AccessTokenName (ACCESS_TOKEN_TTL_SECONDS (mc_token cfg)) u x x' /\
  token_given NewTokenProtocol RefreshTokenName (REFRESH_TOKEN_TTL_SECONDS (mc_token cfg)) u x x' /\
  forall k, k <> auth_header NewTokenProtocol AccessTokenName -> k <> auth_header NewTokenProtocol RefreshTokenName ->
    k <> auth_header LoginHandler.LoginProtocol LoginHandler.SaltName ->
    response_headers (w_ctx x') !! k = response_headers (w_ctx x) !! k.
Lemma token_given_frame protocol name ttl u x x1 x' : frame x x1 -> token_given protocol name ttl u x1 x' -> token_given protocol name ttl u x x'.
Proof.
  intros Hf (text & tok & Hh & Hexp & Hts & Htu & Htt & Ho). exists text, tok. split_and!; try done; [by eapply expires_after_frame|].
  destruct Hf as (_&_&_&E&_). rewrite Htt. unfold request_part in E. congruence.
Qed.

(** A login through the schema: for a row with the credentials of the request, with a new session of
    its user; or nothing is issued. *)
Definition logged_in cfg (r : bool * option error) x x' : Prop :=
  (exists row, row ∈ rows (w_users x) /\ LoginHandler.credentials (w_ctx x) row /\
     (r.2 = None -> r.1 = true /\ login_given cfg (auth_user row) x x')) \/
  (authUser (w_ctx x') = None /\ rows (w_sessions x') = rows (w_sessions x) /\ other_headers x x').

Lemma spec_new_token_after cfg row (Q : bool * option error -> Op P -> AuthWorld C -> Prop) o x x1 :
  frame x x1 -> rows (w_sessions x1) = rows (w_sessions x) -> session_ (w_ctx x1) = session_ (w_ctx x) -> authUser (w_ctx x1) = Some (auth_user row) ->
  session_ (w_ctx x) = "" -> table_ok (rows (w_sessions x)) -> other_headers x x1 ->
  (forall r o' x', r.1 = true -> (r.2 = None -> login_given cfg (auth_user row) x x') -> Q r o' x') ->
  spec (NewToken NewTokenProtocol (mc_token cfg)) Q o x1.
Proof.
  intros Hf Hs Hse Hu Hsess Hok Hoh HQ.
  apply (spec_NewToken _ _ (auth_user row)); [done|by rewrite Hse|by rewrite Hs|..].
  - intros r o' x' Hr Hne. by apply HQ.
  - intros x' [(Hf' & Hu' & _ & rw & Hrows & Hnd & Hid & Hv & Hl & He) (Ha & Hr & Ho)]. apply HQ; [done|]. intros _.
    split; [|split_and!; [by eapply token_given_frame..|intros k ???; by rewrite Ho, Hoh]].
    split; [by eapply frame_trans|]. split_and!; [done|done|]. exists rw. rewrite Hs in Hrows.
    split_and!; try done. by eapply expires_after_frame.
Qed.

Lemma spec_NewToken_no_user protocol a (Q : bool * option error -> Op P -> AuthWorld C -> Prop) o x :
  authUser (w_ctx x) = None -> Q (false, None) o x -> spec (NewToken (Es := Ess) protocol a) Q o x.
Proof. intros Hu HQ. unfold NewToken. handler_go. cbn. rewrite Hu. by spec_go. Qed.

Definition login_token_schema cfg : AuthSchema P (AuthWorld C) :=
  {| schema_name := LoginphashTokenProtocol; AGGREGATION := And; handlers := [login_handler cfg; new_token_handler cfg] |}.

Lemma spec_login_token cfg o x : authUser (w_ctx x) = None -> session_ (w_ctx x) = "" -> table_ok (rows (w_sessions x)) ->
  spec (AuthSchema.Handle (login_token_schema cfg)) (fun r _ x' => logged_in cfg r x x') o x.
Proof.
  intros Hu Hs Hok. apply spec_traced. intros c. cbn [handlers login_token_schema AuthSchema.handle_loop]. spec_go.
  cbn [Auth.Handle login_handler base_handler].
  eapply spec_mono; [|apply spec_and; [apply LoginHandler.spec_login; intros ??? Hp; exact Hp|apply login_headers]].
  intros [found e] o1 x1 [Hp Hh]. cbn [IsReal login_handler base_handler negb orb AGGREGATION login_token_schema].
  rewrite andb_false_r. cbn [fst snd].
  assert (Hno : forall r, authUser (w_ctx x1) = authUser (w_ctx x) -> logged_in cfg r x x1).
  { intros r E. right. destruct Hp as (_ & Hse & _). split; [congruence|done]. }
  destruct e as [e|].
  - spec_go. apply Hno. by destruct Hp as (_&_&_&_&_&[([=] & _)|[([=] & _)|(_&_&?&_)]]).
  - rewrite (bool_decide_false (And = Or)) by done. spec_go. cbn [Auth.Handle new_token_handler base_handler IsReal negb orb].
    destruct Hp as (Hf & Hse & Hcl & Hss & Hc & [(_ & _ & _ & row & Hin & Hcr & Hur)|[(_&_&_&Hur)|(_&_&Hur&_)]]).
    + apply (spec_new_token_after cfg row _ _ x); [done..|].
      intros [f e] o' x' Hr He. cbn [fst snd] in *. subst f.
      destruct e as [e|]; cbn [negb andb]; rewrite ?orb_true_r; cbn [negb]; rewrite ?andb_false_r; spec_go;
        left; exists row; (split; [done|]); (split; [done|]); cbn [fst snd]; [done|intros _; split; [done|by apply He]].
    + apply spec_NewToken_no_user; [by rewrite Hur|]. cbn [orb]. destruct found; cbn [negb andb orb length Nat.eqb]; spec_go; by apply Hno.
    + apply spec_NewToken_no_user; [by rewrite Hur|]. cbn [orb]. destruct found; cbn [negb andb orb length Nat.eqb]; spec_go; by apply Hno.
Qed.

(** [C8] Tokens only for credentials.  The method the configuration names login_phash_token, on a
    request without a user or a session: either the request has the credentials of a user, and, if
    no error is returned, the only change of the sessions is a new session of this user, which is the
    session of the request, and the response has an access token and a refresh token with the ID of
    this user and of this session, and no other header but for the salt; or the request is left without a user, no session is made or changed and
    the response has no token: its headers are the same but for the salt. *)
Theorem tokens_for_credentials cfg (m : AuthMethod P (AuthWorld C)) (s : St P (AuthWorld C)) :
  Create cfg LoginphashTokenProtocol = inl m ->
  authUser (w_ctx (st_ext s)) = None -> session_ (w_ctx (st_ext s)) = "" -> table_ok (rows (w_sessions (st_ext s))) ->
  let '(r, s') := Auth.Handle (m_handler m) s in logged_in cfg r (st_ext s) (st_ext s').
Proof.
  destruct s as [t o x]. cbn [st_ext]. rewrite Create_login_token. intros [= <-] Hu Hs Hok.
  pose proof (spec_login_token cfg o x Hu Hs Hok t) as HS.
  change (Auth.Handle (m_handler _)) with (AuthSchema.Handle (P := P) (login_token_schema cfg)).
  cbn zeta in HS. destruct (AuthSchema.Handle _ _) as [r s']. exact HS.
Qed.
End Logins.
