(* ===== verification/AuthDemo.v ===== *)
(** * A concrete server: the theorems on authorization applied

    Tables in memory, a cipher that checks its key, serializers of tokens, a cache
    that never forgets.  The theorems of AuthWorld, AuthMethods and AuthToken apply to it. *)
From S2P Require Import Prelude GoTime Utils Common Errors OpContext Db Crud Auth Crypt AuthParams Cache Session Users AuthWorld AuthMethods AuthToken.
From stdpp Require Import countable.
From Stdlib Require Import Ascii.
Open Scope go_scope.

(** ** Objects as texts *)

Fixpoint bits_of_pos (p : positive) : string :=
  match p with
  | xH => ""
  | xO p => String "0"%char (bits_of_pos p)
  | xI p => String "1"%char (bits_of_pos p)
  end.
Fixpoint pos_of_bits (s : string) : positive :=
  match s with
  | EmptyString => xH
  | String c s => if decide (c = "0"%char) then xO (pos_of_bits s) else xI (pos_of_bits s)
  end.
Lemma pos_of_bits_of_pos p : pos_of_bits (bits_of_pos p) = p.
Proof. induction p as [p IH|p IH|]; cbn; by rewrite ?IH. Qed.

(** A text after its length in dots. *)
Definition frame_text (s : string) : string := str_repeat (String.length s) "." +:+ "|" +:+ s.
Fixpoint unframe (n : nat) (s : string) : string * string :=
  match s with
  | EmptyString => ("", "")
  | String c s => if decide (c = "."%char) then unframe (S n) s else (str_take n s, str_drop n s)
  end.
Lemma unframe_frame n s r : unframe n (str_repeat (String.length s) "." +:+ "|" +:+ s +:+ r) =
  (str_take (n + String.length s) (s +:+ r), str_drop (n + String.length s) (s +:+ r)).
Proof.
  generalize (s +:+ r) as t. intros t. revert n. induction (String.length s) as [|k IH]; intros n.
  - cbn. by rewrite Nat.add_0_r.
  - change (unframe (S n) (str_repeat k "." +:+ "|" +:+ t) = (str_take (n + S k) t, str_drop (n + S k) t)).
    by rewrite IH, Nat.add_succ_r.
Qed.
Lemma unframe_text s r : unframe 0 (frame_text s +:+ r) = (s, r).
Proof. unfold frame_text. rewrite !str_app_assoc, unframe_frame. cbn. by rewrite str_take_app, str_drop_app. Qed.

Definition texts (l : list string) : string := foldr (fun s r => frame_text s +:+ r) "" l.
Fixpoint untexts (n : nat) (s : string) : list string :=
  match n with 0 => [] | S n => let '(t, r) := unframe 0 s in t :: untexts n r end.
Lemma untexts_texts l : untexts (length l) (texts l) = l.
Proof.
  induction l as [|s l IH]; [done|]. cbn [length texts foldr untexts]. rewrite unframe_text. f_equal. exact IH.
Qed.

Definition exp_text (e : ExpireToken.t) : string := bits_of_pos (encode (ExpireToken.Exp e)).
Definition exp_of (s : string) : ExpireToken.t := {| ExpireToken.Exp := default 0%Z (decode (pos_of_bits s)) |}.
Lemma exp_of_text e : exp_of (exp_text e) = e.
Proof. destruct e as [e]. unfold exp_of, exp_text. by rewrite pos_of_bits_of_pos, decode_encode. Qed.

Definition token_text (t : Token) : string :=
  texts [exp_text (t_exp t); t_Id t; t_UserId t; t_UserDisplay t; t_SessionId t; t_Tenancy t].
Definition token_of_text (s : string) : Token :=
  match untexts 6 s with
  | [e; i; u; d; s; n] =>
      {| t_exp := exp_of e; t_Id := i; t_UserId := u; t_UserDisplay := d; t_SessionId := s; t_Tenancy := n |}
  | _ => no_token
  end.
Lemma token_of_token_text t : token_of_text (token_text t) = t.
Proof.
  unfold token_of_text, token_text.
  change 6 with (length [exp_text (t_exp t); t_Id t; t_UserId t; t_UserDisplay t; t_SessionId t; t_Tenancy t]).
  rewrite untexts_texts, exp_of_text. by destruct t.
Qed.

Definition text_serializer {T} (f : T -> string) (g : string -> T) : Serializer T := {|
  SerializeMessage x := inl (f x); ParseMessage b _ := (g b, None); lossless _ := True
|}.
Lemma text_serializer_ok {T} (f : T -> string) (g : string -> T) :
  (forall x, g (f x) = x) -> SerializerOk T (H := text_serializer f g).
Proof. intros Hx. split. cbn. intros x b y _ [= <-]. by rewrite Hx. Qed.

Module AuthDemo.
#[export] Existing Instances AuthParameterEncryptionBase.demo_cipher AuthParameterEncryptionBase.demo_cipher_ok.
#[export] Existing Instances UsersDemo.users_db UsersDemo.users_db_ok UsersDemo.uniuri_demo.
#[export] Instance sessions_db : Engine SessionBase := mem_engine UsersDemo.no_fault.
#[export] Instance sessions_db_ok : EngineOk SessionBase := mem_engine_ok UsersDemo.no_fault.
#[export] Instance clients_db : Engine SessionClientBase := mem_engine UsersDemo.no_fault.
#[export] Instance clients_db_ok : EngineOk SessionClientBase := mem_engine_ok UsersDemo.no_fault.

(** Encrypted parameters. *)
Definition config : AuthParameterEncryptionBase.t := AuthParameterEncryptionBase.demo_config.
Section Parameters.
Context {P : Type}.
#[export] Instance csrf_serializer : Serializer ExpireToken.t := text_serializer exp_text exp_of.
#[export] Instance csrf_serializer_ok : SerializerOk ExpireToken.t := text_serializer_ok _ _ exp_of_text.
#[export] Instance token_serializer : Serializer Token := text_serializer token_text token_of_text.
#[export] Instance token_serializer_ok : SerializerOk Token := text_serializer_ok _ _ token_of_token_text.
#[export] Instance csrf_parameters : AuthParameterEncryption P (AuthWorld MapCache) ExpireToken.t :=
  AuthParameterEncryptionBase.implementation config.
#[export] Instance csrf_parameters_ok : AuthParameterEncryptionOk P (AuthWorld MapCache) ExpireToken.t :=
  AuthParameterEncryptionBase.implementation_ok config.
#[export] Instance token_parameters : AuthParameterEncryption P (AuthWorld MapCache) Token :=
  AuthParameterEncryptionBase.implementation config.
#[export] Instance token_parameters_ok : AuthParameterEncryptionOk P (AuthWorld MapCache) Token :=
  AuthParameterEncryptionBase.implementation_ok config.
End Parameters.

(** The request of a user to a server with this user and no sessions. *)
Definition user : UserBaseDB := UsersDemo.user.
Definition request_of (path : string) (headers : gmap string string) (u : option AuthUser) : AuthContext :=
  {| request_path := path; request_method := "GET"; request_content := ""; client_ip := "10.0.0.1";
     user_agent := "curl"; precheck m := (m, None); request_headers := headers; response_headers := ∅;
     session_ := ""; client_ := ""; authUser := u; tenancy := None |}.
Definition env : Env := {| env_now _ := 0%Z; env_rand n := Z.of_nat (1000 + n); env_tick := 0; idCount := 0 |}.
Definition op : Op unit :=
  {| op_id := "op1"; op_name := "auth"; genericError := None; oplogs := [];
     errorManager := ErrorManagerBase.InitHttp; dbTransaction := false; errorAsWarn := false;
     writeCloseLog := true; origin := None; logs := [] |}.
Definition tbl {R} (rs : list R) : table R := {| rows := rs; queries := 0 |}.
Definition server (c : AuthContext) (ss : list SessionBase) : St unit (AuthWorld MapCache) :=
  Build_St trace0 op {| w_ctx := c; w_sessions := tbl ss; w_clients := tbl []; w_users := tbl [user];
                        w_cache := ∅; w_env := env; w_messages := tbl []; w_net := {| Http.sent := [] |} |}.

(** A login, then a request with the access token, then a logout. *)
Definition logged_in := NewToken "token" default_config (server (request_of "/login" ∅ (Some (auth_user user))) []).
Definition session_row : SessionBase := List.last (rows (w_sessions (st_ext logged_in.2))) NewSession.
Definition next_request (path : string) : St unit (AuthWorld MapCache) :=
  server (request_of path (response_headers (w_ctx (st_ext logged_in.2))) None) (rows (w_sessions (st_ext logged_in.2))).
Definition logged_out := CheckToken "token" default_config (next_request "/auth/logout").
Definition late_request : St unit (AuthWorld MapCache) :=
  server (request_of "/x" (response_headers (w_ctx (st_ext logged_in.2))) None) (rows (w_sessions (st_ext logged_out.2))).
(** The token a request presents. *)
Definition presented (s : St unit (AuthWorld MapCache)) : Token :=
  (token_of (P := unit) (C := MapCache) "token" default_config (w_ctx (st_ext s))).2.
Definition login_request (headers : gmap string string) := server (request_of "/login" headers None) [].
Definition credentials_of (u : UserBaseDB) : gmap string string := list_to_map
  [(auth_header LoginHandler.LoginProtocol LoginHandler.LoginName, LOGIN u);
   (auth_header LoginHandler.LoginProtocol LoginHandler.PasswordHashName, PASSWORD_HASH u)].
End AuthDemo.

Section Witnesses.
Import AuthDemo.

Lemma run_pair {A B} (p : A * B) (P : A -> B -> Prop) : (let '(a, b) := p in P a b) -> P p.1 p.2.
Proof. by destruct p. Qed.

Lemma sessions_never_fail : reads_never_fail (R := SessionBase).
Proof. intros l t f rs. done. Qed.
Lemma users_never_fail : reads_never_fail (R := UserBaseDB).
Proof. intros l t f rs. done. Qed.
Lemma users_ok : table_ok [user].
Proof. by apply (bool_decide_unpack _); vm_compute. Qed.

Lemma check_token_sound_witness :
  let r := CheckToken "token" default_config (next_request "/x") in
  check_post "token" default_config r.1 op (st_ext (next_request "/x")) (st_op r.2) (st_ext r.2) /\ r.1 = (true, None).
Proof.
  split; [|vm_compute; reflexivity].
  pose proof (check_token_sound "token" default_config (next_request "/x")) as H. apply run_pair in H. exact H.
Defined.

Lemma next_follows :
  follows "token" default_config (st_ext (server (request_of "/login" ∅ (Some (auth_user user))) [])) (st_ext logged_in.2)
    (st_ext (next_request "/x")).
Proof.
  unfold follows. do 6 (apply conj; [vm_compute; (reflexivity || discriminate)|]).
  intros k k'. split; vm_compute; discriminate.
Qed.

Lemma login_then_access_witness :
  let r := CheckToken "token" default_config (next_request "/x") in
  r.1.1 = true /\ authUser (w_ctx (st_ext r.2)) = Some (auth_user user) /\
  session_ (w_ctx (st_ext r.2)) = session_ (w_ctx (st_ext logged_in.2)).
Proof.
  assert (Hl : logged_in.1 = (true, None)) by (vm_compute; reflexivity).
  pose proof (login_then_access "token" default_config (server (request_of "/login" ∅ (Some (auth_user user))) [])
    (next_request "/x") user sessions_never_fail users_never_fail eq_refl eq_refl
    ltac:(by apply (bool_decide_unpack _); vm_compute) users_ok ltac:(by apply list_elem_of_singleton)
    ltac:(vm_compute; reflexivity) ltac:(intros; exact I)) as H.
  apply run_pair in H. fold logged_in in H. specialize (H Hl).
  specialize (H next_follows). apply run_pair in H. cbn zeta. destruct H as (H1 & H2 & H3 & _). by split_and!.
Defined.

Lemma logout_revokes_witness :
  let r := CheckToken "token" default_config late_request in
  refused (st_ext late_request) r.1 (st_op r.2) (st_ext r.2).
Proof.
  pose proof (logout_revokes "token" default_config (next_request "/auth/logout") late_request
    ltac:(by apply (bool_decide_unpack _); vm_compute) eq_refl) as H.
  apply run_pair in H. fold logged_out in H.
  specialize (H ltac:(vm_compute; reflexivity) ltac:(vm_compute; reflexivity) ltac:(vm_compute; reflexivity) "token" default_config
    (presented (next_request "/auth/logout")) (presented late_request)
    ltac:(vm_compute; reflexivity) ltac:(vm_compute; reflexivity) ltac:(vm_compute; reflexivity)).
  apply run_pair in H. exact H.
Defined.

Lemma invalidation_witness :
  let r := SessionController.InvalidateUserSessions (Db.GetID user) (next_request "/x") in
  session_post (of_user (Db.GetID user)) invalidated r.1 (st_ext (next_request "/x")) (st_ext r.2) /\ r.1 = None.
Proof.
  split; [|vm_compute; reflexivity].
  exact (proj1 (proj1 (proj2 (invalidation (Db.GetID user) "" (next_request "/x"))))).
Defined.

Definition client_request := server (request_of "/x" ∅ (Some (auth_user user))) [].
Lemma UpdateSessionClient_effect_witness :
  let r := SessionController.UpdateSessionClient client_request in
  client_post r.1 (st_ext client_request) (st_ext r.2) /\ r.1 = None.
Proof.
  split; [|vm_compute; reflexivity].
  pose proof (UpdateSessionClient_effect client_request (auth_user user) ltac:(vm_compute; reflexivity)) as H. apply run_pair in H. exact (proj1 H).
Defined.

Definition csrf : AuthCsrf.t := AuthCsrf.Init 900 [].
Definition status_request := server (request_of "/status/check" ∅ None) [].

Lemma login_checks_witness :
  let r := LoginHandler.Handle UsersDemo.validators (login_request ∅) in
  LoginHandler.post UsersDemo.validators r.1 op (st_ext (login_request ∅)) (st_op r.2) (st_ext r.2).
Proof.
  pose proof (LoginHandler.login_checks UsersDemo.validators (login_request ∅)) as H. apply run_pair in H. exact H.
Defined.

Lemma login_complete_witness :
  let r := LoginHandler.Handle UsersDemo.validators (login_request (credentials_of user)) in
  authUser (w_ctx (st_ext r.2)) = Some (auth_user user) /\ r.1 = (true, None).
Proof.
  pose proof (LoginHandler.login_complete UsersDemo.validators (login_request (credentials_of user)) user
    users_ok ltac:(by apply list_elem_of_singleton)) as H.
  specialize (H ltac:(unfold LoginHandler.credentials; do 4 (apply conj; [vm_compute; (reflexivity || discriminate)|]);
    vm_compute; discriminate) ltac:(vm_compute; reflexivity)).
  apply run_pair in H. destruct H as [(H1 & H2 & _)|(e & He & _)]; [by split|].
  assert (Hr : (LoginHandler.Handle UsersDemo.validators (login_request (credentials_of user))).1 = (true, None))
    by (vm_compute; reflexivity).
  rewrite Hr in He. discriminate He.
Defined.
End Witnesses.
