(* ===== verification/AuthSmsDemo.v ===== *)
(** * Confirmations by SMS on the concrete server

    The manager of messages with the mock as its provider; a message, a wrong code and the right
    one.  The theorems of Sms, SmsProviders, AuthSmsCode, AuthSmsSend and AuthFactory apply; two
    examples show what schemas make of a confirmation that is reported without an error. *)
From stdpp Require Import countable.
From S2P Require Import Prelude GoTime Utils Common Errors OpContext Db Crud Auth Crypt AuthParams Cache Session Http Sms SmsProviders Users AuthWorld AuthMethods AuthToken AuthSms AuthSmsCode AuthSmsSend AuthFactory AuthDemo.
Open Scope go_scope.

Module SmsDemo.
Import AuthSms AuthDemo.
Definition num_text (z : Z) : string := bits_of_pos (encode z).
Definition num_of (s : string) : Z := default 0%Z (decode (pos_of_bits s)).
Lemma num_of_text z : num_of (num_text z) = z.
Proof. unfold num_of, num_text. by rewrite pos_of_bits_of_pos, countable.decode_encode. Qed.

Definition cache_text (ct : SmsCacheToken) : string := texts [num_text (Try ct); Code ct; Checksum ct; SmsId ct].
Definition cache_token_of (s : string) : SmsCacheToken :=
  match untexts 4 s with
  | [t; c; k; i] => {| Try := int64 (num_of t); Code := c; Checksum := k; SmsId := i |}
  | _ => no_cache_token
  end.
(** Tries are 64 bits wide. *)
#[export] Instance cache_token_format : Serializer SmsCacheToken := {|
  SerializeMessage ct := inl (cache_text ct); ParseMessage b _ := (cache_token_of b, None); lossless ct := in_int64 (Try ct)
|}.
#[export] Instance cache_token_format_ok : SerializerOk SmsCacheToken.
Proof.
  split. cbn. intros ct b y Hl [= <-]. f_equal. unfold cache_token_of, cache_text.
  change 4 with (length [num_text (Try ct); Code ct; Checksum ct; SmsId ct]).
  rewrite untexts_texts, num_of_text, int64_id by done. by destruct ct.
Qed.
Lemma tries_read b ct : ParseMessage b no_cache_token = (ct, None) -> in_int64 (Try ct).
Proof.
  cbn. intros [= <-]. unfold cache_token_of.
  destruct (untexts 4 b) as [|? [|? [|? [|? [|]]]]]; cbn; solve [apply int64_range | by split].
Qed.

#[export] Instance delay_format : Serializer SmsDelay :=
  text_serializer (fun d => num_text (CREATED_AT d)) (fun s => {| CREATED_AT := num_of s |}).
#[export] Instance delay_format_ok : SerializerOk SmsDelay.
Proof. apply text_serializer_ok. intros [d]. cbn. by rewrite num_of_text. Qed.
#[export] Instance sms_token_format : Serializer SmsToken :=
  text_serializer (fun t => texts [exp_text (st_exp t); ID t])
    (fun s => match untexts 2 s with [e; i] => {| st_exp := exp_of e; ID := i |} | _ => no_token end).
#[export] Instance sms_token_format_ok : SerializerOk SmsToken.
Proof.
  apply text_serializer_ok. intros [e i]. cbn [st_exp ID].
  change 2 with (length [exp_text e; i]). by rewrite untexts_texts, exp_of_text.
Qed.

#[export] Instance messages_db : Engine SmsMessage := mem_engine UsersDemo.no_fault.
#[export] Instance messages_db_ok : EngineOk SmsMessage := mem_engine_ok UsersDemo.no_fault.

Section Instances.
Context {P : Type}.
#[export] Instance sms_parameters : AuthParameterEncryption P (AuthWorld MapCache) SmsToken :=
  AuthParameterEncryptionBase.implementation AuthDemo.config.
#[export] Instance sms_parameters_ok : AuthParameterEncryptionOk P (AuthWorld MapCache) SmsToken :=
  AuthParameterEncryptionBase.implementation_ok AuthDemo.config.
End Instances.
End SmsDemo.

(** The value of a computation that succeeds. *)
Definition get_or {A B} (d : A) (r : A + B) : A := match r with inl a => a | inr _ => d end.
Definition is_left {A B} (r : A + B) : bool := match r with inl _ => true | inr _ => false end.
Lemma get_or_inl {A B} (d : A) (r : A + B) : is_left r = true -> r = inl (get_or d r).
Proof. by destruct r. Qed.

Module SmsServer.
Export AuthDemo SmsDemo.
Import AuthSms.
Local Abbreviation X := (AuthWorld MapCache).

(** The manager: messages are stored encrypted; numbers of one country go to a provider of their
    own. *)
Definition mock (name : string) : Provider unit X := SmsMock.provider {| SmsMock.NAME := name; SmsMock.ALWAYS_FAIL := false |}.
Definition providers : gmap string (Provider unit X) := <["local" := mock "local"]> {["world" := mock "world"]}.
Definition sms_config : SmsManagerBaseConfig :=
  {| DEFAULT_PROVIDER := "world"; ENCRYPT_MESSAGE_STORE := true; Sms.SECRET := "key"; SALT := "salt" |}.
Definition destinations : list SmsDestinationConfig :=
  [{| PREFIX := "1"; PROVIDER := "world" |}; {| PREFIX := "100"; PROVIDER := "local" |}].
Definition manager : SmsManagerBase.t unit X := get_or
  {| SmsManagerBase.config := sms_config; SmsManagerBase.destinations := []; SmsManagerBase.cipher := None;
     SmsManagerBase.defaultProvider := mock "" |} (SmsManagerBase.Init sms_config providers destinations).
Lemma made_manager : SmsManagerBase.Init sms_config providers destinations = inl manager.
Proof. unfold manager. apply get_or_inl. vm_compute. reflexivity. Qed.
Lemma providers_ok : map_Forall (fun _ p => SmsManagerBase.ProviderOk p) providers.
Proof. apply map_Forall_insert_2; [apply mock_ok|]. apply map_Forall_singleton, mock_ok. Qed.
Lemma manager_keeps : SmsManagerBase.manager_ok manager.
Proof. exact (SmsManagerBase.Init_manager_ok sms_config providers destinations manager made_manager providers_ok). Qed.
#[export] Instance messages : SmsManager unit X := SmsManagerBase.implementation manager.
#[export] Instance messages_ok : SmsManagerOk unit MapCache := base_manager_ok manager manager_keeps.

Definition sms : AuthSmsConfig := default_config "hmac".
Definition path := "/transfer".
Definition request_with (headers : gmap string string) : AuthContext := request_of path headers (Some (auth_user user)).
(** The state of the server after a request, with the next one. *)
Definition next (s : St unit X) (headers : gmap string string) : St unit X :=
  Build_St trace0 op (put (request_with headers) (st_ext s)).

(** A request, a wrong code, the right code. *)
Definition first := server (request_with ∅) [].
Definition sent := Handle sms first.
Definition token_header (s : St unit X) : gmap string string :=
  {[auth_header SmsProtocol TokenName := default "" (response_headers (w_ctx (st_ext s)) !! auth_header SmsProtocol TokenName)]}.
Definition with_code_header (code : string) (h : gmap string string) : gmap string string :=
  <[auth_header SmsProtocol CodeName := code]> h.
Definition guess := next sent.2 (with_code_header "0000" (token_header sent.2)).
Definition guessed := Handle sms guess.
(** The code of the only message. *)
Definition the_code : string := "01002".
Definition confirm := next guessed.2 (with_code_header the_code (token_header guessed.2)).
Definition confirmed := Handle sms confirm.
End SmsServer.

(** ** The theorems applied *)

Section Witnesses.
Import SmsServer AuthSms.

Lemma provider_selection_witness :
  exists ds, SmsManagerBase.load_destinations providers destinations = inl ds /\
    SmsManagerBase.selected ds "100200300" (SmsManagerBase.provider_of manager "100200300") /\
    p_Name (SmsManagerBase.provider_of manager "100200300") = "local".
Proof.
  destruct (SmsManagerBase.provider_selection sms_config providers destinations manager "100200300" made_manager)
    as (ds & Hds & _ & _ & [Hs|[_ Hf]]).
  - exists ds. split; [exact Hds|]. split; [exact Hs|]. vm_compute. reflexivity.
  - exfalso. apply Forall_inv in Hf. vm_compute in Hf. discriminate Hf.
Defined.

Lemma Send_effect_witness :
  let r := SmsManagerBase.Send manager "hello" "100200300" first in
  SmsManagerBase.send_post manager "hello" "100200300" (auth_user user) r.1 op (st_ext first) (st_op r.2) (st_ext r.2) /\
  r.1.2 = None.
Proof.
  split; [|vm_compute; reflexivity].
  pose proof (SmsManagerBase.Send_effect manager "hello" "100200300" (auth_user user) first manager_keeps eq_refl
    ltac:(by apply (bool_decide_unpack _); vm_compute)) as H.
  apply run_pair in H. exact H.
Defined.


Lemma sms_confirms_witness :
  exists u tok ct, authUser (w_ctx (st_ext confirm)) = Some u /\
    compared (P := unit) (C := MapCache) sms (Auth.GetID u) (st_ext confirm) tok ct /\ the_code = Code ct.
Proof.
  pose proof (sms_confirms sms confirm eq_refl ltac:(vm_compute; discriminate)) as H. apply run_pair in H.
  fold confirmed in H. specialize (H ltac:(vm_compute; reflexivity) ltac:(vm_compute; reflexivity)).
  destruct H as (u & tok & ct & Hu & Hc & He & _). exists u, tok, ct.
  split; [exact Hu|]. split; [exact Hc|]. etransitivity; [|exact He]. vm_compute. reflexivity.
Defined.

Lemma run_step x g y t o c n :
  sms_run sms x g y -> genericError o = None ->
  (let r := Handle sms (Build_St t o (put (c : AuthContext) y)) in if tells (put c y) r.1 (st_op r.2) then 1 else 0)%Z = n ->
  sms_run (P := unit) (C := MapCache) sms x (g + n) (st_ext (Handle sms (Build_St t o (put c y))).2).
Proof. intros Hr Ho <-. by apply run_request. Qed.

(** A message, a wrong code, the right code. *)
Lemma run_of_three : sms_run (P := unit) (C := MapCache) sms (st_ext first) 2 (st_ext confirmed.2).
Proof.
  refine (run_step _ 1 (st_ext guessed.2) trace0 op (request_with (with_code_header the_code (token_header guessed.2))) 1 _ eq_refl _);
    [|vm_compute; reflexivity].
  refine (run_step _ 0 (st_ext sent.2) trace0 op (request_with (with_code_header "0000" (token_header sent.2))) 1 _ eq_refl _);
    [|vm_compute; reflexivity].
  refine (run_step _ 0 (st_ext first) trace0 op (request_with ∅) 0 _ eq_refl _); [apply run_start|vm_compute; reflexivity].
Qed.

(** The bound is reached. *)
Lemma sms_guesses_bounded_witness :
  (2 <= (MAX_TRIES sms - 1) *
     (Z.of_nat (length (rows (w_messages (st_ext confirmed.2)))) - Z.of_nat (length (rows (w_messages (st_ext first))))))%Z /\
  length (rows (w_messages (st_ext confirmed.2))) = 1%nat.
Proof.
  split; [|vm_compute; reflexivity].
  apply (sms_guesses_bounded sms); [split; vm_compute; discriminate|split; vm_compute; (discriminate || reflexivity)| | |exact run_of_three|..].
  - intros ct Hct. exact Hct.
  - exact tries_read.
  - by apply (bool_decide_unpack _); vm_compute.
  - intros k _. exact (lookup_empty (M := gmap string) (A := string) k).
Defined.
End Witnesses.

(** ** Methods of a configuration *)

Module FactoryServer.
Export SmsServer.
Local Abbreviation X := (AuthWorld MapCache).
Definition methods : MethodsConfig :=
  {| mc_validators := UsersDemo.validators; mc_token := AuthToken.default_config; mc_sms := sms |}.
Definition schema_of (name : string) (hs : list (AuthHandler unit X)) : AuthSchema unit X :=
  {| schema_name := name; AGGREGATION := And; handlers := hs |}.

(** Tokens and confirmations by SMS are both required. *)
Definition confirmed_schema := schema_of "confirmed" [check_token_handler methods; sms_handler methods].
(** The schema for logins confirmed by SMS, put together by a configuration. *)
Definition login_schema := schema_of "login_sms" [login_handler methods; sms_handler methods; new_token_handler methods].
Definition with_some_code (s : St unit X) : St unit X :=
  Build_St trace0 op (put (request_of "/x" (<[auth_header AuthSms.SmsProtocol AuthSms.CodeName := "1"]> (request_headers (w_ctx (st_ext s)))) None)
    (st_ext s)).
Definition error_code (s : St unit X) : string := Errors.Code (genericError (st_op s)).
End FactoryServer.

Section FactoryWitnesses.
Import FactoryServer.

Lemma tokens_for_credentials_witness :
  let s := login_request (credentials_of user) in
  let r := Auth.Handle (m_handler (schema_method (login_token_object methods))) s in
  AuthFactory.logged_in (P := unit) methods r.1 (st_ext s) (st_ext r.2) /\ r.1 = (true, None).
Proof.
  cbv zeta. split; [|vm_compute; reflexivity].
  pose proof (tokens_for_credentials methods (schema_method (login_token_object methods)) (login_request (credentials_of user))
    (Create_login_token methods) eq_refl eq_refl ltac:(by apply (bool_decide_unpack _); vm_compute)) as H.
  apply run_pair in H. exact H.
Defined.

(** A request with a valid access token and any SMS code, but without an SMS token, is let through by
    a schema that requires both: no message is sent, no error is returned, and the user is set. *)
Example code_without_token_passes :
  let r := AuthSchema.Handle confirmed_schema (with_some_code (next_request "/x")) in
  r.1 = (true, None) /\ error_code r.2 = AuthSms.ErrorCodeSmsTokenRequired /\
  authUser (w_ctx (st_ext r.2)) = Some (auth_user user) /\ rows (w_messages (st_ext r.2)) = [].
Proof. vm_compute. done. Qed.
(** Without a code the same request is stopped, and a message is sent. *)
Example no_code_is_stopped :
  let r := AuthSchema.Handle confirmed_schema (next_request "/x") in
  r.1.2 <> None /\ error_code r.2 = AuthSms.ErrorCodeSmsConfirmationRequired /\ length (rows (w_messages (st_ext r.2))) = 1%nat.
Proof. vm_compute. done. Qed.
(** In the same way a login with the password only gets tokens. *)
Example login_without_confirmation :
  let r := AuthSchema.Handle login_schema (with_some_code (login_request (credentials_of user))) in
  r.1 = (true, None) /\ error_code r.2 = AuthSms.ErrorCodeSmsTokenRequired /\
  is_Some (response_headers (w_ctx (st_ext r.2)) !! auth_header NewTokenProtocol AccessTokenName) /\
  rows (w_messages (st_ext r.2)) = [].
Proof. vm_compute. split_and!; [done|done|by eexists|done]. Qed.
End FactoryWitnesses.
