(* ===== verification/Customer.v ===== *)
(** * pkg/customer: customers and their controller

    A customer is a user with a name and a description.  The controller is the generic one of
    users, with two changes of its own. *)
From S2P Require Import Prelude GoTime Utils Common Errors OpContext Db Crud Users.
Open Scope go_scope.

(** ** Data (customer.go) *)

Record Customer := { c_user : UserBaseDB; c_NAME : string; c_DESCRIPTION : string }.

Definition set_c_user (v : UserBaseDB) (c : Customer) : Customer :=
  {| c_user := v; c_NAME := c_NAME c; c_DESCRIPTION := c_DESCRIPTION c |}.
Definition SetName_ (name : string) (c : Customer) : Customer :=
  {| c_user := c_user c; c_NAME := name; c_DESCRIPTION := c_DESCRIPTION c |}.
Definition SetDescription_ (description : string) (c : Customer) : Customer :=
  {| c_user := c_user c; c_NAME := c_NAME c; c_DESCRIPTION := description |}.

Definition NewCustomer : Customer := {| c_user := MakeUser; c_NAME := ""; c_DESCRIPTION := "" |}.

(** A column of the embedded user. *)
Definition user_col (col : Col UserBaseDB) : Col Customer :=
  Build_Col (c_type col) (fun c => c_get col (c_user c)) (fun v c => set_c_user (c_set col v (c_user c)) c).

Definition customer_columns : list (string * Col Customer) :=
  Eval cbn in map (fun kc => (kc.1, user_col kc.2)) users_columns ++
  [("name", str_col c_NAME SetName_); ("description", str_col c_DESCRIPTION SetDescription_)].

#[export] Instance customer_entity : Entity Customer := {|
  obj_base c := u_base (c_user c); set_base b c := set_c_user (set_u_base b (c_user c)) c;
  columns := customer_columns; unique_indexes := [["id"]; ["login"]]
|}.
#[export] Instance customer_entity_ok : EntityOk Customer.
Proof. split; try done. solve_columns. Qed.

#[export] Instance customer_row : UserRow Customer :=
  {| NewUser := NewCustomer; RowLogin c := LOGIN (c_user c) |}.
#[export] Instance customer_row_ok : UserRowOk Customer.
Proof. by split. Qed.

Definition Login (c : Customer) : string := LOGIN (c_user c).
Definition Display (c : Customer) : string := LOGIN (c_user c).
Definition IsBlocked (c : Customer) : bool := BLOCKED (c_user c).

(** ** Codes (customer_controller.go) *)

Definition ErrorCodeCustomerNotFound := "customer_not_found".
Definition ErrorDescriptions : gmap string string := {[ErrorCodeCustomerNotFound := "Customer not found."]}.
Definition ErrorHttpCodes : gmap string Z := {[ErrorCodeCustomerNotFound := StatusNotFound]}.

(** ** The controller (customer_controller.go) *)

Module CustomerController.
Import UserController.
Section Methods.
Context {X : Type} `{Lc : !Lens X (table Customer), Le : !Lens X Env, Ec : !Engine Customer}.
Local Abbreviation act := (M (St OpLogUser X)).

Definition SetName (id name : string) (idIsLogin : list bool) : act (option error) :=
  traced_exit "Users.SetName" (fun c =>
    change c id idIsLogin "set_name" (fun user : Customer => ret (user, {["name" := VStr name]}))).
Definition SetDescription (id description : string) (idIsLogin : list bool) : act (option error) :=
  traced_exit "Users.SetDescription" (fun c =>
    change c id idIsLogin "set_description" (fun user : Customer => ret (user, {["description" := VStr description]}))).
End Methods.
End CustomerController.

(** ** What the operations do *)

Section Facts.
Context {X : Type} `{Lc : !Lens X (table Customer), Le : !Lens X Env, Ld : !Disjoint_lens X (table Customer) Env}.
Context `{Ec : !Engine Customer, Eo : !EngineOk Customer}.
Import UserController CustomerController.

(** Changes of customers.  Setting the name, the description or the blocked flag of a
    customer, found by ID or by login, changes this column of this customer and nothing else,
    and logs one operation; a failed call changes no customer and logs nothing. *)
Theorem customer_changes id idIsLogin (s : St OpLogUser X) :
  let post op f r :=
    change_post (R := Customer) id idIsLogin op f r.1 (st_op s) (st_ext s) (st_op r.2) (st_ext r.2) in
  (forall name, post "set_name" {["name" := VStr name]} (SetName id name idIsLogin s)) /\
  (forall d, post "set_description" {["description" := VStr d]} (SetDescription id d idIsLogin s)) /\
  (forall b, post "set_blocked" {["blocked" := VBool b]} (SetBlocked (R := Customer) id b idIsLogin s)).
Proof. cbn zeta. split_and!; intros ?; by apply change_columns; [apply typed_singleton|]. Qed.
End Facts.

(** ** Instances *)

Module CustomersDemo.
#[export] Existing Instances fst_lens snd_lens pair_disjoint.
#[export] Instance customers_db : Engine Customer := mem_engine UsersDemo.no_fault.
#[export] Instance customers_db_ok : EngineOk Customer := mem_engine_ok UsersDemo.no_fault.

(** A customer with the given ID and login. *)
Definition customer (id login : string) : Customer :=
  SetName_ "Acme" (set_c_user (SetLogin_ login (set_u_base (ObjectBase.SetID id ObjectBase.zero) MakeUser)) NewCustomer).
Definition start : St OpLogUser (table Customer * Env) :=
  Build_St trace0 UsersDemo.op ({| rows := [customer "c1" "acme"; customer "c2" "beta"]; queries := 0 |}, UsersDemo.env).
End CustomersDemo.

Section Witnesses.
Import CustomersDemo CustomerController.

Lemma renamed : map c_NAME (rows (st_ext (SetName "acme" "Acme Ltd" [true] start).2).1) = ["Acme Ltd"; "Acme"].
Proof. vm_compute. reflexivity. Qed.

Lemma customer_changes_witness :
  map c_NAME (rows (st_ext (SetName "acme" "Acme Ltd" [true] start).2).1) = ["Acme Ltd"; "Acme"] /\
  change_post (R := Customer) "acme" [true] "set_name" {["name" := VStr "Acme Ltd"]}
    (SetName "acme" "Acme Ltd" [true] start).1 (st_op start) (st_ext start)
    (st_op (SetName "acme" "Acme Ltd" [true] start).2) (st_ext (SetName "acme" "Acme Ltd" [true] start).2).
Proof. exact (conj renamed (proj1 (customer_changes "acme" [true] start) "Acme Ltd")). Defined.
End Witnesses.
