(* ===== verification/TenancyData.v ===== *)
(** * pkg/multitenancy: the data of tenancies and the world of their manager

    Tenancies are rows of the main database; each has a database of its own on the server that
    a service of its pool describes.  The answers of database servers and of publishers are
    functions of all that was asked before: any request may fail at any time. *)
From S2P Require Import Prelude GoTime Utils Common Errors OpContext Db Crud PoolData Pool PoolStore Session Users Customer.
Open Scope go_scope.

(** ** Codes (multitenancy.go) *)

Definition OpAdd := "add".
Definition OpDelete := "delete".
Definition OpActivate := "activate".
Definition OpDeactivate := "deactivate".
Definition OpSetPath := "set_path".
Definition OpSetRole := "set_role".
Definition OpSetCustomer := "set_customer".
Definition OpChangePoolOrDb := "change_pool_or_db".

Definition TENANCY_DATABASE_ROLE := "tenancy_db".

Definition ErrorCodeTenancyConflictRole := "tenancy_conflict_role".
Definition ErrorCodeTenancyConflictPath := "tenancy_conflict_path".
Definition ErrorCodeTenancyNotFound := "tenancy_not_found".
Definition ErrorCodeTenancyDbInitializationFailed := "tenancy_db_initialization_failed".
Definition ErrorCodeForeignDatabase := "foreign_tenancy_database".
Definition ErrorCodeNoDbserviceInPool := "no_db_service_in_pool".
Definition ErrorCodeCreateTenancyDatabaseFailed := "create_tenancy_database_dailed".

Definition ErrorDescriptions : gmap string string := list_to_map
  [(ErrorCodeTenancyNotFound, "Tenancy not found.");
   (ErrorCodeTenancyConflictRole, "Tenancy with such role already exists for that customer.");
   (ErrorCodeTenancyConflictPath, "Tenancy with such path already exists in that pool.");
   (ErrorCodeTenancyDbInitializationFailed, "Failed to initialize tenancy database.");
   (ErrorCodeForeignDatabase, "Database does not belong to this tenancy.");
   (ErrorCodeNoDbserviceInPool, "Pool does not contain service for tenancy database.");
   (ErrorCodeCreateTenancyDatabaseFailed, "Failed to create tenancy database.")].
Definition ErrorHttpCodes : gmap string Z := list_to_map
  [(ErrorCodeTenancyNotFound, StatusNotFound);
   (ErrorCodeNoDbserviceInPool, StatusInternalServerError);
   (ErrorCodeTenancyDbInitializationFailed, StatusInternalServerError);
   (ErrorCodeForeignDatabase, StatusInternalServerError);
   (ErrorCodeCreateTenancyDatabaseFailed, StatusInternalServerError)].

Record PubsubNotification := { Tenancy : string; n_Operation : string }.
Definition PubsubTopicName := "tenancy".

(** ** Data (tenancy.go, tenancy_oplog.go, db_models.go) *)

Record TenancyData := {
  td_DESCRIPTION : string;
  PATH : string;
  td_ROLE : string;
  CUSTOMER_ID : string;
  td_POOL_ID : string;
  DBNAME : string
}.
Record TenancyDb := { t_base : ObjectBase.t; t_ACTIVE : bool; t_data : TenancyData }.

Definition set_td_DESCRIPTION (v : string) (d : TenancyData) : TenancyData :=
  {| td_DESCRIPTION := v; PATH := PATH d; td_ROLE := td_ROLE d; CUSTOMER_ID := CUSTOMER_ID d;
     td_POOL_ID := td_POOL_ID d; DBNAME := DBNAME d |}.
Definition set_PATH (v : string) (d : TenancyData) : TenancyData :=
  {| td_DESCRIPTION := td_DESCRIPTION d; PATH := v; td_ROLE := td_ROLE d; CUSTOMER_ID := CUSTOMER_ID d;
     td_POOL_ID := td_POOL_ID d; DBNAME := DBNAME d |}.
Definition set_td_ROLE (v : string) (d : TenancyData) : TenancyData :=
  {| td_DESCRIPTION := td_DESCRIPTION d; PATH := PATH d; td_ROLE := v; CUSTOMER_ID := CUSTOMER_ID d;
     td_POOL_ID := td_POOL_ID d; DBNAME := DBNAME d |}.
Definition set_CUSTOMER_ID (v : string) (d : TenancyData) : TenancyData :=
  {| td_DESCRIPTION := td_DESCRIPTION d; PATH := PATH d; td_ROLE := td_ROLE d; CUSTOMER_ID := v;
     td_POOL_ID := td_POOL_ID d; DBNAME := DBNAME d |}.
Definition set_td_POOL_ID (v : string) (d : TenancyData) : TenancyData :=
  {| td_DESCRIPTION := td_DESCRIPTION d; PATH := PATH d; td_ROLE := td_ROLE d; CUSTOMER_ID := CUSTOMER_ID d;
     td_POOL_ID := v; DBNAME := DBNAME d |}.
Definition set_DBNAME (v : string) (d : TenancyData) : TenancyData :=
  {| td_DESCRIPTION := td_DESCRIPTION d; PATH := PATH d; td_ROLE := td_ROLE d; CUSTOMER_ID := CUSTOMER_ID d;
     td_POOL_ID := td_POOL_ID d; DBNAME := v |}.

Definition set_t_base (v : ObjectBase.t) (t : TenancyDb) : TenancyDb :=
  {| t_base := v; t_ACTIVE := t_ACTIVE t; t_data := t_data t |}.
Definition set_t_ACTIVE (v : bool) (t : TenancyDb) : TenancyDb :=
  {| t_base := t_base t; t_ACTIVE := v; t_data := t_data t |}.
Definition set_t_data (v : TenancyData) (t : TenancyDb) : TenancyDb :=
  {| t_base := t_base t; t_ACTIVE := t_ACTIVE t; t_data := v |}.

(** A column of the embedded data. *)
Definition data_col (get : TenancyData -> string) (set : string -> TenancyData -> TenancyData) : Col TenancyDb :=
  str_col (fun t => get (t_data t)) (fun v t => set_t_data (set v (t_data t)) t).

Definition tenancy_columns : list (string * Col TenancyDb) :=
  Eval cbn in object_columns t_base set_t_base ++
  [("active", bool_col t_ACTIVE set_t_ACTIVE); ("description", data_col td_DESCRIPTION set_td_DESCRIPTION);
   ("path", data_col PATH set_PATH); ("role", data_col td_ROLE set_td_ROLE);
   ("customer_id", data_col CUSTOMER_ID set_CUSTOMER_ID); ("pool_id", data_col td_POOL_ID set_td_POOL_ID);
   ("dbname", data_col DBNAME set_DBNAME)].

#[export] Instance tenancy_entity : Entity TenancyDb := {|
  obj_base := t_base; set_base := set_t_base; columns := tenancy_columns;
  unique_indexes := [["id"]; ["path"]; ["role"; "customer_id"]]
|}.
#[export] Instance tenancy_entity_ok : EntityOk TenancyDb.
Proof. split; try done. solve_columns. Qed.

Definition Path (t : TenancyDb) : string := PATH (t_data t).
Definition Role (t : TenancyDb) : string := td_ROLE (t_data t).
Definition CustomerId (t : TenancyDb) : string := CUSTOMER_ID (t_data t).
Definition PoolId (t : TenancyDb) : string := td_POOL_ID (t_data t).
Definition DbName (t : TenancyDb) : string := DBNAME (t_data t).

(** The columns the operations look at. *)
Lemma tenancy_column_eqs (t : TenancyDb) :
  column "path" t = Some (VStr (Path t)) /\ column "role" t = Some (VStr (Role t)) /\
  column "customer_id" t = Some (VStr (CustomerId t)) /\ column "pool_id" t = Some (VStr (PoolId t)) /\
  column "dbname" t = Some (VStr (DbName t)) /\ column "active" t = Some (VBool (t_ACTIVE t)).
Proof. done. Qed.

Record TenancyItem := { i_tenancy : TenancyDb; CustomerLogin : string; i_PoolName : string }.
Definition CustomerDisplay (i : TenancyItem) : string := CustomerLogin i.

(** What marks a database as the database of a tenancy. *)
Record TenancyMeta := { m_base : ObjectBase.t }.
Definition set_m_base (v : ObjectBase.t) (_ : TenancyMeta) : TenancyMeta := {| m_base := v |}.
#[export] Instance meta_entity : Entity TenancyMeta := {|
  obj_base := m_base; set_base := set_m_base; columns := object_columns m_base set_m_base; unique_indexes := [["id"]]
|}.
#[export] Instance meta_entity_ok : EntityOk TenancyMeta.
Proof. split; try done. solve_columns. Qed.

Record OpLogTenancy := {
  ot_Customer : string; ot_TenancyId : string; ot_Role : string; ot_Path : string; ot_DbName : string; ot_Pool : string
}.

Definition TenancySelector (customer role : string) : string := ConcatStrings [customer; "/"; role].

Definition ParseTenancyDisplay (display : string) : (string * string) + string :=
  match Split display "/" with
  | [customer; role] => inl (customer, role)
  | _ => inr "invalid format of tenancy ID"
  end.

(** ** The join of [List] *)

Definition joined_items (ts : list TenancyDb) (cs : list Customer) (ps : list PoolBase) : list TenancyItem :=
  flat_map (fun t => flat_map (fun c => flat_map (fun p =>
    if bool_decide (CustomerId t = GetID c) && bool_decide (PoolId t = GetID p)
    then [{| i_tenancy := t; CustomerLogin := Customer.Login c; i_PoolName := p_NAME p |}] else []) ps) cs) ts.

(** The columns a filter of the join compares: those of the tenancy and the two joined ones. *)
Definition item_column (k : string) (i : TenancyItem) : option value :=
  if decide (k = "customer_login") then Some (VStr (CustomerLogin i))
  else if decide (k = "pool_name") then Some (VStr (i_PoolName i))
  else if decide (k = "tenancies.id") then Some (VStr (GetID (i_tenancy i)))
  else column k (i_tenancy i).
Definition item_matches (fields : Fields) (i : TenancyItem) : bool :=
  forallb (fun kv => bool_decide (item_column kv.1 i = Some kv.2)) (map_to_list fields).

Class TenancyJoin := {
  eng_tenancies : nat -> option Filter -> list TenancyDb -> list Customer -> list PoolBase ->
    list TenancyItem * Z * option error
}.

(** The items a query with the filter selects. *)
Definition selected (f : Filter) ts cs ps : list TenancyItem :=
  List.filter (item_matches (f_Fields f)) (joined_items ts cs ps).

(** Statements about successful queries with plain filters. *)
Class TenancyJoinOk `{TenancyJoin} := {
  tenancies_ok t f ts cs ps items n :
    plain f -> eng_tenancies t (Some f) ts cs ps = (items, n, None) -> items ≡ₚ selected f ts cs ps;
  tenancies_limit_ok t f limit ts cs ps items n :
    plain f -> (0 < limit)%Z -> eng_tenancies t (Some (SetLimit limit f)) ts cs ps = (items, n, None) ->
    Forall (fun i => i ∈ selected f ts cs ps) items /\ (items = [] -> selected f ts cs ps = [])
}.

Definition mem_tenancies (fault : nat -> option error) : TenancyJoin := {|
  eng_tenancies t f ts cs ps :=
    match fault t with
    | Some e => ([], 0%Z, Some e)
    | None =>
        let items := match f with
                     | Some f => mem_limit (Limit (config f)) (selected f ts cs ps)
                     | None => joined_items ts cs ps
                     end in
        (items, Z.of_nat (length items), None)
    end
|}.

Lemma mem_tenancies_ok fault : @TenancyJoinOk (mem_tenancies fault).
Proof.
  split.
  - intros t f ts cs ps items n (Hc & _). cbn. destruct (fault t); [done|]. rewrite Hc. by intros [= <- _].
  - intros t f limit ts cs ps items n _ Hl. cbn -[mem_limit]. destruct (fault t); [done|].
    change (f_Fields (SetLimit limit f)) with (f_Fields f). unfold mem_limit.
    change (selected (SetLimit limit f) ts cs ps) with (selected f ts cs ps).
    rewrite (proj2 (Z.ltb_lt _ _)) by done. intros [= <- _]. split.
    + apply Forall_take, Forall_forall. auto.
    + destruct (selected f ts cs ps) as [|i l]; [done|]. destruct (Z.to_nat limit) eqn:E; [lia|done].
Qed.

(** ** Databases on servers (the interface db.DB as tenancies use it) *)

Inductive server_request :=
| ReqConnect (cfg : DBConfig)
| ReqCreateDatabase (database name : string)
| ReqAutoMigrate (database : string) (models : list string)
| ReqPartitionedMigrate (database : string) (models : list string).

(** [database_of] is the database a configuration stands for; [answer] is what the servers make
    of a request after all the requests so far. *)
Class DbServers := {
  database_of : DBConfig -> string;
  answer : list server_request -> server_request -> option error
}.

(** An open handle: its identity and its database. *)
Record DbConn := { conn_id : nat; conn_database : string }.

Record Databases := {
  requests : list server_request;
  metas : gmap string (table TenancyMeta);
  connections : list nat;
  next_connection : nat
}.

Definition no_table {R} : table R := {| rows := []; queries := 0 |}.
Definition metas_of (database : string) (d : Databases) : table TenancyMeta := default no_table (metas d !! database).

Section Servers.
Context `{!DbServers}.

Definition send (r : server_request) : M Databases (option error) := fun d =>
  (answer (requests d) r,
   {| requests := requests d ++ [r]; metas := metas d; connections := connections d;
      next_connection := next_connection d |}).

(** [Clone] of the application's database, then [InitWithConfig]. *)
Definition InitWithConfig (cfg : DBConfig) : M Databases (DbConn + error) :=
  let* err := send (ReqConnect cfg) in
  match err with
  | Some e => ret (inr e)
  | None => fun d =>
      (inl {| conn_id := next_connection d; conn_database := database_of cfg |},
       {| requests := requests d; metas := metas d; connections := connections d ++ [next_connection d];
          next_connection := S (next_connection d) |})
  end.

(** A second [Close] of the same handle does nothing. *)
Definition CloseDb (c : DbConn) : M Databases unit := modify (fun d =>
  {| requests := requests d; metas := metas d;
     connections := List.filter (fun i => negb (bool_decide (i = conn_id c))) (connections d);
     next_connection := next_connection d |}).

(** A query on the metas of a database; [closed] is its result on a closed handle. *)
Definition query_metas {A} (c : DbConn) (closed : A) (q : M (table TenancyMeta) A) : M Databases A := fun d =>
  if decide (conn_id c ∈ connections d) then
    let r := q (metas_of (conn_database c) d) in
    (r.1, {| requests := requests d; metas := <[conn_database c := r.2]> (metas d);
             connections := connections d; next_connection := next_connection d |})
  else (closed, d).
End Servers.

(** The error of database/sql. *)
Definition closed_error : error := Native "sql: database is closed".

(** ** The world of the manager *)

(** A tenancy in memory (tenancy_base.go); the cache it takes from the context is left out. *)
Record TenancyBase := {
  tb_db : TenancyDb; tb_Db : option DbConn; tb_Pool : option LoadedPool; tb_Customer : option Customer
}.

Definition zero_tenancy : TenancyDb :=
  {| t_base := ObjectBase.zero; t_ACTIVE := false;
     t_data := {| td_DESCRIPTION := ""; PATH := ""; td_ROLE := ""; CUSTOMER_ID := ""; td_POOL_ID := ""; DBNAME := "" |} |}.
Definition NewTenancy : TenancyBase :=
  {| tb_db := zero_tenancy; tb_Db := None; tb_Pool := None; tb_Customer := None |}.

Definition set_tb_db v (t : TenancyBase) : TenancyBase :=
  {| tb_db := v; tb_Db := tb_Db t; tb_Pool := tb_Pool t; tb_Customer := tb_Customer t |}.
Definition set_tb_Db v (t : TenancyBase) : TenancyBase :=
  {| tb_db := tb_db t; tb_Db := v; tb_Pool := tb_Pool t; tb_Customer := tb_Customer t |}.
Definition set_tb_Pool v (t : TenancyBase) : TenancyBase :=
  {| tb_db := tb_db t; tb_Db := tb_Db t; tb_Pool := v; tb_Customer := tb_Customer t |}.
Definition set_tb_Customer v (t : TenancyBase) : TenancyBase :=
  {| tb_db := tb_db t; tb_Db := tb_Db t; tb_Pool := tb_Pool t; tb_Customer := v |}.

(** The maps of the manager. *)
Record Loaded := { tenanciesById : gmap string TenancyBase; tenanciesByPath : gmap string TenancyBase }.

Record TenancyWorld := {
  tenancies : table TenancyDb;
  customers : table Customer;
  joined_pools : table PoolBase;
  tw_env : Env;
  databases : Databases;
  loaded : Loaded;
  (** What was sent, and to the publisher of which pool. *)
  published : list (string * string * PubsubNotification)
}.

#[export] Instance tenancies_lens : Lens TenancyWorld (table TenancyDb).
Proof.
  by refine {| view := tenancies;
               put t w := {| tenancies := t; customers := customers w; joined_pools := joined_pools w; tw_env := tw_env w;
                             databases := databases w; loaded := loaded w; published := published w |} |}; try intros [].
Defined.
#[export] Instance customers_lens : Lens TenancyWorld (table Customer).
Proof.
  by refine {| view := customers;
               put t w := {| tenancies := tenancies w; customers := t; joined_pools := joined_pools w; tw_env := tw_env w;
                             databases := databases w; loaded := loaded w; published := published w |} |}; try intros [].
Defined.
#[export] Instance tenancy_env_lens : Lens TenancyWorld Env.
Proof.
  by refine {| view := tw_env;
               put e w := {| tenancies := tenancies w; customers := customers w; joined_pools := joined_pools w; tw_env := e;
                             databases := databases w; loaded := loaded w; published := published w |} |}; try intros [].
Defined.
#[export] Instance databases_lens : Lens TenancyWorld Databases.
Proof.
  by refine {| view := databases;
               put d w := {| tenancies := tenancies w; customers := customers w; joined_pools := joined_pools w; tw_env := tw_env w;
                             databases := d; loaded := loaded w; published := published w |} |}; try intros [].
Defined.
#[export] Instance loaded_lens : Lens TenancyWorld Loaded.
Proof.
  by refine {| view := loaded;
               put l w := {| tenancies := tenancies w; customers := customers w; joined_pools := joined_pools w; tw_env := tw_env w;
                             databases := databases w; loaded := l; published := published w |} |}; try intros [].
Defined.
#[export] Instance published_lens : Lens TenancyWorld (list (string * string * PubsubNotification)).
Proof.
  by refine {| view := published;
               put p w := {| tenancies := tenancies w; customers := customers w; joined_pools := joined_pools w; tw_env := tw_env w;
                             databases := databases w; loaded := loaded w; published := p |} |}; try intros [].
Defined.
#[export] Instance tenancies_env : Disjoint_lens TenancyWorld (table TenancyDb) Env.
Proof. by split. Qed.
#[export] Instance customers_env : Disjoint_lens TenancyWorld (table Customer) Env.
Proof. by split. Qed.

(** ** Publishers of pools (pubsub/pool_pubsub/pool_pubsub.go) *)

(** The pools with a publisher, in the order a loop over the map visits them, and what a
    publisher makes of a message after all the messages so far. *)
Class PoolPublishers := {
  publishers : list string;
  publish_answer : list (string * string * PubsubNotification) -> string * string * PubsubNotification -> option error
}.

Section PoolPubsub.
Context `{!PoolPublishers}.

Definition Publish (poolId topicName : string) (msg : PubsubNotification) :
  M (list (string * string * PubsubNotification)) (option error) := fun sent =>
  (publish_answer sent (poolId, topicName, msg), sent ++ [(poolId, topicName, msg)]).

(** The loop over the pools: it ends with the first error. *)
Fixpoint publish_each (topicName : string) (msg : PubsubNotification) (poolIds : list string) :
  M (list (string * string * PubsubNotification)) (option error) :=
  match poolIds with
  | [] => ret None
  | poolId :: rest =>
      let* err := Publish poolId topicName msg in
      match err with
      | Some _ => ret (Some (Native ("failed to publish to " +:+ poolId +:+ " pool")))
      | None => publish_each topicName msg rest
      end
  end.

Definition PublishPools (topicName : string) (msg : PubsubNotification) (poolIds : list string) :
  M (list (string * string * PubsubNotification)) (option error) :=
  publish_each topicName msg
    (match poolIds with
     | [] => publishers
     | _ => List.filter (fun id => bool_decide (id ∈ publishers)) poolIds
     end).
End PoolPubsub.
