(* ===== verification/Tenancy.v ===== *)
(** * pkg/multitenancy: the manager and the controller of tenancies

    The controller changes the rows of tenancies, logs each change and notifies the pool of the
    tenancy; the manager keeps loaded tenancies, each with an open connection to its database,
    and reloads one when a notification comes.  The two call each other: the searches of the
    controller come first, then the manager, then the changes. *)
From S2P Require Import Prelude GoTime Utils Common Errors OpContext Db Crud PoolData Pool PoolStore Users Crypt Customer TenancyData.
Open Scope go_scope.

Record TenancyDbModels := { DbModels : list string; PartitionedDbModels : list string }.
Definition DbInternalModels : list string := ["TenancyMeta"].

(** [ValidationError] of pkg/validator: its text and the generic error it stands for. *)
Definition ValidationError (msg : string) : error := Native ("validation failed: " +:+ msg).
Definition ValidationGenericError (msg : string) : error := New ErrorCodeFormat [msg].

(** ** Searches (tenancy_controller.go) *)

Module TenancyQueries.
Section Queries.
Context `{!Engine TenancyDb, TJ : !TenancyJoin}.
Local Abbreviation act := (M (St OpLogTenancy TenancyWorld)).

(** [CRUD.Join] of the tenancies with their customers and pools. *)
Definition join_query (filter : option Filter) : act (list TenancyItem * Z * option error) :=
  traced "CRUD.Join" (fun c =>
    let* '(items, count, err) := on_ext (fun w =>
      let t := tenancies w in
      (eng_tenancies (queries t) filter (rows t) (rows (customers w)) (rows (joined_pools w)),
       put (queried (rows t) t) w)) in
    match err with
    | Some _ => SetError c err ;; ret (items, 0%Z, err)
    | None => ret (items, count, None)
    end).

Definition List_ (filter : option Filter) : act (list TenancyItem * Z * option error) :=
  traced "TenancyController.List" (fun c =>
    let* '(tenancies, count, err) := join_query filter in
    match err with
    | Some _ => SetMessage c "failed to find tenancy" ;; SetError c err ;; ret ([], 0%Z, err)
    | None => ret (tenancies, count, None)
    end).

Definition Exists (fields : Fields) : act (bool * option error) :=
  Crud.Exists (R := TenancyDb) "TenancyController.Exists" (Filter.AddFields fields NewFilter).

(** The first of the tenancies found, or the generic error of the context. *)
Definition first_found (c : nat) (tenancies : list TenancyItem) : act (TenancyItem + option error) :=
  match tenancies with
  | tenancy :: _ => ret (inl tenancy)
  | [] =>
      SetGenericErrorCode ErrorCodeTenancyNotFound [] ;;
      let* e := GenericError in
      let* err := SetError c e in
      ret (inr err)
  end.

Definition TenancyId (id : string) (idIsDisplay : list bool) : act (string * option TenancyItem * option error) :=
  let useDisplay := OptionalArg false idIsDisplay in
  traced "TenancyController.TenancyId" (fun c =>
    if negb useDisplay then ret (id, None, None)
    else
      match ParseTenancyDisplay id with
      | inr msg =>
          SetMessage c "failed to parse display" ;;
          SetGenericError (Some (ValidationGenericError msg)) [] ;;
          SetError c (Some (ValidationError msg)) ;;
          ret ("", None, Some (ValidationGenericError msg))
      | inl (customerLogin, role) =>
          let filter := SetLimit 1 (Filter.AddField "role" (VStr role)
                          (Filter.AddField "customer_login" (VStr customerLogin) NewFilter)) in
          let* '(tenancies, _, err) := List_ (Some filter) in
          match err with
          | Some _ => SetMessage c "failed to list tenancies" ;; SetError c err ;; ret ("", None, err)
          | None =>
              let* found := first_found c tenancies in
              match found with
              | inr err => ret ("", None, err)
              | inl tenancy => ret (GetID (i_tenancy tenancy), Some tenancy, None)
              end
          end
      end).

(** [FindTenancy], which is [Find]. *)
Definition Find (id : string) (idIsDisplay : list bool) : act (option TenancyItem * option error) :=
  traced "TenancyController.Find" (fun c =>
    let* '(id, tenancy, err) := TenancyId id idIsDisplay in
    match err, tenancy with
    | Some _, _ => SetError c err ;; ret (None, err)
    | None, Some tenancy => ret (Some tenancy, None)
    | None, None =>
        let filter := SetLimit 1 (Filter.AddField "tenancies.id" (VStr id) NewFilter) in
        let* '(tenancies, _, err) := List_ (Some filter) in
        match err with
        | Some _ => SetError c err ;; ret (None, err)
        | None =>
            let* found := first_found c tenancies in
            match found with
            | inr err => ret (None, err)
            | inl tenancy => ret (Some tenancy, None)
            end
        end
    end).
End Queries.
End TenancyQueries.

(** ** The databases of tenancies (tenancy_base.go, tenancy.go, upgrade_tenancy_databases.go) *)

Module TenancyBase.
Section Methods.
Context `{!Engine TenancyDb, !Engine Customer, !Engine TenancyMeta, DS : !DbServers}.
(** The store of pools of the application. *)
Variable Pools : PoolStoreBase.
Local Abbreviation act := (M (St OpLogTenancy TenancyWorld)).

(** [None] stands for a nil dereference: the customer and the pool are set by [Init]. *)
Definition IsActive (t : TenancyBase) : option bool :=
  if negb (t_ACTIVE (tb_db t)) then Some false
  else
    cust ← tb_Customer t;
    if IsBlocked cust then Some false
    else p ← tb_Pool t; Some (p_ACTIVE (lp_pool p)).

(** A request on an open handle. *)
Definition request_on (c : DbConn) (r : server_request) : act (option error) :=
  on (fun d => if decide (conn_id c ∈ connections d) then send r d else (Some closed_error, d)).

(** [ctx.SetGenericError(genErr); err = genErr; return err] *)
Definition failed {A} (a : A) (genErr : error) : act (A * option error * option error) :=
  SetGenericError (Some genErr) [] ;; ret (a, Some genErr, Some genErr).

Definition CreateDatabase (dbConfig : DBConfig) (serviceName dbName : string) : act (option error) :=
  let* r := on (InitWithConfig dbConfig) in
  match r with
  | inr err =>
      ret (Some (SetDetails serviceName (NewFromOriginal ErrorCodeServiceInitializationFailed
        "Failed to connect to master database" (Some err))))
  | inl database =>
      let* err := request_on database (ReqCreateDatabase (conn_database database) dbName) in
      on (CloseDb database) ;;
      match err with
      | Some err =>
          ret (Some (SetDetails dbName (NewFromOriginal ErrorCodeCreateTenancyDatabaseFailed
            "Failed to create tenancy database" (Some err))))
      | None => ret None
      end
  end.

Definition set_DBC_NAME (v : string) (c : DBConfig) : DBConfig :=
  {| DB_PROVIDER := DB_PROVIDER c; DB_HOST := DB_HOST c; DB_PORT := DB_PORT c; DBC_NAME := v; DB_USER := DB_USER c;
     DB_PASSWORD := DB_PASSWORD c; DB_EXTRA_CONFIG := DB_EXTRA_CONFIG c; DB_DSN := DB_DSN c |}.

(** [p] is the pool of the tenancy. *)
Definition ConnectDatabase (p : LoadedPool) (newDb : list bool) (t : TenancyBase) : act (TenancyBase * option error) :=
  traced_exit "TenancyBase.ConnectDatabase" (fun c =>
    match Service TENANCY_DATABASE_ROLE p with
    | inr err =>
        failed t (SetDetails TENANCY_DATABASE_ROLE (NewFromOriginal ErrorCodeNoServiceWithRole
          "Pool does not include service for tenancy database" (Some err)))
    | inl dbService =>
        if negb (s_ACTIVE (pb_data dbService)) then
          failed t (New ErrorCodeServiceNotActive ["Service for tenancy database in the pool is not active."])
        else
        match ParseDbService (pb_data dbService) with
        | inr err =>
            failed t (SetDetails (pb_ServiceName dbService) (NewFromOriginal ErrorCodeInvalidServiceConfiguration
              "Invalid configuration of service for tenancy database" (Some err)))
        | inl dbConfig =>
            let createDb := OptionalArg false newDb && negb (bool_decide (DBC_NAME dbConfig = "")) in
            let* err := if createDb then CreateDatabase dbConfig (pb_ServiceName dbService) (DbName (tb_db t))
                        else ret None in
            match err with
            | Some genErr => failed t genErr
            | None =>
                let* r := on (InitWithConfig (set_DBC_NAME (DbName (tb_db t)) dbConfig)) in
                match r with
                | inr err =>
                    failed t (SetDetails (pb_ServiceName dbService) (NewFromOriginal ErrorCodeServiceInitializationFailed
                      "Failed to connect to tenancy database" (Some err)))
                | inl database => ret (set_tb_Db (Some database) t, None, None)
                end
            end
        end
    end).

(** The query of [database.Exists] on the metas. *)
Definition meta_exists (database : DbConn) (tenancyId : string) : act (bool * option error) :=
  on (query_metas database (false, Some closed_error)
    (read_query (fun t => eng_exists t (Filter.AddField "id" (VStr tenancyId) NewFilter)))).

Definition CheckTenancyDatabase (database : DbConn) (tenancyId : string) : act (option error) :=
  traced "CheckTenancyDatabase" (fun c =>
    let* '(exists_, err) := meta_exists database tenancyId in
    match err with
    | Some _ => SetError c err
    | None =>
        if negb exists_ then
          SetGenericErrorCode ErrorCodeForeignDatabase [] ;;
          SetError c (Some (Native "database does not belong to this tenancy"))
        else ret None
    end).

(** The tenancy as [Init] leaves it, the skip flag, the error. *)
Definition Init (data : TenancyDb) (t : TenancyBase) : act (TenancyBase * bool * option error) :=
  traced_exit "TenancyBase.ConnectDatabase" (fun c =>
    let t := set_tb_db data t in
    let* '(cust, err) := UserController.Find (R := Customer) (CustomerId data) in
    let t := set_tb_Customer cust t in
    match err, cust with
    | Some _, _ | _, None => SetMessage c "failed to find customer" ;; ret ((t, false, err), err)
    | None, Some _ =>
        match Pool (PoolId data) Pools with
        | inr e =>
            SetGenericErrorCode ErrorCodePoolNotFound [] ;;
            SetMessage c "unknown pool" ;;
            ret ((set_tb_Pool None t, false, Some e), Some e)
        | inl p =>
            let t := set_tb_Pool (Some p) t in
            if negb (p_ACTIVE (lp_pool p)) then ret ((t, true, None), None)
            else
              let* '(t, err) := ConnectDatabase p [] t in
              match err, tb_Db t with
              | Some _, _ | None, None => ret ((t, false, err), err)
              | None, Some database =>
                  let* err := CheckTenancyDatabase database (GetID (tb_db t)) in
                  match err with
                  | Some _ => on (CloseDb database) ;; ret ((t, false, err), err)
                  | None => ret ((t, false, None), None)
                  end
              end
        end
    end).

Definition UpgradeTenancyDatabase (database : DbConn) (dbModels : TenancyDbModels) : act (option error) :=
  traced_exit "multitenancy.UpgradeTenancyDatabase" (fun c =>
    let* err := request_on database (ReqAutoMigrate (conn_database database) DbInternalModels) in
    match err with
    | Some _ => SetMessage c "failed to upgrade internal models in tenancy database" ;; ret (err, err)
    | None =>
    let* err := request_on database (ReqAutoMigrate (conn_database database) (DbModels dbModels)) in
    match err with
    | Some _ => SetMessage c "failed to upgrade ordinary models tenancy database" ;; ret (err, err)
    | None =>
    let* err := request_on database (ReqPartitionedMigrate (conn_database database) (PartitionedDbModels dbModels)) in
    match err with
    | Some _ => SetMessage c "failed to upgrade partitioned models in tenancy database" ;; ret (err, err)
    | None => ret (None, None)
    end
    end
    end).
End Methods.
End TenancyBase.

(** ** The manager (tenancy_manager.go) *)

Module TenancyManager.
Section Methods.
Context `{!Engine TenancyDb, !Engine Customer, !Engine TenancyMeta, TJ : !TenancyJoin, DS : !DbServers, Un : !Uniuri}.
Variable Pools : PoolStoreBase.
Variable DB_PREFIX : string.
Variable tenancyDbModels : TenancyDbModels.
Local Abbreviation act := (M (St OpLogTenancy TenancyWorld)).

Definition Tenancy (id : string) (m : Loaded) : TenancyBase + error :=
  match tenanciesById m !! id with Some t => inl t | None => inr (Native "unknown tenancy") end.
Definition TenancyByPath (path : string) (m : Loaded) : TenancyBase + error :=
  match tenanciesByPath m !! path with Some t => inl t | None => inr (Native "tenancy not found") end.
Definition Tenancies (m : Loaded) : list TenancyBase := AllMapValues (tenanciesById m).

(** [tenancy.Db().Close()]; a loaded tenancy has a handle. *)
Definition close_tenancy (t : TenancyBase) : act unit :=
  match tb_Db t with Some database => on (CloseDb database) | None => ret tt end.

Definition UnloadTenancy (id : string) : act unit :=
  let* m := on (gets (fun m : Loaded => m)) in
  match tenanciesById m !! id with
  | Some tenancy =>
      close_tenancy tenancy ;;
      on (modify (fun m => {| tenanciesById := delete id (tenanciesById m);
                              tenanciesByPath := delete (Path (tb_db tenancy)) (tenanciesByPath m) |}))
  | None => ret tt
  end.

Fixpoint close_all (l : list TenancyBase) : act unit :=
  match l with
  | [] => ret tt
  | t :: r => close_tenancy t ;; close_all r
  end.

(** [Close], up to the subscriptions it cancels. *)
Definition Close : act unit :=
  let* m := on (gets (fun m : Loaded => m)) in
  close_all (Tenancies m) ;;
  on (modify (fun _ => {| tenanciesById := ∅; tenanciesByPath := ∅ |})).

Definition keep (t : TenancyBase) (m : Loaded) : Loaded :=
  {| tenanciesById := <[GetID (tb_db t) := t]> (tenanciesById m);
     tenanciesByPath := <[Path (tb_db t) := t]> (tenanciesByPath m) |}.

Definition LoadTenancyFromData (tenancyDb : TenancyDb) : act (option TenancyBase * option error) :=
  traced_exit "TenancyManager.LoadTenancyFromData" (fun c =>
    let* '(tenancy, skip, err) := TenancyBase.Init Pools tenancyDb NewTenancy in
    match err with
    | Some _ => ret ((None, err), err)
    | None =>
        if (skip : bool) then ret ((None, None), None)
        else
          on (modify (keep tenancy)) ;;
          ret ((Some tenancy, None), None)
    end).

Definition LoadTenancy (id : string) : act (option TenancyBase * option error) :=
  traced_exit "TenancyManager.LoadTenancy" (fun c =>
    let* '(tenancyItem, err) := TenancyQueries.Find id [] in
    match err, tenancyItem with
    | Some _, _ => SetMessage c "failed to find tenancy" ;; ret ((None, err), err)
    | None, None => ret ((None, Some (Native "tenancy not found")), None)
    | None, Some tenancyItem =>
        let* '(tenancy, err) := LoadTenancyFromData (i_tenancy tenancyItem) in
        match err with
        | Some _ => ret ((None, err), err)
        | None => ret ((tenancy, None), None)
        end
    end).

(** [TenancyNotificationHandler.Handle] *)
Definition Handle (msg : PubsubNotification) : act (option error) :=
  traced "TenancyNotificationHandler.Handle" (fun c =>
    UnloadTenancy (TenancyData.Tenancy msg) ;;
    if decide (n_Operation msg <> OpDelete) then
      let* '(_, err) := LoadTenancy (TenancyData.Tenancy msg) in
      match err with Some _ => SetError c err | None => ret None end
    else ret None).

Fixpoint load_each (l : list TenancyItem) : act (option error) :=
  match l with
  | [] => ret None
  | t :: r =>
      let* '(_, err) := LoadTenancyFromData (i_tenancy t) in
      match err with Some _ => ret err | None => load_each r end
  end.

Definition LoadTenancies (selfPool : option LoadedPool) : act (option error) :=
  traced_exit "TenancyManager.LoadTenancies" (fun c =>
    let filter := match selfPool with
                  | Some p => Filter.AddField "pool_id" (VStr (GetID (lp_pool p))) NewFilter
                  | None => NewFilter
                  end in
    let* '(tenancies, _, err) := TenancyQueries.List_ (Some filter) in
    match err with
    | Some _ => SetMessage c "failed to load tenancies from database" ;; ret (err, err)
    | None =>
        let* err := load_each tenancies in
        ret (err, err)
    end).

Definition FindCustomer (c : nat) (id : string) : act (option Customer * option error) :=
  let* '(owner, err) := UserController.Find (R := Customer) id in
  let* genericError := GenericError in
  let* '(owner, err) :=
    match err with
    | Some _ =>
        if bool_decide (is_Some genericError) && bool_decide (Code genericError = ErrorCodeNotFound) then
          ClearError ;; UserController.FindByLogin (R := Customer) id
        else ret (owner, err)
    | None => ret (owner, err)
    end in
  match err, owner with
  | Some _, _ => SetMessage c "failed to find customer" ;; ret (None, err)
  | None, None =>
      SetGenericErrorCode ErrorCodeCustomerNotFound [true] ;; ret (None, Some (Native "customer not found"))
  | None, Some owner => ret (Some owner, None)
  end.

Definition FindPool (c : nat) (id : string) : act (LoadedPool + error) :=
  match Pool id Pools with
  | inl p => ret (inl p)
  | inr _ =>
      match PoolByName id Pools with
      | inl p => ret (inl p)
      | inr err =>
          SetGenericErrorCode ErrorCodePoolNotFound [] ;;
          SetMessage c "unknown pool" ;;
          ret (inr err)
      end
  end.

(** [CheckDuplicateRole] and [CheckDuplicatePath]. *)
Definition check_duplicate (c : nat) (fields : Fields) (code msg : string) : act (option error) :=
  let* '(exists_, err) := TenancyQueries.Exists fields in
  match err with
  | Some _ => SetMessage c "failed to check existence of tenancy" ;; ret err
  | None =>
      if (exists_ : bool) then SetGenericErrorCode code [] ;; ret (Some (Native msg))
      else ret None
  end.
Definition CheckDuplicateRole (c : nat) (customerId role : string) : act (option error) :=
  check_duplicate c (<["customer_id" := VStr customerId]> {["role" := VStr role]}) ErrorCodeTenancyConflictRole
    "tenancy already exists with such role for that customer".
Definition CheckDuplicatePath (c : nat) (poolId path : string) : act (option error) :=
  check_duplicate c (<["pool_id" := VStr poolId]> {["path" := VStr path]}) ErrorCodeTenancyConflictPath
    "tenancy already exists with such path in that pool".

(** The metas of a new database: none, or those of the tenancy itself. *)
Definition find_metas (database : DbConn) : act (list TenancyMeta * Z * option error) :=
  on (query_metas database ([], 0%Z, Some closed_error) (read_query (fun t => eng_list t None))).
Definition create_meta (database : DbConn) (meta : TenancyMeta) : act (option error) :=
  on (query_metas database (Some closed_error) (query (fun t => eng_create t meta))).

(** The part of [CreateTenancy] that works on the new database. *)
Definition claim_database (c : nat) (tenancy : TenancyBase) (database : DbConn) : act (option error) :=
  let* err := TenancyBase.UpgradeTenancyDatabase database tenancyDbModels in
  match err with
  | Some _ =>
      SetGenericErrorCode ErrorCodeTenancyDbInitializationFailed [] ;;
      SetMessage c "failed to initialize database models" ;;
      ret err
  | None =>
      let* '(metas, _, err) := find_metas database in
      match err with
      | Some _ => SetMessage c "failed to check tenancy metas in created database" ;; ret err
      | None =>
          match metas with
          | meta :: _ =>
              if decide (GetID meta <> GetID (tb_db tenancy)) then
                SetGenericErrorCode ErrorCodeForeignDatabase [] ;;
                ret (Some (Native "created database already belongs to other tenancy"))
              else ret None
          | [] =>
              let* err := create_meta database {| m_base := t_base (tb_db tenancy) |} in
              match err with
              | Some _ => SetMessage c "failed to save tenancy meta in created database" ;; ret err
              | None => ret None
              end
          end
      end
  end.

(** The error of a pool that is not active goes to a variable of its own, so the call context
    does not record it. *)
Definition CreateTenancy (data : TenancyData) : act (option TenancyItem * option error) :=
  traced_exit "TenancyManager.LoadTenancy" (fun c =>
    let* '(customer, err) := FindCustomer c (CUSTOMER_ID data) in
    match err, customer with
    | Some _, _ | _, None => ret ((None, err), err)
    | None, Some customer =>
    let* found := FindPool c (td_POOL_ID data) in
    match found with
    | inr err => ret ((None, Some err), Some err)
    | inl p =>
    if negb (p_ACTIVE (lp_pool p)) then
      SetGenericErrorCode ErrorCodePoolNotActive [] ;;
      ret ((None, Some (Native "pool not active")), None)
    else
    let* err := CheckDuplicateRole c (CUSTOMER_ID data) (td_ROLE data) in
    match err with
    | Some _ => ret ((None, err), err)
    | None =>
    let* db := on (InitObject (tb_db NewTenancy)) in
    let new := set_CUSTOMER_ID (GetID customer) (set_td_POOL_ID (GetID (lp_pool p)) data) in
    let* path := if decide (PATH new = "") then on (GenerateString []) else ret (PATH new) in
    let new := set_PATH path new in
    let new := if decide (DBNAME new = "")
               then set_DBNAME (ConcatStrings [DB_PREFIX; "_"; Customer.Login customer; "_"; td_ROLE data]) new
               else new in
    let tenancy := set_tb_Pool (Some p) (set_tb_db (set_t_data new db) NewTenancy) in
    let* err := CheckDuplicatePath c (td_POOL_ID data) (PATH data) in
    match err with
    | Some _ => ret ((None, err), err)
    | None =>
    let* '(tenancy, err) := TenancyBase.ConnectDatabase p [true] tenancy in
    match err, tb_Db tenancy with
    | Some _, _ | None, None => ret ((None, err), err)
    | None, Some database =>
        let* err := claim_database c tenancy database in
        on (CloseDb database) ;;
        match err with
        | Some _ => ret ((None, err), err)
        | None =>
            ret ((Some {| i_tenancy := tb_db tenancy; CustomerLogin := Customer.Login customer;
                          i_PoolName := p_NAME (lp_pool p) |}, None), None)
        end
    end
    end
    end
    end
    end).
End Methods.
End TenancyManager.

(** ** The changes (tenancy_controller.go) *)

Module TenancyController.
Section Methods.
Context `{!Engine TenancyDb, !Engine Customer, !Engine TenancyMeta, TJ : !TenancyJoin, DS : !DbServers, Un : !Uniuri}.
Context `{PP : !PoolPublishers}.
Variable Pools : PoolStoreBase.
Variable DB_PREFIX : string.
Variable tenancyDbModels : TenancyDbModels.
Local Abbreviation act := (M (St OpLogTenancy TenancyWorld)).

Definition OpLog (operation : string) (oplog : OpLogTenancy) : act unit := AddOplog (new_oplog operation oplog).

(** The error of [PublishPools] is dropped. *)
Definition PublishOp (tenancy : TenancyItem) (op : string) (poolIds : list string) : act unit :=
  on (PublishPools PubsubTopicName {| TenancyData.Tenancy := GetID (i_tenancy tenancy); n_Operation := op |}
        (match poolIds with [] => [PoolId (i_tenancy tenancy)] | _ => poolIds end)) ;;
  ret tt.

Definition with_db (db : TenancyDb) (i : TenancyItem) : TenancyItem :=
  {| i_tenancy := db; CustomerLogin := CustomerLogin i; i_PoolName := i_PoolName i |}.

(** The operation log most changes write. *)
Definition log_of (tenancy : TenancyItem) (customer : string) : OpLogTenancy :=
  {| ot_Customer := customer; ot_TenancyId := GetID (i_tenancy tenancy); ot_Role := Role (i_tenancy tenancy);
     ot_Path := ""; ot_DbName := ""; ot_Pool := "" |}.

(** The end of a change: update the fields, log the operation, publish it. *)
Definition change (c : nat) (tenancy : TenancyItem) (fields : Fields) (op : string)
    (oplog : TenancyItem -> OpLogTenancy) (publish : TenancyItem -> act unit) : act (option error) :=
  let* '(err, db) := DbCRUD.Update (i_tenancy tenancy) fields in
  let tenancy := with_db db tenancy in
  match err with
  | Some _ => SetMessage c "failed to update tenancy" ;; SetError c err
  | None =>
      OpLog op (oplog tenancy) ;;
      publish tenancy ;;
      ret None
  end.

(** The changes that start with a search for the tenancy. *)
Definition on_tenancy (name id : string) (idIsDisplay : list bool)
    (body : nat -> TenancyItem -> act (option error)) : act (option error) :=
  traced name (fun c =>
    let* '(tenancy, err) := TenancyQueries.Find id idIsDisplay in
    match err, tenancy with
    | Some _, _ | None, None => SetError c err
    | None, Some tenancy => body c tenancy
    end).

Definition Add (data : TenancyData) : act (option TenancyItem * option error) :=
  traced "TenancyController.Add" (fun c =>
    let* '(tenancy, err) := TenancyManager.CreateTenancy Pools DB_PREFIX tenancyDbModels data in
    match err, tenancy with
    | Some _, _ | None, None => SetMessage c "failed to create tenancy" ;; SetError c err ;; ret (None, err)
    | None, Some tenancy =>
        let* err := DbCRUD.Create (i_tenancy tenancy) in
        match err with
        | Some _ => SetMessage c "failed to save tenancy in database" ;; SetError c err ;; ret (None, err)
        | None =>
            let db := i_tenancy tenancy in
            OpLog OpAdd {| ot_Customer := CustomerDisplay tenancy; ot_TenancyId := GetID db; ot_Role := Role db;
                           ot_Path := Path db; ot_DbName := DbName db; ot_Pool := i_PoolName tenancy |} ;;
            PublishOp tenancy OpAdd [] ;;
            ret (Some tenancy, None)
        end
    end).

Definition SetPath (id path : string) (idIsDisplay : list bool) : act (option error) :=
  on_tenancy "TenancyController.SetPath" id idIsDisplay (fun c tenancy =>
    let* err := TenancyManager.CheckDuplicatePath c (PoolId (i_tenancy tenancy)) path in
    match err with
    | Some _ => ret err
    | None =>
        change c tenancy {["path" := VStr path]} OpSetPath
          (fun t => {| ot_Customer := CustomerDisplay t; ot_TenancyId := GetID (i_tenancy t);
                       ot_Role := Role (i_tenancy t); ot_Path := Path (i_tenancy t); ot_DbName := ""; ot_Pool := "" |})
          (fun t => PublishOp t OpSetPath [])
    end).

Definition SetRole (id role : string) (idIsDisplay : list bool) : act (option error) :=
  on_tenancy "TenancyController.SetRole" id idIsDisplay (fun c tenancy =>
    let* err := TenancyManager.CheckDuplicateRole c (CustomerId (i_tenancy tenancy)) role in
    match err with
    | Some _ => ret err
    | None =>
        change c tenancy {["role" := VStr role]} OpSetRole
          (fun t => log_of t (CustomerDisplay t)) (fun t => PublishOp t OpSetRole [])
    end).

Definition Activate (id : string) (idIsDisplay : list bool) : act (option error) :=
  on_tenancy "TenancyController.activate" id idIsDisplay (fun c tenancy =>
    change c tenancy {["active" := VBool true]} OpActivate
      (fun t => log_of t (CustomerDisplay t)) (fun t => PublishOp t OpActivate [])).

Definition Deactivate (id : string) (idIsDisplay : list bool) : act (option error) :=
  on_tenancy "TenancyController.activate" id idIsDisplay (fun c tenancy =>
    change c tenancy {["active" := VBool false]} OpDeactivate
      (fun t => log_of t (CustomerDisplay t)) (fun t => PublishOp t OpDeactivate [])).

Definition SetCustomer (id customer : string) (idIsDisplay : list bool) : act (option error) :=
  on_tenancy "TenancyController.SetRole" id idIsDisplay (fun c tenancy =>
    let* '(cust, err) := TenancyManager.FindCustomer c customer in
    match err, cust with
    | Some _, _ | None, None => SetError c err
    | None, Some cust =>
        let* err := TenancyManager.CheckDuplicateRole c (Db.GetID cust) (Role (i_tenancy tenancy)) in
        match err with
        | Some _ => ret err
        | None =>
            change c tenancy {["customer_id" := VStr (Db.GetID cust)]} OpSetCustomer
              (fun t => log_of t (Display cust)) (fun t => PublishOp t OpSetCustomer [])
        end
    end).

(** The end of [ChangePoolOrDb], after the new database was tried. *)
Definition finish_move (c : nat) (tenancy : TenancyItem) (p : LoadedPool) (oldPoolId pId dbN : string)
    (skip : bool) (err : option error) : act (option error) :=
  match err with
  | Some _ => SetMessage c "failed to init tenancy with new parameters" ;; SetError c err
  | None =>
      if skip then
        SetGenericErrorCode ErrorCodePoolNotActive [] ;;
        SetError c (Some (Native "failed to check tenancy database as the pool is not active"))
      else
        change c tenancy (<["pool_id" := VStr (GetID (lp_pool p))]> {["dbname" := VStr dbN]}) OpChangePoolOrDb
          (fun t => {| ot_Customer := CustomerDisplay t; ot_TenancyId := GetID (i_tenancy t);
                       ot_Role := Role (i_tenancy t); ot_Path := ""; ot_DbName := dbN;
                       ot_Pool := p_NAME (lp_pool p) |})
          (fun t =>
            (if decide (oldPoolId <> pId) then PublishOp t OpDelete [oldPoolId] else ret tt) ;;
            PublishOp t OpChangePoolOrDb [])
  end.

Definition ChangePoolOrDb (id poolId dbName : string) (idIsDisplay : list bool) : act (option error) :=
  on_tenancy "TenancyController.ChangePoolOrDb" id idIsDisplay (fun c tenancy =>
    let db := i_tenancy tenancy in
    let oldPoolId := PoolId db in
    let pId := if decide (poolId = "") then PoolId db else poolId in
    let* found := TenancyManager.FindPool Pools c pId in
    match found with
    | inr e => SetError c (Some e)
    | inl p =>
        let* err := if decide (GetID (lp_pool p) <> PoolId db)
                    then TenancyManager.CheckDuplicatePath c (GetID (lp_pool p)) (Path db) else ret None in
        match err with
        | Some _ => ret err
        | None =>
            let dbN := if decide (dbName = "") then DbName db else dbName in
            let tenancy := with_db (set_t_data (set_td_POOL_ID (GetID (lp_pool p)) (set_DBNAME dbN (t_data db))) db) tenancy in
            let* '(checkTenancy, skip, err) := TenancyBase.Init Pools (i_tenancy tenancy) NewTenancy in
            TenancyManager.close_tenancy checkTenancy ;;
            finish_move c tenancy p oldPoolId pId dbN skip err
        end
    end).

Definition Delete (id : string) (withDatabase : bool) (idIsDisplay : list bool) : act (option error) :=
  if withDatabase then
    traced "TenancyController.Delete" (fun c =>
      SetGenericError (Some (New ErrorCodeUnsupported
        ["Database can not be droped through administrator. Use raw database tools for database dropping."])) [] ;;
      SetError c (Some (Native "database can not be dropped")))
  else
    on_tenancy "TenancyController.Delete" id idIsDisplay (fun c tenancy =>
      let* err := DbCRUD.Delete (i_tenancy tenancy) in
      match err with
      | Some _ => SetMessage c "failed to delete tenancy" ;; SetError c err
      | None =>
          OpLog OpDelete (log_of tenancy (CustomerDisplay tenancy)) ;;
          PublishOp tenancy OpDelete [] ;;
          ret None
      end).
End Methods.
End TenancyController.
