(* ===== verification/TenancyInv.v ===== *)
(** * pkg/multitenancy: what the operations of the manager do

    Each operation of the manager has a [spec_] lemma: what it does to connections and to the
    databases of tenancies, and that it leaves rows, logs and loaded tenancies alone. *)
From S2P Require Import Prelude GoTime Utils Common Errors OpContext Db Crud PoolData Pool PoolStore Users Crypt Customer TenancyData Tenancy.
Open Scope go_scope.

(** ** Connections and metas *)

(** Handles are made with growing identities. *)
Definition bounded (d : Databases) : Prop := Forall (fun i => i < next_connection d) (connections d).

(** Every database belongs to at most one tenancy. *)
Definition metas_ok (d : Databases) : Prop := forall database, length (rows (metas_of database d)) <= 1.

(** Databases stay claimed. *)
Definition grows (d d' : Databases) : Prop :=
  next_connection d <= next_connection d' /\
  (forall database m, m ∈ rows (metas_of database d) -> m ∈ rows (metas_of database d')) /\
  (metas_ok d -> metas_ok d').

(** The open connections are the same again, or one more is open. *)
Definition settled (d d' : Databases) : Prop := grows d d' /\ connections d' = connections d.
Definition opened (c : DbConn) (d d' : Databases) : Prop :=
  grows d d' /\ connections d' = connections d ++ [conn_id c] /\
  next_connection d <= conn_id c < next_connection d'.

Lemma grows_refl d : grows d d.
Proof. by split. Qed.
Lemma grows_trans d1 d2 d3 : grows d1 d2 -> grows d2 d3 -> grows d1 d3.
Proof. intros (? & ? & ?) (? & ? & ?). split; [lia|]. split; auto. Qed.
Lemma settled_refl d : settled d d.
Proof. split; [apply grows_refl|done]. Qed.
Lemma settled_trans d1 d2 d3 : settled d1 d2 -> settled d2 d3 -> settled d1 d3.
Proof. intros [? ?] [? ?]. split; [by eapply grows_trans|congruence]. Qed.
Lemma opened_settled c d1 d2 d3 : opened c d1 d2 -> settled d2 d3 -> opened c d1 d3.
Proof.
  intros (Hg & Hc & Hn) [Hg' Hc']. split; [by eapply grows_trans|]. split; [congruence|].
  destruct Hg' as [? _]. lia.
Qed.
Lemma settled_opened c d1 d2 d3 : settled d1 d2 -> opened c d2 d3 -> opened c d1 d3.
Proof.
  intros [Hg Hc] (Hg' & Hc' & Hn). split; [by eapply grows_trans|]. split; [congruence|].
  destruct Hg as [? _]. lia.
Qed.
#[export] Hint Resolve grows_refl settled_refl : go.

Lemma opened_fresh c d d' : bounded d -> opened c d d' -> conn_id c ∉ connections d.
Proof.
  intros Hb (_ & _ & Hn) Hin. unfold bounded in Hb. rewrite Forall_forall in Hb. specialize (Hb _ Hin). cbn in Hb. lia.
Qed.
Lemma bounded_settled d d' : settled d d' -> bounded d -> bounded d'.
Proof.
  intros [(? & _) Hc] Hb. unfold bounded. rewrite Hc. eapply Forall_impl; [exact Hb|]. intros. cbn in *. lia.
Qed.
Lemma bounded_opened c d d' : opened c d d' -> bounded d -> bounded d'.
Proof.
  intros ((? & _) & Hc & ?) Hb. unfold bounded. rewrite Hc. apply Forall_app. split.
  - eapply Forall_impl; [exact Hb|]. intros. cbn in *. lia.
  - apply Forall_singleton. lia.
Qed.

(** Closing a handle that is not open changes nothing, closing the last opened one undoes it. *)
Lemma close_absent (i : nat) l : i ∉ l -> List.filter (fun j => negb (bool_decide (j = i))) l = l.
Proof.
  induction l as [|j l IH]; cbn; [done|]. intros [Hj Hl]%not_elem_of_cons.
  rewrite bool_decide_eq_false_2 by congruence. cbn. by rewrite IH.
Qed.
Lemma CloseDb_settled c d : conn_id c ∉ connections d -> settled d (CloseDb c d).2.
Proof. intros Hc. split; [by split|]. cbn. by apply close_absent. Qed.
Lemma CloseDb_opened c d d' : bounded d -> opened c d d' -> settled d (CloseDb c d').2.
Proof.
  intros Hb Ho. pose proof (opened_fresh c d d' Hb Ho) as Hc. destruct Ho as (Hg & Hcs & _). split; [done|].
  cbn. rewrite Hcs, List.filter_app, close_absent by done. cbn. rewrite bool_decide_eq_true_2 by done. cbn. by rewrite app_nil_r.
Qed.

Section Servers.
Context `{DS : !DbServers}.

Lemma send_settled r d : settled d (send r d).2.
Proof. by split. Qed.

Lemma wp_InitWithConfig cfg (Q : DbConn + error -> Databases -> Prop) d :
  (forall c d', opened c d d' -> conn_database c = database_of cfg -> Q (inl c) d') ->
  (forall e d', settled d d' -> Q (inr e) d') ->
  wp (InitWithConfig cfg) Q d.
Proof.
  intros Hok Herr. unfold InitWithConfig, send. apply wp_bind. unfold wp at 1. cbn [fst snd].
  destruct (answer _ _); [by apply Herr|]. unfold wp; cbn. apply Hok; [|done].
  split; [|by cbn; split; [|lia]]. split; [cbn; lia|]. by split.
Qed.

(** A query that only reads the metas of an open database. *)
Lemma metas_of_insert database t d d' :
  metas d' = <[database := t]> (metas d) -> forall k, metas_of k d' = if decide (k = database) then t else metas_of k d.
Proof.
  intros E k. unfold metas_of. rewrite E. case_decide as Hk.
  - subst. by rewrite lookup_insert_eq.
  - by rewrite lookup_insert_ne.
Qed.

Lemma wp_query_metas {A} c (closed : A) (q : M (table TenancyMeta) A) (Q : A -> Databases -> Prop) d :
  (conn_id c ∉ connections d -> Q closed d) ->
  (forall d', conn_id c ∈ connections d -> next_connection d' = next_connection d -> connections d' = connections d ->
     (forall k, metas_of k d' = if decide (k = conn_database c) then (q (metas_of (conn_database c) d)).2 else metas_of k d) ->
     Q (q (metas_of (conn_database c) d)).1 d') ->
  wp (query_metas c closed q) Q d.
Proof.
  intros Hcl Hop. unfold wp, query_metas. case_decide as Hc; cbn; [|by apply Hcl].
  apply Hop; [done..|]. by apply metas_of_insert.
Qed.

Lemma read_settled database (t : table TenancyMeta) d d' :
  next_connection d' = next_connection d -> connections d' = connections d ->
  (forall k, metas_of k d' = if decide (k = database) then queried (rows (metas_of database d)) t else metas_of k d) ->
  settled d d'.
Proof.
  intros Hn Hc Hm. split; [|done].
  assert (E : forall k, rows (metas_of k d') = rows (metas_of k d)).
  { intros k. rewrite Hm. by case_decide; subst. }
  split; [lia|]. split.
  - intros k m. by rewrite E.
  - intros Hok k. by rewrite E.
Qed.
End Servers.

(** ** Operations that leave the rows and the maps alone *)

Definition quiet (o : Op OpLogTenancy) (w : TenancyWorld) (o' : Op OpLogTenancy) (w' : TenancyWorld) : Prop :=
  oplogs o' = oplogs o /\ rows (tenancies w') = rows (tenancies w) /\ rows (customers w') = rows (customers w) /\
  joined_pools w' = joined_pools w /\ loaded w' = loaded w /\ published w' = published w.

Definition calm o w o' w' : Prop := quiet o w o' w' /\ settled (databases w) (databases w').
Definition connected c o w o' w' : Prop := quiet o w o' w' /\ opened c (databases w) (databases w').

Lemma quiet_refl o w : quiet o w o w.
Proof. by repeat split. Qed.
Lemma quiet_trans o1 w1 o2 w2 o3 w3 : quiet o1 w1 o2 w2 -> quiet o2 w2 o3 w3 -> quiet o1 w1 o3 w3.
Proof. unfold quiet. intuition congruence. Qed.
Lemma calm_refl o w : calm o w o w.
Proof. split; [apply quiet_refl|apply settled_refl]. Qed.
Lemma calm_trans o1 w1 o2 w2 o3 w3 : calm o1 w1 o2 w2 -> calm o2 w2 o3 w3 -> calm o1 w1 o3 w3.
Proof. intros [? ?] [? ?]. split; [by eapply quiet_trans|by eapply settled_trans]. Qed.
Lemma calm_connected c o1 w1 o2 w2 o3 w3 : calm o1 w1 o2 w2 -> connected c o2 w2 o3 w3 -> connected c o1 w1 o3 w3.
Proof. intros [? ?] [? ?]. split; [by eapply quiet_trans|by eapply settled_opened]. Qed.
Lemma connected_calm c o1 w1 o2 w2 o3 w3 : connected c o1 w1 o2 w2 -> calm o2 w2 o3 w3 -> connected c o1 w1 o3 w3.
Proof. intros [? ?] [? ?]. split; [by eapply quiet_trans|by eapply opened_settled]. Qed.

Lemma calm_databases o w d : settled (databases w) d -> calm o w o (put d w).
Proof. intros Hs. split; [by repeat split|done]. Qed.
Lemma calm_env o w e : calm o w o (put (e : Env) w).
Proof. split; [by repeat split|apply settled_refl]. Qed.
Lemma calm_tenancies o w t : rows t = rows (tenancies w) -> calm o w o (put (t : table TenancyDb) w).
Proof. intros Ht. split; [by repeat split|apply settled_refl]. Qed.
Lemma calm_customers o w t : rows t = rows (customers w) -> calm o w o (put (t : table Customer) w).
Proof. intros Ht. split; [by repeat split|apply settled_refl]. Qed.
Lemma calm_query_customers o w : calm o w o (put (queried (rows (customers w)) (customers w)) w).
Proof. by apply calm_customers. Qed.
Lemma calm_query_tenancies o w : calm o w o (put (queried (rows (tenancies w)) (tenancies w)) w).
Proof. by apply calm_tenancies. Qed.
Lemma calm_context o w o' : oplogs o' = oplogs o -> calm o w o' w.
Proof. intros Ho. split; [by repeat split|apply settled_refl]. Qed.
Lemma calm_code o w code : calm o w (with_code code o) w.
Proof. apply calm_context. unfold with_code. by destruct (genericError o). Qed.
#[export] Hint Resolve quiet_refl calm_refl calm_databases calm_env calm_tenancies calm_customers calm_code : go.

Lemma spec_SetGenericError_calm e ov (Q : unit -> Op OpLogTenancy -> TenancyWorld -> Prop) o w :
  (forall o', calm o w o' w -> Q tt o' w) -> spec (SetGenericError e ov) Q o w.
Proof.
  intros HQ. apply spec_SetGenericError, HQ, calm_context. by repeat case_match.
Qed.

(** The world after a connection is closed. *)
Lemma close_connected c o w o' w' :
  bounded (databases w) -> connected c o w o' w' -> calm o w o' (put (CloseDb c (databases w')).2 w').
Proof.
  intros Hb [(?&?&?&?&?&?) Ho]. split; [by repeat split|]. by apply CloseDb_opened.
Qed.
Lemma close_again c o w o' w' :
  calm o w o' w' -> conn_id c ∉ connections (databases w) -> calm o w o' (put (CloseDb c (databases w')).2 w').
Proof.
  intros Hc Hn. eapply calm_trans; [exact Hc|]. apply calm_databases, CloseDb_settled.
  destruct Hc as [_ [_ ->]]. done.
Qed.

Section Connections.
Context `{ET : !Engine TenancyDb, EC : !Engine Customer, EM : !Engine TenancyMeta, DS : !DbServers}.
Context `{OT : !EngineOk TenancyDb, OC : !EngineOk Customer, OM : !EngineOk TenancyMeta}.
Import TenancyBase.
Local Abbreviation post A := (A -> Op OpLogTenancy -> TenancyWorld -> Prop).

Lemma spec_close c (Q : post unit) o w :
  Q tt o (put (CloseDb c (databases w)).2 w) -> spec (on (CloseDb c)) Q o w.
Proof. intros HQ. by apply spec_on. Qed.

Lemma spec_request_on c r (Q : post (option error)) o w :
  (forall e w', calm o w o w' -> Q e o w') -> spec (request_on c r) Q o w.
Proof.
  intros HQ. unfold request_on. apply spec_on. unfold wp. cbn [view databases_lens].
  case_decide; cbn [fst snd].
  - apply HQ, calm_databases, send_settled.
  - apply HQ, calm_databases, settled_refl.
Qed.

Lemma spec_failed {A} (a : A) genErr (Q : post (A * option error * option error)) o w :
  (forall o', calm o w o' w -> Q (a, Some genErr, Some genErr) o' w) -> spec (failed a genErr) Q o w.
Proof.
  intros HQ. apply spec_bind, spec_SetGenericError_calm. intros o' Hc. by apply spec_ret, HQ.
Qed.

Lemma spec_CreateDatabase cfg service name (Q : post (option error)) o w :
  bounded (databases w) -> (forall e w', calm o w o w' -> Q e o w') -> spec (CreateDatabase cfg service name) Q o w.
Proof.
  intros Hb HQ. unfold CreateDatabase. spec_go. apply spec_on, wp_InitWithConfig.
  - intros c d' Ho _. spec_go. apply spec_request_on. intros err w' Hc. spec_go. apply spec_close.
    assert (Hcalm : calm o w o (put (CloseDb c (databases w')).2 w')).
    { apply close_connected; [done|]. eapply connected_calm; [|exact Hc]. by split. }
    destruct err; spec_go; by apply HQ.
  - intros e d' Hs. spec_go. apply HQ. by apply calm_databases.
Qed.

(** The database of a tenancy with the name [dbname] in the pool. *)
Definition database_for (p : LoadedPool) (dbname : string) : option string :=
  match Service TENANCY_DATABASE_ROLE p with
  | inl s => match ParseDbService (pb_data s) with
             | inl cfg => Some (database_of (set_DBC_NAME dbname cfg))
             | inr _ => None
             end
  | inr _ => None
  end.

(** One connection more, or an error and none. *)
Lemma spec_ConnectDatabase p newDb t (Q : post (TenancyBase * option error)) o w :
  bounded (databases w) ->
  (forall c o' w', connected c o w o' w' -> database_for p (DbName (tb_db t)) = Some (conn_database c) ->
     Q (set_tb_Db (Some c) t, None) o' w') ->
  (forall e o' w', calm o w o' w' -> Q (t, Some e) o' w') ->
  spec (ConnectDatabase p newDb t) Q o w.
Proof.
  intros Hb Hok Herr. unfold ConnectDatabase, database_for in *. spec_go.
  destruct (Service _ p) as [s|e]; [|apply spec_failed; intros; by apply Herr].
  destruct (s_ACTIVE (pb_data s)); cbn [negb]; [|apply spec_failed; intros; by apply Herr].
  destruct (ParseDbService _) as [cfg|e]; [|apply spec_failed; intros; by apply Herr].
  spec_go.
  assert (Hcreate : forall (create : bool) (Q' : post (option error)),
    (forall e w', calm o w o w' -> Q' e o w') ->
    spec (if create then CreateDatabase cfg (pb_ServiceName s) (DbName (tb_db t)) else ret None) Q' o w).
  { intros [] Q' HQ'; [by apply spec_CreateDatabase|]. apply spec_ret, HQ', calm_refl. }
  apply Hcreate. intros [genErr|] w1 Hc.
  - apply spec_failed. intros o2 Ho2. apply Herr. by eapply calm_trans.
  - spec_go. apply spec_on, wp_InitWithConfig.
    + intros database d' Ho Hdb. spec_go. apply Hok; [eapply calm_connected; [exact Hc|]; by split|by rewrite Hdb].
    + intros e d' Hs. apply spec_failed. intros o2 Ho2. apply Herr.
      eapply calm_trans; [exact Hc|]. eapply calm_trans; [by apply calm_databases|exact Ho2].
Qed.

(** The database is marked with the ID of the tenancy. *)
Definition belongs_to (database id : string) (d : Databases) : Prop :=
  exists m, m ∈ rows (metas_of database d) /\ GetID m = id.

Lemma belongs_grows database id d d' : grows d d' -> belongs_to database id d -> belongs_to database id d'.
Proof. intros (_ & Hg & _) (m & Hm & E). exists m. auto. Qed.

Lemma spec_CheckTenancyDatabase c id (Q : post (option error)) o w :
  (forall w', calm o w o w' -> belongs_to (conn_database c) id (databases w') -> Q None o w') ->
  (forall e o' w', calm o w o' w' -> Q (Some e) o' w') ->
  spec (CheckTenancyDatabase c id) Q o w.
Proof.
  intros Hok Herr. unfold CheckTenancyDatabase, meta_exists. spec_go. apply spec_on, wp_query_metas.
  - intros _. spec_go. apply Herr, calm_databases, settled_refl.
  - intros d' _ Hn Hcs Hm. unfold read_query, query in *. cbn [fst snd] in *.
    set (t := metas_of (conn_database c) _) in *.
    assert (Hs : settled (databases w) d') by (by eapply (read_settled _ t)).
    destruct (eng_exists _ _ _) as [b [e|]] eqn:E; spec_go; [by apply Herr, calm_databases|].
    apply exists_ok in E; [|auto with go|by apply typed_singleton, id_assignable].
    destruct b; cbn [negb]; spec_go.
    + apply Hok; [by apply calm_databases|]. symmetry in E. apply existsb_exists in E as (m & Hin & Hmm).
      apply list_elem_of_In in Hin. change (matches {["id" := VStr id]} m = true) in Hmm.
      rewrite matches_id in Hmm. apply bool_decide_eq_true in Hmm. exists m. split; [|done].
      destruct Hs as [(_ & Hg & _) _]. by apply Hg.
    + apply Herr. eapply calm_trans; [by apply calm_databases|apply calm_code].
Qed.
End Connections.

Section Manager.
Context `{ET : !Engine TenancyDb, EC : !Engine Customer, EM : !Engine TenancyMeta, DS : !DbServers, TJ : !TenancyJoin, Un : !Uniuri}.
Context `{OT : !EngineOk TenancyDb, OC : !EngineOk Customer, OM : !EngineOk TenancyMeta, TO : !TenancyJoinOk}.
Variable Pools : PoolStoreBase.
Variable DB_PREFIX : string.
Variable models : TenancyDbModels.
Local Abbreviation post A := (A -> Op OpLogTenancy -> TenancyWorld -> Prop).

(** A tenancy that [Init] prepared from the row [data]: it has its customer, its active pool and
    a connection [c] to its own database. *)
Definition prepared (data : TenancyDb) (t : TenancyBase) (c : DbConn) (w : TenancyWorld) : Prop :=
  tb_db t = data /\ tb_Db t = Some c /\ belongs_to (conn_database c) (GetID data) (databases w) /\
  (exists cust, tb_Customer t = Some cust /\ cust ∈ rows (customers w) /\ GetID cust = CustomerId data) /\
  (exists p, tb_Pool t = Some p /\ Pool (PoolId data) Pools = inl p /\ p_ACTIVE (lp_pool p) = true /\
     database_for p (DbName data) = Some (conn_database c)).

Lemma spec_Init data (Q : post (TenancyBase * bool * option error)) o w :
  bounded (databases w) ->
  (forall t c o' w', connected c o w o' w' -> prepared data t c w' -> Q (t, false, None) o' w') ->
  (forall t skip e o' w', calm o w o' w' -> (skip = true \/ e <> None) ->
     (forall c, tb_Db t = Some c -> conn_id c ∉ connections (databases w)) -> Q (t, skip, e) o' w') ->
  spec (TenancyBase.Init Pools data NewTenancy) Q o w.
Proof.
  intros Hb Hok Herr. unfold TenancyBase.Init, UserController.Find. spec_go. apply spec_find_by.
  - apply id_assignable.
  - intros e. spec_go. apply Herr; [apply calm_query_customers|by right|done].
  - intros _. spec_go. apply Herr; [|by right|done]. eapply calm_trans; [apply calm_query_customers|apply calm_code].
  - intros cust Hin Hid. rewrite id_column in Hid. injection Hid as Hid. set (w1 := put _ w).
    assert (Hc1 : calm o w o w1) by apply calm_query_customers.
    destruct (Pool _ _) as [p|e] eqn:Hp; spec_go.
    2: { apply Herr; [|by right|done]. eapply calm_trans; [exact Hc1|apply calm_code]. }
    destruct (p_ACTIVE (lp_pool p)) eqn:Ha; cbn [negb]; spec_go; [|apply Herr; [done|by left|done]].
    apply spec_ConnectDatabase; [done| |].
    + intros database o2 w2 Hc2 Hdb. cbn [tb_Db set_tb_Db tb_db set_tb_db set_tb_Pool set_tb_Customer]. spec_go.
      assert (Hc : connected database o w o2 w2) by (by eapply calm_connected).
      apply spec_CheckTenancyDatabase.
      * intros w3 Hc3 Hbel. spec_go. apply (Hok _ database); [by eapply connected_calm|].
        repeat split; [done| |by exists p]. exists cust. repeat split; [|done].
        destruct Hc2 as [(_ & _ & E2 & _) _], Hc3 as [(_ & _ & E3 & _) _]. by rewrite E3, E2.
      * intros e o3 w3 Hc3. spec_go. apply spec_close. spec_go. apply Herr; [|by right|].
        -- apply close_connected; [done|]. by eapply connected_calm.
        -- intros c' [= <-]. by destruct Hc as [_ Ho]; apply (opened_fresh _ _ _ Hb Ho).
    + intros e o2 w2 Hc2. spec_go. apply Herr; [by eapply calm_trans|by right|done].
Qed.

(** ** Searches *)

Lemma spec_list_tenancies f (Q : post (list TenancyItem * Z * option error)) o w :
  (forall items n w' k, calm o w o w' ->
     eng_tenancies k f (rows (tenancies w)) (rows (customers w)) (rows (joined_pools w)) = (items, n, None) ->
     Q (items, n, None) o w') ->
  (forall e w', calm o w o w' -> Q ([], 0%Z, Some e) o w') ->
  spec (TenancyQueries.List_ f) Q o w.
Proof.
  intros Hok Herr. unfold TenancyQueries.List_, TenancyQueries.join_query. spec_go. apply spec_on_ext. cbn [fst snd].
  destruct (eng_tenancies _ _ _ _ _) as [[items n] [e|]] eqn:E; spec_go.
  - apply Herr, calm_query_tenancies.
  - eapply Hok; [|exact E]. apply calm_query_tenancies.
Qed.

Definition items_of (w : TenancyWorld) : list TenancyItem :=
  joined_items (rows (tenancies w)) (rows (customers w)) (rows (joined_pools w)).

Lemma elem_of_selected f ts cs ps i : i ∈ selected f ts cs ps <-> i ∈ joined_items ts cs ps /\ item_matches (f_Fields f) i = true.
Proof. unfold selected. by rewrite !list_elem_of_In, filter_In. Qed.

Lemma spec_first f c (Q : post (TenancyItem + option error)) items o w w0 :
  Forall (fun i => i ∈ selected f (rows (tenancies w0)) (rows (customers w0)) (rows (joined_pools w0))) items ->
  (forall i, i ∈ items_of w0 -> item_matches (f_Fields f) i = true -> Q (inl i) o w) ->
  (items = [] -> forall e o', calm o w o' w -> Q (inr (Some e)) o' w) ->
  spec (TenancyQueries.first_found c items) Q o w.
Proof.
  intros Hall Hok Herr. unfold TenancyQueries.first_found. destruct items as [|i items]; spec_go.
  - cbn. rewrite with_code_genericError. apply Herr; [done|apply calm_code].
  - apply Forall_cons in Hall as [Hi _]. apply elem_of_selected in Hi as [Hi Hm]. by apply Hok.
Qed.

(** The tenancy an argument stands for: the one with the ID, or the one of the customer with the
    role. *)
Definition names_tenancy (id : string) (idIsDisplay : list bool) (i : TenancyItem) : Prop :=
  if OptionalArg false idIsDisplay then
    exists login role, ParseTenancyDisplay id = inl (login, role) /\ CustomerLogin i = login /\ Role (i_tenancy i) = role
  else GetID (i_tenancy i) = id.

Lemma item_matches_spec (fields : Fields) i :
  item_matches fields i = true <-> forall k v, fields !! k = Some v -> item_column k i = Some v.
Proof.
  unfold item_matches. rewrite forallb_forall. split.
  - intros Hm k v E. apply elem_of_map_to_list, list_elem_of_In in E. specialize (Hm _ E).
    by apply bool_decide_eq_true in Hm.
  - intros Hm [k v] Hin. apply list_elem_of_In, elem_of_map_to_list in Hin.
    by apply bool_decide_eq_true, Hm.
Qed.

Lemma spec_limited f (Q : post (list TenancyItem * Z * option error)) o w :
  plain f ->
  (forall items n w', calm o w o w' ->
     Forall (fun i => i ∈ selected f (rows (tenancies w)) (rows (customers w)) (rows (joined_pools w))) items ->
     (items = [] -> selected f (rows (tenancies w)) (rows (customers w)) (rows (joined_pools w)) = []) ->
     Q (items, n, None) o w') ->
  (forall e w', calm o w o w' -> Q ([], 0%Z, Some e) o w') ->
  spec (TenancyQueries.List_ (Some (SetLimit 1 f))) Q o w.
Proof.
  intros Hp Hok Herr. apply spec_list_tenancies; [|exact Herr]. intros items n w' k Hc E.
  apply tenancies_limit_ok in E as [Hall Hnil]; [|done|lia]. by apply Hok.
Qed.

Lemma spec_Find id idIsDisplay (Q : post (option TenancyItem * option error)) o w :
  (forall i o' w', calm o w o' w' -> i ∈ items_of w -> names_tenancy id idIsDisplay i -> Q (Some i, None) o' w') ->
  (forall e o' w', calm o w o' w' -> Q (None, Some e) o' w') ->
  spec (TenancyQueries.Find id idIsDisplay) Q o w.
Proof.
  intros Hok Herr. unfold TenancyQueries.Find, TenancyQueries.TenancyId, names_tenancy in *. spec_go.
  destruct (OptionalArg false idIsDisplay); cbn [negb]; spec_go.
  - destruct (ParseTenancyDisplay id) as [[login role]|msg] eqn:Ep; spec_go.
    + apply spec_limited; [auto with go| |].
      * intros items n w1 Hc1 Hall _. spec_go. eapply spec_first; [exact Hall| |].
        -- intros i Hi Hm. spec_go. apply Hok; [done|done|]. exists login, role. split; [done|].
           rewrite item_matches_spec in Hm. cbn [f_Fields Filter.AddField NewFilter] in Hm. split.
           ++ specialize (Hm "customer_login" (VStr login)). cbn in Hm.
              rewrite lookup_insert_ne, lookup_insert_eq in Hm by done. by injection (Hm eq_refl).
           ++ specialize (Hm "role" (VStr role)). rewrite lookup_insert_eq in Hm.
              specialize (Hm eq_refl). unfold item_column in Hm. rewrite !decide_False in Hm by done. by injection Hm.
        -- intros _ e o2 Hc2. spec_go. apply Herr. by eapply calm_trans.
      * intros e w1 Hc1. spec_go. by apply Herr.
    + apply spec_SetGenericError_calm. intros o' Hc. spec_go. by apply Herr.
  - apply spec_limited; [auto with go| |].
    + intros items n w1 Hc1 Hall _. spec_go. eapply spec_first; [exact Hall| |].
      * intros i Hi Hm. spec_go. apply Hok; [done|done|].
        rewrite item_matches_spec in Hm. cbn [f_Fields Filter.AddField NewFilter] in Hm.
        specialize (Hm "tenancies.id" (VStr id)). rewrite lookup_insert_eq in Hm.
        specialize (Hm eq_refl). unfold item_column in Hm. rewrite !decide_False in Hm by done.
        rewrite decide_True in Hm by done. by injection Hm.
      * intros _ e o2 Hc2. spec_go. apply Herr. by eapply calm_trans.
    + intros e w1 Hc1. spec_go. by apply Herr.
Qed.

(** ** Loading and unloading *)

Lemma spec_LoadTenancyFromData data (Q : post (option TenancyBase * option error)) o w :
  bounded (databases w) ->
  (forall t c o' w1, connected c o w o' w1 -> prepared data t c w1 ->
     Q (Some t, None) o' (put (TenancyManager.keep t (loaded w1)) w1)) ->
  (forall e o' w', calm o w o' w' -> Q (None, e) o' w') ->
  spec (TenancyManager.LoadTenancyFromData Pools data) Q o w.
Proof.
  intros Hb Hok Herr. unfold TenancyManager.LoadTenancyFromData. spec_go. apply spec_Init; [done| |].
  - intros t database o1 w1 Hc Hp. spec_go. apply spec_on. unfold wp, modify. cbn [fst snd]. spec_go. by eapply Hok.
  - intros t skip e o1 w1 Hc Hor _. destruct e as [e|]; spec_go; [by apply Herr|].
    destruct Hor as [->|]; [|done]. spec_go. by apply Herr.
Qed.

Lemma spec_LoadTenancy id (Q : post (option TenancyBase * option error)) o w :
  bounded (databases w) ->
  (forall i t c o' w1, connected c o w o' w1 -> i ∈ items_of w -> GetID (i_tenancy i) = id ->
     prepared (i_tenancy i) t c w1 -> Q (Some t, None) o' (put (TenancyManager.keep t (loaded w1)) w1)) ->
  (forall e o' w', calm o w o' w' -> Q (None, e) o' w') ->
  spec (TenancyManager.LoadTenancy Pools id) Q o w.
Proof.
  intros Hb Hok Herr. unfold TenancyManager.LoadTenancy. spec_go. apply spec_Find.
  - intros i o1 w1 Hc1 Hi Hn. spec_go. apply spec_LoadTenancyFromData.
    + destruct Hc1 as [_ Hs]. by eapply bounded_settled.
    + intros t database o2 w2 Hc2 Hp. spec_go. eapply Hok; [by eapply calm_connected|done|exact Hn|exact Hp].
    + intros e o2 w2 Hc2. assert (calm o w o2 w2) by (by eapply calm_trans).
      destruct e; spec_go; by apply Herr.
  - intros e o1 w1 Hc1. spec_go. by apply Herr.
Qed.

(** ** Searches of the manager *)

Lemma spec_FindCustomer c id (Q : post (option Customer * option error)) o w :
  (forall cust o' w', calm o w o' w' -> cust ∈ rows (customers w) -> (GetID cust = id \/ Customer.Login cust = id) ->
     Q (Some cust, None) o' w') ->
  (forall e o' w', calm o w o' w' -> Q (None, Some e) o' w') ->
  spec (TenancyManager.FindCustomer c id) Q o w.
Proof.
  intros Hok Herr. unfold TenancyManager.FindCustomer.
  assert (Hlogin : forall e o1 w1, calm o w o1 w1 ->
    spec (let* genericError := GenericError in
          let* '(owner, err) :=
            if bool_decide (is_Some genericError) && bool_decide (Code genericError = ErrorCodeNotFound)
            then ClearError ;; UserController.FindByLogin (R := Customer) id else ret (None, Some e) in
          match err, owner with
          | Some _, _ => SetMessage c "failed to find customer" ;; ret (None, err)
          | None, None =>
              SetGenericErrorCode ErrorCodeCustomerNotFound [true] ;; ret (None, Some (Native "customer not found"))
          | None, Some owner => ret (Some owner, None)
          end) Q o1 w1).
  { intros e o1 w1 Hc1. spec_go. destruct (_ && _); spec_go; [|by apply Herr].
    assert (Hc2 : calm o w (set_genericError None o1) w1) by (eapply calm_trans; [exact Hc1|by apply calm_context]).
    assert (Hc3 : forall o3, calm (set_genericError None o1) w1 o3 w1 ->
      calm o w o3 (put (queried (rows (customers w1)) (customers w1)) w1)).
    { intros o3 Hc3. eapply calm_trans; [exact Hc2|]. eapply calm_trans; [exact Hc3|]. apply calm_query_customers. }
    unfold UserController.FindByLogin. apply spec_find_by.
    - apply login_assignable.
    - intros e'. spec_go. apply Herr, Hc3, calm_refl.
    - intros _. spec_go. apply Herr, Hc3, calm_code.
    - intros cust Hin Hl. rewrite login_column in Hl. injection Hl as Hl. spec_go.
      apply Hok; [apply Hc3, calm_refl| |by right]. destruct Hc1 as [(_ & _ & E & _) _]. by rewrite <- E. }
  apply spec_bind. unfold UserController.Find. apply spec_find_by.
  - apply id_assignable.
  - intros e. apply Hlogin, calm_query_customers.
  - intros _. apply Hlogin. eapply calm_trans; [apply calm_query_customers|apply calm_code].
  - intros cust Hin Hid. rewrite id_column in Hid. injection Hid as Hid. spec_go.
    apply Hok; [apply calm_query_customers|done|by left].
Qed.

Lemma spec_store_pool c id (Q : post (LoadedPool + error)) o w :
  (forall p, Pool id Pools = inl p \/ PoolByName id Pools = inl p -> Q (inl p) o w) ->
  (forall e o', calm o w o' w -> Q (inr e) o' w) ->
  spec (TenancyManager.FindPool Pools c id) Q o w.
Proof.
  intros Hok Herr. unfold TenancyManager.FindPool. destruct (Pool id Pools) eqn:E1; spec_go; [apply Hok; by left|].
  destruct (PoolByName id Pools) eqn:E2; spec_go; [apply Hok; by right|]. apply Herr, calm_code.
Qed.

Lemma AddFields_new fields : f_Fields (Filter.AddFields fields NewFilter) = fields /\ plain (Filter.AddFields fields NewFilter).
Proof.
  unfold Filter.AddFields. induction fields as [|k v m Hk Hf IH] using map_first_key_ind.
  - rewrite map_fold_empty. split; [done|apply plain_new].
  - rewrite map_fold_insert_first_key by done. destruct IH as [IH Hp].
    split; [cbn; by rewrite IH|by apply plain_AddField].
Qed.

Lemma spec_check_duplicate c fields code msg (Q : post (option error)) o w :
  typed (R := TenancyDb) fields = true ->
  (forall w', calm o w o w' -> Forall (fun t => matches fields t = false) (rows (tenancies w)) -> Q None o w') ->
  (forall e o' w', calm o w o' w' -> Q (Some e) o' w') ->
  spec (TenancyManager.check_duplicate c fields code msg) Q o w.
Proof.
  intros Ht Hok Herr. unfold TenancyManager.check_duplicate, TenancyQueries.Exists, Crud.Exists. spec_go.
  destruct (AddFields_new fields) as [Hf Hp]. apply spec_exists_plain.
  - done.
  - by rewrite Hf.
  - intros e. spec_go. apply Herr, calm_query_tenancies.
  - intros t Hin Hm. spec_go. apply Herr. eapply calm_trans; [apply calm_query_tenancies|apply calm_code].
  - intros Hall. spec_go. rewrite Hf in Hall. by apply Hok; [apply calm_query_tenancies|].
Qed.

(** ** A new tenancy *)

Lemma spec_UpgradeTenancyDatabase c ms (Q : post (option error)) o w :
  (forall e w', calm o w o w' -> Q e o w') -> spec (TenancyBase.UpgradeTenancyDatabase c ms) Q o w.
Proof.
  intros HQ. unfold TenancyBase.UpgradeTenancyDatabase. spec_go.
  apply spec_request_on. intros [e|] w1 Hc1; spec_go; [by apply HQ|].
  apply spec_request_on. intros [e|] w2 Hc2; spec_go; [apply HQ; by eapply calm_trans|].
  apply spec_request_on. intros [e|] w3 Hc3; spec_go; apply HQ; eapply calm_trans; try done; by eapply calm_trans.
Qed.

Lemma spec_find_metas c (Q : post (list TenancyMeta * Z * option error)) o w :
  (forall ms n w', calm o w o w' -> (forall k, rows (metas_of k (databases w')) = rows (metas_of k (databases w))) ->
     ms ≡ₚ rows (metas_of (conn_database c) (databases w)) -> Q (ms, n, None) o w') ->
  (forall ms n e w', calm o w o w' -> Q (ms, n, Some e) o w') ->
  spec (TenancyManager.find_metas c) Q o w.
Proof.
  intros Hok Herr. unfold TenancyManager.find_metas. apply spec_on, wp_query_metas.
  - intros _. apply Herr, calm_databases, settled_refl.
  - intros d' _ Hn Hcs Hm. unfold read_query, query in *. cbn [fst snd] in *.
    set (t := metas_of (conn_database c) _) in *.
    assert (Hs : settled (databases w) d') by (by eapply (read_settled _ t)).
    destruct (eng_list _ _ _) as [[ms n] [e|]] eqn:E; [by apply Herr, calm_databases|].
    apply list_all_ok in E. apply Hok; [by apply calm_databases| |done].
    intros k. cbn [view databases_lens] in Hm. cbn [put databases_lens databases]. rewrite Hm. by case_decide; subst.
Qed.

Lemma spec_create_meta c m (Q : post (option error)) o w :
  rows (metas_of (conn_database c) (databases w)) = [] ->
  (forall w', calm o w o w' -> belongs_to (conn_database c) (GetID m) (databases w') -> Q None o w') ->
  (forall e w', calm o w o w' -> Q (Some e) o w') ->
  spec (TenancyManager.create_meta c m) Q o w.
Proof.
  intros Hempty Hok Herr. unfold TenancyManager.create_meta. apply spec_on, wp_query_metas.
  - intros _. apply Herr, calm_databases, settled_refl.
  - intros d' _ Hn Hcs Hm. unfold query in *. cbn [fst snd view databases_lens] in *. rewrite Hempty in *.
    destruct (eng_create _ m []) as [[e|] rs] eqn:E; cbn [fst snd] in *.
    + apply create_err in E. subst rs. apply Herr, calm_databases. split; [|done]. split; [lia|].
      assert (El : forall k, rows (metas_of k d') = rows (metas_of k (databases w))).
      { intros k. rewrite Hm. case_decide; [subst; by rewrite Hempty|done]. }
      split; [intros k x|intros Hk k]; by rewrite El.
    + apply create_ok in E as [-> _]. apply Hok.
      * apply calm_databases. split; [|done]. split; [lia|]. split.
        -- intros k x. rewrite Hm. case_decide; [|done]. subst k. rewrite Hempty. by intros ?%not_elem_of_nil.
        -- intros Hk k. rewrite Hm. case_decide; [cbn; lia|apply Hk].
      * exists m. split; [|done]. cbn [put databases_lens databases]. rewrite Hm, decide_True by done.
        apply list_elem_of_singleton. done.
Qed.

(** A database is claimed only when no tenancy or this one has claimed it. *)
Lemma spec_claim_database c t database (Q : post (option error)) o w :
  (forall w', calm o w o w' -> belongs_to (conn_database database) (GetID (tb_db t)) (databases w') -> Q None o w') ->
  (forall e o' w', calm o w o' w' -> Q (Some e) o' w') ->
  spec (TenancyManager.claim_database models c t database) Q o w.
Proof.
  intros Hok Herr. unfold TenancyManager.claim_database. spec_go.
  apply spec_UpgradeTenancyDatabase. intros [e|] w1 Hc1; spec_go.
  { apply Herr. eapply calm_trans; [exact Hc1|apply calm_code]. }
  apply spec_find_metas.
  - intros ms n w2 Hc2 Hsame Hms. assert (Hc : calm o w o w2) by (by eapply calm_trans). spec_go.
    destruct ms as [|m ms].
    + spec_go. apply spec_create_meta.
      * rewrite Hsame. by apply Permutation_nil.
      * intros w3 Hc3 Hb. spec_go. apply Hok; [by eapply calm_trans|exact Hb].
      * intros e w3 Hc3. spec_go. apply Herr. by eapply calm_trans.
    + case_decide as Hm; spec_go.
      * apply Herr. eapply calm_trans; [exact Hc|apply calm_code].
      * apply Hok; [done|]. exists m. split; [|done].
        rewrite Hsame, <- Hms. by left.
  - intros ms n e w2 Hc2. spec_go. apply Herr. by eapply calm_trans.
Qed.

(** The row of a tenancy created from [data] for [cust] in the pool [p]. *)
Definition created (data : TenancyData) (cust : Customer) (p : LoadedPool) (t : TenancyDb) : Prop :=
  GetID t <> "" /\ t_ACTIVE t = false /\ CustomerId t = GetID cust /\ PoolId t = GetID (lp_pool p) /\ Role t = td_ROLE data /\
  td_DESCRIPTION (t_data t) = td_DESCRIPTION data /\ (PATH data <> "" -> Path t = PATH data) /\
  DbName t = (if decide (DBNAME data = "") then ConcatStrings [DB_PREFIX; "_"; Customer.Login cust; "_"; td_ROLE data]
              else DBNAME data).

(** The customer and the pool the arguments of a new tenancy name. *)
Definition found_for (data : TenancyData) (cust : Customer) (p : LoadedPool) (w : TenancyWorld) : Prop :=
  cust ∈ rows (customers w) /\ (GetID cust = CUSTOMER_ID data \/ Customer.Login cust = CUSTOMER_ID data) /\
  (Pool (td_POOL_ID data) Pools = inl p \/ PoolByName (td_POOL_ID data) Pools = inl p) /\ p_ACTIVE (lp_pool p) = true.

Definition unique_role (customerId role : string) (t : TenancyDb) : Prop := CustomerId t = customerId -> Role t <> role.

Lemma matches_two (k1 k2 : string) v1 v2 (t : TenancyDb) :
  k1 <> k2 -> matches (<[k1 := VStr v1]> {[k2 := VStr v2]}) t = false ->
  column k1 t = Some (VStr v1) -> column k2 t <> Some (VStr v2).
Proof.
  intros Hk Hm E1 E2. apply not_true_iff_false in Hm. apply Hm, matches_spec. intros k v.
  rewrite lookup_insert_Some, lookup_singleton_Some. intros [[<- <-]|(_ & <- & <-)]; done.
Qed.

Lemma unique_role_of customerId role (t : TenancyDb) :
  matches (<["customer_id" := VStr customerId]> {["role" := VStr role]}) t = false -> unique_role customerId role t.
Proof.
  intros Hm E1 E2. destruct (tenancy_column_eqs t) as (Hp & Hr & Hc & Hi & _).
  eapply matches_two in Hm; [|done|]; [apply Hm|]; rewrite ?Hp, ?Hr, ?Hc, ?Hi; congruence.
Qed.

Lemma unique_path_of poolId path (t : TenancyDb) :
  matches (<["pool_id" := VStr poolId]> {["path" := VStr path]}) t = false -> PoolId t = poolId -> Path t <> path.
Proof.
  intros Hm E1 E2. destruct (tenancy_column_eqs t) as (Hp & Hr & Hc & Hi & _).
  eapply matches_two in Hm; [|done|]; [apply Hm|]; rewrite ?Hp, ?Hr, ?Hc, ?Hi; congruence.
Qed.

Lemma spec_CreateTenancy data (Q : post (option TenancyItem * option error)) o w :
  bounded (databases w) ->
  (forall i cust p database o' w', calm o w o' w' -> found_for data cust p w -> created data cust p (i_tenancy i) ->
     CustomerLogin i = Customer.Login cust -> i_PoolName i = p_NAME (lp_pool p) ->
     Forall (unique_role (CUSTOMER_ID data) (td_ROLE data)) (rows (tenancies w)) ->
     database_for p (DbName (i_tenancy i)) = Some database ->
     belongs_to database (GetID (i_tenancy i)) (databases w') -> Q (Some i, None) o' w') ->
  (forall e o' w', calm o w o' w' -> Q (None, Some e) o' w') ->
  spec (TenancyManager.CreateTenancy Pools DB_PREFIX models data) Q o w.
Proof.
  intros Hb Hok Herr. unfold TenancyManager.CreateTenancy. spec_go. apply spec_FindCustomer.
  2: { intros e o1 w1 Hc1. spec_go. by apply Herr. }
  intros cust o1 w1 Hc1 Hcust Hnamed. spec_go. apply spec_store_pool.
  2: { intros e o2 Hc2. spec_go. apply Herr. by eapply calm_trans. }
  intros p Hp. spec_go. destruct (p_ACTIVE (lp_pool p)) eqn:Ha; cbn [negb]; spec_go.
  2: { apply Herr. eapply calm_trans; [exact Hc1|apply calm_code]. }
  unfold TenancyManager.CheckDuplicateRole. apply spec_check_duplicate; [by apply typed_insert, typed_singleton| |].
  2: { intros e o2 w2 Hc2. spec_go. apply Herr. by eapply calm_trans. }
  intros w2 Hc2 Hrole. assert (Hc : calm o w o1 w2) by (by eapply calm_trans).
  spec_go. apply spec_on, wp_InitObject. intros b e1 Hid _. set (w3 := put e1 w2).
  assert (Hc3 : calm o w o1 w3) by (eapply calm_trans; [exact Hc|apply calm_env]).
  set (new := set_CUSTOMER_ID _ _).
  assert (Hpath : forall (Q' : post string),
    (forall path w4, calm o1 w3 o1 w4 -> (PATH data <> "" -> path = PATH data) -> Q' path o1 w4) ->
    spec (if decide (PATH new = "") then on (GenerateString []) else ret (PATH new)) Q' o1 w3).
  { intros Q' HQ'. case_decide as Hn; spec_go; [|by apply HQ'; [apply calm_refl|]].
    apply spec_on. unfold wp, GenerateString. cbn [fst snd]. apply HQ'; [apply calm_env|done]. }
  spec_go. apply Hpath. intros path w4 Hc4 Hpeq. set (new' := if decide _ then _ else _).
  assert (Hc5 : calm o w o1 w4) by (by eapply calm_trans).
  assert (Hnew : created data cust p (set_t_data new' (set_base b (tb_db NewTenancy)))).
  { unfold created, new', new. cbn -[ConcatStrings]. destruct (decide (DBNAME data = "")); repeat split; try done; apply Hpeq. }
  clearbody new'. unfold TenancyManager.CheckDuplicatePath. spec_go.
  apply spec_check_duplicate; [by apply typed_insert, typed_singleton| |].
  2: { intros e o2 w5 Hc6. spec_go. apply Herr. by eapply calm_trans. }
  intros w5 Hc6 _. assert (Hc7 : calm o w o1 w5) by (by eapply calm_trans). spec_go.
  apply spec_ConnectDatabase; [destruct Hc7 as [_ Hs]; by eapply bounded_settled| |].
  2: { intros e o2 w6 Hc8. spec_go. apply Herr. by eapply calm_trans. }
  intros database o2 w6 Hc8 Hdb. cbn [tb_Db set_tb_Db tb_db set_tb_db set_tb_Pool]. spec_go.
  assert (Hconn : connected database o w o2 w6) by (by eapply calm_connected).
  apply spec_claim_database.
  - intros w7 Hc9 Hbel. spec_go. apply spec_close. spec_go.
    refine (Hok {| i_tenancy := set_t_data new' (set_base b (tb_db NewTenancy)); CustomerLogin := Customer.Login cust;
                  i_PoolName := p_NAME (lp_pool p) |} cust p (conn_database database) o2
      (put (CloseDb database (databases w7)).2 w7) _ _ Hnew eq_refl eq_refl _ Hdb Hbel).
    + apply close_connected; [exact Hb|]. eapply connected_calm; [exact Hconn|exact Hc9].
    + split; [exact Hcust|]. split; [exact Hnamed|]. split; [exact Hp|exact Ha].
    + destruct Hc1 as [(_ & E1 & _) _]. rewrite E1 in Hrole. eapply Forall_impl; [exact Hrole|]. intros t Ht. exact (unique_role_of _ _ t Ht).
  - intros e o3 w7 Hc9. spec_go. apply spec_close. spec_go. apply Herr.
    apply close_connected; [done|]. by eapply connected_calm.
Qed.
End Manager.
