(* ===== verification/TenancyEffects.v ===== *)
(** * pkg/multitenancy: what the changes of tenancies do

    The effect of every operation of the controller: on success one row changes, one operation is
    logged and the pools concerned are notified; on failure nothing changes. *)
From S2P Require Import Prelude GoTime Utils Common Errors OpContext Db Crud PoolData Pool PoolStore Users Crypt Customer TenancyData Tenancy TenancyInv.
Open Scope go_scope.

(** ** The changes of the controller *)

Section Controller.
Context `{ET : !Engine TenancyDb, EC : !Engine Customer, EM : !Engine TenancyMeta, DS : !DbServers, TJ : !TenancyJoin, Un : !Uniuri}.
Context `{OT : !EngineOk TenancyDb, OC : !EngineOk Customer, OM : !EngineOk TenancyMeta, TO : !TenancyJoinOk}.
Context `{PP : !PoolPublishers}.
Variable Pools : PoolStoreBase.
Variable DB_PREFIX : string.
Variable models : TenancyDbModels.
Import TenancyController.
Local Abbreviation post A := (A -> Op OpLogTenancy -> TenancyWorld -> Prop).

(** The notification a pool is sent, if it has a publisher. *)
Definition notice (poolId id op : string) : list (string * string * PubsubNotification) :=
  if decide (poolId ∈ publishers)
  then [(poolId, PubsubTopicName, {| TenancyData.Tenancy := id; n_Operation := op |})] else [].

Lemma wp_PublishPools_one poolId topic msg (Q : option error -> list (string * string * PubsubNotification) -> Prop) sent :
  (forall e, Q e (sent ++ (if decide (poolId ∈ publishers) then [(poolId, topic, msg)] else []))) ->
  wp (PublishPools topic msg [poolId]) Q sent.
Proof.
  intros HQ. unfold PublishPools. cbn [List.filter]. case_decide as Hin.
  - rewrite bool_decide_eq_true_2 by done. cbn [publish_each]. apply wp_bind. unfold wp, Publish. cbn [fst snd].
    destruct (publish_answer _ _); apply HQ.
  - rewrite bool_decide_eq_false_2 by done. cbn. unfold wp; cbn. rewrite <- (app_nil_r sent) at 1. apply HQ.
Qed.

Lemma spec_PublishOp i op poolIds poolId (Q : post unit) o w :
  (match poolIds with [] => PoolId (i_tenancy i) = poolId | _ => poolIds = [poolId] end) ->
  Q tt o (put (published w ++ notice poolId (GetID (i_tenancy i)) op) w) -> spec (PublishOp i op poolIds) Q o w.
Proof.
  intros Hp HQ. unfold PublishOp. spec_go. apply spec_on. destruct poolIds as [|x poolIds].
  - subst. apply wp_PublishPools_one. intros e. by apply spec_ret.
  - injection Hp as -> ->. apply wp_PublishPools_one. intros e. by apply spec_ret.
Qed.

(** What a change leaves as it was, besides the rows of tenancies. *)
Definition elsewhere (w w' : TenancyWorld) : Prop :=
  rows (customers w') = rows (customers w) /\ joined_pools w' = joined_pools w /\ loaded w' = loaded w /\
  settled (databases w) (databases w').

(** One tenancy changes in the columns [f]; one operation is logged; [notices] are sent. *)
Definition effect (t : TenancyDb) (f : Fields) (op : string) (notices : list (string * string * PubsubNotification))
    o w o' w' : Prop :=
  Forall2 (fun r r' => if decide (GetID r = GetID t) then changed_columns f r r' else r' = r)
    (rows (tenancies w)) (rows (tenancies w')) /\
  (exists l : OpLogTenancy, oplogs o' = oplogs o ++ [new_oplog op l] /\ ot_TenancyId l = GetID t) /\
  published w' = published w ++ notices /\ elsewhere w w'.

Lemma effect_after_calm t f op ns o1 w1 o2 w2 o3 w3 :
  calm o1 w1 o2 w2 -> effect t f op ns o2 w2 o3 w3 -> effect t f op ns o1 w1 o3 w3.
Proof.
  intros [(E1 & E2 & E3 & E4 & E5 & E6) Hs] (H1 & H2 & H3 & H4 & H5 & H6 & H7).
  unfold effect, elsewhere. rewrite <- E1, <- E2, <- E6.
  refine (conj H1 (conj H2 (conj H3 _))). rewrite H4, H5, H6.
  refine (conj E3 (conj E4 (conj E5 _))). by eapply settled_trans.
Qed.

(** [change] of a tenancy whose row is [t]; the object may already hold values of [f]. *)
Lemma spec_tenancy_change c i f op oplog publish notices (Q : post (option error)) o w :
  typed (R := TenancyDb) f = true -> f !! "id" = None ->
  (forall i', ot_TenancyId (oplog i') = GetID (i_tenancy i')) ->
  (forall i' (Q' : post unit) o' w', GetID (i_tenancy i') = GetID (i_tenancy i) ->
     updated_object f (i_tenancy i) (i_tenancy i') ->
     Q' tt o' (put (published w' ++ notices) w') -> spec (publish i') Q' o' w') ->
  (forall o' w', effect (i_tenancy i) f op notices o w o' w' -> Q None o' w') ->
  (forall e w', calm o w o w' -> Q (Some e) o w') ->
  spec (change c i f op oplog publish) Q o w.
Proof.
  intros Ht Hid Hlog Hpub Hok Herr. unfold change, OpLog. spec_go. apply spec_DbUpdate_object.
  intros e db env' rs' Hpost Hobj _. destruct e as [e|]; spec_go.
  - apply Herr. cbn in Hpost. subst rs'. eapply calm_trans; [apply calm_env|].
    apply calm_tenancies. done.
  - pose proof (updated_object_id f _ _ Hobj Hid) as Hdb. apply Hpub; [done|done|]. spec_go. apply Hok.
    destruct Hpost as [[now Hrows] _]. split; [|split; [|split]].
    + cbn [put published_lens tenancies_lens tenancies rows queried view]. rewrite Hrows by done.
      by apply updated_rows_changed.
    + eexists. split; [reflexivity|]. by rewrite Hlog.
    + done.
    + repeat split; try done.
Qed.

Lemma spec_on_tenancy name id idIsDisplay body (Q : post (option error)) o w :
  (forall c i o' w', calm o w o' w' -> i ∈ items_of w -> names_tenancy id idIsDisplay i -> spec (body c i) Q o' w') ->
  (forall e o' w', calm o w o' w' -> Q (Some e) o' w') ->
  spec (on_tenancy name id idIsDisplay body) Q o w.
Proof.
  intros Hbody Herr. unfold on_tenancy. spec_go. apply spec_Find.
  - intros i o1 w1 Hc Hi Hn. by apply Hbody.
  - intros e o1 w1 Hc. spec_go. by apply Herr.
Qed.

(** What a change of [f] to the tenancy an argument names makes of the world: the tenancy meets
    [cond]; when it fails nothing changes. *)
Definition change_post (id : string) (idIsDisplay : list bool) (f : Fields) (op : string) (cond : TenancyDb -> Prop)
    (r : option error) o w o' w' : Prop :=
  match r with
  | Some _ => calm o w o' w'
  | None => exists i, i ∈ items_of w /\ names_tenancy id idIsDisplay i /\ cond (i_tenancy i) /\
      effect (i_tenancy i) f op (notice (PoolId (i_tenancy i)) (GetID (i_tenancy i)) op) o w o' w'
  end.

(** The end of a change that keeps the pool. *)
Lemma spec_change_post c i id idIsDisplay f op oplog cond o w o1 w1 :
  typed (R := TenancyDb) f = true -> f !! "id" = None -> f !! "pool_id" = None ->
  (forall i', ot_TenancyId (oplog i') = GetID (i_tenancy i')) ->
  calm o w o1 w1 -> i ∈ items_of w -> names_tenancy id idIsDisplay i -> cond (i_tenancy i) ->
  spec (change c i f op oplog (fun t => PublishOp t op []))
    (fun r o' w' => change_post id idIsDisplay f op cond r o w o' w') o1 w1.
Proof.
  intros Ht Hid Hpool Hlog Hc Hi Hn Hcond.
  apply (spec_tenancy_change _ _ _ _ _ _ (notice (PoolId (i_tenancy i)) (GetID (i_tenancy i)) op)); [done..| | |].
  - intros i' Q' o' w' Eid Hobj HQ'. rewrite <- Eid in HQ'. eapply spec_PublishOp; [|exact HQ'].
    destruct (Hobj "pool_id" ltac:(done)) as [E|(v & E & _)]; [|congruence].
    destruct (tenancy_column_eqs (i_tenancy i)) as (_ & _ & _ & E1 & _).
    destruct (tenancy_column_eqs (i_tenancy i')) as (_ & _ & _ & E2 & _). congruence.
  - intros o' w' He. exists i. do 3 (split; [done|]). by eapply effect_after_calm.
  - intros e w' Hc'. cbn. by eapply calm_trans.
Qed.

Lemma spec_run {A} (m : M (St OpLogTenancy TenancyWorld) A) (R : A -> Op OpLogTenancy -> TenancyWorld -> Prop) s :
  spec m R (st_op s) (st_ext s) -> R (m s).1 (st_op (m s).2) (st_ext (m s).2).
Proof. destruct s as [t o w]. intros H. exact (H t). Qed.

(** No other tenancy of the pool has the path. *)
Definition free_path (poolId path : string) (w : TenancyWorld) : Prop :=
  Forall (fun t => PoolId t = poolId -> Path t <> path) (rows (tenancies w)).
Definition free_role (customerId role : string) (w : TenancyWorld) : Prop :=
  Forall (unique_role customerId role) (rows (tenancies w)).

Lemma spec_CheckDuplicatePath c poolId path (Q : post (option error)) o w :
  (forall w', calm o w o w' -> free_path poolId path w -> Q None o w') ->
  (forall e o' w', calm o w o' w' -> Q (Some e) o' w') ->
  spec (TenancyManager.CheckDuplicatePath c poolId path) Q o w.
Proof.
  intros Hok Herr. apply spec_check_duplicate; [by apply typed_insert, typed_singleton| |exact Herr].
  intros w' Hc Hall. apply Hok; [done|]. eapply Forall_impl; [exact Hall|].
  intros t Ht. exact (unique_path_of _ _ t Ht).
Qed.
Lemma spec_CheckDuplicateRole c customerId role (Q : post (option error)) o w :
  (forall w', calm o w o w' -> free_role customerId role w -> Q None o w') ->
  (forall e o' w', calm o w o' w' -> Q (Some e) o' w') ->
  spec (TenancyManager.CheckDuplicateRole c customerId role) Q o w.
Proof.
  intros Hok Herr. apply spec_check_duplicate; [by apply typed_insert, typed_singleton| |exact Herr].
  intros w' Hc Hall. apply Hok; [done|]. eapply Forall_impl; [exact Hall|].
  intros t Ht. exact (unique_role_of _ _ t Ht).
Qed.

Lemma free_path_calm poolId path o w o' w' : calm o w o' w' -> free_path poolId path w' -> free_path poolId path w.
Proof. intros [(_ & E & _) _]. unfold free_path. by rewrite E. Qed.
Lemma free_role_calm customerId role o w o' w' : calm o w o' w' -> free_role customerId role w' -> free_role customerId role w.
Proof. intros [(_ & E & _) _]. unfold free_role. by rewrite E. Qed.

Lemma SetPath_spec id path d o w :
  spec (SetPath id path d) (fun r o' w' => change_post id d {["path" := VStr path]} OpSetPath
    (fun t => free_path (PoolId t) path w) r o w o' w') o w.
Proof.
  apply spec_on_tenancy; [|done]. intros c i o1 w1 Hc Hi Hn. apply spec_bind, spec_CheckDuplicatePath.
  - intros w2 Hc2 Hf. apply (free_path_calm _ _ _ _ _ _ Hc) in Hf.
    apply spec_change_post; try done. by eapply calm_trans.
  - intros e o2 w2 Hc2. apply spec_ret. by eapply calm_trans.
Qed.

Lemma SetRole_spec id role d o w :
  spec (SetRole id role d) (fun r o' w' => change_post id d {["role" := VStr role]} OpSetRole
    (fun t => free_role (CustomerId t) role w) r o w o' w') o w.
Proof.
  apply spec_on_tenancy; [|done]. intros c i o1 w1 Hc Hi Hn. apply spec_bind, spec_CheckDuplicateRole.
  - intros w2 Hc2 Hf. apply (free_role_calm _ _ _ _ _ _ Hc) in Hf.
    apply spec_change_post; try done. by eapply calm_trans.
  - intros e o2 w2 Hc2. apply spec_ret. by eapply calm_trans.
Qed.

(** [Activate] and [Deactivate]. *)
Lemma set_active_spec name id b op d o w :
  spec (on_tenancy name id d (fun c tenancy => change c tenancy {["active" := VBool b]} op
          (fun t => log_of t (CustomerDisplay t)) (fun t => PublishOp t op [])))
    (fun r o' w' => change_post id d {["active" := VBool b]} op (fun _ => True) r o w o' w') o w.
Proof.
  apply spec_on_tenancy; [|done]. intros c i o1 w1 Hc Hi Hn.
  by apply spec_change_post.
Qed.

(** The customer an argument names. *)
Definition names_customer (id : string) (cust : Customer) : Prop := GetID cust = id \/ Customer.Login cust = id.

Definition customer_post (id customer : string) (d : list bool) (r : option error) o w o' w' : Prop :=
  match r with
  | Some _ => calm o w o' w'
  | None => exists cust, cust ∈ rows (customers w) /\ names_customer customer cust /\
      change_post id d {["customer_id" := VStr (GetID cust)]} OpSetCustomer
        (fun t => free_role (GetID cust) (Role t) w) None o w o' w'
  end.

Lemma SetCustomer_spec id customer d o w :
  spec (SetCustomer id customer d) (fun r o' w' => customer_post id customer d r o w o' w') o w.
Proof.
  apply spec_on_tenancy; [|done]. intros c i o1 w1 Hc Hi Hn. apply spec_bind, spec_FindCustomer.
  2: { intros e o2 w2 Hc2. spec_go. by eapply calm_trans. }
  intros cust o2 w2 Hc2 Hin Hnamed. assert (Hc' : calm o w o2 w2) by (by eapply calm_trans).
  spec_go. apply spec_CheckDuplicateRole.
  2: { intros e o3 w3 Hc3. spec_go. by eapply calm_trans. }
  intros w3 Hc3 Hf. apply (free_role_calm _ _ _ _ _ _ Hc') in Hf.
  pose proof (spec_change_post c i id d {["customer_id" := VStr (GetID cust)]} OpSetCustomer
    (fun t => log_of t (Display cust)) (fun t => free_role (GetID cust) (Role t) w) o w o2 w3
    ltac:(by apply typed_singleton) eq_refl eq_refl (fun _ => eq_refl) (calm_trans _ _ _ _ _ _ Hc' Hc3) Hi Hn Hf) as Hend.
  eapply spec_mono; [|exact Hend]. intros [e|] o' w' Hpost; [exact Hpost|]. exists cust. split; [|by split].
  destruct Hc as [(_ & _ & E & _) _]. by rewrite <- E.
Qed.

(** Changes of tenancies.  A successful change of the path, the role, the customer or the
    active flag changes that column of the tenancy the argument names and nothing else, logs one
    operation for that tenancy, and notifies the pool of the tenancy once; a path is free in the
    pool, and a role free for the customer, before it is given.  A failed change leaves the rows,
    the logs, the notifications and the open connections as they were. *)
Theorem tenancy_changes id d (s : St OpLogTenancy TenancyWorld) :
  let post f op cond (r : option error * St OpLogTenancy TenancyWorld) :=
    change_post id d f op cond r.1 (st_op s) (st_ext s) (st_op r.2) (st_ext r.2) in
  (forall path, post {["path" := VStr path]} OpSetPath (fun t => free_path (PoolId t) path (st_ext s)) (SetPath id path d s)) /\
  (forall role, post {["role" := VStr role]} OpSetRole (fun t => free_role (CustomerId t) role (st_ext s)) (SetRole id role d s)) /\
  (forall customer, let r := SetCustomer id customer d s in
     customer_post id customer d r.1 (st_op s) (st_ext s) (st_op r.2) (st_ext r.2)) /\
  post {["active" := VBool true]} OpActivate (fun _ => True) (Activate id d s) /\
  post {["active" := VBool false]} OpDeactivate (fun _ => True) (Deactivate id d s).
Proof.
  cbn zeta. split_and!.
  - intros path. apply (spec_run _ _ s (SetPath_spec _ _ _ _ _)).
  - intros role. apply (spec_run _ _ s (SetRole_spec _ _ _ _ _)).
  - intros customer. apply (spec_run _ _ s (SetCustomer_spec _ _ _ _ _)).
  - apply (spec_run _ _ s (set_active_spec _ _ _ _ _ _ _)).
  - apply (spec_run _ _ s (set_active_spec _ _ _ _ _ _ _)).
Qed.

(** What [Add] makes of the world. *)
Definition add_post (data : TenancyData) (r : option TenancyItem * option error) o w o' w' : Prop :=
  match r with
  | (Some i, None) =>
      let t := i_tenancy i in
      exists cust p database,
        found_for Pools data cust p w /\ created DB_PREFIX data cust p t /\
        free_role (CUSTOMER_ID data) (td_ROLE data) w /\
        database_for p (DbName t) = Some database /\ belongs_to database (GetID t) (databases w') /\
        rows (tenancies w') = rows (tenancies w) ++ [t] /\
        (table_ok (rows (tenancies w)) -> table_ok (rows (tenancies w'))) /\
        (exists l : OpLogTenancy, oplogs o' = oplogs o ++ [new_oplog OpAdd l] /\ ot_TenancyId l = GetID t) /\
        published w' = published w ++ notice (PoolId t) (GetID t) OpAdd /\ elsewhere w w'
  | (None, Some _) => calm o w o' w'
  | _ => False
  end.

Lemma Add_spec data o w :
  bounded (databases w) ->
  spec (Add Pools DB_PREFIX models data) (fun r o' w' => add_post data r o w o' w') o w.
Proof.
  intros Hb. unfold Add, OpLog. spec_go. apply spec_CreateTenancy; [done| |].
  2: { intros e o1 w1 Hc. spec_go. done. }
  intros i cust p database o1 w1 Hc Hfound Hcreated _ _ Hrole Hdb Hbel. spec_go.
  apply spec_DbCreate. intros [e|] rs' Hpost; spec_go; cbn in Hpost.
  - subst rs'. cbn. eapply calm_trans; [exact Hc|]. by apply calm_tenancies.
  - destruct Hpost as [-> Hok]. eapply spec_PublishOp; [reflexivity|]. spec_go.
    destruct Hc as [(E1 & E2 & E3 & E4 & E5 & E6) Hs]. cbn [add_post].
    exists cust, p, database. cbn [view tenancies_lens] in *. rewrite E2 in Hok |- *.
    refine (conj Hfound (conj Hcreated (conj Hrole (conj Hdb (conj Hbel (conj eq_refl (conj Hok _))))))).
    split; [eexists; split; [cbn; by rewrite E1|done]|]. split; [cbn; by rewrite E6|].
    by refine (conj E3 (conj E4 (conj E5 _))).
Qed.

(** [C14] A new tenancy.  [Add] succeeds only for a customer and an active pool that exist; it then
    adds one row, inactive, with a fresh ID, the customer's and the pool's IDs, the role and a
    database name, and the database of that name on the pool's server carries the ID of this
    tenancy and of no other; one operation is logged and the pool is notified.  When it fails the
    rows, logs and notifications are as they were; a database that was created for the tenancy, or was
    there without an owner, may stay, claimed by the identifier of a tenancy that is not there.  Either
    way no connection stays open. *)
Theorem Add_tenancy data (s : St OpLogTenancy TenancyWorld) :
  bounded (databases (st_ext s)) ->
  let r := Add Pools DB_PREFIX models data s in
  add_post data r.1 (st_op s) (st_ext s) (st_op r.2) (st_ext r.2) /\
  connections (databases (st_ext r.2)) = connections (databases (st_ext s)).
Proof.
  intros Hb. pose proof (spec_run _ _ s (Add_spec data _ _ Hb)) as H. split; [exact H|].
  destruct (Add _ _ _ _ s) as [[[i|] [e|]] s']; cbn [fst snd add_post] in H; try done.
  - by destruct H as (? & ? & ? & _ & _ & _ & _ & _ & _ & _ & _ & _ & _ & _ & _ & _ & ?).
  - by destruct H as [_ [_ ?]].
Qed.

(** What [Delete] makes of the world. *)
Definition delete_post (id : string) (d : list bool) (r : option error) o w o' w' : Prop :=
  match r with
  | Some _ => calm o w o' w'
  | None => exists i, i ∈ items_of w /\ names_tenancy id d i /\
      (GetID (i_tenancy i) <> "" -> rows (tenancies w') = rows_without (GetID (i_tenancy i)) (rows (tenancies w))) /\
      (exists l : OpLogTenancy, oplogs o' = oplogs o ++ [new_oplog OpDelete l] /\ ot_TenancyId l = GetID (i_tenancy i)) /\
      published w' = published w ++ notice (PoolId (i_tenancy i)) (GetID (i_tenancy i)) OpDelete /\ elsewhere w w'
  end.

Lemma Delete_spec id withDb d o w :
  spec (Delete id withDb d) (fun r o' w' => delete_post id d r o w o' w' /\ (withDb = true -> r <> None)) o w.
Proof.
  unfold Delete, OpLog. destruct withDb.
  - spec_go. apply spec_SetGenericError_calm. intros o' Hc. by spec_go.
  - apply spec_on_tenancy; [|by intros]. intros c i o1 w1 Hc Hi Hn. spec_go. apply spec_DbDelete.
    intros [e|] rs' Hpost; spec_go; cbn in Hpost.
    + subst rs'. split; [|done]. eapply calm_trans; [exact Hc|]. by apply calm_tenancies.
    + eapply spec_PublishOp; [reflexivity|]. spec_go. split; [|done].
      destruct Hc as [(E1 & E2 & E3 & E4 & E5 & E6) Hs]. cbn [view tenancies_lens] in *. exists i.
      refine (conj Hi (conj Hn (conj _ _))); [intros Hid; cbn; rewrite <- E2; by apply Hpost|].
      split; [eexists; split; [cbn; by rewrite E1|done]|]. split; [cbn; by rewrite E6|].
      by refine (conj E3 (conj E4 (conj E5 _))).
Qed.

(** The former pool is told of a deletion, the new one of the change. *)
Definition move_notices (t : TenancyDb) (old pId newPool : string) : list (string * string * PubsubNotification) :=
  (if decide (old <> pId) then notice old (GetID t) OpDelete else []) ++ notice newPool (GetID t) OpChangePoolOrDb.

(** What [ChangePoolOrDb] makes of the world: an empty argument stands for the present value. *)
Definition move_post (id poolId dbName : string) (d : list bool) (r : option error) o w o' w' : Prop :=
  match r with
  | Some _ => calm o w o' w'
  | None => exists i p database,
      let t := i_tenancy i in
      let pId := if decide (poolId = "") then PoolId t else poolId in
      let dbN := if decide (dbName = "") then DbName t else dbName in
      i ∈ items_of w /\ names_tenancy id d i /\
      (Pool pId Pools = inl p \/ PoolByName pId Pools = inl p) /\
      (GetID (lp_pool p) <> PoolId t -> free_path (GetID (lp_pool p)) (Path t) w) /\
      (exists q, Pool (GetID (lp_pool p)) Pools = inl q /\ p_ACTIVE (lp_pool q) = true /\
         database_for q dbN = Some database) /\
      belongs_to database (GetID t) (databases w') /\
      effect t (<["pool_id" := VStr (GetID (lp_pool p))]> {["dbname" := VStr dbN]}) OpChangePoolOrDb
        (move_notices t (PoolId t) pId (GetID (lp_pool p))) o w o' w'
  end.

Lemma spec_close_tenancy t (Q : post unit) o w :
  (match tb_Db t with Some c => Q tt o (put (CloseDb c (databases w)).2 w) | None => Q tt o w end) ->
  spec (TenancyManager.close_tenancy t) Q o w.
Proof. intros HQ. unfold TenancyManager.close_tenancy. destruct (tb_Db t); [by apply spec_close|by apply spec_ret]. Qed.

Lemma finish_move_failed c i p old pId dbN skip e (Q : post (option error)) o w :
  skip = true \/ e <> None -> (forall e o' w', calm o w o' w' -> Q (Some e) o' w') ->
  spec (finish_move c i p old pId dbN skip e) Q o w.
Proof.
  intros Hor HQ. unfold finish_move. destruct e as [e|]; spec_go; [by apply HQ; auto with go|].
  destruct Hor as [->|]; [|done]. spec_go. apply HQ, calm_code.
Qed.

Lemma finish_move_ok c i p old pId dbN (Q : post (option error)) o w :
  PoolId (i_tenancy i) = GetID (lp_pool p) ->
  (forall o' w', effect (i_tenancy i) (<["pool_id" := VStr (GetID (lp_pool p))]> {["dbname" := VStr dbN]})
     OpChangePoolOrDb (move_notices (i_tenancy i) old pId (GetID (lp_pool p))) o w o' w' -> Q None o' w') ->
  (forall e w', calm o w o w' -> Q (Some e) o w') ->
  spec (finish_move c i p old pId dbN false None) Q o w.
Proof.
  intros Hpool Hok Herr. unfold finish_move.
  apply (spec_tenancy_change _ _ _ _ _ _ (move_notices (i_tenancy i) old pId (GetID (lp_pool p)))); try done.
  intros i' Q' o' w' Eid Hobj HQ'.
  assert (Epool : PoolId (i_tenancy i') = GetID (lp_pool p)).
  { destruct (tenancy_column_eqs (i_tenancy i')) as (_ & _ & _ & E & _).
    destruct (tenancy_column_eqs (i_tenancy i)) as (_ & _ & _ & E0 & _).
    destruct (Hobj "pool_id" ltac:(done)) as [E'|(v & Ev & E')]; rewrite E in E'.
    - rewrite E0, Hpool in E'. by injection E'.
    - rewrite lookup_insert_eq in Ev. injection Ev as <-. by injection E'. }
  unfold move_notices in HQ'. rewrite <- Eid in HQ'. spec_go. case_decide as Hd.
  - eapply spec_PublishOp; [reflexivity|]. eapply spec_PublishOp; [exact Epool|]. by rewrite app_assoc in HQ'.
  - apply spec_ret. eapply spec_PublishOp; [exact Epool|]. exact HQ'.
Qed.

(** The check of a path that only a move to another pool needs. *)
Lemma spec_moved_path c (moved : Prop) `{!Decision moved} poolId path (Q : post (option error)) o w :
  (forall w', calm o w o w' -> (moved -> free_path poolId path w) -> Q None o w') ->
  (forall e o' w', calm o w o' w' -> Q (Some e) o' w') ->
  spec (if decide moved then TenancyManager.CheckDuplicatePath c poolId path else ret None) Q o w.
Proof.
  intros Hok Herr. case_decide; [|by apply spec_ret, Hok; auto with go].
  apply spec_CheckDuplicatePath; [|done]. intros w' Hc Hf. by apply Hok.
Qed.

Lemma ChangePoolOrDb_spec id poolId dbName d o w :
  bounded (databases w) ->
  spec (ChangePoolOrDb Pools id poolId dbName d) (fun r o' w' => move_post id poolId dbName d r o w o' w') o w.
Proof.
  intros Hb. apply spec_on_tenancy; [|done]. intros c i o1 w1 Hc Hi Hn. cbn zeta.
  set (t := i_tenancy i). set (pId := if decide (poolId = "") then _ else _).
  set (dbN := if decide (dbName = "") then _ else _). spec_go. apply spec_store_pool.
  2: { intros e o2 Hc2. spec_go. by eapply calm_trans. }
  intros p Hp. spec_go. apply spec_moved_path.
  2: { intros e o2 w2 Hc2. spec_go. by eapply calm_trans. }
  intros w2 Hc2 Hfree. set (data := set_t_data _ t).
  assert (Hc3 : calm o w o1 w2) by (by eapply calm_trans). spec_go. apply spec_Init.
  { destruct Hc3 as [_ Hs]. by eapply bounded_settled. }
  - intros t' database o3 w3 Hconn (_ & Edb & Hbel & _ & q & _ & Hq & Ha & Hdb). spec_go.
    apply spec_close_tenancy. rewrite Edb.
    assert (Hc4 : calm o w o3 (put (CloseDb database (databases w3)).2 w3)).
    { apply close_connected; [done|]. by eapply calm_connected. }
    apply finish_move_ok; [done| |].
    + intros o' w' He. exists i, p, (conn_database database). cbn zeta. fold t pId dbN.
      refine (conj Hi (conj Hn (conj Hp (conj _ (conj _ (conj _ _)))))).
      * intros Hm. by apply (free_path_calm _ _ _ _ _ _ Hc), Hfree.
      * by exists q.
      * destruct He as (_ & _ & _ & _ & _ & _ & [Hg _]). eapply belongs_grows; [exact Hg|exact Hbel].
      * eapply effect_after_calm; [exact Hc4|exact He].
    + intros e w' Hc5. cbn. by eapply calm_trans.
  - intros t' skip e o3 w3 Hc4 Hor Hclosed. spec_go. apply spec_close_tenancy.
    assert (Hc5 : forall o4 w4, calm o3 w3 o4 w4 -> calm o w o4 w4).
    { intros o4 w4 Hc5. eapply calm_trans; [exact Hc3|]. by eapply calm_trans. }
    destruct (tb_Db t') as [database|] eqn:Edb; apply finish_move_failed; try exact Hor.
    + intros e' o4 w4 Hc6. cbn. apply Hc5. eapply calm_trans; [|exact Hc6]. apply close_again; [apply calm_refl|].
      destruct Hc4 as [_ [_ ->]]. by apply Hclosed.
    + intros e' o4 w4 Hc6. cbn. by apply Hc5.
Qed.

(** [C15] Moving a tenancy.  [ChangePoolOrDb] succeeds only when the pool exists, the path is free
    there, and the database of that name in the pool carries the ID of this tenancy; then the
    pool and the database name of this tenancy change and nothing else, one operation is logged,
    and the new pool is notified, the former one of a deletion.  When it fails nothing changes.
    Either way no connection stays open. *)
Theorem ChangePoolOrDb_effect id poolId dbName d (s : St OpLogTenancy TenancyWorld) :
  bounded (databases (st_ext s)) ->
  let r := ChangePoolOrDb Pools id poolId dbName d s in
  move_post id poolId dbName d r.1 (st_op s) (st_ext s) (st_op r.2) (st_ext r.2) /\
  connections (databases (st_ext r.2)) = connections (databases (st_ext s)).
Proof.
  intros Hb. pose proof (spec_run _ _ s (ChangePoolOrDb_spec id poolId dbName d _ _ Hb)) as H. split; [exact H|].
  destruct (ChangePoolOrDb _ _ _ _ _ s) as [[e|] s']; cbn [fst snd move_post] in H.
  - by destruct H as [_ [_ ?]].
  - by destruct H as (? & ? & ? & _ & _ & _ & _ & _ & _ & _ & _ & _ & _ & _ & _ & _ & ?).
Qed.

(** Deleting a tenancy removes the row of the tenancy the argument names and no other, logs the
    deletion and notifies its pool; its database is never dropped: the call that asks for it
    fails.  A failed call changes nothing. *)
Theorem Delete_effect id withDb d (s : St OpLogTenancy TenancyWorld) :
  let r := Delete id withDb d s in
  delete_post id d r.1 (st_op s) (st_ext s) (st_op r.2) (st_ext r.2) /\ (withDb = true -> r.1 <> None).
Proof. exact (spec_run _ _ s (Delete_spec id withDb d _ _)). Qed.
End Controller.
