(* ===== verification/TenancyReach.v ===== *)
(** * pkg/multitenancy: the loaded tenancies in every reachable state

    The manager of an application serves requests and notifications in any order, while other
    applications change the rows of the main database and claim databases of their own.  In
    every state they reach, each loaded tenancy has an open connection to a database that
    carries its ID, no two tenancies share a database, no connection leaks, and a path leads
    only to a loaded tenancy. *)
From S2P Require Import Prelude GoTime Utils Common Errors OpContext Db Crud PoolData Pool PoolStore Users Crypt Customer TenancyData Tenancy TenancyInv TenancyEffects.
Open Scope go_scope.

(** ** The invariant *)

Record manager_ok (w : TenancyWorld) : Prop := {
  mo_bounded : bounded (databases w);
  mo_metas : metas_ok (databases w);
  mo_path p t : tenanciesByPath (loaded w) !! p = Some t ->
    Path (tb_db t) = p /\ tenanciesById (loaded w) !! GetID (tb_db t) = Some t;
  mo_id id t : tenanciesById (loaded w) !! id = Some t ->
    GetID (tb_db t) = id /\ exists c, tb_Db t = Some c /\ conn_id c ∈ connections (databases w) /\
      belongs_to (conn_database c) id (databases w);
  mo_open n : n ∈ connections (databases w) ->
    exists id t c, tenanciesById (loaded w) !! id = Some t /\ tb_Db t = Some c /\ conn_id c = n;
  mo_inj id1 t1 c1 id2 t2 c2 :
    tenanciesById (loaded w) !! id1 = Some t1 -> tb_Db t1 = Some c1 ->
    tenanciesById (loaded w) !! id2 = Some t2 -> tb_Db t2 = Some c2 -> conn_id c1 = conn_id c2 -> id1 = id2
}.

Lemma manager_ok_settled w w' :
  loaded w' = loaded w -> settled (databases w) (databases w') -> manager_ok w -> manager_ok w'.
Proof.
  intros El Hs [Hb Hm Hp Hi Ho Hj]. pose proof Hs as [Hg Hc]. split; rewrite ?El, ?Hc; try done.
  - by eapply bounded_settled.
  - by apply Hg.
  - intros id t E. destruct (Hi id t E) as (E1 & c & E2 & E3 & E4). split; [done|].
    exists c. do 2 (split; [done|]). by eapply belongs_grows.
Qed.

Lemma manager_ok_calm o w o' w' : calm o w o' w' -> manager_ok w -> manager_ok w'.
Proof. intros [(_ & _ & _ & _ & El & _) Hs]. by apply manager_ok_settled. Qed.

(** A tenancy that was not loaded is loaded. *)
Lemma manager_ok_keep Pools data t c o w o1 w1 `{!DbServers} :
  connected c o w o1 w1 -> prepared Pools data t c w1 -> tenanciesById (loaded w) !! GetID data = None ->
  manager_ok w -> manager_ok (put (TenancyManager.keep t (loaded w1)) w1).
Proof.
  intros [(_ & _ & _ & _ & El & _) Hop] (Edata & Edb & Hbel & _) Hnone [Hb Hm Hp Hi Ho Hj].
  pose proof (opened_fresh _ _ _ Hb Hop) as Hfresh. pose proof Hop as (Hg & Hc & _).
  assert (Hold : forall id x, tenanciesById (loaded w) !! id = Some x -> id <> GetID data) by (intros id x E ->; congruence).
  split; cbn [put loaded_lens loaded databases TenancyManager.keep tenanciesById tenanciesByPath]; rewrite ?El, ?Edata.
  - by eapply bounded_opened.
  - by apply Hg.
  - intros p x. rewrite lookup_insert_Some. intros [[<- <-]|[Hne E]].
    + split; [by rewrite Edata|]. by rewrite Edata, lookup_insert_eq.
    + destruct (Hp p x E) as [E1 E2]. split; [done|]. rewrite lookup_insert_ne; [done|]. intros E3.
      by apply (Hold _ _ E2).
  - intros id x. rewrite lookup_insert_Some. intros [[<- <-]|[Hne E]].
    + split; [by rewrite Edata|]. exists c. split; [done|]. split; [|done]. rewrite Hc.
      apply elem_of_app. right. by left.
    + destruct (Hi id x E) as (E1 & c' & E2 & E3 & E4). split; [done|]. exists c'. split; [done|]. split.
      * rewrite Hc. apply elem_of_app. by left.
      * by eapply belongs_grows.
  - intros n. rewrite Hc, elem_of_app, list_elem_of_singleton. intros [Hin| ->].
    + destruct (Ho n Hin) as (id & x & c' & E & E1 & E2). exists id, x, c'. split; [|done].
      rewrite lookup_insert_ne; [done|]. intros E3. by apply (Hold _ _ E).
    + exists (GetID data), t, c. by rewrite lookup_insert_eq.
  - intros id1 t1 c1 id2 t2 c2. rewrite !lookup_insert_Some.
    assert (Hnew : forall id x c', tenanciesById (loaded w) !! id = Some x -> tb_Db x = Some c' -> conn_id c' <> conn_id c).
    { intros id x c' E Ex Ec. destruct (Hi id x E) as (_ & c'' & E2 & E3 & _). congruence. }
    intros [[<- <-]|[_ E1]] Ec1 [[<- <-]|[_ E2]] Ec2 Heq; [done| | |by eapply Hj].
    + exfalso. rewrite Edb in Ec1. injection Ec1 as <-. by eapply (Hnew id2).
    + exfalso. rewrite Edb in Ec2. injection Ec2 as <-. by eapply (Hnew id1).
Qed.

Definition close_loaded (id : string) (t : TenancyBase) (c : DbConn) (w : TenancyWorld) : TenancyWorld :=
  put {| tenanciesById := delete id (tenanciesById (loaded w));
         tenanciesByPath := delete (Path (tb_db t)) (tenanciesByPath (loaded w)) |}
    (put (CloseDb c (databases w)).2 w).

(** A tenancy is unloaded: its connection is closed and no path leads to it. *)
Lemma manager_ok_close_loaded id t c w :
  tenanciesById (loaded w) !! id = Some t -> tb_Db t = Some c -> manager_ok w -> manager_ok (close_loaded id t c w).
Proof.
  intros Et Ec [Hb Hm Hp Hi Ho Hj].
  assert (Hconn : forall n, n ∈ connections (CloseDb c (databases w)).2 <-> n ∈ connections (databases w) /\ n <> conn_id c).
  { intros n. cbn. rewrite list_elem_of_In, filter_In, <- list_elem_of_In. by rewrite negb_true_iff, bool_decide_eq_false. }
  unfold close_loaded. split; cbn [put loaded_lens databases_lens loaded databases tenanciesById tenanciesByPath].
  - unfold bounded. apply Forall_forall. intros n [Hin _]%Hconn. unfold bounded in Hb. rewrite Forall_forall in Hb.
    by apply Hb.
  - exact Hm.
  - intros p x. rewrite lookup_delete_Some. intros [Hne E]. destruct (Hp p x E) as [E1 E2]. split; [done|].
    rewrite lookup_delete_ne; [done|]. intros E3. apply Hne. rewrite <- E3, Et in E2. congruence.
  - intros id' x. rewrite lookup_delete_Some. intros [Hne E]. destruct (Hi id' x E) as (E1 & c' & E2 & E3 & E4).
    split; [done|]. exists c'. split; [done|]. split; [|done]. apply Hconn. split; [done|]. intros Heq.
    apply Hne. by eapply Hj.
  - intros n [Hin Hne]%Hconn. destruct (Ho n Hin) as (id' & x & c' & E & E1 & E2). exists id', x, c'. split; [|done].
    rewrite lookup_delete_ne; [done|]. intros ->. rewrite Et in E. congruence.
  - intros id1 t1 c1 id2 t2 c2. rewrite !lookup_delete_Some. intros [_ E1] H1 [_ E2] H2. by eapply Hj.
Qed.

(** ** The operations of the manager *)

Section Operations.
Context `{ET : !Engine TenancyDb, EC : !Engine Customer, EM : !Engine TenancyMeta, DS : !DbServers, TJ : !TenancyJoin, Un : !Uniuri}.
Context `{OT : !EngineOk TenancyDb, OC : !EngineOk Customer, OM : !EngineOk TenancyMeta, TO : !TenancyJoinOk}.
Context `{PP : !PoolPublishers}.
Variable Pools : PoolStoreBase.
Variable DB_PREFIX : string.
Variable models : TenancyDbModels.
Import TenancyManager.
Local Abbreviation post A := (A -> Op OpLogTenancy -> TenancyWorld -> Prop).

Lemma spec_UnloadTenancy id (Q : post unit) o w :
  manager_ok w ->
  (tenanciesById (loaded w) !! id = None -> Q tt o w) ->
  (forall t c, tenanciesById (loaded w) !! id = Some t -> tb_Db t = Some c -> Q tt o (close_loaded id t c w)) ->
  spec (UnloadTenancy id) Q o w.
Proof.
  intros Hm Hnone Hsome. unfold UnloadTenancy. spec_go. apply spec_on, wp_gets. rewrite put_view.
  cbn [view loaded_lens]. destruct (tenanciesById (loaded w) !! id) as [t|] eqn:E.
  - destruct (mo_id w Hm id t E) as (_ & c & Ec & _). spec_go. apply spec_close_tenancy. rewrite Ec.
    apply spec_on, wp_modify. by apply Hsome.
  - spec_go. by apply Hnone.
Qed.

(** What a notification makes of the loaded tenancies: the one it is about is as its row says,
    or not loaded. *)
Definition reflects (id : string) (w : TenancyWorld) (w' : TenancyWorld) : Prop :=
  tenanciesById (loaded w') !! id = None \/
  exists i t c, i ∈ items_of w /\ GetID (i_tenancy i) = id /\ tenanciesById (loaded w') !! id = Some t /\
    tenanciesByPath (loaded w') !! Path (i_tenancy i) = Some t /\ prepared Pools (i_tenancy i) t c w'.

(** The paths without the one a tenancy was loaded under; with one it is loaded under now. *)
Definition paths_without (id : string) (m : Loaded) : gmap string TenancyBase :=
  match tenanciesById m !! id with Some t => delete (Path (tb_db t)) (tenanciesByPath m) | None => tenanciesByPath m end.
Definition paths_after (id : string) (m m' : Loaded) : Prop :=
  tenanciesByPath m' = match tenanciesById m' !! id with
                       | Some t => <[Path (tb_db t) := t]> (paths_without id m)
                       | None => paths_without id m
                       end.

Definition handle_post (msg : PubsubNotification) (r : option error)
    (o : Op OpLogTenancy) (w : TenancyWorld) (o' : Op OpLogTenancy) (w' : TenancyWorld) : Prop :=
  let id := TenancyData.Tenancy msg in
  manager_ok w' /\ oplogs o' = oplogs o /\ rows (tenancies w') = rows (tenancies w) /\ published w' = published w /\
  reflects id w w' /\
  (n_Operation msg = OpDelete \/ r <> None -> tenanciesById (loaded w') !! id = None) /\
  (forall id', id' <> id -> tenanciesById (loaded w') !! id' = tenanciesById (loaded w) !! id') /\
  paths_after id (loaded w) (loaded w').

Lemma handle_unloaded msg r o w o1 w1 o' w' :
  manager_ok w1 -> oplogs o1 = oplogs o -> rows (tenancies w1) = rows (tenancies w) -> published w1 = published w ->
  tenanciesById (loaded w1) = delete (TenancyData.Tenancy msg) (tenanciesById (loaded w)) ->
    tenanciesByPath (loaded w1) = paths_without (TenancyData.Tenancy msg) (loaded w) ->
  calm o1 w1 o' w' -> handle_post msg r o w o' w'.
Proof.
  intros Hm Ho Hr Hp Hl Hpa Hc. pose proof Hc as [(E1 & E2 & E3 & E4 & E5 & E6) _]. unfold handle_post, reflects.
  rewrite E5, Hl, lookup_delete_eq. split; [by eapply manager_ok_calm|]. split; [congruence|]. split; [congruence|].
  split; [congruence|]. split; [by left|]. split; [done|]. split; [intros id' Hne; by rewrite lookup_delete_ne|].
  unfold paths_after. by rewrite Hl, lookup_delete_eq.
Qed.

Lemma spec_load_after msg o w o1 w1 :
  manager_ok w1 -> oplogs o1 = oplogs o -> rows (tenancies w1) = rows (tenancies w) ->
  published w1 = published w -> items_of w1 = items_of w ->
  tenanciesById (loaded w1) = delete (TenancyData.Tenancy msg) (tenanciesById (loaded w)) ->
    tenanciesByPath (loaded w1) = paths_without (TenancyData.Tenancy msg) (loaded w) ->
  n_Operation msg <> OpDelete ->
  spec (LoadTenancy Pools (TenancyData.Tenancy msg)) (fun r o' w' => handle_post msg r.2 o w o' w') o1 w1.
Proof.
  intros Hm Ho Hr Hp Hi Hl Hpa Hop. apply spec_LoadTenancy; [apply Hm| |].
  - intros i t c o2 w2 Hc Hin Hid Hprep. cbn [snd].
    assert (Hm2 : manager_ok (put (keep t (loaded w2)) w2)).
    { eapply manager_ok_keep; [exact Hc|exact Hprep| |exact Hm]. by rewrite Hl, Hid, lookup_delete_eq. }
    pose proof Hc as [(E1 & E2 & E3 & E4 & E5 & E6) _]. pose proof Hprep as (Edata & _).
    assert (Ek : GetID (tb_db t) = TenancyData.Tenancy msg) by congruence.
    split; [exact Hm2|]. split; [congruence|]. split; [cbn; congruence|]. split; [cbn; congruence|].
    assert (Eid : tenanciesById (keep t (loaded w2)) !! TenancyData.Tenancy msg = Some t)
      by (cbn; by rewrite Ek, lookup_insert_eq).
    assert (Epath : tenanciesByPath (keep t (loaded w2)) !! Path (i_tenancy i) = Some t)
      by (cbn; by rewrite Edata, lookup_insert_eq).
    split; [|split; [|split]].
    + right. exists i, t, c. rewrite <- Hi. exact (conj Hin (conj Hid (conj Eid (conj Epath Hprep)))).
    + by intros [?|?].
    + intros id' Hne. cbn. rewrite Ek, lookup_insert_ne by done. rewrite E5, Hl. by rewrite lookup_delete_ne.
    + unfold paths_after. change (loaded (put _ w2)) with (keep t (loaded w2)). rewrite Eid. cbn. by rewrite E5, Hpa.
  - intros e o2 w2 Hc. by eapply (handle_unloaded msg e o w o1 w1).
Qed.

Lemma spec_Handle msg o w :
  manager_ok w -> spec (Handle Pools msg) (fun r o' w' => handle_post msg r o w o' w') o w.
Proof.
  intros Hm. unfold Handle. spec_go.
  assert (Hrest : forall c w1, manager_ok w1 -> rows (tenancies w1) = rows (tenancies w) ->
    published w1 = published w -> items_of w1 = items_of w ->
    tenanciesById (loaded w1) = delete (TenancyData.Tenancy msg) (tenanciesById (loaded w)) ->
    tenanciesByPath (loaded w1) = paths_without (TenancyData.Tenancy msg) (loaded w) ->
    spec (if decide (n_Operation msg <> OpDelete) then
            let* '(_, err) := LoadTenancy Pools (TenancyData.Tenancy msg) in
            match err with Some _ => SetError c err | None => ret None end
          else ret None) (fun r o' w' => handle_post msg r o w o' w') o w1).
  { intros c' w1 Hm1 Hr Hp Hi Hl Hpa. case_decide as Hop.
    - apply spec_bind. eapply spec_mono; [|by apply (spec_load_after msg o w)].
      intros [t [e|]] o' w' H; by spec_go.
    - apply spec_ret. by eapply (handle_unloaded msg None o w o w1); [..|apply calm_refl]. }
  apply spec_UnloadTenancy; [done| |].
  - intros E. apply Hrest; try done; [by rewrite delete_id|]. unfold paths_without. by rewrite E.
  - intros t c' E Ec. apply Hrest; try done; [by apply manager_ok_close_loaded|]. unfold paths_without. by rewrite E.
Qed.

(** ** Closing everything *)

Lemma spec_close_all l (Q : post unit) o w :
  (forall d, next_connection d = next_connection (databases w) -> metas d = metas (databases w) ->
     (forall n, n ∈ connections d <-> n ∈ connections (databases w) /\
        forall t c, t ∈ l -> tb_Db t = Some c -> n <> conn_id c) -> Q tt o (put d w)) ->
  spec (close_all l) Q o w.
Proof.
  revert w. induction l as [|t l IH]; intros w HQ; cbn [close_all].
  - apply spec_ret. rewrite <- (put_view (A := Databases) w). apply HQ; [done..|]. intros n. split; [|by intros [? _]].
    intros Hn. split; [done|]. by intros t c ?%not_elem_of_nil.
  - apply spec_bind, spec_close_tenancy. destruct (tb_Db t) as [c|] eqn:Ec; apply IH; intros d Hn Hm Hc.
    + rewrite put_put. apply HQ; [done|done|]. intros n. rewrite Hc. cbn.
      rewrite list_elem_of_In, filter_In, <- list_elem_of_In, negb_true_iff, bool_decide_eq_false. split.
      * intros [[Hin Hne] Hall]. split; [done|]. intros t' c' [->|Ht]%elem_of_cons E; [congruence|by eapply Hall].
      * intros [Hin Hall]. split; [split; [done|]|].
        -- by apply (Hall t c); [left|].
        -- intros t' c' Ht. apply Hall. by right.
    + apply HQ; [done|done|]. intros n. rewrite Hc. split; intros [Hin Hall]; (split; [done|]).
      * intros t' c' [->|Ht]%elem_of_cons E; [congruence|by eapply Hall].
      * intros t' c' Ht. apply Hall. by right.
Qed.

Lemma elem_of_Tenancies t m : t ∈ Tenancies m <-> exists id, tenanciesById m !! id = Some t.
Proof. apply elem_of_AllMapValues. Qed.

(** After [Close] nothing is loaded and nothing is open. *)
Lemma spec_Close (Q : post unit) o w :
  manager_ok w ->
  (forall w', manager_ok w' -> connections (databases w') = [] -> loaded w' = {| tenanciesById := ∅; tenanciesByPath := ∅ |} ->
     Q tt o w') ->
  spec Close Q o w.
Proof.
  intros Hm HQ. unfold Close. spec_go. apply spec_on, wp_gets. rewrite put_view. spec_go.
  apply spec_close_all. intros d Hn Hd Hc. apply spec_on, wp_modify. cbn [view loaded_lens].
  assert (Hnil : connections d = []).
  { apply elem_of_nil_inv. intros n Hin. apply Hc in Hin as [Hin Hall].
    destruct (mo_open w Hm n Hin) as (id & t & c & E & Ec & En). apply (Hall t c); [|done|done].
    apply elem_of_Tenancies. by exists id. }
  apply HQ; [|done|done]. split; cbn [put loaded_lens databases_lens databases loaded tenanciesById tenanciesByPath].
  - unfold bounded. rewrite Hnil. constructor.
  - intros k. unfold metas_of. rewrite Hd. apply (mo_metas w Hm k).
  - by intros ??.
  - by intros ??.
  - intros n. rewrite Hnil. by intros ?%not_elem_of_nil.
  - by intros ??????.
Qed.

(** ** Loading the tenancies of an application that starts *)

Lemma spec_load_each l o w :
  manager_ok w -> NoDup (map (fun i => GetID (i_tenancy i)) l) ->
  Forall (fun i => tenanciesById (loaded w) !! GetID (i_tenancy i) = None) l ->
  spec (load_each Pools l) (fun _ _ w' => manager_ok w') o w.
Proof.
  revert o w. induction l as [|i l IH]; intros o w Hm Hnd Hall; cbn [load_each]; [by apply spec_ret|].
  cbn in Hnd. apply NoDup_cons in Hnd as [Hi Hnd]. apply Forall_cons in Hall as [Hn Hall].
  apply spec_bind, spec_LoadTenancyFromData; [apply Hm| |].
  - intros t c o1 w1 Hc Hprep. apply IH; [|done|].
    + by eapply manager_ok_keep.
    + pose proof Hc as [(_ & _ & _ & _ & El & _) _]. pose proof Hprep as (Edata & _).
      apply Forall_forall. intros j Hj. cbn. rewrite Edata, El, lookup_insert_ne.
      * rewrite Forall_forall in Hall. by apply Hall.
      * intros E. apply Hi. rewrite E. apply list_elem_of_fmap. by exists j.
  - intros e o1 w1 Hc. assert (Hm1 : manager_ok w1) by (by eapply manager_ok_calm).
    destruct e; [by apply spec_ret|]. apply IH; [done|done|]. by destruct Hc as [(_ & _ & _ & _ & -> & _) _].
Qed.

(** At most one row has a key that is unique. *)
Lemma flat_map_key {A B} (key : A -> string) (g : A -> list B) k l :
  NoDup (map key l) -> (forall a, length (g a) <= 1) -> (forall a, key a <> k -> g a = []) ->
  length (flat_map g l) <= 1.
Proof.
  intros Hnd Hone Hno. induction l as [|a l IH]; [cbn; lia|]. cbn in *. apply NoDup_cons in Hnd as [Ha Hnd].
  rewrite length_app. destruct (decide (key a = k)) as [E|E].
  - replace (flat_map g l) with (@nil B); [cbn; specialize (Hone a); lia|].
    symmetry. clear IH Hnd. induction l as [|b l IH]; [done|]. cbn in *. apply not_elem_of_cons in Ha as [Hb Ha].
    rewrite Hno by congruence. by apply IH.
  - rewrite (Hno a E). cbn. by apply IH.
Qed.

Definition unique_ids `{Entity R} (rows : list R) : Prop := NoDup (map GetID rows).

Lemma flat_map_nil {A B} (g : A -> list B) l : (forall a, g a = []) -> flat_map g l = [].
Proof. intros Hg. induction l as [|a l IH]; [done|]. cbn. by rewrite Hg, IH. Qed.

(** The part of the join that belongs to one tenancy. *)
Lemma joined_one t cs ps :
  unique_ids cs -> unique_ids ps -> length (joined_items [t] cs ps) <= 1.
Proof.
  intros Hc Hp. unfold joined_items. cbn [flat_map]. rewrite app_nil_r.
  apply (flat_map_key GetID _ (CustomerId t)); [done| |].
  - intros c. apply (flat_map_key GetID _ (PoolId t)); [done| |].
    + intros p. case_match; cbn; lia.
    + intros p Hne. rewrite (bool_decide_eq_false_2 (PoolId t = GetID p)) by congruence. by rewrite andb_false_r.
  - intros c Hne. apply flat_map_nil. intros p. by rewrite bool_decide_eq_false_2 by congruence.
Qed.

Lemma joined_item_tenancy i ts cs ps : i ∈ joined_items ts cs ps -> i_tenancy i ∈ ts.
Proof.
  unfold joined_items. rewrite list_elem_of_In, in_flat_map. intros (t & Ht & Hin). rewrite in_flat_map in Hin.
  destruct Hin as (c & _ & Hin). rewrite in_flat_map in Hin. destruct Hin as (p & _ & Hin).
  destruct (_ && _); [|done]. destruct Hin as [<-|[]]. by apply list_elem_of_In.
Qed.

(** The rows of the join have the IDs of their tenancies, none twice. *)
Lemma joined_items_ids ts cs ps :
  unique_ids ts -> unique_ids cs -> unique_ids ps -> NoDup (map (fun i => GetID (i_tenancy i)) (joined_items ts cs ps)).
Proof.
  intros Ht Hc Hp. induction ts as [|t ts IH]; [constructor|].
  unfold unique_ids in Ht. cbn [map] in Ht. apply NoDup_cons in Ht as [Hnot Ht].
  change (joined_items (t :: ts) cs ps) with (joined_items ([t] ++ ts) cs ps).
  assert (E : joined_items ([t] ++ ts) cs ps = joined_items [t] cs ps ++ joined_items ts cs ps).
  { unfold joined_items. by rewrite flat_map_app. }
  rewrite E, map_app. apply NoDup_app. split; [|split; [|by apply IH]].
  - pose proof (joined_one t cs ps Hc Hp) as Hlen.
    destruct (joined_items [t] cs ps) as [|x [|y l]]; cbn in *; [constructor| |lia]. apply NoDup_singleton.
  - intros id Hin Hin'. apply list_elem_of_fmap in Hin as (i & -> & Hi). apply joined_item_tenancy, list_elem_of_singleton in Hi.
    apply list_elem_of_fmap in Hin' as (j & Ej & Hj). apply joined_item_tenancy in Hj.
    apply Hnot. rewrite <- Hi, Ej. apply list_elem_of_fmap. by exists (i_tenancy j).
Qed.

Lemma spec_LoadTenancies self o w :
  manager_ok w -> tenanciesById (loaded w) = ∅ ->
  unique_ids (rows (tenancies w)) -> unique_ids (rows (customers w)) -> unique_ids (rows (joined_pools w)) ->
  spec (LoadTenancies Pools self) (fun _ _ w' => manager_ok w') o w.
Proof.
  intros Hm Hl Ht Hc Hp. unfold LoadTenancies. spec_go. set (f := match self with Some _ => _ | None => _ end).
  assert (Hf : plain f) by (unfold f; destruct self; auto with go).
  apply spec_list_tenancies.
  - intros items n w1 k Hc1 E. apply tenancies_ok in E; [|done]. spec_go.
    eapply spec_mono; [|apply spec_load_each]; [by intros e o' w' H'; destruct e; spec_go| | |].
    + by eapply manager_ok_calm.
    + rewrite E. unfold selected. pose proof (joined_items_ids _ _ _ Ht Hc Hp) as Hnd.
      clear -Hnd. induction (joined_items _ _ _) as [|i l IH]; [constructor|]. cbn in *.
      apply NoDup_cons in Hnd as [Hi Hnd]. case_match; [|by apply IH]. cbn. apply NoDup_cons. split; [|by apply IH].
      intros Hin. apply Hi. apply list_elem_of_fmap in Hin as (j & Ej & Hj). apply list_elem_of_fmap. exists j.
      split; [done|]. apply list_elem_of_In, filter_In in Hj as [? _]. by apply list_elem_of_In.
    + destruct Hc1 as [(_ & _ & _ & _ & -> & _) _]. rewrite Hl. apply Forall_forall. intros i _. by rewrite lookup_empty.
  - intros e w1 Hc1. spec_go. by eapply manager_ok_calm.
Qed.

(** ** Reachable states *)

(** What an application is asked for while it runs. *)
Inductive request :=
| ReqAdd (data : TenancyData)
| ReqSetPath (id path : string) (d : list bool)
| ReqSetRole (id role : string) (d : list bool)
| ReqSetCustomer (id customer : string) (d : list bool)
| ReqActivate (id : string) (d : list bool)
| ReqDeactivate (id : string) (d : list bool)
| ReqChangePoolOrDb (id poolId dbName : string) (d : list bool)
| ReqDelete (id : string) (withDb : bool) (d : list bool)
| ReqNotify (msg : PubsubNotification)
| ReqUnload (id : string)
| ReqClose.

Definition drop {A} (m : M (St OpLogTenancy TenancyWorld) A) : M (St OpLogTenancy TenancyWorld) unit := m ;; ret tt.

Definition run (r : request) : M (St OpLogTenancy TenancyWorld) unit :=
  match r with
  | ReqAdd data => drop (TenancyController.Add Pools DB_PREFIX models data)
  | ReqSetPath id path d => drop (TenancyController.SetPath id path d)
  | ReqSetRole id role d => drop (TenancyController.SetRole id role d)
  | ReqSetCustomer id customer d => drop (TenancyController.SetCustomer id customer d)
  | ReqActivate id d => drop (TenancyController.Activate id d)
  | ReqDeactivate id d => drop (TenancyController.Deactivate id d)
  | ReqChangePoolOrDb id poolId dbName d => drop (TenancyController.ChangePoolOrDb Pools id poolId dbName d)
  | ReqDelete id withDb d => drop (TenancyController.Delete id withDb d)
  | ReqNotify msg => drop (Handle Pools msg)
  | ReqUnload id => UnloadTenancy id
  | ReqClose => Close
  end.

Definition nothing_loaded : Loaded := {| tenanciesById := ∅; tenanciesByPath := ∅ |}.

(** A request in a context of its own; the start of an application; and whatever other
    applications do to the main database and to databases no connection is lost of. *)
Inductive step : TenancyWorld -> TenancyWorld -> Prop :=
| step_request r t o w : step w (st_ext (run r (Build_St t o w)).2)
| step_load self t o w :
    loaded w = nothing_loaded ->
    unique_ids (rows (tenancies w)) -> unique_ids (rows (customers w)) -> unique_ids (rows (joined_pools w)) ->
    step w (st_ext (LoadTenancies Pools self (Build_St t o w)).2)
| step_others w w' :
    loaded w' = loaded w -> settled (databases w) (databases w') -> step w w'.

Lemma effect_ok t f op ns o w o' w' : effect t f op ns o w o' w' -> manager_ok w -> manager_ok w'.
Proof. intros (_ & _ & _ & _ & _ & El & Hs). by apply manager_ok_settled. Qed.
Lemma change_post_ok id d f op cond r o w o' w' :
  change_post id d f op cond r o w o' w' -> manager_ok w -> manager_ok w'.
Proof.
  destruct r as [e|]; cbn [change_post]; [apply manager_ok_calm|]. intros (i & _ & _ & _ & He). by eapply effect_ok.
Qed.

Lemma run_ok r o w : manager_ok w -> spec (run r) (fun _ _ w' => manager_ok w') o w.
Proof.
  intros Hm. pose proof (mo_bounded w Hm) as Hb.
  destruct r; cbn [run]; lazymatch goal with |- spec (drop _) _ _ _ => apply spec_bind | _ => idtac end.
  - eapply spec_mono; [|by apply Add_spec]. intros [[i|] [e|]] o' w' H; apply spec_ret; cbn [add_post] in H; try done.
    + destruct H as (? & ? & ? & _ & _ & _ & _ & _ & _ & _ & _ & _ & _ & _ & El & Hs). by apply (manager_ok_settled w).
    + by eapply manager_ok_calm.
  - eapply spec_mono; [|apply SetPath_spec]. intros e o' w' H. apply spec_ret. exact (change_post_ok _ _ _ _ _ _ _ _ _ _ H Hm).
  - eapply spec_mono; [|apply SetRole_spec]. intros e o' w' H. apply spec_ret. exact (change_post_ok _ _ _ _ _ _ _ _ _ _ H Hm).
  - eapply spec_mono; [|apply SetCustomer_spec]. intros [e|] o' w' H; apply spec_ret; cbn [customer_post] in H.
    + by eapply manager_ok_calm.
    + destruct H as (cust & _ & _ & H). exact (change_post_ok _ _ _ _ _ _ _ _ _ _ H Hm).
  - eapply spec_mono; [|apply set_active_spec]. intros e o' w' H. apply spec_ret. exact (change_post_ok _ _ _ _ _ _ _ _ _ _ H Hm).
  - eapply spec_mono; [|apply set_active_spec]. intros e o' w' H. apply spec_ret. exact (change_post_ok _ _ _ _ _ _ _ _ _ _ H Hm).
  - eapply spec_mono; [|by apply ChangePoolOrDb_spec]. intros [e|] o' w' H; apply spec_ret; cbn [move_post] in H.
    + by eapply manager_ok_calm.
    + destruct H as (i & p & database & _ & _ & _ & _ & _ & _ & H). by eapply effect_ok.
  - eapply spec_mono; [|apply Delete_spec]. intros [e|] o' w' [H _]; apply spec_ret; cbn [delete_post] in H.
    + by eapply manager_ok_calm.
    + destruct H as (i & _ & _ & _ & _ & _ & _ & _ & El & Hs). by apply (manager_ok_settled w).
  - eapply spec_mono; [|by apply spec_Handle]. intros e o' w' H. apply spec_ret, H.
  - apply spec_UnloadTenancy; [done|done|]. intros t c E Ec. by apply manager_ok_close_loaded.
  - apply spec_Close; [done|]. by intros.
Qed.

Lemma step_ok w w' : step w w' -> manager_ok w -> manager_ok w'.
Proof.
  intros Hs Hm. destruct Hs as [r t o w|self t o w Hl Ht Hc Hp|w w' Hl Hs].
  - exact (run_ok r o w Hm t).
  - assert (El : tenanciesById (loaded w) = ∅) by (by rewrite Hl).
    exact (spec_LoadTenancies self o w Hm El Ht Hc Hp t).
  - by apply (manager_ok_settled w).
Qed.

(** Nothing loaded, nothing open, and no database claimed twice. *)
Definition initial (w : TenancyWorld) : Prop :=
  loaded w = nothing_loaded /\ connections (databases w) = [] /\ metas_ok (databases w).

Lemma initial_ok w : initial w -> manager_ok w.
Proof.
  intros (El & Ec & Hm). split; rewrite ?El, ?Ec; try done.
  - unfold bounded. rewrite Ec. constructor.
  - by intros n ?%not_elem_of_nil.
Qed.

Lemma reachable_ok w w' : initial w -> rtc step w w' -> manager_ok w'.
Proof.
  intros Hi Hs. apply initial_ok in Hi. induction Hs as [|w w1 w2 Hstep _ IH]; [done|].
  apply IH. by eapply step_ok.
Qed.

Lemma same_database w database id1 id2 :
  metas_ok (databases w) -> belongs_to database id1 (databases w) -> belongs_to database id2 (databases w) -> id1 = id2.
Proof.
  intros Hm (m1 & H1 & <-) (m2 & H2 & <-). specialize (Hm database).
  destruct (rows _) as [|m [|]]; cbn in Hm; [by apply not_elem_of_nil in H1| |lia].
  apply list_elem_of_singleton in H1 as ->. by apply list_elem_of_singleton in H2 as ->.
Qed.

(** [C12] Isolation of tenancies.  In every state an application reaches, whatever requests and
    notifications it serves, whatever other applications do meanwhile, and whichever calls
    fail: a loaded tenancy has an open connection to a database that carries its ID, and two
    tenancies never share a database or a connection. *)
Theorem tenancies_isolated w w' :
  initial w -> rtc step w w' ->
  (forall id t, Tenancy id (loaded w') = inl t -> GetID (tb_db t) = id /\ exists c, tb_Db t = Some c /\
     conn_id c ∈ connections (databases w') /\ belongs_to (conn_database c) id (databases w')) /\
  (forall id1 t1 c1 id2 t2 c2, Tenancy id1 (loaded w') = inl t1 -> tb_Db t1 = Some c1 ->
     Tenancy id2 (loaded w') = inl t2 -> tb_Db t2 = Some c2 -> id1 <> id2 ->
     conn_database c1 <> conn_database c2 /\ conn_id c1 <> conn_id c2).
Proof.
  intros Hi Hs. pose proof (reachable_ok w w' Hi Hs) as Hm.
  assert (Hlook : forall id t, Tenancy id (loaded w') = inl t -> tenanciesById (loaded w') !! id = Some t).
  { intros id t. unfold Tenancy. destruct (_ !! _); [by intros [= ->]|done]. }
  split; [intros id t E; apply (mo_id w' Hm), Hlook, E|].
  intros id1 t1 c1 id2 t2 c2 E1 Ec1 E2 Ec2 Hne. apply Hlook in E1, E2. split.
  - intros Hdb. destruct (mo_id w' Hm id1 t1 E1) as (_ & c1' & Ec1' & _ & B1).
    destruct (mo_id w' Hm id2 t2 E2) as (_ & c2' & Ec2' & _ & B2). rewrite Ec1 in Ec1'. rewrite Ec2 in Ec2'.
    injection Ec1' as <-. injection Ec2' as <-. rewrite Hdb in B1.
    apply Hne. eapply same_database; [apply Hm|exact B1|exact B2].
  - intros Hid. apply Hne. by eapply (mo_inj w' Hm).
Qed.

(** No connection leaks and no path is stale.  In every reachable state the open connections
    are those of the loaded tenancies, so nothing is open after [Close]; and a path leads only
    to a tenancy that is loaded, under its own path. *)
Theorem connections_of_loaded w w' :
  initial w -> rtc step w w' ->
  (forall n, n ∈ connections (databases w') <->
     exists id t c, Tenancy id (loaded w') = inl t /\ tb_Db t = Some c /\ conn_id c = n) /\
  (forall p t, TenancyByPath p (loaded w') = inl t ->
     Path (tb_db t) = p /\ Tenancy (GetID (tb_db t)) (loaded w') = inl t) /\
  (forall t o, connections (databases (st_ext (Close (Build_St t o w')).2)) = []).
Proof.
  intros Hi Hs. pose proof (reachable_ok w w' Hi Hs) as Hm. unfold Tenancy, TenancyByPath. split_and!.
  - intros n. split.
    + intros Hn. destruct (mo_open w' Hm n Hn) as (id & t & c & E & Ec & En). exists id, t, c. by rewrite E.
    + intros (id & t & c & E & Ec & <-). destruct (tenanciesById (loaded w') !! id) as [t'|] eqn:E'; [|done].
      injection E as ->. destruct (mo_id w' Hm id t E') as (_ & c' & Ec' & Hin & _). congruence.
  - intros p t E. destruct (tenanciesByPath (loaded w') !! p) as [t'|] eqn:E'; [|done]. injection E as ->.
    destruct (mo_path w' Hm p t E') as [Hp Hid]. by rewrite Hid.
  - intros t o. refine (spec_Close (fun _ _ w2 => connections (databases w2) = []) o w' Hm _ t). by intros w2 _ Hc _.
Qed.

(** [C13] A notification brings the loaded tenancies up to date.  Handling one about a tenancy leaves
    that tenancy loaded as its row in the database says, found by its ID and by its present
    path, with its customer, its active pool and its own database; or not loaded, which is
    always so after a deletion or a failure.  Other tenancies stay loaded under their IDs.  Of the
    paths, only the one the tenancy was loaded under is removed and only the one of its row is set;
    so a path that another tenancy took over from it leads to that one no longer. *)
Theorem Handle_reflects msg (s : St OpLogTenancy TenancyWorld) :
  manager_ok (st_ext s) ->
  let r := Handle Pools msg s in handle_post msg r.1 (st_op s) (st_ext s) (st_op r.2) (st_ext r.2).
Proof. intros Hm. exact (spec_run _ _ s (spec_Handle msg (st_op s) (st_ext s) Hm)). Qed.
End Operations.
