(* ===== verification/TenancyDemo.v ===== *)
(** * A concrete application: the theorems on tenancies applied

    Two customers, a pool with a database server that never fails, one publisher. *)
From S2P Require Import Prelude GoTime Utils Common Errors OpContext Db Crud PoolData Pool PoolStore Users Crypt Customer TenancyData Tenancy TenancyInv TenancyEffects TenancyReach.
Open Scope go_scope.

Module TenancyDemo.
#[export] Existing Instances CustomersDemo.customers_db CustomersDemo.customers_db_ok UsersDemo.uniuri_demo.
#[export] Instance tenancies_db : Engine TenancyDb := mem_engine UsersDemo.no_fault.
#[export] Instance tenancies_db_ok : EngineOk TenancyDb := mem_engine_ok UsersDemo.no_fault.
#[export] Instance metas_db : Engine TenancyMeta := mem_engine UsersDemo.no_fault.
#[export] Instance metas_db_ok : EngineOk TenancyMeta := mem_engine_ok UsersDemo.no_fault.
#[export] Instance join_db : TenancyJoin := mem_tenancies UsersDemo.no_fault.
#[export] Instance join_db_ok : TenancyJoinOk := mem_tenancies_ok UsersDemo.no_fault.
#[export] Instance servers : DbServers := {| database_of := DBC_NAME; answer _ _ := None |}.
#[export] Instance pool_publishers : PoolPublishers := {| publishers := ["p1"]; publish_answer _ _ := None |}.

(** A pool with an active database service. *)
Definition pool (id name : string) : PoolBase :=
  {| p_base := ObjectBase.SetID id ObjectBase.zero; p_NAME := name; p_LONG_NAME := ""; p_DESCRIPTION := ""; p_ACTIVE := true |}.
Definition service : PoolServiceBinding :=
  {| pb_base := ObjectBase.zero; pb_PoolId := "p1"; pb_PoolName := "main"; pb_ROLE := TENANCY_DATABASE_ROLE; pb_ServiceId := "s1"; pb_ServiceName := "sql";
     pb_data := set_TYPE_NAME TypeDatabase (set_s_ACTIVE true zero_data) |}.
Definition store : PoolStoreBase :=
  store_pool (SetServices [service] (pool "p2" "spare")) (store_pool (SetServices [service] (pool "p1" "main")) NewPoolStore).

Definition op : Op OpLogTenancy :=
  {| op_id := "op1"; op_name := "tenancies"; genericError := None; oplogs := [];
     errorManager := ErrorManagerBase.InitHttp; dbTransaction := false; errorAsWarn := false;
     writeCloseLog := true; origin := None; logs := [] |}.
Definition start_world : TenancyWorld :=
  {| tenancies := no_table;
     customers := {| rows := [CustomersDemo.customer "c1" "acme"; CustomersDemo.customer "c2" "beta"]; queries := 0 |};
     joined_pools := {| rows := [pool "p1" "main"; pool "p2" "spare"]; queries := 0 |};
     tw_env := UsersDemo.env;
     databases := {| requests := []; metas := ∅; connections := []; next_connection := 0 |};
     loaded := nothing_loaded; published := [] |}.
Definition start : St OpLogTenancy TenancyWorld := Build_St trace0 op start_world.
Definition models : TenancyDbModels := {| DbModels := []; PartitionedDbModels := [] |}.

(** A new tenancy of the customer "acme". *)
Definition data : TenancyData :=
  {| td_DESCRIPTION := ""; PATH := "shop"; td_ROLE := "main"; CUSTOMER_ID := "acme"; td_POOL_ID := "main"; DBNAME := "" |}.
Definition added := TenancyController.Add store "app" models data start.
Definition tenancy : TenancyDb := match added.1.1 with Some i => i_tenancy i | None => zero_tenancy end.
Definition id : string := GetID tenancy.
Definition notify (id op : string) : PubsubNotification := {| TenancyData.Tenancy := id; n_Operation := op |}.
Definition handled := TenancyManager.Handle store (notify id OpAdd) added.2.

(** The tenancy activated. *)
Definition activated := TenancyController.Activate id [] handled.2.
Definition reloaded := TenancyManager.Handle store (notify id OpActivate) activated.2.

(** The requests one after another. *)
Definition run_all (l : list request) (s : St OpLogTenancy TenancyWorld) : St OpLogTenancy TenancyWorld :=
  foldl (fun s r => (run store "app" models r s).2) s l.
End TenancyDemo.

Section Witnesses.
Import TenancyDemo TenancyController.

Lemma start_initial : initial start_world.
Proof. split; [done|]. split; [done|]. intros database. vm_compute. lia. Qed.

(** A request is a step from any state of a context. *)
Lemma step_drop {A} r (m : M (St OpLogTenancy TenancyWorld) A) s :
  run store "app" models r = drop m -> step store "app" models (st_ext s) (st_ext (m s).2).
Proof.
  intros E. assert (Es : (drop m s).2 = (m s).2) by (unfold drop, bind, ret; by destruct (m s)).
  rewrite <- Es, <- E. destruct s as [t o w]. apply step_request.
Qed.
Lemma added_step : step store "app" models start_world (st_ext added.2).
Proof. exact (step_drop (ReqAdd data) (Add store "app" models data) start eq_refl). Qed.
Lemma added_ok : manager_ok (st_ext added.2).
Proof. exact (reachable_ok store "app" models start_world _ start_initial (rtc_once _ _ added_step)). Qed.

Lemma handled_reachable : rtc (step store "app" models) start_world (st_ext handled.2).
Proof.
  exact (rtc_r _ _ _ (rtc_once _ _ added_step)
    (step_drop (ReqNotify (notify id OpAdd)) (TenancyManager.Handle store (notify id OpAdd)) added.2 eq_refl)).
Qed.
Lemma reloaded_reachable : rtc (step store "app" models) start_world (st_ext reloaded.2).
Proof.
  exact (rtc_r _ _ _ (rtc_r _ _ _ handled_reachable (step_drop (ReqActivate id []) (TenancyController.Activate id []) handled.2 eq_refl))
    (step_drop (ReqNotify (notify id OpActivate)) (TenancyManager.Handle store (notify id OpActivate)) activated.2 eq_refl)).
Qed.

Lemma path_set : (SetPath "acme/main" "store" [true] added.2).1 = None /\
  map Path (rows (tenancies (st_ext (SetPath "acme/main" "store" [true] added.2).2))) = ["store"].
Proof. vm_compute. done. Qed.

Lemma tenancy_changes_witness :
  (SetPath "acme/main" "store" [true] added.2).1 = None /\
  change_post "acme/main" [true] {["path" := VStr "store"]} OpSetPath (fun t => free_path (PoolId t) "store" (st_ext added.2))
    (SetPath "acme/main" "store" [true] added.2).1 (st_op added.2) (st_ext added.2)
    (st_op (SetPath "acme/main" "store" [true] added.2).2) (st_ext (SetPath "acme/main" "store" [true] added.2).2).
Proof. exact (conj (proj1 path_set) (proj1 (tenancy_changes "acme/main" [true] added.2) "store")). Defined.

Lemma added_facts : added.1.2 = None /\ map DbName (rows (tenancies (st_ext added.2))) = ["app_acme_main"].
Proof. vm_compute. done. Qed.
Lemma start_bounded : bounded (databases (st_ext start)).
Proof. constructor. Qed.

Lemma Add_tenancy_witness :
  added.1.2 = None /\ add_post store "app" data added.1 (st_op start) (st_ext start) (st_op added.2) (st_ext added.2).
Proof. exact (conj (proj1 added_facts) (proj1 (Add_tenancy store "app" models data start start_bounded))). Defined.

(** To the pool "spare", whose server has the database of the tenancy too. *)
Definition moved := ChangePoolOrDb store "acme/main" "spare" "" [true] added.2.
Lemma moved_facts : moved.1 = None /\ map PoolId (rows (tenancies (st_ext moved.2))) = ["p2"].
Proof. vm_compute. done. Qed.

Lemma ChangePoolOrDb_effect_witness :
  moved.1 = None /\
  move_post store "acme/main" "spare" "" [true] moved.1 (st_op added.2) (st_ext added.2) (st_op moved.2) (st_ext moved.2).
Proof.
  exact (conj (proj1 moved_facts)
    (proj1 (ChangePoolOrDb_effect store "acme/main" "spare" "" [true] added.2 (mo_bounded _ added_ok)))).
Defined.

Definition deleted := Delete id false [] added.2.
Lemma deleted_facts : deleted.1 = None /\ rows (tenancies (st_ext deleted.2)) = [].
Proof. vm_compute. done. Qed.

Lemma Delete_effect_witness :
  deleted.1 = None /\ delete_post id [] deleted.1 (st_op added.2) (st_ext added.2) (st_op deleted.2) (st_ext deleted.2).
Proof. exact (conj (proj1 deleted_facts) (proj1 (Delete_effect id false [] added.2))). Defined.

(** The tenancy is loaded after its notification. *)
Definition found (l : Loaded) : option (string * option string) :=
  match TenancyManager.Tenancy id l with
  | inl t => Some (Path (tb_db t), option_map conn_database (tb_Db t))
  | inr _ => None
  end.
Lemma handled_found : found (loaded (st_ext handled.2)) = Some ("shop", Some "app_acme_main").
Proof. vm_compute. reflexivity. Qed.

Lemma tenancies_isolated_witness :
  found (loaded (st_ext handled.2)) = Some ("shop", Some "app_acme_main") /\
  forall i t, TenancyManager.Tenancy i (loaded (st_ext handled.2)) = inl t -> GetID (tb_db t) = i /\ exists c, tb_Db t = Some c /\
     conn_id c ∈ connections (databases (st_ext handled.2)) /\ belongs_to (conn_database c) i (databases (st_ext handled.2)).
Proof.
  exact (conj handled_found (proj1 (tenancies_isolated store "app" models _ _ start_initial handled_reachable))).
Defined.

Lemma handled_connections : connections (databases (st_ext handled.2)) = [1].
Proof. vm_compute. reflexivity. Qed.

Lemma connections_of_loaded_witness :
  connections (databases (st_ext handled.2)) = [1] /\
  forall n, n ∈ connections (databases (st_ext handled.2)) <->
     exists i t c, TenancyManager.Tenancy i (loaded (st_ext handled.2)) = inl t /\ tb_Db t = Some c /\ conn_id c = n.
Proof.
  exact (conj handled_connections (proj1 (connections_of_loaded store "app" models _ _ start_initial handled_reachable))).
Defined.

Lemma handled_ok : handled.1 = None.
Proof. vm_compute. reflexivity. Qed.

Lemma Handle_reflects_witness :
  handled.1 = None /\
  handle_post store (notify id OpAdd) handled.1 (st_op added.2) (st_ext added.2) (st_op handled.2) (st_ext handled.2).
Proof. exact (conj handled_ok (Handle_reflects store (notify id OpAdd) added.2 added_ok)). Defined.
End Witnesses.

(** ** A path of another tenancy

    A tenancy that is unloaded takes the entry of its former path with it, also when another
    tenancy was loaded under that path since. *)
Section PathLost.
Import TenancyDemo.

Definition second : TenancyData :=
  {| td_DESCRIPTION := ""; PATH := "shop"; td_ROLE := "main"; CUSTOMER_ID := "beta"; td_POOL_ID := "main"; DBNAME := "" |}.
Definition id_of_second : string :=
  match rows (tenancies (st_ext (run_all [ReqSetPath id "store" []; ReqAdd second] added.2))) with
  | [_; t] => GetID t
  | _ => ""
  end.
(** The notification of the new path comes after the second tenancy is loaded. *)
Definition late : list request :=
  [ReqNotify (notify id OpAdd); ReqSetPath id "store" []; ReqAdd second; ReqNotify (notify id_of_second OpAdd);
   ReqNotify (notify id OpSetPath)].
Definition names {A} (r : A + error) : bool := match r with inl _ => true | inr _ => false end.

Example path_lost :
  let m := loaded (st_ext (run_all late added.2)) in
  names (TenancyManager.Tenancy id_of_second m) = true /\ names (TenancyManager.TenancyByPath "shop" m) = false.
Proof. vm_compute. done. Qed.
End PathLost.
