(* ===== verification/ApiResource.v ===== *)
(** * pkg/api: the tree of resources

    A resource keeps its paths, which depend on those of its parent; a change of one resource
    rebuilds the paths below it.  Resources point to their parents and children, may be moved
    and cloned, so they live in a heap: a reference is an index, an allocation appends.  The
    operations of resources live in a heap of their own. *)
From S2P Require Import Prelude Utils Access.
From stdpp Require Import relations sorting.
Open Scope go_scope.

(** ** Data (resource.go, operation.go) *)

Notation ref := nat (only parsing).

Record ResourceConfig := {
  cfg_Host : string; cfg_HasId : bool; cfg_Service : bool; cfg_Id : string; cfg_Tenancy : bool
}.
Definition no_config : ResourceConfig :=
  {| cfg_Host := ""; cfg_HasId := false; cfg_Service := false; cfg_Id := ""; cfg_Tenancy := false |}.

Record ResourceBase := {
  r_config : ResourceConfig;
  resourceType : string;
  pathPrototype : string;
  actualPath : string;
  fullPathPrototype : string;
  fullActualPath : string;
  servicePathPrototype : string;
  serviceActualPath : string;
  r_parent : option ref;
  r_children : list ref;
  r_operations : list ref;
  r_getter : option ref;
  r_inTenancy : bool;
  r_tenancyResource : option ref
}.

Record OperationBase := { o_name : string; o_resource : option ref; accessType : AccessType; testOnly : bool }.

Notation Heap := (list ResourceBase) (only parsing).
Record Api := { resources : Heap; operations_ : list OperationBase }.

#[export] Instance resources_lens : Lens Api Heap.
Proof. by refine {| view := resources; put h w := {| resources := h; operations_ := operations_ w |} |}; try intros []. Defined.
#[export] Instance operations_lens : Lens Api (list OperationBase).
Proof. by refine {| view := operations_; put l w := {| resources := resources w; operations_ := l |} |}; try intros []. Defined.

Definition zero_resource : ResourceBase :=
  {| r_config := no_config; resourceType := ""; pathPrototype := ""; actualPath := ""; fullPathPrototype := "";
     fullActualPath := ""; servicePathPrototype := ""; serviceActualPath := ""; r_parent := None; r_children := [];
     r_operations := []; r_getter := None; r_inTenancy := false; r_tenancyResource := None |}.
Definition zero_operation : OperationBase := {| o_name := ""; o_resource := None; accessType := 0%Z; testOnly := false |}.

Definition node (h : Heap) (r : ref) : ResourceBase := default zero_resource (h !! r).
Definition op_node (l : list OperationBase) (o : ref) : OperationBase := default zero_operation (l !! o).

Definition set_config (c : ResourceConfig) (R : ResourceBase) : ResourceBase :=
  {| r_config := c; resourceType := resourceType R; pathPrototype := pathPrototype R; actualPath := actualPath R;
     fullPathPrototype := fullPathPrototype R; fullActualPath := fullActualPath R;
     servicePathPrototype := servicePathPrototype R; serviceActualPath := serviceActualPath R; r_parent := r_parent R;
     r_children := r_children R; r_operations := r_operations R; r_getter := r_getter R; r_inTenancy := r_inTenancy R;
     r_tenancyResource := r_tenancyResource R |}.
Definition set_links (parent : option ref) (children : list ref) (R : ResourceBase) : ResourceBase :=
  {| r_config := r_config R; resourceType := resourceType R; pathPrototype := pathPrototype R; actualPath := actualPath R;
     fullPathPrototype := fullPathPrototype R; fullActualPath := fullActualPath R;
     servicePathPrototype := servicePathPrototype R; serviceActualPath := serviceActualPath R; r_parent := parent;
     r_children := children; r_operations := r_operations R; r_getter := r_getter R; r_inTenancy := r_inTenancy R;
     r_tenancyResource := r_tenancyResource R |}.
Definition set_operations (ops : list ref) (getter : option ref) (R : ResourceBase) : ResourceBase :=
  {| r_config := r_config R; resourceType := resourceType R; pathPrototype := pathPrototype R; actualPath := actualPath R;
     fullPathPrototype := fullPathPrototype R; fullActualPath := fullActualPath R;
     servicePathPrototype := servicePathPrototype R; serviceActualPath := serviceActualPath R; r_parent := r_parent R;
     r_children := r_children R; r_operations := ops; r_getter := getter; r_inTenancy := r_inTenancy R;
     r_tenancyResource := r_tenancyResource R |}.
Definition set_cfg_Id (v : string) (c : ResourceConfig) : ResourceConfig :=
  {| cfg_Host := cfg_Host c; cfg_HasId := cfg_HasId c; cfg_Service := cfg_Service c; cfg_Id := v; cfg_Tenancy := cfg_Tenancy c |}.
Definition set_cfg_HasId (v : bool) (c : ResourceConfig) : ResourceConfig :=
  {| cfg_Host := cfg_Host c; cfg_HasId := v; cfg_Service := cfg_Service c; cfg_Id := cfg_Id c; cfg_Tenancy := cfg_Tenancy c |}.
Definition set_cfg_Service (v : bool) (c : ResourceConfig) : ResourceConfig :=
  {| cfg_Host := cfg_Host c; cfg_HasId := cfg_HasId c; cfg_Service := v; cfg_Id := cfg_Id c; cfg_Tenancy := cfg_Tenancy c |}.
Definition set_cfg_Host (v : string) (c : ResourceConfig) : ResourceConfig :=
  {| cfg_Host := v; cfg_HasId := cfg_HasId c; cfg_Service := cfg_Service c; cfg_Id := cfg_Id c; cfg_Tenancy := cfg_Tenancy c |}.

(** ** Resources *)

Module Resource.

(** A walk along parents or down the children meets no resource twice, so as many steps as there
    are resources are enough. *)
Definition fuel (h : Heap) : nat := S (length h).

Definition HasId (h : Heap) (r : ref) : bool := cfg_HasId (r_config (node h r)).
Definition Id (h : Heap) (r : ref) : string := cfg_Id (r_config (node h r)).
Definition Type_ (h : Heap) (r : ref) : string := resourceType (node h r).
Definition IsService (h : Heap) (r : ref) : bool := cfg_Service (r_config (node h r)).
Definition IsTenancy (h : Heap) (r : ref) : bool := cfg_Tenancy (r_config (node h r)).
Definition IsInTenancy (h : Heap) (r : ref) : bool := r_inTenancy (node h r).
Definition Parent (h : Heap) (r : ref) : option ref := r_parent (node h r).
Definition Children (h : Heap) (r : ref) : list ref := r_children (node h r).
Definition PathPrototype (h : Heap) (r : ref) : string := pathPrototype (node h r).
Definition ActualPath (h : Heap) (r : ref) : string := actualPath (node h r).
Definition FullPathPrototype (h : Heap) (r : ref) : string := fullPathPrototype (node h r).
Definition FullActualPath (h : Heap) (r : ref) : string := fullActualPath (node h r).
Definition ServicePathPrototype (h : Heap) (r : ref) : string := servicePathPrototype (node h r).
Definition ServiceActualPath (h : Heap) (r : ref) : string := serviceActualPath (node h r).
Definition TenancyResourceInPath (h : Heap) (r : ref) : option ref := r_tenancyResource (node h r).

Fixpoint is_service_part (n : nat) (h : Heap) (r : ref) : bool :=
  match n with
  | 0 => false
  | S n =>
      if IsService h r then true
      else match Parent h r with Some p => is_service_part n h p | None => false end
  end.
Definition IsServicePart (h : Heap) (r : ref) : bool := is_service_part (fuel h) h r.

(** [isInTenancy] of a resource with the given parent. *)
Definition isInTenancy (parent : option ResourceBase) (R : ResourceBase) : bool :=
  if cfg_Tenancy (r_config R) then true
  else match parent with Some p => r_inTenancy p | None => false end.

(** The own fields that [RebuildPaths] sets, from those of the parent. *)
Definition rebuild_node (isServicePart : bool) (parent : option ResourceBase) (R : ResourceBase) : ResourceBase :=
  let c := r_config R in
  let pathPrototype := ConcatStrings [if cfg_HasId c then "/:" else "/"; resourceType R] in
  let actualPath :=
    if cfg_HasId c then
      if cfg_Tenancy c && bool_decide (cfg_Id c = "") then pathPrototype else ConcatStrings ["/"; cfg_Id c]
    else pathPrototype in
  let servicePrototype := if cfg_Service c then pathPrototype else servicePathPrototype R in
  let serviceActual := if cfg_Service c then actualPath else serviceActualPath R in
  let inTenancy := isInTenancy parent R in
  let '(fullPrototype, fullActual, servicePrototype, serviceActual, tenancyResource) :=
    match parent with
    | None => (pathPrototype, actualPath, servicePrototype, serviceActual, r_tenancyResource R)
    | Some p =>
        let below := isServicePart && negb (cfg_Service c) in
        (ConcatStrings [fullPathPrototype p; pathPrototype], ConcatStrings [fullActualPath p; actualPath],
         if below then ConcatStrings [servicePathPrototype p; pathPrototype] else servicePrototype,
         if below then ConcatStrings [serviceActualPath p; actualPath] else serviceActual,
         if inTenancy && negb (cfg_Tenancy c) then r_tenancyResource p else r_tenancyResource R)
    end in
  {| r_config := c; resourceType := resourceType R; pathPrototype := pathPrototype; actualPath := actualPath;
     fullPathPrototype := fullPrototype; fullActualPath := fullActual; servicePathPrototype := servicePrototype;
     serviceActualPath := serviceActual; r_parent := r_parent R; r_children := r_children R;
     r_operations := r_operations R; r_getter := r_getter R; r_inTenancy := inTenancy;
     r_tenancyResource := tenancyResource |}.
Definition rebuilt (h : Heap) (r : ref) : ResourceBase :=
  rebuild_node (IsServicePart h r) (node h <$> Parent h r) (node h r).

Fixpoint rebuild (n : nat) (r : ref) (h : Heap) : Heap :=
  match n with
  | 0 => h
  | S n => foldl (fun h child => rebuild n child h) (<[r := rebuilt h r]> h) (Children h r)
  end.
Definition RebuildPaths (r : ref) (h : Heap) : Heap := rebuild (fuel h) r h.

(** The resource that [Init] makes of a new one. *)
Definition init_resource (self : ref) (resourceType : string) (config : ResourceConfig) : ResourceBase :=
  {| r_config := config; resourceType := resourceType; pathPrototype := ""; actualPath := ""; fullPathPrototype := "";
     fullActualPath := ""; servicePathPrototype := ""; serviceActualPath := ""; r_parent := None; r_children := [];
     r_operations := []; r_getter := None; r_inTenancy := cfg_Tenancy config;
     r_tenancyResource := if cfg_Tenancy config then Some self else None |}.
Definition NewResource (resourceType : string) (config : list ResourceConfig) : M Heap ref := fun h =>
  let r := length h in
  (r, RebuildPaths r (h ++ [init_resource r resourceType (OptionalArg no_config config)])).

Definition alter_config (f : ResourceConfig -> ResourceConfig) (r : ref) (h : Heap) : Heap :=
  <[r := set_config (f (r_config (node h r))) (node h r)]> h.

Definition SetHost (r : ref) (val : string) (h : Heap) : Heap := alter_config (set_cfg_Host val) r h.
Definition SetHasId (r : ref) (val : bool) (h : Heap) : Heap := RebuildPaths r (alter_config (set_cfg_HasId val) r h).
Definition SetId (r : ref) (val : string) (rebuild : list bool) (h : Heap) : Heap :=
  let h := alter_config (set_cfg_Id val) r h in
  let h := if decide (val <> "") then SetHasId r true h else h in
  if OptionalArg true rebuild then RebuildPaths r h else h.
Definition SetSetvice (r : ref) (val : bool) (h : Heap) : Heap := RebuildPaths r (alter_config (set_cfg_Service val) r h).

Definition SetParent (r : ref) (parent : option ref) (rebuild : list bool) (h : Heap) : Heap :=
  let h := <[r := set_links parent (Children h r) (node h r)]> h in
  if OptionalArg true rebuild then RebuildPaths r h else h.
Definition AddChild (r child : ref) (rebuild : list bool) (h : Heap) : Heap :=
  let h := <[r := set_links (Parent h r) (Children h r ++ [child]) (node h r)]> h in
  SetParent child (Some r) rebuild h.
Definition AddChildren (r : ref) (children : list ref) (h : Heap) : Heap :=
  foldl (fun h child => AddChild r child [] h) h children.

(** *** Walks along the parents *)

Fixpoint host (n : nat) (h : Heap) (r : ref) : string :=
  match n with
  | 0 => ""
  | S n =>
      match Parent h r with
      | Some p => if decide (cfg_Host (r_config (node h r)) = "") then host n h p else cfg_Host (r_config (node h r))
      | None => cfg_Host (r_config (node h r))
      end
  end.
Definition Host (h : Heap) (r : ref) : string := host (fuel h) h r.

Fixpoint service_resource (n : nat) (h : Heap) (r : ref) : option ref :=
  match n with
  | 0 => None
  | S n =>
      if IsService h r then Some r
      else match Parent h r with Some p => service_resource n h p | None => None end
  end.
Definition ServiceResource (h : Heap) (r : ref) : option ref := service_resource (fuel h) h r.

(** The loop [for parent := r.Parent(); parent != nil; parent = parent.Parent()]. *)
Fixpoint parents (n : nat) (h : Heap) (r : ref) : list ref :=
  match n with
  | 0 => []
  | S n => match Parent h r with Some p => p :: parents n h p | None => [] end
  end.
Definition Parents (h : Heap) (r : ref) : list ref := parents (fuel h) h r.

Definition Chain (h : Heap) (r : ref) : list ref := foldl (fun chain parent => parent :: chain) [] (Parents h r).

Definition ChainResourceId (h : Heap) (r : ref) (resourceType : string) : string :=
  if decide (Type_ h r = resourceType) then Id h r
  else match List.find (fun p => bool_decide (Type_ h p = resourceType)) (Parents h r) with
       | Some p => Id h p
       | None => ""
       end.
Definition ChainHasResourceType (h : Heap) (r : ref) (resourceType : string) : bool :=
  existsb (fun p => bool_decide (Type_ h p = resourceType)) (r :: Parents h r).

Fixpoint build_path (n : nat) (ids : gmap string string) (service : bool) (h : Heap) (r : ref) : string :=
  match n with
  | 0 => ""
  | S n =>
      if service && negb (IsServicePart h r) then ""
      else
        let path :=
          if HasId h r then match ids !! Type_ h r with Some id => ConcatStrings ["/"; id] | None => "/" end
          else ConcatStrings ["/"; Type_ h r] in
        match Parent h r with
        | Some p =>
            let parentPath := build_path n ids service h p in
            if decide (parentPath <> "") then ConcatStrings [parentPath; path] else path
        | None => path
        end
  end.
Definition BuildActualPath (ids : gmap string string) (service : list bool) (h : Heap) (r : ref) : string :=
  build_path (fuel h) ids (OptionalArg false service) h r.

(** The walk up of [FillActualPaths] and [ResetIds]; the top resource rebuilds the paths. *)
Fixpoint walk_up (n : nat) (f : ref -> Heap -> Heap) (r : ref) (h : Heap) : Heap :=
  match n with
  | 0 => h
  | S n =>
      let h := f r h in
      match Parent h r with Some p => walk_up n f p h | None => RebuildPaths r h end
  end.
Definition fill_id (ids : gmap string string) (r : ref) (h : Heap) : Heap :=
  if HasId h r then match ids !! Type_ h r with Some id => SetId r id [false] h | None => h end else h.
Definition FillActualPaths (ids : gmap string string) (r : ref) (h : Heap) : Heap := walk_up (fuel h) (fill_id ids) r h.
Definition reset_id (r : ref) (h : Heap) : Heap := if HasId h r then SetId r "" [false] h else h.
Definition ResetIds (r : ref) (h : Heap) : Heap := walk_up (fuel h) reset_id r h.

(** [strings.ReplaceAll] of a text that is not empty. *)
Fixpoint replace_all (n : nat) (s old new : string) : string :=
  match n, s with
  | S n, String c rest =>
      if String.prefix old s then new +:+ replace_all n (str_drop (String.length old) s) old new
      else String c (replace_all n rest old new)
  | _, _ => s
  end.
Definition ReplaceAll (s old new : string) : string := replace_all (S (String.length s)) s old new.

(** [None] stands for the panic. *)
Definition FullActualTenancyPath (h : Heap) (r : ref) (tenancyId : string) : option string :=
  if negb (IsInTenancy h r) then Some (FullActualPath h r)
  else match TenancyResourceInPath h r with
       | None => None
       | Some t => Some (ReplaceAll (FullActualPath h r) (Type_ h t) tenancyId)
       end.

(** *** Operations *)

Section Operations.
Context {S : Type} `{Lh : !Lens S Heap, Lo : !Lens S (list OperationBase)}.

Definition NewOperation (name : string) (access : AccessType) (testOnly : list bool) : M S ref :=
  zoom (A := list OperationBase) (fun l =>
    (length l, l ++ [{| o_name := name; o_resource := None; accessType := access; testOnly := OptionalArg false testOnly |}])).

(** [operation.SetResource] *)
Definition SetResource (resource operation : ref) (l : list OperationBase) : list OperationBase :=
  let o := op_node l operation in
  <[operation := {| o_name := o_name o; o_resource := Some resource; accessType := accessType o; testOnly := testOnly o |}]> l.

Definition AddOperation (r operation : ref) (getter : list bool) : M S unit :=
  zoom (modify (fun h : Heap =>
    <[r := set_operations (r_operations (node h r) ++ [operation])
             (if OptionalArg false getter then Some operation else r_getter (node h r)) (node h r)]> h)) ;;
  zoom (modify (SetResource r operation)).
Fixpoint AddOperations (r : ref) (operations : list ref) : M S unit :=
  match operations with
  | [] => ret tt
  | op :: rest => AddOperation r op [] ;; AddOperations r rest
  end.

(** The loops of [RemoveOperations] and [RemoveOperation], which keep the other operations in place. *)
Definition keep_operations (r : ref) (keep : OperationBase -> bool) : M S unit :=
  let* l := zoom (gets (fun l : list OperationBase => l)) in
  zoom (modify (fun h : Heap =>
    <[r := set_operations (List.filter (fun o => keep (op_node l o)) (r_operations (node h r))) (r_getter (node h r)) (node h r)]> h)).
Definition RemoveOperations (r : ref) (access : AccessType) : M S unit :=
  keep_operations r (fun o => negb (bool_decide (accessType o = access))).
Definition RemoveOperation (r : ref) (name : string) : M S unit :=
  keep_operations r (fun o => negb (bool_decide (o_name o = name))).
Definition ReplaceOperation (r op : ref) : M S unit :=
  let* l := zoom (gets (fun l : list OperationBase => l)) in
  RemoveOperations r (accessType (op_node l op)) ;;
  AddOperation r op [].

(** A loop that ends with the first error. *)
Fixpoint until_error {A E} (f : A -> M S (option E)) (l : list A) : M S (option E) :=
  match l with
  | [] => ret None
  | x :: rest => let* err := f x in match err with Some e => ret (Some e) | None => until_error f rest end
  end.

Fixpoint each_operation {E} (n : nat) (handler : ref -> M S (option E)) (recursive : bool) (r : ref) : M S (option E) :=
  match n with
  | 0 => ret None
  | Datatypes.S n =>
      let* h := zoom (gets (fun h : Heap => h)) in
      let* err := until_error handler (r_operations (node h r)) in
      match err with
      | Some e => ret (Some e)
      | None =>
          if recursive then
            let* h := zoom (gets (fun h : Heap => h)) in
            until_error (each_operation n handler true) (Children h r)
          else ret None
      end
  end.
Definition EachOperation {E} (handler : ref -> M S (option E)) (recursive : list bool) (r : ref) : M S (option E) :=
  let* h := zoom (gets (fun h : Heap => h)) in
  each_operation (fuel h) handler (OptionalArg true recursive) r.

(** *** Copies *)

(** A new resource of the type and the configuration of another. *)
Definition copy_resource (r : ref) : M S ref :=
  let* h := zoom (gets (fun h : Heap => h)) in
  let* resource := zoom (NewResource (Type_ h r) [r_config (node h r)]) in
  (if HasId h r then zoom (modify (SetId resource (Id h r) [])) else ret tt) ;;
  ret resource.

(** The handler of [Clone]. *)
Definition clone_operation (resource operation : ref) : M S (option unit) :=
  let* l := zoom (gets (fun l : list OperationBase => l)) in
  let o := op_node l operation in
  let* op := NewOperation (o_name o) (accessType o) [testOnly o] in
  AddOperation resource op [] ;;
  ret None.

Definition Clone (withOperations : bool) (r : ref) : M S ref :=
  let* resource := copy_resource r in
  (if withOperations then EachOperation (clone_operation resource) [] r ;; ret tt else ret tt) ;;
  ret resource.

(** The loop of [CloneChain]: the clones of the parents, each the parent of the one before. *)
Fixpoint clone_parents (withOperations : bool) (ps : list ref) (topResource : ref) : M S ref :=
  match ps with
  | [] => ret topResource
  | parent :: rest =>
      let* parentClone := Clone withOperations parent in
      zoom (modify (AddChild parentClone topResource [false])) ;;
      clone_parents withOperations rest parentClone
  end.
Definition CloneChain (withOperations : bool) (r : ref) : M S ref :=
  let* h := zoom (gets (fun h : Heap => h)) in
  let* resource := copy_resource r in
  let* topResource := clone_parents withOperations (Parents h r) resource in
  zoom (modify (RebuildPaths topResource)) ;;
  ret resource.

(** *** Resources of common shapes (resource.go, common_operations.go) *)

Definition NamedResource (resourceType : string) : M S ref :=
  let* r := zoom (NewResource resourceType [set_cfg_HasId true no_config]) in
  let* group := zoom (NewResource resourceType []) in
  zoom (modify (AddChild group r [])) ;;
  ret r.
(** The collection and the object of a service, with its name. *)
Definition PrepareCollectionAndNameResource (typeName : string) : M S (string * option ref * ref) :=
  let* objectResource := NamedResource typeName in
  let* h := zoom (gets (fun h : Heap => h)) in
  ret (ConcatStrings [typeName; "s"], Parent h objectResource, objectResource).
Definition AddChildResource (resource : ref) (childName : string) : M S ref :=
  let* child := zoom (NewResource childName []) in
  zoom (modify (AddChild resource child [])) ;;
  ret child.

Definition OperationAsResource (sampleResource : ref) (resourceName resourceId : string) (op : ref) : M S ref :=
  let* opResource := zoom (NewResource resourceName []) in
  AddOperation opResource op [] ;;
  let* namedResource := CloneChain false sampleResource in
  zoom (modify (SetId namedResource resourceId [])) ;;
  zoom (modify (AddChild namedResource opResource [])) ;;
  ret op.
Definition NamedResourceOperation (sampleResource : ref) (resourceId : string) (op : ref) : M S ref :=
  let* namedResource := CloneChain false sampleResource in
  zoom (modify (SetId namedResource resourceId [])) ;;
  AddOperation namedResource op [] ;;
  ret op.
Definition NamedSubresource (sampleResource : ref) (resourceId subResourceName subResourceId : string) : M S ref :=
  let* subResource := zoom (NewResource subResourceName []) in
  zoom (modify (SetId subResource subResourceId [])) ;;
  let* namedResource := CloneChain false sampleResource in
  zoom (modify (SetId namedResource resourceId [])) ;;
  zoom (modify (AddChild namedResource subResource [])) ;;
  ret subResource.
Definition NamedSubresourceOperation (sampleResource : ref) (resourceId subResourceName subResourceId : string) (op : ref) : M S ref :=
  let* r := NamedSubresource sampleResource resourceId subResourceName subResourceId in
  AddOperation r op [] ;;
  ret op.
Definition Subresource (sampleResource : ref) (resourceId subResourceName : string) : M S ref :=
  let* subResource := zoom (NewResource subResourceName []) in
  let* namedResource := CloneChain false sampleResource in
  zoom (modify (SetId namedResource resourceId [])) ;;
  zoom (modify (AddChild namedResource subResource [])) ;;
  ret subResource.
Definition SubresourceOperation (sampleResource : ref) (resourceId subResourceName : string) (op : ref) : M S ref :=
  let* subResource := Subresource sampleResource resourceId subResourceName in
  AddOperation subResource op [] ;;
  ret op.

(** The operations of services, by what they do. *)
Definition Post_ (name : string) : M S ref := NewOperation name Post [].
Definition Create_ (name : string) : M S ref := NewOperation name Create [].
Definition Add_ (name : string) : M S ref := NewOperation name Create [].
Definition Find_ (name : string) : M S ref := NewOperation name Get [].
Definition Get_ (name : string) : M S ref := NewOperation name Get [].
Definition Read_ (name : string) : M S ref := NewOperation name Get [].
Definition Exists_ (name : string) : M S ref := NewOperation name Get [].
Definition Check_ (name : string) : M S ref := NewOperation name Get [].
Definition List_ (name : string) : M S ref := NewOperation name Read [].
Definition Delete_ (name : string) : M S ref := NewOperation name Access.Delete [].
Definition Update_ (name : string) : M S ref := NewOperation name Put [].
Definition UpdatePartial_ (name : string) : M S ref := NewOperation name Patch [].
Definition Bind_ (name : string) : M S ref := NewOperation name Create [].
Definition Unbind_ (name : string) : M S ref := NewOperation name Access.Delete [].
End Operations.
End Resource.
