(* ===== verification/ApiPaths.v ===== *)
(** * pkg/api: the paths of resources

    However a tree of resources was built and changed, the paths a resource keeps are those of
    the chain of its parents.  [tree] is the shape the operations keep, [ok] says of a resource
    that rebuilding its own fields changes nothing. *)
From S2P Require Import Prelude Utils Access ApiResource.
From stdpp Require Import relations sorting.
Open Scope go_scope.
Import Resource.

(** ** Walks that end *)

(** Every walk from [x] along [R] has less than [n] steps. *)
Fixpoint fits (R : relation ref) (n : nat) (x : ref) : Prop :=
  match n with 0 => False | S n => forall y, R y x -> fits R n y end.

Lemma NoDup_bounded (l : list nat) k : NoDup l -> (forall y, y ∈ l -> y < k) -> length l <= k.
Proof.
  intros Hn Hk. rewrite <- (length_seq k 0). apply submseteq_length, NoDup_submseteq; [done|].
  intros y Hy. apply elem_of_seq. specialize (Hk y Hy). lia.
Qed.

Lemma fits_path (R : relation ref) k : (forall a b, R a b -> a < k) -> (forall x, ~ tc R x x) ->
  forall n l x, n + length l = S k -> NoDup l -> (forall y, y ∈ l -> y < k /\ (x = y \/ tc R x y)) -> fits R n x.
Proof.
  intros Hk Hacyc. induction n as [|n IH]; intros l x Hl Hnd Hin.
  - assert (length l <= k) by (apply NoDup_bounded; [done|]; intros; by apply Hin). lia.
  - intros y Hy. apply (IH (y :: l)); [cbn; lia| |].
    + apply NoDup_cons. split; [|done]. intros Hyl. apply (Hacyc y).
      destruct (Hin y Hyl) as [_ [->|Ht]]; [by apply tc_once|]. by eapply tc_l.
    + intros z [->|Hz]%elem_of_cons; [eauto|]. destruct (Hin z Hz) as [? Hor]. split; [done|]. right.
      destruct Hor as [->|?]; [by apply tc_once|by eapply tc_l].
Qed.
Lemma fits_acyclic (R : relation ref) k x :
  (forall a b, R a b -> a < k) -> (forall y, ~ tc R y y) -> fits R (S k) x.
Proof. intros Hk Ha. apply (fits_path R k Hk Ha _ []); [done|constructor|]. by intros y ?%not_elem_of_nil. Qed.

Lemma fits_impl (R R' : relation ref) n x : (forall a b, R' a b -> R a b) -> fits R n x -> fits R' n x.
Proof. intros HR. revert x. induction n as [|n IH]; [done|]. intros x H y Hy. by apply IH, H, HR. Qed.

Lemma tc_mono (R R' : relation ref) a b : (forall x y, R x y -> R' x y) -> tc R a b -> tc R' a b.
Proof. intros HR. induction 1; [by apply tc_once, HR|]. eapply tc_l; [by apply HR|done]. Qed.

(** Adding one edge to an acyclic relation. *)
Lemma tc_add_edge (R R' : relation ref) c p a b :
  (forall x y, R' x y -> R x y \/ (x = c /\ y = p)) -> ~ rtc R p c ->
  tc R' a b -> tc R a b \/ (rtc R a c /\ rtc R p b).
Proof.
  intros HR Hnot. induction 1 as [x y Hxy|x y z Hxy _ IH].
  - destruct (HR _ _ Hxy) as [?|[-> ->]]; [left; by apply tc_once|right; by split].
  - destruct (HR _ _ Hxy) as [H|[-> ->]].
    + destruct IH as [IH|[IH1 IH2]]; [left; by eapply tc_l|right]. split; [by eapply rtc_l|done].
    + right. split; [done|]. destruct IH as [IH|[IH _]]; [by apply tc_rtc|done].
Qed.
Lemma acyclic_add_edge (R R' : relation ref) c p :
  (forall x y, R' x y -> R x y \/ (x = c /\ y = p)) -> ~ rtc R p c -> (forall x, ~ tc R x x) -> forall x, ~ tc R' x x.
Proof.
  intros HR Hnot Ha x Hx. destruct (tc_add_edge _ _ _ _ _ _ HR Hnot Hx) as [H|[H1 H2]]; [by apply (Ha x)|].
  apply Hnot. by etrans.
Qed.

(** ** The shape of a heap *)

Definition shape (R : ResourceBase) := (r_config R, resourceType R, r_parent R, r_children R).
Definition same_shape (h h' : Heap) : Prop := shape <$> h = shape <$> h'.

Definition child_of (h : Heap) (c p : ref) : Prop := c ∈ Children h p.
Definition parent_of (h : Heap) (p c : ref) : Prop := Parent h c = Some p.

Record tree (h : Heap) : Prop := {
  tree_up r p : Parent h r = Some p -> r ∈ Children h p;
  tree_dom p c : c ∈ Children h p -> c < length h;
  tree_acyclic x : ~ tc (child_of h) x x
}.

(** [x] is [r] or below it. *)
Definition below (h : Heap) (x r : ref) : Prop := rtc (fun a b => Parent h a = Some b) x r.

Lemma node_out h r : length h <= r -> node h r = zero_resource.
Proof. intros H. unfold node. by rewrite lookup_ge_None_2. Qed.
Lemma node_insert R h r x : node (<[r := R]> h) x = if decide (x = r /\ r < length h) then R else node h x.
Proof.
  unfold node. destruct (decide (x = r /\ r < length h)) as [[-> Hr]|Hn]; [by rewrite list_lookup_insert_eq|].
  destruct (decide (x = r)) as [->|Hx]; [|by rewrite list_lookup_insert_ne].
  rewrite !(lookup_ge_None_2) by (rewrite ?length_insert; lia). done.
Qed.
Lemma node_insert_eq R h r : r < length h -> node (<[r := R]> h) r = R.
Proof. intros Hr. rewrite node_insert. by rewrite decide_True. Qed.
Lemma node_insert_ne R h r x : x <> r -> node (<[r := R]> h) x = node h x.
Proof. intros Hr. rewrite node_insert. rewrite decide_False; [done|]. by intros [? _]. Qed.
Lemma node_app_l h l x : x < length h -> node (h ++ l) x = node h x.
Proof. intros Hx. unfold node. by rewrite lookup_app_l. Qed.

Lemma same_shape_node h h' r : same_shape h h' -> shape (node h r) = shape (node h' r).
Proof.
  intros E. assert (El : (shape <$> h) !! r = (shape <$> h') !! r) by (by rewrite E).
  rewrite !list_lookup_fmap in El. unfold node. destruct (h !! r), (h' !! r); cbn in *; congruence.
Qed.
Lemma same_shape_length h h' : same_shape h h' -> length h = length h'.
Proof. intros E. by rewrite <- (length_fmap shape h), E, length_fmap. Qed.
Lemma same_shape_refl h : same_shape h h. Proof. done. Qed.
Lemma same_shape_trans h1 h2 h3 : same_shape h1 h2 -> same_shape h2 h3 -> same_shape h1 h3.
Proof. unfold same_shape. congruence. Qed.
Lemma same_shape_insert R h r : shape R = shape (node h r) -> same_shape h (<[r := R]> h).
Proof.
  intros E. unfold same_shape. apply list_eq. intros i. rewrite !list_lookup_fmap.
  destruct (decide (i = r)) as [->|Hi]; [|by rewrite list_lookup_insert_ne].
  destruct (decide (r < length h)) as [Hr|Hr].
  - rewrite list_lookup_insert_eq by done. cbn. rewrite E. unfold node.
    by destruct (lookup_lt_is_Some_2 h r Hr) as [x ->].
  - by rewrite !lookup_ge_None_2 by (rewrite ?length_insert; lia).
Qed.

Section SameShape.
Context {h h' : Heap} (E : same_shape h h').
Lemma same_Parent r : Parent h r = Parent h' r.
Proof. pose proof (same_shape_node h h' r E) as H. unfold Parent. unfold shape in H. congruence. Qed.
Lemma same_Children r : Children h r = Children h' r.
Proof. pose proof (same_shape_node h h' r E) as H. unfold Children. unfold shape in H. congruence. Qed.
Lemma same_config r : r_config (node h r) = r_config (node h' r).
Proof. pose proof (same_shape_node h h' r E) as H. unfold shape in H. congruence. Qed.
Lemma same_Type r : Type_ h r = Type_ h' r.
Proof. pose proof (same_shape_node h h' r E) as H. unfold Type_. unfold shape in H. congruence. Qed.

Lemma same_is_service_part n r : is_service_part n h r = is_service_part n h' r.
Proof.
  revert r. induction n as [|n IH]; [done|]. intros r. cbn. unfold IsService. rewrite same_config, same_Parent.
  destruct (cfg_Service _); [done|]. destruct (Parent h' r); [apply IH|done].
Qed.
Lemma same_IsServicePart r : IsServicePart h r = IsServicePart h' r.
Proof. unfold IsServicePart, fuel. rewrite (same_shape_length h h' E). apply same_is_service_part. Qed.
Lemma same_parents n r : parents n h r = parents n h' r.
Proof.
  revert r. induction n as [|n IH]; [done|]. intros r. cbn. rewrite same_Parent. destruct (Parent h' r); [|done].
  by rewrite IH.
Qed.
Lemma same_Parents r : Parents h r = Parents h' r.
Proof. unfold Parents, fuel. rewrite (same_shape_length h h' E). apply same_parents. Qed.
Lemma same_below x r : below h x r <-> below h' x r.
Proof. unfold below. split; apply rtc_subrel; intros a b; by rewrite same_Parent. Qed.
Lemma tree_same_shape : tree h -> tree h'.
Proof.
  intros [H1 H2 H3]. split.
  - intros r p. rewrite <- same_Parent, <- same_Children. apply H1.
  - intros p c. rewrite <- same_Children, <- (same_shape_length h h' E). apply H2.
  - intros x Hx. apply (H3 x). eapply tc_mono; [|exact Hx]. intros a b. unfold child_of. by rewrite same_Children.
Qed.
End SameShape.

(** ** Rebuilding *)

(** The own fields of a resource are as [RebuildPaths] sets them. *)
Definition ok (h : Heap) (x : ref) : Prop := rebuilt h x = node h x.

Lemma shape_rebuilt h r : shape (rebuilt h r) = shape (node h r).
Proof. unfold rebuilt, rebuild_node. by destruct (_ <$> _). Qed.

Section Tree.
Context {h : Heap} (Ht : tree h).

Lemma parent_dom r p : Parent h r = Some p -> p < length h /\ r < length h.
Proof.
  intros E. pose proof (tree_up h Ht _ _ E) as Hin. split; [|by eapply tree_dom].
  destruct (decide (p < length h)) as [?|Hp]; [done|]. unfold Children in Hin. rewrite node_out in Hin by lia.
  by apply not_elem_of_nil in Hin.
Qed.
Lemma fits_children r : fits (child_of h) (fuel h) r.
Proof. apply fits_acyclic; [|apply Ht]. intros a b. apply (tree_dom h Ht). Qed.
Lemma tc_parent_of a b : tc (parent_of h) a b -> tc (child_of h) b a.
Proof.
  induction 1 as [x y Hxy|x y z Hxy _ IH]; [by apply tc_once, (tree_up h Ht)|].
  eapply tc_r; [exact IH|]. by apply (tree_up h Ht).
Qed.
Lemma fits_parents r : fits (parent_of h) (fuel h) r.
Proof.
  apply fits_acyclic; [intros a b E; by apply (parent_dom b a)|]. intros x Hx. by apply (tree_acyclic h Ht x), tc_parent_of.
Qed.
Lemma parent_ne r p : Parent h r = Some p -> p <> r.
Proof. intros E ->. apply (tree_acyclic h Ht r), tc_once. by apply (tree_up h Ht). Qed.
Lemma below_child_of x r : below h x r -> rtc (child_of h) x r.
Proof. apply rtc_subrel. intros a b. apply (tree_up h Ht). Qed.

(** Induction along the parents. *)
Lemma parent_ind (P : ref -> Prop) : (forall r, (forall p, Parent h r = Some p -> P p) -> P r) -> forall r, P r.
Proof.
  intros HP r. pose proof (fits_parents r) as Hf. revert Hf. generalize (fuel h) as n. intros n. revert r.
  induction n as [|n IH]; [done|]. intros r Hf. apply HP. intros p Hp. by apply IH, Hf.
Qed.

Lemma below_or r x : below h x r \/ ~ below h x r.
Proof.
  revert x. apply parent_ind. intros x IH. destruct (decide (x = r)) as [->|Hne]; [left; apply rtc_refl|].
  destruct (Parent h x) as [p|] eqn:Ep.
  - destruct (IH p eq_refl) as [H|H]; [left; by eapply rtc_l|right]. intros Hb. apply H.
    apply rtc_inv in Hb as [?|(y & Hy & Hb)]; [done|]. rewrite Ep in Hy. by injection Hy as ->.
  - right. intros Hb. apply rtc_inv in Hb as [?|(y & Hy & Hb)]; [done|]. by rewrite Ep in Hy.
Qed.
End Tree.

(** Two heaps that agree on what the own fields of a resource depend on. *)
Lemma ok_agree h h' x :
  node h x = node h' x -> IsServicePart h x = IsServicePart h' x ->
  (forall p, Parent h x = Some p -> node h p = node h' p) -> ok h x -> ok h' x.
Proof.
  intros En Es Ep Hok. unfold ok, rebuilt in *. rewrite <- En, <- Es.
  replace (node h' <$> Parent h' x) with (node h <$> Parent h x); [done|].
  unfold Parent in *. rewrite <- En. destruct (r_parent (node h x)) as [p|]; [|done]. cbn. by rewrite (Ep p).
Qed.

Lemma rebuild_node_idem b p R : rebuild_node b p (rebuild_node b p R) = rebuild_node b p R.
Proof.
  unfold rebuild_node, isInTenancy. destruct p as [p|]; cbn.
  - destruct (cfg_Tenancy (r_config R)); cbn; [|destruct (r_inTenancy p); cbn];
      destruct (cfg_Service (r_config R)), b; reflexivity.
  - destruct (cfg_Service (r_config R)); reflexivity.
Qed.

Lemma rebuild_self h r : tree h -> r < length h ->
  let h1 := <[r := rebuilt h r]> h in
  same_shape h h1 /\ ok h1 r /\ (forall x, ok h x -> Parent h x <> Some r -> ok h1 x).
Proof.
  intros Ht Hr h1. assert (Es : same_shape h h1) by apply same_shape_insert, shape_rebuilt.
  assert (Hself : ok h1 r).
  { unfold ok. unfold rebuilt. rewrite <- (same_IsServicePart Es), <- (same_Parent Es).
    replace (node h1 <$> Parent h r) with (node h <$> Parent h r).
    - unfold h1. rewrite node_insert_eq by done. apply rebuild_node_idem.
    - destruct (Parent h r) as [p|] eqn:Ep; [|done]. cbn. unfold h1. rewrite node_insert_ne; [done|].
      by apply (parent_ne Ht). }
  split; [done|]. split; [done|]. intros x Hx Hp. destruct (decide (x = r)) as [->|Hne]; [done|].
  apply (ok_agree h); [|by apply same_IsServicePart| |done].
  - unfold h1. by rewrite node_insert_ne.
  - intros p Ep. unfold h1. rewrite node_insert_ne; [done|]. by intros ->.
Qed.

(** What a rebuild of [r] does: the resources at [r] and below are as rebuilding makes them, and
    no other resource stops being so. *)
Lemma rebuild_ok n r h :
  tree h -> r < length h -> fits (child_of h) n r ->
  same_shape h (rebuild n r h) /\
  (forall x, ok h x \/ below h x r -> ok (rebuild n r h) x).
Proof.
  revert r h. induction n as [|n IH]; [done|]. intros r h Ht Hr Hf. cbn [rebuild].
  destruct (rebuild_self h r Ht Hr) as (Es1 & Hself & Hothers). set (h1 := <[r := rebuilt h r]> h) in *.
  assert (Hloop : forall cs h0, same_shape h h0 -> (forall c, c ∈ cs -> c ∈ Children h r) ->
    same_shape h (foldl (fun h child => rebuild n child h) h0 cs) /\
    (forall x, ok h0 x \/ (exists c, c ∈ cs /\ below h x c) -> ok (foldl (fun h child => rebuild n child h) h0 cs) x)).
  { induction cs as [|c cs IHcs]; intros h0 Es Hcs; cbn [foldl].
    - split; [done|]. intros x [?|(c & Hc & _)]; [done|]. by apply not_elem_of_nil in Hc.
    - assert (Hc : c ∈ Children h r) by (apply Hcs; by left).
      destruct (IH c h0) as [Es0 Hok0].
      + by apply (tree_same_shape Es).
      + rewrite <- (same_shape_length _ _ Es). by eapply tree_dom.
      + eapply fits_impl; [|by apply Hf]. intros a b. unfold child_of. by rewrite (same_Children Es).
      + destruct (IHcs (rebuild n c h0)) as [Es' Hok']; [by eapply same_shape_trans|intros; apply Hcs; by right|].
        split; [done|]. intros x [Hx|(c' & [->|Hc']%elem_of_cons & Hb)]; apply Hok'; [left; auto| |eauto].
        left. apply Hok0. right. by apply (same_below Es). }
  destruct (Hloop (Children h r) h1 Es1 (fun _ H => H)) as [Es Hok]. split; [done|]. intros x Hx. apply Hok.
  destruct (decide (x = r)) as [->|Hne]; [by left|].
  assert (Hbelow : below h x r -> exists c, c ∈ Children h r /\ below h x c).
  { intros Hb. apply rtc_inv_r in Hb as [?|(c & Hb & Hc)]; [congruence|]. exists c. split; [by apply (tree_up h Ht)|done]. }
  destruct Hx as [Hx|Hx]; [|auto]. destruct (decide (Parent h x = Some r)) as [Ep|Ep]; [|left; auto].
  right. apply Hbelow. by apply rtc_once.
Qed.

Lemma RebuildPaths_ok r h :
  tree h -> r < length h ->
  same_shape h (RebuildPaths r h) /\ (forall x, ok h x \/ below h x r -> ok (RebuildPaths r h) x).
Proof. intros Ht Hr. apply rebuild_ok; [done|done|]. by apply fits_children. Qed.

(** A rebuild changes no resource outside a set that is closed under children. *)
Lemma rebuild_frame (P : ref -> Prop) n r h :
  (forall c p, P p -> child_of h c p -> P c) -> P r ->
  same_shape h (rebuild n r h) /\ forall x, ~ P x -> node (rebuild n r h) x = node h x.
Proof.
  revert r h. induction n as [|n IH]; [done|]. intros r h HP Hr. cbn [rebuild].
  set (h1 := <[r := rebuilt h r]> h). assert (Es1 : same_shape h h1) by apply same_shape_insert, shape_rebuilt.
  assert (Hloop : forall cs h0, same_shape h h0 -> (forall c, c ∈ cs -> P c) ->
    same_shape h (foldl (fun h child => rebuild n child h) h0 cs) /\
    (forall x, ~ P x -> node (foldl (fun h child => rebuild n child h) h0 cs) x = node h0 x)).
  { induction cs as [|c cs IHcs]; intros h0 Es Hcs; cbn [foldl]; [done|].
    destruct (IH c h0) as [Es0 Hn0].
    - intros a b. unfold child_of. rewrite <- (same_Children Es). apply HP.
    - apply Hcs. by left.
    - destruct (IHcs (rebuild n c h0)) as [Es' Hn']; [by eapply same_shape_trans|intros; apply Hcs; by right|].
      split; [done|]. intros x Hx. rewrite Hn' by done. by apply Hn0. }
  destruct (Hloop (Children h r) h1 Es1) as [Es Hn]; [intros c Hc; by eapply HP|].
  split; [done|]. intros x Hx. rewrite Hn by done. unfold h1. rewrite node_insert_ne; [done|]. by intros ->.
Qed.

(** ** The invariant *)

(** A resource of a tenancy is its own tenancy resource. *)
Definition own_tenancy (R : ResourceBase) (r : ref) : Prop :=
  cfg_Tenancy (r_config R) = true -> r_tenancyResource R = Some r.

Record inv (h : Heap) : Prop := {
  inv_tree : tree h;
  inv_ok x : x < length h -> ok h x;
  inv_tenancy x : own_tenancy (node h x) x
}.

Lemma own_tenancy_rebuilt h r : own_tenancy (node h r) r -> own_tenancy (rebuilt h r) r.
Proof.
  unfold own_tenancy, rebuilt, rebuild_node. intros H. destruct (_ <$> _); cbn; [|done].
  intros Ht. rewrite Ht, andb_false_r. by apply H.
Qed.
Lemma rebuild_own_tenancy n r h :
  (forall x, own_tenancy (node h x) x) -> forall x, own_tenancy (node (rebuild n r h) x) x.
Proof.
  revert r h. induction n as [|n IH]; [done|]. intros r h Hown. cbn [rebuild].
  assert (Hown1 : forall x, own_tenancy (node (<[r := rebuilt h r]> h) x) x).
  { intros x. rewrite node_insert. case_decide as Hx; [|done]. destruct Hx as [-> _]. by apply own_tenancy_rebuilt. }
  revert Hown1. generalize (<[r := rebuilt h r]> h) as h0. generalize (Children h r) as cs.
  induction cs as [|c cs IHcs]; intros h0 H0; cbn; [done|]. by apply IHcs, IH.
Qed.

(** The end of every change: all is well except at [r] and below, then [r] is rebuilt. *)
Lemma RebuildPaths_inv r h :
  tree h -> r < length h -> (forall x, own_tenancy (node h x) x) ->
  (forall x, x < length h -> ~ below h x r -> ok h x) -> inv (RebuildPaths r h) /\ same_shape h (RebuildPaths r h).
Proof.
  intros Ht Hr Hown Hok. destruct (RebuildPaths_ok r h Ht Hr) as [Es Hall]. split; [|done]. split.
  - by apply (tree_same_shape Es).
  - intros x. rewrite <- (same_shape_length _ _ Es). intros Hx. apply Hall.
    destruct (below_or Ht r x); [by right|left; auto].
  - by apply rebuild_own_tenancy.
Qed.
Lemma RebuildPaths_inv_again r h : inv h -> r < length h -> inv (RebuildPaths r h) /\ same_shape h (RebuildPaths r h).
Proof. intros [Ht Hok Hown] Hr. apply RebuildPaths_inv; auto. Qed.

(** A change at [r] of what is not above. *)
Lemma IsServicePart_agree h h' r x :
  length h = length h' -> (forall y, y <> r -> shape (node h y) = shape (node h' y) \/
    (r_config (node h y) = r_config (node h' y) /\ Parent h y = Parent h' y)) ->
  ~ below h x r -> IsServicePart h x = IsServicePart h' x.
Proof.
  intros El Hs. unfold IsServicePart, fuel. rewrite <- El. generalize (S (length h)) as n. intros n. revert x.
  induction n as [|n IH]; [done|]. intros x Hx.
  assert (Hne : x <> r) by (intros ->; apply Hx, rtc_refl).
  assert (E : r_config (node h x) = r_config (node h' x) /\ Parent h x = Parent h' x).
  { destruct (Hs x Hne) as [E|E]; [|exact E]. unfold shape in E. unfold Parent. split; congruence. }
  destruct E as [Ec Ep]. cbn. unfold IsService. rewrite <- Ec, <- Ep. destruct (cfg_Service _); [done|].
  destruct (Parent h x) as [p|] eqn:E; [|done]. apply IH. intros Hb. apply Hx. by eapply rtc_l.
Qed.

(** A resource outside the ones below [r] does not depend on [r]. *)
Lemma ok_insert h r R x : ok h x -> ~ below h x r -> ok (<[r := R]> h) x.
Proof.
  intros Hok Hx. assert (Hne : x <> r) by (intros ->; apply Hx, rtc_refl).
  apply (ok_agree h); [by rewrite node_insert_ne| | |done].
  - apply (IsServicePart_agree _ _ r); [by rewrite length_insert| |done]. intros y Hy. left. by rewrite node_insert_ne.
  - intros p Ep. rewrite node_insert_ne; [done|]. intros ->. apply Hx. by apply rtc_once.
Qed.

Lemma tree_alter_config f r h : tree h -> tree (alter_config f r h).
Proof.
  intros [H1 H2 H3]. unfold alter_config. set (h' := <[r := _]> h).
  assert (Ep : forall x, Parent h' x = Parent h x).
  { intros x. unfold Parent, h'. rewrite node_insert. case_decide as Hx; [|done]. by destruct Hx as [-> _]. }
  assert (Ec : forall x, Children h' x = Children h x).
  { intros x. unfold Children, h'. rewrite node_insert. case_decide as Hx; [|done]. by destruct Hx as [-> _]. }
  split.
  - intros x p. rewrite Ep, Ec. apply H1.
  - intros p c. rewrite Ec. unfold h'. rewrite length_insert. apply H2.
  - intros x Hx. apply (H3 x). eapply tc_mono; [|exact Hx]. intros a b. unfold child_of. by rewrite Ec.
Qed.
Lemma alter_config_below f r h x y : below (alter_config f r h) x y <-> below h x y.
Proof.
  assert (Ep : forall x, Parent (alter_config f r h) x = Parent h x).
  { intros z. unfold Parent, alter_config. rewrite node_insert. case_decide as Hx; [|done]. by destruct Hx as [-> _]. }
  unfold below. split; apply rtc_subrel; intros a b; by rewrite Ep.
Qed.
Lemma length_alter_config f r h : length (alter_config f r h) = length h.
Proof. apply length_insert. Qed.

(** A new configuration with the same tenancy flag, then a rebuild. *)
Lemma alter_config_inv f r h :
  (forall c, cfg_Tenancy (f c) = cfg_Tenancy c) -> inv h -> r < length h ->
  inv (RebuildPaths r (alter_config f r h)) /\ same_shape (alter_config f r h) (RebuildPaths r (alter_config f r h)).
Proof.
  intros Hf [Ht Hok Hown] Hr. apply RebuildPaths_inv.
  - by apply tree_alter_config.
  - by rewrite length_alter_config.
  - intros x. unfold alter_config. rewrite node_insert. case_decide as Hx; [|done]. destruct Hx as [-> _].
    unfold own_tenancy. cbn. rewrite Hf. apply Hown.
  - intros x. rewrite length_alter_config, alter_config_below. intros Hx Hb. unfold alter_config.
    apply ok_insert; auto.
Qed.

(** ** The operations keep the invariant *)

(** What the operations that change identifiers, flags or nothing keep: the links and the types. *)
Definition same_links (h h' : Heap) : Prop :=
  length h = length h' /\
  forall x, Parent h x = Parent h' x /\ Children h x = Children h' x /\ Type_ h x = Type_ h' x.
Lemma same_links_refl h : same_links h h. Proof. done. Qed.
Lemma same_links_trans h1 h2 h3 : same_links h1 h2 -> same_links h2 h3 -> same_links h1 h3.
Proof.
  intros [E1 H1] [E2 H2]. split; [congruence|]. intros x. destruct (H1 x) as (-> & -> & ->). apply H2.
Qed.
Lemma same_shape_links h h' : same_shape h h' -> same_links h h'.
Proof.
  intros E. split; [by apply same_shape_length|]. intros x. rewrite (same_Parent E), (same_Children E), (same_Type E). done.
Qed.
Lemma alter_config_links f r h : same_links h (alter_config f r h).
Proof.
  split; [by rewrite length_alter_config|]. intros x. unfold Parent, Children, Type_, alter_config. rewrite node_insert.
  case_decide as Hx; [|done]. by destruct Hx as [-> _].
Qed.

Lemma config_step f r h :
  (forall c, cfg_Tenancy (f c) = cfg_Tenancy c) -> inv h -> r < length h ->
  inv (RebuildPaths r (alter_config f r h)) /\ same_links h (RebuildPaths r (alter_config f r h)) /\
  (forall x, r_config (node (RebuildPaths r (alter_config f r h)) x) =
     if decide (x = r) then f (r_config (node h r)) else r_config (node h x)).
Proof.
  intros Hf Hi Hr. destruct (alter_config_inv f r h Hf Hi Hr) as [Hinv Es]. split; [done|]. split.
  - eapply same_links_trans; [apply alter_config_links|by apply same_shape_links].
  - intros x. rewrite <- (same_config Es). unfold alter_config. rewrite node_insert.
    case_decide as Hx; [destruct Hx as [-> _]; by rewrite decide_True|].
    rewrite decide_False; [done|]. intros ->. by apply Hx.
Qed.

Lemma SetHasId_inv r v h : inv h -> r < length h -> inv (SetHasId r v h) /\ same_links h (SetHasId r v h).
Proof. intros Hi Hr. destruct (config_step (set_cfg_HasId v) r h (fun _ => eq_refl) Hi Hr) as (? & ? & _). done. Qed.
Lemma SetSetvice_inv r v h : inv h -> r < length h -> inv (SetSetvice r v h) /\ same_links h (SetSetvice r v h).
Proof. intros Hi Hr. destruct (config_step (set_cfg_Service v) r h (fun _ => eq_refl) Hi Hr) as (? & ? & _). done. Qed.

(** The host is not part of a path. *)
Lemma rebuild_node_parent b c p R : rebuild_node b (Some (set_config c p)) R = rebuild_node b (Some p) R.
Proof. reflexivity. Qed.
Lemma rebuild_node_host b v p R :
  rebuild_node b p (set_config (set_cfg_Host v (r_config R)) R) =
  set_config (set_cfg_Host v (r_config R)) (rebuild_node b p R).
Proof. unfold rebuild_node. by destruct p. Qed.

Lemma SetHost_inv r v h : inv h -> r < length h -> inv (SetHost r v h) /\ same_links h (SetHost r v h).
Proof.
  intros [Ht Hok Hown] Hr. unfold SetHost. set (h' := alter_config _ r h). split; [|apply alter_config_links].
  assert (Hn : forall y, node h' y = if decide (y = r) then set_config (set_cfg_Host v (r_config (node h r))) (node h r) else node h y).
  { intros y. unfold h', alter_config. rewrite node_insert. destruct (decide (y = r)) as [->|Hne].
    - by rewrite decide_True.
    - rewrite decide_False; [done|]. by intros [? _]. }
  assert (Es : forall x, IsServicePart h' x = IsServicePart h x).
  { unfold IsServicePart, fuel. replace (length h') with (length h) by (symmetry; apply length_alter_config).
    generalize (S (length h)) as n. induction n as [|n IH]; [done|]. intros x. cbn.
    unfold IsService, Parent. rewrite Hn. case_decide as Hx; [subst x|];
      cbn; (destruct (cfg_Service _); [done|]; destruct (r_parent _); [apply IH|done]). }
  split; [by apply tree_alter_config| |].
  - intros x. unfold h'. rewrite length_alter_config. fold h'. intros Hx. specialize (Hok x Hx). unfold ok, rebuilt in *.
    rewrite Es. assert (Ep : Parent h' x = Parent h x) by (symmetry; apply alter_config_links). rewrite Ep.
    assert (Epar : rebuild_node (IsServicePart h x) (node h' <$> Parent h x) (node h' x) =
                   rebuild_node (IsServicePart h x) (node h <$> Parent h x) (node h' x)).
    { destruct (Parent h x) as [p|]; [|done]. cbn [fmap option_fmap option_map]. rewrite (Hn p).
      case_decide as Hp; [subst p; apply rebuild_node_parent|done]. }
    rewrite Epar, Hn. case_decide as Hxr; [subst x|done]. by rewrite rebuild_node_host, Hok.
  - intros x. rewrite Hn. case_decide as Hx; [subst x|]; apply Hown.
Qed.

Lemma SetId_inv r v b h : inv h -> r < length h ->
  (v <> "" \/ OptionalArg true b = true) -> inv (SetId r v b h) /\ same_links h (SetId r v b h).
Proof.
  intros Hi Hr Hor. unfold SetId. set (h0 := alter_config _ r h). destruct (decide (v <> "")) as [Hv|Hv].
  - assert (E : inv (SetHasId r true h0) /\ same_links h (SetHasId r true h0)).
    { unfold SetHasId.
      assert (E : alter_config (set_cfg_HasId true) r h0 = alter_config (fun c => set_cfg_HasId true (set_cfg_Id v c)) r h).
      { unfold h0, alter_config. rewrite node_insert_eq by done. by rewrite list_insert_insert_eq. }
      rewrite E. destruct (config_step (fun c => set_cfg_HasId true (set_cfg_Id v c)) r h (fun _ => eq_refl) Hi Hr) as (? & ? & _). done. }
    destruct E as [Hi' Hl]. destruct (OptionalArg true b); [|done].
    destruct (RebuildPaths_inv_again r _ Hi') as [? Es]; [by destruct Hl as [<- _]|]. split; [done|].
    eapply same_links_trans; [exact Hl|by apply same_shape_links].
  - destruct Hor as [?|Hb]; [done|]. rewrite Hb.
    destruct (config_step (set_cfg_Id v) r h (fun _ => eq_refl) Hi Hr) as (? & ? & _). done.
Qed.

(** More fuel than enough changes nothing. *)
Lemma is_service_part_fuel h n m r : fits (parent_of h) n r -> n <= m -> is_service_part n h r = is_service_part m h r.
Proof.
  revert m r. induction n as [|n IH]; [done|]. intros [|m] r Hf Hle; [lia|]. cbn. destruct (IsService h r); [done|].
  destruct (Parent h r) as [p|] eqn:Ep; [|done]. apply IH; [by apply Hf|lia].
Qed.
Lemma parents_fuel h n m r : fits (parent_of h) n r -> n <= m -> parents n h r = parents m h r.
Proof.
  revert m r. induction n as [|n IH]; [done|]. intros [|m] r Hf Hle; [lia|]. cbn.
  destruct (Parent h r) as [p|] eqn:Ep; [|done]. f_equal. apply IH; [by apply Hf|lia].
Qed.

(** A heap with new resources behind the old ones, whose links stay among themselves. *)
Record extends (h h' : Heap) : Prop := {
  ext_length : length h <= length h';
  ext_node x : x < length h -> node h' x = node h x
}.
Lemma extends_refl h : extends h h. Proof. by split. Qed.
Lemma extends_trans h1 h2 h3 : extends h1 h2 -> extends h2 h3 -> extends h1 h3.
Proof. intros [H1 H2] [H3 H4]. split; [lia|]. intros x Hx. rewrite H4 by lia. by apply H2. Qed.

Section Extends.
Context {h h' : Heap} (Ht : tree h) (He : extends h h').
Lemma extends_Parent x : x < length h -> Parent h' x = Parent h x.
Proof. intros Hx. unfold Parent. by rewrite (ext_node _ _ He). Qed.
Lemma extends_is_service_part n x : x < length h -> is_service_part n h' x = is_service_part n h x.
Proof.
  revert x. induction n as [|n IH]; [done|]. intros x Hx. cbn. unfold IsService.
  rewrite (ext_node _ _ He), extends_Parent by done. destruct (cfg_Service _); [done|].
  destruct (Parent h x) as [p|] eqn:Ep; [|done]. apply IH. by apply (parent_dom Ht x).
Qed.
Lemma extends_IsServicePart x : x < length h -> IsServicePart h' x = IsServicePart h x.
Proof.
  intros Hx. unfold IsServicePart. rewrite extends_is_service_part by done. symmetry.
  apply is_service_part_fuel; [by apply fits_parents|]. unfold fuel. destruct He. lia.
Qed.
Lemma extends_parents n x : x < length h -> parents n h' x = parents n h x.
Proof.
  revert x. induction n as [|n IH]; [done|]. intros x Hx. cbn. rewrite extends_Parent by done.
  destruct (Parent h x) as [p|] eqn:Ep; [|done]. f_equal. apply IH. by apply (parent_dom Ht x).
Qed.
Lemma extends_Parents x : x < length h -> Parents h' x = Parents h x.
Proof.
  intros Hx. unfold Parents. rewrite extends_parents by done. symmetry.
  apply parents_fuel; [by apply fits_parents|]. unfold fuel. destruct He. lia.
Qed.
Lemma extends_ok x : x < length h -> ok h x -> ok h' x.
Proof.
  intros Hx. apply ok_agree; [by rewrite (ext_node _ _ He)|by rewrite extends_IsServicePart|].
  intros p Ep. rewrite (ext_node _ _ He); [done|]. by apply (parent_dom Ht x).
Qed.
End Extends.

(** A new root without children. *)
Lemma tree_snoc R h : tree h -> r_parent R = None -> r_children R = [] ->
  tree (h ++ [R]) /\ (forall x, below (h ++ [R]) x (length h) -> x = length h).
Proof.
  intros Ht HP HC. set (h0 := h ++ [R]).
  assert (Hcase : forall x, (x < length h /\ node h0 x = node h x) \/ (x = length h /\ node h0 x = R) \/ node h0 x = zero_resource).
  { intros x. destruct (decide (x < length h)) as [Hx|Hx]; [left; split; [done|by apply node_app_l]|]. right.
    destruct (decide (x = length h)) as [->|Hne]; [left; split; [done|unfold node, h0; by rewrite list_lookup_middle]|right].
    apply node_out. unfold h0. rewrite length_app. cbn. lia. }
  assert (Hup : forall x p, Parent h0 x = Some p -> Parent h x = Some p).
  { intros x p. unfold Parent. destruct (Hcase x) as [[_ ->]|[[_ ->]| ->]]; [done|by rewrite HP|done]. }
  assert (Hch : forall x c, c ∈ Children h0 x -> c ∈ Children h x).
  { intros x c. unfold Children. destruct (Hcase x) as [[_ ->]|[[_ ->]| ->]]; [done|rewrite HC|cbn]; by intros ?%not_elem_of_nil. }
  split; [split|].
  - intros x p E%Hup. destruct (parent_dom Ht x p E) as [Hp _]. unfold Children, h0. rewrite node_app_l by done.
    by apply (tree_up h Ht).
  - intros p c Hc%Hch. pose proof (tree_dom h Ht p c Hc). unfold h0. rewrite length_app. cbn. lia.
  - intros x Hx. apply (tree_acyclic h Ht x). eapply tc_mono; [|exact Hx]. intros a b. apply Hch.
  - intros x Hb. apply rtc_inv_r in Hb as [?|(y & _ & Hy)]; [done|]. apply Hup, (parent_dom Ht) in Hy. lia.
Qed.

Lemma extends_snoc R h : extends h (h ++ [R]).
Proof. split; [rewrite length_app; cbn; lia|]. intros x Hx. by apply node_app_l. Qed.

(** A resource without parents and children, after it was made. *)
Record made (h : Heap) (r : ref) (ty : string) (c : ResourceConfig) (h' : Heap) : Prop := {
  made_ref : r = length h;
  made_length : length h' = S (length h);
  made_tree : tree h';
  made_own x : own_tenancy (node h' x) x;
  made_ok : ok h' r;
  made_extends : extends h h';
  made_parent : Parent h' r = None;
  made_children : Children h' r = [];
  made_type : Type_ h' r = ty;
  made_config : r_config (node h' r) = c
}.

Lemma made_inv h r ty c h' : inv h -> made h r ty c h' -> inv h'.
Proof.
  intros Hi Hm. split; [apply Hm| |apply Hm]. intros x. rewrite (made_length _ _ _ _ _ Hm). intros Hx.
  destruct (decide (x = length h)) as [->|Hne].
  - rewrite <- (made_ref _ _ _ _ _ Hm). apply Hm.
  - apply (extends_ok (inv_tree h Hi) (made_extends _ _ _ _ _ Hm)); [lia|]. apply Hi. lia.
Qed.

Lemma NewResource_made ty cfg h : tree h -> (forall x, own_tenancy (node h x) x) ->
  made h (NewResource ty cfg h).1 ty (OptionalArg no_config cfg) (NewResource ty cfg h).2.
Proof.
  intros Ht Hown. unfold NewResource. cbn [fst snd]. set (R := init_resource _ _ _). set (h0 := h ++ [R]).
  destruct (tree_snoc R h Ht eq_refl eq_refl) as [Htree _]. fold h0 in Htree.
  pose proof (extends_snoc R h) as He. fold h0 in He.
  assert (Hlen : length h0 = S (length h)) by (unfold h0; rewrite length_app; cbn; lia).
  assert (Hnew : node h0 (length h) = R) by (unfold node, h0; by rewrite list_lookup_middle).
  destruct (RebuildPaths_ok (length h) h0 Htree) as [Es Hok]; [lia|].
  destruct (rebuild_frame (fun x => x = length h) (fuel h0) (length h) h0) as [_ Hframe].
  { intros c p -> Hc. unfold child_of, Children in Hc. rewrite Hnew in Hc. by apply not_elem_of_nil in Hc. }
  { done. }
  split; try done.
  - by rewrite <- (same_shape_length _ _ Es).
  - by apply (tree_same_shape Es).
  - apply rebuild_own_tenancy. intros x.
    destruct (decide (x < length h)) as [Hx|Hx]; [rewrite (ext_node _ _ He) by done; apply Hown|].
    destruct (decide (x = length h)) as [->|]; [rewrite Hnew; unfold own_tenancy, R; cbn; by intros ->|].
    by rewrite node_out by lia.
  - apply Hok. right. apply rtc_refl.
  - split; [rewrite <- (same_shape_length _ _ Es); lia|]. intros x Hx. unfold RebuildPaths.
    rewrite Hframe by lia. by apply He.
  - rewrite <- (same_Parent Es). unfold Parent. by rewrite Hnew.
  - rewrite <- (same_Children Es). unfold Children. by rewrite Hnew.
  - rewrite <- (same_Type Es). unfold Type_. by rewrite Hnew.
  - rewrite <- (same_config Es). by rewrite Hnew.
Qed.

Lemma rebuild_node_links b p ps cs R : rebuild_node b p (set_links ps cs R) = set_links ps cs (rebuild_node b p R).
Proof. unfold rebuild_node. by destruct p. Qed.
Lemma rebuild_node_parent_links b ps cs p R : rebuild_node b (Some (set_links ps cs p)) R = rebuild_node b (Some p) R.
Proof. reflexivity. Qed.

(** [AddChild] before the rebuild. *)
Section Linked.
Context {h : Heap} (r c : ref) (Hr : r < length h) (Hc : c < length h) (Hne : c <> r).
Local Abbreviation linked := (AddChild r c [false] h).

Lemma linked_node x : node linked x =
  if decide (x = c) then set_links (Some r) (Children h c) (node h c)
  else if decide (x = r) then set_links (Parent h r) (Children h r ++ [c]) (node h r) else node h x.
Proof.
  unfold AddChild, SetParent. cbn [OptionalArg]. set (h1 := <[r := _]> h).
  assert (Hc1 : node h1 c = node h c) by (by apply node_insert_ne).
  assert (El : length h1 = length h) by apply length_insert.
  rewrite node_insert, El. unfold Children. rewrite Hc1. destruct (decide (x = c)) as [->|Hx]; [by rewrite decide_True|].
  rewrite decide_False by naive_solver. unfold h1. rewrite node_insert.
  destruct (decide (x = r)) as [->|Hx']; [by rewrite decide_True|]. by rewrite decide_False by naive_solver.
Qed.
Lemma linked_length : length linked = length h.
Proof. unfold AddChild, SetParent. cbn [OptionalArg]. by rewrite !length_insert. Qed.
Lemma linked_Parent x : Parent linked x = if decide (x = c) then Some r else Parent h x.
Proof. unfold Parent. rewrite linked_node. repeat case_decide; by subst. Qed.
Lemma linked_Children x : Children linked x = if decide (x = r) then Children h r ++ [c] else Children h x.
Proof. unfold Children. rewrite linked_node. repeat case_decide; subst; done. Qed.
Lemma linked_Type x : Type_ linked x = Type_ h x.
Proof. unfold Type_. rewrite linked_node. repeat case_decide; by subst. Qed.
Lemma linked_config x : r_config (node linked x) = r_config (node h x).
Proof. rewrite linked_node. repeat case_decide; by subst. Qed.

Lemma linked_tree : tree h -> ~ rtc (child_of h) r c -> tree linked.
Proof.
  intros Ht Hnot. split.
  - intros x p. rewrite linked_Parent, linked_Children. case_decide as Hx.
    + intros [= <-]. rewrite decide_True by done. subst. apply elem_of_app. right. by left.
    + intros E%(tree_up h Ht). case_decide; [subst; apply elem_of_app; by left|done].
  - intros p x. rewrite linked_Children, linked_length. case_decide as Hp; [|apply Ht]. subst.
    rewrite elem_of_app, list_elem_of_singleton. intros [Hx| ->]; [by eapply (tree_dom h Ht)|done].
  - apply (acyclic_add_edge (child_of h) _ c r); [|done|apply Ht]. intros a b. unfold child_of.
    rewrite linked_Children. case_decide as Hb; [|by left]. subst.
    rewrite elem_of_app, list_elem_of_singleton. intros [?| ->]; [by left|by right].
Qed.

Lemma linked_ok x : ok h x -> ~ below linked x c -> ok linked x.
Proof.
  intros Hok Hx. assert (Hxc : x <> c) by (intros ->; apply Hx, rtc_refl).
  assert (Es : IsServicePart linked x = IsServicePart h x).
  { apply (IsServicePart_agree _ _ c); [apply linked_length| |done]. intros y Hy. right.
    rewrite linked_config, linked_Parent, decide_False by done. done. }
  assert (Ep : rebuild_node (IsServicePart h x) (node linked <$> Parent h x) (node linked x) =
               rebuild_node (IsServicePart h x) (node h <$> Parent h x) (node linked x)).
  { destruct (Parent h x) as [p|] eqn:Ep; [|done]. cbn [fmap option_fmap option_map]. rewrite (linked_node p).
    rewrite (decide_False (P := p = c)).
    - case_decide as Hp; [subst p; apply rebuild_node_parent_links|done].
    - intros ->. apply Hx. apply rtc_once. by rewrite linked_Parent, decide_False. }
  unfold ok, rebuilt in *. rewrite Es, linked_Parent, decide_False by done. rewrite Ep, linked_node, decide_False by done.
  case_decide as Hxr; [subst x|done]. by rewrite rebuild_node_links, Hok.
Qed.
Lemma linked_own : (forall x, own_tenancy (node h x) x) -> forall x, own_tenancy (node linked x) x.
Proof. intros Hown x. rewrite linked_node. repeat case_decide; subst; apply Hown. Qed.
End Linked.

Lemma AddChild_inv r c h :
  inv h -> r < length h -> c < length h -> ~ rtc (child_of h) r c ->
  inv (AddChild r c [] h) /\ same_shape (AddChild r c [false] h) (AddChild r c [] h).
Proof.
  intros [Ht Hok Hown] Hr Hc Hnot. assert (Hne : c <> r) by (intros ->; apply Hnot, rtc_refl).
  change (AddChild r c [] h) with (RebuildPaths c (AddChild r c [false] h)).
  apply RebuildPaths_inv; rewrite ?linked_length; try done.
  - by apply linked_tree.
  - by apply linked_own.
  - intros x Hx Hb. apply linked_ok; auto.
Qed.

(** The walk up of [FillActualPaths] and [ResetIds]: [f] may leave paths at and below a
    resource to be rebuilt; the rebuild of the top one does. *)
Definition id_change (f : ref -> Heap -> Heap) : Prop := forall r h,
  tree h -> r < length h -> (forall x, own_tenancy (node h x) x) ->
  tree (f r h) /\ same_links h (f r h) /\ (forall x, own_tenancy (node (f r h) x) x) /\
  (forall x, ok h x -> ~ below h x r -> ok (f r h) x).

Lemma same_links_below h h' x r : same_links h h' -> (below h x r <-> below h' x r).
Proof. intros [_ E]. unfold below. split; apply rtc_subrel; intros a b; destruct (E a) as (-> & _); done. Qed.
Lemma same_links_tree h h' : same_links h h' -> tree h -> tree h'.
Proof.
  intros [El E] [H1 H2 H3]. split.
  - intros r p. destruct (E r) as (<- & _). destruct (E p) as (_ & <- & _). apply H1.
  - intros p c. destruct (E p) as (_ & <- & _). rewrite <- El. apply H2.
  - intros x Hx. apply (H3 x). eapply tc_mono; [|exact Hx]. intros a b. unfold child_of. by destruct (E b) as (_ & <- & _).
Qed.

Lemma walk_up_inv f : id_change f -> forall n r h,
  fits (parent_of h) n r -> tree h -> r < length h -> (forall x, own_tenancy (node h x) x) ->
  (forall x, x < length h -> ~ below h x r -> ok h x) ->
  inv (walk_up n f r h) /\ same_links h (walk_up n f r h).
Proof.
  intros Hf. induction n as [|n IH]; [done|]. intros r h Hfit Ht Hr Hown Hok. cbn [walk_up].
  destruct (Hf r h Ht Hr Hown) as (Ht' & Hl & Hown' & Hok'). pose proof Hl as [El Elinks].
  destruct (Elinks r) as (<- & _). destruct (Parent h r) as [p|] eqn:Ep.
  - destruct (IH p (f r h)) as [Hi Hl'].
    + eapply fits_impl; [|by apply Hfit]. intros a b. unfold parent_of. by destruct (Elinks b) as (-> & _).
    + done.
    + rewrite <- El. by apply (parent_dom Ht r).
    + done.
    + intros x. rewrite <- El, <- (same_links_below _ _ x p Hl). intros Hx Hb.
      assert (~ below h x r) by (intros H; apply Hb; eapply rtc_r; [exact H|done]). auto.
    + split; [done|]. by eapply same_links_trans.
  - destruct (RebuildPaths_inv r (f r h)) as [Hi Es].
    + done.
    + by rewrite <- El.
    + done.
    + intros x. rewrite <- El, <- (same_links_below _ _ x r Hl). auto.
    + split; [done|]. eapply same_links_trans; [exact Hl|by apply same_shape_links].
Qed.

Lemma id_change_config f : (forall c, cfg_Tenancy (f c) = cfg_Tenancy c) -> id_change (alter_config f).
Proof.
  intros Hf r h Ht Hr Hown. split; [by apply tree_alter_config|]. split; [apply alter_config_links|]. split.
  - intros x. unfold alter_config. rewrite node_insert. case_decide as Hx; [|done]. destruct Hx as [-> _].
    unfold own_tenancy. cbn. rewrite Hf. apply Hown.
  - intros x Hok Hb. by apply ok_insert.
Qed.
Lemma id_change_rebuild : id_change RebuildPaths.
Proof.
  intros r h Ht Hr Hown. destruct (RebuildPaths_ok r h Ht Hr) as [Es Hok]. split; [by apply (tree_same_shape Es)|].
  split; [by apply same_shape_links|]. split; [by apply rebuild_own_tenancy|]. auto.
Qed.
Lemma id_change_id : id_change (fun _ h => h). Proof. by intros r h Ht Hr Hown. Qed.
Lemma id_change_then f g : id_change f -> id_change g -> id_change (fun r h => g r (f r h)).
Proof.
  intros Hf Hg r h Ht Hr Hown. destruct (Hf r h Ht Hr Hown) as (Ht1 & Hl1 & Hown1 & Hok1).
  destruct (Hg r (f r h) Ht1) as (Ht2 & Hl2 & Hown2 & Hok2); [by destruct Hl1 as [<- _]|done|].
  split; [done|]. split; [by eapply same_links_trans|]. split; [done|].
  intros x Hx Hb. apply Hok2; [by apply Hok1|]. by rewrite <- (same_links_below _ _ x r Hl1).
Qed.
Lemma id_change_SetId v : id_change (fun r h => SetId r v [false] h).
Proof.
  unfold SetId, SetHasId. cbn [OptionalArg]. case_decide.
  - apply (id_change_then (alter_config (set_cfg_Id v)) (fun r h => RebuildPaths r (alter_config (set_cfg_HasId true) r h))).
    + by apply id_change_config.
    + by apply (id_change_then (alter_config (set_cfg_HasId true)) RebuildPaths);
        [apply id_change_config|apply id_change_rebuild].
  - by apply id_change_config.
Qed.
Lemma id_change_fill ids : id_change (fill_id ids).
Proof.
  intros r h. unfold fill_id. destruct (HasId h r); [|apply id_change_id]. destruct (ids !! Type_ h r); [|apply id_change_id].
  apply id_change_SetId.
Qed.
Lemma id_change_reset : id_change reset_id.
Proof. intros r h. unfold reset_id. destruct (HasId h r); [|apply id_change_id]. apply id_change_SetId. Qed.

Lemma FillActualPaths_inv ids r h : inv h -> r < length h -> inv (FillActualPaths ids r h) /\ same_links h (FillActualPaths ids r h).
Proof.
  intros [Ht Hok Hown] Hr. apply walk_up_inv; auto using id_change_fill, fits_parents.
Qed.
Lemma ResetIds_inv r h : inv h -> r < length h -> inv (ResetIds r h) /\ same_links h (ResetIds r h).
Proof.
  intros [Ht Hok Hown] Hr. apply walk_up_inv; auto using id_change_reset, fits_parents.
Qed.

(** ** The chain of parents *)

(** The resources from the top one to [r]. *)
Definition line (h : Heap) (r : ref) : list ref := Chain h r ++ [r].

Lemma Chain_rev h r : Chain h r = rev (Parents h r).
Proof.
  unfold Chain. assert (E : forall acc, foldl (fun chain parent => parent :: chain) acc (Parents h r) = rev (Parents h r) ++ acc).
  { induction (Parents h r) as [|p l IH]; intros acc; [done|]. cbn. rewrite IH, <- app_assoc. done. }
  by rewrite E, app_nil_r.
Qed.

Section Line.
Context {h : Heap} (Ht : tree h).

Lemma Parents_cons r p : Parent h r = Some p -> Parents h r = p :: Parents h p.
Proof.
  intros Ep. unfold Parents. change (fuel h) with (S (length h)) at 1. cbn [parents]. rewrite Ep. f_equal.
  apply parents_fuel; [|unfold fuel; lia]. pose proof (fits_parents Ht r) as Hf. by apply Hf.
Qed.
Lemma Parents_nil r : Parent h r = None -> Parents h r = [].
Proof. intros Ep. unfold Parents, fuel. cbn. by rewrite Ep. Qed.
Lemma line_cons r p : Parent h r = Some p -> line h r = line h p ++ [r].
Proof. intros Ep. unfold line. rewrite !Chain_rev, (Parents_cons _ _ Ep). cbn. done. Qed.
Lemma line_nil r : Parent h r = None -> line h r = [r].
Proof. intros Ep. unfold line. by rewrite Chain_rev, Parents_nil. Qed.

Lemma IsServicePart_cons r : IsServicePart h r = IsService h r || match Parent h r with Some p => IsServicePart h p | None => false end.
Proof.
  unfold IsServicePart. change (fuel h) with (S (length h)) at 1. cbn [is_service_part].
  destruct (IsService h r); [done|]. destruct (Parent h r) as [p|] eqn:Ep; [|done].
  apply is_service_part_fuel; [|unfold fuel; lia]. pose proof (fits_parents Ht r) as Hf. by apply Hf.
Qed.
Lemma line_dom r x : r < length h -> x ∈ line h r -> x < length h.
Proof.
  intros Hr. revert x. revert r Hr. apply (parent_ind Ht (fun r => r < length h -> forall x, x ∈ line h r -> x < length h)).
  intros r IH Hr x Hx. destruct (Parent h r) as [p|] eqn:Ep.
  - rewrite (line_cons _ _ Ep), elem_of_app, list_elem_of_singleton in Hx. destruct Hx as [Hx| ->]; [|done].
    apply (IH p); [done| |done]. by apply (parent_dom Ht r).
  - rewrite (line_nil _ Ep), list_elem_of_singleton in Hx. by subst.
Qed.
End Line.

Lemma ConcatStrings_app l1 l2 : ConcatStrings (l1 ++ l2) = ConcatStrings l1 +:+ ConcatStrings l2.
Proof.
  unfold ConcatStrings. assert (E : forall l acc, foldl String.app acc l = acc +:+ foldl String.app "" l).
  { induction l as [|s l IH]; intros acc; cbn [foldl]; [by rewrite str_app_nil_r|]. rewrite (IH (acc +:+ s)), (IH ("" +:+ s)). by rewrite str_app_assoc. }
  by rewrite foldl_app, E.
Qed.
Lemma ConcatStrings_two a b : ConcatStrings [a; b] = a +:+ b. Proof. done. Qed.
Lemma ConcatStrings_one a : ConcatStrings [a] = a. Proof. done. Qed.

(** Splitting a list at the end of which one element was added. *)
Lemma app_snoc_inv {A} (l1 l2 : list A) x y rest :
  l1 ++ [x] = l2 ++ y :: rest ->
  (l1 = l2 /\ x = y /\ rest = []) \/ exists rest', rest = rest' ++ [x] /\ l1 = l2 ++ y :: rest'.
Proof.
  destruct rest as [|z rest] using rev_ind.
  - intros [-> [= ->]]%app_inj_tail. by left.
  - rewrite app_comm_cons, app_assoc. intros [-> ->]%app_inj_tail. right. by exists rest.
Qed.

Section Paths.
Context {h : Heap} (Hi : inv h).
Local Abbreviation Ht := (inv_tree h Hi).

(** The own fields of a resource. *)
Lemma own_fields r : r < length h ->
  PathPrototype h r = ConcatStrings [if HasId h r then "/:" else "/"; Type_ h r] /\
  ActualPath h r = (if HasId h r then
      if IsTenancy h r && bool_decide (Id h r = "") then PathPrototype h r else ConcatStrings ["/"; Id h r]
    else PathPrototype h r) /\
  FullPathPrototype h r = match Parent h r with Some p => FullPathPrototype h p | None => "" end +:+ PathPrototype h r /\
  FullActualPath h r = match Parent h r with Some p => FullActualPath h p | None => "" end +:+ ActualPath h r /\
  IsInTenancy h r = IsTenancy h r || match Parent h r with Some p => IsInTenancy h p | None => false end /\
  (IsServicePart h r = true -> ServicePathPrototype h r =
     (if IsService h r then "" else match Parent h r with Some p => ServicePathPrototype h p | None => "" end) +:+ PathPrototype h r) /\
  (IsServicePart h r = true -> ServiceActualPath h r =
     (if IsService h r then "" else match Parent h r with Some p => ServiceActualPath h p | None => "" end) +:+ ActualPath h r) /\
  (IsInTenancy h r = true -> TenancyResourceInPath h r =
     if IsTenancy h r then Some r else match Parent h r with Some p => TenancyResourceInPath h p | None => None end).
Proof.
  intros Hr. pose proof (inv_ok h Hi r Hr) as E. pose proof (inv_tenancy h Hi r) as Hown. unfold ok in E.
  pose proof (IsServicePart_cons Ht r) as Es. unfold own_tenancy, rebuilt in *. revert E Es. generalize (IsServicePart h r) as b.
  intros b. unfold PathPrototype, ActualPath, FullPathPrototype, FullActualPath, IsInTenancy, ServicePathPrototype,
    ServiceActualPath, TenancyResourceInPath, HasId, Id, Type_, IsTenancy, IsService, Parent.
  intros E Es. rewrite <- E. revert Hown Es. clear E. generalize (node h r) as R. intros R Hown Es.
  unfold rebuild_node, isInTenancy. destruct (r_parent R) as [p|]; cbn -[ConcatStrings].
  - rewrite !ConcatStrings_two. destruct (cfg_Service (r_config R)), (cfg_Tenancy (r_config R)), b; cbn -[ConcatStrings];
      rewrite ?(Hown eq_refl); split_and!; try done; try (by intros); by intros ->.
  - destruct (cfg_Service (r_config R)), (cfg_Tenancy (r_config R)), b; cbn -[ConcatStrings];
      rewrite ?(Hown eq_refl); split_and!; done.
Qed.
End Paths.
