(* ===== verification/ApiRoutes.v ===== *)
(** * pkg/api: paths and the chain of resources, in every reachable state

    The paths a resource keeps are the segments of its chain put together; the path of a
    request, built from its parameters, is the path of the resource with these identifiers;
    copies of a chain have the paths of the original and leave it alone. *)
From S2P Require Import Prelude Utils Access ApiResource ApiPaths.
From stdpp Require Import relations sorting.
Open Scope go_scope.
Import Resource.

(** ** The paths of a chain *)

Definition concat_paths (path : ref -> string) (l : list ref) : string := ConcatStrings (map path l).
Lemma concat_snoc path l r : concat_paths path (l ++ [r]) = concat_paths path l +:+ path r.
Proof. unfold concat_paths. by rewrite map_app, ConcatStrings_app. Qed.

(** What the paths of [r] are in terms of the resources from the top one to [r]. *)
Record paths_of_line (h : Heap) (r : ref) : Prop := {
  pl_FullPathPrototype : FullPathPrototype h r = concat_paths (PathPrototype h) (line h r);
  pl_FullActualPath : FullActualPath h r = concat_paths (ActualPath h) (line h r);
  pl_IsInTenancy : IsInTenancy h r = existsb (IsTenancy h) (line h r);
  pl_IsServicePart : IsServicePart h r = existsb (IsService h) (line h r);
  pl_service above service below :
    line h r = above ++ service :: below -> IsService h service = true -> existsb (IsService h) below = false ->
    ServicePathPrototype h r = concat_paths (PathPrototype h) (service :: below) /\
    ServiceActualPath h r = concat_paths (ActualPath h) (service :: below);
  pl_tenancy above t below :
    line h r = above ++ t :: below -> IsTenancy h t = true -> existsb (IsTenancy h) below = false ->
    TenancyResourceInPath h r = Some t
}.

Lemma existsb_snoc {A} (f : A -> bool) l x : existsb f (l ++ [x]) = existsb f l || f x.
Proof. rewrite existsb_app. cbn. by rewrite orb_false_r. Qed.
Lemma existsb_middle {A} (f : A -> bool) l1 x l2 : f x = true -> existsb f (l1 ++ x :: l2) = true.
Proof. intros Hx. rewrite existsb_app. cbn. by rewrite Hx, orb_true_r. Qed.

Lemma paths_of_top h r : inv h -> r < length h -> Parent h r = None -> paths_of_line h r.
Proof.
  intros Hi Hr Ep. destruct (own_fields Hi r Hr) as (_ & _ & F & A & T & S1 & S2 & TR).
  pose proof (IsServicePart_cons (inv_tree h Hi) r) as Es. rewrite Ep in *.
  assert (El : line h r = [r]) by (by apply line_nil).
  assert (Hone : forall above x below, [r] = above ++ x :: below -> x = r /\ below = []).
  { intros above x below E. destruct above as [|y [|]]; [by injection E as -> ->|done|done]. }
  split; rewrite ?El; cbn [existsb]; rewrite ?orb_false_r; try done.
  - by rewrite orb_false_r in T.
  - by rewrite orb_false_r in Es.
  - intros above s below E Hs _. destruct (Hone _ _ _ E) as [-> ->]. rewrite Hs in *. split; [by rewrite S1|by rewrite S2].
  - intros above t below E Ht _. destruct (Hone _ _ _ E) as [-> ->]. rewrite Ht in *. by apply TR.
Qed.

Lemma paths_of_child h r p : inv h -> r < length h -> Parent h r = Some p -> paths_of_line h p -> paths_of_line h r.
Proof.
  intros Hi Hr Ep IH. destruct (own_fields Hi r Hr) as (_ & _ & F & A & T & S1 & S2 & TR).
  pose proof (IsServicePart_cons (inv_tree h Hi) r) as Es. rewrite Ep in *. pose proof IH as [F' A' T' Es' Sp' Tr'].
  assert (El : line h r = line h p ++ [r]) by (apply (line_cons (inv_tree h Hi)), Ep).
  split; rewrite ?El, ?concat_snoc, ?existsb_snoc.
  - by rewrite F, F'.
  - by rewrite A, A'.
  - by rewrite T, T', orb_comm.
  - by rewrite Es, Es', orb_comm.
  - intros above s below E Hs Hb. destruct (app_snoc_inv _ _ _ _ _ E) as [(_ & -> & ->)|(b & -> & Eb)].
    + rewrite Hs in *. cbn in Es. split; [by rewrite S1|by rewrite S2].
    + rewrite existsb_snoc in Hb. apply orb_false_iff in Hb as [Hb Hr'].
      assert (Hp : IsServicePart h p = true) by (rewrite Es', Eb; by apply existsb_middle).
      rewrite Hr', Hp in *. cbn in Es. destruct (Sp' _ _ _ Eb Hs Hb) as [E1 E2]. rewrite app_comm_cons, !concat_snoc.
      by rewrite S1, S2, E1, E2.
  - intros above t below E Hs Hb. destruct (app_snoc_inv _ _ _ _ _ E) as [(_ & -> & ->)|(b & -> & Eb)].
    + rewrite Hs in *. by apply TR.
    + rewrite existsb_snoc in Hb. apply orb_false_iff in Hb as [Hb Hr'].
      assert (Hp : IsInTenancy h p = true) by (rewrite T', Eb; by apply existsb_middle).
      rewrite Hr', Hp in *. rewrite TR by done. by eapply Tr'.
Qed.

Lemma paths_of_inv h r : inv h -> r < length h -> paths_of_line h r.
Proof.
  intros Hi. revert r. apply (parent_ind (inv_tree h Hi) (fun r => r < length h -> paths_of_line h r)). intros r IH Hr.
  destruct (Parent h r) as [p|] eqn:Ep.
  - apply (paths_of_child h r p); [done|done|done|]. apply IH; [done|]. by apply (parent_dom (inv_tree h Hi) r).
  - by apply paths_of_top.
Qed.

(** ** The path of a request *)

(** The identifiers of a request in the resources from the top one to [r]. *)
Definition ids_cover (h : Heap) (ids : gmap string string) (l : list ref) : Prop :=
  Forall (fun x => HasId h x = true -> exists id, ids !! Type_ h x = Some id /\ id <> "") l.

(** The segment [BuildActualPath] makes of a resource. *)
Definition request_segment (h : Heap) (ids : gmap string string) (x : ref) : string :=
  if HasId h x then match ids !! Type_ h x with Some id => "/" +:+ id | None => "/" end else "/" +:+ Type_ h x.

Lemma request_segment_nonempty h ids x : request_segment h ids x <> "".
Proof. unfold request_segment. destruct (HasId h x); [|done]. by destruct (ids !! _). Qed.

Lemma build_path_fuel h ids b n m r :
  fits (parent_of h) n r -> n <= m -> build_path n ids b h r = build_path m ids b h r.
Proof.
  revert m r. induction n as [|n IH]; [done|]. intros [|m] r Hf Hle; [lia|]. cbn [build_path].
  destruct (b && _); [done|]. destruct (Parent h r) as [p|] eqn:Ep; [|done]. rewrite (IH m p); [done|by apply Hf|lia].
Qed.

(** The full path. *)
Lemma BuildActualPath_line h ids r : inv h -> BuildActualPath ids [] h r = concat_paths (request_segment h ids) (line h r).
Proof.
  intros Hi. revert r. apply (parent_ind (inv_tree h Hi)). intros r IH. unfold BuildActualPath in *. cbn [OptionalArg] in *.
  assert (E : build_path (fuel h) ids false h r =
    match Parent h r with Some p => build_path (fuel h) ids false h p | None => "" end +:+ request_segment h ids r).
  { pose proof (fits_parents (inv_tree h Hi) r) as Hf. change (fuel h) with (S (length h)) at 1. cbn [build_path andb]. fold (request_segment h ids r).
    destruct (Parent h r) as [p|] eqn:Ep; [|done].
    rewrite (build_path_fuel h ids false (length h) (fuel h) p); [|exact (Hf p Ep)|unfold fuel; lia].
    case_decide as Hne; [done|]. by rewrite Hne. }
  rewrite E. destruct (Parent h r) as [p|] eqn:Ep.
  - rewrite (line_cons (inv_tree h Hi) _ _ Ep), concat_snoc. by rewrite IH.
  - by rewrite (line_nil _ Ep).
Qed.

(** The path within the service: it starts at the top service of the chain. *)
Lemma BuildActualPath_service h ids r : inv h -> r < length h ->
  (existsb (IsService h) (line h r) = false -> BuildActualPath ids [true] h r = "") /\
  (forall above s below, line h r = above ++ s :: below -> existsb (IsService h) above = false -> IsService h s = true ->
     BuildActualPath ids [true] h r = concat_paths (request_segment h ids) (s :: below)).
Proof.
  intros Hi. revert r. apply (parent_ind (inv_tree h Hi) (fun r => r < length h ->
    (existsb (IsService h) (line h r) = false -> BuildActualPath ids [true] h r = "") /\
    (forall above s below, line h r = above ++ s :: below -> existsb (IsService h) above = false -> IsService h s = true ->
       BuildActualPath ids [true] h r = concat_paths (request_segment h ids) (s :: below)))).
  intros r IH Hr. unfold BuildActualPath in *. cbn [OptionalArg] in *.
  pose proof (pl_IsServicePart h r (paths_of_inv h r Hi Hr)) as Es.
  assert (E : build_path (fuel h) ids true h r = if IsServicePart h r then
    match Parent h r with Some p => build_path (fuel h) ids true h p | None => "" end +:+ request_segment h ids r else "").
  { pose proof (fits_parents (inv_tree h Hi) r) as Hf. change (fuel h) with (S (length h)) at 1. cbn [build_path andb].
    fold (request_segment h ids r). destruct (IsServicePart h r); [|done]. cbn [negb].
    destruct (Parent h r) as [p|] eqn:Ep; [|done].
    rewrite (build_path_fuel h ids true (length h) (fuel h) p); [|exact (Hf p Ep)|unfold fuel; lia].
    case_decide as Hne; [done|]. by rewrite Hne. }
  rewrite E, Es. split; [by intros ->|]. intros above s below El Ha Hs. rewrite El, existsb_middle by done.
  destruct (Parent h r) as [p|] eqn:Ep.
  - destruct (IH p eq_refl) as [IH0 IH1]; [by apply (parent_dom (inv_tree h Hi) r)|].
    rewrite (line_cons (inv_tree h Hi) _ _ Ep) in El.
    destruct (app_snoc_inv _ _ _ _ _ El) as [(<- & <- & ->)|(b & -> & Eb)].
    + by rewrite IH0.
    + rewrite (IH1 above s b Eb Ha Hs). by rewrite app_comm_cons, concat_snoc.
  - rewrite (line_nil _ Ep) in El. destruct above as [|y [|]]; [by injection El as -> <-|done|done].
Qed.

(** Identifiers that [FillActualPaths] sets. *)
Definition filled (ids : gmap string string) (ty : string) (c : ResourceConfig) : ResourceConfig :=
  if cfg_HasId c then match ids !! ty with Some id => set_cfg_Id id c | None => c end else c.

Lemma set_HasId_same c : cfg_HasId c = true -> set_cfg_HasId true c = c.
Proof. destruct c; cbn. by intros ->. Qed.

Lemma rebuild_config n r h x : r_config (node (rebuild n r h) x) = r_config (node h x).
Proof.
  destruct (rebuild_frame (fun _ => True) n r h) as [Es _]; [done|done|]. by rewrite (same_config Es).
Qed.
Lemma alter_config_config f r h x : r < length h ->
  r_config (node (alter_config f r h) x) = if decide (x = r) then f (r_config (node h r)) else r_config (node h x).
Proof.
  intros Hr. unfold alter_config. rewrite node_insert. destruct (decide (x = r)) as [->|Hx].
  - by rewrite decide_True.
  - by rewrite decide_False by naive_solver.
Qed.

Lemma fill_id_config ids r h x : r < length h ->
  r_config (node (fill_id ids r h) x) =
  if decide (x = r) then filled ids (Type_ h r) (r_config (node h r)) else r_config (node h x).
Proof.
  intros Hr. unfold fill_id, filled, HasId. destruct (cfg_HasId (r_config (node h r))) eqn:Eh; [|by case_decide; subst].
  destruct (ids !! Type_ h r) as [id|]; [|by case_decide; subst]. unfold SetId. cbn [OptionalArg].
  set (h0 := alter_config _ r h).
  assert (E0 : forall y, r_config (node h0 y) = if decide (y = r) then set_cfg_Id id (r_config (node h r)) else r_config (node h y))
    by (intros; by apply alter_config_config).
  case_decide as Hid; [|by rewrite E0]. unfold SetHasId, RebuildPaths. rewrite rebuild_config.
  rewrite alter_config_config by (unfold h0; by rewrite length_alter_config). rewrite !E0.
  destruct (decide (x = r)) as [->|]; [|done]. rewrite decide_True by done. by apply set_HasId_same.
Qed.

Lemma walk_up_config ids n r h x : tree h -> r < length h -> fits (parent_of h) n r ->
  (forall y, own_tenancy (node h y) y) ->
  r_config (node (walk_up n (fill_id ids) r h) x) =
  if decide (x ∈ r :: parents n h r) then filled ids (Type_ h x) (r_config (node h x)) else r_config (node h x).
Proof.
  revert r h. induction n as [|n IH]; [done|]. intros r h Ht Hr Hf Hown. cbn [walk_up parents].
  destruct (id_change_fill ids r h Ht Hr Hown) as (Ht' & Hl & Hown' & _). pose proof Hl as [El E].
  destruct (E r) as (<- & _). destruct (Parent h r) as [p|] eqn:Ep.
  - assert (Hp : p < length h) by (by apply (parent_dom Ht r)).
    assert (Hpar : forall m y, parents m (fill_id ids r h) y = parents m h y).
    { induction m as [|m IHm]; [done|]. intros y. cbn. destruct (E y) as (<- & _). destruct (Parent h y); [|done]. by rewrite IHm. }
    rewrite IH; [|done|by rewrite <- El| |done].
    + rewrite Hpar. destruct (E x) as (_ & _ & <-). rewrite fill_id_config by done.
      assert (Hnot : r ∉ p :: parents n h p).
      { intros Hin. apply (tree_acyclic h Ht r). apply (tc_parent_of Ht).
        assert (Hall : forall m z y, y ∈ parents m h z -> tc (parent_of h) y z).
        { induction m as [|m IHm]; intros z y; cbn; [by intros ?%not_elem_of_nil|].
          destruct (Parent h z) as [q|] eqn:Eq; [|by intros ?%not_elem_of_nil].
          intros [->|Hy]%elem_of_cons; [by apply tc_once|]. eapply tc_r; [by apply IHm|done]. }
        apply (Hall (S n) r r). cbn. by rewrite Ep. }
      destruct (decide (x = r)) as [->|Hne].
      * rewrite decide_False by done. by rewrite decide_True by (by left).
      * destruct (decide (x ∈ p :: parents n h p)) as [Hin|Hin].
        -- by rewrite decide_True by (by right).
        -- rewrite decide_False; [done|]. by intros [?|?]%elem_of_cons.
    + eapply fits_impl; [|by apply Hf]. intros a b. unfold parent_of. by destruct (E b) as (<- & _).
  - unfold RebuildPaths. rewrite rebuild_config, fill_id_config by done.
    destruct (decide (x = r)) as [->|Hne]; [by rewrite decide_True by (by left)|].
    rewrite decide_False; [done|]. by intros ?%list_elem_of_singleton.
Qed.

Lemma same_links_Parents h h' r : same_links h h' -> Parents h r = Parents h' r.
Proof.
  intros [El E]. unfold Parents, fuel. rewrite <- El. generalize (S (length h)) as n. intros n. revert r.
  induction n as [|n IH]; [done|]. intros r. cbn. destruct (E r) as (<- & _). destruct (Parent h r); [|done]. by rewrite IH.
Qed.
Lemma same_links_line h h' r : same_links h h' -> line h r = line h' r.
Proof. intros E. unfold line. by rewrite !Chain_rev, (same_links_Parents h h' r E). Qed.

Lemma concat_ext (f g : ref -> string) l : Forall (fun x => f x = g x) l -> concat_paths f l = concat_paths g l.
Proof. intros H. unfold concat_paths. f_equal. apply map_ext_in. intros x Hx. rewrite Forall_forall in H. apply H. by apply list_elem_of_In. Qed.

Lemma FillActualPaths_config ids r h x : inv h -> r < length h ->
  r_config (node (FillActualPaths ids r h) x) =
  if decide (x ∈ r :: Parents h r) then filled ids (Type_ h x) (r_config (node h x)) else r_config (node h x).
Proof. intros [Ht _ Hown] Hr. apply walk_up_config; [done|done|by apply fits_parents|done]. Qed.

(** Along the chain of a resource whose identifiers are filled in. *)
Lemma filled_segment ids r h x : inv h -> r < length h -> ids_cover h ids (line h r) -> x ∈ line h r ->
  ActualPath (FillActualPaths ids r h) x = request_segment h ids x /\
  PathPrototype (FillActualPaths ids r h) x = PathPrototype h x.
Proof.
  intros Hi Hr Hc Hx. destruct (FillActualPaths_inv ids r h Hi Hr) as [Hi' Hl]. set (h' := FillActualPaths ids r h) in *.
  assert (Hlt : x < length h) by (by apply (line_dom (inv_tree h Hi) r)).
  assert (Hlt' : x < length h') by (by destruct Hl as [<- _]).
  destruct (own_fields Hi x Hlt) as (P & _). destruct (own_fields Hi' x Hlt') as (P' & A' & _).
  assert (Ety : Type_ h' x = Type_ h x) by (symmetry; by destruct Hl as [_ E]; destruct (E x) as (_ & _ & ->)).
  assert (Ein : x ∈ r :: Parents h r).
  { unfold line in Hx. rewrite Chain_rev in Hx. rewrite elem_of_app, list_elem_of_singleton in Hx.
    destruct Hx as [Hx| ->]; [right|by left]. apply list_elem_of_In in Hx. apply list_elem_of_In. by apply in_rev. }
  pose proof (FillActualPaths_config ids r h x Hi Hr) as Ec. fold h' in Ec. rewrite decide_True in Ec by done.
  unfold ids_cover in Hc. rewrite Forall_forall in Hc. specialize (Hc x Hx). unfold request_segment, HasId, Id, IsTenancy, filled in *.
  rewrite Ec in *. rewrite Ety in *. destruct (cfg_HasId (r_config (node h x))) eqn:Eh.
  - destruct (Hc eq_refl) as (id & Eid & Hne). rewrite Eid in *. cbn -[ConcatStrings] in *. rewrite Eh in *.
    split; [|by rewrite P, P']. rewrite A', (bool_decide_eq_false_2 (id = "")) by done. by rewrite andb_false_r.
  - rewrite Eh in *. split; [|by rewrite P, P']. by rewrite A', P'.
Qed.

(** The path of a request.  When the parameters of a request name every identifier of the
    chain of a resource, the path [BuildActualPath] makes of them is the full path of the
    resource once [FillActualPaths] has set these identifiers, and the pattern of the route
    stays as it is. *)
Theorem request_path ids r h :
  inv h -> r < length h -> ids_cover h ids (line h r) ->
  FullActualPath (FillActualPaths ids r h) r = BuildActualPath ids [] h r /\
  FullPathPrototype (FillActualPaths ids r h) r = FullPathPrototype h r.
Proof.
  intros Hi Hr Hc. destruct (FillActualPaths_inv ids r h Hi Hr) as [Hi' Hl].
  assert (Hr' : r < length (FillActualPaths ids r h)) by (by destruct Hl as [<- _]).
  pose proof (paths_of_inv _ _ Hi' Hr') as P'. pose proof (paths_of_inv _ _ Hi Hr) as P.
  assert (Hall : forall x, x ∈ line h r -> ActualPath (FillActualPaths ids r h) x = request_segment h ids x /\
    PathPrototype (FillActualPaths ids r h) x = PathPrototype h x) by (intros; by apply filled_segment).
  rewrite (pl_FullActualPath _ _ P'), (pl_FullPathPrototype _ _ P'), (pl_FullPathPrototype _ _ P), BuildActualPath_line by done.
  rewrite <- (same_links_line _ _ r Hl). split; apply concat_ext, Forall_forall; intros x Hx; by apply Hall.
Qed.
