(* ===== verification/ApiClone.v ===== *)
(** * pkg/api: copies of chains of resources, and clients

    [CloneChain] copies a resource and its parents; a client gives the copy an identifier and
    calls its path.  The copies have the paths of the originals, which stay as they are. *)
From S2P Require Import Prelude Utils Access ApiResource ApiPaths ApiRoutes.
From stdpp Require Import relations sorting.
Open Scope go_scope.
Import Resource.

(** ** Resources that look alike *)

Definition look (h : Heap) (r : ref) : string * ResourceConfig := (Type_ h r, r_config (node h r)).
Definition alike (h : Heap) (r : ref) (h' : Heap) (r' : ref) : Prop := map (look h') (line h' r') = map (look h) (line h r).

(** All the paths of a resource. *)
Record same_paths (h : Heap) (r : ref) (h' : Heap) (r' : ref) : Prop := {
  sp_full : FullPathPrototype h' r' = FullPathPrototype h r;
  sp_actual : FullActualPath h' r' = FullActualPath h r;
  sp_inTenancy : IsInTenancy h' r' = IsInTenancy h r;
  sp_servicePart : IsServicePart h' r' = IsServicePart h r;
  sp_service : IsServicePart h r = true ->
    ServicePathPrototype h' r' = ServicePathPrototype h r /\ ServiceActualPath h' r' = ServiceActualPath h r
}.

Lemma look_own_fields h r h' r' : inv h -> r < length h -> inv h' -> r' < length h' -> look h' r' = look h r ->
  PathPrototype h' r' = PathPrototype h r /\ ActualPath h' r' = ActualPath h r /\
  IsService h' r' = IsService h r /\ IsTenancy h' r' = IsTenancy h r.
Proof.
  intros Hi Hr Hi' Hr' [= Et Ec]. destruct (own_fields Hi r Hr) as (P & A & _).
  destruct (own_fields Hi' r' Hr') as (P' & A' & _). unfold HasId, Id, IsTenancy, IsService in *.
  rewrite Ec, Et in *. rewrite P, P', A, A', P, P'. done.
Qed.

Lemma alike_same_paths h r : inv h -> r < length h -> forall h' r', inv h' -> r' < length h' -> alike h r h' r' -> same_paths h r h' r'.
Proof.
  intros Hi. revert r. apply (parent_ind (inv_tree h Hi) (fun r => r < length h -> forall h' r', inv h' -> r' < length h' ->
    alike h r h' r' -> same_paths h r h' r')). intros r IH Hr h' r' Hi' Hr' Ha. unfold alike in Ha.
  destruct (own_fields Hi r Hr) as (_ & _ & F & A & T & S1 & S2 & _).
  destruct (own_fields Hi' r' Hr') as (_ & _ & F' & A' & T' & S1' & S2' & _).
  pose proof (IsServicePart_cons (inv_tree h Hi) r) as E. pose proof (IsServicePart_cons (inv_tree h' Hi') r') as E'.
  destruct (Parent h r) as [p|] eqn:Ep, (Parent h' r') as [p'|] eqn:Ep'.
  - rewrite (line_cons (inv_tree h Hi) _ _ Ep), (line_cons (inv_tree h' Hi') _ _ Ep'), !map_app in Ha.
    apply app_inj_tail in Ha as [Ha Hl]. destruct (look_own_fields h r h' r' Hi Hr Hi' Hr' Hl) as (Q1 & Q2 & Q3 & Q4).
    assert (Hp : p < length h) by (by apply (parent_dom (inv_tree h Hi) r)).
    assert (Hp' : p' < length h') by (by apply (parent_dom (inv_tree h' Hi') r')).
    destruct (IH p eq_refl Hp h' p' Hi' Hp' Ha) as [R1 R2 R3 R4 R5].
    assert (Es : IsServicePart h' r' = IsServicePart h r) by (by rewrite E, E', Q3, R4).
    split; [by rewrite F, F', R1, Q1|by rewrite A, A', R2, Q2|by rewrite T, T', R3, Q4|done|].
    intros Hs. rewrite S1, S2, S1', S2' by congruence. rewrite Q1, Q2, Q3. destruct (IsService h r) eqn:Esr; [done|].
    rewrite E in Hs. cbn in Hs. destruct (R5 Hs) as [-> ->]. done.
  - rewrite (line_cons (inv_tree h Hi) _ _ Ep), (line_nil _ Ep'), map_app in Ha. exfalso.
    apply (f_equal length) in Ha. rewrite length_app, !length_map in Ha. cbn in Ha. unfold line in Ha.
    rewrite length_app in Ha. cbn in Ha. lia.
  - rewrite (line_nil _ Ep), (line_cons (inv_tree h' Hi') _ _ Ep'), map_app in Ha. exfalso.
    apply (f_equal length) in Ha. rewrite length_app, !length_map in Ha. cbn in Ha. unfold line in Ha.
    rewrite length_app in Ha. cbn in Ha. lia.
  - rewrite (line_nil _ Ep), (line_nil _ Ep') in Ha. injection Ha as Hl1 Hl2.
    assert (Hl : look h' r' = look h r) by (unfold look; by rewrite Hl1, Hl2).
    destruct (look_own_fields h r h' r' Hi Hr Hi' Hr' Hl) as (Q1 & Q2 & Q3 & Q4).
    split; [by rewrite F, F', Q1|by rewrite A, A', Q2|by rewrite T, T', Q4|by rewrite E, E', Q3|].
    intros Hs. rewrite E, orb_false_r in Hs. rewrite S1, S2, S1', S2'; rewrite ?E, ?E', ?orb_false_r; try congruence.
    by rewrite Q1, Q2, Q3, Hs.
Qed.

(** ** One copy *)

(** The operations of resources do not matter for paths. *)
Lemma rebuild_node_ops b p ops g R : rebuild_node b p (set_operations ops g R) = set_operations ops g (rebuild_node b p R).
Proof. unfold rebuild_node. by destruct p. Qed.

Definition with_operations (t : ref) (ops : list ref) (g : option ref) (h : Heap) : Heap :=
  <[t := set_operations ops g (node h t)]> h.

Section WithOperations.
Context (t : ref) (ops : list ref) (g : option ref) (h : Heap).
Lemma ops_node x : node (with_operations t ops g h) x =
  if decide (x = t /\ t < length h) then set_operations ops g (node h t) else node h x.
Proof. apply node_insert. Qed.
Lemma ops_shape : same_shape h (with_operations t ops g h).
Proof. by apply same_shape_insert. Qed.
Lemma ops_ok x : ok h x -> ok (with_operations t ops g h) x.
Proof.
  intros Hok. pose proof ops_shape as Es. unfold ok, rebuilt in *. rewrite <- (same_IsServicePart Es), <- (same_Parent Es).
  assert (Ep : forall R, rebuild_node (IsServicePart h x) (node (with_operations t ops g h) <$> Parent h x) R =
                         rebuild_node (IsServicePart h x) (node h <$> Parent h x) R).
  { intros R. destruct (Parent h x) as [p|]; [|done]. cbn [fmap option_fmap option_map]. rewrite ops_node. by case_decide as Hp; [destruct Hp as [-> _]|]. }
  rewrite Ep, ops_node. case_decide as Hx; [|done]. destruct Hx as [-> _]. by rewrite rebuild_node_ops, Hok.
Qed.
Lemma ops_own : (forall x, own_tenancy (node h x) x) -> forall x, own_tenancy (node (with_operations t ops g h) x) x.
Proof. intros Hown x. rewrite ops_node. case_decide as Hx; [|done]. destruct Hx as [-> _]. apply Hown. Qed.
Lemma ops_inv : inv h -> inv (with_operations t ops g h).
Proof.
  intros [Ht Hok Hown]. split; [by apply (tree_same_shape ops_shape)| |by apply ops_own].
  intros x. rewrite <- (same_shape_length _ _ ops_shape). intros Hx. by apply ops_ok, Hok.
Qed.
Lemma ops_made h0 ty c : made h0 t ty c h -> made h0 t ty c (with_operations t ops g h).
Proof.
  intros [E1 E2 E3 E4 E5 [E6 E7] E8 E9 E10 E11]. pose proof ops_shape as Es. split.
  - done.
  - by rewrite <- (same_shape_length _ _ Es).
  - by apply (tree_same_shape Es).
  - by apply ops_own.
  - by apply ops_ok.
  - split; [rewrite <- (same_shape_length _ _ Es); lia|]. intros x Hx. rewrite ops_node, decide_False by lia. by apply E7.
  - by rewrite <- (same_Parent Es).
  - by rewrite <- (same_Children Es).
  - by rewrite <- (same_Type Es).
  - by rewrite <- (same_config Es).
Qed.
End WithOperations.

(** A new identifier of a resource without children. *)
Lemma SetId_made h0 r ty c h id : c = set_cfg_HasId true (set_cfg_Id id c) -> made h0 r ty c h -> made h0 r ty c (SetId r id [] h).
Proof.
  intros Ec Hm. pose proof Hm as [E1 E2 E3 E4 E5 [E6 E7] E8 E9 E10 E11].
  assert (Hr : r < length h) by (rewrite E1, E2; lia).
  change (SetId r id [] h) with (RebuildPaths r (SetId r id [false] h)). set (h1 := SetId r id [false] h).
  destruct (id_change_SetId id r h E3 Hr E4) as (Ht1 & Hl1 & Hown1 & _). fold h1 in Ht1, Hl1, Hown1.
  pose proof Hl1 as [El1 E1']. assert (Hr1 : r < length h1) by (by rewrite <- El1).
  destruct (RebuildPaths_ok r h1 Ht1 Hr1) as [Es Hok].
  assert (Hleaf : forall h', Children h' r = [] -> forall n x, x <> r -> node (rebuild n r h') x = node h' x).
  { intros h' Hch n x Hx. destruct (rebuild_frame (fun y => y = r) n r h') as [_ Hf]; [|done|by apply Hf].
    intros a b -> Ha. unfold child_of in Ha. rewrite Hch in Ha. by apply not_elem_of_nil in Ha. }
  assert (Hch1 : Children h1 r = []) by (destruct (E1' r) as (_ & <- & _); done).
  assert (Hn1 : forall x, x <> r -> node h1 x = node h x).
  { intros x Hx. unfold h1, SetId. cbn [OptionalArg]. set (h2 := alter_config _ r h).
    assert (Hch2 : Children h2 r = []) by (unfold h2; destruct (alter_config_links (set_cfg_Id id) r h) as [_ E]; destruct (E r) as (_ & <- & _); done).
    case_decide; [|by apply node_insert_ne]. unfold SetHasId, RebuildPaths. rewrite Hleaf; [|by destruct (alter_config_links (set_cfg_HasId true) r h2) as [_ E]; destruct (E r) as (_ & <- & _)|done].
    unfold alter_config at 1. rewrite node_insert_ne by done. by apply node_insert_ne. }
  split; rewrite <- ?(same_Parent Es), <- ?(same_Children Es), <- ?(same_Type Es), <- ?(same_config Es); try done.
  - by rewrite <- (same_shape_length _ _ Es), <- El1.
  - by apply (tree_same_shape Es).
  - by apply rebuild_own_tenancy.
  - apply Hok. right. apply rtc_refl.
  - split; [rewrite <- (same_shape_length _ _ Es), <- El1; lia|]. intros x Hx. unfold RebuildPaths.
    rewrite Hleaf by (try done; lia). rewrite Hn1 by lia. by apply E7.
  - destruct (E1' r) as (<- & _). done.
  - destruct (E1' r) as (_ & _ & <-). done.
  - unfold h1, SetId. cbn [OptionalArg]. set (h2 := alter_config _ r h).
    assert (E2c : r_config (node h2 r) = set_cfg_Id id c) by (unfold h2; rewrite alter_config_config, decide_True, E11 by done; done).
    case_decide as Hid; [|rewrite E2c, Ec; reflexivity].
    unfold SetHasId, RebuildPaths. rewrite rebuild_config, alter_config_config, decide_True by (unfold h2; rewrite ?length_alter_config; done).
    rewrite E2c. by rewrite <- Ec.
Qed.

(** ** Copies of resources *)

Local Abbreviation act := (M Api).
Implicit Types (w : Api).

Lemma wp_heap {A} (m : M Heap A) (Q : A -> Api -> Prop) h l :
  Q (m h).1 {| resources := (m h).2; operations_ := l |} -> wp (zoom m) Q {| resources := h; operations_ := l |}.
Proof. done. Qed.

Lemma wp_copy_resource r w (Q : ref -> Api -> Prop) :
  tree (resources w) -> (forall x, own_tenancy (node (resources w) x) x) ->
  (forall r' h', made (resources w) r' (Type_ (resources w) r) (r_config (node (resources w) r)) h' ->
     Q r' {| resources := h'; operations_ := operations_ w |}) ->
  wp (copy_resource r) Q w.
Proof.
  destruct w as [h l]. cbn [resources operations_]. intros Ht Hown HQ. unfold copy_resource.
  apply wp_bind, wp_heap. cbn [fst snd gets]. apply wp_bind, wp_heap.
  pose proof (NewResource_made (Type_ h r) [r_config (node h r)] h Ht Hown) as Hm.
  destruct (NewResource _ _ h) as [r' h']. cbn [fst snd OptionalArg] in *. apply wp_bind. unfold HasId, Id.
  destruct (cfg_HasId (r_config (node h r))) eqn:Eh.
  - apply wp_heap, wp_ret, HQ. cbn [fst snd modify]. apply SetId_made; [|done].
    destruct (r_config (node h r)); cbn in *. by rewrite Eh.
  - by apply wp_ret, wp_ret, HQ.
Qed.

(** A property the handler keeps is kept by [EachOperation]. *)
Lemma until_error_keeps {S A E} (I : S -> Prop) (f : A -> M S (option E)) l s :
  (forall a s, I s -> I (f a s).2) -> I s -> I (until_error f l s).2.
Proof.
  intros Hf. revert s. induction l as [|a l IH]; intros s Hs; [done|]. cbn. unfold bind.
  pose proof (Hf a s Hs) as Ha. destruct (f a s) as [[e|] s']; [done|]. by apply IH.
Qed.
Lemma each_operation_keeps {E} (I : Api -> Prop) (handler : ref -> act (option E)) n rec r w :
  (forall o w, I w -> I (handler o w).2) -> I w -> I (each_operation n handler rec r w).2.
Proof.
  intros Hf. revert rec r w. induction n as [|n IH]; intros rec r w Hw; [done|]. cbn [each_operation].
  assert (Hsame : forall w, put (view w : Heap) w = w) by (intros; apply put_view).
  unfold bind, zoom, gets; cbn [fst snd]. rewrite Hsame.
  pose proof (until_error_keeps I handler (r_operations (node (view w) r)) w Hf Hw) as H1.
  destruct (until_error _ _ w) as [[e|] w']; [done|]. cbn in H1. destruct rec; [|done]. cbn [fst snd].
  rewrite Hsame. apply until_error_keeps; [|done]. intros a w2. apply IH.
Qed.

Lemma wp_Clone b r w (Q : ref -> Api -> Prop) :
  tree (resources w) -> (forall x, own_tenancy (node (resources w) x) x) ->
  (forall r' w', made (resources w) r' (Type_ (resources w) r) (r_config (node (resources w) r)) (resources w') ->
     (b = false -> operations_ w' = operations_ w) -> Q r' w') ->
  wp (Clone b r) Q w.
Proof.
  intros Ht Hown HQ. unfold Clone. apply wp_bind, wp_copy_resource; [done|done|]. intros r' h' Hm.
  set (w0 := {| resources := h'; operations_ := _ |}). apply wp_bind. destruct b; [|by apply wp_ret, wp_ret, HQ].
  apply wp_bind. unfold wp, ret; cbn [fst snd]. apply HQ; [|done]. unfold EachOperation, bind, zoom, gets; cbn [fst snd].
  rewrite put_view. set (ty := Type_ _ _) in *. set (c := r_config _) in *.
  apply (each_operation_keeps (fun w' => made (resources w) r' ty c (resources w'))); [|exact Hm].
  intros o w1 H1. unfold clone_operation, NewOperation, AddOperation, bind, zoom, gets, modify, ret.
  cbn [fst snd view put resources_lens operations_lens resources operations_]. by apply ops_made.
Qed.

(** ** The loop of [CloneChain] *)

(** The resources of [l], nearest first, were copied behind the heap [h0]; the copies are chained. *)
Record cloning (h0 : Heap) (l : list ref) (h1 : Heap) : Prop := {
  cl_length : length h1 = length h0 + length l;
  cl_tree : tree h1;
  cl_own x : own_tenancy (node h1 x) x;
  cl_ext : extends h0 h1;
  cl_look j x : l !! j = Some x -> look h1 (length h0 + j) = look h0 x;
  cl_parent j : j < length l -> Parent h1 (length h0 + j) = if decide (S j = length l) then None else Some (length h0 + S j);
  cl_closed c p : length h0 <= p -> c ∈ Children h1 p -> length h0 <= c
}.

Lemma look_extends h0 h1 x : extends h0 h1 -> x < length h0 -> look h1 x = look h0 x.
Proof. intros He Hx. unfold look, Type_. by rewrite (ext_node _ _ He x Hx). Qed.
Lemma made_look h r ty c h' : made h r ty c h' -> look h' r = (ty, c).
Proof. intros Hm. unfold look. by rewrite (made_type _ _ _ _ _ Hm), (made_config _ _ _ _ _ Hm). Qed.

Lemma cloning_start h0 r r' h1 : made h0 r' (Type_ h0 r) (r_config (node h0 r)) h1 -> cloning h0 [r] h1.
Proof.
  intros Hm. pose proof Hm as [E1 E2 E3 E4 E5 E6 E7 E8 E9 E10]. split; try done.
  - rewrite E2. cbn. lia.
  - intros [|j] x; [|done]. intros [= <-]. rewrite Nat.add_0_r, <- E1. by apply (made_look _ _ _ _ _ Hm).
  - intros [|j]; cbn; [|lia]. intros _. rewrite Nat.add_0_r, <- E1. by rewrite E7.
  - intros c p Hp Hc. destruct (decide (p = r')) as [->|Hne]; [rewrite E8 in Hc; by apply not_elem_of_nil in Hc|].
    unfold Children in Hc. rewrite node_out in Hc by lia. by apply not_elem_of_nil in Hc.
Qed.

Lemma cloning_step h0 l h1 p pc h2 :
  0 < length l -> p < length h0 -> cloning h0 l h1 -> made h1 pc (Type_ h1 p) (r_config (node h1 p)) h2 ->
  cloning h0 (l ++ [p]) (AddChild pc (length h0 + length l - 1) [false] h2).
Proof.
  intros Hl Hp [C1 C2 C3 C4 C5 C6 C7] Hm. pose proof Hm as [E1 E2 E3 E4 E5 E6 E7 E8 E9 E10].
  set (top := length h0 + length l - 1). assert (Htop : top < length h1) by (unfold top; lia).
  assert (Hpc : pc < length h2) by lia. assert (Htop2 : top < length h2) by lia. assert (Hne : top <> pc) by lia.
  assert (Hnot : ~ rtc (child_of h2) pc top).
  { intros H. apply rtc_inv in H as [H|(y & Hy & _)]; [lia|]. unfold child_of in Hy.
    destruct (decide (y = pc)) as [->|Hyp]; [rewrite E8 in Hy; by apply not_elem_of_nil in Hy|].
    destruct (decide (y < length h1)) as [Hyl|Hyl].
    - unfold Children in Hy. rewrite (ext_node _ _ E6 y Hyl) in Hy. pose proof (tree_dom h1 C2 y pc Hy). lia.
    - unfold Children in Hy. rewrite node_out in Hy by lia. by apply not_elem_of_nil in Hy. }
  assert (Hold : forall x, x < length h1 -> Parent h2 x = Parent h1 x /\ Children h2 x = Children h1 x /\ look h2 x = look h1 x).
  { intros x Hx. unfold Parent, Children. rewrite (ext_node _ _ E6 x Hx). split; [done|]. split; [done|].
    by apply look_extends. }
  split.
  - rewrite linked_length, E2, C1, length_app. cbn. lia.
  - by apply linked_tree.
  - by apply linked_own.
  - split; [rewrite linked_length; lia|]. intros x Hx. rewrite (linked_node pc top) by done.
    rewrite !decide_False by lia. rewrite (ext_node _ _ E6) by lia. by apply C4.
  - intros j x Hj. unfold look. rewrite (linked_Type pc top), (linked_config pc top) by done. fold (look h2 (length h0 + j)).
    apply lookup_app_Some in Hj as [Hj|[Hge Hj]].
    + pose proof (lookup_lt_Some _ _ _ Hj). destruct (Hold (length h0 + j)) as (_ & _ & ->); [lia|]. by apply C5.
    + destruct (j - length l) as [|k] eqn:Ek; [|done]. injection Hj as <-. replace (length h0 + j) with pc by lia.
      rewrite (made_look _ _ _ _ _ Hm). by apply (look_extends h0 h1).
  - intros j Hj. rewrite length_app in *. cbn [length] in *. rewrite (linked_Parent pc top) by done.
    destruct (decide (length h0 + j = top)) as [Ej|Ej].
    + rewrite decide_False by (unfold top in *; lia). f_equal. unfold top in *. lia.
    + destruct (decide (S j = length l + 1)) as [Elast|Elast].
      * replace (length h0 + j) with pc by lia. done.
      * destruct (Hold (length h0 + j)) as (-> & _); [unfold top in *; lia|]. rewrite C6 by (unfold top in *; lia).
        rewrite decide_False by (unfold top in *; lia). done.
  - intros c q Hq. rewrite (linked_Children pc top) by done. case_decide as Eq.
    + subst q. rewrite E8. cbn. intros ->%list_elem_of_singleton. unfold top. lia.
    + intros Hc. destruct (decide (q < length h1)) as [Hql|Hql].
      * destruct (Hold q Hql) as (_ & Ec & _). rewrite Ec in Hc. by apply (C7 c q).
      * unfold Children in Hc. rewrite node_out in Hc by lia. by apply not_elem_of_nil in Hc.
Qed.

Lemma cloning_below h0 l h1 j k : cloning h0 l h1 -> j + k < length l -> below h1 (length h0 + j) (length h0 + (j + k)).
Proof.
  intros C. revert j. induction k as [|k IH]; intros j Hj; [rewrite Nat.add_0_r; apply rtc_refl|].
  eapply rtc_l; [|replace (j + S k) with (S j + k) by lia; apply IH; lia].
  rewrite (cl_parent _ _ _ C) by lia. rewrite decide_False by lia. done.
Qed.

Lemma cloning_Parents h0 l h1 k j : cloning h0 l h1 -> j + S k = length l ->
  Parents h1 (length h0 + j) = seq (length h0 + S j) k.
Proof.
  intros C. revert j. induction k as [|k IH]; intros j Hj; pose proof (cl_parent _ _ _ C j ltac:(lia)) as Ep.
  - rewrite decide_True in Ep by lia. by apply Parents_nil.
  - rewrite decide_False in Ep by lia. rewrite (Parents_cons (cl_tree _ _ _ C) _ _ Ep). cbn [seq]. f_equal.
    rewrite IH by lia. f_equal. lia.
Qed.

(** Resources from [k] on have children from [k] on. *)
Definition closed_above (k : nat) (h : Heap) : Prop := forall c p, k <= p -> c ∈ Children h p -> k <= c.
Lemma closed_above_links k h h' : same_links h h' -> closed_above k h -> closed_above k h'.
Proof. intros [_ E] H c p Hp. destruct (E p) as (_ & <- & _). by apply H. Qed.

(** The copies after the last rebuild. *)
Lemma cloning_end h0 r h1 : inv h0 -> r < length h0 -> cloning h0 (r :: Parents h0 r) h1 ->
  let h' := RebuildPaths (length h0 + length (Parents h0 r)) h1 in
  inv h' /\ extends h0 h' /\ length h0 < length h' /\ alike h0 r h' (length h0) /\ closed_above (length h0) h'.
Proof.
  intros Hi Hr C h'. set (l := r :: Parents h0 r) in *. set (top := length h0 + length (Parents h0 r)) in *.
  pose proof (cl_length _ _ _ C) as Hlen. cbn [length] in Hlen.
  destruct (RebuildPaths_inv top h1) as [Hinv Es].
  - apply C.
  - unfold top. rewrite Hlen. unfold l. cbn [length]. lia.
  - apply C.
  - intros x Hx Hb. assert (Hlt : x < length h0).
    { destruct (decide (x < length h0)) as [?|Hge]; [done|]. exfalso. apply Hb.
      replace x with (length h0 + (x - length h0)) by lia. unfold top.
      replace (length (Parents h0 r)) with ((x - length h0) + (length (Parents h0 r) - (x - length h0))) by (unfold l in Hlen; cbn [length] in Hlen; lia).
      apply (cloning_below h0 l); [done|]. unfold l in *. cbn [length] in *. lia. }
    apply (extends_ok (inv_tree h0 Hi) (cl_ext _ _ _ C)); [done|]. by apply Hi.
  - split; [exact Hinv|]. split; [|split; [|split]].
    + destruct (cl_ext _ _ _ C) as [E1 E2]. split; [unfold h'; rewrite <- (same_shape_length _ _ Es); lia|].
      intros x Hx. destruct (rebuild_frame (fun y => length h0 <= y) (fuel h1) top h1) as [_ Hf].
      * intros c p Hp Hc. by apply (cl_closed _ _ _ C c p).
      * unfold top. lia.
      * unfold h', RebuildPaths. fold top. rewrite Hf by lia. by apply E2.
    + unfold h'. fold top. rewrite <- (same_shape_length _ _ Es), Hlen. unfold l. cbn [length]. lia.
    + unfold alike, line. rewrite !Chain_rev. unfold h'. fold top. rewrite <- (same_Parents Es).
      pose proof (cloning_Parents h0 l h1 (length (Parents h0 r)) 0 C) as EP. rewrite Nat.add_0_r in EP.
      rewrite EP by (unfold l; cbn [length]; lia).
      change (rev (seq (length h0 + 1) (length (Parents h0 r))) ++ [length h0]) with
        (rev (length h0 :: seq (length h0 + 1) (length (Parents h0 r)))).
      change (rev (Parents h0 r) ++ [r]) with (rev l). rewrite !map_rev. f_equal.
      replace (length h0 :: seq (length h0 + 1) (length (Parents h0 r))) with (seq (length h0) (length l))
        by (unfold l; cbn [length seq]; by rewrite Nat.add_1_r).
      apply list_eq. intros i. rewrite !(list_lookup_fmap (B := string * ResourceConfig)).
      destruct (decide (i < length l)) as [Hil|Hil].
      * destruct (lookup_lt_is_Some_2 l i Hil) as [x Ex]. rewrite lookup_seq_lt, Ex by done. cbn. f_equal.
        rewrite <- (cl_look _ _ _ C i x Ex). unfold look. by rewrite (same_Type Es), (same_config Es).
      * rewrite !lookup_ge_None_2; [done|lia|rewrite length_seq; lia].
    + apply (closed_above_links _ h1); [by apply same_shape_links|]. exact (cl_closed _ _ _ C).
Qed.

Lemma clone_parents_cloning b h0 ps : inv h0 -> forall l w,
  0 < length l -> (forall p, p ∈ ps -> p < length h0) -> cloning h0 l (resources w) ->
  wp (clone_parents b ps (length h0 + length l - 1))
    (fun top w' => top = length h0 + length (l ++ ps) - 1 /\ cloning h0 (l ++ ps) (resources w') /\
       (b = false -> operations_ w' = operations_ w)) w.
Proof.
  intros Hi. induction ps as [|p ps IH]; intros l w Hl Hps C; cbn [clone_parents].
  - apply wp_ret. by rewrite app_nil_r.
  - apply wp_bind, wp_Clone; [apply C|apply C|]. intros pc [h2 ops] Hm Hops. cbn [resources operations_] in Hm, Hops.
    apply wp_bind, wp_heap. cbn [fst snd modify].
    assert (Hp : p < length h0) by (apply Hps; by left).
    pose proof (cloning_step h0 l _ p pc h2 Hl Hp C Hm) as C'.
    assert (Epc : pc = length h0 + length (l ++ [p]) - 1).
    { rewrite length_app. cbn. pose proof (made_ref _ _ _ _ _ Hm). pose proof (cl_length _ _ _ C). lia. }
    rewrite Epc. replace (l ++ p :: ps) with ((l ++ [p]) ++ ps) by (by rewrite <- app_assoc).
    eapply wp_mono; [|apply (IH (l ++ [p])); [rewrite length_app; cbn; lia|intros q Hq; apply Hps; by right|]].
    + intros top w' (H1 & H2 & H3). split; [done|]. split; [done|]. intros Hb. rewrite H3 by done. by apply Hops.
    + cbn [resources]. rewrite <- Epc. exact C'.
Qed.

Lemma Parents_dom h r x : tree h -> x ∈ Parents h r -> x < length h.
Proof.
  intros Ht. unfold Parents. generalize (fuel h) as n. intros n. revert r. induction n as [|n IH]; intros r; cbn; [by intros ?%not_elem_of_nil|].
  destruct (Parent h r) as [p|] eqn:Ep; [|by intros ?%not_elem_of_nil].
  intros [->|Hx]%elem_of_cons; [by apply (parent_dom Ht r)|by apply (IH p)].
Qed.

Lemma wp_CloneChain b r w (Q : ref -> Api -> Prop) :
  inv (resources w) -> r < length (resources w) ->
  (forall w', inv (resources w') -> extends (resources w) (resources w') -> length (resources w) < length (resources w') ->
     alike (resources w) r (resources w') (length (resources w)) -> closed_above (length (resources w)) (resources w') ->
     (b = false -> operations_ w' = operations_ w) -> Q (length (resources w)) w') ->
  wp (CloneChain b r) Q w.
Proof.
  destruct w as [h l]. cbn [resources]. intros Hi Hr HQ. unfold CloneChain. apply wp_bind, wp_heap. cbn [fst snd gets].
  apply wp_bind, wp_copy_resource; [apply Hi|apply Hi|]. cbn [resources operations_]. intros r' h1 Hm.
  pose proof (cloning_start h r r' h1 Hm) as C. apply wp_bind. eapply wp_mono.
  2: { replace r' with (length h + length [r] - 1) by (rewrite (made_ref _ _ _ _ _ Hm); cbn; lia).
       apply (clone_parents_cloning b h (Parents h r) Hi [r]); [cbn; lia| |exact C].
       intros p. apply Parents_dom, Hi. }
  intros top [h2 ops] (-> & C2 & Hops). cbn [resources operations_] in C2, Hops. apply wp_bind, wp_heap, wp_ret. cbn [fst snd modify].
  change ([r] ++ Parents h r) with (r :: Parents h r) in *.
  replace (length h + length (r :: Parents h r) - 1) with (length h + length (Parents h r)) by (cbn; lia).
  destruct (cloning_end h r h2 Hi Hr C2) as (H1 & H2 & H3 & H4 & H5). rewrite (made_ref _ _ _ _ _ Hm). by apply HQ.
Qed.

(** Copies of chains.  [CloneChain] leaves every resource as it was and makes a new chain of
    the same types and configurations; the copy has the full paths, the path within the service
    and the tenancy of the original, and every resource of the heap keeps the paths of its
    chain. *)
Theorem CloneChain_same_paths b r w :
  inv (resources w) -> r < length (resources w) ->
  let '(r', w') := CloneChain b r w in
  length (resources w) <= r' < length (resources w') /\ inv (resources w') /\
  (forall x, x < length (resources w) -> node (resources w') x = node (resources w) x) /\
  same_paths (resources w) r (resources w') r' /\
  (forall x, x < length (resources w') -> paths_of_line (resources w') x).
Proof.
  intros Hi Hr. pose proof (wp_CloneChain b r w (fun r' w' => length (resources w) <= r' < length (resources w') /\ inv (resources w') /\
    (forall x, x < length (resources w) -> node (resources w') x = node (resources w) x) /\
    same_paths (resources w) r (resources w') r' /\ (forall x, x < length (resources w') -> paths_of_line (resources w') x)) Hi Hr) as H.
  destruct (CloneChain b r w) as [r' w'] eqn:E. unfold wp in H. rewrite E in H. apply H. clear H E r' w'.
  intros w2 Hi2 He Hlt Ha _ _. split; [lia|]. split; [done|]. split; [apply He|].
  split; [by apply alike_same_paths|]. intros x Hx. by apply paths_of_inv.
Qed.

(** ** Clients (common_operations.go) *)

Lemma SetId_frame k r id b h x : closed_above k h -> k <= r -> x < k -> node (SetId r id b h) x = node h x.
Proof.
  intros Hc Hr Hx. assert (Hreb : forall h', closed_above k h' -> node (RebuildPaths r h') x = node h' x).
  { intros h' Hc'. destruct (rebuild_frame (fun y => k <= y) (fuel h') r h') as [_ Hf]; [|done|apply Hf; lia].
    intros c p Hp Hch. by apply (Hc' c p). }
  assert (Halt : forall f h', node (alter_config f r h') x = node h' x) by (intros; apply node_insert_ne; lia).
  assert (Hcl : forall f h', closed_above k h' -> closed_above k (alter_config f r h'))
    by (intros; eapply closed_above_links; [apply alter_config_links|done]).
  assert (Hcr : forall h', closed_above k h' -> closed_above k (RebuildPaths r h')).
  { intros h' Hc'. eapply closed_above_links; [|exact Hc']. apply same_shape_links.
    by destruct (rebuild_frame (fun _ => True) (fuel h') r h'). }
  unfold SetId, SetHasId. case_decide; destruct (OptionalArg true b); rewrite ?Hreb, ?Halt, ?Hreb, ?Halt; auto.
Qed.

(** The path of the resource of an operation below a named one. *)
Lemma wp_SetId_last r id w (Q : unit -> Api -> Prop) :
  inv (resources w) -> r < length (resources w) ->
  (forall h', inv h' -> same_links (resources w) h' ->
     (forall x, r_config (node h' x) = if decide (x = r) then r_config (node h' r) else r_config (node (resources w) x)) ->
     cfg_Id (r_config (node h' r)) = id ->
     (id <> "" \/ cfg_HasId (r_config (node (resources w) r)) = true -> cfg_HasId (r_config (node h' r)) = true) ->
     (forall k x, closed_above k (resources w) -> k <= r -> x < k -> node h' x = node (resources w) x) ->
     Q tt {| resources := h'; operations_ := operations_ w |}) ->
  wp (zoom (modify (SetId r id []))) Q w.
Proof.
  destruct w as [h l]. cbn [resources operations_]. intros Hi Hr HQ. apply wp_heap. cbn [fst snd modify].
  destruct (SetId_inv r id [] h Hi Hr) as [Hi' Hl]; [by right|].
  assert (Ec : forall x, r_config (node (SetId r id [] h) x) = if decide (x = r) then
    (if decide (id <> "") then set_cfg_HasId true (set_cfg_Id id (r_config (node h r))) else set_cfg_Id id (r_config (node h r)))
    else r_config (node h x)).
  { intros x. unfold SetId, RebuildPaths. cbn [OptionalArg]. rewrite rebuild_config. case_decide as Hid.
    - unfold SetHasId, RebuildPaths. rewrite rebuild_config, alter_config_config by (by rewrite length_alter_config).
      rewrite !alter_config_config by done. rewrite (decide_True (P := r = r)) by done. by case_decide.
    - by rewrite alter_config_config. }
  apply HQ; try done.
  - intros x. rewrite !Ec. rewrite (decide_True (P := r = r)) by done. done.
  - rewrite Ec, decide_True by done. by case_decide.
  - intros Hor. rewrite Ec, decide_True by done. case_decide as Hid; [done|]. destruct Hor as [?|?]; done.
  - intros k x. apply SetId_frame.
Qed.

Lemma line_below h r x : tree h -> x ∈ line h r -> below h r x.
Proof.
  intros Ht. revert r. apply (parent_ind Ht (fun r => x ∈ line h r -> below h r x)). intros r IH Hx.
  destruct (Parent h r) as [p|] eqn:Ep.
  - rewrite (line_cons Ht _ _ Ep), elem_of_app, list_elem_of_singleton in Hx. destruct Hx as [Hx| ->]; [|apply rtc_refl].
    eapply rtc_l; [exact Ep|]. by apply IH.
  - rewrite (line_nil _ Ep), list_elem_of_singleton in Hx. subst. apply rtc_refl.
Qed.
Lemma not_in_line_of_parent h r p : tree h -> Parent h r = Some p -> r ∉ line h p.
Proof.
  intros Ht Ep Hin. pose proof (line_below h p r Ht Hin) as Hb. apply (tree_acyclic h Ht r).
  eapply tc_rtc_r; [|by apply (below_child_of Ht)]. by apply tc_once, (tree_up h Ht).
Qed.

(** The path above a resource. *)
Definition path_above (h : Heap) (r : ref) : string :=
  match Parent h r with Some p => FullActualPath h p | None => "" end.

(** [n] is a copy of [sample] with the identifier [id]. *)
Record named (h : Heap) (sample : ref) (id : string) (h' : Heap) (n : ref) : Prop := {
  nm_inv : inv h';
  nm_extends : extends h h';
  nm_new : length h <= n < length h';
  nm_path : id <> "" -> FullActualPath h' n = path_above h sample +:+ "/" +:+ id
}.

Lemma alike_parent h r h' r' : inv h -> r < length h -> inv h' -> r' < length h' -> alike h r h' r' ->
  path_above h' r' = path_above h r.
Proof.
  intros Hi Hr Hi' Hr' Ha. unfold path_above, alike in *. destruct (Parent h r) as [p|] eqn:Ep, (Parent h' r') as [p'|] eqn:Ep'.
  - rewrite (line_cons (inv_tree h Hi) _ _ Ep), (line_cons (inv_tree h' Hi') _ _ Ep'), !map_app in Ha.
    apply app_inj_tail in Ha as [Ha _]. apply (sp_actual h p h' p'). apply alike_same_paths; try done.
    + by apply (parent_dom (inv_tree h Hi) r).
    + by apply (parent_dom (inv_tree h' Hi') r').
  - rewrite (line_cons (inv_tree h Hi) _ _ Ep), (line_nil _ Ep'), map_app in Ha. exfalso.
    apply (f_equal length) in Ha. rewrite length_app, !length_map in Ha. cbn in Ha. unfold line in Ha.
    rewrite length_app in Ha. cbn in Ha. lia.
  - rewrite (line_nil _ Ep), (line_cons (inv_tree h' Hi') _ _ Ep'), map_app in Ha. exfalso.
    apply (f_equal length) in Ha. rewrite length_app, !length_map in Ha. cbn in Ha. unfold line in Ha.
    rewrite length_app in Ha. cbn in Ha. lia.
  - done.
Qed.

Lemma wp_named {A} sample id w (k : ref -> act A) (Q : A -> Api -> Prop) :
  inv (resources w) -> sample < length (resources w) ->
  (forall n w', named (resources w) sample id (resources w') n -> operations_ w' = operations_ w -> wp (k n) Q w') ->
  wp (let* n := CloneChain false sample in zoom (modify (SetId n id [])) ;; k n) Q w.
Proof.
  intros Hi Hr HQ. apply wp_bind, wp_CloneChain; [done|done|]. intros w1 Hi1 He Hlt Ha Hcl Hops.
  set (n := length (resources w)) in *. apply wp_bind, wp_SetId_last; [done|done|].
  intros h' Hi' Hl Hc Hid Hhas Hframe. apply HQ; [|by apply Hops]. cbn [resources]. pose proof Hl as [El E]. split; [done| | |].
  - split; [rewrite <- El; lia|]. intros x Hx. rewrite (Hframe n x Hcl) by done. by apply He.
  - rewrite <- El. lia.
  - intros Hne. assert (Hn : n < length h') by lia. destruct (own_fields Hi' n Hn) as (_ & A' & _ & F & _).
    rewrite F, A'. unfold HasId, Id, IsTenancy. rewrite Hid, (Hhas (or_introl Hne)), bool_decide_eq_false_2 by done.
    rewrite andb_false_r. cbn -[ConcatStrings]. rewrite ConcatStrings_two. f_equal.
    rewrite <- (alike_parent _ _ _ _ Hi Hr Hi1 Hlt Ha). unfold path_above. fold n. destruct (E n) as (<- & _).
    destruct (Parent (resources w1) n) as [p|] eqn:Ep; [|done].
    assert (Hp : p < length (resources w1)) by (by apply (parent_dom (inv_tree _ Hi1) n)).
    apply (sp_actual (resources w1) p h' p). apply alike_same_paths; [done|done|done|by rewrite <- El|].
    unfold alike. rewrite <- (same_links_line _ _ p Hl). apply map_ext_in. intros x Hx%list_elem_of_In.
    unfold look. rewrite Hc. rewrite decide_False.
    + by destruct (E x) as (_ & _ & <-).
    + intros ->. by apply (not_in_line_of_parent (resources w1) n p (inv_tree _ Hi1) Ep).
Qed.

(** The operation of a client: it belongs to a new resource whose path is known. *)
Record client_operation (w w' : Api) (path : string) (op : ref) : Prop := {
  co_inv : inv (resources w');
  co_extends : extends (resources w) (resources w');
  co_resource : exists x, o_resource (op_node (operations_ w') op) = Some x /\
    length (resources w) <= x < length (resources w') /\ FullActualPath (resources w') x = path /\
    op ∈ r_operations (node (resources w') x)
}.

Lemma ops_node_eq t ops g h : t < length h -> node (with_operations t ops g h) t = set_operations ops g (node h t).
Proof. intros Ht. unfold with_operations. by apply node_insert_eq. Qed.
Lemma op_node_SetResource r op l : op < length l -> o_resource (op_node (SetResource r op l) op) = Some r.
Proof. intros H. unfold SetResource, op_node. by rewrite list_lookup_insert_eq. Qed.

Lemma wp_AddOperation r op w (Q : unit -> Api -> Prop) :
  Q tt {| resources := with_operations r (r_operations (node (resources w) r) ++ [op]) (r_getter (node (resources w) r)) (resources w);
          operations_ := SetResource r op (operations_ w) |} -> wp (AddOperation r op []) Q w.
Proof. destruct w as [h l]. done. Qed.

(** An operation on a named resource itself. *)
Lemma wp_NamedResourceOperation sample id op w (Q : ref -> Api -> Prop) :
  inv (resources w) -> sample < length (resources w) -> op < length (operations_ w) -> id <> "" ->
  (forall w', client_operation w w' (path_above (resources w) sample +:+ "/" +:+ id) op -> Q op w') ->
  wp (NamedResourceOperation sample id op) Q w.
Proof.
  intros Hi Hr Hop Hid HQ. unfold NamedResourceOperation. apply wp_named; [done|done|]. intros n w1 [H1 H2 H3 H4] Hops.
  apply wp_bind, wp_AddOperation, wp_ret, HQ. set (ops := _ ++ [op]). set (g := r_getter _).
  pose proof (ops_shape n ops g (resources w1)) as Es. split; cbn [resources operations_].
  - by apply ops_inv.
  - split; [rewrite <- (same_shape_length _ _ Es); apply H2|]. intros x Hx. rewrite ops_node, decide_False by lia. by apply H2.
  - exists n. rewrite op_node_SetResource by (by rewrite Hops). rewrite <- (same_shape_length _ _ Es).
    rewrite ops_node_eq by lia. unfold FullActualPath. rewrite ops_node_eq by lia. split_and!; [done|lia|lia| |].
    + by apply H4.
    + apply elem_of_app. right. by left.
Qed.

Lemma rebuild_keeps {A} (f : ResourceBase -> A) n r h x :
  (forall b p R, f (rebuild_node b p R) = f R) -> f (node (rebuild n r h) x) = f (node h x).
Proof.
  intros Hf. revert r h. induction n as [|n IH]; [done|]. intros r h. cbn [rebuild].
  assert (E1 : f (node (<[r := rebuilt h r]> h) x) = f (node h x)).
  { rewrite node_insert. case_decide as Hx; [|done]. destruct Hx as [-> _]. apply Hf. }
  rewrite <- E1. generalize (<[r := rebuilt h r]> h) as h0. generalize (Children h r) as cs.
  induction cs as [|c cs IHcs]; intros h0; cbn; [done|]. by rewrite IHcs, IH.
Qed.

Lemma path_above_extends h h' r : tree h -> extends h h' -> r < length h -> path_above h' r = path_above h r.
Proof.
  intros Ht He Hr. unfold path_above, Parent. rewrite (ext_node _ _ He) by done. fold (Parent h r).
  destruct (Parent h r) as [p|] eqn:Ep; [|done]. unfold FullActualPath. rewrite (ext_node _ _ He); [done|].
  by apply (parent_dom Ht r).
Qed.

(** A leaf is linked below [n]. *)
Lemma AddChild_leaf n x h : inv h -> n < length h -> x < length h -> x <> n -> Children h x = [] ->
  let h' := AddChild n x [] h in
  inv h' /\ length h' = length h /\ (forall y, y <> n -> y <> x -> node h' y = node h y) /\
  FullActualPath h' x = FullActualPath h n +:+ ActualPath h' x /\
  r_config (node h' x) = r_config (node h x) /\ Type_ h' x = Type_ h x /\ r_operations (node h' x) = r_operations (node h x).
Proof.
  intros Hi Hn Hx Hne Hch h'.
  assert (Hnot : ~ rtc (child_of h) n x).
  { intros H. apply rtc_inv_r in H as [H|(y & _ & Hy)]; [done|]. unfold child_of in Hy. rewrite Hch in Hy.
    by apply not_elem_of_nil in Hy. }
  destruct (AddChild_inv n x h Hi Hn Hx Hnot) as [Hi' Es]. fold h' in Hi', Es.
  assert (Hframe : forall y, y <> x -> node h' y = node (AddChild n x [false] h) y).
  { intros y Hy. change h' with (RebuildPaths x (AddChild n x [false] h)).
    destruct (rebuild_frame (fun z => z = x) (fuel (AddChild n x [false] h)) x (AddChild n x [false] h)) as [_ Hf]; [|done|by apply Hf].
    intros a b -> Hc. unfold child_of in Hc. rewrite (linked_Children n x), decide_False, Hch in Hc by done.
    by apply not_elem_of_nil in Hc. }
  assert (El : length h' = length h) by (rewrite <- (same_shape_length _ _ Es); apply linked_length).
  assert (Hops : r_operations (node h' x) = r_operations (node h x)).
  { change h' with (RebuildPaths x (AddChild n x [false] h)). unfold RebuildPaths. rewrite (rebuild_keeps r_operations).
    - by rewrite (linked_node n x), decide_True by done.
    - intros b p R. unfold rebuild_node. by destruct p. }
  split; [done|]. split; [done|]. split.
  { intros y Hyn Hyx. rewrite Hframe, (linked_node n x), !decide_False by done. done. }
  split; [|split_and!; [| |done]].
  - destruct (own_fields Hi' x) as (_ & _ & _ & F & _); [by rewrite El|]. rewrite F, <- (same_Parent Es).
    rewrite (linked_Parent n x), decide_True by done. f_equal. unfold FullActualPath. rewrite Hframe by done.
    by rewrite (linked_node n x), decide_False, decide_True by done.
  - rewrite <- (same_config Es). by apply linked_config.
  - rewrite <- (same_Type Es). by apply linked_Type.
Qed.

(** An operation on a resource below a named one. *)
Lemma wp_OperationAsResource sample name id op w (Q : ref -> Api -> Prop) :
  inv (resources w) -> sample < length (resources w) -> op < length (operations_ w) -> id <> "" ->
  (forall w', client_operation w w' (path_above (resources w) sample +:+ "/" +:+ id +:+ "/" +:+ name) op -> Q op w') ->
  wp (OperationAsResource sample name id op) Q w.
Proof.
  destruct w as [h l]. cbn [resources operations_]. intros Hi Hr Hop Hid HQ. unfold OperationAsResource.
  apply wp_bind, wp_heap. pose proof (NewResource_made name [] h (inv_tree h Hi) (inv_tenancy h Hi)) as Hm.
  set (x := (NewResource name [] h).1) in *. set (h1 := (NewResource name [] h).2) in *. cbn [OptionalArg] in Hm.
  apply wp_bind, wp_AddOperation. cbn [resources operations_]. set (ops := _ ++ [op]). set (g := r_getter _).
  pose proof (ops_made x ops g h1 _ _ _ Hm) as Hm2. set (h2 := with_operations x ops g h1) in *.
  pose proof (made_inv _ _ _ _ _ Hi Hm2) as Hi2. pose proof (made_extends _ _ _ _ _ Hm2) as He2.
  pose proof (made_ref _ _ _ _ _ Hm2) as Ex. pose proof (made_length _ _ _ _ _ Hm2) as El2.
  apply wp_named; [done|cbn [resources]; lia|]. cbn [resources operations_]. intros n [h3 l3] [H1 H2 H3 H4] Hops.
  cbn [resources operations_] in *. subst l3. apply wp_bind, wp_heap, wp_ret, HQ. cbn [fst snd modify].
  assert (Hx3 : node h3 x = node h2 x) by (apply H2; lia).
  assert (Hch : Children h3 x = []) by (unfold Children; rewrite Hx3; apply Hm2).
  assert (Hx : x < length h3) by (pose proof (ext_length _ _ H2); lia).
  destruct (AddChild_leaf n x h3 H1) as (Hi4 & El4 & Hn4 & Hp4 & Hc4 & Ht4 & Ho4); [lia|done|lia|done|].
  set (h4 := AddChild n x [] h3) in *.
  assert (Hlook : r_config (node h4 x) = no_config /\ Type_ h4 x = name).
  { rewrite Hc4, Ht4. unfold Type_. rewrite Hx3. split; [apply (made_config _ _ _ _ _ Hm2)|apply (made_type _ _ _ _ _ Hm2)]. }
  assert (Ha4 : ActualPath h4 x = "/" +:+ name).
  { destruct (own_fields Hi4 x) as (P & A & _); [by rewrite El4|]. rewrite A, P. unfold HasId. by rewrite (proj1 Hlook), (proj2 Hlook). }
  split; cbn [resources operations_].
  - done.
  - split; [rewrite El4; pose proof (ext_length _ _ H2); lia|]. intros y Hy. rewrite Hn4 by lia.
    rewrite (ext_node _ _ H2) by lia. by apply He2.
  - exists x. rewrite op_node_SetResource by done. split; [done|]. rewrite El4. split; [lia|]. split.
    + rewrite Hp4, Ha4, H4 by done. rewrite (path_above_extends h h2); [by rewrite !str_app_assoc|apply Hi|done|done].
    + rewrite Ho4, Hx3. unfold h2. rewrite ops_node_eq by (pose proof (made_length _ _ _ _ _ Hm); lia).
      apply elem_of_app. right. by left.
Qed.

(** What a client calls.  The operation on a resource with an identifier, or on a part of
    it, belongs to a new resource whose path is the path above the sample, the identifier and
    the name of the part; the resources of the client are left as they were, so that clients
    can share them. *)
Theorem client_paths sample name id op w :
  inv (resources w) -> sample < length (resources w) -> op < length (operations_ w) -> id <> "" ->
  let above := path_above (resources w) sample in
  let named := NamedResourceOperation sample id op w in
  let part := OperationAsResource sample name id op w in
  named.1 = op /\ client_operation w named.2 (above +:+ "/" +:+ id) op /\
  part.1 = op /\ client_operation w part.2 (above +:+ "/" +:+ id +:+ "/" +:+ name) op.
Proof.
  intros Hi Hr Hop Hid above named part.
  assert (H1 : wp (NamedResourceOperation sample id op) (fun o w' => o = op /\ client_operation w w' (above +:+ "/" +:+ id) op) w)
    by (by apply wp_NamedResourceOperation).
  assert (H2 : wp (OperationAsResource sample name id op)
    (fun o w' => o = op /\ client_operation w w' (above +:+ "/" +:+ id +:+ "/" +:+ name) op) w)
    by (by apply wp_OperationAsResource).
  destruct H1, H2. done.
Qed.
