(* ===== verification/ApiReach.v ===== *)
(** * pkg/api: resources in every reachable state; links; a concrete tree

    However resources are made, linked, changed and copied, each keeps the paths of its chain.
    The links of pkg/api/hateoas.go are made from these paths. *)
From S2P Require Import Prelude Utils Access ApiResource ApiPaths ApiRoutes ApiClone.
From stdpp Require Import relations sorting.
Open Scope go_scope.
Import Resource.

(** ** Reachable states *)

Inductive change :=
| DoNew (resourceType : string) (config : list ResourceConfig)
| DoAddChild (r child : ref)
| DoSetId (r : ref) (id : string)
| DoSetHasId (r : ref) (val : bool)
| DoSetSetvice (r : ref) (val : bool)
| DoSetHost (r : ref) (host : string)
| DoFillActualPaths (r : ref) (ids : gmap string string)
| DoResetIds (r : ref)
| DoClone (r : ref) (withOperations : bool)
| DoCloneChain (r : ref) (withOperations : bool)
| DoNewOperation (name : string) (access : AccessType) (testOnly : list bool)
| DoAddOperation (r op : ref) (getter : list bool)
| DoRemoveOperations (r : ref) (access : AccessType)
| DoRemoveOperation (r : ref) (name : string).

(** Resources exist, and a resource is not put below itself. *)
Definition allowed (h : Heap) (c : change) : Prop :=
  match c with
  | DoNew _ _ | DoNewOperation _ _ _ => True
  | DoAddChild r child => r < length h /\ child < length h /\ ~ rtc (child_of h) r child
  | DoSetId r _ | DoSetHasId r _ | DoSetSetvice r _ | DoSetHost r _ | DoFillActualPaths r _ | DoResetIds r
  | DoClone r _ | DoCloneChain r _ | DoAddOperation r _ _ | DoRemoveOperations r _ | DoRemoveOperation r _ => r < length h
  end.

Definition drop {A} (m : M Api A) : M Api unit := m ;; ret tt.
Definition apply_change (c : change) : M Api unit :=
  match c with
  | DoNew ty cfg => drop (zoom (NewResource ty cfg))
  | DoAddChild r child => zoom (modify (AddChild r child []))
  | DoSetId r id => zoom (modify (SetId r id []))
  | DoSetHasId r val => zoom (modify (SetHasId r val))
  | DoSetSetvice r val => zoom (modify (SetSetvice r val))
  | DoSetHost r host => zoom (modify (SetHost r host))
  | DoFillActualPaths r ids => zoom (modify (FillActualPaths ids r))
  | DoResetIds r => zoom (modify (ResetIds r))
  | DoClone r b => drop (Clone b r)
  | DoCloneChain r b => drop (CloneChain b r)
  | DoNewOperation name access testOnly => drop (NewOperation name access testOnly)
  | DoAddOperation r op getter => AddOperation r op getter
  | DoRemoveOperations r access => RemoveOperations r access
  | DoRemoveOperation r name => RemoveOperation r name
  end.

Inductive api_step : Api -> Api -> Prop :=
| api_change w c : allowed (resources w) c -> api_step w (apply_change c w).2.

Definition no_api : Api := {| resources := []; operations_ := [] |}.
Lemma inv_nil : inv (resources no_api).
Proof.
  split; [split|cbn; lia|done].
  - intros r p. unfold Parent. by rewrite node_out by (cbn; lia).
  - intros p c. unfold Children. rewrite node_out by (cbn; lia). by intros ?%not_elem_of_nil.
  - assert (H : forall x y, tc (child_of (resources no_api)) x y -> False); [|eauto].
    induction 1 as [x y Hc|]; [|done]. unfold child_of, Children in Hc. rewrite node_out in Hc by (cbn; lia).
    by apply not_elem_of_nil in Hc.
Qed.

Lemma set_operations_inv r ops g h : inv h -> inv (<[r := set_operations ops g (node h r)]> h).
Proof. intros Hi. by apply (ops_inv r ops g h). Qed.
Lemma wp_drop {A} (m : M Api A) (Q : unit -> Api -> Prop) w : wp m (fun _ w' => Q tt w') w -> wp (drop m) Q w.
Proof. intros H. by apply wp_bind. Qed.

Lemma api_step_inv w w' : api_step w w' -> inv (resources w) -> inv (resources w').
Proof.
  intros [w0 c Ha] Hi. assert (H : wp (apply_change c) (fun _ w' => inv (resources w')) w0); [|exact H].
  destruct w0 as [h l]. cbn [resources] in *. destruct c; cbn [allowed apply_change] in *.
  - apply wp_drop, wp_heap. eapply made_inv; [exact Hi|]. by apply NewResource_made; apply Hi.
  - destruct Ha as (H1 & H2 & H3). apply wp_heap. by apply AddChild_inv.
  - apply wp_heap. apply SetId_inv; auto.
  - apply wp_heap. by apply SetHasId_inv.
  - apply wp_heap. by apply SetSetvice_inv.
  - apply wp_heap. by apply SetHost_inv.
  - apply wp_heap. by apply FillActualPaths_inv.
  - apply wp_heap. by apply ResetIds_inv.
  - apply wp_drop, wp_Clone; [apply Hi|apply Hi|]. intros r' w2 Hm _. by eapply made_inv.
  - apply wp_drop, wp_CloneChain; [done|done|]. done.
  - done.
  - by apply (set_operations_inv r _ _ h).
  - by apply (set_operations_inv r _ _ h).
  - by apply (set_operations_inv r _ _ h).
Qed.

Lemma reachable_inv w : rtc api_step no_api w -> inv (resources w).
Proof.
  intros Hs. assert (H : forall a b, rtc api_step a b -> inv (resources a) -> inv (resources b)).
  { induction 1 as [|a b c Hab _ IH]; [done|]. intros Ha. by eapply IH, api_step_inv. }
  by eapply H, inv_nil.
Qed.

(** [C16] The paths of resources.  Whatever tree an application builds, links, changes, fills with
    identifiers and copies, each resource keeps the paths of its chain of parents: the pattern
    of its route and its actual path are those of the resources from the top one on, its path
    within the service starts at the nearest service, and it is in a tenancy exactly when a
    resource of the chain is one, the nearest being its tenancy resource. *)
Theorem resource_paths w x :
  rtc api_step no_api w -> x < length (resources w) -> paths_of_line (resources w) x.
Proof.
  intros Hs. by apply paths_of_inv, reachable_inv.
Qed.

(** ** Links (hateoas.go, response.go) *)

Definition TargetSelf := "self".
Definition TargetParent := "parent".
Definition TargetChild := "parent".

Record HateoasLink := { Target : string; Operation : string; HttpMethod : string; l_Host : string; l_Path : string }.

(** The closure [addLink] of [MakeHateoasLinks], without the append. *)
Definition addLink (l : list OperationBase) (withTest : bool) (host path target : string) (operation : option ref) : list HateoasLink :=
  match operation with
  | None => []
  | Some o =>
      if testOnly (op_node l o) && negb withTest then []
      else [{| l_Host := host; HttpMethod := Access2HttpMethod (accessType (op_node l o)); l_Path := path;
               Operation := o_name (op_node l o); Target := target |}]
  end.
Definition MakeHateoasLinks (resource : ref) (withTestOps : list bool) (w : Api) : list HateoasLink :=
  let h := resources w in
  let add := addLink (operations_ w) (OptionalArg false withTestOps) in
  let addGetter target r := add (Host h r) (ActualPath h r) target (r_getter (node h r)) in
  flat_map (fun o => add (Host h resource) (FullActualPath h resource) TargetSelf (Some o)) (r_operations (node h resource)) ++
  flat_map (addGetter TargetChild) (Children h resource) ++
  match Parent h resource with Some p => addGetter TargetParent p | None => [] end.

(** The loop of [HateoasList] over the identifiers of the items: each with its links. *)
Fixpoint item_links (sampleResource : ref) (ids : list string) : M Api (list (string * list HateoasLink)) :=
  match ids with
  | [] => ret []
  | id :: rest =>
      zoom (modify (SetId sampleResource id [])) ;;
      let* links := gets (MakeHateoasLinks sampleResource []) in
      let* more := item_links sampleResource rest in
      ret ((id, links) :: more)
  end.
Definition HateoasList (ids : list string) (parentResource : ref) (resourceType : string) : M Api (list (string * list HateoasLink)) :=
  match ids with
  | [] => ret []
  | _ =>
      let* sampleResource := NamedResource resourceType in
      let* epResource := CloneChain true parentResource in
      zoom (modify (AddChild epResource sampleResource [])) ;;
      item_links sampleResource ids
  end.

(** ** A concrete tree *)

Module ApiDemo.
Definition run_changes (l : list change) (w : Api) : Api := foldl (fun w c => (apply_change c w).2) w l.

(** A service of users below the tenancies of a server, and an operation. *)
Definition with_id : ResourceConfig := set_cfg_HasId true no_config.
Definition tenancy_config : ResourceConfig :=
  {| cfg_Host := ""; cfg_HasId := true; cfg_Service := false; cfg_Id := ""; cfg_Tenancy := true |}.
Definition changes : list change :=
  [DoNew "tenancy" []; DoNew "tenancy" [tenancy_config]; DoAddChild 0 1;
   DoNew "users" [set_cfg_Service true no_config]; DoAddChild 1 2; DoNew "user" [with_id]; DoAddChild 2 3;
   DoNew "phone" []; DoAddChild 3 4; DoNewOperation "set_phone" Put []; DoAddOperation 4 0 []].
Definition server : Api := run_changes changes no_api.
Definition ids : gmap string string := list_to_map [("tenancy", "acme"); ("user", "u1")].
(** The resources of a client: users, and one with an identifier. *)
Definition client : Api :=
  run_changes [DoNew "users" [set_cfg_Service true no_config]; DoNew "user" [with_id]; DoAddChild 0 1;
               DoNewOperation "set_phone" Put []] no_api.
End ApiDemo.

Lemma leaf_allowed h r c : Children h c = [] -> r <> c -> ~ rtc (child_of h) r c.
Proof.
  intros Hc Hne H. apply rtc_inv_r in H as [H|(y & _ & Hy)]; [done|]. unfold child_of in Hy. rewrite Hc in Hy.
  by apply not_elem_of_nil in Hy.
Qed.

(** A sequence of changes, each allowed where it is made. *)
Fixpoint all_allowed (l : list change) (w : Api) : Prop :=
  match l with [] => True | c :: l => allowed (resources w) c /\ all_allowed l (apply_change c w).2 end.
Lemma run_changes_reachable l w : all_allowed l w -> rtc api_step w (ApiDemo.run_changes l w).
Proof.
  revert w. induction l as [|c l IH]; intros w; [intros; apply rtc_refl|]. intros [Hc Hl].
  eapply rtc_l; [by apply api_change|]. by apply IH.
Qed.

Ltac all_allowed_go :=
  repeat (split; [cbn [allowed]; first [exact I|split_and!; [vm_compute; lia|vm_compute; lia|
    apply leaf_allowed; [vm_compute; reflexivity|lia]]|vm_compute; lia]|]); exact I.

Section Witnesses.
Import ApiDemo.

Lemma server_reachable : rtc api_step no_api server.
Proof. apply run_changes_reachable. all_allowed_go. Qed.
Lemma client_reachable : rtc api_step no_api client.
Proof. apply run_changes_reachable. all_allowed_go. Qed.
Lemma server_paths : FullPathPrototype (resources server) 4 = "/tenancy/:tenancy/users/:user/phone" /\
  ServicePathPrototype (resources server) 4 = "/users/:user/phone" /\ 4 < length (resources server).
Proof. vm_compute. split; [done|]. split; [done|lia]. Qed.

Lemma resource_paths_witness :
  FullPathPrototype (resources server) 4 = "/tenancy/:tenancy/users/:user/phone" /\ paths_of_line (resources server) 4.
Proof. exact (conj (proj1 server_paths) (resource_paths server 4 server_reachable (proj2 (proj2 server_paths)))). Defined.

Lemma request_covered : ids_cover (resources server) ids (line (resources server) 4).
Proof. unfold ids_cover. vm_compute. repeat constructor; intros E; try discriminate E; eexists; (split; [reflexivity|discriminate]). Qed.
Lemma request_built : BuildActualPath ids [] (resources server) 4 = "/tenancy/acme/users/u1/phone" /\
  BuildActualPath ids [true] (resources server) 4 = "/users/u1/phone".
Proof. vm_compute. done. Qed.

Lemma request_path_witness :
  BuildActualPath ids [] (resources server) 4 = "/tenancy/acme/users/u1/phone" /\
  FullActualPath (FillActualPaths ids 4 (resources server)) 4 = BuildActualPath ids [] (resources server) 4.
Proof.
  exact (conj (proj1 request_built) (proj1 (request_path ids 4 (resources server) (reachable_inv server server_reachable)
    (proj2 (proj2 server_paths)) request_covered))).
Defined.

Lemma CloneChain_same_paths_witness :
  let '(r', w') := CloneChain true 4 server in
  5 <= r' < length (resources w') /\ inv (resources w') /\
  (forall x, x < length (resources server) -> node (resources w') x = node (resources server) x) /\
  same_paths (resources server) 4 (resources w') r' /\
  (forall x, x < length (resources w') -> paths_of_line (resources w') x).
Proof. exact (CloneChain_same_paths true 4 server (reachable_inv server server_reachable) (proj2 (proj2 server_paths))). Defined.

Lemma client_bounds : 1 < length (resources client) /\ 0 < length (operations_ client).
Proof. vm_compute. lia. Qed.
Lemma client_above : path_above (resources client) 1 = "/users".
Proof. vm_compute. reflexivity. Qed.
Lemma u1_nonempty : "u1" <> "". Proof. discriminate. Qed.

Lemma client_paths_witness :
  path_above (resources client) 1 = "/users" /\
  client_operation client (OperationAsResource 1 "phone" "u1" 0 client).2
    (path_above (resources client) 1 +:+ "/" +:+ "u1" +:+ "/" +:+ "phone") 0.
Proof.
  exact (conj client_above (proj2 (proj2 (proj2 (client_paths 1 "phone" "u1" 0 client (reachable_inv client client_reachable)
    (proj1 client_bounds) (proj2 client_bounds) u1_nonempty))))).
Defined.

(** The path with a tenancy keeps the colon of the pattern and replaces the group of tenancies. *)
Example tenancy_path_with_colon :
  FullActualTenancyPath (resources (run_changes [DoSetId 3 "u1"] server)) 4 "acme" = Some "/acme/:acme/users/u1/phone".
Proof. vm_compute. reflexivity. Qed.

(** A copy has the operations of the resources below the original. *)
Example clone_has_operations_below :
  let '(r', w') := Clone true 2 server in
  r_operations (node (resources server) 2) = [] /\
  map (fun o => o_name (op_node (operations_ w') o)) (r_operations (node (resources w') r')) = ["set_phone"].
Proof. vm_compute. done. Qed.

(** The items of a list have no links, also when their resource has a getter. *)
Example list_items_without_links :
  let w := (AddOperation 3 0 [true] server).2 in
  (HateoasList ["u1"; "u2"] 2 "user" w).1 = [("u1", []); ("u2", [])].
Proof. vm_compute. reflexivity. Qed.
End Witnesses.
