(* ===== verification/Server.v ===== *)
(** * pkg/api/api_server: endpoints, services and the REST server

    The server finds the tenancy of a request, passes the request through the anti-CSRF
    handler and the authorization, runs the handler of the endpoint and replies.  Its state is
    the context of the request ([AuthContext]), its HTTP side ([Http]: parameters of the route,
    response, replies sent), the tree of resources ([Api]), the loaded tenancies ([Loaded]) and
    the environment, each a component of the data [X].  The router, the parsing of HTTP and of
    configuration files are the framework's. *)
From S2P Require Import Prelude GoTime Utils Common Errors OpContext Access Auth TenancyData Tenancy ApiResource ApiReach.
Open Scope go_scope.

(** ** Responses (response.go of api and api_server) *)

Record ResponseError := { re_Code : string; re_Message : string; re_Details : string }.
Definition ResponseGenericError (responseError : option ResponseError) : option error :=
  match responseError with
  | None => None
  | Some e => Some (SetDetails (re_Details e) (New (re_Code e) [re_Message e]))
  end.

(** Messages of responses, by the interface [WithHateoasLinks]. *)
Class WithHateoasLinks (Msg : Type) := { SetHateoasLinks : list HateoasLink -> Msg -> Msg }.

Record ResponseBase (Msg : Type) := { r_message : option Msg; r_text : string; redirectResourcePath : string; httpCode : Z }.
Arguments r_message {Msg}.
Arguments r_text {Msg}.
Arguments redirectResourcePath {Msg}.
Arguments httpCode {Msg}.

(** What is written to the client. *)
Inductive Reply (Msg : Type) :=
| Redirect (code : Z) (path : string)
| Text (code : Z) (text : string)
| Json (code : Z) (message : Msg)
| JsonError (code : Z) (e : ResponseError)
| Status (code : Z).
Arguments Redirect {Msg}.
Arguments Text {Msg}.
Arguments Json {Msg}.
Arguments JsonError {Msg}.
Arguments Status {Msg}.

(** The HTTP side of a request: the parameters of its route in order, the query of its URL. *)
Record Http (Msg : Type) := {
  params : list (string * string); raw_query : string; response : ResponseBase Msg; replies : list (Reply Msg)
}.
Arguments params {Msg}.
Arguments raw_query {Msg}.
Arguments response {Msg}.
Arguments replies {Msg}.

Definition StatusOK : Z := 200.
Definition StatusFound : Z := 302.

Section Http_.
Context {Msg : Type}.
Implicit Types (h : Http Msg) (r : ResponseBase Msg).

Definition set_response r h : Http Msg := {| params := params h; raw_query := raw_query h; response := r; replies := replies h |}.
Definition send_reply (r : Reply Msg) h : Http Msg := {| params := params h; raw_query := raw_query h; response := response h; replies := replies h ++ [r] |}.
Definition new_response : ResponseBase Msg := {| r_message := None; r_text := ""; redirectResourcePath := ""; httpCode := StatusOK |}.

Definition SetText (text : string) r : ResponseBase Msg :=
  {| r_message := r_message r; r_text := text; redirectResourcePath := redirectResourcePath r; httpCode := httpCode r |}.
Definition SetRedirectPath (path : string) r : ResponseBase Msg :=
  {| r_message := r_message r; r_text := r_text r; redirectResourcePath := path; httpCode := httpCode r |}.
Definition set_message (m : Msg) r : ResponseBase Msg :=
  {| r_message := Some m; r_text := r_text r; redirectResourcePath := redirectResourcePath r; httpCode := httpCode r |}.
End Http_.

(** ** Endpoints and the server (endpoint.go, server.go) *)

(** An HTTP request as the framework gives it. *)
Record HttpRequest := {
  hr_method : string; hr_params : list (string * string); hr_RawQuery : string; hr_headers : gmap string string;
  hr_content : string; hr_client_ip : string; hr_user_agent : string
}.

(** An endpoint is an operation of a resource, [ep_op], with a handler. *)
Record Endpoint (P X : Type) := {
  ep_op : ref;
  (** The error it returns; [None] is a panic. *)
  HandleRequest : M (St P X) (option (option error));
  PrecheckRequestBeforeAuth : HttpRequest -> string -> string * option error;
  ep_ErrorDescriptions : gmap string string;
  ep_ErrorProtocolCodes : gmap string Z
}.
Arguments ep_op {P X}.
Arguments HandleRequest {P X}.
Arguments PrecheckRequestBeforeAuth {P X}.
Arguments ep_ErrorDescriptions {P X}.
Arguments ep_ErrorProtocolCodes {P X}.

Definition TenancyParameter := "tenancy".

Record ServerConfig := {
  PATH_PREFIX : string; API_VERSION : string; HATEOAS : bool; OPLOG_USER_TYPE : string;
  ALLOW_NOT_ACTIVE_TENANCY : bool; AUTH_FROM_TENANCY_DB : bool
}.

(** The application of the server. *)
Record AppContext := { Application : string; AppInstance : string; Hostname : string; Testing : bool }.

(** [Auth] is the interface [auth.Auth]; a route is a method, a path and an endpoint. *)
Record Server (P X : Type) := {
  config : ServerConfig;
  s_app : AppContext;
  errors : ErrorManagerBase.t;
  isMultiTenancy : bool;
  csrf : option (AuthHandler P X);
  AuthRequest : string -> AccessType -> M (St P X) (option error);
  tenancyResource : option ref;
  routes : list (string * string * Endpoint P X)
}.
Arguments config {P X}.
Arguments s_app {P X}.
Arguments errors {P X}.
Arguments isMultiTenancy {P X}.
Arguments csrf {P X}.
Arguments AuthRequest {P X}.
Arguments tenancyResource {P X}.
Arguments routes {P X}.

(** A computation on a part of the state, in the whole. *)
Definition lift {P X Y A} `{!Lens X Y} (m : M (St P Y) A) : M (St P X) A := fun st =>
  let r := m (Build_St (st_trace st) (st_op st) (view (st_ext st))) in
  (r.1, Build_St (st_trace r.2) (st_op r.2) (put (st_ext r.2) (st_ext st))).

Section Server_.
Context {P X Msg : Type} `{HL : !WithHateoasLinks Msg}.
Context `{Lc : !Lens X AuthContext, Lh : !Lens X (Http Msg), La : !Lens X Api, Ll : !Lens X Loaded, Le : !Lens X Env}.
Local Abbreviation act := (M (St P X)).
Implicit Types (s : Server P X) (ep : Endpoint P X).

(** The operation and the resource of an endpoint. *)
Definition operation_of (w : Api) ep : OperationBase := op_node (operations_ w) (ep_op ep).
Definition resource_of (w : Api) ep : ref := default 0 (o_resource (operation_of w ep)).
Definition api : act Api := on (gets (fun w : Api => w)).

(** ** Requests (request.go of both packages) *)

Definition with_tenancy (t : option string) (c : AuthContext) : AuthContext :=
  {| request_path := request_path c; request_method := request_method c; request_content := request_content c;
     client_ip := client_ip c; user_agent := user_agent c; precheck := precheck c; request_headers := request_headers c;
     response_headers := response_headers c; session_ := session_ c; client_ := client_ c; authUser := authUser c; tenancy := t |}.

Definition ResourceIds (ps : list (string * string)) : gmap string string :=
  foldl (fun m param => <[param.1 := param.2]> m) ∅ ps.
(** [ginCtx.Param]: the first parameter of the name. *)
Definition GetResourceId (ps : list (string * string)) (resourceType : string) : string :=
  match List.find (fun p => bool_decide (p.1 = resourceType)) ps with Some p => p.2 | None => "" end.

Definition FullRequestPath (w : Api) ep (ps : list (string * string)) : string :=
  Resource.BuildActualPath (ResourceIds ps) [] (resources w) (resource_of w ep).
Definition FullRequestServicePath (w : Api) ep (ps : list (string * string)) : string :=
  Resource.BuildActualPath (ResourceIds ps) [true] (resources w) (resource_of w ep).

(** [Init] of a request: the context of an operation, the interface [auth.AuthContext], an
    empty response. *)
Definition Init_context (id : string) s (w : Api) ep : Op P :=
  {| op_id := id; op_name := o_name (operation_of w ep); genericError := None; oplogs := []; errorManager := errors s;
     dbTransaction := false; errorAsWarn := false; writeCloseLog := true; origin := None; logs := [] |}.
Definition Init_auth (w : Api) ep (r : HttpRequest) : AuthContext :=
  {| request_path := FullRequestServicePath w ep (hr_params r); request_method := hr_method r; request_content := hr_content r;
     client_ip := hr_client_ip r; user_agent := hr_user_agent r; precheck := PrecheckRequestBeforeAuth ep r;
     request_headers := hr_headers r; response_headers := ∅; session_ := ""; client_ := ""; authUser := None; tenancy := None |}.
Definition Init_http (r : HttpRequest) : Http Msg := {| params := hr_params r; raw_query := hr_RawQuery r; response := new_response; replies := [] |}.

Definition SetTenancy (t : TenancyBase) : act unit := on (modify (with_tenancy (Some (Db.GetID (tb_db t))))).

Definition reply (r : Reply Msg) : act unit := on (modify (send_reply r)).

(** [SetMessage] of the response. *)
Definition SetMessage_ s ep (m : Msg) : act unit :=
  let* w := api in
  on (modify (fun h : Http Msg =>
    set_response (set_message (if HATEOAS (config s) then SetHateoasLinks (MakeHateoasLinks (resource_of w ep) [] w) m else m)
                              (response h)) h)).

Definition MakeResponseError s (gerr : error) : Z * ResponseError :=
  let e := Some gerr in
  (ErrorManagerBase.ErrorProtocolCode (errors s) (Code e), {| re_Code := Code e; re_Message := Message e; re_Details := Details e |}).

(** The reply of a request without a generic error. *)
Definition success_reply (r : ResponseBase Msg) : Reply Msg :=
  if decide (redirectResourcePath r <> "") then Redirect StatusFound (redirectResourcePath r)
  else if decide (r_text r <> "") then Text (httpCode r) (r_text r)
  else match r_message r with Some m => Json (httpCode r) m | None => Status (httpCode r) end.

(** The handler of operation logs of the application. *)
Variable WriteOplog : Oplog P -> act (option error).

Definition CloseRequest s : act unit :=
  let* err := GenericError in
  (match err with
   | None => let* h := on (gets (fun h : Http Msg => h)) in reply (success_reply (response h))
   | Some gerr =>
       let '(code, err) := MakeResponseError s gerr in
       (if (code <? StatusInternalServerError)%Z then SetErrorAsWarn true else ret tt) ;;
       reply (JsonError code err)
   end) ;;
  Close WriteOplog [""].

(** ** The handler of requests (server.go) *)

Definition NewOrigin (a : AppContext) : Origin :=
  {| App := Application a; OpContext.Name := AppInstance a; Source := Hostname a; SessionClient := ""; User := ""; UserType := "" |}.
Definition set_origin (g : Origin) (o : Op P) : Op P :=
  {| op_id := op_id o; op_name := op_name o; genericError := genericError o; oplogs := oplogs o; errorManager := errorManager o;
     dbTransaction := dbTransaction o; errorAsWarn := errorAsWarn o; writeCloseLog := writeCloseLog o; origin := Some g; logs := logs o |}.
Definition request_origin s (c : AuthContext) : Origin :=
  let g := NewOrigin (s_app s) in
  {| App := App g; OpContext.Name := OpContext.Name g; Source := client_ip c; SessionClient := client_ c;
     User := match authUser c with Some u => Display u | None => "" end; UserType := OPLOG_USER_TYPE (config s) |}.
Definition SetOrigin s : act unit :=
  let* c := on (gets (fun c : AuthContext => c)) in on_op (modify (set_origin (request_origin s c))).

(** [if err == nil { m }] *)
Definition unless (err : option error) (m : act (option error)) : act (option error) :=
  match err with None => m | Some _ => ret err end.

(** The tenancy of the request, and an error; [None] is the panic of [IsActive]. *)
Definition find_tenancy s ep (c : nat) : act (option (option TenancyBase * option error)) :=
  let* w := api in
  if isMultiTenancy s && Resource.IsInTenancy (resources w) (resource_of w ep) then
    let* h := on (gets (fun h : Http Msg => h)) in
    let tenancyInPath := GetResourceId (params h) TenancyParameter in
    let* m := on (gets (fun m : Loaded => m)) in
    match TenancyManager.TenancyByPath tenancyInPath m with
    | inr err =>
        SetGenericErrorCode ErrorCodeNotFound [] ;;
        SetMessage c "unknown tenancy" ;;
        ret (Some (None, Some err))
    | inl tenancy =>
        match (if ALLOW_NOT_ACTIVE_TENANCY (config s) then Some true else TenancyBase.IsActive tenancy) with
        | None => ret None
        | Some false =>
            SetGenericErrorCode ErrorCodeNotFound [] ;;
            ret (Some (Some tenancy, Some (Native "tenancy is not active")))
        | Some true =>
            (if AUTH_FROM_TENANCY_DB (config s) then SetTenancy tenancy else ret tt) ;;
            ret (Some (Some tenancy, None))
        end
    end
  else ret (Some (None, None)).

Definition process_csrf s : act (option error) :=
  match csrf s with
  | None => ret None
  | Some h => let* '(_, err) := Handle h in ret err
  end.
Definition process_auth s ep : act (option error) :=
  let* w := api in
  let* err := AuthRequest s (Resource.ServicePathPrototype (resources w) (resource_of w ep)) (accessType (operation_of w ep)) in
  match err with
  | Some _ => SetGenericErrorCode Auth.ErrorCodeUnauthorized [] ;; ret err
  | None => ret None
  end.
Definition call_endpoint ep : act (option (option error)) :=
  let* res := HandleRequest ep in
  match res with
  | Some (Some _) => SetGenericErrorCode ErrorCodeInternalServerError [] ;; ret res
  | _ => ret res
  end.

(** What is done before the handler of the endpoint. *)
Definition admission s ep (c : nat) : act (option (option error)) :=
  let* found := find_tenancy s ep c in
  match found with
  | None => ret None
  | Some (tenancy, err) =>
      let* err := unless err (process_csrf s) in
      let* err := unless err (process_auth s ep) in
      SetOrigin s ;;
      (match tenancy with
       | Some t => if AUTH_FROM_TENANCY_DB (config s) then ret tt else SetTenancy t
       | None => ret tt
       end) ;;
      ret (Some err)
  end.

(** A panic is recovered by the framework. *)
Definition requestHandler s ep : act unit :=
  let* c := TraceInMethod "Server.RequestHandler" in
  let* admitted := admission s ep c in
  match admitted with
  | None => reply (Status StatusInternalServerError)
  | Some err =>
      let* res := match err with None => call_endpoint ep | Some _ => ret (Some err) end in
      match res with
      | None => reply (Status StatusInternalServerError)
      | Some err =>
          (match err with Some _ => SetError c err ;; ret tt | None => ret tt end) ;;
          TraceOutMethod ;;
          CloseRequest s
      end
  end.

(** A request that comes to the server: the state before its handler. *)
Definition Init_request s ep (r : HttpRequest) (x : X) : St P X :=
  let w := view (A := Api) x in
  let '(id, x) := zoom GenerateID x in
  Build_St {| calls := []; stack := []; errorStack := None |} (Init_context id s w ep)
    (put (Init_http r) (put (Init_auth w ep r) x)).
Definition serve s ep (r : HttpRequest) : M X (Op P) := fun x =>
  let st := (requestHandler s ep (Init_request s ep r x)).2 in (st_op st, st_ext st).
End Server_.
