(* ===== verification/ServerRequest.v ===== *)
(** * The REST server: what a request goes through

    A request reaches the handler of its endpoint only through the tenancy of its path, the
    anti-CSRF handler and the authorization; otherwise the handler is not run.  Every request
    is answered once, and an error is never answered as a success. *)
From S2P Require Import Prelude GoTime Utils Common Errors OpContext Access Auth Db Crypt PoolData Pool PoolStore Users Customer TenancyData Tenancy TenancyInv TenancyReach ApiResource ApiReach Server.
Open Scope go_scope.

Section Request.
Context {P X Msg : Type} `{HL : !WithHateoasLinks Msg}.
Context `{Lc : !Lens X AuthContext, Lh : !Lens X (Http Msg), La : !Lens X Api, Ll : !Lens X Loaded, Le : !Lens X Env}.
Local Abbreviation act := (M (St P X)).
Local Abbreviation state := (St P X).
Variable WriteOplog : Oplog P -> act (option error).
Implicit Types (s : Server P X) (ep : Endpoint P X) (st : state).

(** Components of a state. *)
Definition ctx_of st : AuthContext := view (st_ext st).
Definition http_of st : Http Msg := view (st_ext st).
Definition api_of st : Api := view (st_ext st).
Definition loaded_of st : Loaded := view (st_ext st).

(** ** What is promised by the handlers a server is given *)

(** An error of the handler comes with a generic error for the reply. *)
Definition reports (h : AuthHandler P X) : Prop := forall st,
  (Handle h st).1.2 <> None -> genericError (st_op (Handle h st).2) <> None.
(** The tenancy of the request stays, and nothing is sent. *)
Definition keeps_request {A} (m : act A) : Prop := forall st,
  tenancy (ctx_of (m st).2) = tenancy (ctx_of st) /\ http_of (m st).2 = http_of st.

Record server_ok s : Prop := {
  so_csrf h : csrf s = Some h -> reports h /\ keeps_request (Handle h);
  so_auth path access : keeps_request (AuthRequest s path access)
}.

(** ** The stages of a request *)

Definition in_tenancy s ep st : bool :=
  isMultiTenancy s && Resource.IsInTenancy (resources (api_of st)) (resource_of (api_of st) ep).

(** The tenancy the path of the request names, loaded and, unless the server allows others,
    active. *)
Definition named_tenancy s st (t : TenancyBase) : Prop :=
  tenanciesByPath (loaded_of st) !! GetResourceId (params (http_of st)) TenancyParameter = Some t /\
  (ALLOW_NOT_ACTIVE_TENANCY (config s) = true \/ TenancyBase.IsActive t = Some true).

(** The anti-CSRF handler answers without an error. *)
Definition csrf_passes s st st' : Prop :=
  match csrf s with
  | None => st' = st
  | Some h => (Handle h st).1.2 = None /\ st' = (Handle h st).2
  end.
Definition auth_passes s ep st st' : Prop :=
  let w := api_of st in
  AuthRequest s (Resource.ServicePathPrototype (resources w) (resource_of w ep)) (accessType (operation_of w ep)) st = (None, st').

(** The data of a request that is put in a tenancy, if any. *)
Definition put_in (tn : option TenancyBase) (x : X) : X :=
  match tn with Some t => put (with_tenancy (Some (GetID (tb_db t))) (view x)) x | None => x end.
(** The tenancy of a request: the one its path names, if its resource is in one. *)
Definition tenancy_found s ep st (tn : option TenancyBase) : Prop :=
  match tn with Some t => in_tenancy s ep st = true /\ named_tenancy s st t | None => in_tenancy s ep st = false end.

(** The state [st2] in which the handler of the endpoint is run.  The anti-CSRF handler is run on the
    context and the data of the request, in its tenancy if the server authorizes from the database of
    the tenancy; the authorization on what that handler leaves; the endpoint on what the
    authorization leaves, with the origin of the request, and in its tenancy. *)
Record admitted s ep st st2 : Prop := {
  ad_tenancy : in_tenancy s ep st = true -> exists t, named_tenancy s st t /\ tenancy (ctx_of st2) = Some (GetID (tb_db t));
  ad_http : http_of st2 = http_of st;
  ad_handlers : exists tn sa sb sc, tenancy_found s ep st tn /\
    st_op sa = st_op st /\ st_ext sa = (if AUTH_FROM_TENANCY_DB (config s) then put_in tn (st_ext st) else st_ext st) /\
    csrf_passes s sa sb /\ auth_passes s ep sb sc /\
    st_op st2 = set_origin (request_origin s (ctx_of sc)) (st_op sc) /\
    st_ext st2 = (if AUTH_FROM_TENANCY_DB (config s) then st_ext sc else put_in tn (st_ext sc))
}.

(** ** Replies *)

Definition error_reply s (e : error) : Reply Msg := let '(code, e) := MakeResponseError s e in JsonError code e.
Definition is_error_reply (r : Reply Msg) : Prop :=
  match r with JsonError _ _ => True | Status code => code = StatusInternalServerError | _ => False end.

(** The reply to a request whose handler ended with [res], a panic or an error, in a state. *)
Definition reply_after s (res : option (option error)) st : Reply Msg :=
  match res, genericError (st_op st) with
  | None, _ => Status StatusInternalServerError
  | Some _, Some e => error_reply s e
  | Some (Some _), None => error_reply s (coded (st_op st) ErrorCodeInternalServerError)
  | Some None, None => success_reply (response (http_of st))
  end.

(** The handler of operation logs writes no reply. *)
Definition writes_no_reply : Prop := forall l st, http_of (WriteOplog l st).2 = http_of st.
Hypothesis Hw : writes_no_reply.
Context `{Dhe : !Disjoint_lens X (Http Msg) Env} `{Dhc : !Disjoint_lens X (Http Msg) AuthContext}.
Context `{Dlc : !Disjoint_lens X Loaded AuthContext}.

Lemma Close_http msg st : http_of (Close WriteOplog msg st).2 = http_of st.
Proof.
  unfold Close, bind. cbn [on_op gets fst snd]. set (write_all := fix w (l : list (Oplog P)) := _). cbn [st_op].
  assert (H : forall l st, http_of (write_all l st).2 = http_of st).
  { induction l as [|l0 l IH]; intros st0; [done|]. cbn [write_all]. unfold bind. rewrite IH, Hw. cbn.
    unfold http_of, on, on_ext, zoom. cbn. apply view_put_l. }
  set (l := oplogs _). set (st1 := (write_all l _).2). transitivity (http_of st1); [|by unfold st1; rewrite H; destruct st].
  unfold DumpLog, bind. cbn. destruct (errorStack _); [|destruct (writeCloseLog _ && _)].
  - by destruct (foldl _ _ _).
  - done.
  - done.
Qed.

Lemma CloseRequest_reply s st :
  replies (http_of (CloseRequest WriteOplog s st).2) =
  replies (http_of st) ++ [match genericError (st_op st) with Some e => error_reply s e | None => success_reply (response (http_of st)) end].
Proof.
  unfold CloseRequest, bind. cbn [GenericError on_op gets fst snd st_op]. rewrite Close_http.
  destruct (genericError (st_op st)) as [e|]; cbn [fst snd].
  - unfold error_reply. destruct (MakeResponseError s e) as [code r]. destruct (code <? _)%Z;
      unfold reply, on, on_ext, zoom, http_of; cbn; by rewrite view_put.
  - unfold reply, on, on_ext, zoom, http_of. cbn. by rewrite put_view, view_put.
Qed.
(** ** The stages in turn *)

Lemma wp_gets_on {Y} `{!Lens X Y} {A} (f : Y -> A) (Q : A -> state -> Prop) st : Q (f (view (st_ext st))) st -> wp (on (gets f)) Q st.
Proof. destruct st as [t o x]. unfold wp, on, on_ext, zoom. cbn. by rewrite put_view. Qed.
Lemma wp_SetGenericErrorCode code (Q : unit -> state -> Prop) st :
  Q tt (Build_St (st_trace st) (with_code code (st_op st)) (st_ext st)) -> wp (SetGenericErrorCode code []) Q st.
Proof.
  destruct st as [t o x]. unfold wp, SetGenericErrorCode, MakeGenericError, SetGenericError, bind, on_op, with_code. cbn -[bool_decide].
  destruct (genericError o) eqn:E; [|done]. by rewrite !bool_decide_eq_false_2.
Qed.
Lemma wp_same_data {A} (m : act A) (Q : A -> state -> Prop) st :
  (forall a t, Q a (Build_St t (st_op st) (st_ext st))) ->
  st_op (m st).2 = st_op st -> st_ext (m st).2 = st_ext st -> wp m Q st.
Proof. unfold wp. intros HQ. destruct (m st) as [a [t o x]]. cbn. intros -> ->. apply HQ. Qed.
Lemma wp_SetTenancy t (Q : unit -> state -> Prop) st :
  (forall st', st_op st' = st_op st -> st_ext st' = put_in (Some t) (st_ext st) -> Q tt st') -> wp (SetTenancy t) Q st.
Proof. intros HQ. by apply HQ. Qed.
Lemma put_in_http tn x : view (A := Http Msg) (put_in tn x) = view x.
Proof. destruct tn; [apply view_put_l|done]. Qed.
Lemma put_in_tenancy t x : tenancy (view (put_in (Some t) x)) = Some (GetID (tb_db t)).
Proof. cbn. by rewrite view_put. Qed.
Lemma with_code_some code (o : Op P) : genericError (with_code code o) <> None.
Proof. by rewrite with_code_genericError. Qed.

Definition found_post s ep st (r : option (option TenancyBase * option error)) st1 : Prop :=
  http_of st1 = http_of st /\
  match r with
  | None => True
  | Some (_, Some _) => genericError (st_op st1) <> None
  | Some (found, None) =>
      tenancy_found s ep st found /\ st_op st1 = st_op st /\
      st_ext st1 = (if AUTH_FROM_TENANCY_DB (config s) then put_in found (st_ext st) else st_ext st)
  end.
Lemma wp_find_tenancy s ep c st : wp (find_tenancy s ep c) (found_post s ep st) st.
Proof.
  unfold find_tenancy, api. apply wp_bind, wp_gets_on. change (view (st_ext st)) with (api_of st) at 1 2.
  destruct (isMultiTenancy s && _) eqn:Ei; [|apply wp_ret; split_and!; try done; by destruct (AUTH_FROM_TENANCY_DB (config s))].
  apply wp_bind, wp_gets_on, wp_bind, wp_gets_on. unfold TenancyManager.TenancyByPath.
  destruct (tenanciesByPath _ !! _) as [t|] eqn:Et.
  - destruct (if ALLOW_NOT_ACTIVE_TENANCY (config s) then _ else _) as [[]|] eqn:Ea.
    + assert (Hn : named_tenancy s st t). { split; [done|]. destruct (ALLOW_NOT_ACTIVE_TENANCY (config s)); auto. }
      apply wp_bind. destruct (AUTH_FROM_TENANCY_DB (config s)) eqn:Ef.
      * apply wp_SetTenancy. intros st' Eo Ex. apply wp_ret. split; [unfold http_of; by rewrite Ex, put_in_http|].
        split; [by split|]. split; [done|]. by rewrite Ex, Ef.
      * apply wp_ret, wp_ret. split; [done|]. split; [by split|]. split; [done|]. by rewrite Ef.
    + apply wp_bind, wp_SetGenericErrorCode, wp_ret. split; [done|apply with_code_some].
    + by apply wp_ret.
  - apply wp_bind, wp_SetGenericErrorCode, wp_bind, wp_same_data; [|done|done]. intros _ tr. apply wp_ret.
    split; [done|apply with_code_some].
Qed.

Lemma wp_SetOrigin s (Q : unit -> state -> Prop) st :
  (forall st', st_ext st' = st_ext st -> st_op st' = set_origin (request_origin s (ctx_of st)) (st_op st) -> Q tt st') -> wp (SetOrigin s) Q st.
Proof. intros HQ. unfold SetOrigin. by apply wp_bind, wp_gets_on, HQ. Qed.

Definition admit_post s ep st (r : option (option error)) st1 : Prop :=
  http_of st1 = http_of st /\
  match r with None => True | Some (Some _) => genericError (st_op st1) <> None | Some None => admitted s ep st st1 end.

(** The last steps: the origin, and the tenancy if it is not there yet. *)
Lemma wp_late s tn (Q : option (option error) -> state -> Prop) err st :
  (forall st', st_op st' = set_origin (request_origin s (ctx_of st)) (st_op st) ->
     st_ext st' = (if AUTH_FROM_TENANCY_DB (config s) then st_ext st else put_in tn (st_ext st)) -> Q (Some err) st') ->
  wp (SetOrigin s ;;
      (match tn with Some t => if AUTH_FROM_TENANCY_DB (config s) then ret tt else SetTenancy t | None => ret tt end) ;;
      ret (Some err)) Q st.
Proof.
  intros HQ. apply wp_bind, wp_SetOrigin. intros st1 Ex Eo. apply wp_bind.
  destruct tn as [t|]; destruct (AUTH_FROM_TENANCY_DB (config s)); try (do 2 apply wp_ret; by apply HQ).
  apply wp_SetTenancy. intros st2 Eo2 Ex2. apply wp_ret. apply HQ; [congruence|]. by rewrite Ex2, Ex.
Qed.

Lemma wp_process_csrf s (Q : option error -> state -> Prop) st : server_ok s ->
  (forall err st', http_of st' = http_of st -> tenancy (ctx_of st') = tenancy (ctx_of st) ->
     match err with Some _ => genericError (st_op st') <> None | None => csrf_passes s st st' end -> Q err st') ->
  wp (process_csrf s) Q st.
Proof.
  intros [Hc _] HQ. unfold process_csrf, csrf_passes in *. destruct (csrf s) as [h|]; [|by apply wp_ret, HQ].
  destruct (Hc h eq_refl) as [Hr Hk]. specialize (Hr st). specialize (Hk st). destruct Hk as [Ht Hh].
  apply wp_bind. unfold wp. destruct (Handle h st) as [[found err] st'] eqn:E. cbn in *. apply HQ; [done|done|].
  destruct err; [by apply Hr|done].
Qed.
Lemma wp_process_auth s ep (Q : option error -> state -> Prop) st : server_ok s ->
  (forall err st', http_of st' = http_of st -> tenancy (ctx_of st') = tenancy (ctx_of st) ->
     match err with Some _ => genericError (st_op st') <> None | None => auth_passes s ep st st' end -> Q err st') ->
  wp (process_auth s ep) Q st.
Proof.
  intros [_ Ha] HQ. unfold process_auth, auth_passes in *. apply wp_bind, wp_gets_on. change (view (st_ext st)) with (api_of st).
  set (path := Resource.ServicePathPrototype _ _) in *. set (access := accessType _) in *.
  destruct (Ha path access st) as [Ht Hh]. apply wp_bind. unfold wp. destruct (AuthRequest s path access st) as [err st'] eqn:E.
  cbn in *. change (wp (match err with Some _ => SetGenericErrorCode ErrorCodeUnauthorized [] ;; ret err | None => ret None end) Q st').
  destruct err as [e|]; [|by apply wp_ret, HQ].
  apply wp_bind, wp_SetGenericErrorCode, wp_ret, HQ; [done|done|apply with_code_some].
Qed.

Lemma wp_admit s ep c st : server_ok s -> wp (admission s ep c) (admit_post s ep st) st.
Proof.
  intros Hok. unfold admission. apply wp_bind. eapply wp_mono, wp_find_tenancy. intros r sa [Eh Hr].
  destruct r as [[tn err]|]; [|by apply wp_ret]. apply wp_bind.
  assert (Hrefuse : forall e st1, http_of st1 = http_of st -> genericError (st_op st1) <> None ->
    wp (SetOrigin s ;;
      (match tn with Some t => if AUTH_FROM_TENANCY_DB (config s) then ret tt else SetTenancy t | None => ret tt end) ;;
      ret (Some (Some e))) (admit_post s ep st) st1).
  { intros e st1 E1 Eg. apply wp_late. intros st2 E2 Ex2. split; [|by rewrite E2]. rewrite <- E1. unfold http_of. rewrite Ex2.
    destruct (AUTH_FROM_TENANCY_DB (config s)); [done|apply put_in_http]. }
  destruct err as [e|]; cbn [unless].
  { apply wp_ret, wp_bind, wp_ret. by apply Hrefuse. }
  destruct Hr as (Ht & Eo & Ex). apply wp_process_csrf; [done|]. intros err sb Ehb Etb Hb. apply wp_bind.
  destruct err as [e|]; cbn [unless]; [apply wp_ret, Hrefuse; [congruence|done]|].
  apply wp_process_auth; [done|]. intros err sc Ehc Etc Hc.
  destruct err as [e|]; [apply Hrefuse; [congruence|done]|].
  apply wp_late. intros st2 E2 Ex2. assert (Eh2 : http_of st2 = http_of st).
  { transitivity (http_of sc); [|congruence]. unfold http_of. rewrite Ex2. destruct (AUTH_FROM_TENANCY_DB (config s)); [done|apply put_in_http]. }
  split; [done|]. split; [|done|by exists tn, sa, sb, sc].
  intros Hi. destruct tn as [t|]; cbn in Ht; [|congruence]. exists t. split; [apply Ht|].
  unfold ctx_of in *. rewrite Ex2. destruct (AUTH_FROM_TENANCY_DB (config s)); [|apply put_in_tenancy].
  rewrite Etc, Etb, Ex. apply put_in_tenancy.
Qed.

(** ** The whole request *)

Lemma admit_operation s ep ep' c st : ep_op ep' = ep_op ep -> admission s ep' c st = admission s ep c st.
Proof. destruct ep, ep'. cbn. by intros ->. Qed.

Lemma wp_close s err c (Q : unit -> state -> Prop) st :
  (forall st', replies (http_of st') = replies (http_of st) ++
     [match genericError (st_op st) with Some e => error_reply s e | None => success_reply (response (http_of st)) end] -> Q tt st') ->
  wp ((match err with Some _ => SetError c err ;; ret tt | None => ret tt end) ;; TraceOutMethod ;; CloseRequest WriteOplog s) Q st.
Proof.
  intros HQ. assert (H : forall st1, st_op st1 = st_op st -> st_ext st1 = st_ext st -> wp (TraceOutMethod ;; CloseRequest WriteOplog s) Q st1).
  { intros st1 Eo Ex. apply wp_bind, wp_same_data.
    - intros [] tr. unfold wp. generalize (CloseRequest_reply s (Build_St tr (st_op st1) (st_ext st1))).
      destruct (CloseRequest WriteOplog s _) as [[] st']. cbn [fst snd]. intros E. apply HQ. rewrite E. unfold http_of. cbn. by rewrite Eo, Ex.
    - unfold TraceOutMethod, on_trace. by destruct (last _).
    - unfold TraceOutMethod, on_trace. by destruct (last _). }
  apply wp_bind. destruct err; [|by apply wp_ret, H]. apply wp_bind, wp_same_data; [|done|done]. intros _ tr. by apply wp_ret, H.
Qed.

Local Abbreviation traced_in st := (TraceInMethod "Server.RequestHandler" st).2.
Local Abbreviation call_of st := (TraceInMethod "Server.RequestHandler" st).1.
Definition after_admit s ep (c : nat) (a : option (option error)) : act unit :=
  match a with
  | None => reply (Status StatusInternalServerError)
  | Some err =>
      let* res := match err with None => call_endpoint ep | Some _ => ret (Some err) end in
      match res with
      | None => reply (Status StatusInternalServerError)
      | Some err =>
          (match err with Some _ => SetError c err ;; ret tt | None => ret tt end) ;;
          TraceOutMethod ;;
          CloseRequest WriteOplog s
      end
  end.
Lemma requestHandler_run s ep st : requestHandler WriteOplog s ep st =
  (let r := admission s ep (call_of st) (traced_in st) in after_admit s ep (call_of st) r.1 r.2).
Proof. done. Qed.
Lemma refused_same s ep ep' st : ep_op ep' = ep_op ep -> (admission s ep (call_of st) (traced_in st)).1 <> Some None ->
  requestHandler WriteOplog s ep' st = requestHandler WriteOplog s ep st.
Proof.
  intros He Hr. rewrite !requestHandler_run, (admit_operation s ep ep') by done.
  by destruct (admission s ep _ _) as [[[e|]|] st1].
Qed.

Definition refused_reply st st' : Prop := exists r, is_error_reply r /\ replies (http_of st') = replies (http_of st) ++ [r].

Definition served s ep st1 (a : option (option error)) st' : Prop :=
  match a with
  | Some None => exists res st3, HandleRequest ep st1 = (res, st3) /\ replies (http_of st') = replies (http_of st3) ++ [reply_after s res st3]
  | _ => refused_reply st1 st'
  end.
Lemma wp_after_admit s ep c a st1 :
  match a with Some (Some _) => genericError (st_op st1) <> None | _ => True end ->
  wp (after_admit s ep c a) (fun _ => served s ep st1 a) st1.
Proof.
  destruct a as [err|]; cbn [after_admit served]; intros Hg; cycle 1.
  { exists (Status StatusInternalServerError). split; [done|]. unfold reply, on, on_ext, zoom, http_of. cbn. by rewrite view_put. }
  apply wp_bind. destruct err as [e|].
  - apply wp_ret. apply (wp_close s (Some e) c). intros st' E. destruct (genericError (st_op st1)) as [g|]; [|done].
    eexists. split; [|exact E]. unfold error_reply. by destruct (MakeResponseError s g).
  - unfold call_endpoint. apply wp_bind.
    assert (Hend : forall R : option (option error) -> state -> Prop, (forall res st3, HandleRequest ep st1 = (res, st3) -> R res st3) ->
      wp (HandleRequest ep) R st1) by (intros ? HP; unfold wp; destruct (HandleRequest ep st1); by apply HP).
    apply Hend. intros [err|] st3 E; cycle 1.
    { apply wp_ret. exists None, st3. split; [done|]. unfold reply, on, on_ext, zoom, http_of. cbn. by rewrite view_put. }
    assert (H : forall st4, http_of st4 = http_of st3 -> reply_after s (Some err) st3 =
      match genericError (st_op st4) with Some e => error_reply s e | None => success_reply (response (http_of st4)) end ->
      wp ((match err with Some _ => SetError c err ;; ret tt | None => ret tt end) ;; TraceOutMethod ;; CloseRequest WriteOplog s)
        (fun _ => served s ep st1 (Some None)) st4).
    { intros st4 Eh Er. apply (wp_close s err c). intros st' E'. exists (Some err), st3. split; [done|]. by rewrite E', Er, Eh. }
    unfold reply_after in H. destruct err as [e|].
    + apply wp_bind, wp_SetGenericErrorCode, wp_ret, H; [done|]. cbn. unfold with_code.
      by destruct (genericError (st_op st3)) as [g|] eqn:Eg; rewrite ?Eg.
    + apply wp_ret, H; [done|]. by destruct (genericError (st_op st3)).
Qed.

Lemma request_cases s ep st : server_ok s ->
  let st' := (requestHandler WriteOplog s ep st).2 in
  (exists st2 res st3, admitted s ep st st2 /\ HandleRequest ep st2 = (res, st3) /\
     replies (http_of st') = replies (http_of st3) ++ [reply_after s res st3]) \/
  ((forall ep', ep_op ep' = ep_op ep -> requestHandler WriteOplog s ep' st = requestHandler WriteOplog s ep st) /\
   exists r, is_error_reply r /\ replies (http_of st') = replies (http_of st) ++ [r]).
Proof.
  intros Hok. pose proof (wp_admit s ep (call_of st) (traced_in st) Hok) as [Hh Ha].
  pose proof (fun ep' He => refused_same s ep ep' st He) as Hsame.
  pose proof (wp_after_admit s ep (call_of st) (admission s ep (call_of st) (traced_in st)).1 (admission s ep (call_of st) (traced_in st)).2) as Hs.
  unfold wp in Hs. cbv zeta. change (after_admit _ _ _ _ _) with (requestHandler WriteOplog s ep st) in Hs.
  set (st' := (requestHandler WriteOplog s ep st).2) in *. destruct (admission s ep _ _) as [[[e|]|] st1]; cbn [fst snd served] in *.
  - right. split; [by intros; apply Hsame|]. destruct (Hs Ha) as (r & Hr & E). exists r. split; [done|]. rewrite E, Hh. by destruct st.
  - left. destruct (Hs I) as (err & st3 & E & E'). exists st1, err, st3. split; [|done]. destruct st, Ha. by split.
  - right. split; [by intros; apply Hsame|]. destruct (Hs I) as (r & Hr & E). exists r. split; [done|]. rewrite E, Hh. by destruct st.
Qed.
End Request.

Section Theorems.
Context {P X Msg : Type} `{HL : !WithHateoasLinks Msg}.
Context `{Lc : !Lens X AuthContext, Lh : !Lens X (Http Msg), La : !Lens X Api, Ll : !Lens X Loaded, Le : !Lens X Env}.
Context `{Dhe : !Disjoint_lens X (Http Msg) Env} `{Dhc : !Disjoint_lens X (Http Msg) AuthContext}.
Context `{Dlc : !Disjoint_lens X Loaded AuthContext}.
Variable WriteOplog : Oplog P -> M (St P X) (option error).
Hypothesis Hw : writes_no_reply WriteOplog.

(** [C31] What happens to a request.  A request reaches the handler of its endpoint only when the
    tenancy its path names is loaded and active, the anti-CSRF handler, run on this very request,
    answered without an error, and the authorization of the endpoint's path within the service and
    of its access, run on what that handler left, accepted it.  The handler of the endpoint is run on
    what the authorization left, with the origin of the authorized user and in the tenancy; where the
    server authorizes from the database of the tenancy, the tenancy is set before.  The request is answered once, by
    the response of the handler, or by an error when the handler panicked, returned one or left a generic
    error.  In every other case the handler is not run, and one error is sent. *)
Theorem request_outcome s ep st : server_ok s ->
  let st' := (requestHandler WriteOplog s ep st).2 in
  (exists st2 res st3, admitted s ep st st2 /\ HandleRequest ep st2 = (res, st3) /\
     replies (http_of st') = replies (http_of st3) ++ [reply_after s res st3]) \/
  ((forall ep', ep_op ep' = ep_op ep -> requestHandler WriteOplog s ep' st = requestHandler WriteOplog s ep st) /\
   exists r, is_error_reply r /\ replies (http_of st') = replies (http_of st) ++ [r]).
Proof. by apply request_cases. Qed.

(** ** The tenancy of a request *)

Section Tenancy.
Context `{Et : !Engine TenancyDb, Eto : !EngineOk TenancyDb, Ec : !Engine Customer, Eco : !EngineOk Customer}.
Context `{Em : !Engine TenancyMeta, Emo : !EngineOk TenancyMeta, Tj : !TenancyJoin, Tjo : !TenancyJoinOk}.
Context `{Ds : !DbServers, Un : !Uniuri, Pp : !PoolPublishers}.
Variables (Pools : PoolStoreBase) (DB_PREFIX : string) (models : TenancyDbModels).

(** [C32] A request works in its own tenancy.  When the server shares the tenancies an application
    loaded, in any state the application reaches: a request to a resource of a tenancy either is
    refused without running its handler, or its handler is run with the tenancy that is loaded
    under the path in the request, connected to a database that carries that tenancy's ID. *)
Theorem request_in_own_tenancy (s : Server P X) ep st w w' : server_ok s ->
  initial w -> rtc (step Pools DB_PREFIX models) w w' -> loaded_of st = loaded w' -> in_tenancy s ep st = true ->
  let st' := (requestHandler WriteOplog s ep st).2 in
  (exists st2 id t c, tenancy (ctx_of st2) = Some id /\
     tenanciesById (loaded w') !! id = Some t /\ Path (tb_db t) = GetResourceId (params (http_of st)) TenancyParameter /\
     tb_Db t = Some c /\ conn_id c ∈ connections (databases w') /\ belongs_to (conn_database c) id (databases w') /\
     replies (http_of st') = replies (http_of (HandleRequest ep st2).2) ++ [reply_after s (HandleRequest ep st2).1 (HandleRequest ep st2).2]) \/
  ((forall ep', ep_op ep' = ep_op ep -> requestHandler WriteOplog s ep' st = requestHandler WriteOplog s ep st) /\
   exists r, is_error_reply r /\ replies (http_of st') = replies (http_of st) ++ [r]).
Proof.
  intros Hok Hi Hs El Hin st'. destruct (request_cases WriteOplog Hw s ep st Hok) as [(st2 & err & st3 & Had & E & Er)|H]; [|by right].
  left. destruct (ad_tenancy _ _ _ _ Had Hin) as (t & (Hp & _) & Htn). pose proof (reachable_ok Pools DB_PREFIX models w w' Hi Hs) as Hm.
  rewrite El in Hp. destruct (mo_path w' Hm _ t Hp) as [Epath Hid]. destruct (mo_id w' Hm _ t Hid) as (_ & c & Ec' & Hc & Hb).
  exists st2, (GetID (tb_db t)), t, c. rewrite E. by split_and!.
Qed.
End Tenancy.
End Theorems.
