(* ===== verification/ServerBuild.v ===== *)
(** * pkg/api/api_server: building a server from services

    A service is a tree of resources with endpoints.  It is attached to a server: the server
    puts it below its tenancies if asked to, adds the errors of its endpoints and a route for
    each.  Here are the attachment and the services the library has itself; endpoints are told
    from other operations by a table. *)
From S2P Require Import Prelude GoTime Utils Common Errors OpContext Access Auth TenancyData ApiResource ApiReach Server.
Open Scope go_scope.

Section Building.
Context {P X : Type}.
Implicit Types (s : Server P X) (ep : Endpoint P X).

Record Building := { b_server : Server P X; b_api : Api }.
#[export] Instance building_heap : Lens Building Heap.
Proof.
  by refine {| view b := resources (b_api b);
    put h b := {| b_server := b_server b; b_api := {| resources := h; operations_ := operations_ (b_api b) |} |} |}; try intros [? []].
Defined.
#[export] Instance building_operations : Lens Building (list OperationBase).
Proof.
  by refine {| view b := operations_ (b_api b);
    put l b := {| b_server := b_server b; b_api := {| resources := resources (b_api b); operations_ := l |} |} |}; try intros [? []].
Defined.
Definition update_server (f : Server P X -> Server P X) : M Building unit :=
  modify (fun b => {| b_server := f (b_server b); b_api := b_api b |}).

Definition set_errors (e : ErrorManagerBase.t) s : Server P X :=
  {| config := config s; s_app := s_app s; errors := e; isMultiTenancy := isMultiTenancy s; csrf := csrf s; AuthRequest := AuthRequest s;
     tenancyResource := tenancyResource s; routes := routes s |}.
Definition set_routes (r : list (string * string * Endpoint P X)) s : Server P X :=
  {| config := config s; s_app := s_app s; errors := errors s; isMultiTenancy := isMultiTenancy s; csrf := csrf s; AuthRequest := AuthRequest s;
     tenancyResource := tenancyResource s; routes := r |}.

(** An end other than success. *)
Inductive stop := Panicked | Failed (e : error).

(** [AttachToErrorManager] of endpoints, services and handlers. *)
Definition attach_errors (descriptions : gmap string string) (codes : gmap string Z) s : Server P X :=
  set_errors (ErrorManagerBase.AddErrorProtocolCodes codes (ErrorManagerBase.AddErrorDescriptions descriptions (errors s))) s.

(** [Init]: [auth] adds the errors of the authorization. *)
Definition Init (cfg : ServerConfig) (a : AppContext) (authErrors : ErrorManagerBase.t -> ErrorManagerBase.t)
    (authRequest : string -> AccessType -> M (St P X) (option error)) (multi : bool) (csrfHandler : option (AuthHandler P X)) :
  M Api (Server P X) :=
  let* t :=
    if multi then
      let* parent := zoom (Resource.NewResource TenancyParameter []) in
      let* tenancy := zoom (Resource.NewResource TenancyParameter
        [{| cfg_Host := ""; cfg_HasId := true; cfg_Service := false; cfg_Id := ""; cfg_Tenancy := true |}]) in
      zoom (modify (Resource.AddChild parent tenancy [])) ;;
      ret (Some tenancy)
    else ret None in
  let s := {| config := cfg; s_app := a; errors := authErrors ErrorManagerBase.InitHttp; isMultiTenancy := multi; csrf := csrfHandler;
              AuthRequest := authRequest; tenancyResource := t; routes := [] |} in
  ret (match csrfHandler with
       | None => s
       | Some h => attach_errors (h_ErrorDescriptions h) (h_ErrorProtocolCodes h) s
       end).

(** [s.tenancyResource.AddChild(ep.Resource().ServiceResource())]; [false] is the nil dereference. *)
Definition add_to_tenancies s ep : M Building bool :=
  let* w := gets b_api in
  match tenancyResource s, Resource.ServiceResource (resources w) (resource_of w ep) with
  | Some t, Some service => zoom (modify (Resource.AddChild t service [])) ;; ret true
  | _, _ => ret false
  end.

Definition route_path s (w : Api) ep : string :=
  PATH_PREFIX (config s) +:+ "/" +:+ API_VERSION (config s) +:+ Resource.FullPathPrototype (resources w) (resource_of w ep).
Definition Handle_ (method path : string) ep : M Building unit :=
  update_server (fun s => set_routes (routes s ++ [(method, path, ep)]) s).

Definition AddEndpoint (multitenancy : list bool) ep : M Building (option stop) :=
  let* s := gets b_server in
  let* w := gets b_api in
  if testOnly (operation_of w ep) && negb (Testing (s_app s)) then ret None
  else
    update_server (attach_errors (ep_ErrorDescriptions ep) (ep_ErrorProtocolCodes ep)) ;;
    let method := Access2HttpMethod (accessType (operation_of w ep)) in
    if decide (method = "") then ret (Some Panicked)
    else
      let* added := if isMultiTenancy s && OptionalArg false multitenancy then add_to_tenancies s ep else ret true in
      if (added : bool) then
        let* w := gets b_api in
        Handle_ method (route_path s w ep) ep ;;
        ret None
      else ret (Some Panicked).

(** The operations that are endpoints. *)
Variable endpoints : gmap nat (Endpoint P X).

Record Service := { sv_resource : ref; sv_ErrorDescriptions : gmap string string; sv_ErrorProtocolCodes : gmap string Z }.

(** The handler of [AttachToServer]. *)
Definition attach_operation (multitenancy : list bool) (op : ref) : M Building (option stop) :=
  let* w := gets b_api in
  match endpoints !! op with
  | None => ret (Some (Failed (Native ("invalid opertaion type, must be endpoint: " +:+ o_name (op_node (operations_ w) op)))))
  | Some ep => AddEndpoint multitenancy ep
  end.
Definition AttachToServer (service : Service) (multitenancy : list bool) : M Building (option stop) :=
  Resource.EachOperation (attach_operation multitenancy) [] (sv_resource service).

Definition AddServiceToServer (service : Service) (multitenancy : list bool) : M Building (option stop) :=
  let* err := AttachToServer service multitenancy in
  match err with
  | Some _ => ret (Some Panicked)
  | None => update_server (attach_errors (sv_ErrorDescriptions service) (sv_ErrorProtocolCodes service)) ;; ret None
  end.
End Building.
Arguments Building : clear implicits.

(** ** Endpoints and services of the library (endpoint.go, service.go, status_service.go, auth_service) *)

Section Services.
Context {P X Msg : Type} `{HL : !WithHateoasLinks Msg}.
Context `{Lc : !Lens X AuthContext, Lh : !Lens X (Http Msg), La : !Lens X Api}.
Implicit Types (s : Server P X) (ep : Endpoint P X).
(** [StatusResponse] as a message. *)
Variable StatusResponse : string -> Msg.
(** The server of the requests. *)
Variable server : Server P X.

(** What a builder makes: resources, operations and the table of endpoints. *)
Definition Built : Type := Api * gmap nat (Endpoint P X).
#[export] Instance built_heap : Lens Built Heap.
Proof.
  by refine {| view (b : Built) := resources b.1;
    put h (b : Built) := ({| resources := h; operations_ := operations_ b.1 |}, b.2) |}; try intros [[] ?].
Defined.
#[export] Instance built_operations : Lens Built (list OperationBase).
Proof.
  by refine {| view (b : Built) := operations_ b.1;
    put l (b : Built) := ({| resources := resources b.1; operations_ := l |}, b.2) |}; try intros [[] ?].
Defined.

Definition ServiceBase_Init (pathName : string) : M Built ref :=
  zoom (Resource.NewResource pathName [set_cfg_Service true no_config]).

(** An endpoint of an operation: nothing to check before authorization, no errors of its own. *)
Definition EndpointBase (op : ref) (handler : M (St P X) (option (option error))) : Endpoint P X :=
  {| ep_op := op; HandleRequest := handler; PrecheckRequestBeforeAuth _ sms := (sms, None);
     ep_ErrorDescriptions := ∅; ep_ErrorProtocolCodes := ∅ |}.
Definition Init_endpoint (operationName : string) (access : list AccessType)
    (handler : Endpoint P X -> M (St P X) (option (option error))) : M Built ref :=
  let* op := Resource.NewOperation operationName (OptionalArg Get access) [] in
  (fun b : Built => (op, (b.1, <[op := EndpointBase op (handler (EndpointBase op (ret (Some None))))]> b.2))).
(** [InitResourceEndpoint]: the endpoint is a resource and its own operation. *)
Definition InitResourceEndpoint (resourceType operationName : string) (access : list AccessType)
    (handler : Endpoint P X -> M (St P X) (option (option error))) : M Built (ref * ref) :=
  let* op := Init_endpoint operationName access handler in
  let* r := zoom (Resource.NewResource resourceType []) in
  Resource.AddOperation r op [] ;;
  ret (r, op).

Definition EndpointNoHandler (_ : Endpoint P X) : M (St P X) (option (option error)) := ret (Some None).
Definition CheckStatus ep : M (St P X) (option (option error)) := SetMessage_ server ep (StatusResponse "running") ;; ret (Some None).
Definition CheckAccess ep : M (St P X) (option (option error)) := SetMessage_ server ep (StatusResponse "success") ;; ret (Some None).
Definition CheckSms (_ : Endpoint P X) : M (St P X) (option (option error)) :=
  let* c := on (gets (fun c : AuthContext => c)) in
  on (modify (fun h : Http Msg => set_response (SetText (request_content c) (response h)) h)) ;;
  ret (Some None).

Definition set_test_only (op : ref) : M Built unit :=
  zoom (modify (fun l : list OperationBase =>
    let o := op_node l op in
    <[op := {| o_name := o_name o; o_resource := o_resource o; accessType := accessType o; testOnly := true |}]> l)).
Definition AddChild_ (r child : ref) : M Built unit := zoom (modify (Resource.AddChild r child [])).

Definition NewStatusService : M Built ref :=
  let* s := ServiceBase_Init "status" in
  let* '(check, _) := InitResourceEndpoint "check" "CheckStatus" [Get] CheckStatus in
  let* '(csrf, _) := InitResourceEndpoint "csrf" "CheckCsrf" [] CheckAccess in
  let* '(logged, _) := InitResourceEndpoint "logged" "CheckLogged" [] CheckAccess in
  zoom (modify (Resource.AddChildren s [check; csrf; logged])) ;;
  let* '(altSmsPath, altOp) := InitResourceEndpoint "sms-alt" "CheckSmsAlt" [Post] CheckAccess in
  set_test_only altOp ;;
  AddChild_ s altSmsPath ;;
  let* sms := zoom (Resource.NewResource "sms" []) in
  let* smsOp := Init_endpoint "CheckSms" [Post] CheckSms in
  Resource.AddOperation sms smsOp [] ;;
  let* altSmsMethod := Init_endpoint "CheckSmsPut" [Put] CheckAccess in
  set_test_only altSmsMethod ;;
  Resource.AddOperation sms altSmsMethod [] ;;
  AddChild_ s sms ;;
  ret s.

Definition NewAuthService : M Built ref :=
  let* s := ServiceBase_Init "auth" in
  let* '(login, _) := InitResourceEndpoint "login" "Login" [Post] EndpointNoHandler in
  let* '(logout, _) := InitResourceEndpoint "logout" "Logout" [Post] EndpointNoHandler in
  let* '(refresh, _) := InitResourceEndpoint "refresh" "Refresh" [Post] EndpointNoHandler in
  zoom (modify (Resource.AddChildren s [login; logout; refresh])) ;;
  ret s.
End Services.
