(* ===== verification/ServerRoutes.v ===== *)
(** * pkg/api/api_server: the routes of a service

    A service attached to a server gets one route per endpoint, below the tenancies if asked
    to; its paths within the service, by which authorization is configured, stay. *)
From S2P Require Import Prelude GoTime Utils Common Errors OpContext Access Auth ApiResource ApiPaths ApiRoutes ApiClone Server ServerBuild.
From stdpp Require Import relations sorting.
Open Scope go_scope.
Import Resource.

(** ** The operations of a tree *)

Fixpoint ops_below (n : nat) (h : Heap) (r : ref) : list ref :=
  match n with
  | 0 => []
  | S n => r_operations (node h r) ++ flat_map (ops_below n h) (Children h r)
  end.
Definition AllOperations (h : Heap) (r : ref) : list ref := ops_below (fuel h) h r.

Lemma flat_map_single {A} (l : list A) : flat_map (fun x => [x]) l = l.
Proof. induction l as [|x l IH]; [done|]. cbn. by rewrite IH. Qed.

Section Each.
Context {W E : Type} `{Lw : !Lens W Heap}.
Variable f : ref -> M W (option E).
Variable I : list ref -> W -> Prop.
Variable h0 : Heap.
Variable top : ref.
Local Abbreviation inside x := (rtc (child_of h0) x top).
Hypothesis Hshape : forall l w x, I l w -> inside x ->
  r_operations (node (view w) x) = r_operations (node h0 x) /\ Children (view w) x = Children h0 x.
Hypothesis Hf : forall l w x op, I l w -> inside x -> op ∈ r_operations (node h0 x) ->
  wp (f op) (fun e w' => e = None /\ I (l ++ [op]) w') w.

Lemma wp_until {A} (g : A -> M W (option E)) (k : A -> list ref) xs : forall l w, I l w ->
  (forall x l w, x ∈ xs -> I l w -> wp (g x) (fun e w' => e = None /\ I (l ++ k x) w') w) ->
  wp (until_error g xs) (fun e w' => e = None /\ I (l ++ flat_map k xs) w') w.
Proof.
  induction xs as [|x xs IH]; intros l w Hw Hg; cbn [until_error flat_map].
  - apply wp_ret. by rewrite app_nil_r.
  - apply wp_bind. eapply wp_mono; [|apply Hg; [by left|done]]. intros e w1 [-> H1].
    eapply wp_mono; [|apply IH; [exact H1|]].
    + intros e w2 [-> H2]. split; [done|]. by rewrite app_assoc.
    + intros y l' w' Hy. apply Hg. by right.
Qed.

Lemma wp_each_operation n : forall x l w, I l w -> inside x ->
  wp (each_operation n f true x) (fun e w' => e = None /\ I (l ++ ops_below n h0 x) w') w.
Proof.
  induction n as [|n IH]; intros x l w Hw Hx; [by apply wp_ret; rewrite app_nil_r|]. cbn [each_operation ops_below].
  apply wp_bind, wp_zoom, wp_gets. rewrite put_view. destruct (Hshape l w x Hw Hx) as [-> _]. apply wp_bind.
  eapply wp_mono; [|apply (wp_until f (fun op => [op])); [exact Hw|]].
  - intros e w1 [-> H1]. apply wp_bind, wp_zoom, wp_gets. rewrite put_view.
    rewrite flat_map_single in H1. destruct (Hshape _ w1 x H1 Hx) as [_ ->].
    eapply wp_mono; [|apply (wp_until (each_operation n f true) (ops_below n h0)); [exact H1|]].
    + intros e w2 [-> H2]. split; [done|]. by rewrite app_assoc.
    + intros c l' w' Hc Hw'. apply IH; [done|]. eapply rtc_l; [exact Hc|done].
  - intros op l' w' Hop Hw'. by eapply Hf.
Qed.
End Each.

(** ** A tree below another resource *)

Lemma service_resource_fuel h n m x : fits (parent_of h) n x -> n <= m -> service_resource n h x = service_resource m h x.
Proof.
  revert m x. induction n as [|n IH]; intros m x Hf Hle; [done|]. destruct m as [|m]; [lia|]. cbn.
  destruct (IsService h x); [done|]. destruct (Parent h x) as [p|] eqn:Ep; [|done]. apply IH; [by apply Hf|lia].
Qed.
Lemma ServiceResource_cons h x : tree h -> ServiceResource h x =
  if IsService h x then Some x else match Parent h x with Some p => ServiceResource h p | None => None end.
Proof.
  intros Ht. unfold ServiceResource. change (fuel h) with (S (length h)) at 1. cbn [service_resource].
  destruct (IsService h x); [done|]. destruct (Parent h x) as [p|] eqn:Ep; [|done].
  apply service_resource_fuel; [|unfold fuel; lia]. pose proof (fits_parents Ht x) as Hf. by apply Hf.
Qed.

(** The tree of [r] in [h0] was put below [t], or is still on its own. *)
Section Moved.
Variables (h0 : Heap) (r t : ref).

Record moved (h : Heap) : Prop := {
  mv_inv : inv h;
  mv_length : length h = length h0;
  mv_look x : look h x = look h0 x;
  mv_ops x : r_operations (node h x) = r_operations (node h0 x);
  mv_children x : x <> t -> Children h x = Children h0 x;
  mv_parent x : x <> r -> Parent h x = Parent h0 x;
  mv_not : ~ rtc (child_of h) t r
}.

Lemma moved_refl : inv h0 -> ~ rtc (child_of h0) t r -> moved h0. Proof. intros. by split. Qed.

Lemma moved_AddChild h : r < length h0 -> t < length h0 -> moved h -> moved (AddChild t r [] h) /\ Parent (AddChild t r [] h) r = Some t.
Proof.
  intros Hr Ht [Hi El Hl Ho Hc Hp Hn]. assert (Hr' : r < length h) by (by rewrite El). assert (Ht' : t < length h) by (by rewrite El).
  destruct (AddChild_inv t r h Hi Ht' Hr' Hn) as [Hi' Es]. set (h' := AddChild t r [] h) in *.
  assert (Hne : r <> t) by (intros ->; apply Hn, rtc_refl).
  assert (Ep : forall x, Parent h' x = if decide (x = r) then Some t else Parent h x).
  { intros x. rewrite <- (same_Parent Es). by apply (linked_Parent t r). }
  assert (Ec : forall x, Children h' x = if decide (x = t) then Children h t ++ [r] else Children h x).
  { intros x. rewrite <- (same_Children Es). by apply (linked_Children t r). }
  split; [|by rewrite Ep, decide_True]. split.
  - done.
  - rewrite <- (same_shape_length _ _ Es), <- El. apply linked_length.
  - intros x. rewrite <- Hl. unfold look. rewrite <- (same_Type Es), <- (same_config Es).
    by rewrite (linked_Type t r), (linked_config t r).
  - intros x. rewrite <- Ho. change h' with (RebuildPaths r (AddChild t r [false] h)). unfold RebuildPaths.
    rewrite (rebuild_keeps r_operations) by (intros b p R; unfold rebuild_node; by destruct p).
    rewrite (linked_node t r) by done. repeat case_decide; by subst.
  - intros x Hx. by rewrite Ec, decide_False, Hc.
  - intros x Hx. by rewrite Ep, decide_False, Hp.
  - intros H. apply (tree_acyclic h' (inv_tree h' Hi') t). eapply tc_rtc_l; [exact H|]. apply tc_once. unfold child_of.
    rewrite Ec, decide_True by done. apply elem_of_app. right. by left.
Qed.

Hypothesis (Hi0 : inv h0) (Ht : t < length h0) (Hnot : ~ rtc (child_of h0) t r).
Hypothesis (Htop : Parent h0 r = None) (Hsv : IsService h0 r = true).
Hypothesis Hone : forall x, below h0 x r -> x <> r -> IsService h0 x = false.

Section Paths.
Context {h : Heap} (Hm : moved h) (Hpar : Parent h r = Some t).
Local Abbreviation Hi := (mv_inv h Hm).

Lemma t_not_below : ~ below h0 t r.
Proof. intros H. apply Hnot. by apply (below_child_of (inv_tree h0 Hi0)). Qed.
Lemma below_cases x : below h0 x r -> x = r \/ exists p, Parent h0 x = Some p /\ below h0 p r /\ x <> r.
Proof.
  intros H. destruct (decide (x = r)) as [->|Hne]; [by left|]. right. inversion H as [|? p ? Hp Hb]; subst; [done|]. by exists p.
Qed.

Lemma line_outside x : ~ below h0 x r -> line h x = line h0 x.
Proof.
  revert x. apply (parent_ind (inv_tree h0 Hi0) (fun x => ~ below h0 x r -> line h x = line h0 x)). intros x IH Hx.
  assert (Hxr : x <> r) by (intros ->; apply Hx, rtc_refl). pose proof (mv_parent h Hm x Hxr) as Ep.
  destruct (Parent h0 x) as [p|] eqn:E0.
  - rewrite (line_cons (inv_tree h Hi) x p Ep), (line_cons (inv_tree h0 Hi0) x p E0). f_equal. apply IH; [done|].
    intros Hp. apply Hx. by eapply rtc_l.
  - by rewrite (line_nil x Ep), (line_nil x E0).
Qed.
Lemma line_inside x : below h0 x r -> line h x = line h0 t ++ line h0 x.
Proof.
  revert x. apply (parent_ind (inv_tree h0 Hi0) (fun x => below h0 x r -> line h x = line h0 t ++ line h0 x)). intros x IH Hx.
  destruct (below_cases x Hx) as [->|(p & Ep & Hp & Hxr)].
  - by rewrite (line_cons (inv_tree h Hi) r t Hpar), (line_nil r Htop), (line_outside t t_not_below).
  - rewrite (line_cons (inv_tree h Hi) x p), (line_cons (inv_tree h0 Hi0) x p Ep) by (by rewrite (mv_parent h Hm)).
    by rewrite (IH p Ep Hp), app_assoc.
Qed.

Lemma paths_outside x : x < length h0 -> ~ below h0 x r -> same_paths h0 x h x.
Proof.
  intros Hx Hb. apply alike_same_paths; [done|done|apply Hi|by rewrite (mv_length h Hm)|]. unfold alike.
  rewrite (line_outside x Hb). apply map_ext. intros y. apply (mv_look h Hm).
Qed.

Lemma concat_look l : Forall (fun x => x < length h0) l -> concat_paths (PathPrototype h) l = concat_paths (PathPrototype h0) l.
Proof.
  intros Hl. apply concat_ext. eapply Forall_impl; [exact Hl|]. intros x Hx.
  apply (look_own_fields h0 x h x); [done|done|apply Hi|by rewrite (mv_length h Hm)|apply (mv_look h Hm)].
Qed.
Lemma line_bounded x : x < length h0 -> Forall (fun x => x < length h0) (line h0 x).
Proof. intros Hx. apply Forall_forall. intros y Hy. by apply (line_dom (inv_tree h0 Hi0) x). Qed.

Lemma full_path_inside x : x < length h0 -> below h0 x r ->
  FullPathPrototype h x = FullPathPrototype h0 t +:+ FullPathPrototype h0 x.
Proof.
  intros Hx Hb. rewrite (pl_FullPathPrototype h x) by (apply paths_of_inv; [apply Hi|by rewrite (mv_length h Hm)]).
  rewrite (pl_FullPathPrototype h0 x), (pl_FullPathPrototype h0 t) by (by apply paths_of_inv).
  rewrite (line_inside x Hb), concat_look; [unfold concat_paths; by rewrite map_app, ConcatStrings_app|].
  apply Forall_app. by split; apply line_bounded.
Qed.
End Paths.

Lemma look_IsService h x : moved h -> IsService h x = IsService h0 x.
Proof. intros Hm. pose proof (mv_look h Hm x) as [= _ E]. unfold IsService. by rewrite E. Qed.

(** The paths within the service and the service itself. *)
Lemma service_inside h x : moved h -> x < length h0 -> below h0 x r ->
  ServiceResource h x = Some r /\ ServicePathPrototype h x = FullPathPrototype h0 x.
Proof.
  intros Hm. revert x. apply (parent_ind (inv_tree h0 Hi0) (fun x => x < length h0 -> below h0 x r ->
    ServiceResource h x = Some r /\ ServicePathPrototype h x = FullPathPrototype h0 x)). intros x IH Hx Hb.
  pose proof (mv_inv h Hm) as Hi. assert (Hx' : x < length h) by (by rewrite (mv_length h Hm)).
  destruct (own_fields Hi x Hx') as (_ & _ & _ & _ & _ & S1 & _).
  destruct (own_fields Hi0 x Hx) as (_ & _ & F & _).
  destruct (look_own_fields h0 x h x Hi0 Hx Hi Hx' (mv_look h Hm x)) as (Q1 & _ & Q3 & _).
  pose proof (IsServicePart_cons (inv_tree h Hi) x) as Es. rewrite (ServiceResource_cons h x (inv_tree h Hi)).
  destruct (below_cases x Hb) as [->|(p & Ep & Hp & Hxr)].
  - rewrite Q3, Hsv in *. split; [done|]. rewrite S1, F, Htop, Q1; done.
  - rewrite Q3, (Hone x Hb Hxr), (mv_parent h Hm), Ep in * by done.
    destruct (IH p eq_refl) as [R1 R2]; [by apply (parent_dom (inv_tree h0 Hi0) x)|done|]. split; [done|].
    assert (Hpart : IsServicePart h p = true).
    { clear -R1 Hi. revert R1. apply (parent_ind (inv_tree h Hi) (fun p => ServiceResource h p = Some r -> IsServicePart h p = true)).
      intros y IHy. rewrite (ServiceResource_cons h y (inv_tree h Hi)), (IsServicePart_cons (inv_tree h Hi) y).
      destruct (IsService h y); [done|]. destruct (Parent h y) as [q|] eqn:Eq; [|done]. by apply IHy. }
    rewrite S1, F, R2, Q1 by (by rewrite Es, Hpart). done.
Qed.
End Moved.

(** ** A service attached to a server *)

Section Attach.
Context {P X : Type}.
Variable endpoints : gmap nat (Endpoint P X).
Variables (b0 : Building P X) (service : Service) (multitenancy : list bool).
Local Abbreviation s0 := (b_server b0).
Local Abbreviation w0 := (b_api b0).
Local Abbreviation h0 := (resources w0).
Local Abbreviation r := (sv_resource service).
Implicit Types (b : Building P X) (ep : Endpoint P X).

Definition under : bool := isMultiTenancy s0 && OptionalArg false multitenancy.

(** A tree of one service that is not below another resource, whose operations are endpoints
    with a HTTP method. *)
Record attachable : Prop := {
  aa_inv : inv h0;
  aa_service : r < length h0 /\ Parent h0 r = None /\ IsService h0 r = true;
  aa_one x : below h0 x r -> x <> r -> IsService h0 x = false;
  aa_tenancy : under = true -> exists t, tenancyResource s0 = Some t /\ t < length h0 /\ ~ rtc (child_of h0) t r;
  aa_operation x op : rtc (child_of h0) x r -> op ∈ r_operations (node h0 x) ->
    below h0 x r /\ o_resource (op_node (operations_ w0) op) = Some x /\
    exists ep, endpoints !! op = Some ep /\ ep_op ep = op /\ Access2HttpMethod (accessType (op_node (operations_ w0) op)) <> ""
}.

(** The path above the service. *)
Definition path_of_tenancies : string :=
  if under then match tenancyResource s0 with Some t => FullPathPrototype h0 t | None => "" end else "".
(** The route of an operation: none for one of tests when the application is not tested. *)
Definition route_of (op : ref) : list (string * string * Endpoint P X) :=
  match endpoints !! op with
  | None => []
  | Some ep =>
      if testOnly (op_node (operations_ w0) op) && negb (Testing (s_app s0)) then []
      else [(Access2HttpMethod (accessType (op_node (operations_ w0) op)),
             PATH_PREFIX (config s0) +:+ "/" +:+ API_VERSION (config s0) +:+ path_of_tenancies +:+
               FullPathPrototype h0 (resource_of w0 ep), ep)]
  end.

(** What stays of the server. *)
Definition settings (s : Server P X) := (config s, s_app s, isMultiTenancy s, tenancyResource s).
Definition tenancy_ref : ref := if under then default 0 (tenancyResource s0) else length h0.
Record attaching (l : list ref) b : Prop := {
  ac_operations : operations_ (b_api b) = operations_ w0;
  ac_settings : settings (b_server b) = settings s0;
  ac_routes : routes (b_server b) = routes s0 ++ flat_map route_of l;
  ac_moved : moved h0 r tenancy_ref (resources (b_api b));
  ac_alone : under = false -> resources (b_api b) = h0
}.

Hypothesis Ha : attachable.
Local Abbreviation Hi := (aa_inv Ha).
Lemma tenancy_ref_not : ~ rtc (child_of h0) tenancy_ref r.
Proof.
  unfold tenancy_ref. destruct under eqn:Eu.
  - destruct (aa_tenancy Ha Eu) as (t & -> & _ & Hn). done.
  - destruct (aa_service Ha) as (Hr & _). intros H. apply rtc_inv in H as [E|(y & Hy & _)]; [lia|].
    apply (tree_dom h0 (inv_tree h0 Hi)) in Hy. lia.
Qed.
Lemma below_dom x : below h0 x r -> x < length h0.
Proof.
  destruct (aa_service Ha) as (Hr & _). intros H. inversion H as [|? p ? Hp _]; subst; [done|].
  by apply (parent_dom (inv_tree h0 Hi) x p).
Qed.
Lemma attaching_start : attaching [] b0.
Proof. split; [done|done|by rewrite app_nil_r|apply moved_refl; [apply Hi|apply tenancy_ref_not]|done]. Qed.

Lemma wp_add_to_tenancies s ep (Q : bool -> Building P X -> Prop) b x :
  under = true -> settings s = settings s0 -> moved h0 r tenancy_ref (resources (b_api b)) ->
  resource_of (b_api b) ep = x -> below h0 x r ->
  (forall h', moved h0 r tenancy_ref h' -> Parent h' r = Some tenancy_ref ->
     Q true {| b_server := b_server b; b_api := {| resources := h'; operations_ := operations_ (b_api b) |} |}) ->
  wp (add_to_tenancies s ep) Q b.
Proof.
  intros Eu [= _ _ _ Et] Hm Ex Hb HQ. destruct (aa_tenancy Ha Eu) as (t & E0 & Ht & _). destruct (aa_service Ha) as (Hr & Htop & Hs).
  assert (Er : tenancy_ref = t) by (unfold tenancy_ref; by rewrite Eu, E0). rewrite Er in *.
  unfold add_to_tenancies. apply wp_bind, wp_gets. rewrite Et, E0, Ex.
  destruct (service_inside h0 r t Hi Htop Hs (aa_one Ha) _ x Hm (below_dom x Hb) Hb) as [-> _].
  apply wp_bind, wp_zoom, wp_modify. apply wp_ret.
  destruct (moved_AddChild h0 r t _ Hr Ht Hm) as [Hm' Hp']. by apply HQ.
Qed.

Lemma attach_step l b x op : attaching l b -> rtc (child_of h0) x r -> op ∈ r_operations (node h0 x) ->
  wp (attach_operation endpoints multitenancy op) (fun e b' => e = None /\ attaching (l ++ [op]) b') b.
Proof.
  intros [Eo Es Er Hm Hal] Hx Hop. destruct (aa_operation Ha x op Hx Hop) as (Hb & Ex & ep & Ee & Eep & Hmeth).
  pose proof Es as [= Ec Eapp Emul Eten].
  unfold attach_operation. apply wp_bind, wp_gets. rewrite Ee. unfold AddEndpoint. apply wp_bind, wp_gets, wp_bind, wp_gets.
  assert (Eop : forall w, operations_ w = operations_ w0 -> operation_of w ep = op_node (operations_ w0) op).
  { intros w E. unfold operation_of. by rewrite E, Eep. }
  assert (Eres : forall w, operations_ w = operations_ w0 -> resource_of w ep = x).
  { intros w E. unfold resource_of. by rewrite Eop, Ex. }
  assert (Eroute : flat_map route_of (l ++ [op]) = flat_map route_of l ++ route_of op).
  { rewrite flat_map_app. cbn. by rewrite app_nil_r. }
  rewrite (Eop _ Eo), Eapp. unfold route_of in Eroute at 3. rewrite Ee in Eroute.
  destruct (testOnly _ && _).
  { apply wp_ret. split; [done|]. split; try done. by rewrite Eroute, app_nil_r. }
  apply wp_bind, wp_modify. rewrite decide_False by done. rewrite Emul. fold under. apply wp_bind.
  assert (Hfinish : forall b1, operations_ (b_api b1) = operations_ w0 -> settings (b_server b1) = settings s0 ->
    routes (b_server b1) = routes (b_server b) -> moved h0 r tenancy_ref (resources (b_api b1)) ->
    (under = false -> resources (b_api b1) = h0) -> (under = true -> Parent (resources (b_api b1)) r = Some tenancy_ref) ->
    wp (let* w := gets b_api in
        Handle_ (Access2HttpMethod (accessType (op_node (operations_ w0) op))) (route_path (b_server b) w ep) ep ;; ret None)
       (fun (e : option stop) b' => e = None /\ attaching (l ++ [op]) b') b1).
  { intros b1 Eo1 Es1 Er1 Hm1 Hal1 Hp1. apply wp_bind, wp_gets, wp_bind, wp_modify, wp_ret. split; [done|]. split; cbn; [done|done| |done|done].
    rewrite Er1, Er, Eroute, <- app_assoc. do 4 f_equal. unfold route_path. rewrite Ec, (Eres _ Eo1), (Eres w0 eq_refl). do 4 f_equal.
    unfold path_of_tenancies. destruct under eqn:Eu; [|by rewrite (Hal1 eq_refl)].
    destruct (aa_service Ha) as (Hr & Htop & Hs). destruct (aa_tenancy Ha Eu) as (t & E0 & Ht & Hnt). rewrite E0.
    assert (Et : tenancy_ref = t) by (unfold tenancy_ref; by rewrite Eu, E0). rewrite Et in *.
    apply (full_path_inside h0 r t Hi Ht Hnt Htop Hm1 (Hp1 eq_refl)); [by apply below_dom|done]. }
  destruct under eqn:Eu.
  - eapply (wp_add_to_tenancies _ ep _ _ x); [done|done|done|by apply Eres|done|]. intros h' Hm' Hp'. by apply Hfinish.
  - apply wp_ret. by apply Hfinish.
Qed.

Lemma wp_AddServiceToServer :
  wp (AddServiceToServer endpoints service multitenancy) (fun e b => e = None /\ attaching (AllOperations h0 r) b) b0.
Proof.
  unfold AddServiceToServer. apply wp_bind. unfold AttachToServer, EachOperation. apply wp_bind, wp_zoom, wp_gets. rewrite put_view.
  eapply wp_mono; [|apply (wp_each_operation (attach_operation endpoints multitenancy) attaching h0 r) with (l := [])].
  - intros e b [-> [Eo Es Er Hm Hal]]. apply wp_bind, wp_modify, wp_ret. split; [done|]. by split.
  - intros l b x Hat Hx. split; [apply (mv_ops _ _ _ _ (ac_moved l b Hat))|].
    apply (mv_children _ _ _ _ (ac_moved l b Hat)). intros ->. by apply tenancy_ref_not.
  - intros l b x op. apply attach_step.
  - apply attaching_start.
  - apply rtc_refl.
Qed.
End Attach.

(** [C33] The routes of a service.  Attaching a service adds one route per endpoint, in the order
    of the tree, but for those of tests in an application that is not tested: the method of the
    endpoint's access, and the prefix and the version of the API, the path of tenancies if the
    service is put below them, and the path of the endpoint within the service.  That path is
    the one authorization is configured by, and the paths of all other resources, hence the
    routes of other services, stay true. *)
Theorem AddService_routes {P X} (endpoints : gmap nat (Endpoint P X)) b service multitenancy :
  attachable endpoints b service multitenancy ->
  let '(e, b') := AddServiceToServer endpoints service multitenancy b in
  let h := resources (b_api b) in let h' := resources (b_api b') in
  e = None /\ inv h' /\
  routes (b_server b') = routes (b_server b) ++
    flat_map (route_of endpoints b multitenancy) (AllOperations h (sv_resource service)) /\
  (forall x, below h x (sv_resource service) -> ServicePathPrototype h' x = FullPathPrototype h x) /\
  (forall x, x < length h -> ~ below h x (sv_resource service) -> same_paths h x h' x).
Proof.
  intros Ha. pose proof (wp_AddServiceToServer endpoints b service multitenancy Ha) as H. unfold wp in H.
  destruct (AddServiceToServer _ _ _ _) as [e b']. cbn [fst snd] in H. destruct H as [-> [Eo Es Er Hm Hal]].
  destruct (aa_service _ _ _ _ Ha) as (Hr & Htop & Hs). pose proof (aa_inv _ _ _ _ Ha) as Hi.
  split; [done|]. split; [apply Hm|]. split; [done|]. split.
  - intros x Hb. apply (service_inside _ _ _ Hi Htop Hs (aa_one _ _ _ _ Ha) _ x Hm); [|done]. by apply (below_dom endpoints b service multitenancy Ha).
  - intros x Hx Hb. eapply paths_outside; [apply Hi|exact Hm|done|done].
Qed.

(** ** Checking a service

    A service built of resources that each have one parent is attachable when a list of its
    resources passes these tests. *)
Section Attachable_b.
Context {P X : Type}.
Implicit Types (b : Building P X).

Definition parents_agree (h : Heap) : bool :=
  forallb (fun p => forallb (fun c => bool_decide (Parent h c = Some p)) (Children h p)) (seq 0 (length h)).
(** [inside] has everything below the resources it has. *)
Definition closed_list (h : Heap) (inside : list ref) : bool :=
  forallb (fun x => match Parent h x with Some p => negb (bool_decide (p ∈ inside)) || bool_decide (x ∈ inside) | None => true end)
    (seq 0 (length h)).
Definition is_endpoint (endpoints : gmap nat (Endpoint P X)) (l : list OperationBase) (x op : ref) : bool :=
  bool_decide (o_resource (op_node l op) = Some x) &&
  match endpoints !! op with
  | Some ep => bool_decide (ep_op ep = op) && negb (bool_decide (Access2HttpMethod (accessType (op_node l op)) = ""))
  | None => false
  end.
Definition attachable_b (endpoints : gmap nat (Endpoint P X)) b (service : Service) (multitenancy : list bool) (inside : list ref) : bool :=
  let h := resources (b_api b) in let r := sv_resource service in
  parents_agree h && closed_list h inside && bool_decide (r ∈ inside) &&
  bool_decide (r < length h) && bool_decide (Parent h r = None) && IsService h r &&
  forallb (fun x => bool_decide (x = r) || negb (IsService h x)) inside &&
  forallb (fun x => forallb (is_endpoint endpoints (operations_ (b_api b)) x) (r_operations (node h x))) inside &&
  (negb (under b multitenancy) ||
   match tenancyResource (b_server b) with
   | Some t => bool_decide (t < length h) && negb (bool_decide (t ∈ inside))
   | None => false
   end).

Lemma parents_agree_below h x r : tree h -> parents_agree h = true -> rtc (child_of h) x r -> below h x r.
Proof.
  intros Ht Ha. induction 1 as [|x p r Hc _ IH]; [apply rtc_refl|]. eapply rtc_l; [|exact IH].
  unfold parents_agree in Ha. rewrite forallb_forall in Ha. unfold child_of in Hc.
  destruct (decide (p < length h)) as [Hp|Hp].
  - specialize (Ha p). rewrite in_seq, forallb_forall in Ha. specialize (Ha ltac:(lia) x).
    apply (bool_decide_unpack _), Is_true_true, Ha. by apply list_elem_of_In.
  - unfold Children in Hc. rewrite node_out in Hc by lia. by apply not_elem_of_nil in Hc.
Qed.
Lemma closed_list_below h inside x r : tree h -> closed_list h inside = true -> r ∈ inside -> below h x r -> x ∈ inside.
Proof.
  intros Ht Hc Hr. induction 1 as [|x p r Hp _ IH]; [done|]. unfold closed_list in Hc. rewrite forallb_forall in Hc.
  assert (Hx : x < length h) by (by apply (parent_dom Ht x p)). specialize (Hc x). rewrite in_seq in Hc.
  specialize (Hc ltac:(lia)). rewrite Hp, (bool_decide_eq_true_2 (p ∈ inside)) in Hc by auto. by apply bool_decide_eq_true in Hc.
Qed.

Lemma attachable_check endpoints b service multitenancy inside :
  inv (resources (b_api b)) -> attachable_b endpoints b service multitenancy inside = true ->
  attachable endpoints b service multitenancy.
Proof.
  intros Hi Hb. unfold attachable_b in Hb. pose proof (inv_tree _ Hi) as Ht.
  apply andb_prop in Hb as [Hb Hten]. apply andb_prop in Hb as [Hb Hops]. apply andb_prop in Hb as [Hb Hone].
  apply andb_prop in Hb as [Hb Hsv]. apply andb_prop in Hb as [Hb Htop%bool_decide_eq_true]. apply andb_prop in Hb as [Hb Hr%bool_decide_eq_true].
  apply andb_prop in Hb as [Hb Hrin%bool_decide_eq_true]. apply andb_prop in Hb as [Hag Hcl]. rewrite forallb_forall in Hone, Hops.
  assert (Hin : forall x, below (resources (b_api b)) x (sv_resource service) -> In x inside).
  { intros x Hx. apply list_elem_of_In. by eapply closed_list_below. }
  split; [done|done| | |].
  - intros x Hx Hne. specialize (Hone x (Hin x Hx)). rewrite bool_decide_eq_false_2 in Hone by done. by apply negb_true_iff in Hone.
  - intros Hu. rewrite Hu in Hten. cbn in Hten. destruct (tenancyResource (b_server b)) as [t|]; [|done]. exists t. split; [done|].
    apply andb_prop in Hten as [H1%bool_decide_eq_true H2%negb_true_iff%bool_decide_eq_false].
    split; [done|]. intros Hbl. apply H2. by apply list_elem_of_In, Hin, parents_agree_below.
  - intros x op Hx Hop. assert (Hbl : below (resources (b_api b)) x (sv_resource service)) by (by apply parents_agree_below). split; [done|].
    specialize (Hops x (Hin x Hbl)). rewrite forallb_forall in Hops. specialize (Hops op (proj1 (list_elem_of_In _ _) Hop)).
    unfold is_endpoint in Hops. apply andb_prop in Hops as [Hres%bool_decide_eq_true He]. split; [done|].
    destruct (endpoints !! op) as [ep|]; [|done]. exists ep. split; [done|].
    by apply andb_prop in He as [E1%bool_decide_eq_true E2%negb_true_iff%bool_decide_eq_false].
Qed.
End Attachable_b.
