(* ===== verification/ServerDemo.v ===== *)
(** * A concrete REST server: the theorems on requests and routes applied

    The library's services of statuses (below the tenancies) and of authorization, the
    anti-CSRF handler, the manager of TenancyDemo, no authorization of users.  A request with
    an expired anti-CSRF token is answered with an error, but its handler is run. *)
From S2P Require Import Prelude GoTime Utils Common Errors OpContext Db Access Auth Crypt AuthParams Cache Session Users AuthWorld AuthMethods AuthDemo.
From S2P Require Import PoolData Pool PoolStore Customer TenancyData Tenancy TenancyInv TenancyReach TenancyDemo.
From S2P Require Import ApiResource ApiPaths ApiClone ApiReach Server ServerRequest ServerBuild ServerRoutes.
From stdpp Require Import relations sorting.
Open Scope go_scope.

(** ** The state of a server *)

(** Messages are texts; links are not shown. *)
#[export] Instance text_messages : WithHateoasLinks string := {| SetHateoasLinks _ m := m |}.

Record World := { sw_auth : AuthWorld MapCache; sw_http : Http string; sw_api : Api; sw_loaded : Loaded }.
#[export] Instance sw_auth_lens : Lens World (AuthWorld MapCache).
Proof. by refine {| view := sw_auth; put a w := {| sw_auth := a; sw_http := sw_http w; sw_api := sw_api w; sw_loaded := sw_loaded w |} |}; try intros []. Defined.
#[export] Instance sw_http_lens : Lens World (Http string).
Proof. by refine {| view := sw_http; put a w := {| sw_auth := sw_auth w; sw_http := a; sw_api := sw_api w; sw_loaded := sw_loaded w |} |}; try intros []. Defined.
#[export] Instance sw_api_lens : Lens World Api.
Proof. by refine {| view := sw_api; put a w := {| sw_auth := sw_auth w; sw_http := sw_http w; sw_api := a; sw_loaded := sw_loaded w |} |}; try intros []. Defined.
#[export] Instance sw_loaded_lens : Lens World Loaded.
Proof. by refine {| view := sw_loaded; put a w := {| sw_auth := sw_auth w; sw_http := sw_http w; sw_api := sw_api w; sw_loaded := a |} |}; try intros []. Defined.
#[export] Instance sw_ctx_lens : Lens World AuthContext.
Proof.
  by refine {| view w := w_ctx (sw_auth w);
    put a w := {| sw_auth := put a (sw_auth w); sw_http := sw_http w; sw_api := sw_api w; sw_loaded := sw_loaded w |} |}; try intros [[]].
Defined.
#[export] Instance sw_env_lens : Lens World Env.
Proof.
  by refine {| view w := w_env (sw_auth w);
    put a w := {| sw_auth := put a (sw_auth w); sw_http := sw_http w; sw_api := sw_api w; sw_loaded := sw_loaded w |} |}; try intros [[]].
Defined.
#[export] Instance http_env : Disjoint_lens World (Http string) Env. Proof. by split. Qed.
#[export] Instance http_ctx : Disjoint_lens World (Http string) AuthContext. Proof. by split. Qed.
#[export] Instance loaded_ctx : Disjoint_lens World Loaded AuthContext. Proof. by split. Qed.

(** A handler of the authorization in the state of the server. *)
Definition lift_handler {P X Y} `{!Lens X Y} (h : AuthHandler P Y) : AuthHandler P X :=
  {| Auth.Name := Auth.Name h; Protocol := Protocol h; Handle := lift (Handle h); h_ErrorDescriptions := h_ErrorDescriptions h;
     h_ErrorProtocolCodes := h_ErrorProtocolCodes h; IsReal := IsReal h |}.

Module ServerDemo.
Import AuthDemo.

Definition P := OpLogTenancy.
Definition csrf_config : AuthCsrf.t := AuthCsrf.Init 300 ["/auth/login"].
Definition csrf_handler : AuthHandler P (AuthWorld MapCache) :=
  {| Auth.Name := "csrf"; Protocol := AntiCsrfProtocol; Handle := AuthCsrf.Handle csrf_config;
     h_ErrorDescriptions := AuthCsrf.ErrorDescriptions; h_ErrorProtocolCodes := AuthCsrf.ErrorProtocolCodes; IsReal := true |}.
Definition config : ServerConfig :=
  {| PATH_PREFIX := "/api"; API_VERSION := "1.0"; HATEOAS := false; OPLOG_USER_TYPE := "user";
     ALLOW_NOT_ACTIVE_TENANCY := false; AUTH_FROM_TENANCY_DB := true |}.
Definition application : AppContext := {| Application := "app"; AppInstance := "app1"; Hostname := "host"; Testing := false |}.
Definition no_api : Api := {| resources := []; operations_ := [] |}.
Definition init := ServerBuild.Init config application (fun e => e) (fun _ _ => NoAuthMethod.HandleRequest (X := World)) true
  (Some (lift_handler csrf_handler)) no_api.
Definition built_status := NewStatusService (X := World) (fun s => s) init.1 (init.2, ∅).
Definition built_auth := NewAuthService (X := World) built_status.2.
Definition endpoints : gmap nat (Endpoint P World) := built_auth.2.2.
Definition service (r : ref) : Service := {| sv_resource := r; sv_ErrorDescriptions := ∅; sv_ErrorProtocolCodes := ∅ |}.
Definition build0 : Building P World := {| b_server := init.1; b_api := built_auth.2.1 |}.
Definition with_status := AddServiceToServer endpoints (service built_status.1) [true] build0.
Definition with_auth := AddServiceToServer endpoints (service built_auth.1) [] with_status.2.
Definition server : Server P World := b_server with_auth.2.
Definition api : Api := b_api with_auth.2.

(** A request, with an anti-CSRF token that is or is not there and the clock of the server. *)
Definition no_endpoint : Endpoint P World := EndpointBase 0 (ret (Some None)).
Definition status_check : Endpoint P World := default no_endpoint (endpoints !! 0).
Definition request_with (tenancy : string) (headers : gmap string string) : HttpRequest :=
  {| hr_method := "GET"; hr_params := [("tenancy", tenancy)]; hr_RawQuery := ""; hr_headers := headers; hr_content := "";
     hr_client_ip := "10.0.0.1"; hr_user_agent := "curl" |}.
Definition loaded_tenancies : Loaded := loaded (st_ext TenancyDemo.reloaded.2).
Definition world (now : Z) : World :=
  {| sw_auth := {| w_ctx := request_of "" ∅ None; w_sessions := tbl []; w_clients := tbl []; w_users := tbl []; w_cache := ∅;
       w_env := {| env_now _ := now; env_rand n := Z.of_nat (1000 + n); env_tick := 0; idCount := 0 |}; w_messages := tbl []; w_net := {| Http.sent := [] |} |};
     sw_http := {| params := []; raw_query := ""; response := new_response; replies := [] |}; sw_api := api; sw_loaded := loaded_tenancies |}.
Definition no_oplogs (l : Oplog P) : M (St P World) (option error) := ret None.
Definition token_headers : gmap string string := (* the header of a response at time 0 *)
  let s := requestHandler (Msg := string) no_oplogs
             {| Server.config := config; s_app := application; Server.errors := Server.errors server; isMultiTenancy := false;
                csrf := Some (lift_handler {| Auth.Name := "csrf"; Protocol := AntiCsrfProtocol;
                  Handle := AuthCsrf.Handle (AuthCsrf.Init 300 [""]); h_ErrorDescriptions := ∅; h_ErrorProtocolCodes := ∅; IsReal := true |});
                AuthRequest _ _ := NoAuthMethod.HandleRequest; tenancyResource := None; routes := [] |}
             no_endpoint (Build_St trace0 (Init_context "op" server no_api no_endpoint) (world 0)) in
  response_headers (view (st_ext s.2)).
Definition run (tenancy : string) (headers : gmap string string) (now : Z) : Http string :=
  view (serve (Msg := string) no_oplogs server status_check (request_with tenancy headers) (world now)).2.
End ServerDemo.

(** ** The routes *)

Section Routes.
Import ServerDemo ApiDemo.

(** The resources of the two services are built by changes of the tree. *)
Definition built_changes : list change :=
  [DoNew "tenancy" []; DoNew "tenancy" [tenancy_config]; DoAddChild 0 1;
   DoNew "status" [set_cfg_Service true no_config];
   DoNew "check" []; DoAddOperation 3 0 []; DoNew "csrf" []; DoAddOperation 4 1 []; DoNew "logged" []; DoAddOperation 5 2 [];
   DoAddChild 2 3; DoAddChild 2 4; DoAddChild 2 5; DoNew "sms-alt" []; DoAddOperation 6 3 []; DoAddChild 2 6;
   DoNew "sms" []; DoAddOperation 7 4 []; DoAddOperation 7 5 []; DoAddChild 2 7;
   DoNew "auth" [set_cfg_Service true no_config]; DoNew "login" []; DoAddOperation 9 6 []; DoNew "logout" []; DoAddOperation 10 7 [];
   DoNew "refresh" []; DoAddOperation 11 8 []; DoAddChild 8 9; DoAddChild 8 10; DoAddChild 8 11].
Lemma built_inv : inv (resources (b_api build0)).
Proof.
  assert (E : resources (b_api build0) = resources (run_changes built_changes no_api)) by (vm_compute; reflexivity).
  rewrite E. apply reachable_inv, run_changes_reachable. all_allowed_go.
Qed.
Lemma status_checked : attachable_b endpoints build0 (service built_status.1) [true] [2; 3; 4; 5; 6; 7] = true.
Proof. vm_compute. reflexivity. Qed.
Lemma status_attachable : attachable endpoints build0 (service built_status.1) [true].
Proof. exact (attachable_check _ _ _ _ _ built_inv status_checked). Qed.
Lemma status_routes : map fst (routes (b_server with_status.2)) =
  [("GET", "/api/1.0/tenancy/:tenancy/status/check"); ("GET", "/api/1.0/tenancy/:tenancy/status/csrf");
   ("GET", "/api/1.0/tenancy/:tenancy/status/logged"); ("POST", "/api/1.0/tenancy/:tenancy/status/sms")].
Proof. vm_compute. reflexivity. Qed.

Lemma AddService_routes_witness :
  map fst (routes (b_server with_status.2)) =
    [("GET", "/api/1.0/tenancy/:tenancy/status/check"); ("GET", "/api/1.0/tenancy/:tenancy/status/csrf");
     ("GET", "/api/1.0/tenancy/:tenancy/status/logged"); ("POST", "/api/1.0/tenancy/:tenancy/status/sms")] /\
  let '(e, b') := AddServiceToServer endpoints (service built_status.1) [true] build0 in
  let h := resources (b_api build0) in let h' := resources (b_api b') in
  e = None /\ inv h' /\
  routes (b_server b') = routes (b_server build0) ++
    flat_map (route_of endpoints build0 [true]) (AllOperations h (sv_resource (service built_status.1))) /\
  (forall x, below h x (sv_resource (service built_status.1)) -> Resource.ServicePathPrototype h' x = Resource.FullPathPrototype h x) /\
  (forall x, x < length h -> ~ below h x (sv_resource (service built_status.1)) -> same_paths h x h' x).
Proof. split; [exact status_routes|exact (AddService_routes endpoints build0 (service built_status.1) [true] status_attachable)]. Defined.
End Routes.

(** ** Requests *)

Section Requests.
Import AuthDemo ServerDemo.

Lemma no_reply : writes_no_reply (Msg := string) no_oplogs.
Proof. by intros l st. Qed.
Lemma server_csrf : csrf server = Some (lift_handler csrf_handler).
Proof. reflexivity. Qed.
Lemma server_auth path access : AuthRequest server path access = NoAuthMethod.HandleRequest.
Proof. reflexivity. Qed.

Lemma demo_server_ok : server_ok (Msg := string) server.
Proof.
  split.
  - rewrite server_csrf. intros h [= <-]. cbn [lift_handler Handle csrf_handler]. split.
    + intros [t o x]. cbn. pose proof (AuthCsrf.spec_csrf csrf_config (AuthCsrf.post csrf_config o (sw_auth x)) o (sw_auth x) (fun r o' x' Hp => Hp) t) as H.
      unfold AuthCsrf.post in H. cbn in H. by destruct (AuthCsrf.Handle csrf_config _) as [[f [e|]] s'].
    + intros [t o x]. split; [|done]. pose proof (AuthCsrf.csrf_request csrf_config o (sw_auth x) t) as H. cbn in H.
      unfold request_part in H. cbn. congruence.
  - intros path access [t o x]. rewrite server_auth. by split.
Qed.

Definition served_state : St P World := Init_request (Msg := string) server status_check (request_with "shop" token_headers) (world 1).
Lemma served_replies : replies (run "shop" token_headers 1) = [Json 200 "running"].
Proof. vm_compute. reflexivity. Qed.

Lemma request_outcome_witness :
  replies (run "shop" token_headers 1) = [Json 200 "running"] /\
  let st' := (requestHandler (Msg := string) no_oplogs server status_check served_state).2 in
  (exists st2 err st3, admitted server status_check served_state st2 /\ HandleRequest status_check st2 = (err, st3) /\
     replies (http_of st') = replies (http_of st3) ++ [reply_after server err st3]) \/
  ((forall ep', ep_op ep' = ep_op status_check ->
      requestHandler (Msg := string) no_oplogs server ep' served_state = requestHandler (Msg := string) no_oplogs server status_check served_state) /\
   exists r, is_error_reply (Msg := string) r /\ replies (http_of st') = replies (http_of served_state) ++ [r]).
Proof. exact (conj served_replies (request_outcome no_oplogs no_reply server status_check served_state demo_server_ok)). Defined.

Lemma served_in_tenancy : in_tenancy server status_check served_state = true.
Proof. vm_compute. reflexivity. Qed.
Lemma served_loaded : loaded_of served_state = loaded (st_ext TenancyDemo.reloaded.2).
Proof. reflexivity. Qed.
End Requests.

(** The server shares the tenancies of TenancyDemo. *)
Section RequestTenancy.
Import TenancyDemo.

Lemma request_in_own_tenancy_witness :
  in_tenancy ServerDemo.server ServerDemo.status_check served_state = true /\
  let st' := (requestHandler (Msg := string) ServerDemo.no_oplogs ServerDemo.server ServerDemo.status_check served_state).2 in
  (exists st2 i t c, Auth.tenancy (ctx_of st2) = Some i /\ tenanciesById (loaded (st_ext reloaded.2)) !! i = Some t /\
     Path (tb_db t) = GetResourceId (params (http_of served_state)) TenancyParameter /\
     tb_Db t = Some c /\ conn_id c ∈ connections (databases (st_ext reloaded.2)) /\
     belongs_to (conn_database c) i (databases (st_ext reloaded.2)) /\
     replies (http_of st') = replies (http_of (HandleRequest ServerDemo.status_check st2).2) ++
       [reply_after ServerDemo.server (HandleRequest ServerDemo.status_check st2).1 (HandleRequest ServerDemo.status_check st2).2]) \/
  ((forall ep', ep_op ep' = ep_op ServerDemo.status_check ->
      requestHandler (Msg := string) ServerDemo.no_oplogs ServerDemo.server ep' served_state =
      requestHandler (Msg := string) ServerDemo.no_oplogs ServerDemo.server ServerDemo.status_check served_state) /\
   exists r, is_error_reply (Msg := string) r /\ replies (http_of st') = replies (http_of served_state) ++ [r]).
Proof.
  exact (conj served_in_tenancy (request_in_own_tenancy ServerDemo.no_oplogs no_reply store "app" models ServerDemo.server
    ServerDemo.status_check served_state _ _ demo_server_ok start_initial reloaded_reachable served_loaded served_in_tenancy)).
Defined.
End RequestTenancy.

Section Errors.
Import ServerDemo.

(** An expired anti-CSRF token does not stop the request: the handler of the endpoint is run,
    and only the reply is an error. *)
Example expired_token_runs_endpoint :
  r_message (response (run "shop" token_headers (10 ^ 12)%Z)) = Some "running" /\
  replies (run "shop" token_headers (10 ^ 12)%Z) =
    [JsonError 403 {| re_Code := AuthCsrf.ErrorCodeTokenExpired; re_Message := "Anti-CSRF token expired."; re_Details := "" |}].
Proof. vm_compute. done. Qed.
(** A tenancy that is not loaded, and a request without a token, do. *)
Example refused_requests :
  r_message (response (run "nope" token_headers 1)) = None /\ r_message (response (run "shop" ∅ 1)) = None.
Proof. vm_compute. done. Qed.
End Errors.
