(* ===== verification/ApiRequest.v ===== *)
(** * pkg/api/api_server and pkg/validator: commands of requests

    The handler of an endpoint reads the command of its request - from the query of the URL or
    from the body, by the kind of access -, has it validated, and may read a filter for the
    database out of it.  What is refused gets a generic error that tells the field.  The
    validator (go-playground), the decoder of maps (mapstructure) and the formats of commands
    are interfaces. *)
From Stdlib Require Import Ascii.
From S2P Require Import Prelude GoTime Utils Common Errors OpContext Db Crypt Http Access Auth FilterParser ApiResource ApiReach Server.
Open Scope go_scope.

(** ** Errors of validation (validator.go) *)

Definition in_quotes (s : string) : string :=
  let q := String (ascii_of_nat 34) "" in q +:+ s +:+ q.

Module ValidationErrors.
(** [Error]; [text] is the text of another error. *)
Definition Error (text : error -> string) (e : ValidationError) : string :=
  if decide (ve_Message e = "") then match ve_Err e with None => "" | Some err => text err end
  else if decide (ve_Field e <> "") then "validation failed on field " +:+ in_quotes (ve_Field e) +:+ ": " +:+ ve_Message e
  else "validation failed: " +:+ ve_Message e.
Definition GenericError (e : ValidationError) : error := SetDetails (ve_Field e) (New ErrorCodeFormat [ve_Message e]).
End ValidationErrors.

(** The validator of the application: structs by the tags of their fields, some fields of a
    struct, one value by rules. *)
Class StructValidator (T : Type) := {
  Validate_ : T -> option filter_error;
  ValidatePartial : T -> list string -> option ValidationError
}.
(** A command: its query format, its body format, its rules. *)
Class Command (T : Type) := {
  command_schema :: Http.Schema T; command_format :: Serializer T; command_rules :: StructValidator T
}.
Class ValueValidator := { ValidateValue_ : value -> string -> option filter_error }.
(** mapstructure: a map read into a struct; a key that is not a field is an error. *)
Class MapDecoder (T : Type) := { map_Decode : Fields -> T -> T + error }.

(** With [ErrorUnused], the keys of a map that is read are names of fields of the struct; names are
    compared ignoring case.  Nothing is said of keys with letters beyond ASCII, nor of the values. *)
Class MapDecoderOk (T : Type) `{!MapDecoder T} (names : list string) :=
  decode_keys m (s s' : T) k : map_Decode m s = inl s' -> is_Some (m !! k) -> is_ascii k = true -> ToLower k ∈ names.

(** The text of an error as an error; what the trace shows of a validation error. *)
Definition as_error (text : error -> string) (e : filter_error) : error :=
  match e with Validation v => Native (ValidationErrors.Error text v) | Failure err => err end.

(** The error names the first key in the order the map is ranged over.  The keys given as
    allowed are the ones that are refused. *)
Definition not_allowed (allowedFields keys : list string) : option ValidationError :=
  if decide (allowedFields = []) then None
  else (fun key => {| ve_Message := "map contains not allowed fields"; ve_Field := key; ve_Err := None |}) <$>
       List.find (fun key => bool_decide (key ∈ allowedFields)) keys.
Definition ValidateMap {T} `{!StructValidator T, !MapDecoder T, !MapRange} (m : Fields) (sampleStruct : T) (allowedFields : list string) :
    option ValidationError :=
  let keys := (range m).*1 in
  match not_allowed allowedFields keys with
  | Some err => Some err
  | None =>
      match map_Decode m sampleStruct with
      | inr err => Some {| ve_Message := "Invalid fields for update."; ve_Field := ""; ve_Err := Some err |}
      | inl sampleStruct => ValidatePartial sampleStruct keys
      end
  end.

(** The fields that pass leave the identifier alone if it is not a field of the sample. *)
Lemma ValidateMap_leaves_id {T} `{!StructValidator T, !MapDecoder T, !MapRange} names `{!MapDecoderOk T names} m (sample : T) :
  "id" ∉ names -> ValidateMap m sample [] = None -> leaves_id m.
Proof.
  unfold ValidateMap, not_allowed. rewrite decide_True by done. intros Hid Hv k Hk Hl. destruct (map_Decode m sample) as [s|] eqn:E; [|done].
  apply Hid. rewrite <- Hl. eapply decode_keys; [exact E|exact Hk|]. apply ToLower_ascii. by rewrite Hl.
Qed.

(** ** Commands (request.go of both packages, query.go) *)

Record DbQuery := { Query_ : string }.
Definition NewDbQuery (ToQueryString : Filter -> string) (filter : option Filter) : DbQuery :=
  {| Query_ := match filter with Some f => ToQueryString f | None => "" end |}.
(** A partial update. *)
Record UpdateCmd := { cmd_Fields : Fields }.

Section Commands.
Context {P X Msg : Type} `{Lc : !Lens X AuthContext, Lh : !Lens X (Http Msg), La : !Lens X Api}.
Local Abbreviation act := (M (St P X)).
(** The text of an error. *)
Variable text : error -> string.
Implicit Types ep : Endpoint P X.

Section Command.
Context {T : Type} `{Cm : !Command T}.

(** [Request.Validate] *)
Definition Validate (cmd : T) : act (option error) :=
  traced "Request.Validate" (fun c =>
    match Validate_ cmd with
    | None => ret None
    | Some err =>
        (match err with Validation v => SetGenericError (Some (ValidationErrors.GenericError v)) [true] | Failure _ => ret tt end) ;;
        SetError c (Some (as_error text err))
    end).

(** The command may be nil; it is filled in place. *)
Definition ParseValidateQuery (cmd : option T) : act (option error * option T) :=
  match cmd with
  | None => ret (None, None)
  | Some cmd =>
      traced "Request.ParseValidateQuery" (fun c =>
        let* h := on (gets (fun h : Http Msg => h)) in
        let* '(err, cmd) := HttpRequest.ParseQuery (raw_query h) cmd in
        match err with
        | Some _ => SetError c err ;; ret (err, Some cmd)
        | None =>
            let* err := Validate cmd in
            match err with
            | Some _ => SetError c err ;; ret (err, Some cmd)
            | None => ret (None, Some cmd)
            end
        end)
  end.
Definition ParseValidateBody (cmd : option T) : act (option error * option T) :=
  match cmd with
  | None => ret (None, None)
  | Some cmd =>
      traced "Request.ParseValidateBody" (fun c =>
        let* a := on (gets (fun a : AuthContext => a)) in
        let* '(err, cmd) := HttpRequest.ParseBody (request_content a) cmd in
        match err with
        | Some _ => SetError c err ;; ret (err, Some cmd)
        | None =>
            let* err := Validate cmd in
            match err with
            | Some _ => SetError c err ;; ret (err, Some cmd)
            | None => ret (None, Some cmd)
            end
        end)
  end.
Definition ParseValidate ep (cmd : option T) : act (option error * option T) :=
  let* w := api in
  if HttpContentInQuery (accessType (operation_of w ep)) then ParseValidateQuery cmd else ParseValidateBody cmd.
End Command.

(** ** Filters of requests (request.go of api_server) *)

Section Filters.
Context `{Lf : !Lens X FilterManager, Mr : !MapRange, Vv : !ValueValidator}.
Context `{Cq : !Command DbQuery}.
(** The reading of numbers, and of a query from JSON. *)
Variable ParseFloat : string -> option Z.
Variable Unmarshal : string -> Query + error.

Definition EmptyFilterValidator : FilterValidator := {| ValidateValue := ValidateValue_; Rules := ∅ |}.

Definition ParseDbQuery ep (model : schema_Schema + error) (queryName : string) (cmd : list DbQuery) :
    act (option Filter * option error) :=
  let q := match cmd with [] => {| Query_ := "" |} | q :: _ => q end in
  traced "ParseDbQuery" (fun c =>
    let* '(err, parsed) := ParseValidate ep (Some q) in
    match err with
    | Some _ => SetMessage c "failed to parse/verify query" ;; SetError c err ;; ret (None, err)
    | None =>
        let q := default q parsed in
        if decide (Query_ q = "") then ret (None, None)
        else
          let* filter := on (ParseQuery ParseFloat Unmarshal (Query_ q) model queryName [EmptyFilterValidator]) in
          match filter with
          | inr err =>
              (match err with Validation v => SetGenericError (Some (ValidationErrors.GenericError v)) [true] | Failure _ => ret tt end) ;;
              SetMessage c "failed to parse/validate db query" ;;
              SetError c (Some (as_error text err)) ;;
              ret (None, Some (as_error text err))
          | inl filter => ret (filter, None)
          end
    end).
End Filters.

(** ** Lists in responses (response.go) *)

Section Lists.
Context `{HL : !WithHateoasLinks Msg}.
Variable server : Server P X.

(** A list as a message: the IDs of its items, the links of the items, the message itself. *)
Definition SetResponseList ep (ids : list string) (message : option (list (string * list HateoasLink)) -> Msg) (resourceType : list string) : act unit :=
  if HATEOAS (config server) then
    let* w := api in
    let resource := resource_of w ep in
    let rType := OptionalArg (Resource.Type_ (resources w) resource) resourceType in
    let* links := on (HateoasList ids resource rType) in
    SetMessage_ server ep (message (if decide (ids = []) then None else Some links))
  else SetMessage_ server ep (message None).
End Lists.

(** ** Operations that are executed by a client (operation.go) *)

(** The handler of [Exec] is the call of a server, as the operation. *)
Definition Operation_Exec (handler : act (option error)) : act (option error) :=
  traced "Operation.Exec" (fun c => let* err := handler in SetError c err).
Definition Operation_ExecInTenancy (handler : act (option error)) : act (option error) :=
  traced "Operation.ExecInTenancy" (fun c => let* err := handler in SetError c err).
End Commands.

(** ** What a request asks for *)

Section Reading.
Context {P X Msg : Type} `{Lc : !Lens X AuthContext, Lh : !Lens X (Http Msg), La : !Lens X Api}.
Variable text : error -> string.
Implicit Types (ep : Endpoint P X) (o : Op P) (x : X).

Lemma spec_on_gets {Y} `{!Lens X Y} {A} (f : Y -> A) (Q : A -> Op P -> X -> Prop) o x :
  Q (f (view x)) o x -> spec (on (gets f)) Q o x.
Proof. intros HQ. apply spec_on. unfold wp, gets. cbn. by rewrite put_view. Qed.

Section Command.
Context {T : Type} `{Cm : !Command T}.

Definition read_query (raw : string) (cmd : T) : T * option error :=
  if decide (raw = "") then (cmd, None)
  else match Url.ParseQuery raw with
       | (vals, None) => schema_Decode vals cmd
       | (_, Some err) => (cmd, Some err)
       end.
(** The command of a request that is read without an error and passes the validator. *)
Definition read_command ep (zero : T) x : option T :=
  let '(cmd, err) :=
    if HttpContentInQuery (accessType (operation_of (view x) ep)) then read_query (raw_query (view (A := Http Msg) x)) zero
    else ParseMessage (request_content (view x)) zero in
  match err, Validate_ cmd with None, None => Some cmd | _, _ => None end.

Lemma spec_Validate (cmd : T) (Q : option error -> Op P -> X -> Prop) o x :
  (Validate_ cmd = None -> Q None o x) ->
  (forall err o', Validate_ cmd <> None -> oplogs o' = oplogs o -> errorManager o' = errorManager o -> Q (Some err) o' x) ->
  spec (Validate text cmd) Q o x.
Proof.
  intros Hn He. unfold Validate. spec_go. destruct (Validate_ cmd) as [[v|err]|]; spec_go; [|by apply He|by apply Hn].
  apply spec_SetGenericError. spec_go. destruct (genericError o); by apply He.
Qed.

Lemma spec_HttpParseQuery raw (cmd : T) (Q : option error * T -> Op P -> X -> Prop) o x :
  (let '(c, err) := read_query raw cmd in Q (err, c) o x) -> spec (HttpRequest.ParseQuery raw cmd) Q o x.
Proof.
  intros HQ. unfold HttpRequest.ParseQuery, read_query in *. spec_go. destruct (decide (raw = "")); [by spec_go|].
  destruct (Url.ParseQuery raw) as [vals [err|]]; [by spec_go|].
  destruct (schema_Decode vals cmd) as [d [err|]]; by spec_go.
Qed.
Lemma spec_HttpParseBody body (cmd : T) (Q : option error * T -> Op P -> X -> Prop) o x :
  (let '(c, err) := ParseMessage body cmd in Q (err, c) o x) -> spec (HttpRequest.ParseBody body cmd) Q o x.
Proof.
  intros HQ. unfold HttpRequest.ParseBody. spec_go. destruct (ParseMessage body cmd) as [d [err|]]; by spec_go.
Qed.

(** The handler gets the command that was read, or an error. *)
Lemma spec_ParseValidate ep zero (Q : option error * option T -> Op P -> X -> Prop) o x :
  (forall cmd, read_command ep zero x = Some cmd -> Q (None, Some cmd) o x) ->
  (forall err cmd o', read_command ep zero x = None -> oplogs o' = oplogs o -> errorManager o' = errorManager o -> Q (Some err, cmd) o' x) ->
  spec (ParseValidate text ep (Some zero)) Q o x.
Proof.
  intros Hy Hn. unfold ParseValidate, api, read_command in *. apply spec_bind, spec_on_gets.
  destruct (HttpContentInQuery _).
  - unfold ParseValidateQuery. apply spec_traced. intros c. apply spec_bind, spec_on_gets, spec_bind.
    apply spec_HttpParseQuery.
    destruct (read_query _ _) as [cmd [err|]]; [spec_go; by apply Hn|]. spec_go. apply spec_Validate.
    + intros E. spec_go. apply Hy. by rewrite E.
    + intros err o' E Eo Em. spec_go. apply Hn; [|done|done]. by destruct (Validate_ cmd).
  - unfold ParseValidateBody. apply spec_traced. intros c. apply spec_bind, spec_on_gets, spec_bind.
    apply spec_HttpParseBody.
    destruct (ParseMessage _ _) as [cmd [err|]]; [spec_go; by apply Hn|]. spec_go. apply spec_Validate.
    + intros E. spec_go. apply Hy. by rewrite E.
    + intros err o' E Eo Em. spec_go. apply Hn; [|done|done]. by destruct (Validate_ cmd).
Qed.
End Command.

Section Filter.
Context `{Lf : !Lens X FilterManager, Mr : !MapRange, Vv : !ValueValidator, Cq : !Command DbQuery}.
Variable ParseFloat : string -> option Z.
Variable Unmarshal : string -> Query + error.

(** The filter of a request: none given, one that was parsed, or a refusal. *)
Definition read_filter ep (model : schema_Schema + error) (queryName : string) x : option (option Filter) :=
  match read_command ep {| Query_ := "" |} x with
  | None => None
  | Some q =>
      if decide (Query_ q = "") then Some None
      else match (ParseQuery ParseFloat Unmarshal (Query_ q) model queryName [EmptyFilterValidator] (view x)).1 with
           | inl f => Some f
           | inr _ => None
           end
  end.

Lemma spec_ParseDbQuery ep model queryName (Q : option Filter * option error -> Op P -> X -> Prop) o x :
  (forall f m, read_filter ep model queryName x = Some f -> Q (f, None) o (put (A := FilterManager) m x)) ->
  (forall f err o' m, read_filter ep model queryName x = None -> oplogs o' = oplogs o -> Q (f, Some err) o' (put (A := FilterManager) m x)) ->
  spec (ParseDbQuery text ParseFloat Unmarshal ep model queryName []) Q o x.
Proof.
  intros Hy Hn. unfold ParseDbQuery, read_filter in *. cbn zeta. spec_go. apply spec_ParseValidate.
  - intros q E. rewrite E in *. cbn [from_option id]. destruct (decide (Query_ q = "")).
    { spec_go. rewrite <- (put_view (A := FilterManager) x). by apply Hy. }
    apply spec_bind, spec_on. unfold wp. destruct (ParseQuery _ _ _ _ _ _ (view x)) as [[f|err] m]; cbn [fst snd].
    + spec_go. by apply Hy.
    + destruct err as [v|err]; spec_go; [apply spec_SetGenericError; spec_go|]; apply Hn; try done.
      by destruct (genericError o).
  - intros err cmd o' E Eo _. rewrite E in Hn. spec_go. rewrite <- (put_view (A := FilterManager) x). by apply Hn.
Qed.
End Filter.
End Reading.
