(* ===== verification/PoolService.v ===== *)
(** * pkg/pool/pool_api: the service of pools

    Sixteen endpoints: each reads the IDs of the path, the command or the filter of the request,
    calls the pool controller on the database of the request, and makes a response of what the
    controller returned.  [handle] is the handler of an endpoint, [NewPoolService] the tree of
    resources they are put in. *)
From S2P Require Import Prelude GoTime Utils Common Errors OpContext Db Crud Crypt Http PoolData Pool Access Auth FilterParser ApiResource ApiReach Server ServerBuild ApiRequest.
Open Scope go_scope.

(** ** Commands and responses (pool.go, pool_service.go, pool_service_association.go, pool_api.go) *)

Record PoolServiceAssociationCmd := { cmd_ROLE : string; cmd_SERVICE_ID : string }.
(** The fields an update of a pool may have. *)
Record PoolBaseData := { pd_NAME : string; pd_LONG_NAME : string; pd_DESCRIPTION : string; pd_ACTIVE : bool }.
Definition Fill (pool : PoolBase) : PoolBaseData :=
  {| pd_NAME := p_NAME pool; pd_LONG_NAME := p_LONG_NAME pool; pd_DESCRIPTION := p_DESCRIPTION pool; pd_ACTIVE := p_ACTIVE pool |}.
Record PoolServiceBaseEssentials := { pe_NAME : string; pe_data : PoolServiceBaseData }.

Definition item_links : Type := option (list (string * list HateoasLink)).
(** The responses as messages; lists carry the links of their items. *)
Class PoolMessages (Msg : Type) := {
  PoolResponse : PoolBase -> Msg;
  ServiceResponse : PoolServiceBase -> Msg;
  ListPoolsResponse : list PoolBase -> Z -> item_links -> Msg;
  ListServicesResponse : list PoolServiceBase -> Z -> item_links -> Msg;
  ListServicePoolsResponse : list PoolServiceBinding -> Msg
}.

Definition ErrorDescriptions : gmap string string := list_to_map
  [(ErrorCodePoolNotFound, "Pool not found."); (ErrorCodeServiceNotFound, "Service not found.");
   (ErrorCodePoolNameConflict, "Pool with such name already exists, choose another name.");
   (ErrorCodeServiceNameConflict, "Service with such name already exists, choose another name.");
   (ErrorCodeServiceRoleConflict, "Pool already has service for that role.");
   (ErrorCodePoolServiceBindingsExist, "Can't delete pool with services. First, remove all services from the pool.");
   (ErrorCodePoolServiceBoundToPool, "Can't delete service bound to pool. First, remove the services from all pools.");
   (ErrorCodeNoServiceWithRole, "Pool does not include service with requested role");
   (ErrorCodeInvalidServiceConfiguration, "Invalid configuration of service in the pool");
   (ErrorCodeServiceInitializationFailed, "Failed to connect to service");
   (ErrorCodeServiceNotActive, "Service not active. First, activate corresponsing service.");
   (ErrorCodePoolNotActive, "Pool not active. First, activate corresponsing pool.")].
Definition ErrorHttpCodes : gmap string Z := list_to_map
  [(ErrorCodePoolNotFound, StatusNotFound); (ErrorCodeServiceNotFound, StatusNotFound);
   (ErrorCodeInvalidServiceConfiguration, StatusInternalServerError);
   (ErrorCodeServiceInitializationFailed, StatusInternalServerError);
   (ErrorCodeServiceNotActive, StatusInternalServerError); (ErrorCodePoolNotActive, StatusInternalServerError)].

(** The service, its resources, and the tables shown of its lists: a model and an operation. *)
Record PoolService := {
  ps_service : Service; PoolsResource : option ref; PoolResource_ : ref;
  ServicesResource : option ref; ServResource : ref; dynamicTables : list (string * ref)
}.

Section Endpoints.
Context {X Msg : Type} `{HL : !WithHateoasLinks Msg, PM : !PoolMessages Msg}.
Context `{Lc : !Lens X AuthContext, Lh : !Lens X (Http Msg), La : !Lens X Api, Lp : !Lens X PoolWorld, Lf : !Lens X FilterManager}.
Context `{Ep : !Engine PoolBase, Es : !Engine PoolServiceBase, Ea : !Engine PoolServiceAssociationBase, JE : !JoinEngine}.
Context `{Mr : !MapRange, Vv : !ValueValidator, Cq : !Command DbQuery, Cu : !Command UpdateCmd}.
Context `{Cp : !Command PoolBase, Cs : !Command PoolServiceBase, Ca : !Command PoolServiceAssociationCmd}.
Context `{Vp : !StructValidator PoolBaseData, Dp : !MapDecoder PoolBaseData}.
Context `{Vs : !StructValidator PoolServiceBaseEssentials, Ds : !MapDecoder PoolServiceBaseEssentials}.
Local Abbreviation P := OpLogPool.
Local Abbreviation act := (M (St P X)).
(** The text of an error, the reading of numbers and of a query, the models of the tables, the
    server. *)
Variable text : error -> string.
Variable ParseFloat : string -> option Z.
Variable Unmarshal : string -> Query + error.
Variable pool_model service_model : schema_Schema + error.
Variable server : Server P X.
Implicit Types ep : Endpoint P X.

(** The result of a handler; [None] is a panic. *)
Local Abbreviation result := (option (option error)).
Definition done_ : act result := ret (Some None).
Definition failed (err : option error) : act result := ret (Some err).
(** [c.SetMessage(msg); return c.SetError(err)] *)
Definition fail (c : nat) (msg : string) (err : option error) : act result :=
  SetMessage c msg ;; SetError c err ;; failed err.
Definition http : act (Http Msg) := on (gets (fun h : Http Msg => h)).
Definition resource_id (name : string) : act string := let* h := http in ret (GetResourceId (params h) name).
(** An operation of the controller on the database of the request. *)
Definition Pools {A} (m : M (St P PoolWorld) A) : act A := lift m.
Definition queryName ep : act string := let* w := api in ret (Resource.ServicePathPrototype (resources w) (resource_of w ep)).

(** ** Pools (add_pool.go, find_pool.go, update_pool.go, delete_pool.go, list_pools.go) *)

Definition AddPool ep : act result :=
  traced "pool.AddPool" (fun c =>
    let* '(err, cmd) := ParseValidate text ep (Some zero_pool) in
    match err with
    | Some _ => SetMessage c "failed to parse/validate command" ;; failed err
    | None =>
        let* '(p, err) := Pools (PoolController.AddPool (default zero_pool cmd)) in
        match err, p with
        | Some _, _ => fail c "failed to add pool" err
        | None, None => ret None
        | None, Some p => SetMessage_ server ep (PoolResponse p) ;; done_
        end
    end).

(** The pool that was not found is nil: the conversion panics. *)
Definition FindPool ep : act result :=
  traced "pool.FindPool" (fun c =>
    let* id := resource_id "pool" in
    let* '(p, err) := Pools (PoolController.FindPool id []) in
    match err, p with
    | Some _, _ => fail c "failed to find pool" err
    | None, None => ret None
    | None, Some p => SetMessage_ server ep (PoolResponse p) ;; done_
    end).

Definition zero_fields : UpdateCmd := {| cmd_Fields := ∅ |}.
(** The fields do not pass: the error returned is that of the decoder or the validator, if any. *)
Definition refuse_fields (c : nat) (vErr : ValidationError) : act result :=
  SetMessage c "failed to validate fields" ;;
  SetGenericError (Some (ValidationErrors.GenericError vErr)) [] ;;
  SetError c (ve_Err vErr) ;; failed (ve_Err vErr).

Definition zero_pool_data : PoolBaseData := Fill zero_pool.
Definition UpdatePool ep : act result :=
  traced "pool.UpdatePool" (fun c =>
    let* '(err, cmd) := ParseValidate text ep (Some zero_fields) in
    match err with
    | Some _ => fail c "failed to parse/validate command" err
    | None =>
        let fields := cmd_Fields (default zero_fields cmd) in
        match ValidateMap fields zero_pool_data [] with
        | Some vErr => refuse_fields c vErr
        | None =>
            let* id := resource_id "pool" in
            let* '(p, err) := Pools (PoolController.UpdatePool id fields []) in
            match err, p with
            | Some _, _ => fail c "failed to update pool" err
            | None, None =>
                SetGenericErrorCode ErrorCodePoolNotFound [] ;;
                let* err := SetError c (Some (Native "pool not found")) in failed err
            | None, Some p => SetMessage_ server ep (PoolResponse p) ;; done_
            end
        end
    end).

Definition DeletePool ep : act result :=
  traced "pool.DeletePool" (fun c =>
    let* id := resource_id "pool" in
    let* err := Pools (PoolController.DeletePool id []) in
    match err with Some _ => fail c "failed to delete pool" err | None => done_ end).

Definition ListPools ep : act result :=
  traced "pool.ListPools" (fun c =>
    let* name := queryName ep in
    let* '(filter, err) := ParseDbQuery text ParseFloat Unmarshal ep pool_model name [] in
    match err with
    | Some _ => SetError c err ;; failed err
    | None =>
        let* '(items, count, err) := Pools (PoolController.GetPools filter) in
        match err with
        | Some _ => SetError c err ;; failed err
        | None => SetResponseList server ep (map Db.GetID items) (ListPoolsResponse items count) [] ;; done_
        end
    end).

(** ** Services (add_service.go, find_service.go, update_service.go, delete_service.go, list_services.go) *)

Definition AddService ep : act result :=
  traced "pool.AddService" (fun c =>
    let* '(err, cmd) := ParseValidate text ep (Some zero_service) in
    match err with
    | Some _ => SetMessage c "failed to parse/validate command" ;; failed err
    | None =>
        let* '(s, err) := Pools (PoolController.AddService (default zero_service cmd)) in
        match err, s with
        | Some _, _ => fail c "failed to add service" err
        | None, None => ret None
        | None, Some s => SetMessage_ server ep (ServiceResponse s) ;; done_
        end
    end).

Definition FindService ep : act result :=
  traced "pool.FindService" (fun c =>
    let* id := resource_id "service" in
    let* '(s, err) := Pools (PoolController.FindService id []) in
    match err, s with
    | Some _, _ => fail c "failed to find service" err
    | None, None =>
        SetGenericErrorCode ErrorCodeServiceNotFound [] ;;
        let* err := SetError c (Some (Native "service not found")) in failed err
    | None, Some s => SetMessage_ server ep (ServiceResponse s) ;; done_
    end).

Definition zero_essentials : PoolServiceBaseEssentials := {| pe_NAME := ""; pe_data := zero_data |}.
(** The service the controller did not find is nil: the conversion panics. *)
Definition UpdateService ep : act result :=
  traced "pool.UpdateService" (fun c =>
    let* '(err, cmd) := ParseValidate text ep (Some zero_fields) in
    match err with
    | Some _ => fail c "failed to parse/validate command" err
    | None =>
        let fields := cmd_Fields (default zero_fields cmd) in
        match ValidateMap fields zero_essentials [] with
        | Some vErr => refuse_fields c vErr
        | None =>
            let* id := resource_id "service" in
            let* '(s, err) := Pools (PoolController.UpdateService id fields []) in
            match err, s with
            | Some _, _ => fail c "failed to update service" err
            | None, None => ret None
            | None, Some s => SetMessage_ server ep (ServiceResponse s) ;; done_
            end
        end
    end).

Definition DeleteService ep : act result :=
  traced "pool.DeleteService" (fun c =>
    let* id := resource_id "service" in
    let* err := Pools (PoolController.DeleteService id []) in
    match err with Some _ => fail c "failed to delete service" err | None => done_ end).

Definition ListServices ep : act result :=
  traced "pool.ListServices" (fun c =>
    let* name := queryName ep in
    let* '(filter, err) := ParseDbQuery text ParseFloat Unmarshal ep service_model name [] in
    match err with
    | Some _ => SetError c err ;; failed err
    | None =>
        let* '(items, count, err) := Pools (PoolController.GetServices filter) in
        match err with
        | Some _ => SetError c err ;; failed err
        | None => SetResponseList server ep (map Db.GetID items) (ListServicesResponse items count) [] ;; done_
        end
    end).

(** ** Associations (add_service_to_pool.go, remove_*.go, list_pool_services.go, list_service_pools.go) *)

Definition AddServiceToPool ep : act result :=
  traced "pool.AddServiceToPool" (fun c =>
    let cmd0 := {| cmd_ROLE := ""; cmd_SERVICE_ID := "" |} in
    let* '(err, cmd) := ParseValidate text ep (Some cmd0) in
    match err with
    | Some _ => SetMessage c "failed to parse/validate command" ;; failed err
    | None =>
        let cmd := default cmd0 cmd in
        let* poolId := resource_id "pool" in
        let* err := Pools (PoolController.AddServiceToPool poolId (cmd_SERVICE_ID cmd) (cmd_ROLE cmd) []) in
        match err with Some _ => fail c "failed to add service to pool" err | None => done_ end
    end).

Definition RemoveServiceFromPool ep : act result :=
  traced "pool.RemoveServiceToPool" (fun c =>
    let* poolId := resource_id "pool" in
    let* role := resource_id "role" in
    let* err := Pools (PoolController.RemoveServiceFromPool poolId role []) in
    match err with Some _ => fail c "failed to remove service from pool" err | None => done_ end).

Definition RemoveAllServicesFromPool ep : act result :=
  traced "pool.RemoveAllServicesFromPool" (fun c =>
    let* poolId := resource_id "pool" in
    let* err := Pools (PoolController.RemoveAllServicesFromPool poolId []) in
    match err with Some _ => fail c "failed to remove services from pool" err | None => done_ end).

Definition RemoveServiceFromAllPools ep : act result :=
  traced "pool.RemoveServiceFromAllPools" (fun c =>
    let* serviceId := resource_id "service" in
    let* err := Pools (PoolController.RemoveServiceFromAllPools serviceId []) in
    match err with Some _ => fail c "failed to remove services from all pools" err | None => done_ end).

Definition ListPoolServices ep : act result :=
  traced "pool.ListPoolServices" (fun c =>
    let* id := resource_id "pool" in
    let* '(items, err) := Pools (PoolController.GetPoolBindings id []) in
    match err with
    | Some _ => fail c "failed to get service bindings" err
    | None => SetMessage_ server ep (ListServicePoolsResponse items) ;; done_
    end).

Definition ListServicePools ep : act result :=
  traced "pool.ListServicePools" (fun c =>
    let* id := resource_id "service" in
    let* '(items, err) := Pools (PoolController.GetServiceBindings id []) in
    match err with
    | Some _ => fail c "failed to get service bindings" err
    | None => SetMessage_ server ep (ListServicePoolsResponse items) ;; done_
    end).

(** ** The endpoints, and the service (pool_service.go, pool_api.go) *)

Inductive operation :=
| KAddPool | KFindPool | KUpdatePool | KDeletePool | KListPools
| KAddService | KFindService | KUpdateService | KDeleteService | KListServices
| KAddServiceToPool | KRemoveServiceFromPool | KRemoveAllServicesFromPool | KRemoveServiceFromAllPools
| KListPoolServices | KListServicePools.

Definition handle (k : operation) : Endpoint P X -> act result :=
  match k with
  | KAddPool => AddPool | KFindPool => FindPool | KUpdatePool => UpdatePool | KDeletePool => DeletePool
  | KListPools => ListPools | KAddService => AddService | KFindService => FindService
  | KUpdateService => UpdateService | KDeleteService => DeleteService | KListServices => ListServices
  | KAddServiceToPool => AddServiceToPool | KRemoveServiceFromPool => RemoveServiceFromPool
  | KRemoveAllServicesFromPool => RemoveAllServicesFromPool | KRemoveServiceFromAllPools => RemoveServiceFromAllPools
  | KListPoolServices => ListPoolServices | KListServicePools => ListServicePools
  end.
Definition make_operation (k : operation) : M (Built (P := P) (X := X)) ref :=
  match k with
  | KUpdateService => Resource.UpdatePartial_ "update_service" | KUpdatePool => Resource.UpdatePartial_ "update_pool"
  | KRemoveServiceFromPool => Resource.Unbind_ "remove_service_from_pool"
  | KRemoveServiceFromAllPools => Resource.Unbind_ "remove_service_from_all_pools"
  | KRemoveAllServicesFromPool => Resource.Unbind_ "remove_all_services_from_pool"
  | KListServices => Resource.List_ "list_services" | KListServicePools => Resource.List_ "list_service_pools"
  | KFindService => Resource.Find_ "find_service" | KFindPool => Resource.Find_ "find_pool"
  | KDeleteService => Resource.Delete_ "delete_service" | KDeletePool => Resource.Delete_ "delete_pool"
  | KAddService => Resource.Add_ "add_service" | KAddServiceToPool => Resource.Bind_ "add_service_to_pool"
  | KAddPool => Resource.Add_ "add_pool" | KListPools => Resource.List_ "list_pools"
  | KListPoolServices => Resource.List_ "list_pool_services"
  end.
Definition endpoint (k : operation) (op : ref) : Endpoint P X := EndpointBase op (handle k (EndpointBase op done_)).
(** The constructor of an endpoint: its operation, registered as an endpoint. *)
Definition Construct (k : operation) : M (Built (P := P) (X := X)) ref :=
  let* op := make_operation k in
  fun b => (op, (b.1, <[op := endpoint k op]> b.2)).
Definition add_operations (r : option ref) (ops : list ref) : M (Built (P := P) (X := X)) unit :=
  match r with Some r => Resource.AddOperations r ops | None => ret tt end.

Definition NewPoolService : M (Built (P := P) (X := X)) PoolService :=
  let* '(serviceName, pools, pool) := Resource.PrepareCollectionAndNameResource "pool" in
  let* s := ServiceBase_Init serviceName in
  AddChild_ s (default 0 pools) ;;
  let* '(_, services, service) := Resource.PrepareCollectionAndNameResource "service" in
  AddChild_ s (default 0 services) ;;

  let* listPools := Construct KListPools in
  let* addPool := Construct KAddPool in
  add_operations pools [addPool; listPools] ;;
  let* findPool := Construct KFindPool in
  Resource.AddOperation pool findPool [true] ;;
  let* updatePool := Construct KUpdatePool in
  let* deletePool := Construct KDeletePool in
  Resource.AddOperations pool [updatePool; deletePool] ;;

  let* poolServiceAssociations := zoom (Resource.NewResource "service" []) in
  let* listPoolServices := Construct KListPoolServices in
  let* addServiceToPool := Construct KAddServiceToPool in
  let* removeAll := Construct KRemoveAllServicesFromPool in
  Resource.AddOperations poolServiceAssociations [listPoolServices; addServiceToPool; removeAll] ;;
  AddChild_ pool poolServiceAssociations ;;

  let* poolServiceAssociation := Resource.NamedResource "role" in
  let* removeService := Construct KRemoveServiceFromPool in
  Resource.AddOperation poolServiceAssociation removeService [] ;;
  AddChild_ poolServiceAssociations poolServiceAssociation ;;

  let* listServices := Construct KListServices in
  let* addService := Construct KAddService in
  add_operations services [addService; listServices] ;;
  let* findService := Construct KFindService in
  Resource.AddOperation service findService [true] ;;
  let* updateService := Construct KUpdateService in
  let* deleteService := Construct KDeleteService in
  Resource.AddOperations service [updateService; deleteService] ;;

  let* servicePoolAssociations := zoom (Resource.NewResource "pool" []) in
  let* listServicePools := Construct KListServicePools in
  let* removeFromAll := Construct KRemoveServiceFromAllPools in
  Resource.AddOperations servicePoolAssociations [listServicePools; removeFromAll] ;;
  AddChild_ service servicePoolAssociations ;;

  ret {| ps_service := {| sv_resource := s; sv_ErrorDescriptions := ErrorDescriptions; sv_ErrorProtocolCodes := ErrorHttpCodes |};
         PoolsResource := pools; PoolResource_ := pool; ServicesResource := services; ServResource := service;
         dynamicTables := [("PoolBase", listPools); ("PoolServiceBase", listServices);
                           ("PoolServiceBinding", listPoolServices); ("PoolServiceBinding", listServicePools)] |}.
End Endpoints.
