(* ===== verification/PoolApi.v ===== *)
(** * The service of pools: what the requests of its endpoints do

    [asks] is the call of the controller a request makes, read from its path, its command and
    its filter; [perform] is that call.  An endpoint that is asked nothing valid reports an error
    and touches no pool; otherwise it does to the database what the call does, and answers with
    what the call returned. *)
From S2P Require Import Prelude GoTime Utils Common Errors OpContext Db Crud Crypt Http PoolData Pool PoolInv Access Auth FilterParser ApiResource ApiReach Server ServerBuild ApiRequest PoolService.
Open Scope go_scope.

(** ** Calls of the controller *)

Inductive pool_call :=
| CAddPool (p : PoolBase) | CFindPool (id : string) | CUpdatePool (id : string) (fields : Fields) | CDeletePool (id : string)
| CGetPools (f : option Filter)
| CAddService (s : PoolServiceBase) | CFindService (id : string) | CUpdateService (id : string) (fields : Fields)
| CDeleteService (id : string) | CGetServices (f : option Filter)
| CAddServiceToPool (poolId serviceId role : string) | CRemoveServiceFromPool (poolId role : string)
| CRemoveAllServicesFromPool (id : string) | CRemoveServiceFromAllPools (id : string)
| CGetPoolBindings (id : string) | CGetServiceBindings (id : string).

(** What a call returns next to its error. *)
Inductive returned :=
| RNothing | RPool (p : option PoolBase) | RService (s : option PoolServiceBase)
| RPools (l : list PoolBase) (count : Z) | RServices (l : list PoolServiceBase) (count : Z)
| RBindings (l : list PoolServiceBinding).

Section Perform.
Context `{Ep : !Engine PoolBase, Es : !Engine PoolServiceBase, Ea : !Engine PoolServiceAssociationBase, JE : !JoinEngine}.
Import PoolController.

Definition perform (c : pool_call) : M (St OpLogPool PoolWorld) (option error * returned) :=
  match c with
  | CAddPool p => let* r := AddPool p in ret (r.2, RPool r.1)
  | CFindPool id => let* r := FindPool id [] in ret (r.2, RPool r.1)
  | CUpdatePool id fields => let* r := UpdatePool id fields [] in ret (r.2, RPool r.1)
  | CDeletePool id => let* r := DeletePool id [] in ret (r, RNothing)
  | CGetPools f => let* r := GetPools f in ret (r.2, RPools r.1.1 r.1.2)
  | CAddService s => let* r := AddService s in ret (r.2, RService r.1)
  | CFindService id => let* r := FindService id [] in ret (r.2, RService r.1)
  | CUpdateService id fields => let* r := UpdateService id fields [] in ret (r.2, RService r.1)
  | CDeleteService id => let* r := DeleteService id [] in ret (r, RNothing)
  | CGetServices f => let* r := GetServices f in ret (r.2, RServices r.1.1 r.1.2)
  | CAddServiceToPool p s role => let* r := AddServiceToPool p s role [] in ret (r, RNothing)
  | CRemoveServiceFromPool p role => let* r := RemoveServiceFromPool p role [] in ret (r, RNothing)
  | CRemoveAllServicesFromPool id => let* r := RemoveAllServicesFromPool id [] in ret (r, RNothing)
  | CRemoveServiceFromAllPools id => let* r := RemoveServiceFromAllPools id [] in ret (r, RNothing)
  | CGetPoolBindings id => let* r := GetPoolBindings id [] in ret (r.2, RBindings r.1)
  | CGetServiceBindings id => let* r := GetServiceBindings id [] in ret (r.2, RBindings r.1)
  end.

(** Updates leave the identifier alone. *)
Definition admissible_call (c : pool_call) : Prop :=
  match c with
  | CUpdatePool _ fields | CUpdateService _ fields => leaves_id fields
  | _ => True
  end.
Definition request_of (c : pool_call) : option PoolInv.request :=
  match c with
  | CAddPool p => Some (ReqAddPool p) | CUpdatePool id fields => Some (ReqUpdatePool id fields [])
  | CDeletePool id => Some (ReqDeletePool id []) | CAddService s => Some (ReqAddService s)
  | CUpdateService id fields => Some (ReqUpdateService id fields []) | CDeleteService id => Some (ReqDeleteService id [])
  | CAddServiceToPool p s role => Some (ReqAddServiceToPool p s role [])
  | CRemoveServiceFromPool p role => Some (ReqRemoveServiceFromPool p role [])
  | CRemoveAllServicesFromPool id => Some (ReqRemoveAllServicesFromPool id [])
  | CRemoveServiceFromAllPools id => Some (ReqRemoveServiceFromAllPools id [])
  | CGetPoolBindings id => Some (ReqGetPoolBindings id []) | CGetServiceBindings id => Some (ReqGetServiceBindings id [])
  | _ => None
  end.

(** A call whose request is one of the controller leaves the state the request leaves. *)
Lemma perform_run c r s : request_of c = Some r -> (perform c s).2 = (PoolInv.run r s).2.
Proof. destruct c; intros [= <-]; reflexivity. Qed.

Context `{Epo : !EngineOk PoolBase, Eso : !EngineOk PoolServiceBase, Eao : !EngineOk PoolServiceAssociationBase}.
Lemma perform_integrity c (o : Op OpLogPool) (w : PoolWorld) :
  admissible_call c -> integrity w -> spec (perform c) (fun _ _ w' => integrity w') o w.
Proof.
  intros Hc Hi. destruct (request_of c) as [r|] eqn:Er.
  - intros t. cbv zeta. rewrite (perform_run c r _ Er). apply run_integrity; [|done].
    destruct c; try discriminate Er; injection Er as <-; exact Hc.
  - destruct c; try discriminate Er; cbn [perform]; unfold GetPools, GetServices; spec_go.
    + apply spec_FindPool; intros; spec_go; by eapply integrity_same.
    + apply spec_List. intros rs n [e|] _; spec_go; by eapply integrity_same.
    + apply spec_FindService; intros; spec_go; by eapply integrity_same.
    + apply spec_List. intros rs n [e|] _; spec_go; by eapply integrity_same.
Qed.
End Perform.

(** ** Endpoints and calls *)

Section Refinement.
Context {X Msg : Type} `{HL : !WithHateoasLinks Msg, PM : !PoolMessages Msg}.
Context `{Lc : !Lens X AuthContext, Lh : !Lens X (Http Msg), La : !Lens X Api, Lp : !Lens X PoolWorld, Lf : !Lens X FilterManager}.
Context `{Dph : !Disjoint_lens X PoolWorld (Http Msg), Dpa : !Disjoint_lens X PoolWorld Api}.
Context `{Dpf : !Disjoint_lens X PoolWorld FilterManager}.
Context `{Ep : !Engine PoolBase, Es : !Engine PoolServiceBase, Ea : !Engine PoolServiceAssociationBase, JE : !JoinEngine}.
Context `{Mr : !MapRange, Vv : !ValueValidator, Cq : !Command DbQuery, Cu : !Command UpdateCmd}.
Context `{Cp : !Command PoolBase, Cs : !Command PoolServiceBase, Ca : !Command PoolServiceAssociationCmd}.
Context `{Vp : !StructValidator PoolBaseData, Dp : !MapDecoder PoolBaseData}.
Context `{Vs : !StructValidator PoolServiceBaseEssentials, Ds : !MapDecoder PoolServiceBaseEssentials}.
Local Abbreviation P := OpLogPool.
Variable text : error -> string.
Variable ParseFloat : string -> option Z.
Variable Unmarshal : string -> Query + error.
Variable pool_model service_model : schema_Schema + error.
Variable server : Server P X.
Implicit Types (ep : Endpoint P X) (o : Op P) (x : X) (k : operation).
Local Abbreviation handle := (handle text ParseFloat Unmarshal pool_model service_model server).

Definition path_id (name : string) x : string := GetResourceId (params (view (A := Http Msg) x)) name.
(** The fields of an update, if they pass. *)
Definition read_fields {T} `{!StructValidator T, !MapDecoder T} ep (sample : T) x : option Fields :=
  match read_command ep zero_fields x with
  | None => None
  | Some cmd => match ValidateMap (cmd_Fields cmd) sample [] with None => Some (cmd_Fields cmd) | Some _ => None end
  end.
Definition path_of ep x : string := let w := view (A := Api) x in Resource.ServicePathPrototype (resources w) (resource_of w ep).

(** The call a request makes of the controller; none if it is not valid. *)
Definition asks k ep x : option pool_call :=
  match k with
  | KAddPool => CAddPool <$> read_command ep zero_pool x
  | KFindPool => Some (CFindPool (path_id "pool" x))
  | KUpdatePool => CUpdatePool (path_id "pool" x) <$> read_fields ep zero_pool_data x
  | KDeletePool => Some (CDeletePool (path_id "pool" x))
  | KListPools => CGetPools <$> read_filter ParseFloat Unmarshal ep pool_model (path_of ep x) x
  | KAddService => CAddService <$> read_command ep zero_service x
  | KFindService => Some (CFindService (path_id "service" x))
  | KUpdateService => CUpdateService (path_id "service" x) <$> read_fields ep zero_essentials x
  | KDeleteService => Some (CDeleteService (path_id "service" x))
  | KListServices => CGetServices <$> read_filter ParseFloat Unmarshal ep service_model (path_of ep x) x
  | KAddServiceToPool =>
      (fun cmd => CAddServiceToPool (path_id "pool" x) (cmd_SERVICE_ID cmd) (cmd_ROLE cmd)) <$>
      read_command ep {| cmd_ROLE := ""; cmd_SERVICE_ID := "" |} x
  | KRemoveServiceFromPool => Some (CRemoveServiceFromPool (path_id "pool" x) (path_id "role" x))
  | KRemoveAllServicesFromPool => Some (CRemoveAllServicesFromPool (path_id "pool" x))
  | KRemoveServiceFromAllPools => Some (CRemoveServiceFromAllPools (path_id "service" x))
  | KListPoolServices => Some (CGetPoolBindings (path_id "pool" x))
  | KListServicePools => Some (CGetServiceBindings (path_id "service" x))
  end.

(** The message of what a call returned, given the links of the items. *)
Definition message_of (r : returned) : option (item_links -> Msg) :=
  match r with
  | RPool (Some p) => Some (fun _ => PoolResponse p)
  | RService (Some s) => Some (fun _ => ServiceResponse s)
  | RPools l n => Some (ListPoolsResponse l n)
  | RServices l n => Some (ListServicesResponse l n)
  | RBindings l => Some (fun _ => ListServicePoolsResponse l)
  | _ => None
  end.
Definition says (m : item_links -> Msg) x : Prop := exists links il,
  r_message (response (view (A := Http Msg) x)) = Some (match links with Some l => SetHateoasLinks l (m il) | None => m il end) /\
  (HATEOAS (config server) = false -> links = None /\ il = None).
(** The result of an endpoint whose call returned nil and no error; [None] is a panic. *)
Definition nil_result k : option (option error) :=
  match k with
  | KUpdatePool => Some (Some (Native "pool not found"))
  | KFindService => Some (Some (Native "service not found"))
  | _ => None
  end.
Definition answered k (r : option error * returned) (res : option (option error)) x : Prop :=
  match r with
  | (Some e, _) => res = Some (Some e)
  | (None, RNothing) => res = Some None
  | (None, v) => match message_of v with Some m => res = Some None /\ says m x | None => res = nil_result k end
  end.

(** A request without a call: an error is returned, or a generic error is there for the reply. *)
Definition refused (res : option (option error)) (o' : Op P) : Prop :=
  (exists e, res = Some (Some e)) \/ res = Some None /\ genericError o' <> None.

(** What an endpoint leaves behind, [Q] being what its call leaves behind. *)
Definition endpoint_post k (Q : option error * returned -> Op P -> PoolWorld -> Prop) (c : option pool_call) o x
    (res : option (option error)) (o' : Op P) x' : Prop :=
  match c with
  | None => refused res o' /\ view (A := PoolWorld) x' = view x /\ oplogs o' = oplogs o
  | Some c => exists r o1, Q r o1 (view x') /\ oplogs o' = oplogs o1 /\ answered k r res x'
  end.

(** *** The steps of a handler *)

Lemma spec_Pools {A} (m : M (St P PoolWorld) A) (Q : A -> Op P -> X -> Prop) o x :
  spec m (fun a o' w => Q a o' (put w x)) o (view x) -> spec (Pools m) Q o x.
Proof. intros H t. exact (H t). Qed.
(** A call of the controller known by what it leaves behind. *)
Lemma spec_returned {A B} (m : M (St P PoolWorld) A) (f : A -> B) (Q : B -> Op P -> PoolWorld -> Prop) o w :
  spec (let* a := m in ret (f a)) Q o w -> spec m (fun a => Q (f a)) o w.
Proof. intros H t. specialize (H t). unfold bind in H. cbn in *. by destruct (m _). Qed.
Lemma spec_resource_id name (Q : string -> Op P -> X -> Prop) o x : Q (path_id name x) o x -> spec (resource_id name) Q o x.
Proof. intros HQ. apply spec_bind, spec_on_gets, spec_ret, HQ. Qed.
Lemma spec_queryName ep (Q : string -> Op P -> X -> Prop) o x : Q (path_of ep x) o x -> spec (queryName ep) Q o x.
Proof. intros HQ. apply spec_bind, spec_on_gets, spec_ret, HQ. Qed.
Lemma spec_SetMessage_ ep m (Q : unit -> Op P -> X -> Prop) o x :
  (forall x', view (A := PoolWorld) x' = view x ->
     (exists links, r_message (response (view (A := Http Msg) x')) = Some (match links with Some l => SetHateoasLinks l m | None => m end) /\
        (HATEOAS (config server) = false -> links = None)) -> Q tt o x') ->
  spec (SetMessage_ server ep m) Q o x.
Proof.
  intros HQ. apply spec_bind, spec_on_gets, spec_on, wp_modify, HQ; [apply view_put_l|]. rewrite view_put. cbn.
  destruct (HATEOAS (config server)); [by eexists (Some _)|by exists None].
Qed.
Lemma spec_says ep (m : item_links -> Msg) il (Q : option (option error) -> Op P -> X -> Prop) o x :
  (HATEOAS (config server) = false -> il = None) ->
  (forall x', view (A := PoolWorld) x' = view x -> says m x' -> Q (Some None) o x') ->
  spec (SetMessage_ server ep (m il) ;; done_) Q o x.
Proof.
  intros Hil HQ. apply spec_bind, spec_SetMessage_. intros x' E (links & El & Hl). apply spec_ret, HQ; [done|].
  exists links, il. split; [done|]. intros Hh. by rewrite Hl, Hil.
Qed.
Lemma spec_says_list ep ids (m : item_links -> Msg) (Q : option (option error) -> Op P -> X -> Prop) o x :
  (forall x', view (A := PoolWorld) x' = view x -> says m x' -> Q (Some None) o x') ->
  spec (SetResponseList server ep ids m [] ;; done_) Q o x.
Proof.
  intros HQ. unfold SetResponseList. destruct (HATEOAS (config server)) eqn:Eh.
  - apply spec_bind, spec_bind, spec_on_gets, spec_bind, spec_on. unfold wp. set (w := (HateoasList _ _ _ _).2).
    apply spec_SetMessage_. intros x' E (links & El & Hl). apply spec_ret, HQ; [by rewrite E, view_put_l|].
    exists links. eexists. split; [exact El|]. by rewrite Eh.
  - apply spec_says; [done|]. intros x' E Hs. by apply HQ.
Qed.
Lemma spec_fail c msg err (Q : option (option error) -> Op P -> X -> Prop) o x : Q (Some err) o x -> spec (fail c msg err) Q o x.
Proof. intros HQ. unfold fail, failed. by spec_go. Qed.

Lemma spec_call {A B} (m : M (St P PoolWorld) A) c f (K : A -> M (St P X) B) Q (Q' : B -> Op P -> X -> Prop) o x :
  perform c = (let* a := m in ret (f a)) -> spec (perform c) Q o (view x) ->
  (forall a o1 w, Q (f a) o1 w -> spec (K a) Q' o1 (put w x)) -> spec (let* a := Pools m in K a) Q' o x.
Proof.
  intros E Hc HK. apply spec_bind, spec_Pools. eapply spec_mono; [exact HK|]. apply spec_returned. by rewrite <- E.
Qed.
Lemma post_error k Q c o x e v o1 w : Q (Some e, v) o1 w -> endpoint_post k Q (Some c) o x (Some (Some e)) o1 (put w x).
Proof. intros HQ. exists (Some e, v), o1. by rewrite view_put. Qed.
Lemma post_nothing k Q c o x o1 w : Q (None, RNothing) o1 w -> endpoint_post k Q (Some c) o x (Some None) o1 (put w x).
Proof. intros HQ. exists (None, RNothing), o1. by rewrite view_put. Qed.
Lemma post_says k Q c o x v m o1 w x' : v <> RNothing -> Q (None, v) o1 w -> message_of v = Some m ->
  view x' = view (A := PoolWorld) (put w x) -> says m x' -> endpoint_post k Q (Some c) o x (Some None) o1 x'.
Proof.
  intros Hv HQ Hm E Hs. exists (None, v), o1. rewrite E, view_put. split_and!; [done..|]. unfold answered. rewrite Hm. by destruct v.
Qed.
Lemma post_nil k Q c o x v o1 o2 w : v = RPool None \/ v = RService None -> Q (None, v) o1 w -> oplogs o2 = oplogs o1 ->
  endpoint_post k Q (Some c) o x (nil_result k) o2 (put w x).
Proof. intros [->| ->] HQ Eo; [exists (None, RPool None), o1|exists (None, RService None), o1]; by rewrite view_put. Qed.
Lemma post_refused k Q o x res o' x' : refused res o' -> view (A := PoolWorld) x' = view x -> oplogs o' = oplogs o ->
  endpoint_post k Q None o x res o' x'.
Proof. done. Qed.
Lemma oplogs_code code o : oplogs (with_code code o) = oplogs o.
Proof. unfold with_code. by destruct (genericError o). Qed.

(** The command of a request is read, then the call is made. *)
Lemma spec_command {T} `{!Command T} k ep (zero : T) (call : T -> pool_call) Q (K : option error * option T -> M (St P X) (option (option error))) o x :
  (forall cmd, read_command ep zero x = Some cmd -> spec (K (None, Some cmd)) (endpoint_post k Q (Some (call cmd)) o x) o x) ->
  (forall err cmd o', spec (K (Some err, cmd)) (fun res o1 x1 => res = Some (Some err) /\ o1 = o' /\ x1 = x) o' x) ->
  spec (let* r := ParseValidate text ep (Some zero) in K r) (endpoint_post k Q (call <$> read_command ep zero x) o x) o x.
Proof.
  intros Hy Hn. apply spec_bind, spec_ParseValidate.
  - intros cmd E. rewrite E. by apply Hy.
  - intros err cmd o' E Eo _. rewrite E. eapply spec_mono, Hn. intros res o1 x1 (-> & -> & ->).
    apply post_refused; [left; by eexists|done|done].
Qed.

(** The fields of an update. *)
Lemma spec_refuse_fields k Q c vErr o x o0 : oplogs o = oplogs o0 ->
  spec (refuse_fields c vErr) (endpoint_post k Q None o0 x) o x.
Proof.
  intros Eo. unfold refuse_fields, failed. spec_go. apply spec_SetGenericError. spec_go.
  apply post_refused; [|done|by destruct (genericError o)].
  destruct (ve_Err vErr); [left; by eexists|right]. split; [done|]. by destruct (genericError o) eqn:E; cbn; rewrite ?E.
Qed.

(** *** The endpoints in groups *)

(** A call that returns an error only. *)
Lemma spec_plain k (m : M (St P PoolWorld) (option error)) c name msg Q o x :
  perform c = (let* r := m in ret (r, RNothing)) -> spec (perform c) Q o (view x) ->
  spec (let* err := Pools m in match err with Some _ => fail name msg err | None => done_ end) (endpoint_post k Q (Some c) o x) o x.
Proof.
  intros E Hc. eapply spec_call; [exact E|exact Hc|]. intros [e|] o1 w HQ; cbn beta in HQ.
  - apply spec_fail. by eapply post_error.
  - by apply spec_ret, post_nothing.
Qed.
(** A call that returns a value, with its message, and what is done without one. *)
Lemma spec_value {A} k ep (m : M (St P PoolWorld) (option A * option error)) c (R : option A -> returned) (msg : A -> Msg) name text_ nil Q o x :
  perform c = (let* r := m in ret (r.2, R r.1)) -> spec (perform c) Q o (view x) ->
  (forall a, message_of (R (Some a)) = Some (fun _ : item_links => msg a) /\ R (Some a) <> RNothing) ->
  (R None = RPool None \/ R None = RService None) ->
  (forall o1 x1, spec nil (fun res o2 x2 => res = nil_result k /\ oplogs o2 = oplogs o1 /\ x2 = x1) o1 x1) ->
  spec (let* '(v, err) := Pools m in
        match err, v with
        | Some _, _ => fail name text_ err
        | None, None => nil
        | None, Some v => SetMessage_ server ep (msg v) ;; done_
        end) (endpoint_post k Q (Some c) o x) o x.
Proof.
  intros E Hc Hm Hn Hnil. eapply spec_call; [exact E|exact Hc|]. intros [v [e|]] o1 w HQ; cbn [fst snd] in HQ.
  - apply spec_fail. by eapply post_error.
  - destruct v as [v|].
    + destruct (Hm v) as [Em Hne]. apply (spec_says ep (fun _ => msg v) None); [done|]. intros x' Ev Hs.
      by eapply (post_says k Q c o x (R (Some v)) _ o1 w).
    + eapply spec_mono; [|apply Hnil]. intros res o2 x2 (-> & Eo & ->). by eapply post_nil.
Qed.
(** A list with links, and without. *)
Lemma spec_list {A} k ep (m : M (St P PoolWorld) (list A * Z * option error)) c (R : list A -> Z -> returned)
    (msg : list A -> Z -> item_links -> Msg) (id : A -> string) name Q o x :
  perform c = (let* r := m in ret (r.2, R r.1.1 r.1.2)) -> spec (perform c) Q o (view x) ->
  (forall l n, message_of (R l n) = Some (msg l n) /\ R l n <> RNothing) ->
  spec (let* '(items, count, err) := Pools m in
        match err with
        | Some _ => SetError name err ;; failed err
        | None => SetResponseList server ep (map id items) (msg items count) [] ;; done_
        end) (endpoint_post k Q (Some c) o x) o x.
Proof.
  intros E Hc Hm. eapply spec_call; [exact E|exact Hc|]. intros [[l n] [e|]] o1 w HQ; cbn [fst snd] in HQ.
  - unfold failed. spec_go. by eapply post_error.
  - destruct (Hm l n) as [Em Hne]. apply spec_says_list. intros x' Ev Hs. by eapply (post_says k Q c o x (R l n) _ o1 w).
Qed.
Lemma spec_bindings k ep (m : M (St P PoolWorld) (list PoolServiceBinding * option error)) c name text_ Q o x :
  perform c = (let* r := m in ret (r.2, RBindings r.1)) -> spec (perform c) Q o (view x) ->
  spec (let* '(items, err) := Pools m in
        match err with
        | Some _ => fail name text_ err
        | None => SetMessage_ server ep (ListServicePoolsResponse items) ;; done_
        end) (endpoint_post k Q (Some c) o x) o x.
Proof.
  intros E Hc. eapply spec_call; [exact E|exact Hc|]. intros [l [e|]] o1 w HQ; cbn [fst snd] in HQ.
  - apply spec_fail. by eapply post_error.
  - apply (spec_says ep (fun _ => ListServicePoolsResponse l) None); [done|]. intros x' Ev Hs.
    by eapply (post_says k Q c o x (RBindings l) _ o1 w).
Qed.

(** An update: the command is read, its fields pass, then the call is made. *)
Lemma spec_update {T} `{!StructValidator T, !MapDecoder T} k ep (sample : T) (call : Fields -> pool_call) name (K : Fields -> M (St P X) (option (option error))) Q o x :
  (forall fields, read_fields ep sample x = Some fields -> spec (K fields) (endpoint_post k Q (Some (call fields)) o x) o x) ->
  spec (let* '(err, cmd) := ParseValidate text ep (Some zero_fields) in
        match err with
        | Some _ => fail name "failed to parse/validate command" err
        | None =>
            let fields := cmd_Fields (default zero_fields cmd) in
            match ValidateMap fields sample [] with Some vErr => refuse_fields name vErr | None => K fields end
        end) (endpoint_post k Q (call <$> read_fields ep sample x) o x) o x.
Proof.
  intros HK. unfold read_fields in *. apply spec_bind, spec_ParseValidate.
  - intros cmd E. rewrite E in *. cbn [from_option id]. cbn zeta.
    destruct (ValidateMap _ _ _) as [vErr|]; [by apply spec_refuse_fields|]. by apply HK.
  - intros err cmd o' E Eo _. rewrite E. apply spec_fail, post_refused; [left; by eexists|done|done].
Qed.

Lemma run_pools k ep o x Q : (forall c, asks k ep x = Some c -> spec (perform c) Q o (view x)) ->
  k ∈ [KAddPool; KFindPool; KUpdatePool; KDeletePool; KListPools] ->
  spec (handle k ep) (endpoint_post k Q (asks k ep x) o x) o x.
Proof.
  intros H Hk. assert (Hnil : forall o1 x1, spec (ret None) (fun (res : option (option error)) o2 x2 => res = None /\ oplogs o2 = oplogs o1 /\ x2 = x1) o1 x1)
    by (intros; by apply spec_ret).
  repeat (apply elem_of_cons in Hk as [->|Hk]); [..|by apply not_elem_of_nil in Hk]; cbn [handle asks] in *.
  - unfold AddPool. apply spec_traced. intros c. apply spec_command.
    + intros cmd E. rewrite E in H. by eapply spec_value; [reflexivity|apply H|by intros|left|exact Hnil].
    + intros err cmd o'. unfold failed. by spec_go.
  - unfold FindPool. apply spec_traced. intros c. apply spec_bind, spec_resource_id.
    by eapply spec_value; [reflexivity|apply H|by intros|left|exact Hnil].
  - unfold UpdatePool. apply spec_traced. intros c. 
    refine (spec_update KUpdatePool ep zero_pool_data (CUpdatePool (path_id "pool" x)) c (fun fields =>
      let* id := resource_id "pool" in
      let* '(p, err) := Pools (PoolController.UpdatePool id fields []) in
      match err, p with
      | Some _, _ => fail c "failed to update pool" err
      | None, None => SetGenericErrorCode ErrorCodePoolNotFound [] ;; let* err := SetError c (Some (Native "pool not found")) in failed err
      | None, Some p => SetMessage_ server ep (PoolResponse p) ;; done_
      end) Q o x _). intros fields E. rewrite E in H.
    apply spec_bind, spec_resource_id. eapply spec_value; [reflexivity|by apply H|by intros|by left|].
    intros o1 x1. unfold failed. spec_go. by rewrite oplogs_code.
  - unfold DeletePool. apply spec_traced. intros c. apply spec_bind, spec_resource_id.
    by eapply spec_plain; [reflexivity|apply H].
  - unfold ListPools. apply spec_traced. intros c. apply spec_bind, spec_queryName, spec_bind, spec_ParseDbQuery.
    + intros f m E. rewrite E in *. rewrite <- (view_put_l (A := PoolWorld) m x) in H.
      apply (spec_list KListPools ep _ (CGetPools f) RPools ListPoolsResponse Db.GetID c Q o (put m x)); [done|by apply H|done].
    + intros f err o' m E Eo. rewrite E. unfold failed. spec_go. apply post_refused; [left; by eexists|apply view_put_l|done].
Qed.
Lemma run_services k ep o x Q : (forall c, asks k ep x = Some c -> spec (perform c) Q o (view x)) ->
  k ∈ [KAddService; KFindService; KUpdateService; KDeleteService; KListServices] ->
  spec (handle k ep) (endpoint_post k Q (asks k ep x) o x) o x.
Proof.
  intros H Hk. assert (Hnil : forall o1 x1, spec (ret None) (fun (res : option (option error)) o2 x2 => res = None /\ oplogs o2 = oplogs o1 /\ x2 = x1) o1 x1)
    by (intros; by apply spec_ret).
  repeat (apply elem_of_cons in Hk as [->|Hk]); [..|by apply not_elem_of_nil in Hk]; cbn [handle asks] in *.
  - unfold AddService. apply spec_traced. intros c. apply spec_command.
    + intros cmd E. rewrite E in H. by eapply spec_value; [reflexivity|apply H|by intros|right|exact Hnil].
    + intros err cmd o'. unfold failed. by spec_go.
  - unfold FindService. apply spec_traced. intros c. apply spec_bind, spec_resource_id.
    eapply spec_value; [reflexivity|by apply H|by intros|by right|].
    intros o1 x1. unfold failed. spec_go. by rewrite oplogs_code.
  - unfold UpdateService. apply spec_traced. intros c.
    refine (spec_update KUpdateService ep zero_essentials (CUpdateService (path_id "service" x)) c (fun fields =>
      let* id := resource_id "service" in
      let* '(s, err) := Pools (PoolController.UpdateService id fields []) in
      match err, s with
      | Some _, _ => fail c "failed to update service" err
      | None, None => ret None
      | None, Some s => SetMessage_ server ep (ServiceResponse s) ;; done_
      end) Q o x _). intros fields E. rewrite E in H.
    apply spec_bind, spec_resource_id. by eapply spec_value; [reflexivity|apply H|by intros|right|exact Hnil].
  - unfold DeleteService. apply spec_traced. intros c. apply spec_bind, spec_resource_id.
    by eapply spec_plain; [reflexivity|apply H].
  - unfold ListServices. apply spec_traced. intros c. apply spec_bind, spec_queryName, spec_bind, spec_ParseDbQuery.
    + intros f m E. rewrite E in *. rewrite <- (view_put_l (A := PoolWorld) m x) in H.
      apply (spec_list KListServices ep _ (CGetServices f) RServices ListServicesResponse Db.GetID c Q o (put m x)); [done|by apply H|done].
    + intros f err o' m E Eo. rewrite E. unfold failed. spec_go. apply post_refused; [left; by eexists|apply view_put_l|done].
Qed.

Lemma run_associations k ep o x Q : (forall c, asks k ep x = Some c -> spec (perform c) Q o (view x)) ->
  k ∈ [KAddServiceToPool; KRemoveServiceFromPool; KRemoveAllServicesFromPool; KRemoveServiceFromAllPools; KListPoolServices; KListServicePools] ->
  spec (handle k ep) (endpoint_post k Q (asks k ep x) o x) o x.
Proof.
  intros H Hk.
  repeat (apply elem_of_cons in Hk as [->|Hk]); [..|by apply not_elem_of_nil in Hk]; cbn [handle asks] in *;
    [unfold AddServiceToPool|unfold RemoveServiceFromPool|unfold RemoveAllServicesFromPool|unfold RemoveServiceFromAllPools
    |unfold ListPoolServices|unfold ListServicePools]; apply spec_traced; intros c;
    [apply (spec_command KAddServiceToPool ep _ (fun cmd => CAddServiceToPool (path_id "pool" x) (cmd_SERVICE_ID cmd) (cmd_ROLE cmd)))
    |apply spec_bind, spec_resource_id..].
  - intros cmd E. rewrite E in H. apply spec_bind, spec_resource_id. by eapply spec_plain; [reflexivity|apply H].
  - intros err cmd o'. unfold failed. by spec_go.
  - apply spec_bind, spec_resource_id. by eapply spec_plain; [reflexivity|apply H].
  - by eapply spec_plain; [reflexivity|apply H].
  - by eapply spec_plain; [reflexivity|apply H].
  - by eapply spec_bindings; [reflexivity|apply H].
  - by eapply spec_bindings; [reflexivity|apply H].
Qed.

(** What the call of a request leaves behind, its endpoint does. *)
Lemma endpoint_spec k ep o x Q :
  (forall c, asks k ep x = Some c -> spec (perform c) Q o (view x)) ->
  spec (handle k ep) (endpoint_post k Q (asks k ep x) o x) o x.
Proof.
  intros H. assert (Hk : k ∈ [KAddPool; KFindPool; KUpdatePool; KDeletePool; KListPools] \/
    k ∈ [KAddService; KFindService; KUpdateService; KDeleteService; KListServices] \/
    k ∈ [KAddServiceToPool; KRemoveServiceFromPool; KRemoveAllServicesFromPool; KRemoveServiceFromAllPools; KListPoolServices; KListServicePools]).
  { clear. rewrite !elem_of_cons. destruct k; tauto. }
  destruct Hk as [Hk|[Hk|Hk]]; [by apply run_pools|by apply run_services|by apply run_associations].
Qed.

(** The call a request asks for, run in the state of the request. *)
Lemma endpoint_performs k ep (st : St P X) c :
  asks k ep (st_ext st) = Some c ->
  exists t, let called := perform c (Build_St t (st_op st) (view (st_ext st))) in
    let r := handle k ep st in
    view (st_ext r.2) = st_ext called.2 /\ oplogs (st_op r.2) = oplogs (st_op called.2) /\ answered k called.1 r.1 (st_ext r.2).
Proof.
  destruct st as [t o x]. cbn [st_ext st_op]. intros E.
  set (Q := fun r o1 w => exists t t', perform c (Build_St t o (view x)) = (r, Build_St t' o1 w)).
  assert (HS : spec (handle k ep) (endpoint_post k Q (asks k ep x) o x) o x).
  { apply endpoint_spec. intros c' E'. assert (c' = c) as -> by congruence. intros t0. exists t0.
    destruct (perform c _) as [r [t' o' w']]. by exists t'. }
  specialize (HS t). rewrite E in HS. destruct HS as (r & o1 & (t1 & t' & Ep1) & Eo & Ha). exists t1. cbv zeta. rewrite Ep1. by split_and!.
Qed.

(** [C10] The service of pools implements its controller.  A request of any of the sixteen
    endpoints that is not valid - its command is not read, the validator or the parser of
    filters refuses it - is answered with an error and touches no pool, service or association,
    and logs nothing; any other request does to the database exactly what the call it asks for
    does, logs the operations the call logs, reports the error the call returns, and otherwise
    answers with what the call returned. *)
Theorem endpoint_runs_call k ep (st : St P X) :
  let r := handle k ep st in
  let x := st_ext st in
  match asks k ep x with
  | None =>
      ((exists e, r.1 = Some (Some e)) \/ r.1 = Some None /\ genericError (st_op r.2) <> None) /\
      view (A := PoolWorld) (st_ext r.2) = view x /\ oplogs (st_op r.2) = oplogs (st_op st)
  | Some c => exists t, let called := perform c (Build_St t (st_op st) (view x)) in
      view (st_ext r.2) = st_ext called.2 /\ oplogs (st_op r.2) = oplogs (st_op called.2) /\
      answered k called.1 r.1 (st_ext r.2)
  end.
Proof.
  cbv zeta. destruct (asks k ep (st_ext st)) as [c|] eqn:E; [by apply endpoint_performs|].
  destruct st as [t o x]. cbn [st_ext st_op] in *.
  assert (HS : spec (handle k ep) (endpoint_post k (fun _ _ _ => True) (asks k ep x) o x) o x) by (apply endpoint_spec; intros c; congruence).
  specialize (HS t). by rewrite E in HS.
Qed.
End Refinement.
