(* ===== verification/PoolServer.v ===== *)
(** * The service of pools on its server: integrity of the tables

    Requests come over HTTP to a server that has the endpoints of the pool service and others.
    Whatever the requests, in whatever order, and whatever of them is refused or fails, the
    tables of pools, services and associations keep their integrity. *)
From S2P Require Import Prelude GoTime Utils Common Errors OpContext Db Crud Crypt Http PoolData Pool PoolInv Access Auth FilterParser TenancyData Tenancy ApiResource ApiReach Server ServerRequest ServerBuild ApiRequest PoolService PoolApi.
From stdpp Require Import relations.
Open Scope go_scope.

Section Integrity.
Context {X Msg : Type} `{HL : !WithHateoasLinks Msg, PM : !PoolMessages Msg}.
Context `{Lc : !Lens X AuthContext, Lh : !Lens X (Http Msg), La : !Lens X Api, Lp : !Lens X PoolWorld, Lf : !Lens X FilterManager}.
Context `{Ll : !Lens X Loaded, Le : !Lens X Env}.
Context `{Dph : !Disjoint_lens X PoolWorld (Http Msg), Dpa : !Disjoint_lens X PoolWorld Api}.
Context `{Dpf : !Disjoint_lens X PoolWorld FilterManager, Dpc : !Disjoint_lens X PoolWorld AuthContext}.
Context `{Dhe : !Disjoint_lens X (Http Msg) Env, Dhc : !Disjoint_lens X (Http Msg) AuthContext, Dlc : !Disjoint_lens X Loaded AuthContext}.
Local Abbreviation P := OpLogPool.
Local Abbreviation act := (M (St P X)).
(** The clock and the identifiers are not rows. *)
Hypothesis env_rows : forall (e : Env) (x : X), same_rows (view x) (view (put e x)).

Definition tables_ok (x : X) : Prop := integrity (view x).
Definition keeps {A} (m : act A) : Prop := forall st, tables_ok (st_ext st) -> tables_ok (st_ext (m st).2).

Lemma keeps_bind {A B} (m : act A) (k : A -> act B) : keeps m -> (forall a, keeps (k a)) -> keeps (bind m k).
Proof. intros Hm Hk st Hi. apply Hk, Hm, Hi. Qed.
Lemma keeps_ret {A} (a : A) : keeps (ret a).
Proof. by intros st Hi. Qed.
Lemma keeps_on_op {A} (m : M (Op P) A) : keeps (on_op m).
Proof. by intros st Hi. Qed.
Lemma keeps_on_trace {A} (m : M Trace A) : keeps (on_trace m).
Proof. by intros st Hi. Qed.
Lemma keeps_on {Y} `{HLy : !Lens X Y, HD : !Disjoint_lens X PoolWorld Y} {A} (m : M Y A) : keeps (on m).
Proof. intros st Hi. unfold tables_ok, on, on_ext, zoom. cbn. by rewrite view_put_l. Qed.
Lemma keeps_gets {Y} `{HLy : !Lens X Y} {A} (f : Y -> A) : keeps (on (gets f)).
Proof. intros st Hi. unfold tables_ok, on, on_ext, zoom. cbn. by rewrite put_view. Qed.
Lemma keeps_env {A} (m : M Env A) : keeps (on m).
Proof. intros st Hi. unfold tables_ok, on, on_ext, zoom. cbn. eapply integrity_same; [apply env_rows|done]. Qed.
Hint Resolve keeps_ret keeps_on_op keeps_on_trace keeps_on keeps_gets keeps_env : go.

Ltac keep := repeat first [progress auto with go | apply keeps_bind; [|intros ?]].

Lemma keeps_SetGenericErrorCode code ov : keeps (SetGenericErrorCode code ov).
Proof. unfold SetGenericErrorCode, MakeGenericError, SetGenericError. keep. Qed.
Hint Resolve keeps_SetGenericErrorCode : go.

(** ** The server around a handler *)

Variable WriteOplog : Oplog P -> act (option error).
Hypothesis oplog_keeps : forall l, keeps (WriteOplog l).
Variable server : Server P X.
Hypothesis csrf_keeps : forall h, csrf server = Some h -> keeps (Handle h).
Hypothesis auth_keeps : forall path access, keeps (AuthRequest server path access).
Hypothesis Hok : server_ok (Msg := Msg) server.
Implicit Types ep : Endpoint P X.

Lemma keeps_SetError c e : keeps (SetError c e). Proof. apply keeps_on_trace. Qed.
Lemma keeps_SetMessage c e : keeps (SetMessage c e). Proof. apply keeps_on_trace. Qed.
Lemma keeps_TraceOut : keeps TraceOutMethod. Proof. apply keeps_on_trace. Qed.
Lemma keeps_SetTenancy t : keeps (SetTenancy t). Proof. apply keeps_on. Qed.
Lemma keeps_reply r : keeps (reply (Msg := Msg) r). Proof. apply keeps_on. Qed.
Lemma keeps_ClearError : keeps ClearError. Proof. unfold ClearError. keep. Qed.
Hint Resolve keeps_SetError keeps_SetMessage keeps_TraceOut keeps_SetTenancy keeps_reply keeps_ClearError : go.

Lemma keeps_find_tenancy ep c : keeps (find_tenancy (Msg := Msg) server ep c).
Proof.
  unfold find_tenancy, api. keep. destruct (isMultiTenancy server && _); keep.
  destruct (TenancyManager.TenancyByPath _ _) as [t|e]; keep.
  destruct (if ALLOW_NOT_ACTIVE_TENANCY (config server) then _ else _) as [[]|]; keep. destruct (AUTH_FROM_TENANCY_DB _); keep.
Qed.
Lemma keeps_SetOrigin : keeps (SetOrigin server). Proof. unfold SetOrigin. keep. Qed.
Hint Resolve keeps_find_tenancy keeps_SetOrigin : go.
Lemma keeps_process_csrf : keeps (process_csrf server).
Proof. unfold process_csrf. destruct (csrf server) as [h|] eqn:E; keep. destruct a; keep. Qed.
Lemma keeps_process_auth ep : keeps (process_auth server ep).
Proof. unfold process_auth, api. keep. destruct a0; keep. Qed.
Hint Resolve keeps_process_csrf keeps_process_auth : go.
Lemma keeps_unless err (m : act (option error)) : keeps m -> keeps (unless err m).
Proof. intros Hm. destruct err; cbn [unless]; keep. Qed.
Hint Resolve keeps_unless : go.
Lemma keeps_admission ep c : keeps (admission (Msg := Msg) server ep c).
Proof.
  unfold admission. keep. destruct a as [[t err]|]; keep. destruct t; keep. destruct (AUTH_FROM_TENANCY_DB _); keep.
Qed.
Lemma keeps_Close msg : keeps (Close WriteOplog msg).
Proof.
  unfold Close. apply keeps_bind; [keep|intros o]. apply keeps_bind.
  - induction (oplogs o) as [|l r IH]; [keep|]. apply keeps_bind; [keep|intros base]. apply keeps_bind; [apply oplog_keeps|by intros].
  - intros _. unfold DumpLog. keep. destruct (errorStack a); [destruct (foldl _ _ _)|destruct (_ && _)]; keep.
Qed.
Hint Resolve keeps_admission keeps_Close : go.
Lemma keeps_CloseRequest : keeps (CloseRequest (Msg := Msg) WriteOplog server).
Proof.
  unfold CloseRequest, GenericError, SetErrorAsWarn. keep. destruct a as [g|]; keep.
  all: by case_match; keep.
Qed.
Hint Resolve keeps_CloseRequest : go.

(** A request keeps the tables if its handler does in the states it is run in. *)
Lemma requestHandler_keeps ep st :
  (forall st2, admitted (Msg := Msg) server ep st st2 -> tables_ok (st_ext st2) -> tables_ok (st_ext (HandleRequest ep st2).2)) ->
  tables_ok (st_ext st) -> tables_ok (st_ext (requestHandler (Msg := Msg) WriteOplog server ep st).2).
Proof.
  intros Hh Hi. rewrite requestHandler_run. cbv zeta. set (c := (TraceInMethod _ st).1). set (st0 := (TraceInMethod _ st).2).
  pose proof (wp_admit server ep c st0 Hok) as [_ Ha]. pose proof (keeps_admission ep c st0 Hi) as Hk.
  destruct (admission server ep c st0) as [[[e|]|] st2]; cbn [fst snd after_admit] in *.
  - match goal with |- tables_ok (st_ext (?m st2).2) => assert (Hm : keeps m) end; [|by apply Hm].
    keep. destruct a as [[]|]; keep.
  - assert (Ha' : admitted (Msg := Msg) server ep st st2) by (destruct st, Ha; by split).
    specialize (Hh st2 Ha' Hk). unfold call_endpoint, bind in *. destruct (HandleRequest ep st2) as [res st3]. cbn [fst snd] in *.
    revert Hh. generalize st3. change (keeps (let* res := match res with
      | Some (Some _) => SetGenericErrorCode ErrorCodeInternalServerError [] ;; ret res | _ => ret res end in
      match res with
      | None => reply (Status StatusInternalServerError)
      | Some err => (match err with Some _ => SetError c err ;; ret tt | None => ret tt end) ;; TraceOutMethod ;; CloseRequest WriteOplog server
      end)).
    keep; [destruct res as [[]|]; keep|]. destruct a as [[]|]; keep.
  - match goal with |- tables_ok (st_ext (?m st2).2) => assert (Hm : keeps m) end; [|by apply Hm]. keep.
Qed.
End Integrity.

(** ** Reachable states of the server *)

Section Reachable.
Context {X Msg : Type} `{HL : !WithHateoasLinks Msg, PM : !PoolMessages Msg}.
Context `{Lc : !Lens X AuthContext, Lh : !Lens X (Http Msg), La : !Lens X Api, Lp : !Lens X PoolWorld, Lf : !Lens X FilterManager}.
Context `{Ll : !Lens X Loaded, Le : !Lens X Env}.
Context `{Dph : !Disjoint_lens X PoolWorld (Http Msg), Dpa : !Disjoint_lens X PoolWorld Api}.
Context `{Dpf : !Disjoint_lens X PoolWorld FilterManager, Dpc : !Disjoint_lens X PoolWorld AuthContext}.
Context `{Dhe : !Disjoint_lens X (Http Msg) Env, Dhc : !Disjoint_lens X (Http Msg) AuthContext, Dlc : !Disjoint_lens X Loaded AuthContext}.
Context `{Ep : !Engine PoolBase, Es : !Engine PoolServiceBase, Ea : !Engine PoolServiceAssociationBase, JE : !JoinEngine}.
Context `{Epo : !EngineOk PoolBase, Eso : !EngineOk PoolServiceBase, Eao : !EngineOk PoolServiceAssociationBase}.
Context `{Mr : !MapRange, Vv : !ValueValidator, Cq : !Command DbQuery, Cu : !Command UpdateCmd}.
Context `{Cp : !Command PoolBase, Cs : !Command PoolServiceBase, Ca : !Command PoolServiceAssociationCmd}.
Context `{Vp : !StructValidator PoolBaseData, Dp : !MapDecoder PoolBaseData}.
Context `{Vs : !StructValidator PoolServiceBaseEssentials, Ds : !MapDecoder PoolServiceBaseEssentials}.
Local Abbreviation P := OpLogPool.
Variable text : error -> string.
Variable ParseFloat : string -> option Z.
Variable Unmarshal : string -> Query + error.
Variable pool_model service_model : schema_Schema + error.
Variable server : Server P X.
Variable WriteOplog : Oplog P -> M (St P X) (option error).
Local Abbreviation pool_endpoint := (endpoint text ParseFloat Unmarshal pool_model service_model server).
Local Abbreviation asked := (asks ParseFloat Unmarshal pool_model service_model).

(** The fields of the structs an update is read into, by their names in JSON. *)
Definition PoolBaseData_json : list string := ["name"; "long_name"; "description"; "active"].
Definition PoolServiceBaseEssentials_json : list string :=
  ["long_name"; "description"; "active"; "type_name"; "refid"; "provider"; "public_host"; "public_port"; "public_url";
   "private_host"; "private_port"; "private_url"; "user"; "db_name"; "parameter1"; "parameter2"; "parameter3";
   "parameter1_name"; "parameter2_name"; "parameter3_name"; "secret1"; "secret2"; "name"].
Context `{Dpo : !MapDecoderOk PoolBaseData PoolBaseData_json}.
Context `{Dso : !MapDecoderOk PoolServiceBaseEssentials PoolServiceBaseEssentials_json}.

(** The endpoint has the fields of an update validated, so the identifier is left alone. *)
Lemma read_fields_leaves_id {T} `{!StructValidator T, !MapDecoder T} names `{!MapDecoderOk T names} ep (sample : T) (x : X) fields :
  "id" ∉ names -> read_fields ep sample x = Some fields -> leaves_id fields.
Proof.
  unfold read_fields. intros Hn. destruct (read_command _ _ _) as [cmd|]; [|done]. destruct (ValidateMap _ _ _) eqn:E; [done|].
  intros [= <-]. by eapply ValidateMap_leaves_id.
Qed.
Lemma asks_admissible k ep (x : X) c : asked k ep x = Some c -> admissible_call c.
Proof.
  destruct k; cbn [asks].
  all: try (by intros [= <-]).
  all: try (destruct (read_command _ _ _); [by intros [= <-]|done]).
  all: try (destruct (read_filter _ _ _ _ _ _); [by intros [= <-]|done]).
  all: destruct (read_fields _ _ _) as [fields|] eqn:E; [|done]; intros [= <-]; cbn [admissible_call];
    refine (read_fields_leaves_id _ ep _ x fields _ E); by apply (bool_decide_unpack _).
Qed.

Lemma handle_keeps k ep (st : St P X) :
  tables_ok (st_ext st) -> tables_ok (st_ext (handle text ParseFloat Unmarshal pool_model service_model server k ep st).2).
Proof.
  intros Hi. destruct st as [t o x]. cbn [st_ext] in *.
  assert (HS : spec (handle text ParseFloat Unmarshal pool_model service_model server k ep) (fun _ _ x' => tables_ok x') o x); [|exact (HS t)].
  eapply spec_mono, (endpoint_spec text ParseFloat Unmarshal pool_model service_model server k ep o x (fun _ _ w => integrity w)).
  - intros res o' x'. unfold endpoint_post. destruct (asked k ep x) as [c|].
    + intros (r & o1 & H & _). exact H.
    + intros (_ & E & _). unfold tables_ok. by rewrite E.
  - intros c E. apply perform_integrity; [by eapply asks_admissible|exact Hi].
Qed.

(** A request to an endpoint of the service of pools, with any path, query, headers and body, or to
    another endpoint of the server, that leaves the tables alone. *)
Inductive api_step : X -> X -> Prop :=
| step_pools k op r x :
    api_step x (serve (Msg := Msg) WriteOplog server (pool_endpoint k op) r x).2
| step_other ep r x :
    keeps (HandleRequest ep) -> api_step x (serve (Msg := Msg) WriteOplog server ep r x).2.

(** What the parts of the server promise about the tables. *)
Record keeps_tables : Prop := {
  kt_env (e : Env) (x : X) : same_rows (view x) (view (put e x));
  kt_oplog l : keeps (WriteOplog l);
  kt_csrf h : csrf server = Some h -> keeps (Handle h);
  kt_auth path access : keeps (AuthRequest server path access)
}.

Lemma Init_request_tables ep r x : keeps_tables -> tables_ok x -> tables_ok (st_ext (Init_request (Msg := Msg) server ep r x)).
Proof.
  intros Hk Hi. unfold Init_request. destruct (zoom GenerateID x) as [id x1] eqn:E.
  cbn [st_ext]. unfold tables_ok. rewrite !view_put_l. unfold zoom in E. injection E as _ <-.
  eapply integrity_same; [apply (kt_env Hk)|exact Hi].
Qed.

(** [C11] The tables of a server.  After any sequence of HTTP requests - to the endpoints of
    pools, with whatever path, query and body, refused, failed or served, and to endpoints that
    leave the tables alone - names of pools and of services are unique, a pool has one service
    per role, and every association is between a pool and a service that exist.  That no update
    touches an identifier follows from the validation of its fields against the struct they are
    decoded into.  Columns hold values of their types: a database that stores NULL for the name of
    an update is not described. *)
Theorem served_integrity x x' : keeps_tables -> server_ok (Msg := Msg) server ->
  rtc api_step x x' -> integrity (view x) -> integrity (view x').
Proof.
  intros Hk Hok. induction 1 as [|x x1 x' Hstep _ IH]; [done|]. intros Hi. apply IH. clear IH x'.
  destruct Hstep as [k op r x|ep r x Hep]; cbn [serve snd].
  - apply (requestHandler_keeps (kt_env Hk) WriteOplog (kt_oplog Hk) server (kt_csrf Hk) (kt_auth Hk) Hok); [|by apply Init_request_tables].
    intros st2 _ Ht. by apply handle_keeps.
  - apply (requestHandler_keeps (kt_env Hk) WriteOplog (kt_oplog Hk) server (kt_csrf Hk) (kt_auth Hk) Hok); [|by apply Init_request_tables].
    intros st2 _ Ht. by apply Hep.
Qed.
End Reachable.
