(* ===== verification/PoolServerDemo.v ===== *)
(** * A concrete server of pools: the theorems on its service applied

    One server without tenancies, with the service of pools on a database in memory.  Bodies of
    commands are short texts; the command of an update gives a description. *)
From Stdlib Require Import Ascii.
From S2P Require Import Prelude GoTime Utils Common Errors OpContext Db Crud Crypt Http PoolData Pool PoolInv Access Auth FilterParser TenancyData Tenancy ApiResource ApiReach Server ServerRequest ServerBuild ApiRequest PoolService PoolApi PoolServer.
From stdpp Require Import relations.
Open Scope go_scope.

Module PoolServerDemo.

(** ** The state of the server; the clock is that of the database *)

Record World := {
  d_pools : PoolWorld; d_ctx : AuthContext; d_http : Http string; d_api : Api; d_loaded : Loaded; d_filters : FilterManager
}.
#[export] Instance d_pools_lens : Lens World PoolWorld.
Proof. by refine {| view := d_pools; put a w := {| d_pools := a; d_ctx := d_ctx w; d_http := d_http w; d_api := d_api w; d_loaded := d_loaded w; d_filters := d_filters w |} |}; try intros []. Defined.
#[export] Instance d_ctx_lens : Lens World AuthContext.
Proof. by refine {| view := d_ctx; put a w := {| d_pools := d_pools w; d_ctx := a; d_http := d_http w; d_api := d_api w; d_loaded := d_loaded w; d_filters := d_filters w |} |}; try intros []. Defined.
#[export] Instance d_http_lens : Lens World (Http string).
Proof. by refine {| view := d_http; put a w := {| d_pools := d_pools w; d_ctx := d_ctx w; d_http := a; d_api := d_api w; d_loaded := d_loaded w; d_filters := d_filters w |} |}; try intros []. Defined.
#[export] Instance d_api_lens : Lens World Api.
Proof. by refine {| view := d_api; put a w := {| d_pools := d_pools w; d_ctx := d_ctx w; d_http := d_http w; d_api := a; d_loaded := d_loaded w; d_filters := d_filters w |} |}; try intros []. Defined.
#[export] Instance d_loaded_lens : Lens World Loaded.
Proof. by refine {| view := d_loaded; put a w := {| d_pools := d_pools w; d_ctx := d_ctx w; d_http := d_http w; d_api := d_api w; d_loaded := a; d_filters := d_filters w |} |}; try intros []. Defined.
#[export] Instance d_filters_lens : Lens World FilterManager.
Proof. by refine {| view := d_filters; put a w := {| d_pools := d_pools w; d_ctx := d_ctx w; d_http := d_http w; d_api := d_api w; d_loaded := d_loaded w; d_filters := a |} |}; try intros []. Defined.
#[export] Instance d_env_lens : Lens World Env.
Proof.
  by refine {| view w := pw_env (d_pools w);
    put e w := {| d_pools := put e (d_pools w); d_ctx := d_ctx w; d_http := d_http w; d_api := d_api w; d_loaded := d_loaded w; d_filters := d_filters w |} |}; try intros [[]].
Defined.
#[export] Instance pools_http : Disjoint_lens World PoolWorld (Http string). Proof. by split. Qed.
#[export] Instance pools_api : Disjoint_lens World PoolWorld Api. Proof. by split. Qed.
#[export] Instance pools_filters : Disjoint_lens World PoolWorld FilterManager. Proof. by split. Qed.
#[export] Instance pools_ctx : Disjoint_lens World PoolWorld AuthContext. Proof. by split. Qed.
#[export] Instance http_env : Disjoint_lens World (Http string) Env. Proof. by split. Qed.
#[export] Instance http_ctx : Disjoint_lens World (Http string) AuthContext. Proof. by split. Qed.
#[export] Instance loaded_ctx : Disjoint_lens World Loaded AuthContext. Proof. by split. Qed.

(** ** Messages and commands *)

#[export] Instance plain_messages : WithHateoasLinks string := {| SetHateoasLinks _ m := m |}.
#[export] Instance pool_messages : PoolMessages string := {|
  PoolResponse p := "pool " +:+ p_NAME p +:+ " " +:+ p_DESCRIPTION p;
  ServiceResponse s := "service " +:+ s_NAME s;
  ListPoolsResponse l _ _ := "pools " +:+ Common.Join (map p_NAME l) ",";
  ListServicesResponse l _ _ := "services " +:+ Common.Join (map s_NAME l) ",";
  ListServicePoolsResponse l := "bindings " +:+ Common.Join (map (fun b => pb_PoolName b +:+ "/" +:+ pb_ROLE b) l) ","
|}.
#[export] Instance demo_range : MapRange := {| range A m := map_to_list m; range_perm A m := reflexivity _ |}.
#[export] Instance demo_values : ValueValidator := {| ValidateValue_ _ _ := None |}.
(** A command of one text, which may have to be there; the name of its field is read ignoring case. *)
Definition text_command {T} (make : string -> T) (name : T -> string) (required : bool) : Command T := {|
  command_schema := {| schema_Encode x := inl {["query" := [name x]]};
    schema_Decode v old := (match List.find (fun kv => bool_decide (ToLower kv.1 = "query")) (map_to_list v) with
                            | Some (_, s :: _) => make s | _ => old end, None) |};
  command_format := {| SerializeMessage x := inl (name x); ParseMessage b _ := (make b, None); lossless x := make (name x) = x |};
  command_rules := {| Validate_ x := if required && bool_decide (name x = "")
      then Some (Validation {| ve_Message := "Name can not be empty"; ve_Field := "name"; ve_Err := None |}) else None;
    ValidatePartial _ _ := None |}
|}.
#[export] Instance text_command_ok {T} (make : string -> T) name required : SerializerOk T (H := command_format (Command := text_command make name required)).
Proof. split. intros x b y Hl Hs. cbn in *. injection Hs as <-. by rewrite Hl. Qed.
Definition named_pool (s : string) : PoolBase :=
  {| p_base := ObjectBase.zero; p_NAME := s; p_LONG_NAME := ""; p_DESCRIPTION := ""; p_ACTIVE := true |}.
#[export] Instance pool_command : Command PoolBase := text_command named_pool p_NAME true.
#[export] Instance service_command : Command PoolServiceBase :=
  text_command (fun s => {| s_base := ObjectBase.zero; s_NAME := s; s_data := zero_data |}) s_NAME true.
#[export] Instance query_command : Command DbQuery := text_command Build_DbQuery Query_ false.
#[export] Instance update_command : Command UpdateCmd :=
  text_command (fun s => {| cmd_Fields := {["description" := VStr s]} |})
    (fun u => match cmd_Fields u !! "description" with Some (VStr s) => s | _ => "" end) false.
#[export] Instance association_command : Command PoolServiceAssociationCmd :=
  text_command (fun s => let '(role, id) := Url.Cut ":"%char s in {| cmd_ROLE := role; cmd_SERVICE_ID := id |})
    (fun a => cmd_ROLE a +:+ ":" +:+ cmd_SERVICE_ID a) true.
Definition fields_of (keys : list string) (f : Fields) : bool := forallb (fun k => bool_decide (ToLower k ∈ keys)) (map_to_list f).*1.
Definition decode {T} (keys : list string) (f : Fields) (s : T) : T + error :=
  if fields_of keys f then inl s else inr (Native "unknown field").
Lemma decode_fields {T} keys (m : Fields) (s s' : T) k : decode keys m s = inl s' -> is_Some (m !! k) -> ToLower k ∈ keys.
Proof.
  unfold decode, fields_of. intros H [v E]. destruct (forallb _ _) eqn:Ef; [|done]. rewrite forallb_forall in Ef.
  apply (bool_decide_unpack _). rewrite (Ef k); [done|]. apply list_elem_of_In, list_elem_of_fmap. exists (k, v). split; [done|].
  by apply elem_of_map_to_list.
Qed.
#[export] Instance pool_rules : StructValidator PoolBaseData := {| Validate_ _ := None; ValidatePartial _ _ := None |}.
#[export] Instance pool_decoder : MapDecoder PoolBaseData := {| map_Decode := decode PoolBaseData_json |}.
#[export] Instance pool_decoder_ok : MapDecoderOk PoolBaseData PoolBaseData_json.
Proof. intros m s s' k He Hk _. exact (decode_fields _ m s s' k He Hk). Qed.
#[export] Instance service_rules : StructValidator PoolServiceBaseEssentials := {| Validate_ _ := None; ValidatePartial _ _ := None |}.
#[export] Instance service_decoder : MapDecoder PoolServiceBaseEssentials := {| map_Decode := decode PoolServiceBaseEssentials_json |}.
#[export] Instance service_decoder_ok : MapDecoderOk PoolServiceBaseEssentials PoolServiceBaseEssentials_json.
Proof. intros m s s' k He Hk _. exact (decode_fields _ m s s' k He Hk). Qed.
#[export] Existing Instances PoolInv.Demo.pools_db PoolInv.Demo.services_db PoolInv.Demo.associations_db PoolInv.Demo.pools_db_ok PoolInv.Demo.services_db_ok PoolInv.Demo.associations_db_ok.
#[export] Existing Instances mem_join mem_join_ok.

Definition text (e : error) : string := match e with Native s => s | _ => "" end.
Definition no_query (s : string) : Query + error := inr (Native "unexpected end of JSON input").
Definition no_model : schema_Schema + error := inr (Native "no model").

(** ** The server *)

Definition config : ServerConfig :=
  {| PATH_PREFIX := "/api"; API_VERSION := "1.0"; HATEOAS := false; OPLOG_USER_TYPE := "user";
     ALLOW_NOT_ACTIVE_TENANCY := false; AUTH_FROM_TENANCY_DB := false |}.
Definition application : AppContext := {| Application := "app"; AppInstance := "app1"; Hostname := "host"; Testing := false |}.
Definition init := ServerBuild.Init (P := OpLogPool) (X := World) config application (fun e => e)
  (fun _ _ => NoAuthMethod.HandleRequest) false None {| resources := []; operations_ := [] |}.
Definition built := NewPoolService text (fun _ => None) no_query no_model no_model init.1 (init.2, ∅).
Definition attached := AddServiceToServer built.2.2 (ps_service built.1) [] {| b_server := init.1; b_api := built.2.1 |}.
Definition server : Server OpLogPool World := b_server attached.2.
Definition api : Api := b_api attached.2.

Definition start : World :=
  {| d_pools := st_ext PoolInv.Demo.start;
     d_ctx := {| request_path := ""; request_method := ""; request_content := ""; client_ip := ""; user_agent := ""; precheck m := (m, None);
       request_headers := ∅; response_headers := ∅; session_ := ""; client_ := ""; authUser := None; Auth.tenancy := None |};
     d_http := {| params := []; raw_query := ""; response := new_response; replies := [] |};
     d_api := api; d_loaded := {| tenanciesById := ∅; tenanciesByPath := ∅ |}; d_filters := NewFilterManager ∅ |}.
Definition no_oplogs (l : Oplog OpLogPool) : M (St OpLogPool World) (option error) := ret None.

Definition request (method : string) (ids : list (string * string)) (body : string) : HttpRequest :=
  {| hr_method := method; hr_params := ids; hr_RawQuery := ""; hr_headers := ∅; hr_content := body;
     hr_client_ip := "10.0.0.1"; hr_user_agent := "curl" |}.
(** The endpoint of an operation, found in the routes. *)
Definition pool_endpoint := endpoint text (fun _ => None) no_query no_model no_model server.

(** The requests of a day: a pool, a service bound to it, a description, and requests that fail. *)
Definition first_pool (x : World) : string := match rows (pools (d_pools x)) with p :: _ => Db.GetID p | [] => "" end.
Definition first_service (x : World) : string := match rows (services (d_pools x)) with p :: _ => Db.GetID p | [] => "" end.
Definition serve_ (k : operation) (op : ref) (r : HttpRequest) (x : World) : World :=
  (serve (Msg := string) no_oplogs server (pool_endpoint k op) r x).2.
Definition added : World := serve_ KAddPool 1 (request "POST" [] "main") start.
Definition with_service : World := serve_ KAddService 10 (request "POST" [] "sql") added.
Definition bound : World :=
  serve_ KAddServiceToPool 6 (request "POST" [("pool", first_pool with_service)] ("db:" +:+ first_service with_service)) with_service.
Definition described : World := serve_ KUpdatePool 3 (request "PATCH" [("pool", first_pool bound)] "of customers") bound.
End PoolServerDemo.

(** ** The service on its server *)

Section Examples.
Import PoolServerDemo.

Example routes_of_pools : map (fun r => (r.1.1 +:+ " " +:+ r.1.2, o_name (operation_of api r.2))) (routes server) =
  [("POST /api/1.0/pools/pool", "add_pool"); ("GET /api/1.0/pools/pool", "list_pools");
   ("GET /api/1.0/pools/pool/:pool", "find_pool"); ("PATCH /api/1.0/pools/pool/:pool", "update_pool");
   ("DELETE /api/1.0/pools/pool/:pool", "delete_pool");
   ("GET /api/1.0/pools/pool/:pool/service", "list_pool_services"); ("POST /api/1.0/pools/pool/:pool/service", "add_service_to_pool");
   ("DELETE /api/1.0/pools/pool/:pool/service", "remove_all_services_from_pool");
   ("DELETE /api/1.0/pools/pool/:pool/service/:role", "remove_service_from_pool");
   ("POST /api/1.0/pools/service", "add_service"); ("GET /api/1.0/pools/service", "list_services");
   ("GET /api/1.0/pools/service/:service", "find_service"); ("PATCH /api/1.0/pools/service/:service", "update_service");
   ("DELETE /api/1.0/pools/service/:service", "delete_service");
   ("GET /api/1.0/pools/service/:service/pool", "list_service_pools");
   ("DELETE /api/1.0/pools/service/:service/pool", "remove_service_from_all_pools")].
Proof. vm_compute. reflexivity. Qed.

Definition reply_of (x : World) : list (Reply string) := replies (d_http x).
Example replies_of_pools :
  reply_of added = [Json 200 "pool main "] /\ reply_of bound = [Status 200] /\ reply_of described = [Json 200 "pool main of customers"] /\
  reply_of (serve_ KListPoolServices 5 (request "GET" [("pool", first_pool described)] "") described) = [Json 200 "bindings main/db"] /\
  reply_of (serve_ KAddPool 1 (request "POST" [] "main") described) =
    [JsonError 400 {| re_Code := "pool_name_conflict"; re_Message := "Pool with such name already exists, choose another name."; re_Details := "" |}] /\
  reply_of (serve_ KAddPool 1 (request "POST" [] "") described) =
    [JsonError 400 {| re_Code := "invalid_format"; re_Message := "Name can not be empty"; re_Details := "name" |}].
Proof. vm_compute. repeat split. Qed.
(** A pool that does not exist: the endpoint panics; a service that does not exist is reported. *)
Example replies_not_found :
  reply_of (serve_ KFindPool 2 (request "GET" [("pool", "x")] "") described) = [Status 500] /\
  reply_of (serve_ KFindService 11 (request "GET" [("service", "x")] "") described) =
    [JsonError 404 {| re_Code := "service_not_found"; re_Message := "Service not found."; re_Details := "" |}].
Proof. vm_compute. repeat split. Qed.
End Examples.

Section Witnesses.
Import PoolServerDemo.
Local Abbreviation asked := (asks (fun _ => None) no_query no_model no_model).

Lemma endpoint_runs_call_witness :
  let st := Init_request (Msg := string) server (pool_endpoint KAddPool 1) (request "POST" [] "spare") described in
  let r := handle text (fun _ => None) no_query no_model no_model server KAddPool (pool_endpoint KAddPool 1) st in
  exists t, let called := perform (CAddPool (named_pool "spare")) (Build_St t (st_op st) (view (st_ext st))) in
    view (st_ext r.2) = st_ext called.2 /\ oplogs (st_op r.2) = oplogs (st_op called.2) /\
    answered server KAddPool called.1 r.1 (st_ext r.2).
Proof.
  intros st r. assert (E : asked KAddPool (pool_endpoint KAddPool 1) (st_ext st) = Some (CAddPool (named_pool "spare"))) by (vm_compute; reflexivity).
  pose proof (endpoint_runs_call text (fun _ => None) no_query no_model no_model server KAddPool (pool_endpoint KAddPool 1) st) as H.
  cbv zeta in H. rewrite E in H. exact H.
Defined.

Lemma pools_csrf : csrf server = None.
Proof. vm_compute. reflexivity. Qed.
Lemma pools_auth path access : AuthRequest server path access = NoAuthMethod.HandleRequest (P := OpLogPool) (X := World).
Proof. vm_compute. reflexivity. Qed.
Lemma demo_keeps : keeps_tables server no_oplogs.
Proof.
  split.
  - by intros [] [].
  - by intros l st.
  - rewrite pools_csrf. by intros h [=].
  - intros path access. rewrite pools_auth. intros [t o x] Hi. exact Hi.
Qed.
Lemma demo_ok : server_ok (Msg := string) server.
Proof.
  split; [rewrite pools_csrf; by intros h [=]|]. intros path access. rewrite pools_auth. by intros [t o x].
Qed.

Local Abbreviation step := (api_step (Msg := string) text (fun _ => None) no_query no_model no_model server no_oplogs).
Lemma described_reachable : rtc step start described.
Proof.
  assert (Hs : forall k op r x, step x (serve_ k op r x)) by (intros; apply step_pools).
  exact (rtc_l _ _ _ _ (Hs _ _ _ _) (rtc_l _ _ _ _ (Hs _ _ _ _) (rtc_l _ _ _ _ (Hs _ _ _ _) (rtc_l _ _ _ _ (Hs _ _ _ _) (rtc_refl _ _))))).
Qed.

Lemma view_pools (x : World) : view x = d_pools x.
Proof. reflexivity. Qed.
Lemma start_ok : integrity (view (A := PoolWorld) start).
Proof. exact PoolInv.start_integrity. Qed.
Lemma served_integrity_witness :
  integrity (d_pools described) /\ map ROLE (rows (associations (d_pools described))) = ["db"].
Proof.
  split; [|vm_compute; reflexivity]. rewrite <- view_pools.
  exact (served_integrity text (fun _ => None) no_query no_model no_model server no_oplogs start described demo_keeps demo_ok
    described_reachable start_ok).
Defined.
End Witnesses.
