(* ===== verification/Config.v ===== *)
(** * pkg/config: arguments of a command line, configuration files that include and extend others

    A configuration is an object of viper, which is third-party: what the code uses of it is the class
    [Viper].  Files are texts by their paths.  Reading a file reads the files it refers to; the
    recursion of [LoadFile] is on fuel, and [ConfigLoad.LoadFile_ends] says when it has an end. *)
From Stdlib Require Import Ascii.
From S2P Require Import Prelude GoTime Utils Common Errors.
Open Scope go_scope.

(** ** Values *)

(** [CAny] is a slice of [interface{}], the others have elements of one type; a float is its bits. *)
Set Warnings "-register-all".
Inductive cval :=
| CNil | CStr (s : string) | CBool (b : bool) | CInt (z : Z) | CFloat (bits : Z)
| CStrs (l : list string) | CInts (l : list Z) | CFloats (l : list Z) | CAny (l : list cval).

(** An entry of [include_advanced], and the section [extend]. *)
Record IncludeMerge := { Path : string; Mode : string; Map : gmap string string }.
Record ExtendMerge := { e_Path : string; Rules : list IncludeMerge }.

(** [v_unmarshal_*] is [UnmarshalKey] into these structures; [v_string] the settings as JSON;
    [v_no_file] the error of reading a path where no file is. *)
Class Viper (V : Type) := {
  v_new : V;
  v_read : string -> string -> V -> V + error;
  v_merge : string -> string -> V -> V + error;
  v_is_set : string -> V -> bool;
  v_get : string -> V -> cval;
  v_set : string -> cval -> V -> V;
  v_strings : string -> V -> list string;
  v_unmarshal_extend : string -> V -> ExtendMerge + error;
  v_unmarshal_include : string -> V -> IncludeMerge + error;
  v_string : V -> string;
  v_no_file : string -> error
}.

(** ** Arguments (config_args.go) *)

Definition TypeEmpty := "".
Definition TypeBool := "bool".
Definition TypeInt := "int".
Definition TypeIntList := "int_list".
Definition TypeFloat := "float".
Definition TypeFloatList := "float_list".
Definition TypeString := "string".
Definition TypeStringList := "string_list".
Definition knownArgTypes : list string :=
  [TypeEmpty; TypeBool; TypeInt; TypeFloat; TypeString; TypeIntList; TypeFloatList; TypeStringList].

Definition Atoi (s : string) : Z + num_error := ParseInt 10 64 s.

Fixpoint all_items {A E} (f : string -> A + E) (key what : string) (i : Z) (l : list string) : list A + error :=
  match l with
  | [] => inl []
  | s :: l =>
      match f s with
      | inr _ => inr (Native ("item " +:+ fmt_d i +:+ " of parameter " +:+ key +:+ " must be " +:+ what))
      | inl a => match all_items f key what (i + 1) l with inr err => inr err | inl r => inl (a :: r) end
      end
  end.

Section Args.
Context {V : Type} `{Vi : !Viper V}.
Variable ParseFloat : string -> option Z.

Definition to_float (s : string) : Z + unit := match StrToFloat ParseFloat s with Some f => inl f | None => inr () end.

(** The value of a text for a type; [None] for a type that is not known. *)
Definition parameter (valueType key value : string) : option (cval + error) :=
  if decide (valueType = TypeEmpty) then Some (inl (CStr value))
  else if decide (valueType = TypeString) then Some (inl (CStr value))
  else if decide (valueType = TypeBool) then Some (inl (CBool (bool_decide (ToLower value = "true"))))
  else if decide (valueType = TypeInt) then
    Some (match Atoi value with
          | inl z => inl (CInt z)
          | inr _ => inr (Native ("parameter " +:+ key +:+ " must be integer"))
          end)
  else if decide (valueType = TypeFloat) then
    Some (match StrToFloat ParseFloat value with
          | Some f => inl (CFloat f)
          | None => inr (Native ("parameter " +:+ key +:+ " must be float"))
          end)
  else if decide (valueType = TypeStringList) then Some (inl (CStrs (Split value ",")))
  else if decide (valueType = TypeIntList) then
    Some (match all_items Atoi key "integer" 0 (Split value ",") with inl zs => inl (CInts zs) | inr err => inr err end)
  else if decide (valueType = TypeFloatList) then
    Some (match all_items to_float key "float" 0 (Split value ",") with inl fs => inl (CFloats fs) | inr err => inr err end)
  else None.

Definition setParameter (valueType key value : string) : M V (option error) := fun cfg =>
  match parameter valueType key value with
  | None => (None, cfg)
  | Some (inl v) => (None, v_set key v cfg)
  | Some (inr err) => (Some err, cfg)
  end.

Definition prefix_dashes (s : string) : option string :=
  match s with String "-" (String "-" r) => Some r | _ => None end.

(** The name of a parameter and its type. *)
Definition split_key (key : string) : (string * string) + error :=
  match prefix_dashes key with
  | None => inr (Native ("name of configuration parameter (" +:+ key +:+ ") must start with --"))
  | Some key =>
      let key := ToLower key in
      let keyParts := Split key "." in
      if (length keyParts <? 2)%nat
      then inr (Native ("last section of configuration parameter name (" +:+ key +:+ ") must denote the parameter's type"))
      else
        let parameterType := List.last keyParts "" in
        if bool_decide (parameterType ∈ knownArgTypes) then inl (Join (take (length keyParts - 1) keyParts) ".", parameterType)
        else inr (Native ("unknown type " +:+ parameterType +:+ " of configuration parameter " +:+ key))
  end.

Fixpoint load_pairs (args : list string) : M V (option error) := fun cfg =>
  match args with
  | key :: value :: args =>
      match split_key key with
      | inr err => (Some err, cfg)
      | inl (key, parameterType) =>
          match setParameter parameterType key value cfg with
          | (Some err, cfg) => (Some err, cfg)
          | (None, cfg) => load_pairs args cfg
          end
      end
  | _ => (None, cfg)
  end.

(** [Rebuild] of the configuration reads its own text; an error of it is dropped. *)
Definition Rebuild (cfg : V) : V + error := v_read "json" (v_string cfg) v_new.

Definition LoadArgs (args : list string) : M V (option error) := fun cfg =>
  match args with
  | [] => (None, cfg)
  | _ =>
      if Nat.odd (length args) then 
        (Some (Native ("invalid number of configuration parameters in arguments: " +:+ fmt_d (Z.of_nat (length args)) +:+ " (mus be even)")), cfg)
      else
        match load_pairs args cfg with
        | (Some err, cfg) => (Some err, cfg)
        | (None, cfg) => (None, match Rebuild cfg with inl cfg => cfg | inr _ => v_new end)
        end
  end.
End Args.

(** ** Paths (path/filepath) *)

Module filepath.
Definition clean_step (rooted : bool) (out : list string) (e : string) : list string :=
  if decide (e = "") then out else if decide (e = ".") then out
  else if decide (e = "..") then
    match rev out with
    | last :: before => if decide (last = "..") then out ++ [".."] else rev before
    | [] => if rooted then [] else [".."]
    end
  else out ++ [e].
Definition Clean (path : string) : string :=
  let rooted := match path with String "/" _ => true | _ => false end in
  let body := Join (foldl (clean_step rooted) [] (Split path "/")) "/" in
  if rooted then "/" +:+ body else if decide (body = "") then "." else body.
(** What is before the last slash. *)
Definition Dir (path : string) : string :=
  let parts := Split path "/" in
  if (length parts <? 2)%nat then "." else Clean (Join (take (length parts - 1) parts) "/" +:+ "/").
Definition Join2 (dir file : string) : string := Clean (dir +:+ "/" +:+ file).
End filepath.

(** ** Files (config_viper.go) *)

Definition MergeDirect := "direct".
Definition MergeValue := "value".
Definition MergeArray := "array".

(** A configuration with the file it was read from. *)
Record ConfigViper (V : Type) := { viper : V; configFile : string; configType : string }.
Arguments viper {V}.
Arguments configFile {V}.
Arguments configType {V}.
Arguments Build_ConfigViper {V}.

Section Files.
Context {V : Type} `{Vi : !Viper V, Mr : !MapRange}.
(** The regular files; [jsonc.ToJSON] takes comments away. *)
Variable files : string -> option string.
Variable ToJSON : string -> string.
Local Abbreviation config := (ConfigViper V).

Definition New : config := {| viper := v_new; configFile := ""; configType := "" |}.
(** As it is: the file, not the type. *)
Definition ConfigType (c : config) : string := configFile c.
Definition with_viper (v : V) (c : config) : config := {| viper := v; configFile := configFile c; configType := configType c |}.

Definition content_of (cfgType data : string) : string := if decide (cfgType = "json") then ToJSON data else data.
Definition read_failed (what : string) (err : error) : error := Native (what +:+ ": " +:+ Error err).
Definition ReadConfigFromFile (path cfgType : string) (v : V) : V + error :=
  match files path with
  | None => inr (read_failed "fatal error while reading config file" (v_no_file path))
  | Some data =>
      match v_read cfgType (content_of cfgType data) v with
      | inl v => inl v
      | inr err => inr (read_failed (if decide (cfgType <> "json") then "fatal error while reading config file"
                                     else "failed to parse configuration JSON") err)
      end
  end.
Definition MergeConfigFile (path cfgType : string) (v : V) : V + error :=
  match files path with
  | None => inr (read_failed (if decide (cfgType <> "json") then "fatal error while merging config file"
                              else "fatal error while reading config file") (v_no_file path))
  | Some data =>
      match v_merge cfgType (content_of cfgType data) v with
      | inl v => inl v
      | inr err => inr (read_failed (if decide (cfgType <> "json") then "fatal error while merging config file"
                                     else "failed to merge configuration JSON") err)
      end
  end.

(** The path as it is, or from the directory of the file that names it. *)
Definition MakeIncludePath (configFile path : string) : string + error :=
  match files path with
  | Some _ => inl path
  | None =>
      let r := filepath.Join2 (filepath.Dir configFile) path in
      match files r with Some _ => inl r | None => inr (Native ("failed to include config file " +:+ path +:+ " or " +:+ r)) end
  end.

(** One key of the map of a merge. *)
Definition merge_key (mode : string) (fromCfg : config) (kv : string * string) (toCfg : config) : config + error :=
  let from := kv.1 in
  let to := if decide (kv.2 = "") then from else kv.2 in
  let failed key what := inr (Native ("failed to append array from " +:+ configFile fromCfg +:+ " to " +:+ configFile toCfg +:+ ": " +:+
                                      key +:+ " is not array in " +:+ what +:+ " config")) in
  if negb (v_is_set from (viper fromCfg)) then inl toCfg
  else if negb (v_is_set to (viper toCfg)) || negb (bool_decide (mode = MergeArray))
       then inl (with_viper (v_set to (v_get from (viper fromCfg)) (viper toCfg)) toCfg)
  else
    match v_get to (viper toCfg), v_get from (viper fromCfg) with
    | CAny oldSlice, CAny newSlice => inl (with_viper (v_set to (CAny (oldSlice ++ newSlice)) (viper toCfg)) toCfg)
    | CAny _, _ => failed from "included"
    | _, _ => failed to "main"
    end.
Fixpoint merge_keys (mode : string) (fromCfg : config) (l : list (string * string)) (toCfg : config) : config + error :=
  match l with
  | [] => inl toCfg
  | kv :: l => match merge_key mode fromCfg kv toCfg with inr err => inr err | inl toCfg => merge_keys mode fromCfg l toCfg end
  end.
(** The second configuration changes. *)
Definition MergeConfigs (fromCfg toCfg : config) (mode : string) (keysMap : gmap string string) : config + error :=
  if decide (mode = MergeDirect) then
    match MergeConfigFile (configFile fromCfg) (configType fromCfg) (viper toCfg) with
    | inl v => inl (with_viper v toCfg)
    | inr err => inr (read_failed ("failed to include config file " +:+ configFile fromCfg +:+ " to " +:+ configFile toCfg) err)
    end
  else merge_keys mode fromCfg (range keysMap) toCfg.

(** [Load]: the settings of another configuration. *)
Definition Load (fromCfg c : config) : config + error :=
  match v_read "json" (v_string (viper fromCfg)) v_new with
  | inl v => inl (with_viper v c)
  | inr err => inr (read_failed "failed to re-read viper settings" err)
  end.

Fixpoint merge_rules (c : config) (rules : list IncludeMerge) (mainCfg : config) : config + error :=
  match rules with
  | [] => inl mainCfg
  | r :: rules => match MergeConfigs c mainCfg (Mode r) (Map r) with inr err => inr err | inl m => merge_rules c rules m end
  end.

Fixpoint load_includes (cfgType : string) (includes : list string) (c : config) : config + error :=
  match includes with
  | [] => inl c
  | include :: includes =>
      match MakeIncludePath (configFile c) include with
      | inr err => inr err
      | inl path =>
          match MergeConfigFile path cfgType (viper c) with
          | inr err => inr (read_failed ("failed to include config file " +:+ path) err)
          | inl v => load_includes cfgType includes (with_viper v c)
          end
      end
  end.

Definition item_key (i : nat) : string := "include_advanced." +:+ fmt_d (Z.of_nat i).

Section Body.
(** [LoadFile] of the files a file refers to; [None] is no result. *)
Variable load : string -> string -> option (config + error).

Fixpoint load_items (n i : nat) (cfgType : string) (c : config) : option (config + error) :=
  match n with
  | O => Some (inl c)
  | S n =>
      match v_unmarshal_include (item_key i) (viper c) with
      | inr _ => Some (inr (Native ("invalid format of " +:+ item_key i)))
      | inl item =>
          match MakeIncludePath (configFile c) (Path item) with
          | inr err => Some (inr err)
          | inl path =>
              match load path cfgType with
              | None => None
              | Some (inr err) => Some (inr (read_failed ("failed to read included configuration " +:+ Path item) err))
              | Some (inl cfg) =>
                  match MergeConfigs cfg c (Mode item) (Map item) with
                  | inr err => Some (inr err)
                  | inl c => load_items n (S i) cfgType c
                  end
              end
          end
      end
  end.

(** The file extends another one: the rules are applied to that one, whose settings are taken. *)
Definition load_extend (cfgType : string) (c : config) : option (config + error) :=
  match v_unmarshal_extend "extend" (viper c) with
  | inr _ => Some (inr (Native "invalid format of extend section"))
  | inl extend =>
      match MakeIncludePath (configFile c) (e_Path extend) with
      | inr err => Some (inr err)
      | inl path =>
          match load path cfgType with
          | None => None
          | Some (inr err) => Some (inr err)
          | Some (inl mainCfg) =>
              Some (match merge_rules c (Rules extend) mainCfg with
                    | inr err => inr err
                    | inl mainCfg =>
                        if existsb (fun r => bool_decide (Mode r = MergeDirect)) (Rules extend) && (1 <? length (Rules extend))%nat
                        then inr (Native "failed to extend config file: rule direct mode overrides all other rules, the direct rule must be exclusive")
                        else Load mainCfg c
                    end)
          end
      end
  end.

Definition load_body (file cfgType : string) (v : V) : option (config + error) :=
  match ReadConfigFromFile file cfgType v with
  | inr err => Some (inr (read_failed "fatal error while reading config file" err))
  | inl v =>
      let c := {| viper := v; configFile := file; configType := cfgType |} in
      if v_is_set "extend" v then load_extend cfgType c
      else
        match load_includes cfgType (v_strings "include" v) c with
        | inr err => Some (inr err)
        | inl c =>
            if negb (v_is_set "include_advanced" (viper c)) then Some (inl c)
            else
              match v_get "include_advanced" (viper c) with
              | CAny items =>
                  match load_items (length items) 0 cfgType c with
                  | Some (inl c) => Some (Load c c)
                  | r => r
                  end
              | _ => Some (inr (Native "invalid format of include_advanced section"))
              end
        end
  end.
End Body.

(** Into a new configuration; the fuel bounds how deep files refer to files. *)
Fixpoint LoadNew (fuel : nat) (file cfgType : string) : option (config + error) :=
  match fuel with
  | O => None
  | S n => load_body (LoadNew n) file cfgType v_new
  end.
Definition LoadFile (fuel : nat) (c : config) (file : string) (configType : list string) : option (config + error) :=
  match fuel with
  | O => None
  | S n => load_body (LoadNew n) file (OptionalArg "json" configType) (viper c)
  end.

Definition LoadString (configStr : string) (configType : list string) (c : config) : config + error :=
  match v_read (OptionalArg "json" configType) configStr (viper c) with
  | inl v => inl (with_viper v c)
  | inr err => inr (read_failed "fatal error while reading config string" err)
  end.

Definition GetFloat64Slice (key : string) (c : config) : list Z :=
  if negb (v_is_set key (viper c)) then []
  else
    match v_get key (viper c) with
    | CAny l => default [] (mapM (fun v => match v with CFloat f => Some f | _ => None end) l)
    | CFloats l => l
    | _ => []
    end.
End Files.
