(* ===== verification/ConfigArgs.v ===== *)
(** * What the arguments of a command line do to a configuration

    [given args l]: the arguments are pairs of a name and a text, and the settings are [l], each value
    of the type its name ends with.  [LoadArgs] makes these settings, or reports the first pair that
    is not one. *)
From Stdlib Require Import Ascii.
From S2P Require Import Prelude GoTime Utils Common Errors Config.
Open Scope go_scope.

(** ** Keys *)

Definition no_dot (s : string) : bool := bool_decide (Split s "." = [s]).

Lemma split_dot_acc s : forall acc, split_go "." 0 acc s = (acc +:+ hd "" (Split s ".")) :: tl (Split s ".").
Proof.
  change (Split s ".") with (split_go "." 0 "" s).
  induction s as [|c s IH]; intros acc; [cbn; by autorewrite with str|].
  cbn [split_go]. destruct (String.prefix "." (String c s)) eqn:E; [cbn; by autorewrite with str|].
  rewrite IH, (IH ("" +:+ String c "")). cbn [hd tl]. by autorewrite with str.
Qed.

Lemma Split_dot_snoc name t : no_dot t = true -> Split (name +:+ "." +:+ t) "." = Split name "." ++ [t].
Proof.
  intros Ht%bool_decide_eq_true. induction name as [|c name IH].
  - rewrite str_app_nil_l, Split_sep_first by done. by rewrite Ht.
  - change (Split (String c name +:+ "." +:+ t) ".") with (split_go "." 0 "" (String c name +:+ "." +:+ t)).
    change (Split (String c name) ".") with (split_go "." 0 "" (String c name)).
    rewrite str_app_cons. cbn [split_go].
    destruct (decide (c = "."%char)) as [->|Hc].
    + change (String.prefix "." (String "." (name +:+ "." +:+ t))) with (String.prefix "" (name +:+ "." +:+ t)).
      change (String.prefix "." (String "." name)) with (String.prefix "" name).
      assert (forall s, String.prefix "" s = true) as Hp by (by intros []). rewrite !Hp.
      cbn [String.length Nat.sub]. change (split_go "." 0 "" (name +:+ "." +:+ t)) with (Split (name +:+ "." +:+ t) ".").
      by rewrite IH.
    + cbn [String.prefix]. destruct (ascii_dec "." c) as [?|_]; [congruence|].
      rewrite !split_dot_acc, IH. pose proof (Split_ne name "." ltac:(done)). by destruct (Split name ".").
Qed.

Lemma known_no_dot t : t ∈ knownArgTypes -> no_dot t = true.
Proof.
  intros H. assert (Forall (fun t => no_dot t = true) knownArgTypes) as Hall by (repeat constructor).
  rewrite Forall_forall in Hall. by apply Hall.
Qed.

Lemma last_snoc {A} (l : list A) x d : List.last (l ++ [x]) d = x.
Proof. apply List.last_last. Qed.

(** The name and the type of a key. *)
Definition key_of (key name t : string) : Prop :=
  exists k, key = "--" +:+ k /\ ToLower k = name +:+ "." +:+ t /\ t ∈ knownArgTypes.

Lemma prefix_dashes_spec key k : prefix_dashes key = Some k <-> key = "--" +:+ k.
Proof.
  split.
  - unfold prefix_dashes. intros H. repeat case_match; simplify_eq. done.
  - by intros ->.
Qed.

Lemma split_key_spec key name t : split_key key = inl (name, t) <-> key_of key name t.
Proof.
  unfold split_key, key_of. split.
  - destruct (prefix_dashes key) as [k|] eqn:E; [|done]. apply prefix_dashes_spec in E.
    remember (Split (ToLower k) ".") as parts eqn:Es. cbn zeta.
    destruct (_ <? 2)%nat eqn:El; [done|]. apply Nat.ltb_ge in El. case_bool_decide as Ht; [|done]. intros [= <- <-].
    exists k. split; [done|]. split; [|done].
    destruct parts as [|x l _] using rev_ind; [cbn in El; lia|].
    rewrite last_snoc, length_app, Nat.add_sub, take_app_length.
    rewrite <- (Join_Split (ToLower k) ".") by done. rewrite <- Es.
    rewrite length_app in El. cbn in El. rewrite join_app; [done| |done]. by destruct l; [cbn in El; lia|].
  - intros (k & -> & Hk & Ht). cbn [prefix_dashes]. change (prefix_dashes ("--" +:+ k)) with (Some k). cbn iota.
    rewrite Hk, Split_dot_snoc by (by apply known_no_dot).
    rewrite length_app, last_snoc, Nat.add_sub, take_app_length. cbn [length].
    pose proof (Split_ne name "." ltac:(done)) as Hne. destruct (_ <? 2)%nat eqn:El.
    { apply Nat.ltb_lt in El. destruct (Split name "."); [done|cbn in El; lia]. }
    rewrite bool_decide_eq_true_2 by done. by rewrite Join_Split by done.
Qed.

(** ** Values *)

Section Typed.
Context {V : Type} `{Vi : !Viper V}.
Variable ParseFloat : string -> option Z.

(** The value is of the type and is what the text says. *)
Definition has_type (t text : string) (v : cval) : Prop :=
  match v with
  | CStr s => (t = TypeEmpty \/ t = TypeString) /\ s = text
  | CBool b => t = TypeBool /\ (b = true <-> ToLower text = "true")
  | CInt z => t = TypeInt /\ in_int64 z /\ Atoi text = inl z
  | CFloat f => t = TypeFloat /\ StrToFloat ParseFloat text = Some f
  | CStrs l => t = TypeStringList /\ l <> [] /\ l = Split text ","
  | CInts l => t = TypeIntList /\ Forall in_int64 l /\ Forall2 (fun s z => Atoi s = inl z) (Split text ",") l
  | CFloats l => t = TypeFloatList /\ Forall2 (fun s f => StrToFloat ParseFloat s = Some f) (Split text ",") l
  | _ => False
  end.

Lemma all_items_spec {A E} (f : string -> A + E) key what i l r :
  all_items f key what i l = inl r <-> Forall2 (fun s a => f s = inl a) l r.
Proof.
  revert i r; induction l as [|s l IH]; intros i r; cbn [all_items].
  - split; [intros [= <-]; constructor|intros H; by inversion H].
  - split.
    + destruct (f s) eqn:Es; [|done]. destruct (all_items f key what (i + 1)%Z l) eqn:El; [|done].
      intros [= <-]. constructor; [done|]. by apply (IH (i + 1)%Z).
    + intros H. inversion H as [|? a ? l' Ha Hl]; subst. rewrite Ha. by rewrite (proj2 (IH (i + 1)%Z l') Hl).
Qed.

Lemma Atoi_range s z : Atoi s = inl z -> in_int64 z.
Proof.
  unfold Atoi, ParseInt. intros H. repeat case_match; simplify_eq; unfold in_int64; lia.
Qed.

Lemma Forall2_Atoi l zs : Forall2 (fun s z => Atoi s = inl z) l zs -> Forall in_int64 zs.
Proof. induction 1; constructor; eauto using Atoi_range. Qed.

Lemma to_float_spec s f : to_float ParseFloat s = inl f <-> StrToFloat ParseFloat s = Some f.
Proof. unfold to_float. destruct (StrToFloat ParseFloat s); split; congruence. Qed.

(** The branch of a known type. *)
Ltac by_type := unfold parameter; repeat first [rewrite decide_True by done | rewrite decide_False by done].

Lemma parameter_known t key text : t ∈ knownArgTypes -> exists r, parameter ParseFloat t key text = Some r.
Proof.
  unfold knownArgTypes. rewrite !elem_of_cons, elem_of_nil. intros H.
  destruct_or? H; try done; subst t; by_type; eauto.
Qed.

Lemma parameter_unknown t key text : t ∉ knownArgTypes -> parameter ParseFloat t key text = None.
Proof.
  unfold knownArgTypes. rewrite !not_elem_of_cons. intros H. unfold parameter. destruct_and? H.
  by rewrite !decide_False by done.
Qed.

Lemma parameter_spec t key text v : parameter ParseFloat t key text = Some (inl v) <-> has_type t text v.
Proof.
  split.
  - intros H. destruct (decide (t ∈ knownArgTypes)) as [Ht|Ht]; [|by rewrite parameter_unknown in H].
    unfold knownArgTypes in Ht. rewrite !elem_of_cons, elem_of_nil in Ht.
    destruct_or? Ht; try done; subst t; revert H; by_type; intros H;
      repeat (case_match eqn:Hm; try done); simplify_eq; cbn -[Split]; rewrite ?bool_decide_eq_true; eauto using Atoi_range.
    + apply all_items_spec in Hm. eauto using Forall2_Atoi.
    + apply all_items_spec in Hm. split; [done|]. eapply Forall2_impl; [exact Hm|]. intros s f. by rewrite to_float_spec.
    + split_and!; [done|by apply Split_ne|done].
  - destruct v; cbn; try done.
    + intros [[-> | ->] ->]; by by_type.
    + intros [-> Hb]. by_type. do 3 f_equal. destruct b; [apply bool_decide_eq_true_2|apply bool_decide_eq_false_2]; naive_solver.
    + intros (-> & _ & Hz). by_type. by rewrite Hz.
    + intros (-> & Hz). by_type. by rewrite Hz.
    + intros (-> & _ & ->). by by_type.
    + intros (-> & _ & H). by_type. by rewrite (proj2 (all_items_spec _ _ _ _ _ _) H).
    + intros (-> & H). by_type.
      assert (Forall2 (fun s f => to_float ParseFloat s = inl f) (Split text ",") l) as Hl.
      { eapply Forall2_impl; [exact H|]. intros s f. by rewrite to_float_spec. }
      by rewrite (proj2 (all_items_spec _ _ _ _ _ _) Hl).
Qed.

(** ** Arguments *)

Definition set_all (cfg : V) (l : list (string * cval)) : V := foldl (fun cfg kv => v_set kv.1 kv.2 cfg) cfg l.

(** Pairs of a name and a text, and the settings they are. *)
Inductive given : list string -> list (string * cval) -> Prop :=
| given_nil : given [] []
| given_cons key name t text v args l :
    key_of key name t -> has_type t text v -> given args l -> given (key :: text :: args) ((name, v) :: l).

(** The first two arguments are not a setting. *)
Definition not_given (args : list string) : Prop :=
  exists key text rest, args = key :: text :: rest /\ forall l, ~ given [key; text] l.

Lemma given_one key text l :
  given [key; text] l -> exists name t v, key_of key name t /\ has_type t text v.
Proof. intros H. inversion H; subst. eauto. Qed.

Lemma given_app l1 a1 l2 a2 : given a1 l1 -> given a2 l2 -> given (a1 ++ a2) (l1 ++ l2).
Proof. induction 1; [done|]. intros. econstructor; eauto. Qed.

(** What [load_pairs] does, two arguments at a time. *)
Lemma load_pairs_spec n : forall args cfg, length args = (2 * n)%nat ->
  match load_pairs ParseFloat args cfg with
  | (None, cfg') => exists l, given args l /\ cfg' = set_all cfg l
  | (Some _, cfg') => exists pre post l, args = pre ++ post /\ given pre l /\ not_given post /\ cfg' = set_all cfg l
  end.
Proof.
  induction n as [|n IH]; intros [|key [|text args]] cfg Hn; cbn in Hn; try lia.
  { exists []. split; [constructor|done]. }
  cbn [load_pairs]. destruct (split_key key) as [[name t]|err] eqn:Ek.
  2: { exists [], (key :: text :: args), []. split_and!; [done|constructor| |done]. exists key, text, args. split; [done|].
       intros l (name & t & v & Hk & _)%given_one. apply split_key_spec in Hk. congruence. }
  apply split_key_spec in Ek as Hk. destruct Hk as (k & Hk1 & Hk2 & Ht).
  unfold setParameter. destruct (parameter_known t name text Ht) as [[v|err] Hp]; rewrite Hp.
  - specialize (IH args (v_set name v cfg) ltac:(lia)). apply parameter_spec in Hp. apply split_key_spec in Ek.
    assert (given [key; text] [(name, v)]) as H1 by (econstructor; [done..|constructor]).
    destruct (load_pairs _ _ _) as [[err|] cfg'].
    + destruct IH as (pre & post & l & -> & Hg & Hn' & ->).
      exists (key :: text :: pre), post, ((name, v) :: l). split_and!; try done. by apply (given_app [(name, v)] [key; text]).
    + destruct IH as (l & Hg & ->). exists ((name, v) :: l). split; [|done]. by apply (given_app [(name, v)] [key; text]).
  - exists [], (key :: text :: args), []. split_and!; [done|constructor| |done]. exists key, text, args. split; [done|].
    intros l (name' & t' & v & Hk & Hv)%given_one. apply split_key_spec in Hk. rewrite Ek in Hk. simplify_eq.
    apply (parameter_spec _ name') in Hv. congruence.
Qed.

(** [C29] Arguments of a command line.  Arguments that are accepted are pairs [--name.type text]: the
    configuration gets, in their order, for each name in lower case a value of that type which is what
    the text says (an integer fits 64 bits, a list has an item for each section of the text), and is
    then built again.  Otherwise there is an error: the number of arguments is odd and nothing is set,
    or the first pair that is no setting is met after those before it are set. *)
Theorem LoadArgs_typed (args : list string) (cfg : V) :
  match LoadArgs ParseFloat args cfg with
  | (None, cfg') =>
      exists l, given args l /\
        cfg' = (if decide (args = []) then cfg else match Rebuild (set_all cfg l) with inl c => c | inr _ => v_new end)
  | (Some _, cfg') =>
      exists pre post l, args = pre ++ post /\ given pre l /\ cfg' = set_all cfg l /\
        (Nat.Odd (length args) /\ pre = [] \/ not_given post)
  end.
Proof.
  unfold LoadArgs. destruct args as [|a args'] eqn:Ea; [by exists []; split; [constructor|]|].
  rewrite <- Ea. destruct (Nat.odd (length args)) eqn:Eo.
  { exists [], args, []. split_and!; [done|constructor|done|]. left. split; [|done]. by apply Nat.odd_spec. }
  assert (exists n, length args = 2 * n)%nat as [n Hn] by (apply Nat.even_spec; by rewrite <- Nat.negb_odd, Eo).
  pose proof (load_pairs_spec n args cfg Hn) as H. destruct (load_pairs _ _ _) as [[err|] cfg'].
  - destruct H as (pre & post & l & ? & ? & ? & ?). eauto 10.
  - destruct H as (l & Hg & ->). exists l. split; [done|]. by rewrite decide_False by (by rewrite Ea).
Qed.
End Typed.
