(* ===== verification/ConfigLoad.v ===== *)
(** * When the loading of a configuration file ends

    A file extends another or includes others, which are loaded in their turn ([refers]).  Loading
    ends exactly if no chain of such files goes on for ever, and then more fuel changes nothing. *)
From S2P Require Import Prelude GoTime Utils Common Errors Config ConfigArgs.
Open Scope go_scope.

Section Load.
Context {V : Type} `{Vi : !Viper V, Mr : !MapRange}.
Variable files : string -> option string.
Variable ToJSON : string -> string.
Local Abbreviation config := (ConfigViper V).
Local Abbreviation result := (option (config + error)).
Local Abbreviation LoadNew := (Config.LoadNew files ToJSON).
Local Abbreviation LoadFile := (Config.LoadFile files ToJSON).
Local Abbreviation load_body := (Config.load_body files ToJSON).
Local Abbreviation load_items := (Config.load_items files ToJSON).

(** ** The files a file refers to *)

Definition mk (v : V) (file cfgType : string) : config := {| viper := v; configFile := file; configType := cfgType |}.

(** What the include section leaves, when the file extends no other. *)
Definition included (v0 : V) (t file : string) (c : config) : Prop :=
  exists v, ReadConfigFromFile files ToJSON file t v0 = inl v /\ v_is_set "extend" v = false /\
            load_includes files ToJSON t (v_strings "include" v) (mk v file t) = inl c.

(** The path of the item [i]. *)
Definition item_path (i : nat) (c : config) (p : string) : Prop :=
  exists item, v_unmarshal_include (item_key i) (viper c) = inl item /\ MakeIncludePath files (configFile c) (Path item) = inl p.

(** The configuration with [i] of the [n] items of its advanced section included. *)
Inductive reaches (v0 : V) (t file : string) (n : nat) : nat -> config -> Prop :=
| reaches_start c items :
    included v0 t file c -> v_is_set "include_advanced" (viper c) = true ->
    v_get "include_advanced" (viper c) = CAny items -> n = length items -> reaches v0 t file n 0 c
| reaches_item i c item p m cfg c' :
    reaches v0 t file n i c -> (i < n)%nat ->
    v_unmarshal_include (item_key i) (viper c) = inl item -> MakeIncludePath files (configFile c) (Path item) = inl p ->
    LoadNew m p t = Some (inl cfg) -> MergeConfigs files ToJSON cfg c (Mode item) (Map item) = inl c' ->
    reaches v0 t file n (S i) c'.

(** Loading the file into [v0] loads the file [p]. *)
Inductive refers (v0 : V) (t file p : string) : Prop :=
| refers_extend v e :
    ReadConfigFromFile files ToJSON file t v0 = inl v -> v_is_set "extend" v = true ->
    v_unmarshal_extend "extend" v = inl e -> MakeIncludePath files file (e_Path e) = inl p -> refers v0 t file p
| refers_item n i c :
    reaches v0 t file n i c -> (i < n)%nat -> item_path i c p -> refers v0 t file p.

(** ** More fuel *)

Definition below (load load' : string -> string -> result) : Prop := forall p t r, load p t = Some r -> load' p t = Some r.

Lemma load_items_mono load load' n i t c r : below load load' ->
  load_items load n i t c = Some r -> load_items load' n i t c = Some r.
Proof.
  intros Hl. revert i c; induction n as [|n IH]; intros i c; cbn [Config.load_items]; [done|].
  destruct (v_unmarshal_include _ _); [|done]. destruct (MakeIncludePath _ _ _) as [p|]; [|done].
  destruct (load p t) as [[cfg|err]|] eqn:E; [..|done]; rewrite (Hl _ _ _ E); [|done].
  destruct (MergeConfigs _ _ _ _ _ _); [apply IH|done].
Qed.

Lemma load_extend_mono load load' t c r : below load load' ->
  load_extend files ToJSON load t c = Some r -> load_extend files ToJSON load' t c = Some r.
Proof.
  intros Hl. unfold load_extend. destruct (v_unmarshal_extend _ _); [|done]. destruct (MakeIncludePath _ _ _) as [p|]; [|done].
  destruct (load p t) as [[cfg|err]|] eqn:E; [..|done]; by rewrite (Hl _ _ _ E).
Qed.

Lemma load_body_mono load load' file t v r : below load load' ->
  load_body load file t v = Some r -> load_body load' file t v = Some r.
Proof.
  intros Hl. unfold Config.load_body. destruct (ReadConfigFromFile _ _ _ _ _); [|done].
  destruct (v_is_set "extend" _); [by apply load_extend_mono|]. destruct (load_includes _ _ _ _ _) as [c|]; [|done].
  destruct (negb _); [done|]. destruct (v_get _ _) as [| | | | | | | |items]; try done.
  destruct (Config.load_items _ _ load _ _ _ _) as [r'|] eqn:E; [|done]. by rewrite (load_items_mono _ _ _ _ _ _ _ Hl E).
Qed.

Lemma LoadNew_mono n m p t r : (n <= m)%nat -> LoadNew n p t = Some r -> LoadNew m p t = Some r.
Proof.
  revert m p t r; induction n as [|n IH]; intros [|m] p t r Hm; [done..|lia|].
  apply load_body_mono. intros q t' r'. apply IH. lia.
Qed.

Lemma LoadNew_same n m p t r r' : LoadNew n p t = Some r -> LoadNew m p t = Some r' -> r = r'.
Proof.
  intros H H'. apply (LoadNew_mono n (max n m)) in H; [|lia]. apply (LoadNew_mono m (max n m)) in H'; [|lia]. congruence.
Qed.

(** ** What a loading that ends has loaded *)

Lemma reaches_ends v0 t file n i c k r :
  reaches v0 t file n i c -> load_body (LoadNew k) file t v0 = Some r ->
  exists r', load_items (LoadNew k) (n - i) i t c = Some r'.
Proof.
  intros H Hr. induction H as [c items (v & Hv & He & Hi) Hs Hg Hn|i c item p m cfg c' _ IH Hi Hu Hp Hm Hc].
  - unfold Config.load_body in Hr. rewrite Hv, He in Hr. unfold mk in Hi. rewrite Hi, Hs in Hr. cbn [negb] in Hr. rewrite Hg in Hr.
    rewrite Hn, Nat.sub_0_r. destruct (Config.load_items _ _ _ _ _ _ _); [eauto|done].
  - destruct IH as [r' IH]. replace (n - i)%nat with (S (n - S i)) in IH by lia. cbn [Config.load_items] in IH.
    rewrite Hu, Hp in IH. destruct (LoadNew k p t) as [r1|] eqn:E; [|done]. rewrite (LoadNew_same _ _ _ _ _ _ E Hm), Hc in IH. eauto.
Qed.

Lemma ends_refers v0 t file k r p :
  load_body (LoadNew k) file t v0 = Some r -> refers v0 t file p -> exists r', LoadNew k p t = Some r'.
Proof.
  intros Hr [v e Hv He Hu Hp|n i c Hc Hi (item & Hu & Hp)].
  - unfold Config.load_body in Hr. rewrite Hv, He in Hr. unfold load_extend in Hr. cbn [viper configFile] in Hr.
    rewrite Hu, Hp in Hr. destruct (LoadNew k p t); [eauto|done].
  - destruct (reaches_ends _ _ _ _ _ _ _ _ Hc Hr) as [r' H]. replace (n - i)%nat with (S (n - S i)) in H by lia.
    cbn [Config.load_items] in H. rewrite Hu, Hp in H. destruct (LoadNew k p t); [eauto|done].
Qed.

(** No chain of references from the file goes on for ever. *)
Definition grounded (t p : string) : Prop := Acc (fun q p => refers v_new t p q) p.

Lemma ends_grounded k t p r : LoadNew k p t = Some r -> grounded t p.
Proof.
  revert p r; induction k as [|k IH]; intros p r H; [done|]. constructor. intros q Hq.
  destruct (ends_refers _ _ _ _ _ _ H Hq) as [r' Hr]. by eapply IH.
Qed.

(** ** Enough fuel *)

Lemma items_end v0 t file n k : forall i c,
  (forall p, refers v0 t file p -> exists m r, LoadNew m p t = Some r) ->
  reaches v0 t file n i c -> (i + k = n)%nat -> exists m r, load_items (LoadNew m) k i t c = Some r.
Proof.
  induction k as [|k IH]; intros i c Hp Hc Hk; cbn [Config.load_items]; [by exists 0%nat; eexists|].
  destruct (v_unmarshal_include _ _) as [item|] eqn:Eu; [|by exists 0%nat; eexists].
  destruct (MakeIncludePath _ _ _) as [p|] eqn:Ep; [|by exists 0%nat; eexists].
  destruct (Hp p) as (m & r & Hm).
  { eapply refers_item; [done|lia|]. by exists item. }
  destruct r as [cfg|err]; [|exists m; rewrite Hm; eauto].
  destruct (MergeConfigs files ToJSON cfg c (Mode item) (Map item)) as [c'|err] eqn:Ec; [|exists m; rewrite Hm, Ec; eauto].
  destruct (IH (S i) c') as (m' & r & Hr); [done| |lia|].
  { by eapply reaches_item; [..|exact Ec]; [done|lia|..]. }
  exists (max m m'), r. rewrite (LoadNew_mono m (max m m') _ _ _ ltac:(lia) Hm), Ec.
  eapply load_items_mono; [|exact Hr]. intros q t' r'. apply LoadNew_mono. lia.
Qed.

Lemma body_ends v0 t file :
  (forall p, refers v0 t file p -> exists m r, LoadNew m p t = Some r) ->
  exists m r, load_body (LoadNew m) file t v0 = Some r.
Proof.
  intros Hp. unfold Config.load_body.
  destruct (ReadConfigFromFile _ _ _ _ _) as [v|] eqn:Ev; [|by exists 0%nat; eexists].
  destruct (v_is_set "extend" v) eqn:Ee.
  - unfold load_extend. cbn [viper configFile].
    destruct (v_unmarshal_extend _ _) as [e|] eqn:Eu; [|by exists 0%nat; eexists].
    destruct (MakeIncludePath _ _ _) as [p|] eqn:Ep; [|by exists 0%nat; eexists].
    destruct (Hp p) as (m & r & Hm); [by eapply refers_extend|]. exists m. rewrite Hm. destruct r; eauto.
  - destruct (load_includes _ _ _ _ _) as [c|] eqn:Ei; [|by exists 0%nat; eexists].
    destruct (v_is_set "include_advanced" (viper c)) eqn:Es; cbn [negb]; [|by exists 0%nat; eexists].
    destruct (v_get _ _) as [| | | | | | | |items] eqn:Eg; try (by exists 0%nat; eexists).
    destruct (items_end v0 t file (length items) (length items) 0 c Hp) as (m & r & Hr); [|done|].
    { eapply reaches_start; [|done..]. by exists v. }
    exists m. rewrite Hr. destruct r; eauto.
Qed.

Lemma grounded_ends t p : grounded t p -> exists m r, LoadNew m p t = Some r.
Proof.
  induction 1 as [p _ IH]. destruct (body_ends v_new t p) as (m & r & H); [done|]. by exists (S m), r.
Qed.

(** The two directions. *)
Lemma ends_iff_grounded (c : config) (file : string) (cfgType : list string) :
  let t := OptionalArg "json" cfgType in
  (exists r n, forall m, (n <= m)%nat -> LoadFile m c file cfgType = Some r) <->
  (forall p, refers (viper c) t file p -> grounded t p).
Proof.
  intros t. split.
  - intros (r & n & H) p Hp. specialize (H (S n) ltac:(lia)). cbn [Config.LoadFile] in H.
    destruct (ends_refers _ _ _ _ _ _ H Hp) as [r' Hr]. by eapply ends_grounded.
  - intros H. destruct (body_ends (viper c) t file) as (m & r & Hm); [intros p Hp; by apply grounded_ends, H|].
    exists r, (S m). intros [|k] Hk; [lia|]. cbn [Config.LoadFile]. eapply load_body_mono; [|exact Hm].
    intros q t' r'. apply LoadNew_mono. lia.
Qed.

(** [C30] Loading ends.  The loading of a file into a configuration has a result, the same for every
    fuel from some on, exactly if none of the files it refers to starts an endless chain of references:
    then every file is read, or the first error is reported.  Otherwise (a file that includes or extends
    itself, say) no fuel is enough. *)
Theorem LoadFile_ends (c : config) (file : string) (cfgType : list string) :
  let t := OptionalArg "json" cfgType in
  (exists r n, forall m, (n <= m)%nat -> LoadFile m c file cfgType = Some r) <->
  (forall p, refers (viper c) t file p -> grounded t p).
Proof. apply ends_iff_grounded. Qed.
End Load.
