(* ===== verification/ConfigDemo.v ===== *)
(** * Configurations as lists of settings, and a few files

    A small Viper: lines [key=value;] where a value is [s] and a text, [i] and an integer, [b] and a
    digit, or [a] and items between bars.  The theorems of ConfigArgs and ConfigLoad are applied to
    it: files that include one another end, a file that includes itself does not. *)
From Stdlib Require Import Ascii.
From S2P Require Import Prelude GoTime Utils Common Errors Config ConfigArgs ConfigLoad.
Open Scope go_scope.

Definition settings := list (string * cval).

Definition text_of (v : cval) : string :=
  match v with
  | CStr s => "s" +:+ s
  | CInt z => "i" +:+ fmt_d z
  | CBool b => if b then "b1" else "b0"
  | CStrs l => "a" +:+ Join (map (fun s => "s" +:+ s) l) "|"
  | CInts l => "a" +:+ Join (map (fun z => "i" +:+ fmt_d z) l) "|"
  | CAny l => "a" +:+ Join (map (fun v => match v with CStr s => "s" +:+ s | CInt z => "i" +:+ fmt_d z | _ => "" end) l) "|"
  | _ => ""
  end.
Definition scalar (s : string) : cval :=
  match s with
  | String "i" r => match Atoi r with inl z => CInt z | inr _ => CNil end
  | String "b" r => CBool (bool_decide (r = "1"))
  | String "s" r => CStr r
  | _ => CNil
  end.
Definition value_of (s : string) : cval :=
  match s with String "a" r => CAny (map scalar (Split r "|")) | _ => scalar s end.

Fixpoint find_setting (key : string) (c : settings) : option cval :=
  match c with
  | [] => None
  | (k, v) :: c => if decide (k = key) then Some v else find_setting key c
  end.
Fixpoint set_setting (key : string) (v : cval) (c : settings) : settings :=
  match c with
  | [] => [(key, v)]
  | (k, w) :: c => if decide (k = key) then (k, v) :: c else (k, w) :: set_setting key v c
  end.
Definition print (c : settings) : string := Join (map (fun kv => kv.1 +:+ "=" +:+ text_of kv.2) c) ";".
Fixpoint parse_lines (l : list string) : settings + error :=
  match l with
  | [] => inl []
  | s :: l => match Split s "=", parse_lines l with
              | [k; v], inl c => inl (set_setting k (value_of v) c)
              | _, _ => inr (Native "bad line")
              end
  end.
Definition parse (s : string) : settings + error := parse_lines (rev (Split s ";")).

(** A merge is [path,mode,from>to]. *)
Definition merge_of (v : cval) : IncludeMerge + error :=
  match v with
  | CStr s => match Split s "," with
              | [p; m; kv] => match Split kv ">" with
                              | [from; to] => inl {| Path := p; Mode := m; Map := {[from := to]} |}
                              | _ => inr (Native "bad map")
                              end
              | _ => inr (Native "bad merge")
              end
  | _ => inr (Native "no merge")
  end.
Definition item_of (key : string) (c : settings) : IncludeMerge + error :=
  match Split key "." with
  | [section; i] => match find_setting section c, Atoi i with
                    | Some (CAny l), inl i => merge_of (default CNil (l !! Z.to_nat i))
                    | _, _ => inr (Native "no item")
                    end
  | _ => inr (Native "bad key")
  end.

#[export] Instance listViper : Viper settings := {|
  v_new := [];
  v_read _ text _ := parse text;
  v_merge _ text c := match parse text with inl new => inl (foldl (fun c kv => set_setting kv.1 kv.2 c) c new) | inr e => inr e end;
  v_is_set key c := bool_decide (is_Some (find_setting key c));
  v_get key c := default CNil (find_setting key c);
  v_set := set_setting;
  v_strings key c := match find_setting key c with Some (CAny l) => omap (fun v => match v with CStr s => Some s | _ => None end) l | _ => [] end;
  v_unmarshal_extend key c := match merge_of (default CNil (find_setting key c)) with
                              | inl r => inl {| e_Path := Path r; Rules := [r] |}
                              | inr e => inr e
                              end;
  v_unmarshal_include := item_of;
  v_string := print;
  v_no_file path := Native ("open " +:+ path +:+ ": no such file or directory")
|}.

#[export] Instance config_range : MapRange := {| range A m := map_to_list m; range_perm A m := reflexivity _ |}.

Definition the_files : gmap string string := list_to_map
  [("/etc/main", "include=assites;include_advanced=asdb,value,host>dbhost|sdb,array,ports>ports;ports=ai1|i2;name=smain");
   ("/etc/sites", "site=sone");
   ("/etc/db", "host=sh1;ports=ai3");
   ("/etc/child", "extend=smain,value,name>name;name=schild");
   ("/etc/loop", "include_advanced=as/etc/loop,value,a>b;a=i1")].
Definition the_file (path : string) : option string := the_files !! path.

(** The main file includes two others; a port comes from one of them. *)
Example main_loaded :
  match LoadFile the_file id 4 New "/etc/main" [] with
  | Some (inl c) => find_setting "dbhost" (viper c) = Some (CStr "h1") /\
                    find_setting "ports" (viper c) = Some (CAny [CInt 1; CInt 2; CInt 3]) /\
                    find_setting "site" (viper c) = Some (CStr "one")
  | _ => False
  end.
Proof. vm_compute. auto. Qed.

(** The child extends the main file. *)
Example child_loaded :
  match LoadFile the_file id 4 New "/etc/child" [] with
  | Some (inl c) => find_setting "name" (viper c) = Some (CStr "child") /\ find_setting "dbhost" (viper c) = Some (CStr "h1")
  | _ => False
  end.
Proof. vm_compute. auto. Qed.

Lemma LoadFile_ends_witness :
  ~ (exists p, refers the_file id (viper (New (V := settings))) "json" "/etc/child" p /\ ~ grounded the_file id "json" p).
Proof.
  intros (p & Hp & Hn). apply Hn. clear Hn. revert p Hp.
  apply (LoadFile_ends the_file id (New (V := settings)) "/etc/child" []).
  eexists _, 4%nat. intros m Hm. do 4 (destruct m as [|m]; [lia|]). vm_compute. reflexivity.
Defined.

(** A file that includes itself: [LoadFile] never returns. *)
Definition loop_settings : settings := [("include_advanced", CAny [CStr "/etc/loop,value,a>b"]); ("a", CInt 1)].
Definition loop_config : ConfigViper settings := mk loop_settings "/etc/loop" "json".
Lemma loop_included : included the_file id (v_new (V := settings)) "json" "/etc/loop" loop_config.
Proof. exists loop_settings. split_and!; vm_compute; reflexivity. Qed.
Lemma loop_refers : refers the_file id (v_new (V := settings)) "json" "/etc/loop" "/etc/loop".
Proof.
  apply (refers_item the_file id _ _ _ _ 1 0 loop_config); [|lia|].
  - by apply (reaches_start the_file id _ _ _ _ loop_config [CStr "/etc/loop,value,a>b"] loop_included).
  - exists {| Path := "/etc/loop"; Mode := "value"; Map := {["a" := "b"]} |}. split; vm_compute; reflexivity.
Qed.

Example loop_never_ends : ~ exists r n, forall m, (n <= m)%nat -> LoadFile the_file id m (New (V := settings)) "/etc/loop" [] = Some r.
Proof.
  rewrite ends_iff_grounded. intros H. specialize (H _ loop_refers).
  assert (forall p, grounded the_file id "json" p -> p <> "/etc/loop") as Hp.
  { intros p. induction 1 as [p _ IH]. intros ->. exact (IH _ loop_refers eq_refl). }
  by apply (Hp _ H).
Qed.

(** Arguments: a list of integers, a flag, a name in capitals; a number that is none. *)
Definition no_float (_ : string) : option Z := None.
Example args_set :
  LoadArgs no_float ["--Server.Ports.int_list"; "80,443"; "--debug.bool"; "TRUE"] (v_new (V := settings)) =
  (None, [("server.ports", CAny [CInt 80; CInt 443]); ("debug", CBool true)]).
Proof. vm_compute. reflexivity. Qed.
Example args_refused :
  LoadArgs no_float ["--a.int"; "7"; "--b.int"; "x"] (v_new (V := settings)) =
  (Some (Native "parameter b must be integer"), [("a", CInt 7)]).
Proof. vm_compute. reflexivity. Qed.
