(* ===== verification/RestClient.v ===== *)
(** * pkg/api/api_client: clients of the REST servers

    A client keeps its tokens ([RestApiClientBase]) and sends requests with one of two functions
    [DoRequest], which may use the client themselves.  What [nil] pointers do is kept: a computation
    in [call] may stop, at a panic or because the client sends requests without end. *)
From S2P Require Import Prelude GoTime Utils Common Errors OpContext Access Auth Crypt Http Users Cache AuthMethods AuthToken ApiResource Server.
Open Scope go_scope.

(** ** Responses (response.go) *)

(** A pointer is passed and returned: [SetError] gives a new value. *)
Record HttpResponse := { Raw : Http.Response; serverError : option ResponseError }.
Definition NewResponse (raw : Http.Response) : HttpResponse := {| Raw := raw; serverError := None |}.
Definition resp_Code (r : HttpResponse) : Z := StatusCode (Raw r).
(** [Header().Get(key)] *)
Definition Header_Get (key : string) (r : HttpResponse) : string :=
  match rp_Header (Raw r) !! CanonicalHeaderKey key with Some (v :: _) => v | _ => "" end.
Definition resp_Body (r : HttpResponse) : string := Body (Raw r).
Definition SetError_ (err : option ResponseError) (r : HttpResponse) : HttpResponse := {| Raw := Raw r; serverError := err |}.
Definition IsResponseOK (resp : option HttpResponse) (err : option error) : bool :=
  match err, resp with
  | None, Some resp => (resp_Code resp <? StatusBadRequest_)%Z
  | _, _ => false
  end.
(** [resp.Error().Code]; nil is dereferenced. *)
Definition error_code (r : HttpResponse) : option string := re_Code <$> serverError r.

(** encoding/json of errors of responses. *)
Class ErrorJson := {
  marshal_error : ResponseError -> string;
  unmarshal_error : string -> ResponseError + error
}.
Class ErrorJsonOk `{ErrorJson} := unmarshal_marshal e : unmarshal_error (marshal_error e) = inl e.
(** encoding/json and go-querystring of commands. *)
Class Commands (Cmd : Type) := {
  json_Marshal : option Cmd -> string + error;
  query_Values : Cmd -> Values + error
}.

(** ** The client (rest_api_client.go) *)

Record RestApiClientBase := {
  BaseUrl : string; UserAgent : string; AccessToken : string; RefreshToken : string; CsrfToken : string
}.
Definition set_RefreshToken (token : string) (r : RestApiClientBase) : RestApiClientBase :=
  {| BaseUrl := BaseUrl r; UserAgent := UserAgent r; AccessToken := AccessToken r; RefreshToken := token; CsrfToken := CsrfToken r |}.
Definition Init_client (baseUrl userAgent : string) (r : RestApiClientBase) : RestApiClientBase :=
  {| BaseUrl := baseUrl; UserAgent := userAgent; AccessToken := AccessToken r; RefreshToken := RefreshToken r; CsrfToken := CsrfToken r |}.
Definition Url_ (path : string) (r : RestApiClientBase) : string := ConcatStrings [BaseUrl r; path].
Definition zero_client : RestApiClientBase := {| BaseUrl := ""; UserAgent := ""; AccessToken := ""; RefreshToken := ""; CsrfToken := "" |}.
Definition DefaultRestApiClient (baseUrl : string) (userAgent : list string) : RestApiClientBase :=
  Init_client baseUrl (OptionalArg "go-backend-helpers" userAgent) zero_client.

Abbreviation headers := (gmap string string).
Definition addTokens (hs : list headers) (r : RestApiClientBase) : headers :=
  let h := if decide (AccessToken r <> "") then {["x-auth-access-token" := AccessToken r]} else ∅ in
  let h := if decide (CsrfToken r <> "") then <["x-csrf" := CsrfToken r]> h else h in
  match hs with [] => h | h0 :: _ => AppendMap h h0 end.
Definition keep (new old : string) : string := if decide (new <> "") then new else old.
Definition updateTokens (resp : HttpResponse) (r : RestApiClientBase) : RestApiClientBase :=
  {| BaseUrl := BaseUrl r; UserAgent := UserAgent r;
     AccessToken := keep (Header_Get "x-auth-access-token" resp) (AccessToken r);
     RefreshToken := keep (Header_Get "x-auth-refresh-token" resp) (RefreshToken r);
     CsrfToken := keep (Header_Get "x-csrf" resp) (CsrfToken r) |}.

Definition MethodPut := "PUT".
Definition MethodPatch := "PATCH".
Definition MethodDelete := "DELETE".

(** How a computation ends without a result: a panic, or requests without end. *)
Inductive stop := Panic | Endless.

Section Client.
Context {P X Cmd : Type} `{Lc : !Lens X RestApiClientBase, Ej : !ErrorJson}.
Local Abbreviation act := (M (St P X)).
Definition call (A : Type) : Type := M (St P X) (A + stop).
Definition answer : Type := option HttpResponse * option error.
(** The function that sends: method, URL, command, headers. *)
Definition DoRequest : Type := string -> string -> option Cmd -> list headers -> call answer.

Definition panic {A} : call A := ret (inr Panic).
Definition ret_ {A} (a : A) : call A := ret (inl a).
Definition and_then {A B} (m : call A) (k : A -> call B) : call B :=
  let* r := m in match r with inr s => ret (inr s) | inl a => k a end.
Definition client_ : act RestApiClientBase := on (gets (fun r : RestApiClientBase => r)).

(** [err = fillResponseError(resp)] *)
Definition fillResponseError (resp : HttpResponse) : HttpResponse * option error :=
  match unmarshal_error (resp_Body resp) with
  | inl e => (SetError_ (Some e) resp, None)
  | inr err => (resp, Some err)
  end.

(** The object of the response is that of the caller: [parse] reads a body into it. *)
Definition sendRequest {R} (send : DoRequest) (method path : string) (cmd : option Cmd)
    (parse : option (string -> R -> R * option error)) (obj : R) (hs : list headers) : call (answer * R) :=
  traced "RestApiClientBase.sendRequest" (fun c =>
    let* r := client_ in
    let h := addTokens hs r in
    let h := if decide (UserAgent r <> "") then <["User-Agent" := UserAgent r]> h else h in
    and_then (send method (Url_ path r) cmd [h]) (fun '(resp, err) =>
      match err, resp with
      | Some err, _ => SetMessage c "failed to send request" ;; SetError c (Some err) ;; ret_ ((None, Some err), obj)
      | None, None => panic
      | None, Some resp =>
          on (modify (updateTokens resp)) ;;
          if (resp_Code resp <? StatusBadRequest_)%Z then
            match parse with
            | None => ret_ ((Some resp, None), obj)
            | Some parse =>
                if decide (resp_Body resp = "") then
                  let err := Some (Native "failed to parse empty response") in SetError c err ;; ret_ ((None, err), obj)
                else
                  let '(obj, err) := parse (resp_Body resp) obj in
                  match err with
                  | None => ret_ ((Some resp, None), obj)
                  | Some _ => let err := Some (Native "failed to parse response message") in SetError c err ;; ret_ ((None, err), obj)
                  end
            end
          else
            let '(resp, err) := fillResponseError resp in
            match err with
            | Some _ => SetMessage c "failed to parse response error" ;; SetError c err ;; ret_ ((Some resp, err), obj)
            | None => SetGenericError (ResponseGenericError (serverError resp)) [] ;; ret_ ((Some resp, None), obj)
            end
      end)).

(** The functions of the client that send with a body and with a query. *)
Variable SendWithBody SendWithQuery : DoRequest.

Section Requests.
Context {R : Type}.
Variable parse : option (string -> R -> R * option error).
Variable obj : R.
Definition RequestBody (method path : string) (cmd : option Cmd) (hs : list headers) : call (answer * R) :=
  sendRequest SendWithBody method path cmd parse obj hs.
Definition RequestQuery (method path : string) (cmd : option Cmd) (hs : list headers) : call (answer * R) :=
  sendRequest SendWithQuery method path cmd parse obj hs.
Definition Post := RequestBody MethodPost.
Definition Put := RequestBody MethodPut.
Definition Patch := RequestBody MethodPatch.
Definition Get := RequestQuery MethodGet.
Definition Delete := RequestQuery MethodDelete.
End Requests.

(** Requests without a command and without an object. *)
Definition post_nil (path : string) (hs : list headers) : call answer :=
  and_then (Post None tt path None hs) (fun r => ret_ r.1).
Definition get_nil (path : string) (hs : list headers) : call answer :=
  and_then (Get None tt path None hs) (fun r => ret_ r.1).

(** The variable [err] is recorded on exit, on panics too. *)
Definition traced_call {A} (name : string) (body : nat -> call (A * option error)) : call A :=
  traced_exit name (fun c => let* r := body c in match r with inr s => ret (inr s, None) | inl (a, err) => ret (inl a, err) end).

Definition Login (user password : string) `{!Digest, !StringCoding} : call answer :=
  traced_call "RestApiClientBase.Login" (fun c =>
    let path := "/auth/login" in
    let hs : headers := {["x-auth-login" := user]} in
    and_then (post_nil path [hs]) (fun '(resp, err) =>
      match err, resp with
      | Some err, _ => SetMessage c "failed to send first request" ;; ret_ ((None, Some err), Some err)
      | None, None => panic
      | None, Some resp =>
          match error_code resp with
          | None => panic
          | Some code =>
              if decide (code <> LoginHandler.ErrorCodeCredentialsRequired) then
                let err := Some (Native "unexpected error code") in ret_ ((Some resp, err), err)
              else
                let salt := Header_Get "x-auth-login-salt" resp in
                let phash := Phash_ password salt in
                and_then (post_nil path [<["x-auth-login-phash" := phash]> hs]) (fun '(resp, err) =>
                  match err, resp with
                  | Some err, _ => SetMessage c "failed to send second request" ;; ret_ ((None, Some err), Some err)
                  | None, None => panic
                  | None, Some resp =>
                      if decide (resp_Code resp <> StatusOK) then
                        match error_code resp with
                        | None => panic
                        | Some _ => let err := Some (Native "login failed") in ret_ ((Some resp, err), err)
                        end
                      else ret_ ((Some resp, None), None)
                  end)
          end
      end)).

Definition SendSmsConfirmation (send : DoRequest) (resp : HttpResponse) (code method path : string) (cmd : option Cmd) (hs : list headers) :
    call answer :=
  traced "RestApiClientBase.SendSmsConfirmation" (fun c =>
    let* r := client_ in
    let h := <["x-auth-sms-code" := code]> (addTokens hs r) in
    let token := Header_Get "x-auth-sms-token" resp in
    let h := if decide (token <> "") then <["x-auth-sms-token" := token]> h else h in
    and_then (sendRequest send method path cmd None tt [h]) (fun '((nextResp, err), _) =>
      match err with
      | Some _ => SetError c err ;; ret_ (None, err)
      | None => ret_ (nextResp, None)
      end)).

Definition Logout : call answer :=
  traced "RestApiClientBase.Logout" (fun c =>
    and_then (post_nil "/auth/logout" []) (fun '(resp, err) =>
      match err with Some _ => SetError c err ;; ret_ (None, err) | None => ret_ (resp, None) end)).

(** The answer must be OK. *)
Definition must_be_ok (c : nat) (a : answer) : call answer :=
  match a with
  | (_, Some err) => SetError c (Some err) ;; ret_ (None, Some err)
  | (None, None) => panic
  | (Some resp, None) =>
      if decide (resp_Code resp <> StatusOK) then
        match error_code resp with
        | None => panic
        | Some _ => ret_ (Some resp, Some (Native "failed to update CSRF"))
        end
      else ret_ (Some resp, None)
  end.
Definition UpdateCsrfToken : call answer :=
  traced "RestApiClientBase.UpdateCsrfToken" (fun c => and_then (get_nil "/status/check" []) (must_be_ok c)).
Definition RequestRefreshToken : call answer :=
  traced "RestApiClientBase.RequestRefreshToken" (fun c =>
    let* r := client_ in
    and_then (post_nil "/auth/refresh" [{["x-auth-refresh-token" := RefreshToken r]}]) (must_be_ok c)).
Definition UpdateTokens : call answer :=
  traced "RestApiClientBase.UpdateTokens" (fun c =>
    and_then UpdateCsrfToken (fun '(resp, err) =>
      match err with
      | Some _ => SetError c err ;; ret_ (resp, err)
      | None =>
          and_then RequestRefreshToken (fun '(resp, err) =>
            match err with Some _ => SetError c err ;; ret_ (resp, err) | None => ret_ (resp, None) end)
      end)).
Definition Prepare : call answer := UpdateCsrfToken.

(** ** Operations of an API (client.go) *)

Definition methods {R} (accessType : AccessType) :
    option ((option (string -> R -> R * option error)) -> R -> string -> option Cmd -> list headers -> call (answer * R)) :=
  if decide (accessType = HttpMethod2Access MethodPost) then Some Post
  else if decide (accessType = HttpMethod2Access MethodPut) then Some Put
  else if decide (accessType = HttpMethod2Access MethodPatch) then Some Patch
  else if decide (accessType = HttpMethod2Access MethodGet) then Some Get
  else if decide (accessType = HttpMethod2Access MethodDelete) then Some Delete
  else None.

Definition operation_path (h : Heap) (operation : OperationBase) (tenancyId : list string) : option string :=
  let r := default 0%nat (o_resource operation) in
  match tenancyId with
  | [] => Some (Resource.FullActualPath h r)
  | id :: _ => Resource.FullActualTenancyPath h r id
  end.

Definition Exec {R} (h : Heap) (operation : OperationBase) (cmd : option Cmd) (parse : option (string -> R -> R * option error))
    (obj : R) (tenancyId : list string) : call (option error * R) :=
  traced "Client.Exec" (fun c =>
    match methods (accessType operation) with
    | None =>
        let err := Some (NewFromMessage "access type not supported") in SetError c err ;; ret_ (err, obj)
    | Some method =>
        match operation_path h operation tenancyId with
        | None => panic
        | Some path =>
            and_then (method parse obj path cmd []) (fun '((resp, err), obj) =>
              match err, resp with
              | Some _, _ => SetMessage c "failed to invoke HTTP method" ;; SetError c err ;; ret_ (err, obj)
              | None, None => panic
              | None, Some resp =>
                  match ResponseGenericError (serverError resp) with
                  | Some e => SetMessage c "server returned error" ;; SetError c (Some e) ;; ret_ (Some e, obj)
                  | None => ret_ (None, obj)
                  end
              end)
        end
    end).

(** ** Handlers of operations (handler.go, handler_in_tenancy.go)

    A handler keeps a command and a result, of which either may be absent; one in a tenancy adds
    the tenancy of the context. *)
Section Handlers.
Context {R : Type}.
Record Handler := { h_Cmd : option Cmd; h_parse : option (string -> R -> R * option error); h_Result : R }.
Definition client_exec : Type := OperationBase -> option Cmd -> option (string -> R -> R * option error) -> R -> list string -> call (option error * R).
Definition exec_traced (name : string) (client : client_exec) (tenancyId : list string) (op : OperationBase) (h : Handler) :
    call (option error * R) :=
  traced name (fun c =>
    and_then (client op (h_Cmd h) (h_parse h) (h_Result h) tenancyId) (fun '(err, obj) => SetError c err ;; ret_ (err, obj))).
Definition Handler_Exec (client : client_exec) (op : OperationBase) (h : Handler) : call (option error * R) :=
  exec_traced "Handler.Exec" client [] op h.
Definition HandlerInTenancy_Exec (client : client_exec) (ContextTenancy : string) (op : OperationBase) (h : Handler) :
    call (option error * R) :=
  exec_traced "HandlerInTenancy.Exec" client [ContextTenancy] op h.
End Handlers.
End Client.
Arguments Handler : clear implicits.

(** ** Sending by HTTP (rest_api_client.go) *)

Section Send.
Context {P X Cmd : Type} `{Ln : !Lens X Network, Ht : !HttpTransport, Co : !Commands Cmd}.
Local Abbreviation act := (M (St P X)).
Local Abbreviation pcall := (call (P := P) (X := X)).

(** The error is recorded where it is returned and again on exit. *)
Definition send_native (c : nat) (n : NativeRequest) : act answer :=
  let* '(rawResp, err) := HttpRequest.SendRawRequest n in
  match rawResp, err with
  | Some rawResp, None => ret (Some (NewResponse rawResp), None)
  | _, _ => SetMessage c "failed to send request" ;; SetError c err ;; ret (None, err)
  end.

Definition DefaultSendWithBody (method url : string) (cmd : option Cmd) (hs : list headers) : act answer :=
  traced_exit "http_request.DefaultSendWithBody" (fun c =>
    let* a :=
      match json_Marshal cmd with
      | inr err => SetMessage c "failed to marshal message" ;; SetError c (Some err) ;; ret (None, Some err)
      | inl cmdByte =>
          match HttpRequest.http_NewRequest method url cmdByte with
          | inr err => SetMessage c "failed to create request" ;; SetError c (Some err) ;; ret (None, Some err)
          | inl req =>
              let req := Header_Set "Accept" "application/json" (Header_Set "Content-Type" "application/json" req) in
              send_native c (HttpRequest.HttpHeadersSet req hs)
          end
      end in
    ret (a, a.2)).

(** The error of the query is another variable [err], recorded once. *)
Definition DefaultSendWithQuery (method url : string) (cmd : option Cmd) (hs : list headers) : act answer :=
  traced_exit "http_request.DefaultSendWithQuery" (fun c =>
    match HttpRequest.http_NewRequest method url "" with
    | inr err => SetMessage c "failed to create request" ;; SetError c (Some err) ;; ret ((None, Some err), Some err)
    | inl req =>
        let send (req : NativeRequest) :=
          let req := Header_Set "Accept" "application/json" req in
          let* a := send_native c (HttpRequest.HttpHeadersSet req hs) in ret (a, a.2) in
        match cmd with
        | None => send req
        | Some cmd =>
            match query_Values cmd with
            | inr err => SetMessage c "failed to build query" ;; SetError c (Some err) ;; ret ((None, Some err), None)
            | inl v => send (set_RawQuery (Url.Encode v) req)
            end
        end
    end).

Definition sender (f : string -> string -> option Cmd -> list headers -> act answer) : DoRequest (P := P) (X := X) :=
  fun method url cmd hs => let* a := f method url cmd hs in ret (inl a).
Definition default_body := sender DefaultSendWithBody.
Definition default_query := sender DefaultSendWithQuery.

(** ** Clients that log in again (auto_reconnect.go) *)

Context `{Lc : !Lens X RestApiClientBase, Ej : !ErrorJson, Di : !Digest, Sc : !StringCoding}.

Record AutoReconnectHandlers := {
  GetRefreshToken : act string;
  SaveRefreshToken : string -> act unit;
  GetCredentials : act (string * string * option error)
}.

Section Reconnect.
Variable handlers : AutoReconnectHandlers.
(** The functions with which the client sends while a response is checked, and the check of the
    response of a request that is sent again. *)
Variable SendWithBody SendWithQuery : DoRequest (P := P) (X := X) (Cmd := Cmd).
Variable check_again : pcall answer -> answer -> pcall answer.

Definition resend (send : pcall answer) : pcall answer := and_then send (check_again send).

Definition check_body (send : pcall answer) (last : answer) : pcall answer :=
  traced "autoReconnect.checkResponse" (fun c =>
    let '(lastResp, lastErr) := last in
    match lastResp with
    | None => ret_ (None, lastErr)
    | Some resp =>
        match error_code resp with
        | None => panic
        | Some code =>
            if AuthCsrf.IsCsrfError code then
              and_then (UpdateCsrfToken SendWithQuery) (fun '(resp, err) =>
                if negb (IsResponseOK resp err) then ret_ (resp, err) else resend send)
            else
              let* r := client_ in
              if bool_decide (RefreshToken r = "") || ReloginRequired code || bool_decide (code = LoginHandler.ErrorCodeLoginFailed) then
                let* '(login, password, err) := GetCredentials handlers in
                match err with
                | Some _ => SetMessage c "failed to get credentials" ;; ret_ (Some resp, err)
                | None =>
                    and_then (UpdateCsrfToken SendWithQuery) (fun _ =>
                    and_then (Login SendWithBody login password) (fun '(resp, err) =>
                      match resp with
                      | None => SetMessage c "nil login response" ;; ret_ (None, err)
                      | Some _ =>
                          let* r := client_ in
                          SaveRefreshToken handlers (RefreshToken r) ;; resend send
                      end))
                end
              else if bool_decide (AccessToken r = "") || RefreshRequired code then
                and_then (RequestRefreshToken SendWithBody) (fun '(resp, err) =>
                  if negb (IsResponseOK resp err) then ret_ (resp, err)
                  else let* r := client_ in SaveRefreshToken handlers (RefreshToken r) ;; resend send)
              else ret_ (Some resp, lastErr)
        end
    end).
End Reconnect.

(** The check of a response sends requests whose responses are checked: the fuel bounds how deep. *)
Fixpoint checkResponse (fuel : nat) (handlers : AutoReconnectHandlers) (send : pcall answer) (last : answer) : pcall answer :=
  match fuel with
  | O => ret (inr Endless)
  | S n =>
      let checked (f : DoRequest (P := P) (X := X) (Cmd := Cmd)) : DoRequest := fun method url cmd hs =>
        and_then (f method url cmd hs) (checkResponse n handlers (f method url cmd hs)) in
      check_body handlers (checked default_body) (checked default_query) (checkResponse n handlers) send last
  end.

(** The functions of the client that [NewAutoReconnectRestApiClient] makes. *)
Definition sendWithBody (fuel : nat) (handlers : AutoReconnectHandlers) : DoRequest (P := P) (X := X) := fun method url cmd hs =>
  and_then (default_body method url cmd hs) (checkResponse fuel handlers (default_body method url cmd hs)).
Definition sendWithQuery (fuel : nat) (handlers : AutoReconnectHandlers) : DoRequest (P := P) (X := X) := fun method url cmd hs =>
  and_then (default_query method url cmd hs) (checkResponse fuel handlers (default_query method url cmd hs)).
(** The token that was saved. *)
Definition init_reconnect (handlers : AutoReconnectHandlers) : act unit :=
  let* token := GetRefreshToken handlers in
  if decide (token <> "") then on (modify (set_RefreshToken token)) else ret tt.
End Send.

(** ** Handlers of an application's own client (embedded_client_handlers.go) *)

Module EmbeddedClientHandlers.
Record t := { TOKEN_CACHE_KEY : string; LOGIN : string; PASSWORD : string }.
Record TokenKeeper := { Token : string }.
Definition InitDirect (login password tokenCacheKey : string) : t :=
  {| TOKEN_CACHE_KEY := tokenCacheKey; LOGIN := login; PASSWORD := password |}.

Section Methods.
Context {C : Type} `{Cs : StringCache C, Sc : StringCoding, Se : Serializer TokenKeeper}.
(** As it is: a token that is found without an error is not returned. *)
Definition GetRefreshToken (e : t) : M C string :=
  let* '(found, err, keeper) := SerializedObjectCache.Get (TOKEN_CACHE_KEY e) {| Token := "" |} in
  ret (if found && bool_decide (err <> None) then Token keeper else "").
(** An error of the cache is only logged. *)
Definition SaveRefreshToken (e : t) (token : string) : M C unit :=
  SerializedObjectCache.Set_ (TOKEN_CACHE_KEY e) {| Token := token |} [] ;; ret tt.
Definition GetCredentials (e : t) : string * string * option error := (LOGIN e, PASSWORD e, None).
End Methods.
End EmbeddedClientHandlers.
