(* ===== verification/ClientRequests.v ===== *)
(** * What a client does with one request

    The clients that send by HTTP: the request that leaves, what its response makes of the client's
    tokens and of the result of an operation ([Exec_outcome]); an error of a server reaches the caller
    with its code; what becomes of a client that is to log in again by itself. *)
From S2P Require Import Prelude GoTime Utils Common Errors OpContext Access Auth Crypt Http Users Cache AuthMethods AuthToken ApiResource Server RestClient.
Open Scope go_scope.

(** ** Requests and answers *)

Section Requests.
Context {P X Cmd : Type} `{Ln : !Lens X Network, Ht : !HttpTransport, Co : !Commands Cmd}.
Implicit Types (o : Op P) (x : X).

(** The requests [DefaultSendWithBody] and [DefaultSendWithQuery] make. *)
Definition body_request (method url : string) (cmd : option Cmd) (hs : list headers) : NativeRequest + error :=
  match json_Marshal cmd with
  | inr err => inr err
  | inl b =>
      match HttpRequest.http_NewRequest method url b with
      | inr err => inr err
      | inl n => inl (HttpRequest.HttpHeadersSet (Header_Set "Accept" "application/json" (Header_Set "Content-Type" "application/json" n)) hs)
      end
  end.
Definition query_request (method url : string) (cmd : option Cmd) (hs : list headers) : NativeRequest + error :=
  match HttpRequest.http_NewRequest method url "" with
  | inr err => inr err
  | inl n =>
      let ready (n : NativeRequest) := inl (HttpRequest.HttpHeadersSet (Header_Set "Accept" "application/json" n) hs) in
      match cmd with
      | None => ready n
      | Some cmd => match query_Values cmd with inr err => inr err | inl v => ready (set_RawQuery (Url.Encode v) n) end
      end
  end.

(** The answer to a request, and the network after it. *)
Definition deliver (req : NativeRequest + error) x : answer * X :=
  match req with
  | inr err => ((None, Some err), x)
  | inl n =>
      (match Do (sent (view x)) n with inr err => (None, Some err) | inl resp => (Some (NewResponse resp), None) end,
       HttpRequest.after_sending n x)
  end.

Lemma spec_send_native c n (Q : answer -> Op P -> X -> Prop) o x :
  Q (deliver (inl n) x).1 o (deliver (inl n) x).2 -> spec (send_native c n) Q o x.
Proof.
  intros HQ. unfold send_native, HttpRequest.SendRawRequest. spec_go. apply spec_on. unfold wp, HttpRequest.client_Do. cbn [fst snd].
  unfold deliver in HQ. cbn [fst snd] in HQ. destruct (Do _ _) as [resp|err]; by spec_go.
Qed.

Lemma spec_default_body method url cmd hs (Q : answer + stop -> Op P -> X -> Prop) o x :
  let d := deliver (body_request method url cmd hs) x in
  Q (inl d.1) o d.2 -> spec (default_body method url cmd hs) Q o x.
Proof.
  intros d HQ. unfold d, body_request in HQ. unfold default_body, sender, DefaultSendWithBody. spec_go.
  destruct (json_Marshal cmd) as [b|err]; [|by spec_go]. destruct (HttpRequest.http_NewRequest _ _ _) as [n|err]; [|by spec_go].
  apply spec_send_native. by spec_go.
Qed.

Lemma spec_default_query method url cmd hs (Q : answer + stop -> Op P -> X -> Prop) o x :
  let d := deliver (query_request method url cmd hs) x in
  Q (inl d.1) o d.2 -> spec (default_query method url cmd hs) Q o x.
Proof.
  intros d HQ. unfold d, query_request in HQ. unfold default_query, sender, DefaultSendWithQuery. spec_go.
  destruct (HttpRequest.http_NewRequest _ _ _) as [n|err]; [|by spec_go].
  destruct cmd as [cmd|]; [destruct (query_Values cmd) as [v|err]; [|by spec_go]|]; spec_go; apply spec_send_native; by spec_go.
Qed.

(** ** sendRequest *)

Context `{Lc : !Lens X RestApiClientBase, Ld : !Disjoint_lens X RestApiClientBase Network, Ej : !ErrorJson}.
Definition client_of x : RestApiClientBase := view x.

Lemma spec_and_then {A B} (m : call A) (k : A -> call B) (Q : B + stop -> Op P -> X -> Prop) o x :
  spec m (fun r o' x' => match r with inl a => spec (k a) Q o' x' | inr s => Q (inr s) o' x' end) o x ->
  spec (and_then m k) Q o x.
Proof.
  intros H. unfold and_then. apply spec_bind. eapply spec_mono; [|exact H]. intros [a|s] o' x' Hr; [exact Hr|by spec_go].
Qed.

(** The headers of a request. *)
Definition request_headers_of (hs : list headers) (r : RestApiClientBase) : headers :=
  let h := addTokens hs r in if decide (UserAgent r <> "") then <["User-Agent" := UserAgent r]> h else h.

(** What the client makes of a response, and the generic error it leaves. *)
Definition read_answer {R} (parse : option (string -> R -> R * option error)) (obj : R) (resp : HttpResponse) : answer * R :=
  if (resp_Code resp <? StatusBadRequest_)%Z then
    match parse with
    | None => ((Some resp, None), obj)
    | Some parse =>
        if decide (resp_Body resp = "") then ((None, Some (Native "failed to parse empty response")), obj)
        else match parse (resp_Body resp) obj with
             | (obj, None) => ((Some resp, None), obj)
             | (obj, Some _) => ((None, Some (Native "failed to parse response message")), obj)
             end
    end
  else match unmarshal_error (resp_Body resp) with
       | inl e => ((Some (SetError_ (Some e) resp), None), obj)
       | inr err => ((Some resp, Some err), obj)
       end.
Definition note_error (resp : HttpResponse) o : Op P :=
  if (resp_Code resp <? StatusBadRequest_)%Z then o
  else match unmarshal_error (resp_Body resp), genericError o with
       | inl e, None => set_genericError (ResponseGenericError (Some e)) o
       | _, _ => o
       end.

(** A function that sends one request and returns its answer. *)
Definition sends (send : DoRequest (P := P) (X := X)) (make : string -> string -> option Cmd -> list headers -> NativeRequest + error) : Prop :=
  forall method url cmd hs (Q : answer + stop -> Op P -> X -> Prop) o x,
    let d := deliver (make method url cmd hs) x in Q (inl d.1) o d.2 -> spec (send method url cmd hs) Q o x.

Lemma client_deliver req x : client_of (deliver req x).2 = client_of x.
Proof. destruct req as [n|err]; [|done]. cbn. unfold HttpRequest.after_sending, client_of. apply view_put_l. Qed.

Lemma spec_client_ (Q : RestApiClientBase -> Op P -> X -> Prop) o x : Q (client_of x) o x -> spec client_ Q o x.
Proof. intros HQ. apply spec_on. unfold wp, gets. cbn [fst snd]. by rewrite put_view. Qed.

Lemma spec_sendRequest {R} send make method path cmd parse (obj : R) hs (Q : answer * R + stop -> Op P -> X -> Prop) o x :
  sends send make ->
  (let d := deliver (make method (Url_ path (client_of x)) cmd [request_headers_of hs (client_of x)]) x in
   match d.1 with
   | (Some resp, None) =>
       Q (inl (read_answer parse obj resp)) (note_error resp o) (put (updateTokens resp (client_of x)) d.2)
   | (_, err) => Q (inl ((None, err), obj)) o d.2
   end) ->
  spec (sendRequest send method path cmd parse obj hs) Q o x.
Proof.
  intros Hs HQ. unfold sendRequest, ret_, panic. spec_go. apply spec_client_. apply spec_and_then, Hs. cbn zeta in HQ.
  pose proof (client_deliver (make method (Url_ path (client_of x)) cmd [request_headers_of hs (client_of x)]) x) as Hc.
  unfold request_headers_of in *. destruct (deliver _ x) as [[resp err] x'] eqn:Ed. cbn [fst snd] in *.
  destruct err as [err|]; [destruct resp; spec_go; exact HQ|].
  destruct resp as [resp|]; [|destruct (make _ _ _ _); cbn in Ed; [destruct (Do _ _)|]; simplify_eq].
  apply spec_bind, spec_on. unfold wp, modify. cbn [fst snd]. fold (client_of x'). rewrite Hc.
  unfold read_answer, note_error in HQ. cbn zeta. revert HQ. destruct (_ <? _)%Z.
  - destruct parse as [parse|]; [|intros HQ; by spec_go]. destruct (decide (resp_Body resp = "")); [intros HQ; by spec_go|].
    destruct (parse _ _) as [obj' [e|]]; intros HQ; by spec_go.
  - unfold fillResponseError. destruct (unmarshal_error _) as [e|err]; [|intros HQ; by spec_go]. intros HQ.
    apply spec_bind, spec_SetGenericError. cbn [serverError SetError_ OptionalArg]. spec_go.
    by destruct (genericError o).
Qed.

(** ** Operations *)

Lemma sends_body : sends default_body body_request.
Proof. intros m u c h Q o x. apply spec_default_body. Qed.
Lemma sends_query : sends default_query query_request.
Proof. intros m u c h Q o x. apply spec_default_query. Qed.

(** The method of an access, and how its command is sent. *)
Definition method_of (accessType : AccessType) : option (string * bool) :=
  if decide (accessType = Create) then Some (MethodPost, false)
  else if decide (accessType = UpdateReplace) then Some (MethodPut, false)
  else if decide (accessType = UpdatePartial) then Some (MethodPatch, false)
  else if decide (accessType = Read) then Some (MethodGet, true)
  else if decide (accessType = Access.Delete) then Some (MethodDelete, true)
  else None.
Definition operation_request (inQuery : bool) := if inQuery then query_request else body_request.

Lemma spec_method {R} accessType method inQuery parse (obj : R) path cmd hs (Q : answer * R + stop -> Op P -> X -> Prop) o x :
  method_of accessType = Some (method, inQuery) ->
  exists m, methods default_body default_query accessType = Some m /\
  (spec (sendRequest (if inQuery then default_query else default_body) method path cmd parse obj hs) Q o x ->
   spec (m parse obj path cmd hs) Q o x).
Proof.
  unfold method_of, methods. intros H.
  repeat (case_decide; [simplify_eq; rewrite decide_True by done; by eexists|rewrite decide_False by done]). done.
Qed.

(** The result of an operation from the answer. *)
Definition operation_error (a : answer) : option error :=
  match a with
  | (_, Some err) => Some err
  | (Some resp, None) => ResponseGenericError (serverError resp)
  | (None, None) => None
  end.

Lemma spec_Exec {R} h op cmd parse (obj : R) tenancyId method inQuery path (Q : option error * R + stop -> Op P -> X -> Prop) o x :
  method_of (accessType op) = Some (method, inQuery) -> operation_path h op tenancyId = Some path ->
  (let d := deliver (operation_request inQuery method (Url_ path (client_of x)) cmd [request_headers_of [] (client_of x)]) x in
   match d.1 with
   | (Some resp, None) =>
       let a := read_answer parse obj resp in
       Q (inl (operation_error a.1, a.2)) (note_error resp o) (put (updateTokens resp (client_of x)) d.2)
   | (_, err) => Q (inl (err, obj)) o d.2
   end) ->
  spec (Exec default_body default_query h op cmd parse obj tenancyId) Q o x.
Proof.
  intros Hm Hp HQ. unfold Exec, ret_, panic. apply spec_traced. intros c.
  edestruct (spec_method (R := R) (accessType op) method inQuery parse obj path cmd []) as (m & -> & Hspec); [done|].
  rewrite Hp. apply spec_and_then. apply Hspec. clear Hspec.
  apply (spec_sendRequest _ (operation_request inQuery)); [destruct inQuery; [apply sends_query|apply sends_body]|].
  cbn zeta in *. unfold deliver in *.
  destruct (operation_request _ _ _ _ _) as [n|err]; cbn [fst snd] in *; [|by spec_go].
  destruct (Do _ _) as [resp|err]; [|by spec_go].
  revert HQ. unfold read_answer, operation_error in *. destruct (_ <? _)%Z.
  - destruct parse as [parse|]; [|cbn; intros HQ; by spec_go].
    destruct (decide (resp_Body (NewResponse resp) = "")); [cbn; intros HQ; by spec_go|].
    destruct (parse _ _) as [obj' [e|]]; cbn; intros HQ; by spec_go.
  - destruct (unmarshal_error _) as [e|err]; cbn; intros HQ; by spec_go.
Qed.

(** The response of a server to a request with a generic error ([CloseRequest]). *)
Definition serves {P' X'} (srv : Server P' X') (gerr : error) (resp : Http.Response) : Prop :=
  let '(code, e) := MakeResponseError srv gerr in StatusCode resp = code /\ Body resp = marshal_error e.

(** What becomes of a request [req] of a client in the data [x], the context [o] and the object [obj]. *)
Definition outcome {R} (req : NativeRequest + error) (parse : option (string -> R -> R * option error)) (obj : R) o x
    (res : option error * R + stop) o' x' : Prop :=
  match req with
  | inr err => res = inl (Some err, obj) /\ x' = x
  | inl n =>
      sent (view x') = sent (view x) ++ [n] /\
      match Do (sent (view x)) n with
      | inr err => res = inl (Some err, obj) /\ client_of x' = client_of x
      | inl resp =>
          client_of x' = updateTokens (NewResponse resp) (client_of x) /\
          ((StatusCode resp < 400)%Z -> o' = o /\
             match parse with
             | None => res = inl (None, obj)
             | Some parse =>
                 exists err, res = inl (err, if decide (Body resp = "") then obj else (parse (Body resp) obj).1) /\
                   (err = None <-> Body resp <> "" /\ (parse (Body resp) obj).2 = None)
             end) /\
          (forall P' X' (srv : Server P' X') gerr, serves srv gerr resp -> (400 <= StatusCode resp)%Z ->
             exists err, res = inl (Some err, obj) /\
               Code (Some err) = Code (Some gerr) /\ Message (Some err) = Message (Some gerr) /\ Details (Some err) = Details (Some gerr) /\
               genericError o' = Some (default err (genericError o)))
      end
  end.

Lemma response_error_fields e err :
  ResponseGenericError (Some e) = Some err ->
  Code (Some err) = re_Code e /\ Message (Some err) = re_Message e /\ Details (Some err) = re_Details e.
Proof. cbn. by intros [= <-]. Qed.

Lemma outcome_answered {R} `{!ErrorJsonOk} n parse (obj : R) o x resp :
  Do (sent (view x)) n = inl resp ->
  let a := read_answer parse obj (NewResponse resp) in
  outcome (inl n) parse obj o x (inl (operation_error a.1, a.2)) (note_error (NewResponse resp) o)
    (put (updateTokens (NewResponse resp) (client_of x)) (HttpRequest.after_sending n x)).
Proof.
  intros Hd. unfold outcome. rewrite Hd, view_put_r. unfold HttpRequest.after_sending, client_of. rewrite !view_put.
  split; [done|]. split; [done|]. unfold read_answer, note_error, StatusBadRequest_, resp_Code, resp_Body. cbn [NewResponse Raw].
  destruct (StatusCode resp <? 400)%Z eqn:El; (split; [intros Hg|intros P' X' srv gerr Hsrv Hs]); try lia.
  - split; [done|]. destruct parse as [parse|]; [|done]. destruct (decide (Body resp = "")) as [Hb|Hb].
    { eexists. split; [done|]. cbn. naive_solver. }
    destruct (parse (Body resp) obj) as [obj' [e|]]; (eexists; split; [done|]); cbn; naive_solver.
  - unfold serves, MakeResponseError in Hsrv. destruct Hsrv as [_ ->]. rewrite unmarshal_marshal. cbn [fst snd operation_error serverError SetError_].
    eexists. split; [done|]. cbn. destruct (genericError o) eqn:Eg; by rewrite ?Eg.
Qed.

(** [C26] Operations of clients.  An operation sends one request, of the method of its access, to the
    path of its resource, with the tokens of the client; it fails as the sending does.  From any answer
    the client keeps the tokens.  A good answer is read into the object of the caller, and a text that
    cannot be read is an error.  An error a server of this library answers with is returned with its
    code, message and details, and is left in the context unless there is one. *)
Theorem Exec_outcome {R} `{!ErrorJsonOk} h op cmd parse (obj : R) tenancyId method inQuery path (s : St P X) :
  method_of (accessType op) = Some (method, inQuery) -> operation_path h op tenancyId = Some path ->
  let r := client_of (st_ext s) in
  let '(res, s') := Exec default_body default_query h op cmd parse obj tenancyId s in
  outcome (operation_request inQuery method (Url_ path r) cmd [request_headers_of [] r]) parse obj
    (st_op s) (st_ext s) res (st_op s') (st_ext s').
Proof.
  destruct s as [t o x]. cbn [st_op st_ext]. intros Hm Hp. set (r := client_of x).
  enough (HS : spec (Exec default_body default_query h op cmd parse obj tenancyId) (fun res o' x' =>
    outcome (operation_request inQuery method (Url_ path r) cmd [request_headers_of [] r]) parse obj o x res o' x') o x).
  { specialize (HS t). by destruct (Exec _ _ _ _ _ _ _ _ _) as [res [t' o' x']]. }
  eapply spec_Exec; [done..|]. fold r. destruct (operation_request _ _ _ _ _) as [n|err]; [|done].
  cbn [deliver fst snd]. destruct (Do (sent (view x)) n) as [resp|err] eqn:Ed; [by apply outcome_answered|].
  unfold outcome. rewrite Ed. unfold HttpRequest.after_sending, client_of. by rewrite view_put, view_put_l.
Qed.

(** ** Clients that log in again *)

Context `{Di : !Digest, Sc : !StringCoding}.

(** The response of a request that was just sent has no error in it, and its code is asked for: of
    what is sent, only what is not answered comes back. *)
Lemma reconnect_outcome fuel handlers method url cmd hs (s : St P X) :
  let d := deliver (body_request method url cmd hs) (st_ext s) in
  let '(res, s') := sendWithBody (S fuel) handlers method url cmd hs s in
  st_ext s' = d.2 /\ res = match d.1 with (Some _, _) => inr Panic | (None, err) => inl (None, err) end.
Proof.
  destruct s as [t o x]. cbn [st_ext]. set (d := deliver (body_request method url cmd hs) x).
  enough (HS : spec (sendWithBody (S fuel) handlers method url cmd hs) (fun res _ x' =>
    x' = d.2 /\ res = match d.1 with (Some _, _) => inr Panic | (None, err) => inl (None, err) end) o x).
  { specialize (HS t). by destruct (sendWithBody _ _ _ _ _ _ _) as [res [t' o' x']]. }
  unfold sendWithBody. apply spec_and_then, spec_default_body. fold d. cbn [checkResponse]. unfold check_body, ret_, panic. spec_go.
  assert (Hd : match d.1 with (Some resp, _) => error_code resp = None | _ => True end).
  { unfold d. destruct (body_request _ _ _ _) as [n|err]; cbn; [by destruct (Do _ _)|done]. }
  destruct d.1 as [[resp|] err]; [rewrite Hd|]; by spec_go.
Qed.
End Requests.

(** A token that is found in the cache is not returned. *)
Lemma GetRefreshToken_lost {C} `{StringCache C, StringCoding, Serializer EmbeddedClientHandlers.TokenKeeper} e (c : C) :
  (SerializedObjectCache.Get (EmbeddedClientHandlers.TOKEN_CACHE_KEY e) {| EmbeddedClientHandlers.Token := "" |} c).1.1.2 = None ->
  (EmbeddedClientHandlers.GetRefreshToken e c).1 = "".
Proof.
  unfold EmbeddedClientHandlers.GetRefreshToken, bind, ret. destruct (SerializedObjectCache.Get _ _ _) as [[[found err] keeper] c'].
  cbn. intros ->. rewrite bool_decide_eq_false_2 by naive_solver. by rewrite andb_false_r.
Qed.
