(* ===== verification/ClientLogin.v ===== *)
(** * A client logs in at a server

    [RestClient.Login] against a server whose answers are those of [LoginHandler.Handle]: the two
    requests, and that the client gets in exactly if its password is the one of the user. *)
From S2P Require Import Prelude GoTime Utils Common Errors OpContext Db Crud Access Auth Crypt Http Session Users Cache AuthWorld AuthMethods AuthToken ApiResource Server RestClient ClientRequests.
Open Scope go_scope.

(** ** Headers of requests *)

Lemma AppendMap_lookup {V} (m1 m2 : gmap string V) k : AppendMap m1 m2 !! k = match m2 !! k with Some v => Some v | None => m1 !! k end.
Proof.
  unfold AppendMap. revert k. apply (map_fold_weak_ind (fun acc m => forall k, acc !! k = match m !! k with Some v => Some v | None => m1 !! k end)).
  - done.
  - intros i v m acc Hi IH k. destruct (decide (i = k)) as [->|Hk]; [by rewrite !lookup_insert_eq|].
    by rewrite !lookup_insert_ne, IH.
Qed.

(** No other name of the headers has the canonical form of this one. *)
Definition alone (k : string) (names : list string) : bool :=
  forallb (fun k' => bool_decide (k' = k) || negb (bool_decide (CanonicalHeaderKey k' = CanonicalHeaderKey k))) names.

Lemma set_headers n (h : headers) k names :
  (forall k', is_Some (h !! k') -> k' ∈ names) -> alone k names = true ->
  rq_Header (HttpRequest.HttpHeadersSet n [h]) !! CanonicalHeaderKey k =
  match h !! k with Some v => Some [v] | None => rq_Header n !! CanonicalHeaderKey k end.
Proof.
  intros Hdom Ha. cbn [HttpRequest.HttpHeadersSet]. revert Hdom.
  apply (map_fold_weak_ind (fun acc m => (forall k', is_Some (m !! k') -> k' ∈ names) ->
    rq_Header acc !! CanonicalHeaderKey k = match m !! k with Some v => Some [v] | None => rq_Header n !! CanonicalHeaderKey k end)); [done|].
  intros i v m acc Hi IH Hdom. cbn [Header_Set rq_Header].
  assert (Hm : forall k', is_Some (m !! k') -> k' ∈ names).
  { intros k' [v' Hk']. apply Hdom. rewrite lookup_insert_ne by congruence. eauto. }
  destruct (decide (i = k)) as [->|Hk]; [by rewrite !lookup_insert_eq|].
  rewrite (lookup_insert_ne m) by done. rewrite <- IH by done. apply lookup_insert_ne.
  assert (Hn : i ∈ names) by (apply Hdom; rewrite lookup_insert_eq; eauto).
  unfold alone in Ha. rewrite forallb_forall in Ha. specialize (Ha i ltac:(by apply list_elem_of_In)).
  rewrite bool_decide_eq_false_2 in Ha by done. by apply negb_true_iff, bool_decide_eq_false in Ha.
Qed.

(** The names of the headers of a login. *)
Definition login_names : list string := ["x-auth-access-token"; "x-csrf"; "User-Agent"; "x-auth-login"; "x-auth-login-phash"].

Lemma request_headers_lookup h0 r k :
  k ∉ ["x-auth-access-token"; "x-csrf"; "User-Agent"] -> request_headers_of [h0] r !! k = h0 !! k.
Proof.
  rewrite !not_elem_of_cons. intros (Ha & Hc & Hu & _). unfold request_headers_of, addTokens.
  assert (forall h : headers, h !! k = None -> AppendMap h h0 !! k = h0 !! k) as Happ
    by (intros h Hh; rewrite AppendMap_lookup, Hh; by destruct (h0 !! k)).
  repeat case_decide; rewrite ?(lookup_insert_ne _ "User-Agent") by done; apply Happ;
    rewrite ?lookup_insert_ne, ?lookup_singleton_ne, ?lookup_empty by done; done.
Qed.

Lemma request_headers_dom h0 r k' :
  (forall k, is_Some (h0 !! k) -> k ∈ login_names) -> is_Some (request_headers_of [h0] r !! k') -> k' ∈ login_names.
Proof.
  intros Hh0 Hk. destruct (decide (k' ∈ ["x-auth-access-token"; "x-csrf"; "User-Agent"])) as [Hin|Hn].
  - unfold login_names. set_solver.
  - apply Hh0. by rewrite request_headers_lookup in Hk.
Qed.

(** A header as the server reads it. *)
Definition header_of (n : NativeRequest) (name : string) : string :=
  match rq_Header n !! CanonicalHeaderKey name with Some (v :: _) => v | _ => "" end.

(** ** The server *)

Section Server.
Context {P C : Type} `{Eu : !Engine UserBaseDB, Euo : !EngineOk UserBaseDB, Un : !Uniuri}.
Implicit Types (o : Op P) (x : AuthWorld C).
Definition login_of (c : AuthContext) : string := LoginHandler.parameter c LoginHandler.LoginName.
Definition phash_of (c : AuthContext) : string := LoginHandler.parameter c LoginHandler.PasswordHashName.
Definition SaltHeader : string := auth_header LoginHandler.LoginProtocol LoginHandler.SaltName.

(** A request for the login of a user that may log in. *)
Record for_user (validators : UserValidators) (row : UserBaseDB) o x : Prop := {
  fu_fresh : genericError o = None;
  fu_table : table_ok (rows (w_users x));
  fu_row : row ∈ rows (w_users x);
  fu_open : BLOCKED row = false;
  fu_login : login_of (w_ctx x) = LOGIN row;
  fu_valid : LOGIN row <> "" /\ ValidateLogin validators (LOGIN row) = None
}.

(** Without a hash the salt of the user is sent; with one it decides. *)
Lemma handle_login validators row o x :
  reads_never_fail (R := UserBaseDB) -> for_user validators row o x ->
  spec (LoginHandler.Handle validators) (fun _ o' x' =>
    if decide (phash_of (w_ctx x) = "") then
      genericError o' = Some (coded o LoginHandler.ErrorCodeCredentialsRequired) /\
      default "" (response_headers (w_ctx x') !! SaltHeader) = PASSWORD_SALT row /\ authUser (w_ctx x') = authUser (w_ctx x)
    else if decide (phash_of (w_ctx x) = PASSWORD_HASH row) then
      genericError o' = None /\ authUser (w_ctx x') = Some (auth_user row)
    else genericError o' = Some (coded o LoginHandler.ErrorCodeLoginFailed) /\ authUser (w_ctx x') = authUser (w_ctx x)) o x.
Proof.
  intros Hnf [Hg Ht Hin Hb Hl [Hne Hv]]. unfold LoginHandler.Handle. handler_go.
  fold (LoginHandler.parameter (w_ctx x) LoginHandler.PasswordHashName). fold (LoginHandler.parameter (w_ctx x) LoginHandler.LoginName).
  change (LoginHandler.parameter (w_ctx x) LoginHandler.LoginName) with (login_of (w_ctx x)).
  change (LoginHandler.parameter (w_ctx x) LoginHandler.PasswordHashName) with (phash_of (w_ctx x)).
  rewrite Hl, decide_False, Hv by done. handler_go.
  eapply spec_FindAuthUser_found; [done|exact Hin|done|intros r Hr E; by eapply LoginHandler.login_unique|].
  intros x1 Hc Hf _. cbn [fst snd IsBlocked Phash auth_user]. rewrite Hb. rewrite <- Hc.
  destruct (decide (phash_of (w_ctx x1) = "")) as [Hp|Hp].
  - rewrite decide_False by (intros H; by apply H). handler_go. cbn. split_and!.
    + unfold with_code. by rewrite Hg.
    + unfold set_header. case_decide as Es; [by rewrite lookup_delete_eq, Es|by rewrite lookup_insert_eq].
    + done.
  - rewrite decide_True by done. unfold CheckPasswordHash, HashEqual, hmac_Equal.
    destruct (decide (phash_of (w_ctx x1) = PASSWORD_HASH row)) as [He|He].
    + rewrite bool_decide_eq_true_2 by congruence. cbn [negb]. handler_go. done.
    + rewrite bool_decide_eq_false_2 by congruence. cbn [negb]. handler_go. split; [|done]. unfold with_code. by rewrite Hg.
Qed.
End Server.

(** ** The client *)

Section Login.
Context {P X Cmd : Type} `{Ln : !Lens X Network, Ht : !HttpTransport, Co : !Commands Cmd,
  Lc : !Lens X RestApiClientBase, Ld : !Disjoint_lens X RestApiClientBase Network, Ej : !ErrorJson, Eo : !ErrorJsonOk}.
Context {P' X' C : Type} `{Eu : !Engine UserBaseDB, Euo : !EngineOk UserBaseDB, Un : !Uniuri, Di : !Digest, Sc : !StringCoding}.
Implicit Types (o : Op P) (x : X).

Definition post_request (path : string) (hs : list headers) (r : RestApiClientBase) : NativeRequest + error :=
  body_request (Cmd := Cmd) MethodPost (Url_ path r) None [request_headers_of hs r].

Lemma spec_post_nil path hs (Q : answer + stop -> Op P -> X -> Prop) o x :
  (let d := deliver (post_request path hs (client_of x)) x in
   match d.1 with
   | (Some resp, None) =>
       Q (inl (read_answer None tt resp).1) (note_error resp o) (put (updateTokens resp (client_of x)) d.2)
   | (_, err) => Q (inl (None, err)) o d.2
   end) ->
  spec (post_nil (Cmd := Cmd) default_body path hs) Q o x.
Proof.
  intros HQ. unfold post_nil, Post, RequestBody, ret_. apply spec_and_then.
  apply (spec_sendRequest _ body_request); [apply sends_body|]. cbn zeta in *. fold (post_request path hs (client_of x)).
  destruct (deliver _ x) as [[resp err] x']. cbn [fst snd] in *. destruct resp; [destruct err|]; by spec_go.
Qed.

(** A server of the library that judges logins at [/auth/login]: [at_ n] is its state when it handles
    the request [n]; it answers what the login handler leaves. *)
Variable validators : UserValidators.
Variable srv : Server P' X'.
Variable at_ : NativeRequest -> St unit (AuthWorld C).
Definition handled (n : NativeRequest) := (LoginHandler.Handle validators (at_ n)).2.
Definition left_answer (n : NativeRequest) (resp : Http.Response) : Prop :=
  Header_Get SaltHeader (NewResponse resp) = default "" (response_headers (w_ctx (st_ext (handled n))) !! SaltHeader) /\
  match genericError (st_op (handled n)) with Some gerr => serves srv gerr resp | None => StatusCode resp = 200%Z end.

Record login_server (row : UserBaseDB) : Prop := {
  ls_reads : reads_never_fail (R := UserBaseDB);
  ls_user n : header_of n "x-auth-login" = LOGIN row -> for_user validators row (st_op (at_ n)) (st_ext (at_ n));
  ls_phash n : phash_of (w_ctx (st_ext (at_ n))) = header_of n "x-auth-login-phash";
  ls_codes code : (400 <= ErrorManagerBase.ErrorProtocolCode (errors srv) code)%Z;
  ls_answers before n : exists resp, Do before n = inl resp /\ left_answer n resp
}.

Lemma handled_spec row n : login_server row -> header_of n "x-auth-login" = LOGIN row ->
  let phash := header_of n "x-auth-login-phash" in
  if decide (phash = "") then
    exists gerr, genericError (st_op (handled n)) = Some gerr /\ Code (Some gerr) = LoginHandler.ErrorCodeCredentialsRequired /\
      default "" (response_headers (w_ctx (st_ext (handled n))) !! SaltHeader) = PASSWORD_SALT row
  else if decide (phash = PASSWORD_HASH row) then
    genericError (st_op (handled n)) = None /\ authUser (w_ctx (st_ext (handled n))) = Some (auth_user row)
  else exists gerr, genericError (st_op (handled n)) = Some gerr /\
    authUser (w_ctx (st_ext (handled n))) = authUser (w_ctx (st_ext (at_ n))).
Proof.
  intros Hls Hl. pose proof (ls_user _ Hls n Hl) as Hu. cbn zeta. rewrite <- (ls_phash _ Hls n). unfold handled.
  destruct (at_ n) as [t o x]. cbn [st_op st_ext] in *. pose proof (handle_login validators row o x (ls_reads _ Hls) Hu t) as H.
  destruct (LoginHandler.Handle _ _) as [res [t' o' x']]. cbn in H |- *. repeat case_decide; destruct_and? H; eauto.
Qed.

Lemma served_code gerr resp : serves srv gerr resp -> (forall code, (400 <= ErrorManagerBase.ErrorProtocolCode (errors srv) code)%Z) ->
  (resp_Code (NewResponse resp) <? StatusBadRequest_)%Z = false /\ resp_Code (NewResponse resp) <> StatusOK /\
  exists e, unmarshal_error (resp_Body (NewResponse resp)) = inl e /\ re_Code e = Code (Some gerr).
Proof.
  unfold serves, MakeResponseError. intros [Hc Hb] Hcodes. specialize (Hcodes (Code (Some gerr))).
  unfold resp_Code, resp_Body, NewResponse, StatusBadRequest_, StatusOK. cbn [Raw]. rewrite Hc, Hb, unmarshal_marshal.
  split; [lia|]. split; [lia|]. eauto.
Qed.

Hypothesis Hnew : forall method url, NewRequest_err method url = None.
Hypothesis Hnil : exists b, json_Marshal (None : option Cmd) = inl b.

Lemma post_request_headers path h0 r :
  (forall k, is_Some (h0 !! k) -> k ∈ ["x-auth-login"; "x-auth-login-phash"]) ->
  exists n, post_request path [h0] r = inl n /\
    forall k, k ∈ ["x-auth-login"; "x-auth-login-phash"] -> header_of n k = default "" (h0 !! k).
Proof.
  intros Hh0. unfold post_request, body_request, HttpRequest.http_NewRequest. destruct Hnil as [b ->]. rewrite Hnew.
  eexists. split; [done|]. intros k Hk. unfold header_of. rewrite (set_headers _ _ _ login_names).
  - rewrite request_headers_lookup by (revert Hk; set_solver). destruct (h0 !! k); [done|].
    revert Hk. rewrite !elem_of_cons, elem_of_nil. intros [-> | [-> | []]]; done.
  - intros k' Hk'. eapply request_headers_dom; [|exact Hk']. intros k0 H0. specialize (Hh0 _ H0). unfold login_names. set_solver.
  - revert Hk. rewrite !elem_of_cons, elem_of_nil. intros [-> | [-> | []]]; vm_compute; reflexivity.
Qed.

(** One step of a login: the request is answered. *)
Definition stepped (n : NativeRequest) (resp : Http.Response) x : X :=
  put (updateTokens (NewResponse resp) (client_of x)) (HttpRequest.after_sending n x).
Lemma stepped_client n resp x : client_of (stepped n resp x) = updateTokens (NewResponse resp) (client_of x).
Proof. apply view_put. Qed.
Lemma stepped_sent n resp x : sent (view (stepped n resp x)) = sent (view x) ++ [n].
Proof. unfold stepped. rewrite view_put_r. unfold HttpRequest.after_sending. by rewrite view_put. Qed.

Lemma spec_post_answered path hs n resp (Q : answer + stop -> Op P -> X -> Prop) o x :
  post_request path hs (client_of x) = inl n -> Do (sent (view x)) n = inl resp ->
  (forall o', Q (inl (read_answer None tt (NewResponse resp)).1) o' (stepped n resp x)) ->
  spec (post_nil (Cmd := Cmd) default_body path hs) Q o x.
Proof.
  intros Hn Hd HQ. apply spec_post_nil. rewrite Hn. cbn [deliver]. rewrite Hd. cbn [fst snd]. apply HQ.
Qed.

(** An error of the server, read by the client. *)
Lemma read_served gerr resp : serves srv gerr resp -> (forall code, (400 <= ErrorManagerBase.ErrorProtocolCode (errors srv) code)%Z) ->
  exists e, (read_answer None tt (NewResponse resp)).1 = (Some (SetError_ (Some e) (NewResponse resp)), None) /\
    re_Code e = Code (Some gerr) /\ resp_Code (NewResponse resp) <> StatusOK.
Proof.
  intros Hs Hc. destruct (served_code gerr resp Hs Hc) as (Hlt & Hok & e & He & Hcode). exists e.
  unfold read_answer. by rewrite Hlt, He.
Qed.

(** The first request is answered with the salt. *)
Lemma first_step row r before : login_server row ->
  exists n resp e, post_request "/auth/login" [{["x-auth-login" := LOGIN row]}] r = inl n /\ Do before n = inl resp /\
    header_of n "x-auth-login-phash" = "" /\
    (read_answer None tt (NewResponse resp)).1 = (Some (SetError_ (Some e) (NewResponse resp)), None) /\
    re_Code e = LoginHandler.ErrorCodeCredentialsRequired /\ Header_Get "x-auth-login-salt" (NewResponse resp) = PASSWORD_SALT row.
Proof.
  intros Hls. destruct (post_request_headers "/auth/login" {["x-auth-login" := LOGIN row]} r) as (n & Hn & Hh).
  { intros k [v Hk]. apply lookup_singleton_Some in Hk as [<- _]. set_solver. }
  pose proof (Hh "x-auth-login" ltac:(set_solver)) as Hl. pose proof (Hh "x-auth-login-phash" ltac:(set_solver)) as Hp.
  rewrite lookup_singleton_eq in Hl. rewrite lookup_singleton_ne in Hp by done. cbn in Hl, Hp.
  destruct (ls_answers _ Hls before n) as (resp & Hd & Hsalt & Hr).
  pose proof (handled_spec row n Hls Hl) as H. cbn zeta in H. rewrite Hp, decide_True in H by done.
  destruct H as (gerr & Hg & Hcode & Hs). rewrite Hg in Hr. rewrite Hs in Hsalt.
  destruct (read_served gerr resp Hr (ls_codes _ Hls)) as (e & Hread & He & _).
  exists n, resp, e. split_and!; try done. congruence.
Qed.

(** The second one with what the hash is worth. *)
Lemma second_step row phash r before : login_server row -> phash <> "" ->
  exists n resp, post_request "/auth/login" [<["x-auth-login-phash" := phash]> {["x-auth-login" := LOGIN row]}] r = inl n /\
    Do before n = inl resp /\ header_of n "x-auth-login-phash" = phash /\
    if decide (phash = PASSWORD_HASH row) then
      (read_answer None tt (NewResponse resp)).1 = (Some (NewResponse resp), None) /\ StatusCode resp = 200%Z /\
      authUser (w_ctx (st_ext (handled n))) = Some (auth_user row)
    else exists e, (read_answer None tt (NewResponse resp)).1 = (Some (SetError_ (Some e) (NewResponse resp)), None) /\
      StatusCode resp <> 200%Z /\ authUser (w_ctx (st_ext (handled n))) = authUser (w_ctx (st_ext (at_ n))).
Proof.
  intros Hls Hne. destruct (post_request_headers "/auth/login" (<["x-auth-login-phash" := phash]> {["x-auth-login" := LOGIN row]}) r) as (n & Hn & Hh).
  { intros k [v Hk]. apply lookup_insert_Some in Hk as [[<- _]|[_ Hk]]; [|apply lookup_singleton_Some in Hk as [<- _]]; set_solver. }
  pose proof (Hh "x-auth-login" ltac:(set_solver)) as Hl. pose proof (Hh "x-auth-login-phash" ltac:(set_solver)) as Hp.
  rewrite lookup_insert_ne, lookup_singleton_eq in Hl by done. rewrite lookup_insert_eq in Hp. cbn in Hl, Hp.
  destruct (ls_answers _ Hls before n) as (resp & Hd & _ & Hr).
  pose proof (handled_spec row n Hls Hl) as H. cbn zeta in H. rewrite Hp, decide_False in H by done.
  exists n, resp. split_and!; [done..|]. destruct (decide (phash = PASSWORD_HASH row)) as [Hph|Hph].
  - destruct H as [Hg Hu]. rewrite Hg in Hr. unfold read_answer, resp_Code, NewResponse. cbn [Raw]. by rewrite Hr.
  - destruct H as (gerr & Hg & Hu). rewrite Hg in Hr.
    destruct (read_served gerr resp Hr (ls_codes _ Hls)) as (e & Hread & _ & Hs). by exists e.
Qed.

(** What a login of the user with the hash [phash] gives, from [x] to [x'].  The two requests are
    determined by the login, the hash and the tokens of the client: their URL, body and headers are
    those of [post_request]. *)
Definition login_result (row : UserBaseDB) (phash : string) x (res : answer + stop) x' : Prop :=
  exists n1 n2 resp1 resp2,
    sent (view x') = sent (view x) ++ [n1; n2] /\
    post_request "/auth/login" [{["x-auth-login" := LOGIN row]}] (client_of x) = inl n1 /\
    post_request "/auth/login" [<["x-auth-login-phash" := phash]> {["x-auth-login" := LOGIN row]}]
      (updateTokens (NewResponse resp1) (client_of x)) = inl n2 /\
    header_of n1 "x-auth-login-phash" = "" /\ header_of n2 "x-auth-login-phash" = phash /\
    client_of x' = updateTokens (NewResponse resp2) (updateTokens (NewResponse resp1) (client_of x)) /\
    if decide (phash = PASSWORD_HASH row) then
      res = inl (Some (NewResponse resp2), None) /\ authUser (w_ctx (st_ext (handled n2))) = Some (auth_user row)
    else
      (exists resp, res = inl (Some resp, Some (Native "login failed"))) /\
      authUser (w_ctx (st_ext (handled n2))) = authUser (w_ctx (st_ext (at_ n2))).

(** [C25] Clients and servers agree on passwords.  A client that logs in as a user, at a server whose
    answers are those of the login handler, sends two requests: the first is answered with the salt of
    the user, the second carries the hash of the password with this salt.  Both requests are exactly
    the posts with the login, the hash and the tokens of the client in their headers and no command in
    their body: nothing else of the password is sent.  If this is the hash of the user, the login
    succeeds, the server has authenticated this user, and the client keeps the tokens of both answers;
    otherwise the login fails and nobody is authenticated. *)
Theorem client_server_login (row : UserBaseDB) (password : string) (s : St P X) :
  login_server row -> Phash_ password (PASSWORD_SALT row) <> "" ->
  let '(res, s') := Login (Cmd := Cmd) default_body (LOGIN row) password s in
  login_result row (Phash_ password (PASSWORD_SALT row)) (st_ext s) res (st_ext s').
Proof.
  destruct s as [t o x]. cbn [st_ext]. intros Hls Hne. set (phash := Phash_ password (PASSWORD_SALT row)).
  enough (HS : spec (Login (Cmd := Cmd) default_body (LOGIN row) password) (fun res _ x' => login_result row phash x res x') o x).
  { specialize (HS t). by destruct (Login _ _ _ _) as [res [t' o' x']]. }
  unfold Login, traced_call, ret_, panic. spec_go.
  destruct (first_step row (client_of x) (sent (view x)) Hls) as (n1 & resp1 & e1 & Hn1 & Hd1 & Hp1 & Hr1 & He1 & Hs1).
  apply spec_and_then. eapply spec_post_answered; [exact Hn1|exact Hd1|]. intros o1. rewrite Hr1.
  change (error_code (SetError_ (Some e1) (NewResponse resp1))) with (Some (re_Code e1)). cbn iota.
  rewrite decide_False by (rewrite He1; naive_solver).
  change (Header_Get "x-auth-login-salt" (SetError_ (Some e1) (NewResponse resp1))) with (Header_Get "x-auth-login-salt" (NewResponse resp1)).
  rewrite Hs1. fold phash.
  destruct (second_step row phash (client_of (stepped n1 resp1 x)) (sent (view (stepped n1 resp1 x))) Hls Hne) as (n2 & resp2 & Hn2 & Hd2 & Hp2 & Hr2).
  apply spec_and_then. eapply spec_post_answered; [exact Hn2|exact Hd2|]. intros o2.
  assert (Hfin : forall res, (if decide (phash = PASSWORD_HASH row) then
      res = inl (Some (NewResponse resp2), None) /\ authUser (w_ctx (st_ext (handled n2))) = Some (auth_user row)
    else (exists resp, res = inl (Some resp, Some (Native "login failed"))) /\
      authUser (w_ctx (st_ext (handled n2))) = authUser (w_ctx (st_ext (at_ n2)))) ->
    login_result row phash x res (stepped n2 resp2 (stepped n1 resp1 x))).
  { rewrite stepped_client in Hn2. intros res Hres. exists n1, n2, resp1, resp2. rewrite stepped_sent, stepped_sent, stepped_client, stepped_client, <- app_assoc. by split_and!. }
  destruct (decide (phash = PASSWORD_HASH row)) as [Hph|Hph].
  - destruct Hr2 as (-> & Hok & Hu). cbn iota. rewrite decide_False by (unfold resp_Code; cbn; naive_solver). spec_go. by apply Hfin.
  - destruct Hr2 as (e2 & -> & Hok & Hu). cbn iota. rewrite decide_True by done. cbn [error_code SetError_ serverError fmap option_fmap option_map]. spec_go. apply Hfin. eauto.
Qed.
End Login.
