(* ===== verification/ClientDemo.v ===== *)
(** * A client and a server

    A client that sends its requests to a server with one user: the theorems of ClientRequests and
    ClientLogin applied, a login with the password and one with another; what a client that is to log
    in again by itself does with an answer. *)
From S2P Require Import Prelude GoTime Utils Common Errors OpContext Db Crud Access Auth Crypt AuthParams Http Session Users Cache AuthWorld AuthMethods AuthToken AuthDemo.
From S2P Require Import ApiResource Server ServerDemo RestClient ClientRequests ClientLogin.
Open Scope go_scope.

Module ClientDemo.
Import AuthDemo.
#[export] Existing Instances fst_lens snd_lens pair_disjoint.
Definition World : Type := RestApiClientBase * Network.

#[export] Instance error_json : ErrorJson := {|
  marshal_error e := texts [re_Code e; re_Message e; re_Details e];
  unmarshal_error s := match untexts 3 s with
                       | [c; m; d] => inl {| re_Code := c; re_Message := m; re_Details := d |}
                       | _ => inr (Native "unexpected end of JSON input")
                       end
|}.
#[export] Instance error_json_ok : ErrorJsonOk.
Proof.
  intros [c m d]. unfold unmarshal_error, marshal_error, error_json. cbn [re_Code re_Message re_Details].
  change 3%nat with (length [c; m; d]). by rewrite untexts_texts.
Qed.
#[export] Instance commands : Commands string := {|
  json_Marshal c := inl (default "null" c); query_Values c := inl {["q" := [c]]}
|}.

(** The server handles each request in a state of its own, with one user. *)
Definition at_ (n : NativeRequest) : St unit (AuthWorld MapCache) :=
  login_request (list_to_map [("x-auth-login", header_of n "x-auth-login"); ("x-auth-login-phash", header_of n "x-auth-login-phash")]).
Definition answer_to (n : NativeRequest) : Http.Response :=
  let s := handled UsersDemo.validators at_ n in
  let hs := {[CanonicalHeaderKey SaltHeader := [default "" (response_headers (w_ctx (st_ext s)) !! SaltHeader)]]} in
  match genericError (st_op s) with
  | Some gerr =>
      let r := MakeResponseError ServerDemo.server gerr in {| StatusCode := r.1; rp_Header := hs; Body := marshal_error r.2 |}
  | None => {| StatusCode := 200; rp_Header := hs; Body := "{}" |}
  end.
#[export] Instance transport : HttpTransport := {| NewRequest_err _ _ := None; Do _ n := inl (answer_to n) |}.

Definition client : RestApiClientBase := DefaultRestApiClient "https://api.example.com" [].
Definition start : St unit World := Build_St trace0 op (client, {| sent := [] |}).
Definition log_in (password : string) := Login (Cmd := string) default_body (LOGIN user) password start.

(** The operation of the server's status service that checks the access. *)
Definition check_op : OperationBase := op_node (operations_ ServerDemo.api) 0.
Definition check_path : string := default "" (operation_path (resources ServerDemo.api) check_op []).
Definition check := Exec default_body default_query (R := string) (resources ServerDemo.api) check_op (Some "x") None "" [] start.

(** Handlers of a client that logs in again by itself. *)
Definition again : AutoReconnectHandlers (P := unit) (X := World) :=
  {| GetRefreshToken := ret ""; SaveRefreshToken _ := ret tt; GetCredentials := ret (LOGIN user, "password1", None) |}.
End ClientDemo.

Section Witnesses.
Import AuthDemo ClientDemo.

Lemma demo_codes code : (400 <= ErrorManagerBase.ErrorProtocolCode (errors ServerDemo.server) code)%Z.
Proof.
  unfold ErrorManagerBase.ErrorProtocolCode.
  assert (map_Forall (fun _ z => (400 <= z)%Z) (ErrorManagerBase.protocolCodes (errors ServerDemo.server))) as Hall
    by (apply (bool_decide_unpack _); vm_compute; exact I).
  destruct (_ !! code) eqn:E; cbn [default]; [by apply (Hall code)|]. vm_compute. discriminate.
Qed.

Lemma demo_server : login_server UsersDemo.validators ServerDemo.server at_ user.
Proof.
  split.
  - apply users_never_fail.
  - intros n Hn. split; [done|apply users_ok|by apply list_elem_of_singleton|done| |].
    + unfold login_of, LoginHandler.parameter. cbn -[header_of user]. by rewrite <- Hn.
    + split; [done|]. vm_compute. reflexivity.
  - intros n. done.
  - apply demo_codes.
  - intros before n. exists (answer_to n). split; [done|]. unfold left_answer, answer_to.
    destruct (genericError _) as [gerr|] eqn:E.
    + split; [|done]. unfold Header_Get, NewResponse. cbn [Raw rp_Header]. by rewrite lookup_singleton_eq.
    + split; [|done]. unfold Header_Get, NewResponse. cbn [Raw rp_Header]. by rewrite lookup_singleton_eq.
Qed.

Lemma client_server_login_witness :
  let r := log_in "password1" in
  login_result UsersDemo.validators at_ user (Phash_ "password1" (PASSWORD_SALT user)) (st_ext start) r.1 (st_ext r.2).
Proof.
  pose proof (client_server_login (Cmd := string) UsersDemo.validators ServerDemo.server at_ ltac:(done) ltac:(by eexists)
    user "password1" start demo_server ltac:(vm_compute; discriminate)) as H.
  apply run_pair in H. exact H.
Defined.

(** The password of the user, and another one. *)
Example logged_in_at_server : match (log_in "password1").1 with inl (Some resp, None) => resp_Code resp = 200%Z | _ => False end.
Proof. vm_compute. reflexivity. Qed.
Example not_logged_in : match (log_in "password2").1 with inl (_, err) => err = Some (Native "login failed") | _ => False end.
Proof. vm_compute. reflexivity. Qed.

Lemma Exec_outcome_witness :
  outcome (query_request MethodGet ("https://api.example.com" +:+ check_path) (Some "x") [request_headers_of [] client]) None ""
    (st_op start) (st_ext start) check.1 (st_op check.2) (st_ext check.2) /\ check_path <> "".
Proof.
  split; [|vm_compute; discriminate].
  pose proof (Exec_outcome (Cmd := string) (R := string) (resources ServerDemo.api) check_op (Some "x") None "" [] MethodGet true check_path start
    ltac:(vm_compute; reflexivity) ltac:(vm_compute; reflexivity)) as H.
  apply run_pair in H. exact H.
Defined.

(** Any answer makes a client that is to log in again panic. *)
Example reconnect_panic : (sendWithQuery 3 again "GET" "https://api.example.com/status" (None : option string) [] start).1 = inr Panic.
Proof. vm_compute. reflexivity. Qed.
End Witnesses.
