(* ===== verification/PoolClient.v ===== *)
(** * pkg/pool/pool_api/pool_client: the client of the service of pools

    The client has the operations of the pool controller: each makes a resource with the path of
    its request and lets the API client execute one operation on it.  By name, the object is
    looked for first with a filter; its ID is in the path of the second request. *)
From S2P Require Import Prelude GoTime Utils Common Errors OpContext Db Crypt Http PoolData Pool Access Auth ApiResource ApiReach Server RestClient ApiRequest PoolService.
Open Scope go_scope.

(** The commands of the client. *)
Inductive PoolCmd :=
| CmdPool (p : PoolBase) | CmdService (s : PoolServiceBase) | CmdAssociation (c : PoolServiceAssociationCmd)
| CmdUpdate (c : UpdateCmd) | CmdQuery (q : DbQuery).

(** Bodies of responses read into their structs: the pool and the service are pointers, nil
    until something is read. *)
Record PoolReaders := {
  read_pool : string -> option PoolBase -> option PoolBase * option error;
  read_service : string -> option PoolServiceBase -> option PoolServiceBase * option error;
  read_pools : string -> list PoolBase * Z -> (list PoolBase * Z) * option error;
  read_services : string -> list PoolServiceBase * Z -> (list PoolServiceBase * Z) * option error;
  read_bindings : string -> list PoolServiceBinding -> list PoolServiceBinding * option error
}.

Definition poolIdType := "pool".
Definition serviceIdType := "service".

Record PoolClient := {
  pc_service : ref;
  pc_PoolsResource : option ref; pc_PoolResource : ref; pc_ServicesResource : option ref; pc_ServiceResource : ref;
  add_pool : ref; add_service : ref; list_pools : ref; list_services : ref
}.

Definition NewPoolClient : M Api PoolClient :=
  let* '(serviceName, pools, pool) := Resource.PrepareCollectionAndNameResource poolIdType in
  let* c := zoom (Resource.NewResource serviceName [set_cfg_Service true no_config]) in
  zoom (modify (Resource.AddChild c (default 0 pools) [])) ;;
  let* '(_, services, service) := Resource.PrepareCollectionAndNameResource serviceIdType in
  zoom (modify (Resource.AddChild c (default 0 services) [])) ;;
  let* addPool := Resource.Add_ "add_pool" in
  let* listPools := Resource.List_ "list_pools" in
  Resource.AddOperations (default 0 pools) [addPool; listPools] ;;
  let* addService := Resource.Add_ "add_service" in
  let* listServices := Resource.List_ "list_services" in
  Resource.AddOperations (default 0 services) [addService; listServices] ;;
  ret {| pc_service := c; pc_PoolsResource := pools; pc_PoolResource := pool; pc_ServicesResource := services;
         pc_ServiceResource := service; add_pool := addPool; add_service := addService; list_pools := listPools;
         list_services := listServices |}.

Section Resources.
Variable p : PoolClient.
Definition namedPoolResource (poolId : string) : M Api ref :=
  let* r := Resource.CloneChain false (pc_PoolResource p) in zoom (modify (Resource.SetId r poolId [])) ;; ret r.
Definition namedServiceResource (serviceId : string) : M Api ref :=
  let* r := Resource.CloneChain false (pc_ServiceResource p) in zoom (modify (Resource.SetId r serviceId [])) ;; ret r.
Definition resourceForPoolServices (poolId : string) : M Api ref :=
  let* poolResource := namedPoolResource poolId in
  let* servicesResource := zoom (Resource.NewResource serviceIdType []) in
  zoom (modify (Resource.AddChild poolResource servicesResource [])) ;;
  ret servicesResource.
Definition resourceForServicePools (serviceId : string) : M Api ref :=
  let* serviceResource := namedServiceResource serviceId in
  let* poolsResource := zoom (Resource.NewResource poolIdType []) in
  zoom (modify (Resource.AddChild serviceResource poolsResource [])) ;;
  ret poolsResource.
(** [op] made, and added to a resource. *)
Definition operation_on (resource : M Api ref) (operation : M Api ref) : M Api ref :=
  let* r := resource in let* op := operation in Resource.AddOperation r op [] ;; ret op.
End Resources.

Section Client.
Context {P X : Type} `{La : !Lens X Api}.
Local Abbreviation pcall := (call (P := P) (X := X)).
(** [api_client.Client], which looks at the resources, and the readers of responses. *)
Variable client : forall R, Heap -> client_exec (P := P) (X := X) (Cmd := PoolCmd) (R := R).
Variable rd : PoolReaders.
Variable ToQueryString : Filter -> string.
Variable p : PoolClient.

(** [op.Exec(ctx, api_client.MakeOperationHandler(p.Client(), handler))] of a handler of the name. *)
Definition op_Exec {R} (name : string) (op : ref) (cmd : option PoolCmd) (parse : option (string -> R -> R * option error)) (obj : R) :
    pcall (option error * R) :=
  traced "Operation.Exec" (fun c =>
    let* w := api in
    and_then (exec_traced (name +:+ ".Exec") (client R (resources w)) [] (op_node (operations_ w) op)
                {| h_Cmd := cmd; h_parse := parse; h_Result := obj |})
      (fun '(err, obj) => SetError c err ;; ret_ (err, obj))).
Definition exec_failed {A} (c : nat) (nothing : A) (err : option error) : pcall ((A * option error) * option error) :=
  SetMessage c "failed to exec operation" ;; ret_ ((nothing, err), err).
(** An operation without a result. *)
Definition exec_plain (c : nat) (name : string) (op : ref) (cmd : option PoolCmd) : pcall (option error * option error) :=
  and_then (op_Exec name op cmd None tt) (fun '(err, _) =>
    match err with
    | Some _ => SetMessage c "failed to exec operation" ;; ret_ (err, err)
    | None => ret_ (None, None)
    end).
Definition made {A} (m : M Api A) : pcall A := let* a := on m in ret_ a.

(** ** Lists, and objects by their names *)

Definition GetPools (filter : option Filter) : pcall (list PoolBase * Z * option error) :=
  traced_call "PoolClient.GetPools" (fun c =>
    let cmd := NewDbQuery ToQueryString filter in
    and_then (op_Exec "ListPools" (list_pools p) (Some (CmdQuery cmd)) (Some (read_pools rd)) ([], 0%Z)) (fun '(err, result) =>
      match err with Some _ => exec_failed c ([], 0%Z) err | None => ret_ ((result.1, result.2, None), None) end)).
Definition GetServices (filter : option Filter) : pcall (list PoolServiceBase * Z * option error) :=
  traced_call "PoolClient.GetServices" (fun c =>
    let cmd := NewDbQuery ToQueryString filter in
    and_then (op_Exec "ListServices" (list_services p) (Some (CmdQuery cmd)) (Some (read_services rd)) ([], 0%Z)) (fun '(err, result) =>
      match err with Some _ => exec_failed c ([], 0%Z) err | None => ret_ ((result.1, result.2, None), None) end)).

Definition by_name (name : string) : Filter := Filter.AddField "name" (VStr name) NewFilter.
(** The ID, and the pool if it was looked for by its name. *)
Definition poolId (id : string) (idIsName : list bool) : pcall (string * option PoolBase * option error) :=
  traced "PoolClient.serviceId" (fun c =>
    if negb (OptionalArg false idIsName) then ret_ (id, None, None)
    else
      and_then (GetPools (Some (by_name id))) (fun '(pools, _, err) =>
        match err, pools with
        | Some _, _ => SetError c err ;; ret_ ("", None, err)
        | None, [] =>
            SetGenericErrorCode ErrorCodePoolNotFound [] ;;
            let* err := SetError c (Some (Native "pool not found")) in ret_ ("", None, err)
        | None, pool :: _ => ret_ (Db.GetID pool, Some pool, None)
        end)).
Definition serviceId (id : string) (idIsName : list bool) : pcall (string * option PoolServiceBase * option error) :=
  traced "PoolClient.serviceId" (fun c =>
    if negb (OptionalArg false idIsName) then ret_ (id, None, None)
    else
      and_then (GetServices (Some (by_name id))) (fun '(services, _, err) =>
        match err, services with
        | Some _, _ => SetError c err ;; ret_ ("", None, err)
        | None, [] =>
            SetGenericErrorCode ErrorCodeServiceNotFound [] ;;
            let* err := SetError c (Some (Native "service not found")) in ret_ ("", None, err)
        | None, service :: _ => ret_ (Db.GetID service, Some service, None)
        end)).

(** ** Pools and services

    A found object is a pointer in an interface: nil and no error is possible inside. *)

Definition AddPool (pool : PoolBase) : pcall (option (option PoolBase) * option error) :=
  traced_call "PoolClient.AddPool" (fun c =>
    and_then (op_Exec "AddPool" (add_pool p) (Some (CmdPool pool)) (Some (read_pool rd)) None) (fun '(err, result) =>
      match err with Some _ => exec_failed c None err | None => ret_ ((Some result, None), None) end)).
Definition AddService (service : PoolServiceBase) : pcall (option (option PoolServiceBase) * option error) :=
  traced_call "PoolClient.AddService" (fun c =>
    and_then (op_Exec "AddService" (add_service p) (Some (CmdService service)) (Some (read_service rd)) None) (fun '(err, result) =>
      match err with Some _ => exec_failed c None err | None => ret_ ((Some result, None), None) end)).

Definition FindPool (id : string) (idIsName : list bool) : pcall (option (option PoolBase) * option error) :=
  traced_call "PoolClient.FindPool" (fun c =>
    and_then (poolId id idIsName) (fun '(pId, pool, err) =>
      match err, pool with
      | Some _, _ => ret_ ((None, err), err)
      | None, Some pool => ret_ ((Some (Some pool), None), None)
      | None, None =>
          and_then (made (let* op := Resource.Find_ "find_pool" in Resource.NamedResourceOperation (pc_PoolResource p) pId op)) (fun op =>
          and_then (op_Exec "FindPool" op None (Some (read_pool rd)) None) (fun '(err, result) =>
            match err with Some _ => exec_failed c None err | None => ret_ ((Some result, None), None) end))
      end)).
Definition FindService (id : string) (idIsName : list bool) : pcall (option (option PoolServiceBase) * option error) :=
  traced_call "PoolClient.FindService" (fun c =>
    and_then (serviceId id idIsName) (fun '(sId, service, err) =>
      match err, service with
      | Some _, _ => ret_ ((None, err), err)
      | None, Some service => ret_ ((Some (Some service), None), None)
      | None, None =>
          and_then (made (let* op := Resource.Find_ "find_service" in Resource.NamedResourceOperation (pc_ServiceResource p) sId op)) (fun op =>
          and_then (op_Exec "FindService" op None (Some (read_service rd)) None) (fun '(err, result) =>
            match err with Some _ => exec_failed c None err | None => ret_ ((Some result, None), None) end))
      end)).

(** The branch of an object not found by its name is kept, though [poolId] and [serviceId] give
    an error then. *)
Definition UpdatePool (id : string) (fields : Fields) (idIsName : list bool) : pcall (option (option PoolBase) * option error) :=
  traced_call "PoolClient.UpdatePool" (fun c =>
    and_then (poolId id idIsName) (fun '(pId, po, err) =>
      match err with
      | Some _ => ret_ ((None, err), err)
      | None =>
          if OptionalArg false idIsName && bool_decide (po = None) then
            SetGenericErrorCode ErrorCodePoolNotFound [] ;;
            ret_ ((None, Some (Native "pool not found by name")), None)
          else
            and_then (made (let* op := Resource.UpdatePartial_ "update_pool" in Resource.NamedResourceOperation (pc_PoolResource p) pId op)) (fun op =>
            and_then (op_Exec "UpdatePool" op (Some (CmdUpdate {| cmd_Fields := fields |})) (Some (read_pool rd)) None) (fun '(err, result) =>
              match err with Some _ => exec_failed c None err | None => ret_ ((Some result, None), None) end))
      end)).
Definition UpdateService (id : string) (fields : Fields) (idIsName : list bool) : pcall (option (option PoolServiceBase) * option error) :=
  traced_call "PoolClient.UpdateService" (fun c =>
    and_then (serviceId id idIsName) (fun '(sId, service, err) =>
      match err with
      | Some _ => ret_ ((None, err), err)
      | None =>
          if OptionalArg false idIsName && bool_decide (service = None) then
            SetGenericErrorCode ErrorCodeServiceNotFound [] ;;
            ret_ ((None, Some (Native "service not found by name")), None)
          else
            and_then (made (let* op := Resource.UpdatePartial_ "update_service" in Resource.NamedResourceOperation (pc_ServiceResource p) sId op)) (fun op =>
            and_then (op_Exec "UpdateService" op (Some (CmdUpdate {| cmd_Fields := fields |})) (Some (read_service rd)) None) (fun '(err, result) =>
              match err with Some _ => exec_failed c None err | None => ret_ ((Some result, None), None) end))
      end)).

Definition DeletePool (id : string) (idIsName : list bool) : pcall (option error) :=
  traced_call "PoolClient.DeletePool" (fun c =>
    and_then (poolId id idIsName) (fun '(pId, pool, err) =>
      match err with
      | Some _ => ret_ (err, err)
      | None =>
          if OptionalArg false idIsName && bool_decide (pool = None) then ret_ (None, None)
          else
            and_then (made (let* op := Resource.Delete_ "delete_pool" in Resource.NamedResourceOperation (pc_PoolResource p) pId op)) (fun op =>
              exec_plain c "DeletePool" op None)
      end)).
Definition DeleteService (id : string) (idIsName : list bool) : pcall (option error) :=
  traced_call "PoolClient.DeleteService" (fun c =>
    and_then (serviceId id idIsName) (fun '(sId, service, err) =>
      match err with
      | Some _ => ret_ (err, err)
      | None =>
          if OptionalArg false idIsName && bool_decide (service = None) then ret_ (None, None)
          else
            and_then (made (let* op := Resource.Delete_ "delete_service" in Resource.NamedResourceOperation (pc_ServiceResource p) sId op)) (fun op =>
              exec_plain c "DeleteService" op None)
      end)).

(** ** Associations *)

Definition AddServiceToPool (poolId_ serviceId_ role : string) (idIsName : list bool) : pcall (option error) :=
  traced_call "PoolClient.AddServiceToPool" (fun c =>
    and_then (poolId poolId_ idIsName) (fun '(pId, _, err) =>
      match err with
      | Some _ => ret_ (err, err)
      | None =>
          and_then (serviceId serviceId_ idIsName) (fun '(sId, _, err) =>
            match err with
            | Some _ => ret_ (err, err)
            | None =>
                and_then (made (operation_on (resourceForPoolServices p pId) (Resource.Bind_ "add_service_to_pool"))) (fun op =>
                  exec_plain c "AddServiceToPool" op (Some (CmdAssociation {| cmd_ROLE := role; cmd_SERVICE_ID := sId |})))
            end)
      end)).

Definition role_resource (pId role : string) : M Api ref :=
  let* poolServiceResource := resourceForPoolServices p pId in
  let* roleResource := Resource.NamedResource "role" in
  zoom (modify (Resource.AddChild poolServiceResource roleResource [])) ;;
  zoom (modify (Resource.SetId roleResource role [])) ;;
  ret roleResource.
Definition RemoveServiceFromPool (poolId_ role : string) (idIsName : list bool) : pcall (option error) :=
  traced_call "PoolClient.RemoveServiceFromPool" (fun c =>
    and_then (poolId poolId_ idIsName) (fun '(pId, _, err) =>
      match err with
      | Some _ => ret_ (err, err)
      | None =>
          and_then (made (operation_on (role_resource pId role) (Resource.Unbind_ "remove_service_from_pool"))) (fun op =>
            exec_plain c "RemoveServiceFromPool" op None)
      end)).
Definition RemoveAllServicesFromPool (id : string) (idIsName : list bool) : pcall (option error) :=
  traced_call "PoolClient.RemoveAllServicesFromPool" (fun c =>
    and_then (poolId id idIsName) (fun '(pId, _, err) =>
      match err with
      | Some _ => ret_ (err, err)
      | None =>
          and_then (made (operation_on (resourceForPoolServices p pId) (Resource.Unbind_ "remove_all_services_from_pool"))) (fun op =>
            exec_plain c "ListPoolservices" op None)
      end)).
Definition RemoveServiceFromAllPools (id : string) (idIsName : list bool) : pcall (option error) :=
  traced_call "PoolClient.RemoveServiceFromAllPools" (fun c =>
    and_then (serviceId id idIsName) (fun '(sId, _, err) =>
      match err with
      | Some _ => ret_ (err, err)
      | None =>
          and_then (made (operation_on (resourceForServicePools p sId) (Resource.Unbind_ "remove_service_from_all_pools"))) (fun op =>
            exec_plain c "RemoveServiceFromAllPools" op None)
      end)).

Definition GetPoolBindings (id : string) (idIsName : list bool) : pcall (list PoolServiceBinding * option error) :=
  traced_call "PoolClient.GetServiceBindings" (fun c =>
    and_then (poolId id idIsName) (fun '(pId, _, err) =>
      match err with
      | Some _ => ret_ (([], err), err)
      | None =>
          and_then (made (operation_on (resourceForPoolServices p pId) (Resource.List_ "list_pool_services"))) (fun op =>
          and_then (op_Exec "ListPoolServices" op None (Some (read_bindings rd)) []) (fun '(err, result) =>
            match err with Some _ => exec_failed c [] err | None => ret_ ((result, None), None) end))
      end)).
Definition GetServiceBindings (id : string) (idIsName : list bool) : pcall (list PoolServiceBinding * option error) :=
  traced_call "PoolClient.GetServiceBindings" (fun c =>
    and_then (serviceId id idIsName) (fun '(sId, _, err) =>
      match err with
      | Some _ => ret_ (([], err), err)
      | None =>
          and_then (made (operation_on (resourceForServicePools p sId) (Resource.List_ "list_service_pools"))) (fun op =>
          and_then (op_Exec "ListServicePools" op None (Some (read_bindings rd)) []) (fun '(err, result) =>
            match err with Some _ => exec_failed c [] err | None => ret_ ((result, None), None) end))
      end)).
End Client.
