(* ===== verification/PoolClientPaths.v ===== *)
(** * The client of pools: the resources of its requests

    Every operation of the client belongs to a new resource whose path is the one of its request;
    the resources the client was made with stay as they were. *)
From S2P Require Import Prelude Utils Access ApiResource ApiPaths ApiRoutes ApiClone ApiReach PoolClient.
From stdpp Require Import relations sorting.
Open Scope go_scope.
Import Resource.

Implicit Types (w : Api) (h : Heap).

(** A new resource of a path; nothing that was there changes. *)
Record new_resource w (path : string) (n : ref) w' : Prop := {
  fr_inv : inv (resources w');
  fr_extends : extends (resources w) (resources w');
  fr_ops : operations_ w' = operations_ w;
  fr_new : length (resources w) <= n < length (resources w');
  fr_path : FullActualPath (resources w') n = path
}.
(** An operation to execute: its access and its path. *)
Record prepared w (access : AccessType) (path : string) (op : ref) w' : Prop := {
  pr_inv : inv (resources w');
  pr_extends : extends (resources w) (resources w');
  pr_length : length (operations_ w) <= length (operations_ w');
  pr_ops i : i < length (operations_ w) -> op_node (operations_ w') i = op_node (operations_ w) i;
  pr_access : accessType (op_node (operations_ w') op) = access;
  pr_path : RestClient.operation_path (resources w') (op_node (operations_ w') op) [] = Some path
}.

Lemma wp_NewOperation name access w (Q : ref -> Api -> Prop) :
  Q (length (operations_ w)) {| resources := resources w;
     operations_ := operations_ w ++ [{| o_name := name; o_resource := None; accessType := access; testOnly := false |}] |} ->
  wp (NewOperation name access []) Q w.
Proof. destruct w as [h l]. done. Qed.

Lemma op_node_set n op l x o : l !! op = Some o -> x < length l ->
  op_node (SetResource n op l) x =
  if decide (x = op) then {| o_name := o_name o; o_resource := Some n; accessType := accessType o; testOnly := testOnly o |} else op_node l x.
Proof.
  intros Eo Hx. unfold SetResource, op_node. destruct (decide (x = op)) as [->|Hne].
  - rewrite list_lookup_insert_eq by done. by rewrite Eo.
  - by rewrite list_lookup_insert_ne.
Qed.

(** An operation that was just made is added to a new resource. *)
Lemma add_prepared w0 w1 n name access path :
  extends (resources w0) (resources w1) -> inv (resources w1) -> length (resources w0) <= n < length (resources w1) ->
  FullActualPath (resources w1) n = path ->
  operations_ w1 = operations_ w0 ++ [{| o_name := name; o_resource := None; accessType := access; testOnly := false |}] ->
  wp (AddOperation n (length (operations_ w0)) []) (fun _ w2 => prepared w0 access path (length (operations_ w0)) w2) w1.
Proof.
  intros He Hi Hn Hp Eo. apply wp_AddOperation. set (ops := _ ++ _). set (g := r_getter _).
  pose proof (ops_shape n ops g (resources w1)) as Es.
  assert (Ho : operations_ w1 !! length (operations_ w0) = Some {| o_name := name; o_resource := None; accessType := access; testOnly := false |})
    by (rewrite Eo; by apply list_lookup_middle).
  assert (El : length (operations_ w1) = S (length (operations_ w0))) by (rewrite Eo, length_app; cbn; lia).
  split; cbn [resources operations_].
  - by apply ops_inv.
  - split; [rewrite <- (same_shape_length _ _ Es); apply He|]. intros x Hx. rewrite ops_node, decide_False by lia. by apply He.
  - unfold SetResource. rewrite length_insert. lia.
  - intros i Hl. rewrite (op_node_set _ _ _ _ _ Ho) by lia. rewrite decide_False by lia. unfold op_node. by rewrite Eo, lookup_app_l.
  - rewrite (op_node_set _ _ _ _ _ Ho) by lia. by rewrite decide_True.
  - unfold RestClient.operation_path. rewrite (op_node_set _ _ _ _ _ Ho) by lia. rewrite decide_True by done.
    cbn [o_resource from_option id]. unfold FullActualPath. rewrite ops_node_eq by lia. by rewrite <- Hp.
Qed.

Lemma wp_operation_on resource name access path w :
  wp resource (fun n w' => new_resource w path n w') w ->
  wp (operation_on resource (NewOperation name access [])) (fun op w' => prepared w access path op w') w.
Proof.
  intros Hm. unfold operation_on. apply wp_bind. eapply wp_mono, Hm. intros n w1 [F1 F2 F3 F4 F5].
  apply wp_bind, wp_NewOperation. rewrite F3. apply wp_bind.
  eapply wp_mono; [|apply (add_prepared w _ n name access path); cbn [resources operations_]; by rewrite ?F3].
  intros ? w2 Hw. by apply wp_ret.
Qed.

Lemma wp_named_operation sample id name access w :
  inv (resources w) -> sample < length (resources w) -> id <> "" ->
  wp (let* op := NewOperation name access [] in NamedResourceOperation sample id op)
    (fun op w' => prepared w access (path_above (resources w) sample +:+ "/" +:+ id) op w') w.
Proof.
  intros Hi Hs Hid. apply wp_bind, wp_NewOperation. unfold NamedResourceOperation. apply wp_named; [done|done|].
  cbn [resources operations_]. intros n w1 [H1 H2 H3 H4] Hops. apply wp_bind.
  eapply wp_mono; [|apply (add_prepared w w1 n name access (path_above (resources w) sample +:+ "/" +:+ id)); auto].
  intros ? w2 Hw. by apply wp_ret.
Qed.

(** ** The resources *)

Lemma wp_fresh_named sample id w : inv (resources w) -> sample < length (resources w) -> id <> "" ->
  wp (let* r := CloneChain false sample in zoom (modify (SetId r id [])) ;; ret r)
    (fun n w' => new_resource w (path_above (resources w) sample +:+ "/" +:+ id) n w') w.
Proof.
  intros Hi Hs Hid. apply wp_named; [done|done|]. intros n w1 [H1 H2 H3 H4] Hops. apply wp_ret. split; auto.
Qed.

(** A part of a new resource. *)
Lemma wp_fresh_part (m : M Api ref) name path w :
  wp m (fun n w' => new_resource w path n w') w ->
  wp (let* r := m in let* x := zoom (NewResource name []) in zoom (modify (AddChild r x [])) ;; ret x)
    (fun n w' => new_resource w (path +:+ "/" +:+ name) n w') w.
Proof.
  intros Hm. apply wp_bind. eapply wp_mono, Hm. intros n [h1 l1] [F1 F2 F3 F4 F5]. cbn [resources operations_] in *.
  apply wp_bind, wp_heap. pose proof (NewResource_made name [] h1 (inv_tree h1 F1) (inv_tenancy h1 F1)) as M.
  destruct (NewResource name [] h1) as [x h2]. cbn [fst snd OptionalArg] in *.
  pose proof (made_inv _ _ _ _ _ F1 M) as Hi2. pose proof (made_extends _ _ _ _ _ M) as He2.
  pose proof (made_ref _ _ _ _ _ M) as Ex. pose proof (made_length _ _ _ _ _ M) as El2.
  apply wp_bind, wp_heap. cbn [fst snd modify].
  destruct (AddChild_leaf n x h2 Hi2) as (Hi4 & El4 & Hn4 & Hp4 & Hc4 & Ht4 & _); [lia|lia|lia|apply M|].
  set (h4 := AddChild n x [] h2) in *. apply wp_ret. split; cbn [resources operations_]; [done| |done|rewrite El4; lia|].
  - split; [rewrite El4; pose proof (ext_length _ _ F2); lia|]. intros y Hy.
    pose proof (ext_length _ _ F2). rewrite Hn4, (ext_node _ _ He2), (ext_node _ _ F2) by lia. done.
  - destruct (own_fields Hi4 x) as (P & A & _); [lia|]. rewrite Hp4, A, P. unfold HasId.
    rewrite Hc4, Ht4, (made_config _ _ _ _ _ M), (made_type _ _ _ _ _ M). cbn -[ConcatStrings]. rewrite ConcatStrings_two.
    unfold FullActualPath. rewrite (ext_node _ _ He2) by lia. fold (FullActualPath h1 n). by rewrite F5.
Qed.

(** A leaf below [n]: the path of [n], the links of the leaf. *)
Lemma AddChild_links n x h : inv h -> n < length h -> x < length h -> x <> n -> Children h x = [] ->
  let h' := AddChild n x [] h in
  FullActualPath h' n = FullActualPath h n /\ Parent h' x = Some n /\ Children h' x = [] /\ Children h' n = Children h n ++ [x].
Proof.
  intros Hi Hn Hx Hne Hch h'.
  assert (Hnot : ~ rtc (child_of h) n x).
  { intros Hr. apply rtc_inv_r in Hr as [Hr|(y & _ & Hy)]; [done|]. unfold child_of in Hy. rewrite Hch in Hy.
    by apply not_elem_of_nil in Hy. }
  destruct (AddChild_inv n x h Hi Hn Hx Hnot) as [Hi' Es]. fold h' in Hi', Es. split; [|split_and!].
  - change h' with (RebuildPaths x (AddChild n x [false] h)). unfold FullActualPath, RebuildPaths.
    destruct (rebuild_frame (fun z => z = x) (fuel (AddChild n x [false] h)) x (AddChild n x [false] h)) as [_ Hf]; [|done|].
    + intros a b -> Hc. unfold child_of in Hc. rewrite (linked_Children n x), decide_False, Hch in Hc by done.
      by apply not_elem_of_nil in Hc.
    + rewrite Hf by done. by rewrite (linked_node n x), decide_False, decide_True by done.
  - rewrite <- (same_Parent Es), (linked_Parent n x), decide_True by done. done.
  - rewrite <- (same_Children Es), (linked_Children n x), decide_False by done. done.
  - rewrite <- (same_Children Es), (linked_Children n x), decide_True by done. done.
Qed.

(** The resource of an association: below a part, with the role as its identifier. *)
Lemma wp_NamedResource ty h l (Q : ref -> Api -> Prop) : inv h ->
  (forall h', inv h' -> extends h h' -> length h' = length h + 2 -> Type_ h' (length h) = ty ->
     r_config (node h' (length h)) = set_cfg_HasId true no_config -> Children h' (length h) = [] ->
     Children h' (S (length h)) = [length h] -> Q (length h) {| resources := h'; operations_ := l |}) ->
  wp (NamedResource ty) Q {| resources := h; operations_ := l |}.
Proof.
  intros Hi HQ. unfold NamedResource. apply wp_bind, wp_heap.
  pose proof (NewResource_made ty [set_cfg_HasId true no_config] h (inv_tree h Hi) (inv_tenancy h Hi)) as M1.
  destruct (NewResource ty _ h) as [r h1]. cbn [fst snd OptionalArg] in *. pose proof (made_inv _ _ _ _ _ Hi M1) as Hi1.
  apply wp_bind, wp_heap. pose proof (NewResource_made ty [] h1 (inv_tree h1 Hi1) (inv_tenancy h1 Hi1)) as M2.
  destruct (NewResource ty [] h1) as [g h2]. cbn [fst snd OptionalArg] in *. pose proof (made_inv _ _ _ _ _ Hi1 M2) as Hi2.
  pose proof M1 as [-> L1 _ _ _ E1 _ C1 T1 G1]. pose proof M2 as [-> L2 _ _ _ E2 _ C2 _ _]. rewrite L1 in *.
  assert (Hc2 : Children h2 (length h) = []) by (unfold Children; rewrite (ext_node _ _ E2) by lia; exact C1).
  apply wp_bind, wp_heap, wp_ret. cbn [fst snd modify].
  destruct (AddChild_leaf (S (length h)) (length h) h2 Hi2) as (Hi3 & L3 & N3 & _ & G3 & T3 & _); [lia|lia|lia|done|].
  destruct (AddChild_links (S (length h)) (length h) h2 Hi2) as (_ & _ & K1 & K2); [lia|lia|lia|done|].
  set (h3 := AddChild _ _ [] h2) in *. apply HQ; [done| |lia| | |done|by rewrite K2, C2].
  - split; [lia|]. intros x Hx. by rewrite N3, (ext_node _ _ E2), (ext_node _ _ E1) by lia.
  - rewrite T3. unfold Type_. rewrite (ext_node _ _ E2) by lia. exact T1.
  - rewrite G3, (ext_node _ _ E2) by lia. exact G1.
Qed.

Lemma wp_fresh_role (m : M Api ref) path role w : role <> "" ->
  wp m (fun n w' => new_resource w path n w') w ->
  wp (let* r := m in let* x := NamedResource "role" in zoom (modify (AddChild r x [])) ;; zoom (modify (SetId x role [])) ;; ret x)
    (fun n w' => new_resource w (path +:+ "/" +:+ role) n w') w.
Proof.
  intros Hrole Hm. apply wp_bind. eapply wp_mono, Hm. intros n [h1 l1] [F1 F2 F3 F4 F5]. cbn [resources operations_] in *.
  apply wp_bind, wp_NamedResource; [done|]. intros h2 Hi2 He2 L2 T2 G2 C2 Cg. set (r := length h1) in *.
  apply wp_bind, wp_heap. cbn [fst snd modify].
  destruct (AddChild_leaf n r h2 Hi2) as (Hi3 & L3 & N3 & _ & G3 & _ & _); [lia|lia|lia|done|].
  destruct (AddChild_links n r h2 Hi2) as (P3 & U3 & K3 & _); [lia|lia|lia|done|].
  set (h3 := AddChild n r [] h2) in *. pose proof (ext_length _ _ F2) as LF.
  assert (Hcl : closed_above r h3).
  { intros c p Hp Hc. destruct (decide (p = r)) as [->|Hpr]; [rewrite K3 in Hc; by apply not_elem_of_nil in Hc|].
    unfold Children in Hc. rewrite N3 in Hc by lia. destruct (decide (p = S r)) as [->|Hps].
    - fold (Children h2 (S r)) in Hc. rewrite Cg in Hc. by apply list_elem_of_singleton in Hc as ->.
    - rewrite node_out in Hc by lia. by apply not_elem_of_nil in Hc. }
  apply wp_bind, wp_SetId_last; cbn [resources operations_]; [done|lia|]. intros h4 Hi4 Hl4 Hc4 Hid Hhas Hframe. apply wp_ret.
  pose proof Hl4 as [L4 E4]. split; cbn [resources operations_]; [done| |done|lia|].
  - split; [lia|]. intros y Hy. rewrite (Hframe r y), N3, (ext_node _ _ He2), (ext_node _ _ F2) by (done || lia). done.
  - destruct (own_fields Hi4 r) as (_ & A & _ & F & _); [lia|]. rewrite F, A. unfold HasId, Id, IsTenancy.
    destruct (E4 r) as (<- & _). rewrite U3, Hid, (Hhas (or_introl Hrole)), bool_decide_eq_false_2 by done.
    rewrite andb_false_r. cbn -[ConcatStrings]. rewrite ConcatStrings_two. f_equal.
    unfold FullActualPath at 1. rewrite (Hframe r n) by (done || lia). fold (FullActualPath h3 n). rewrite P3, <- F5.
    unfold FullActualPath. by rewrite (ext_node _ _ He2) by lia.
Qed.
