(* ===== verification/PoolClientApi.v ===== *)
(** * The client of pools: its requests, and the service they are made for

    [protocol] is the request of each call of the controller: its access, its path and its command.
    The client makes exactly that request for a call by ID; the endpoint of the service with that
    path reads the call back from it.  So the client calls the controller of the server. *)
From S2P Require Import Prelude GoTime Utils Common Errors OpContext Db Crypt Http PoolData Pool Access Auth FilterParser ApiResource ApiPaths ApiRoutes ApiClone ApiReach Server ServerBuild RestClient ClientRequests ApiRequest PoolService PoolApi PoolClient PoolClientPaths.
From stdpp Require Import relations sorting.
Open Scope go_scope.

(** ** The protocol *)

Definition pools_path := "/pools/pool".
Definition services_path := "/pools/service".
Definition pool_path (id : string) := pools_path +:+ "/" +:+ id.
Definition service_path (id : string) := services_path +:+ "/" +:+ id.

Section Protocol.
Variable ToQueryString : Db.Filter -> string.

Definition protocol (c : pool_call) : AccessType * string * option PoolCmd :=
  match c with
  | CAddPool p => (Access.Create, pools_path, Some (CmdPool p))
  | CFindPool id => (Access.Get, pool_path id, None)
  | CUpdatePool id fields => (Access.UpdatePartial, pool_path id, Some (CmdUpdate {| cmd_Fields := fields |}))
  | CDeletePool id => (Access.Delete, pool_path id, None)
  | CGetPools f => (Access.Read, pools_path, Some (CmdQuery (NewDbQuery ToQueryString f)))
  | CAddService s => (Access.Create, services_path, Some (CmdService s))
  | CFindService id => (Access.Get, service_path id, None)
  | CUpdateService id fields => (Access.UpdatePartial, service_path id, Some (CmdUpdate {| cmd_Fields := fields |}))
  | CDeleteService id => (Access.Delete, service_path id, None)
  | CGetServices f => (Access.Read, services_path, Some (CmdQuery (NewDbQuery ToQueryString f)))
  | CAddServiceToPool p s role =>
      (Access.Create, pool_path p +:+ "/" +:+ "service", Some (CmdAssociation {| cmd_ROLE := role; cmd_SERVICE_ID := s |}))
  | CRemoveServiceFromPool p role => (Access.Delete, (pool_path p +:+ "/" +:+ "service") +:+ "/" +:+ role, None)
  | CRemoveAllServicesFromPool id => (Access.Delete, pool_path id +:+ "/" +:+ "service", None)
  | CRemoveServiceFromAllPools id => (Access.Delete, service_path id +:+ "/" +:+ "pool", None)
  | CGetPoolBindings id => (Access.Read, pool_path id +:+ "/" +:+ "service", None)
  | CGetServiceBindings id => (Access.Read, service_path id +:+ "/" +:+ "pool", None)
  end.
(** The identifiers in the path are not empty. *)
Definition has_ids (c : pool_call) : Prop :=
  match c with
  | CFindPool id | CUpdatePool id _ | CDeletePool id | CFindService id | CUpdateService id _ | CDeleteService id
  | CAddServiceToPool id _ _ | CRemoveAllServicesFromPool id | CRemoveServiceFromAllPools id | CGetPoolBindings id
  | CGetServiceBindings id => id <> ""
  | CRemoveServiceFromPool id role => id <> "" /\ role <> ""
  | _ => True
  end.

(** ** The client *)

(** How a response is read, and what the caller is given of it. *)
Record reading := {
  rg_Type : Type; rg_parse : option (string -> rg_Type -> rg_Type * option error); rg_start : rg_Type; rg_value : rg_Type -> returned
}.
Section Client.
Context {P X : Type} `{La : !Lens X Api}.
Local Abbreviation pcall := (call (P := P) (X := X)).
Variable client : forall R, Heap -> client_exec (P := P) (X := X) (Cmd := PoolCmd) (R := R).
Variable rd : PoolReaders.
Variable p : PoolClient.

Definition reads_pool : reading := {| rg_parse := Some (read_pool rd); rg_start := None; rg_value := RPool |}.
Definition reads_service : reading := {| rg_parse := Some (read_service rd); rg_start := None; rg_value := RService |}.
Definition reads_bindings : reading := {| rg_parse := Some (read_bindings rd); rg_start := []; rg_value := RBindings |}.
Definition reads_nothing : reading := {| rg_parse := None; rg_start := tt; rg_value := fun _ => RNothing |}.
Definition reading_of (c : pool_call) : reading :=
  match c with
  | CAddPool _ | CFindPool _ | CUpdatePool _ _ => reads_pool
  | CAddService _ | CFindService _ | CUpdateService _ _ => reads_service
  | CGetPools _ => {| rg_parse := Some (read_pools rd); rg_start := ([], 0%Z); rg_value := fun l => RPools l.1 l.2 |}
  | CGetServices _ => {| rg_parse := Some (read_services rd); rg_start := ([], 0%Z); rg_value := fun l => RServices l.1 l.2 |}
  | CGetPoolBindings _ | CGetServiceBindings _ => reads_bindings
  | _ => reads_nothing
  end.

(** A call of the controller through the client, its objects by ID. *)
Definition map_call {A B} (f : A -> B) (m : pcall A) : pcall B := and_then m (fun a => ret_ (f a)).
Definition found {A} (r : option A -> returned) (x : option (option A) * option error) : option error * returned := (x.2, r (mjoin x.1)).
Definition plain (err : option error) : option error * returned := (err, RNothing).
Definition client_perform (c : pool_call) : pcall (option error * returned) :=
  match c with
  | CAddPool a => map_call (found RPool) (PoolClient.AddPool client rd p a)
  | CFindPool id => map_call (found RPool) (PoolClient.FindPool client rd ToQueryString p id [])
  | CUpdatePool id fields => map_call (found RPool) (PoolClient.UpdatePool client rd ToQueryString p id fields [])
  | CDeletePool id => map_call plain (PoolClient.DeletePool client rd ToQueryString p id [])
  | CGetPools f => map_call (fun r => (r.2, RPools r.1.1 r.1.2)) (PoolClient.GetPools client rd ToQueryString p f)
  | CAddService a => map_call (found RService) (PoolClient.AddService client rd p a)
  | CFindService id => map_call (found RService) (PoolClient.FindService client rd ToQueryString p id [])
  | CUpdateService id fields => map_call (found RService) (PoolClient.UpdateService client rd ToQueryString p id fields [])
  | CDeleteService id => map_call plain (PoolClient.DeleteService client rd ToQueryString p id [])
  | CGetServices f => map_call (fun r => (r.2, RServices r.1.1 r.1.2)) (PoolClient.GetServices client rd ToQueryString p f)
  | CAddServiceToPool a s role => map_call plain (PoolClient.AddServiceToPool client rd ToQueryString p a s role [])
  | CRemoveServiceFromPool a role => map_call plain (PoolClient.RemoveServiceFromPool client rd ToQueryString p a role [])
  | CRemoveAllServicesFromPool id => map_call plain (PoolClient.RemoveAllServicesFromPool client rd ToQueryString p id [])
  | CRemoveServiceFromAllPools id => map_call plain (PoolClient.RemoveServiceFromAllPools client rd ToQueryString p id [])
  | CGetPoolBindings id => map_call (fun r => (r.2, RBindings r.1)) (PoolClient.GetPoolBindings client rd ToQueryString p id [])
  | CGetServiceBindings id => map_call (fun r => (r.2, RBindings r.1)) (PoolClient.GetServiceBindings client rd ToQueryString p id [])
  end.

(** The resources and the operations of the client are there, with their paths. *)
Definition is_operation w (access : AccessType) (path : string) (op : ref) : Prop :=
  accessType (op_node (operations_ w) op) = access /\ operation_path (resources w) (op_node (operations_ w) op) [] = Some path.
Record client_ready (w : Api) : Prop := {
  cr_inv : inv (resources w);
  cr_pool : pc_PoolResource p < length (resources w);
  cr_service : pc_ServiceResource p < length (resources w);
  cr_pool_path : path_above (resources w) (pc_PoolResource p) = pools_path;
  cr_service_path : path_above (resources w) (pc_ServiceResource p) = services_path;
  cr_add_pool : is_operation w Access.Create pools_path (add_pool p);
  cr_list_pools : is_operation w Access.Read pools_path (list_pools p);
  cr_add_service : is_operation w Access.Create services_path (add_service p);
  cr_list_services : is_operation w Access.Read services_path (list_services p)
}.

(** The state in which the API client executes its one operation, and what comes of it. *)
Definition one_request (c : pool_call) (o : Op P) (x : X) (res : (option error * returned) + stop) (o' : Op P) (x' : X) : Prop :=
  let '(access, path, cmd) := protocol c in
  exists t w' op, extends (resources (view x)) (resources w') /\ is_operation w' access path op /\
  let g := reading_of c in
  let r := client (rg_Type g) (resources w') (op_node (operations_ w') op) cmd (rg_parse g) (rg_start g) []
             (Build_St t o (put w' x)) in
  o' = st_op r.2 /\ x' = st_ext r.2 /\
  match r.1 with
  | inr s => res = inr s
  | inl (Some e, _) => exists v, res = inl (Some e, v)
  | inl (None, v) => res = inl (None, rg_value g v)
  end.

Lemma spec_op_Exec {R} name op cmd parse (obj : R) (Q : (option error * R) + stop -> Op P -> X -> Prop) o x :
  (forall t, let r := client R (resources (view x)) (op_node (operations_ (view x)) op) cmd parse obj [] (Build_St t o x) in
     Q r.1 (st_op r.2) (st_ext r.2)) ->
  spec (op_Exec client name op cmd parse obj) Q o x.
Proof.
  intros H. unfold op_Exec, exec_traced, api. apply spec_traced. intros c. apply spec_bind, spec_on. unfold wp, gets. cbn [fst snd].
  rewrite put_view. apply spec_and_then, spec_traced. intros c'. apply spec_and_then. intros t. cbn [h_Cmd h_parse h_Result].
  specialize (H t). destruct (client _ _ _ _ _ _ _ _) as [r [t' o' x']]. cbn [fst snd st_op st_ext] in *. unfold ret_.
  destruct r as [[err obj']|s]; by spec_go.
Qed.

(** The outcome of a request, and what the caller of the client is given. *)
Definition reports (c : pool_call) (r : (option error * rg_Type (reading_of c)) + stop) (res : (option error * returned) + stop) : Prop :=
  match r with
  | inr s => res = inr s
  | inl (Some e, _) => exists v, res = inl (Some e, v)
  | inl (None, v) => res = inl (None, rg_value (reading_of c) v)
  end.

Lemma spec_one_request c w' op name access path cmd o x (Q : (option error * rg_Type (reading_of c)) + stop -> Op P -> X -> Prop) :
  protocol c = (access, path, cmd) -> extends (resources (view (A := Api) x)) (resources w') -> is_operation w' access path op ->
  (forall r o' x', (forall res, reports c r res -> one_request c o x res o' x') -> Q r o' x') ->
  spec (op_Exec client name op cmd (rg_parse (reading_of c)) (rg_start (reading_of c))) Q o (put w' x).
Proof.
  intros E He Hop HQ. apply spec_op_Exec. intros t. rewrite view_put. cbv zeta. apply HQ. intros res Hres.
  unfold one_request. rewrite E. exists t, w', op. cbv zeta. by split_and!.
Qed.

Lemma spec_traced_call {A} name (body : nat -> pcall (A * option error)) (Q : A + stop -> Op P -> X -> Prop) o x :
  (forall c, spec (body c) (fun r => Q match r with inl (a, _) => inl a | inr s => inr s end) o x) ->
  spec (traced_call name body) Q o x.
Proof.
  intros H. apply spec_traced_exit. intros c. apply spec_bind. eapply spec_mono, H. intros [[a err]|s] o' x' HQ; by apply spec_ret.
Qed.
Lemma spec_map_call {A B} (f : A -> B) (m : pcall A) (Q : B + stop -> Op P -> X -> Prop) o x :
  spec m (fun r => Q match r with inl a => inl (f a) | inr s => inr s end) o x -> spec (map_call f m) Q o x.
Proof. intros H. apply spec_and_then. eapply spec_mono, H. intros [a|s] o' x' HQ; [|done]. by apply spec_ret. Qed.
Lemma spec_made {A} (m : M Api A) (Q : A + stop -> Op P -> X -> Prop) o x :
  wp m (fun a w' => Q (inl a) o (put w' x)) (view x) -> spec (made m) Q o x.
Proof. intros H. apply spec_bind, spec_on. eapply wp_mono, H. intros a w' HQ. by apply spec_ret. Qed.

(** What a caller is given, [f] making the result of a call of it. *)
Definition gives {A} (c : pool_call) (f : A -> option error * returned) o x : A * option error + stop -> Op P -> X -> Prop :=
  fun r => one_request c o x match r with inl (a, _) => inl (f a) | inr s => inr s end.

(** An operation with a result, and one without. *)
Lemma spec_exec_value {A} c w' op name access path cmd (nothing : A) (ok : rg_Type (reading_of c) -> A) tc f o x :
  protocol c = (access, path, cmd) -> extends (resources (view (A := Api) x)) (resources w') -> is_operation w' access path op ->
  (forall e, exists v, f (nothing, Some e) = (Some e, v)) -> (forall r, f (ok r, None) = (None, rg_value (reading_of c) r)) ->
  spec (and_then (op_Exec client name op cmd (rg_parse (reading_of c)) (rg_start (reading_of c))) (fun '(err, result) =>
          match err with Some _ => exec_failed tc nothing err | None => ret_ ((ok result, None), None) end))
    (gives c f o x) o (put w' x).
Proof.
  intros E He Hop Hf Hok. eapply spec_and_then, spec_one_request; [done..|]. intros [[[e|] r]|s] o' x' H.
  - unfold exec_failed, ret_. spec_go. apply H. destruct (Hf e) as [v ->]. by exists v.
  - unfold ret_. spec_go. apply H. by rewrite Hok.
  - by apply H.
Qed.
Lemma spec_exec_plain c w' op name access path cmd tc o x :
  protocol c = (access, path, cmd) -> extends (resources (view (A := Api) x)) (resources w') -> is_operation w' access path op ->
  reading_of c = reads_nothing ->
  spec (exec_plain client tc name op cmd) (gives c plain o x) o (put w' x).
Proof.
  intros E He Hop Er. pose proof (spec_one_request c w' op name access path cmd o x) as HS. unfold reports in HS. rewrite Er in HS.
  eapply spec_and_then, HS; [done..|]. intros [[[e|] r]|s] o' x' H; unfold ret_; spec_go; apply H; [by exists RNothing|done..].
Qed.

Lemma spec_gives {A} c (f : A -> option error * returned) name body o x :
  (forall tc, spec (body tc) (gives c f o x) o x) -> spec (map_call f (traced_call name body)) (one_request c o x) o x.
Proof.
  intros H. apply spec_map_call, spec_traced_call. intros tc. eapply spec_mono, H. intros [[a err]|s] o' x' HQ; exact HQ.
Qed.

(** The value of a call whose operation is there, or is made first. *)
Lemma spec_kept {A} c op name access path cmd (nothing : A) (ok : rg_Type (reading_of c) -> A) f tname o x :
  protocol c = (access, path, cmd) -> is_operation (view x) access path op ->
  (forall e, exists v, f (nothing, Some e) = (Some e, v)) -> (forall r, f (ok r, None) = (None, rg_value (reading_of c) r)) ->
  spec (map_call f (traced_call tname (fun tc =>
          and_then (op_Exec client name op cmd (rg_parse (reading_of c)) (rg_start (reading_of c))) (fun '(err, result) =>
            match err with Some _ => exec_failed tc nothing err | None => ret_ ((ok result, None), None) end))))
    (one_request c o x) o x.
Proof.
  intros E Hop Hf Hok. apply spec_gives. intros tc.
  pose proof (spec_exec_value c (view x) op name access path cmd nothing ok tc f o x E) as HS. rewrite put_view in HS. by apply HS.
Qed.
Lemma spec_made_value {A} c m name access path cmd (nothing : A) (ok : rg_Type (reading_of c) -> A) f tc o x :
  protocol c = (access, path, cmd) -> wp m (fun op w' => prepared (view x) access path op w') (view x) ->
  (forall e, exists v, f (nothing, Some e) = (Some e, v)) -> (forall r, f (ok r, None) = (None, rg_value (reading_of c) r)) ->
  spec (and_then (made m) (fun op =>
        and_then (op_Exec client name op cmd (rg_parse (reading_of c)) (rg_start (reading_of c))) (fun '(err, result) =>
          match err with Some _ => exec_failed tc nothing err | None => ret_ ((ok result, None), None) end)))
    (gives c f o x) o x.
Proof.
  intros E Hm Hf Hok. eapply spec_and_then, spec_made, wp_mono, Hm. intros op w' [H1 H2 H3 H4 H5 H6].
  by eapply spec_exec_value; [exact E| |split| |].
Qed.
Lemma spec_made_plain c m name access path cmd tc o x :
  protocol c = (access, path, cmd) -> wp m (fun op w' => prepared (view x) access path op w') (view x) ->
  reading_of c = reads_nothing ->
  spec (and_then (made m) (fun op => exec_plain client tc name op cmd)) (gives c plain o x) o x.
Proof.
  intros E Hm Hr. eapply spec_and_then, spec_made, wp_mono, Hm. intros op w' [H1 H2 H3 H4 H5 H6].
  by eapply spec_exec_plain; [exact E| |split|].
Qed.

(** Objects given by ID. *)
Lemma spec_by_id id (Q : (string * option PoolBase * option error) + stop -> Op P -> X -> Prop) o x :
  Q (inl (id, None, None)) o x -> spec (poolId client rd ToQueryString p id []) Q o x.
Proof. intros H. apply spec_traced. intros c. by apply spec_ret. Qed.
Lemma spec_service_by_id id (Q : (string * option PoolServiceBase * option error) + stop -> Op P -> X -> Prop) o x :
  Q (inl (id, None, None)) o x -> spec (serviceId client rd ToQueryString p id []) Q o x.
Proof. intros H. apply spec_traced. intros c. by apply spec_ret. Qed.

Section Ready.
Variables (w : Api) (W : client_ready w).
Lemma named_pool id name access : id <> "" ->
  wp (let* op := Resource.NewOperation name access [] in Resource.NamedResourceOperation (pc_PoolResource p) id op)
    (fun op w' => prepared w access (pool_path id) op w') w.
Proof. intros Hid. destruct W as [W1 W2 W3 W4 W5 W6 W7 W8 W9]. unfold pool_path. rewrite <- W4. by apply wp_named_operation. Qed.
Lemma named_service id name access : id <> "" ->
  wp (let* op := Resource.NewOperation name access [] in Resource.NamedResourceOperation (pc_ServiceResource p) id op)
    (fun op w' => prepared w access (service_path id) op w') w.
Proof. intros Hid. destruct W as [W1 W2 W3 W4 W5 W6 W7 W8 W9]. unfold service_path. rewrite <- W5. by apply wp_named_operation. Qed.
Lemma pool_services id : id <> "" ->
  wp (resourceForPoolServices p id) (fun n w' => new_resource w (pool_path id +:+ "/" +:+ "service") n w') w.
Proof. intros Hid. destruct W as [W1 W2 W3 W4 W5 W6 W7 W8 W9]. unfold pool_path. rewrite <- W4. by apply wp_fresh_part, wp_fresh_named. Qed.
Lemma service_pools id : id <> "" ->
  wp (resourceForServicePools p id) (fun n w' => new_resource w (service_path id +:+ "/" +:+ "pool") n w') w.
Proof. intros Hid. destruct W as [W1 W2 W3 W4 W5 W6 W7 W8 W9]. unfold service_path. rewrite <- W5. by apply wp_fresh_part, wp_fresh_named. Qed.
Lemma pool_role id role : id <> "" -> role <> "" ->
  wp (role_resource p id role) (fun n w' => new_resource w ((pool_path id +:+ "/" +:+ "service") +:+ "/" +:+ role) n w') w.
Proof. intros Hid Hr. apply wp_fresh_role; [done|]. by apply pool_services. Qed.
End Ready.

(** Each call, in groups. *)
Local Ltac plain_value := intros; solve [reflexivity | eexists; reflexivity].
Local Ltac by_call H := apply spec_gives; intros ?; apply spec_and_then, H; cbn beta iota.

Lemma request_pools c o x : has_ids c -> client_ready (view x) ->
  match c with CAddPool _ | CFindPool _ | CUpdatePool _ _ | CDeletePool _ | CGetPools _ => True | _ => False end ->
  spec (client_perform c) (one_request c o x) o x.
Proof.
  intros Hid W. destruct c; intros []; cbn [has_ids] in Hid; cbn [client_perform].
  - eapply (spec_kept (CAddPool p0)) with (ok := Some); [reflexivity|apply W|plain_value..].
  - by_call spec_by_id. eapply (spec_made_value (CFindPool id)) with (ok := Some) (f := found RPool);
      [reflexivity|by apply named_pool|plain_value..].
  - by_call spec_by_id. eapply (spec_made_value (CUpdatePool id fields)) with (ok := Some) (f := found RPool);
      [reflexivity|by apply named_pool|plain_value..].
  - by_call spec_by_id. eapply (spec_made_plain (CDeletePool id)); [reflexivity|by apply named_pool|done].
  - eapply (spec_kept (CGetPools f)) with (ok := fun r => (r.1, r.2)); [reflexivity|apply W|plain_value..].
Qed.
Lemma request_services c o x : has_ids c -> client_ready (view x) ->
  match c with CAddService _ | CFindService _ | CUpdateService _ _ | CDeleteService _ | CGetServices _ => True | _ => False end ->
  spec (client_perform c) (one_request c o x) o x.
Proof.
  intros Hid W. destruct c; intros []; cbn [has_ids] in Hid; cbn [client_perform].
  - eapply (spec_kept (CAddService s)) with (ok := Some); [reflexivity|apply W|plain_value..].
  - by_call spec_service_by_id. eapply (spec_made_value (CFindService id)) with (ok := Some) (f := found RService);
      [reflexivity|by apply named_service|plain_value..].
  - by_call spec_service_by_id. eapply (spec_made_value (CUpdateService id fields)) with (ok := Some) (f := found RService);
      [reflexivity|by apply named_service|plain_value..].
  - by_call spec_service_by_id. eapply (spec_made_plain (CDeleteService id)); [reflexivity|by apply named_service|done].
  - eapply (spec_kept (CGetServices f)) with (ok := fun r => (r.1, r.2)); [reflexivity|apply W|plain_value..].
Qed.

Lemma request_associations c o x : has_ids c -> client_ready (view x) ->
  match c with
  | CAddServiceToPool _ _ _ | CRemoveServiceFromPool _ _ | CRemoveAllServicesFromPool _ | CRemoveServiceFromAllPools _
  | CGetPoolBindings _ | CGetServiceBindings _ => True
  | _ => False
  end ->
  spec (client_perform c) (one_request c o x) o x.
Proof.
  intros Hid W. destruct c; intros []; cbn [has_ids] in Hid; cbn [client_perform].
  - by_call spec_by_id. apply spec_and_then, spec_service_by_id. cbn beta iota.
    eapply (spec_made_plain (CAddServiceToPool poolId serviceId role)); [reflexivity|by apply wp_operation_on, pool_services|done].
  - destruct Hid as [Hid Hr]. by_call spec_by_id.
    eapply (spec_made_plain (CRemoveServiceFromPool poolId role)); [reflexivity|by apply wp_operation_on, pool_role|done].
  - by_call spec_by_id. eapply (spec_made_plain (CRemoveAllServicesFromPool id)); [reflexivity|by apply wp_operation_on, pool_services|done].
  - by_call spec_service_by_id.
    eapply (spec_made_plain (CRemoveServiceFromAllPools id)); [reflexivity|by apply wp_operation_on, service_pools|done].
  - by_call spec_by_id. eapply (spec_made_value (CGetPoolBindings id)) with (ok := fun r => r) (f := fun r => (r.2, RBindings r.1));
      [reflexivity|by apply wp_operation_on, pool_services|plain_value..].
  - by_call spec_service_by_id.
    eapply (spec_made_value (CGetServiceBindings id)) with (ok := fun r => r) (f := fun r => (r.2, RBindings r.1));
      [reflexivity|by apply wp_operation_on, service_pools|plain_value..].
Qed.

(** [C27] The client of pools makes exactly the request of the call.  For each of the sixteen
    calls of the controller by ID, whatever the API client does, it is run once: with an operation
    whose access and path are those of the protocol of the call, and with the command of the
    protocol.  The error of the request, or the value read from the response, is what the caller is
    given; and the resources there were before stay as they were. *)
Theorem client_requests c (st : St P X) :
  has_ids c -> client_ready (view (st_ext st)) ->
  let r := client_perform c st in one_request c (st_op st) (st_ext st) r.1 (st_op r.2) (st_ext r.2).
Proof.
  intros Hid W. destruct st as [t o x]. cbn [st_op st_ext] in *.
  assert (HS : spec (client_perform c) (one_request c o x) o x).
  { destruct c; first [by apply request_pools|by apply request_services|by apply request_associations]. }
  specialize (HS t). cbv zeta in *. by destruct (client_perform c _) as [res [t' o' x']].
Qed.
End Client.
End Protocol.
