(* ===== verification/PoolWire.v ===== *)
(** * The requests of the client of pools read by the service

    The routes of the service with the IDs filled in are the paths of the client.  A call of the
    client leaves as one HTTP request; the endpoint of the service that gets this request makes the
    same call of the controller of the server, and what the server answers with comes back to the
    caller. *)
From S2P Require Import Prelude GoTime Utils Common Errors OpContext Db Crypt Http PoolData Pool Access Auth FilterParser ApiResource ApiPaths ApiRoutes ApiClone ApiReach Server ServerBuild RestClient ClientRequests ApiRequest PoolService PoolApi PoolClient PoolClientPaths PoolClientApi.
Open Scope go_scope.

(** ** Routes *)

(** The parts of the path of a route: names, and parameters. *)
Inductive part := Name (s : string) | Param (s : string).
Definition text_of (value : string -> string) (l : list part) : string :=
  foldr (fun a s => "/" +:+ match a with Name n => n | Param n => value n end +:+ s) "" l.
Definition prototype : list part -> string := text_of (fun n => ":" +:+ n).
Definition filled (ids : list (string * string)) : list part -> string := text_of (GetResourceId ids).

Definition route (k : operation) : AccessType * list part :=
  let pools := [Name "pools"; Name "pool"] in
  let pool := pools ++ [Param "pool"] in
  let services := [Name "pools"; Name "service"] in
  let service := services ++ [Param "service"] in
  match k with
  | KAddPool => (Access.Create, pools) | KListPools => (Access.Read, pools)
  | KFindPool => (Access.Get, pool) | KUpdatePool => (Access.UpdatePartial, pool) | KDeletePool => (Access.Delete, pool)
  | KAddService => (Access.Create, services) | KListServices => (Access.Read, services)
  | KFindService => (Access.Get, service) | KUpdateService => (Access.UpdatePartial, service) | KDeleteService => (Access.Delete, service)
  | KAddServiceToPool => (Access.Create, pool ++ [Name "service"])
  | KRemoveServiceFromPool => (Access.Delete, pool ++ [Name "service"; Param "role"])
  | KRemoveAllServicesFromPool => (Access.Delete, pool ++ [Name "service"])
  | KListPoolServices => (Access.Read, pool ++ [Name "service"])
  | KRemoveServiceFromAllPools => (Access.Delete, service ++ [Name "pool"])
  | KListServicePools => (Access.Read, service ++ [Name "pool"])
  end.

Definition kind_of (c : pool_call) : operation :=
  match c with
  | CAddPool _ => KAddPool | CFindPool _ => KFindPool | CUpdatePool _ _ => KUpdatePool | CDeletePool _ => KDeletePool
  | CGetPools _ => KListPools | CAddService _ => KAddService | CFindService _ => KFindService
  | CUpdateService _ _ => KUpdateService | CDeleteService _ => KDeleteService | CGetServices _ => KListServices
  | CAddServiceToPool _ _ _ => KAddServiceToPool | CRemoveServiceFromPool _ _ => KRemoveServiceFromPool
  | CRemoveAllServicesFromPool _ => KRemoveAllServicesFromPool | CRemoveServiceFromAllPools _ => KRemoveServiceFromAllPools
  | CGetPoolBindings _ => KListPoolServices | CGetServiceBindings _ => KListServicePools
  end.
(** The IDs in the path of a call, by the parameters of its route. *)
Definition ids_of (c : pool_call) : list (string * string) :=
  match c with
  | CFindPool id | CUpdatePool id _ | CDeletePool id | CAddServiceToPool id _ _ | CRemoveAllServicesFromPool id
  | CGetPoolBindings id => [("pool", id)]
  | CRemoveServiceFromPool id role => [("pool", id); ("role", role)]
  | CFindService id | CUpdateService id _ | CDeleteService id | CRemoveServiceFromAllPools id
  | CGetServiceBindings id => [("service", id)]
  | _ => []
  end.

Lemma protocol_route ToQueryString c :
  (protocol ToQueryString c).1 = ((route (kind_of c)).1, filled (ids_of c) (route (kind_of c)).2).
Proof.
  destruct c; cbn [protocol kind_of ids_of route fst snd]; f_equal; unfold pool_path, service_path, pools_path, services_path, filled;
    cbn -[String.append]; rewrite ?str_app_assoc, ?str_app_nil_r; reflexivity.
Qed.

(** ** Commands on the wire *)

(** What the client writes the server reads.  Bodies are JSON on both sides.  A query has the names
    of the fields as go-querystring writes them, and gorilla/schema looks for the tags of the fields
    ignoring case. *)
Class Wire `{Co : !Commands PoolCmd, Cq : !Command DbQuery, Cu : !Command UpdateCmd}
    `{Cp : !Command PoolBase, Cs : !Command PoolServiceBase, Ca : !Command PoolServiceAssociationCmd} := {
  json_pool (p : PoolBase) b : lossless p -> json_Marshal (Some (CmdPool p)) = inl b -> ParseMessage b zero_pool = (p, None);
  json_service (s : PoolServiceBase) b : lossless s -> json_Marshal (Some (CmdService s)) = inl b -> ParseMessage b zero_service = (s, None);
  json_association (a : PoolServiceAssociationCmd) b : lossless a ->
    json_Marshal (Some (CmdAssociation a)) = inl b -> ParseMessage b {| cmd_ROLE := ""; cmd_SERVICE_ID := "" |} = (a, None);
  json_update (u : UpdateCmd) b : lossless u -> json_Marshal (Some (CmdUpdate u)) = inl b -> ParseMessage b zero_fields = (u, None);
  query_written (q : DbQuery) v : query_Values (CmdQuery q) = inl v ->
    map_Forall (fun _ vs => vs <> []) v /\ schema_Decode v {| Query_ := "" |} = (q, None) /\ (v = ∅ -> q = {| Query_ := "" |})
}.

Section Wire.
Context {X Msg : Type} `{HL : !WithHateoasLinks Msg, PM : !PoolMessages Msg}.
Context `{Lc : !Lens X AuthContext, Lh : !Lens X (Http Msg), La : !Lens X Api, Lf : !Lens X FilterManager}.
Context `{Mr : !MapRange, Vv : !ValueValidator, Cq : !Command DbQuery, Cu : !Command UpdateCmd}.
Context `{Cp : !Command PoolBase, Cs : !Command PoolServiceBase, Ca : !Command PoolServiceAssociationCmd}.
Context `{Vp : !StructValidator PoolBaseData, Dp : !MapDecoder PoolBaseData}.
Context `{Vs : !StructValidator PoolServiceBaseEssentials, Ds : !MapDecoder PoolServiceBaseEssentials}.
Context `{Co : !Commands PoolCmd, Wi : !Wire}.
Variable ParseFloat : string -> option Z.
Variable Unmarshal : string -> Query + error.
Variable pool_model service_model : schema_Schema + error.
Variable ToQueryString : Db.Filter -> string.
Local Abbreviation P := OpLogPool.
Implicit Types (ep : Endpoint P X) (x : X) (n : NativeRequest).

(** What the request of a command carries. *)
Definition carries (access : AccessType) (cmd : option PoolCmd) n : Prop :=
  if HttpContentInQuery access then
    match cmd with
    | None => rq_RawQuery n = None
    | Some cmd => exists v, query_Values cmd = inl v /\ rq_RawQuery n = Some (Url.Encode v)
    end
  else json_Marshal cmd = inl (rq_Body n).

(** The request has arrived at an endpoint of the route of a call: its query, its body, and the
    parameters the router has read from its path. *)
Record arrived (c : pool_call) n ep x : Prop := {
  ar_access : accessType (operation_of (view x) ep) = (route (kind_of c)).1;
  ar_query : raw_query (view (A := Http Msg) x) = default "" (rq_RawQuery n);
  ar_body : request_content (view x) = rq_Body n;
  ar_ids name id : In (name, id) (ids_of c) -> path_id (Msg := Msg) name x = id
}.

(** The command of a call passes the validator, and its format loses nothing of it.  The text of a
    filter is not empty, and the parser of filters reads the filter back. *)
Definition accepted {T} `{!Command T} (cmd : T) : Prop := lossless cmd /\ Validate_ cmd = None.
Definition filter_accepted (f : option Db.Filter) (model : schema_Schema + error) ep x : Prop :=
  Validate_ (NewDbQuery ToQueryString f) = None /\
  match f with
  | None => True
  | Some g => ToQueryString g <> "" /\
      (FilterParser.ParseQuery ParseFloat Unmarshal (ToQueryString g) model (path_of ep x) [EmptyFilterValidator] (view x)).1 = inl f
  end.
Definition acceptable (c : pool_call) ep x : Prop :=
  match c with
  | CAddPool p => accepted p
  | CAddService s => accepted s
  | CUpdatePool _ fields => accepted {| cmd_Fields := fields |} /\ ValidateMap fields zero_pool_data [] = None
  | CUpdateService _ fields => accepted {| cmd_Fields := fields |} /\ ValidateMap fields zero_essentials [] = None
  | CAddServiceToPool _ s role => accepted {| cmd_ROLE := role; cmd_SERVICE_ID := s |}
  | CGetPools f => filter_accepted f pool_model ep x
  | CGetServices f => filter_accepted f service_model ep x
  | _ => True
  end.

Lemma body_read {T} `{!Command T} (cmd zero : T) n ep x :
  Validate_ cmd = None -> ParseMessage (rq_Body n) zero = (cmd, None) -> request_content (view x) = rq_Body n ->
  HttpContentInQuery (accessType (operation_of (view x) ep)) = false -> read_command ep zero x = Some cmd.
Proof. intros Hv Hp Hc Ha. unfold read_command. by rewrite Ha, Hc, Hp, Hv. Qed.
Lemma query_read q v ep x :
  Validate_ q = None -> query_Values (CmdQuery q) = inl v -> raw_query (view (A := Http Msg) x) = Url.Encode v ->
  HttpContentInQuery (accessType (operation_of (view x) ep)) = true ->
  read_command ep {| Query_ := "" |} x = Some q.
Proof.
  intros Hv Hs Hc Ha. unfold read_command, read_query. rewrite Ha, Hc.
  destruct (query_written _ _ Hs) as (Hne & Hd & Hz). pose proof (Url.query_roundtrip v Hne) as Hp.
  destruct (decide (Url.Encode v = "")) as [E|_]; [|by rewrite Hp, Hd, Hv].
  rewrite E in Hp. rewrite <- Hz, Hv; [done|by injection Hp].
Qed.
Lemma filter_read f model v ep x :
  filter_accepted f model ep x -> query_Values (CmdQuery (NewDbQuery ToQueryString f)) = inl v ->
  raw_query (view (A := Http Msg) x) = Url.Encode v ->
  HttpContentInQuery (accessType (operation_of (view x) ep)) = true ->
  read_filter ParseFloat Unmarshal ep model (path_of ep x) x = Some f.
Proof.
  intros [Hv Hf] Hs Hc Ha. unfold read_filter. rewrite (query_read _ v) by done. destruct f as [g|]; cbn [NewDbQuery Query_].
  - destruct Hf as [Hne ->]. by rewrite decide_False.
  - by rewrite decide_True.
Qed.

(** The endpoint of the path reads the call back. *)
Lemma asks_call c n ep x :
  carries (route (kind_of c)).1 (protocol ToQueryString c).2 n -> acceptable c ep x -> arrived c n ep x ->
  asks ParseFloat Unmarshal pool_model service_model (kind_of c) ep x = Some c.
Proof.
  intros Hw Hok [Ha Hq Hb Hi]. unfold carries in Hw.
  destruct c; cbn [kind_of asks route fst snd protocol ids_of acceptable] in *;
    try (rewrite (Hi "pool" _) by (by left)); try (rewrite (Hi "service" _) by (by left)); try (rewrite (Hi "role" _) by (by right; left));
    try done; clear Hi.
  - destruct Hok. by rewrite (body_read p zero_pool n) by (done || by rewrite Ha || by apply json_pool).
  - unfold read_fields. destruct Hok as [[] Hm].
    rewrite (body_read {| cmd_Fields := fields |} zero_fields n) by (done || by rewrite Ha || by apply json_update). cbn [cmd_Fields]. by rewrite Hm.
  - destruct Hw as (v & Ev & En). rewrite En in Hq. by rewrite (filter_read f pool_model v) by (done || by rewrite Ha).
  - destruct Hok. by rewrite (body_read s zero_service n) by (done || by rewrite Ha || by apply json_service).
  - unfold read_fields. destruct Hok as [[] Hm].
    rewrite (body_read {| cmd_Fields := fields |} zero_fields n) by (done || by rewrite Ha || by apply json_update). cbn [cmd_Fields]. by rewrite Hm.
  - destruct Hw as (v & Ev & En). rewrite En in Hq. by rewrite (filter_read f service_model v) by (done || by rewrite Ha).
  - destruct Hok. by rewrite (body_read {| cmd_ROLE := role; cmd_SERVICE_ID := serviceId |} _ n) by (done || by rewrite Ha || by apply json_association).
Qed.
End Wire.

(** ** A call of the client at the controller of the server *)

Lemma set_headers_keeps n (hs : list headers) : let n' := HttpRequest.HttpHeadersSet n hs in
  rq_Method n' = rq_Method n /\ rq_Url n' = rq_Url n /\ rq_RawQuery n' = rq_RawQuery n /\ rq_Body n' = rq_Body n.
Proof.
  destruct hs as [|h hs]; [done|]. cbn [HttpRequest.HttpHeadersSet].
  apply (map_fold_weak_ind (fun acc _ => rq_Method acc = rq_Method n /\ rq_Url acc = rq_Url n /\ rq_RawQuery acc = rq_RawQuery n /\
    rq_Body acc = rq_Body n)); [done|]. by intros i v m acc _ IH.
Qed.

Lemma method_of_route k : method_of (route k).1 = Some (Access2HttpMethod (route k).1, HttpContentInQuery (route k).1).
Proof. by destruct k. Qed.

Section Client.
Context {Pc Y : Type} `{Ln : !Lens Y Network, Lr : !Lens Y RestApiClientBase, Lapi : !Lens Y Api}.
Context `{Drn : !Disjoint_lens Y RestApiClientBase Network, Dan : !Disjoint_lens Y Api Network, Dar : !Disjoint_lens Y Api RestApiClientBase}.
Context `{Ht : !HttpTransport, Ej : !ErrorJson, Co : !Commands PoolCmd}.
Variable rd : PoolReaders.
Variable ToQueryString : Db.Filter -> string.
Variable p : PoolClient.
Implicit Types (o : Op Pc) (y : Y).

(** The client that sends by HTTP. *)
Definition by_http R (h : Heap) : client_exec (P := Pc) (X := Y) (Cmd := PoolCmd) (R := R) := Exec default_body default_query h.

Lemma operation_request_carries access method url cmd hs n :
  operation_request (HttpContentInQuery access) method url cmd hs = inl n ->
  rq_Method n = method /\ rq_Url n = url /\ carries access cmd n.
Proof.
  unfold operation_request, carries, query_request, body_request, HttpRequest.http_NewRequest.
  destruct (HttpContentInQuery access).
  - destruct (NewRequest_err _ _); [done|]. destruct cmd as [cmd|]; [destruct (query_Values cmd) as [v|] eqn:Ev; [|done]|]; intros [= <-];
      match goal with |- context [HttpRequest.HttpHeadersSet ?m hs] => destruct (set_headers_keeps m hs) as (-> & -> & -> & _) end; [|done].
    split_and!; [done..|by exists v].
  - destruct (json_Marshal cmd) as [b|]; [|done]. destruct (NewRequest_err _ _); [done|]. intros [= <-].
    match goal with |- context [HttpRequest.HttpHeadersSet ?m hs] => by destruct (set_headers_keeps m hs) as (-> & -> & _ & ->) end.
Qed.

(** What the caller is given of an answer to the request of a call. *)
Definition fails (res : (option error * returned) + stop) : Prop := exists e v, res = inl (Some e, v).
Definition answers (c : pool_call) (a : Http.Response + error) (res : (option error * returned) + stop) : Prop :=
  let g := reading_of rd c in
  match a with
  | inr err => exists v, res = inl (Some err, v)
  | inl resp =>
      if (StatusCode resp <? 400)%Z then
        match rg_parse g with
        | None => res = inl (None, rg_value g (rg_start g))
        | Some parse =>
            if decide (Body resp = "") then fails res
            else match parse (Body resp) (rg_start g) with (v, None) => res = inl (None, rg_value g v) | (_, Some _) => fails res end
        end
      else fails res
  end.

(** The request cannot be made: not for its URL, or its content cannot be written. *)
Definition not_made (access : AccessType) (cmd : option PoolCmd) (url : string) (err : error) : Prop :=
  NewRequest_err (Access2HttpMethod access) url = Some err \/
  if HttpContentInQuery access then exists q, cmd = Some q /\ query_Values q = inr err else json_Marshal cmd = inr err.

Lemma operation_request_err access url cmd hs err :
  operation_request (HttpContentInQuery access) (Access2HttpMethod access) url cmd hs = inr err -> not_made access cmd url err.
Proof.
  unfold operation_request, not_made, query_request, body_request, HttpRequest.http_NewRequest. destruct (HttpContentInQuery access).
  - destruct (NewRequest_err _ _); [intros [= ->]; by left|]. destruct cmd as [q|]; [|done].
    destruct (query_Values q) eqn:Eq; [done|]. intros [= ->]. right. eauto.
  - destruct (json_Marshal cmd); [|intros [= ->]; by right]. destruct (NewRequest_err _ _); [intros [= ->]; by left|done].
Qed.

(** No request at all, or one request with the method, the path and the content of the call. *)
Definition sends_call (c : pool_call) y (res : (option error * returned) + stop) y' : Prop :=
  let url := Url_ (filled (ids_of c) (route (kind_of c)).2) (view y) in
  (exists err v, not_made (route (kind_of c)).1 (protocol ToQueryString c).2 url err /\ sent (view y') = sent (view y) /\ res = inl (Some err, v)) \/
  exists n, sent (view y') = sent (view y) ++ [n] /\
    rq_Method n = Access2HttpMethod (route (kind_of c)).1 /\ rq_Url n = url /\
    carries (route (kind_of c)).1 (protocol ToQueryString c).2 n /\
    answers c (Do (sent (view y)) n) res.

Lemma answers_read c resp res :
  let g := reading_of rd c in let a := read_answer (rg_parse g) (rg_start g) (NewResponse resp) in
  reports rd c (inl (operation_error a.1, a.2)) res -> answers c (inl resp) res.
Proof.
  cbn zeta. unfold read_answer, answers, reports, StatusBadRequest_, resp_Code, resp_Body, fails. cbn [NewResponse Raw].
  destruct (StatusCode resp <? 400)%Z.
  - destruct (rg_parse _) as [parse|]; [|done]. destruct (decide _); [cbn; intros [v ->]; by eexists _, v|].
    destruct (parse _ _) as [v [e|]]; cbn; [intros [w ->]; by eexists _, w|done].
  - destruct (unmarshal_error _) as [e|err]; cbn; intros [v ->]; by eexists _, v.
Qed.

Lemma one_request_sends c o y res o' y' :
  one_request ToQueryString by_http rd c o y res o' y' -> sends_call c y res y'.
Proof.
  unfold one_request. destruct (protocol ToQueryString c) as [[access path] cmd] eqn:Ep.
  pose proof (protocol_route ToQueryString c) as Er. rewrite Ep in Er. cbn [fst] in Er. injection Er as Ea Epath.
  intros (t & w' & op & _ & [Hacc Hpath] & _ & -> & Hres). set (y0 := put w' y).
  assert (Hs : sent (view y0) = sent (view y)) by (unfold y0; by rewrite view_put_r).
  assert (Hc : client_of y0 = view y) by (unfold y0, client_of; by rewrite view_put_r).
  set (g := reading_of rd c) in *.
  assert (HS : spec (by_http (rg_Type g) (resources w') (op_node (operations_ w') op) cmd (rg_parse g) (rg_start g) [])
    (fun r _ y' => forall res, reports rd c r res -> sends_call c y res y') o y0).
  { unfold by_http. eapply spec_Exec; [rewrite Hacc, Ea; apply method_of_route|exact Hpath|]. rewrite Hc, Epath.
    destruct (operation_request _ _ _ _ _) as [n|err] eqn:En; cbn [deliver fst snd]; [|].
    2: { intros res1 [v ->]. left. exists err, v. rewrite Ep. split_and!; [by eapply operation_request_err|by rewrite Hs|done]. }
    apply operation_request_carries in En as (Hm & Hu & Hcar).
    assert (Hn : forall z, sent (view (put (z : RestApiClientBase) (HttpRequest.after_sending n y0))) = sent (view y) ++ [n]).
    { intros z. rewrite view_put_r. unfold HttpRequest.after_sending. rewrite view_put. by rewrite Hs. }
    destruct (Do (sent (view y0)) n) as [resp|err] eqn:Ed; cbn [fst snd]; intros res1 Hr; right; exists n.
    - split_and!; [apply Hn|done|done| |]; rewrite ?Ep; [done|]. rewrite <- Hs, Ed. by apply answers_read.
    - split_and!; [unfold HttpRequest.after_sending; by rewrite view_put, Hs|done|done| |]; rewrite ?Ep; [done|]. rewrite <- Hs, Ed. exact Hr. }
  specialize (HS t). cbv zeta in HS. apply HS. exact Hres.
Qed.
End Client.

(** *** Client and server *)

Section Reach.
Context {X Msg : Type} `{HL : !WithHateoasLinks Msg, PM : !PoolMessages Msg}.
Context `{Lc : !Lens X AuthContext, Lh : !Lens X (Http Msg), La : !Lens X Api, Lp : !Lens X PoolWorld, Lf : !Lens X FilterManager}.
Context `{Dph : !Disjoint_lens X PoolWorld (Http Msg), Dpa : !Disjoint_lens X PoolWorld Api, Dpf : !Disjoint_lens X PoolWorld FilterManager}.
Context `{Ep : !Engine PoolBase, Es : !Engine PoolServiceBase, Ea : !Engine PoolServiceAssociationBase, JE : !JoinEngine}.
Context `{Mr : !MapRange, Vv : !ValueValidator, Cq : !Command DbQuery, Cu : !Command UpdateCmd}.
Context `{Cp : !Command PoolBase, Cs : !Command PoolServiceBase, Ca : !Command PoolServiceAssociationCmd}.
Context `{Vp : !StructValidator PoolBaseData, Dp : !MapDecoder PoolBaseData}.
Context `{Vs : !StructValidator PoolServiceBaseEssentials, Ds : !MapDecoder PoolServiceBaseEssentials}.
Variable text : error -> string.
Variable ParseFloat : string -> option Z.
Variable Unmarshal : string -> Query + error.
Variable pool_model service_model : schema_Schema + error.
Variable server : Server OpLogPool X.
Context {Pc Y : Type} `{Ln : !Lens Y Network, Lr : !Lens Y RestApiClientBase, Lapi : !Lens Y Api}.
Context `{Drn : !Disjoint_lens Y RestApiClientBase Network, Dan : !Disjoint_lens Y Api Network, Dar : !Disjoint_lens Y Api RestApiClientBase}.
Context `{Ht : !HttpTransport, Ej : !ErrorJson, Co : !Commands PoolCmd, Wi : !Wire}.
Variable rd : PoolReaders.
Variable ToQueryString : Db.Filter -> string.
Variable p : PoolClient.

(** The endpoint that gets the request makes the call of the controller, in the database it has, and
    answers with what the call returns. *)
Definition makes_call (c : pool_call) (n : NativeRequest) : Prop :=
  forall ep (st : St OpLogPool X), arrived c n ep (st_ext st) ->
    acceptable ParseFloat Unmarshal pool_model service_model ToQueryString c ep (st_ext st) ->
    let r := handle text ParseFloat Unmarshal pool_model service_model server (kind_of c) ep st in
    exists t, let called := perform c (Build_St t (st_op st) (view (st_ext st))) in
      view (st_ext r.2) = st_ext called.2 /\ oplogs (st_op r.2) = oplogs (st_op called.2) /\
      answered server (kind_of c) called.1 r.1 (st_ext r.2).

(** [C28] A call of the client of pools reaches the controller of the server.  For each of the sixteen
    calls by ID: either the request cannot be made - not for its URL, or its command cannot be written -,
    nothing is sent and the caller is given that error; or one HTTP request is sent, with the method and
    the path of the endpoint of the operation, the IDs of the call in the place of its parameters.  This
    endpoint, when it gets the request, does to the database what the controller does for exactly this
    call - the same object, the same fields of an update, the same filter -, logs what the call logs,
    and answers with its result; provided that the call is [acceptable]: the server's rules accept its
    command, the format loses nothing of it, and the parser of filters reads its filter back.  The
    caller is given what is read from the answer, or an error if the answer is one or cannot be read. *)
Theorem call_reaches_controller c (st : St Pc Y) :
  has_ids c -> client_ready p (view (st_ext st)) ->
  let r := client_perform ToQueryString (by_http (Pc := Pc)) rd p c st in
  let y := st_ext st in let y' := st_ext r.2 in
  let url := Url_ (filled (ids_of c) (route (kind_of c)).2) (view y) in
  (exists err v, not_made (route (kind_of c)).1 (protocol ToQueryString c).2 url err /\ sent (view y') = sent (view y) /\
     r.1 = inl (Some err, v)) \/
  exists n, sent (view y') = sent (view y) ++ [n] /\
    rq_Method n = Access2HttpMethod (route (kind_of c)).1 /\ rq_Url n = url /\
    makes_call c n /\ answers rd c (Do (sent (view y)) n) r.1.
Proof.
  intros Hid W. cbv zeta. destruct st as [t o y]. cbn [st_ext] in *.
  assert (HS : spec (client_perform ToQueryString (by_http (Pc := Pc)) rd p c) (fun res _ y' => sends_call rd ToQueryString c y res y') o y).
  { eapply spec_mono; [intros res o' y' H; exact (one_request_sends (Pc := Pc) rd ToQueryString c o y res o' y' H)|].
    destruct c; first [by apply request_pools|by apply request_services|by apply request_associations]. }
  destruct (HS t) as [H|(n & Hn & Hm & Hu & Hcar & Ha)]; [by left|right]. exists n. split_and!; [done..| |done].
  intros ep sst Harr Hok. by eapply endpoint_performs, asks_call.
Qed.
End Reach.
