(* ===== verification/PoolClientDemo.v ===== *)
(** * A client of pools and a server of pools

    A client whose requests are handled by the server of PoolServerDemo: the calls of a day through
    the network; the theorems on the client and its requests applied. *)
From Stdlib Require Import Ascii.
From S2P Require Import Prelude GoTime Utils Common Errors OpContext Db Crud Crypt Http PoolData Pool PoolInv Access Auth FilterParser ApiResource ApiPaths ApiClone ApiReach Server ServerBuild RestClient ClientRequests ClientDemo ApiRequest PoolService PoolApi PoolServerDemo PoolClient PoolClientPaths PoolClientApi PoolWire.
From stdpp Require Import relations.
Open Scope go_scope.

Module PoolClientDemo.
Import PoolServerDemo.
#[export] Existing Instances ClientDemo.error_json.

(** ** The server behind the network *)

Definition server_prefix := "/api/1.0".
Fixpoint match_parts (l : list part) (segments : list string) : option (list (string * string)) :=
  match l, segments with
  | [], [] => Some []
  | Name n :: l, s :: segments => if decide (n = s) then match_parts l segments else None
  | Param n :: l, s :: segments => (fun ids => (n, s) :: ids) <$> match_parts l segments
  | _, _ => None
  end.
Definition operations : list operation :=
  [KAddPool; KListPools; KFindPool; KUpdatePool; KDeletePool; KListPoolServices; KAddServiceToPool; KRemoveAllServicesFromPool;
   KRemoveServiceFromPool; KAddService; KListServices; KFindService; KUpdateService; KDeleteService; KListServicePools;
   KRemoveServiceFromAllPools].
Definition endpoint_at (k : operation) : Endpoint OpLogPool World :=
  match List.find (fun r => bool_decide (r.1 = (Access2HttpMethod (route k).1, server_prefix +:+ prototype (route k).2))) (routes server) with
  | Some r => r.2
  | None => pool_endpoint k 0
  end.
(** The router: the endpoint of a method and a path, and its parameters. *)
Definition routed (method path : string) : option (operation * list (string * string)) :=
  let found k := if decide (method = Access2HttpMethod (route k).1)
                 then (fun ids => (k, ids)) <$> match_parts (Name "" :: Name "api" :: Name "1.0" :: (route k).2) (Common.Split path "/") else None in
  head (omap found operations).
Definition handle_native (n : NativeRequest) (x : World) : World :=
  match routed (rq_Method n) (rq_Url n) with
  | None => x
  | Some (k, ids) =>
      (serve (Msg := string) no_oplogs server (endpoint_at k) {| hr_method := rq_Method n; hr_params := ids; hr_RawQuery := default "" (rq_RawQuery n); hr_headers := ∅;
        hr_content := rq_Body n; hr_client_ip := "10.0.0.1"; hr_user_agent := "client" |} x).2
  end.
Definition answer_with (code : Z) (body : string) : Http.Response := {| StatusCode := code; rp_Header := ∅; Http.Body := body |}.
Definition answer_of (x : World) : Http.Response :=
  match last (replies (d_http x)) with
  | Some (Json code m) => answer_with code m
  | Some (JsonError code e) => answer_with code (marshal_error e)
  | Some (Status code) => answer_with code ""
  | _ => answer_with 404 ""
  end.
#[export] Instance transport : HttpTransport := {|
  NewRequest_err _ _ := None;
  Do before n := inl (answer_of (foldl (fun x n => handle_native n x) start (before ++ [n])))
|}.

(** The commands of the client: bodies in the formats of the server, queries under the name of the
    field of the struct. *)
#[export] Instance pool_commands : Commands PoolCmd := {|
  json_Marshal cmd := match cmd with
    | None => inl "null"
    | Some (CmdPool p) => SerializeMessage p | Some (CmdService s) => SerializeMessage s
    | Some (CmdAssociation a) => SerializeMessage a | Some (CmdUpdate u) => SerializeMessage u
    | Some (CmdQuery q) => SerializeMessage q
    end;
  query_Values cmd := match cmd with CmdQuery q => inl {["Query" := [Query_ q]]} | _ => inr (Native "not a query") end
|}.
#[export] Instance pool_wire : Wire.
Proof.
  split; [intros ? ? Hl [= <-]; cbn in *; by rewrite Hl..|]. intros [q] v [= <-]. split_and!; [by apply map_Forall_singleton| |].
  - cbn. by rewrite map_to_list_singleton.
  - intros E. by apply (f_equal (fun m : Values => m !! "Query")) in E.
Qed.

(** ** The client *)

Record Client := { k_client : RestApiClientBase; k_net : Network; k_api : Api }.
#[export] Instance k_client_lens : Lens Client RestApiClientBase.
Proof. by refine {| view := k_client; put a w := {| k_client := a; k_net := k_net w; k_api := k_api w |} |}; try intros []. Defined.
#[export] Instance k_net_lens : Lens Client Network.
Proof. by refine {| view := k_net; put a w := {| k_client := k_client w; k_net := a; k_api := k_api w |} |}; try intros []. Defined.
#[export] Instance k_api_lens : Lens Client Api.
Proof. by refine {| view := k_api; put a w := {| k_client := k_client w; k_net := k_net w; k_api := a |} |}; try intros []. Defined.

#[export] Instance k_client_net : Disjoint_lens Client RestApiClientBase Network. Proof. by split. Qed.
#[export] Instance k_api_net : Disjoint_lens Client Api Network. Proof. by split. Qed.
#[export] Instance k_api_client : Disjoint_lens Client Api RestApiClientBase. Proof. by split. Qed.

(** A pool is read from the text of its response. *)
Definition read_name (prefix s : string) : string := match Common.Split s " " with [p; n; _] => if decide (p = prefix) then n else "" | _ => "" end.
Definition readers : PoolReaders := {|
  read_pool s _ := (Some (named_pool (read_name "pool" s)), None);
  read_service s old := (old, None);
  read_pools s _ := let l := match Common.Split s " " with [_; l] => Common.Split l "," | _ => [] end in ((map named_pool l, Z.of_nat (length l)), None);
  read_services s old := (old, None);
  read_bindings s old := (old, None)
|}.
Definition made_client := NewPoolClient no_api.
Definition p : PoolClient := made_client.1.
Definition begin : St OpLogPool Client :=
  Build_St trace0 (st_op PoolInv.Demo.start) {| k_client := DefaultRestApiClient "/api/1.0" []; k_net := {| sent := [] |}; k_api := made_client.2 |}.
Definition no_filter_text (f : Db.Filter) : string := "".
Definition calls := client_perform no_filter_text (by_http (Pc := OpLogPool)) readers p.
End PoolClientDemo.

Section Examples.
Import PoolServerDemo PoolClientDemo.

(** Every route of the server is one of the protocol. *)
Example routes_of_protocol :
  map (fun k => (Access2HttpMethod (route k).1, server_prefix +:+ prototype (route k).2)) operations = map fst (routes server).
Proof. vm_compute. reflexivity. Qed.

Definition result (r : (option error * returned) + stop) : option (option error * returned) := match r with inl r => Some r | inr _ => None end.
Definition error_code (r : (option error * returned) + stop) : option string :=
  match r with inl (Some (Generic code _ _ _), _) => Some code | _ => None end.
(** A pool is added, and again; the pools are listed; a pool that is not there is looked for. *)
Definition day1 := calls (CAddPool (named_pool "main")) begin.
Definition day2 := calls (CAddPool (named_pool "main")) day1.2.
Definition day3 := calls (CGetPools None) day2.2.
Definition day4 := calls (CFindService "none") day3.2.
Example day_of_client :
  result day1.1 = Some (None, RPool (Some (named_pool "main"))) /\
  error_code day2.1 = Some "pool_name_conflict" /\
  result day3.1 = Some (None, RPools [named_pool "main"] 1) /\
  error_code day4.1 = Some "service_not_found".
Proof. vm_compute. repeat split. Qed.
End Examples.

Section Witnesses.
Import ApiDemo PoolServerDemo PoolClientDemo.

(** The resources of the client are built by changes of the tree. *)
Definition client_changes : list change :=
  [DoNew "pool" [set_cfg_HasId true no_config]; DoNew "pool" []; DoNew "pools" [set_cfg_Service true no_config];
   DoAddChild 2 1; DoAddChild 1 0;
   DoNew "service" [set_cfg_HasId true no_config]; DoNew "service" []; DoAddChild 2 4; DoAddChild 4 3;
   DoAddOperation 1 0 []; DoAddOperation 1 1 []; DoAddOperation 4 2 []; DoAddOperation 4 3 []].
Lemma made_client_inv : inv (resources made_client.2).
Proof.
  assert (E : resources made_client.2 = resources (run_changes client_changes no_api)) by (vm_compute; reflexivity).
  rewrite E. apply reachable_inv, run_changes_reachable. all_allowed_go.
Qed.
(** A new client is ready. *)
Lemma made_client_ready : client_ready p made_client.2.
Proof. split; [exact made_client_inv|vm_compute; lia|vm_compute; lia|..]; vm_compute; done. Qed.

Lemma client_requests_witness :
  "p1" <> "" /\
  let r := calls (CFindPool "p1") begin in
  one_request no_filter_text (by_http (Pc := OpLogPool)) readers (CFindPool "p1") (st_op begin) (st_ext begin) r.1 (st_op r.2) (st_ext r.2).
Proof.
  assert (H : has_ids (CFindPool "p1")) by discriminate. split; [exact H|].
  exact (client_requests no_filter_text (by_http (Pc := OpLogPool)) readers p (CFindPool "p1") begin H made_client_ready).
Defined.

(** The request of an association, at the endpoint that gets it. *)
Definition association : pool_call := CAddServiceToPool "p1" "s1" "db".
Definition association_state : St OpLogPool World :=
  Init_request (Msg := string) server (endpoint_at KAddServiceToPool) (request "POST" [("pool", "p1")] "db:s1") start.
Local Abbreviation association_sent := (client_perform no_filter_text (by_http (Pc := OpLogPool)) readers p association begin).

Lemma association_traffic : (fun n => (rq_Method n, rq_Url n, rq_RawQuery n, rq_Body n)) <$> sent (view (st_ext association_sent.2)) =
  [("POST", "/api/1.0/pools/pool/p1/service", None, "db:s1")].
Proof. vm_compute. reflexivity. Qed.

Lemma association_arrived n : default "" (rq_RawQuery n) = "" -> rq_Body n = "db:s1" ->
  arrived (Msg := string) association n (endpoint_at KAddServiceToPool) (st_ext association_state).
Proof.
  intros Hq Hb. split; [vm_compute; reflexivity|rewrite Hq; vm_compute; reflexivity|rewrite Hb; vm_compute; reflexivity|].
  intros name id [[= <- <-]|[]]. vm_compute. reflexivity.
Qed.
Lemma association_acceptable :
  acceptable (fun _ => None) no_query no_model no_model no_filter_text association (endpoint_at KAddServiceToPool) (st_ext association_state).
Proof. split; vm_compute; reflexivity. Qed.

Lemma call_reaches_controller_witness :
  exists n, sent (view (st_ext association_sent.2)) = [n] /\
    rq_Method n = "POST" /\ rq_Url n = "/api/1.0/pools/pool/p1/service" /\ rq_Body n = "db:s1" /\
    makes_call (Msg := string) text (fun _ => None) no_query no_model no_model server no_filter_text association n /\
    arrived (Msg := string) association n (endpoint_at KAddServiceToPool) (st_ext association_state) /\
    acceptable (fun _ => None) no_query no_model no_model no_filter_text association (endpoint_at KAddServiceToPool) (st_ext association_state).
Proof.
  pose proof (call_reaches_controller text (fun _ => None) no_query no_model no_model server readers no_filter_text p association begin
    ltac:(discriminate) made_client_ready) as H. cbv zeta in H.
  pose proof association_traffic as E. revert H E.
  lazymatch goal with |- context [st_ext (?m ?s0).2] => generalize (m s0) end. intros s H E.
  destruct H as [(e & v & _ & Hs & _)|(n & Hs & _ & _ & Hcall & _)]; rewrite Hs in E; [discriminate E|].
  exists n. injection E as E1 E2 E3 E4. split; [exact Hs|]. split_and!; [done..|exact Hcall| |exact association_acceptable].
  apply association_arrived; [by rewrite E3|done].
Defined.
End Witnesses.
