(* ===== verification/Pubkey.v ===== *)
(** * pkg/signature/user_pubkey: the public keys of users

    A user has public keys of which one is active.  A key is checked by a manager of signatures
    (interface [KeyChecks], implemented by [SignatureManagerBase]), and added in a transaction that
    deactivates the key before.  The calls on the table of keys go to the transaction when the context
    has one ([Route]), and only what goes there is taken back when the transaction fails.  In every
    reachable state no user has two active keys
    ([reachable_one_active]). *)
From S2P Require Import Prelude Utils Common Errors OpContext Db Crud Auth Crypt Session Users Signature.
Open Scope go_scope.

(** ** Data (user_pubkey.go, db_models.go) *)

Record UserPubkey := {
  k_base : ObjectBase.t; ACTIVE : bool; PublicKey_ : string; PublicKeyHash : string; PublicKeyOwner : string
}.
#[export] Instance pubkey_eq_dec : EqDecision UserPubkey.
Proof. solve_decision. Defined.
Record OpLogPubKey := { okl_user : OpLogUser; KeyId : string; KeyHash : string }.

Definition set_k_base b k : UserPubkey :=
  {| k_base := b; ACTIVE := ACTIVE k; PublicKey_ := PublicKey_ k; PublicKeyHash := PublicKeyHash k; PublicKeyOwner := PublicKeyOwner k |}.
Definition SetActive v k : UserPubkey :=
  {| k_base := k_base k; ACTIVE := v; PublicKey_ := PublicKey_ k; PublicKeyHash := PublicKeyHash k; PublicKeyOwner := PublicKeyOwner k |}.
Definition SetPubKey v k : UserPubkey :=
  {| k_base := k_base k; ACTIVE := ACTIVE k; PublicKey_ := v; PublicKeyHash := PublicKeyHash k; PublicKeyOwner := PublicKeyOwner k |}.
Definition SetPubKeyHash v k : UserPubkey :=
  {| k_base := k_base k; ACTIVE := ACTIVE k; PublicKey_ := PublicKey_ k; PublicKeyHash := v; PublicKeyOwner := PublicKeyOwner k |}.
Definition SetPubKeyOwner v k : UserPubkey :=
  {| k_base := k_base k; ACTIVE := ACTIVE k; PublicKey_ := PublicKey_ k; PublicKeyHash := PublicKeyHash k; PublicKeyOwner := v |}.
Definition NewKey : UserPubkey :=
  {| k_base := ObjectBase.zero; ACTIVE := false; PublicKey_ := ""; PublicKeyHash := ""; PublicKeyOwner := "" |}.

Definition pubkey_columns : list (string * Col UserPubkey) :=
  Eval cbn in object_columns k_base set_k_base ++
  [("active", bool_col ACTIVE SetActive); ("public_key", str_col PublicKey_ SetPubKey);
   ("public_key_hash", str_col PublicKeyHash SetPubKeyHash); ("public_key_owner", str_col PublicKeyOwner SetPubKeyOwner)].
#[export] Instance pubkey_entity : Entity UserPubkey := {|
  obj_base := k_base; set_base := set_k_base; columns := pubkey_columns;
  unique_indexes := [["id"]; ["public_key_hash"; "public_key_owner"]]
|}.
#[export] Instance pubkey_entity_ok : EntityOk UserPubkey.
Proof. split; try done. solve_columns. Qed.

Definition ErrorCodeDuplicateKey := "duplicate_pubkey".
Definition ErrorCodeActiveKeyNotFound := "active_pubkey_not_found".
Definition ErrorDescriptions : gmap string string := list_to_map
  [(ErrorCodeDuplicateKey, "Duplicate key already loaded."); (ErrorCodeActiveKeyNotFound, "Active public key not found.")].
Definition ErrorHttpCodes : gmap string Z := {[ErrorCodeActiveKeyNotFound := 404%Z]}.
Definition AttachToErrorManager (m : ErrorManagerBase.t) : ErrorManagerBase.t :=
  ErrorManagerBase.AddErrorProtocolCodes ErrorHttpCodes (ErrorManagerBase.AddErrorDescriptions ErrorDescriptions m).

(** ** Interfaces *)

(** [CheckPubKey] of a manager of signatures; an accepted key is a [valid_key]. *)
Class KeyChecks (P X : Type) := {
  CheckPubKey : string -> M (St P X) (option error);
  valid_key : string -> Prop
}.
Class KeyChecksOk (P X : Type) `{KeyChecks P X} :=
  check_key key (Q : option error -> Op P -> X -> Prop) o x :
    (forall r o', oplogs o' = oplogs o -> (r = None -> valid_key key) -> Q r o' x) -> spec (CheckPubKey key) Q o x.

Section Implementation.
Context {P X : Type} `{Rl : !RsaLib}.
Definition implementation (s : SignatureManagerBase.t) : KeyChecks P X := {|
  CheckPubKey := SignatureManagerBase.CheckPubKey s;
  valid_key key := exists pub, RsaVerifier.LoadKey key = inl pub
|}.
Lemma implementation_ok s : KeyChecksOk P X (H := implementation s).
Proof.
  intros key Q o x HQ. cbn. unfold SignatureManagerBase.CheckPubKey, SignatureManagerBase.MakeVerifier. spec_go.
  destruct (decide _); cbn zeta; [spec_go; by apply HQ|]. destruct (RsaVerifier.LoadKey key) as [pub|err] eqn:E; spec_go.
  - apply HQ; [done|]. intros _. by exists pub.
  - apply HQ; [|done]. unfold with_code. by destruct (genericError o).
Qed.
End Implementation.

(** A database refuses to begin or to commit a transaction at some queries. *)
Class Transactions := { tx_begin : nat -> option error; tx_commit : nat -> option error }.

(** The database a call works on ([op_context.DB]): the transaction of the context if there is one,
    else the database itself.  Outside of transactions both are the same. *)
Class Route (P X : Type) := { through {A : Type} : M (St P X) A -> M (St P X) A }.
#[export] Instance direct {P X} : Route P X | 10 := {| through A m := m |}.

(** In an open transaction the state has the table of keys as the transaction sees it, and next to
    it the rows as they are without the transaction. *)
Definition InTx (X : Type) : Type := X * list UserPubkey.
#[export] Instance tx_lens {X B} `{!Lens X B} : Lens (InTx X) B.
Proof.
  refine {| view s := view s.1; put b s := (put b s.1, s.2) |}.
  - intros b s. cbn. apply view_put.
  - intros [x l]. cbn. by rewrite put_view.
  - intros b b' s. cbn. by rewrite put_put.
Defined.
#[export] Instance tx_disjoint {X B C} `{!Lens X B, !Lens X C, !Disjoint_lens X B C} : Disjoint_lens (InTx X) B C.
Proof. split; intros; cbn; [apply view_put_l|apply view_put_r]. Qed.
Definition swapped {X} `{!Lens X (table UserPubkey)} (s : InTx X) : InTx X :=
  let t := view s.1 in (put {| rows := s.2; queries := queries t |} s.1, rows t).
#[export] Instance in_transaction {P X} `{!Lens X (table UserPubkey)} : Route P (InTx X) | 0 := {|
  through A m :=
    let* target := on_op (gets (fun o => DB o [])) in
    match target with
    | TargetTransaction => m
    | TargetMain | TargetDb => on_ext (modify swapped) ;; let* a := m in on_ext (modify swapped) ;; ret a
    end
|}.

(** The rows after a commit: those of the transaction, unless some were written past it meanwhile;
    then the rows it has changed, deleted and added are changed, deleted and added there. *)
Definition row_of (id : string) (rs : list UserPubkey) : option UserPubkey := List.find (fun r => bool_decide (Db.GetID r = id)) rs.
Definition committed (base tx outside : list UserPubkey) : list UserPubkey :=
  if decide (outside = base) then tx
  else concat (map (fun r => match row_of (Db.GetID r) base, row_of (Db.GetID r) tx with
                             | None, _ => [r]
                             | Some r0, Some r' => if decide (r' = r0) then [r] else [r']
                             | Some _, None => []
                             end) outside) ++
       List.filter (fun r => bool_decide (row_of (Db.GetID r) base = None)) tx.

(** ** The controller (user_pubkey_controller.go) *)

Section Calls.
Context {X R : Type} `{Eu : Entity R, Ur : !UserRow R, Lk : !Lens X (table UserPubkey), Le : !Lens X Env, Ek : !Engine UserPubkey}.
Context `{Di : !Digest, Sc : !StringCoding, Ro : !Route OpLogPubKey X}.
Local Abbreviation act := (M (St OpLogPubKey X)).

Definition SetDbTransaction (b : bool) : act unit := on_op (modify (set_dbTransaction b)).

Definition OpLog_ (op userId login keyId keyHash : string) : act unit :=
  AddOplog (new_oplog op {| okl_user := {| ol_Login := login; ol_UserId := userId |}; KeyId := keyId; KeyHash := keyHash |}).

Definition active_fields (user : R) : Fields := <["active" := VBool true]> {["public_key_owner" := VStr (Db.GetID user)]}.

(** The identifier of a key is given to the query as a list of one. *)
Definition deactivateKey (c : nat) (user : R) (keyId : list string) : act (option error) :=
  let fields := match keyId with
                | id :: _ => if decide (id <> "") then <["id" := VStr id]> (active_fields user) else active_fields user
                | [] => active_fields user
                end in
  let* '(found, err, doc) := through (DbCRUD.Read fields NewKey) in
  match err with
  | Some _ => SetMessage c "failed to find previous key" ;; SetError c err
  | None =>
      if found then
        let* '(err, doc) := through (DbCRUD.Update doc {["active" := VBool false]}) in
        match err with
        | Some _ => SetMessage c "failed to deactivate previous key" ;; SetError c err
        | None =>
            OpLog_ "deactivate_pubkey" (Db.GetID user) (RowLogin user) (Db.GetID doc) (PublicKeyHash doc) ;; ret None
        end
      else ret None
  end.

(** In the transaction. *)
Definition add_key_body (c : nat) (user : R) (key hash : string) : act (option error * UserPubkey) :=
  let* '(exists_, err) := through (DbCRUD.Exists (R := UserPubkey)
      (Filter.AddField "public_key_hash" (VStr hash) (Filter.AddField "public_key_owner" (VStr (Db.GetID user)) NewFilter))) in
    match err with
    | Some _ => SetMessage c "failed to check if this key exists" ;; ret (err, NewKey)
    | None =>
        if exists_ then SetGenericErrorCode ErrorCodeDuplicateKey [] ;; ret (Some (Native "duplicate pubkey"), NewKey)
        else
          let* err := deactivateKey c user [] in
          match err with
          | Some _ => ret (err, NewKey)
          | None =>
              let* doc := on (InitObject NewKey) in
              let doc := SetPubKeyOwner (Db.GetID user) (SetPubKeyHash hash (SetPubKey key (SetActive true doc))) in
              let* err := through (DbCRUD.Create doc) in
              match err with
              | Some _ => SetMessage c "failed to create pubkey in database" ;; ret (err, doc)
              | None => OpLog_ "add_pubkey" (Db.GetID user) (RowLogin user) (Db.GetID doc) hash ;; ret (None, doc)
              end
          end
    end.
(** [ClearDbTransaction] is deferred. *)
Definition add_key (c : nat) (user : R) (key hash : string) : act (option error * UserPubkey) :=
  SetDbTransaction true ;;
  let* r := add_key_body c user key hash in
  SetDbTransaction false ;; ret r.
End Calls.

Section Controller.
Context {X R : Type} `{Eu : Entity R, Ur : !UserRow R, En : !Engine R, Lu : !Lens X (table R)}.
Context `{Lk : !Lens X (table UserPubkey), Le : !Lens X Env, Ek : !Engine UserPubkey, Tx : !Transactions}.
Context `{Kc : !KeyChecks OpLogPubKey X, Di : !Digest, Sc : !StringCoding}.
Local Abbreviation act := (M (St OpLogPubKey X)).

Definition set_keys (rs : list UserPubkey) : act unit :=
  on (modify (fun t : table UserPubkey => {| rows := rs; queries := S (queries t) |})).
(** The body of a transaction, run from the given rows: what it returns, and the rows without the
    transaction's writes. *)
Definition within {A} (base : list UserPubkey) (body : M (St OpLogPubKey (InTx X)) A) : act (A * list UserPubkey) := fun st =>
  let '(a, st') := body (Build_St (st_trace st) (st_op st) (st_ext st, base)) in
  ((a, (st_ext st').2), Build_St (st_trace st') (st_op st') (st_ext st').1).

(** [ctx.Db().Transaction]: an error takes the writes back that went through the transaction. *)
Definition Transaction {A} (body : M (St OpLogPubKey (InTx X)) (option error * A)) (a0 : A) : act (option error * A) :=
  let* t0 := on (gets (fun t : table UserPubkey => t)) in
  match tx_begin (queries t0) with
  | Some err => set_keys (rows t0) ;; ret (Some err, a0)
  | None =>
      let* '((err, a), outside) := within (rows t0) body in
      let* t := on (gets (fun t : table UserPubkey => t)) in
      match err with
      | Some _ => set_keys outside ;; ret (err, a)
      | None =>
          match tx_commit (queries t) with
          | Some err => set_keys outside ;; ret (Some err, a)
          | None => set_keys (committed (rows t0) (rows t) outside) ;; ret (None, a)
          end
      end
  end.

Definition AddPubKey (userId key : string) (idIsLogin : list bool) : act (string * option error) :=
  traced_exit "PubkeyController.AddPubKey" (fun c =>
    let* err := CheckPubKey key in
    match err with
    | Some _ => SetMessage c "invalid key format" ;; ret (("", err), err)
    | None =>
        let* '(user, err) := UserController.FindUser (R := R) userId idIsLogin in
        match err, user with
        | Some _, _ => ret (("", err), err)
        | None, None => ret (("", Some nil_user), None)
        | None, Some user =>
            let hash := H256B64 key [] in
            let* '(err, doc) := Transaction (add_key c user key hash) NewKey in
            match err with
            | Some _ => ret (("", err), err)
            | None => ret ((Db.GetID doc, None), None)
            end
        end
    end).

Definition DeactivatePubKey (userId keyId : string) (idIsLogin : list bool) : act (option error) :=
  traced_exit "PubkeyController.DeactivatePubKey" (fun c =>
    let* '(user, err) := UserController.FindUser (R := R) userId idIsLogin in
    match err, user with
    | Some _, _ => ret (err, err)
    | None, None => ret (Some nil_user, None)
    | None, Some user => let* err := deactivateKey c user [keyId] in ret (err, err)
    end).

Definition FindActivePubKey (userId : string) (idIsLogin : list bool) : act (option UserPubkey * option error) :=
  traced_exit "PubkeyController.FindActivePubKey" (fun c =>
    let* '(user, err) := UserController.FindUser (R := R) userId idIsLogin in
    match err, user with
    | Some _, _ => ret ((None, err), err)
    | None, None => ret ((None, Some nil_user), None)
    | None, Some user =>
        let* '(found, err, doc) := DbCRUD.Read (active_fields user) NewKey in
        match err with
        | Some _ => SetMessage c "failed to find active public key" ;; ret ((None, err), err)
        | None =>
            if negb found then
              SetGenericErrorCode ErrorCodeActiveKeyNotFound [] ;;
              let err := Some (Native "key not found") in ret ((None, err), err)
            else ret ((Some doc, None), None)
        end
    end).

Definition ListPubKeys (filter : option Filter) : act (list UserPubkey * Z * option error) :=
  traced_exit "PubkeyController.ListPubKeys" (fun c =>
    let* '(docs, count, err) := DbCRUD.List_ filter in
    match err with
    | Some _ => SetMessage c "failed to read documents from database" ;; ret (([], 0%Z, err), err)
    | None => ret ((docs, count, None), None)
    end).
End Controller.

(** ** One active key *)

(** No two active keys of one owner. *)
Definition one_active (rs : list UserPubkey) : Prop :=
  table_ok rs /\
  forall r1 r2, r1 ∈ rs -> r2 ∈ rs -> ACTIVE r1 = true -> ACTIVE r2 = true -> PublicKeyOwner r1 = PublicKeyOwner r2 -> r1 = r2.
Definition off (owner : string) (rs : list UserPubkey) : Prop :=
  Forall (fun r => ACTIVE r = true -> PublicKeyOwner r <> owner) rs.
(** The key is as it was or has become inactive. *)
Definition turned_off (owner : string) (r r' : UserPubkey) : Prop :=
  r' = r \/
  PublicKeyOwner r = owner /\ ACTIVE r' = false /\ Db.GetID r' = Db.GetID r /\ PublicKeyOwner r' = owner /\
  PublicKeyHash r' = PublicKeyHash r /\ PublicKey_ r' = PublicKey_ r.
Definition deactivated (owner : string) : list UserPubkey -> list UserPubkey -> Prop := Forall2 (turned_off owner).

Lemma one_active_nil : one_active [].
Proof. split; [repeat constructor|]. intros r1 r2 H. inversion H. Qed.

Lemma turned_off_refl owner rs : deactivated owner rs rs.
Proof. unfold deactivated. induction rs as [|r rs IH]; constructor; [by left|done]. Qed.

Lemma turned_off_active owner r r' : turned_off owner r r' -> ACTIVE r' = true -> r' = r.
Proof. intros [?|(_ & Ha & _)]; [done|congruence]. Qed.

Lemma deactivated_in owner rs rs' r' : deactivated owner rs rs' -> r' ∈ rs' -> exists r, r ∈ rs /\ turned_off owner r r'.
Proof.
  intros H Hin. apply list_elem_of_lookup in Hin as [i Hi]. destruct (Forall2_lookup_r _ _ _ _ _ H Hi) as (r & Hr & Ht).
  exists r. split; [by eapply list_elem_of_lookup_2|done].
Qed.

Lemma one_active_deactivated owner rs rs' : one_active rs -> table_ok rs' -> deactivated owner rs rs' -> one_active rs'.
Proof.
  intros [_ Hone] Hok Hd. split; [done|]. intros r1' r2' H1 H2 A1 A2 Ho.
  destruct (deactivated_in _ _ _ _ Hd H1) as (r1 & Hr1 & T1). destruct (deactivated_in _ _ _ _ Hd H2) as (r2 & Hr2 & T2).
  apply turned_off_active in T1 as ->; [|done]. apply turned_off_active in T2 as ->; [|done]. by apply Hone.
Qed.

Lemma assign_off r now : assign_all (<["updated_at" := VTime now]> {["active" := VBool false]}) r =
  SetActive false (set_k_base (ObjectBase.SetUpDatedAt now (k_base r)) r).
Proof. reflexivity. Qed.

Lemma updated_off rs doc now :
  table_ok rs -> doc ∈ rs ->
  deactivated (PublicKeyOwner doc) rs
    (updated_rows {["id" := VStr (Db.GetID doc)]} (<["updated_at" := VTime now]> {["active" := VBool false]}) rs).
Proof.
  intros Hok Hin. unfold deactivated, updated_rows.
  assert (Hall : Forall (fun r => Db.GetID r = Db.GetID doc -> r = doc) rs).
  { apply Forall_forall. intros r Hr E. apply (unique_id_inj ["id"] rs); [set_solver|done..|]. by apply index_key_id. }
  clear Hok Hin. induction Hall as [|r rs Hr _ IH]; [constructor|]. cbn [map]. constructor; [|done].
  rewrite matches_id. case_bool_decide as E; [|by left]. right. rewrite assign_off. rewrite (Hr E) in *. by split_and!.
Qed.

(** The key that was active is off afterwards. *)
Lemma updated_all_off rs doc now :
  one_active rs -> doc ∈ rs -> ACTIVE doc = true ->
  off (PublicKeyOwner doc) (updated_rows {["id" := VStr (Db.GetID doc)]} (<["updated_at" := VTime now]> {["active" := VBool false]}) rs).
Proof.
  intros [Hok Hone] Hin Ha. apply Forall_forall. intros r' Hr' Ha' Ho. unfold updated_rows in Hr'.
  apply list_elem_of_In, in_map_iff in Hr' as (r & <- & Hr). apply list_elem_of_In in Hr. revert Ha' Ho.
  rewrite matches_id. case_bool_decide as E; [by rewrite assign_off|]. intros Ha' Ho. apply E. f_equal. by apply Hone.
Qed.

Lemma one_active_add owner rs doc :
  one_active rs -> off owner rs -> PublicKeyOwner doc = owner -> table_ok (rs ++ [doc]) -> one_active (rs ++ [doc]).
Proof.
  intros [_ Hone] Hoff Ho Hok. split; [done|]. unfold off in Hoff. rewrite Forall_forall in Hoff.
  intros r1 r2. rewrite !elem_of_app, !list_elem_of_singleton. intros [H1| ->] [H2| ->] A1 A2 E; [by apply Hone| | |done].
  - destruct (Hoff _ H1 A1). congruence.
  - destruct (Hoff _ H2 A2). congruence.
Qed.

(** ** What the operations do *)

(** How the calls on the table of keys go: to the table that the state shows, as long as the context
    says so, and without touching the rest of the state. *)
Class RouteOk (Y : Type) `{!Lens Y (table UserPubkey), !Lens Y Env, !Route OpLogPubKey Y} := {
  open_for : bool -> Prop;
  rest : Y -> list UserPubkey;
  spec_through {A} (m : M (St OpLogPubKey Y) A) (Q : A -> Op OpLogPubKey -> Y -> Prop) o x :
    open_for (dbTransaction o) -> spec m Q o x -> spec (through m) Q o x;
  rest_keys t x : rest (put (t : table UserPubkey) x) = rest x;
  rest_env e x : rest (put (e : Env) x) = rest x
}.
#[export] Instance direct_ok {X} `{!Lens X (table UserPubkey), !Lens X Env} : RouteOk X.
Proof. by refine {| open_for _ := True; rest _ := [] |}. Defined.
#[export] Instance in_transaction_ok {X} `{!Lens X (table UserPubkey), !Lens X Env} : RouteOk (InTx X).
Proof.
  refine {| open_for b := b = true; rest s := s.2 |}; [|done..].
  intros A m Q o x Ho Hm. cbn [through in_transaction]. apply spec_bind, spec_on_op. unfold DB. cbn [gets fst snd]. rewrite Ho. exact Hm.
Defined.

(** *** The calls on the table of keys *)

Section Calls.
Context {Y R : Type} `{Eu : Entity R, Ur : !UserRow R}.
Context `{Lk : !Lens Y (table UserPubkey), Le : !Lens Y Env, Dke : !Disjoint_lens Y (table UserPubkey) Env}.
Context `{Ek : !Engine UserPubkey, Eko : !EngineOk UserPubkey, Di : !Digest, Sc : !StringCoding}.
Context `{Ro : !Route OpLogPubKey Y, Rok : !RouteOk Y}.
Implicit Types (o : Op OpLogPubKey) (x : Y).

Definition keys x : list UserPubkey := rows (view x).

Lemma matches_active (user : R) (r : UserPubkey) :
  matches (active_fields user) r = true <-> ACTIVE r = true /\ PublicKeyOwner r = Db.GetID user.
Proof.
  rewrite matches_spec. unfold active_fields. split.
  - intros H. split.
    + specialize (H "active" _ (lookup_insert_eq _ _ _)). by injection H.
    + specialize (H "public_key_owner" (VStr (Db.GetID user))). rewrite lookup_insert_ne, lookup_singleton_eq in H by done.
      specialize (H eq_refl). by injection H.
  - intros [Ha Ho] k v. rewrite lookup_insert_Some, lookup_singleton_Some. intros [[<- <-]|[_ [<- <-]]].
    + change (Some (VBool (ACTIVE r)) = Some (VBool true)). congruence.
    + change (Some (VStr (PublicKeyOwner r)) = Some (VStr (Db.GetID user))). congruence.
Qed.

(** [deactivateKey] of a user: an error changes nothing, otherwise keys of the user are turned off. *)
Definition fields_of (user : R) (keyId : list string) : Fields :=
  match keyId with
  | id :: _ => if decide (id <> "") then <["id" := VStr id]> (active_fields user) else active_fields user
  | [] => active_fields user
  end.
Lemma matches_fields_of user keyId (r : UserPubkey) : matches (fields_of user keyId) r = true -> matches (active_fields user) r = true.
Proof.
  unfold fields_of. destruct keyId as [|id l]; [done|]. destruct (decide _); [|done]. rewrite !matches_spec. intros H k v Hk.
  apply H. rewrite lookup_insert_ne; [done|]. intros <-. unfold active_fields in Hk.
  by rewrite lookup_insert_ne, lookup_singleton_ne in Hk.
Qed.

(** A call leaves the rest, and the keys that are not its own business, alone. *)
Definition still x x' : Prop := keys x' = keys x /\ rest x' = rest x.
Lemma still_queried x : still x (put (queried (rows (view (A := table UserPubkey) x)) (view x)) x).
Proof. split; [unfold keys; by rewrite view_put|apply rest_keys]. Qed.

(** A read by fields, by cases. *)
Lemma spec_read_cases f (obj : UserPubkey) (Q : bool * option error * UserPubkey -> Op OpLogPubKey -> Y -> Prop) o x :
  open_for (Y := Y) (dbTransaction o) -> typed (R := UserPubkey) f = true ->
  (forall b e obj' x', still x x' -> Q (b, Some e, obj') o x') ->
  (forall r x', r ∈ keys x -> matches f r = true -> still x x' -> Q (true, None, r) o x') ->
  (forall x', Forall (fun r => matches f r = false) (keys x) -> still x x' -> Q (false, None, obj) o x') ->
  spec (through (DbCRUD.Read f obj)) Q o x.
Proof.
  intros Ho Ht He Hy Hn. apply spec_through; [done|]. apply spec_read_with. intros row e E. pose proof (still_queried x) as Hk.
  destruct e as [e|]; [by apply He|]. destruct row as [r|]; cbn [find_post] in E.
  - rewrite bool_decide_eq_true_2 by eauto. destruct E; by apply Hy.
  - assert (Hb : bool_decide (is_Some (@None UserPubkey)) = false) by reflexivity. rewrite Hb. apply Hn; [by apply E|done].
Qed.

Lemma fields_of_typed (user : R) keyId : typed (R := UserPubkey) (fields_of user keyId) = true.
Proof.
  assert (Ha : typed (R := UserPubkey) (active_fields user) = true) by (apply typed_insert; [done|by apply typed_singleton]).
  unfold fields_of. destruct keyId; [done|]. destruct (decide _); [apply typed_insert; [reflexivity|done]|done].
Qed.

(** The update that turns an active key off. *)
Lemma spec_turn_off doc (Q : option error * UserPubkey -> Op OpLogPubKey -> Y -> Prop) o x :
  open_for (Y := Y) (dbTransaction o) -> one_active (keys x) -> doc ∈ keys x -> ACTIVE doc = true ->
  (forall e doc' x', still x x' -> Q (Some e, doc') o x') ->
  (forall doc' x', rest x' = rest x -> deactivated (PublicKeyOwner doc) (keys x) (keys x') -> one_active (keys x') ->
     off (PublicKeyOwner doc) (keys x') -> Q (None, doc') o x') ->
  spec (through (DbCRUD.Update doc {["active" := VBool false]})) Q o x.
Proof.
  intros Hop Hinv Hin Ha He HQ. apply spec_through; [done|]. apply spec_DbUpdate. intros e obj' env' rs' Hpost _ _.
  set (x' := put _ _). assert (Hx : keys x' = rs') by (unfold keys, x'; by rewrite view_put).
  assert (Hr : rest x' = rest x) by (unfold x'; by rewrite rest_keys, rest_env).
  destruct e as [e|]; cbn [update_post] in Hpost; [apply He; split; by rewrite ?Hx|].
  destruct Hpost as [[now Hrs] [Hok _]]. specialize (Hrs eq_refl). fold (keys x) in Hrs, Hok.
  assert (Hd : deactivated (PublicKeyOwner doc) (keys x) rs') by (rewrite Hrs; apply updated_off; [apply Hinv|done]).
  apply HQ; rewrite ?Hx; [done|done| |rewrite Hrs; by apply updated_all_off].
  eapply one_active_deactivated; [done|apply Hok, Hinv|done].
Qed.

(** [deactivateKey] of a user: an error changes nothing, otherwise keys of the user are turned off. *)
Lemma spec_deactivateKey c (user : R) keyId (Q : option error -> Op OpLogPubKey -> Y -> Prop) o x :
  open_for (Y := Y) (dbTransaction o) -> one_active (keys x) ->
  (forall e x', still x x' -> Q (Some e) o x') ->
  (forall o' x', dbTransaction o' = dbTransaction o -> rest x' = rest x -> deactivated (Db.GetID user) (keys x) (keys x') ->
     one_active (keys x') -> (keyId = [] -> off (Db.GetID user) (keys x')) -> Q None o' x') ->
  spec (deactivateKey c user keyId) Q o x.
Proof.
  intros Hop Hinv He HQ. unfold deactivateKey. fold (fields_of user keyId). cbn zeta. apply spec_bind, spec_read_cases; [done|apply fields_of_typed| | |].
  - intros b e obj' x' Hk. spec_go. by apply He.
  - intros doc x' Hin Hm [Hk Hr]. apply matches_fields_of, matches_active in Hm as [Ha Ho]. rewrite <- Hk in Hin, Hinv.
    apply spec_bind, spec_turn_off; [done..| |].
    + intros e doc' x1 [Hk1 Hr1]. spec_go. apply He. split; congruence.
    + rewrite Ho, Hk. intros doc' x1 Hr1 Hd Hone Hoff. unfold OpLog_. spec_go. apply HQ; [done|congruence|done..].
  - intros x' Hn [Hk Hr]. spec_go. apply HQ; rewrite ?Hk; [done|done|apply turned_off_refl|done|]. intros ->. apply Forall_forall. intros r Hin Ha Ho.
    rewrite Forall_forall in Hn. specialize (Hn r Hin). cbn [fields_of] in Hn.
    destruct (matches_active user r) as [_ Hm]. rewrite (Hm (conj Ha Ho)) in Hn. inversion Hn.
Qed.
(** The key that is added. *)
Definition added (owner key : string) (rs rs' : list UserPubkey) (doc : UserPubkey) : Prop :=
  exists rs1, rs' = rs1 ++ [doc] /\ deactivated owner rs rs1 /\ off owner rs1 /\
    ACTIVE doc = true /\ PublicKeyOwner doc = owner /\ PublicKey_ doc = key /\ PublicKeyHash doc = H256B64 key [] /\
    Forall (fun r => PublicKeyOwner r = owner -> PublicKeyHash r <> H256B64 key []) rs.

Lemma spec_key_exists (owner hash : string) (Q : bool * option error -> Op OpLogPubKey -> Y -> Prop) o x :
  open_for (Y := Y) (dbTransaction o) ->
  (forall e x', still x x' -> Q (false, Some e) o x') ->
  (forall x', still x x' -> Q (true, None) o x') ->
  (forall x', Forall (fun r => PublicKeyOwner r = owner -> PublicKeyHash r <> hash) (keys x) -> still x x' -> Q (false, None) o x') ->
  spec (through (DbCRUD.Exists (R := UserPubkey)
    (Filter.AddField "public_key_hash" (VStr hash) (Filter.AddField "public_key_owner" (VStr owner) NewFilter)))) Q o x.
Proof.
  intros Hop He Hy Hn. pose proof (still_queried x) as Hk. apply spec_through; [done|]. apply spec_exists_plain.
  - done.
  - apply typed_insert; [done|by apply typed_singleton].
  - intros e. by apply He.
  - intros r _ _. by apply Hy.
  - intros Hall. apply Hn; [|done]. eapply Forall_impl; [exact Hall|]. intros r Hm Ho Hh. revert Hm. apply not_false_iff_true.
    rewrite matches_spec. intros k v. cbn [f_Fields Filter.AddField NewFilter]. rewrite lookup_insert_Some, lookup_insert_Some, lookup_empty.
    intros [[<- <-]|[_ [[<- <-]|[_ ?]]]]; [| |discriminate].
    + change (Some (VStr (PublicKeyHash r)) = Some (VStr hash)). congruence.
    + change (Some (VStr (PublicKeyOwner r)) = Some (VStr owner)). congruence.
Qed.

(** Run with the transaction in the context, every call of the body goes through the transaction. *)
Lemma spec_add_key c (user : R) key (Q : option error * UserPubkey -> Op OpLogPubKey -> Y -> Prop) o x :
  open_for (Y := Y) true -> one_active (keys x) ->
  (forall e doc o' x', rest x' = rest x -> Q (Some e, doc) o' x') ->
  (forall doc o' x', rest x' = rest x -> one_active (keys x') -> added (Db.GetID user) key (keys x) (keys x') doc -> Q (None, doc) o' x') ->
  spec (add_key c user key (H256B64 key [])) Q o x.
Proof.
  intros Hop Hinv He HQ. unfold add_key, SetDbTransaction. apply spec_bind, spec_on_op, spec_bind. cbn [fst snd modify].
  eapply spec_mono with (Q := fun r o' x' => forall o'', Q r o'' x').
  { intros r o' x' Hr. by apply spec_bind, spec_on_op, spec_ret. }
  set (o0 := set_dbTransaction true o). assert (Ht : dbTransaction o0 = true) by done. clearbody o0. rewrite <- Ht in Hop.
  unfold add_key_body. apply spec_bind, spec_key_exists; [done|..].
  - intros e x' [_ Hr]. spec_go. intros ?. by apply He.
  - intros x' [_ Hr]. spec_go. intros ?. by apply He.
  - intros x' Hnew [Hk Hr]. rewrite <- Hk in *. apply spec_bind, spec_deactivateKey; [done|done| |].
    + intros e x1 [_ Hr1]. spec_go. intros ?. apply He. congruence.
    + intros o1 x1 Ho1 Hr1 Hd Hone Hoff. specialize (Hoff eq_refl). spec_go. apply spec_on, wp_InitObject. intros b env _ _.
      cbn zeta. apply spec_bind, spec_through; [congruence|].
      apply spec_DbCreate. intros e rs' Hpost. set (x2 := put _ _). assert (Hx : keys x2 = rs') by (unfold keys, x2; by rewrite view_put).
      assert (Hr2 : rest x2 = rest x) by (unfold x2; rewrite rest_keys, rest_env; congruence).
      rewrite view_put_l in Hpost. fold (keys x1) in Hpost. destruct e as [e|]; [spec_go; intros ?; by apply He|].
      destruct Hpost as [-> Hok]. unfold OpLog_. spec_go. intros ?. apply HQ; rewrite ?Hx; [done| |].
      * eapply one_active_add; [done|exact Hoff|done|]. by apply Hok, Hone.
      * exists (keys x1). by split_and!.
Qed.
End Calls.

(** *** The operations *)

Section Facts.
Context {X R : Type} `{Eu : Entity R, Ur : !UserRow R, En : !Engine R, Enk : !EngineOk R, Euk : !EntityOk R, Urk : !UserRowOk R}.
Context `{Lu : !Lens X (table R), Lk : !Lens X (table UserPubkey), Le : !Lens X Env}.
Context `{Due : !Disjoint_lens X (table R) Env, Dke : !Disjoint_lens X (table UserPubkey) Env, Dku : !Disjoint_lens X (table UserPubkey) (table R)}.
Context `{Ek : !Engine UserPubkey, Eko : !EngineOk UserPubkey, Tx : !Transactions}.
Context `{Kc : !KeyChecks OpLogPubKey X, Kco : !KeyChecksOk OpLogPubKey X, Di : !Digest, Sc : !StringCoding}.
Implicit Types (o : Op OpLogPubKey) (x : X).

(** The user is found without a change of the keys. *)
Lemma spec_find_user id idIsLogin (Q : option R * option error -> Op OpLogPubKey -> X -> Prop) o x :
  (forall e o' x', oplogs o' = oplogs o -> keys x' = keys x -> Q (None, Some e) o' x') ->
  (forall u x', u ∈ rows (view (A := table R) x) -> identified id idIsLogin u -> keys x' = keys x -> Q (Some u, None) o x') ->
  spec (UserController.FindUser (R := R) id idIsLogin) Q o x.
Proof.
  intros He Hf.
  assert (Hby : forall name field missing, assignable (R := R) field (VStr id) = true ->
    (forall u : R, column field u = Some (VStr id) -> identified id idIsLogin u) ->
    spec (UserController.find_by (R := R) name field id missing) Q o x).
  { intros name field missing Ha Hc. unfold UserController.find_by, UserController.failed. spec_go. apply spec_read_with.
    intros row e E.
    assert (Hk : keys (put (queried (rows (view (A := table R) x)) (view x)) x) = keys x) by (unfold keys; by rewrite view_put_l).
    destruct e as [e|]; cbn; spec_go; [by apply He|]. destruct row as [u|]; cbn; spec_go.
    - destruct E as [Hin Hm]. rewrite matches_singleton in Hm. apply bool_decide_eq_true in Hm. apply Hf; auto.
    - apply He; [|done]. unfold with_code. by destruct (genericError o). }
  unfold UserController.FindUser, UserController.FindByLogin, UserController.Find, identified in *.
  destruct (OptionalArg false idIsLogin); apply Hby.
  - apply login_assignable.
  - intros u. rewrite login_column. by intros [= ->].
  - apply id_assignable.
  - intros u. rewrite id_column. by intros [= ->].
Qed.

Lemma committed_tx base tx : committed base tx base = tx.
Proof. unfold committed. by rewrite decide_True. Qed.

Lemma spec_within {A} base (body : M (St OpLogPubKey (InTx X)) A) (Q : A * list UserPubkey -> Op OpLogPubKey -> X -> Prop) o x :
  spec body (fun a o' s' => Q (a, s'.2) o' s'.1) o (x, base) -> spec (within base body) Q o x.
Proof.
  intros Hb t. specialize (Hb t). cbv zeta in *. unfold within. cbn [st_trace st_op st_ext].
  by destruct (body _) as [a [t' o' s']].
Qed.

Lemma spec_Transaction {A} (body : M (St OpLogPubKey (InTx X)) (option error * A)) a0 (Q : option error * A -> Op OpLogPubKey -> X -> Prop) o x :
  (forall e x', keys x' = keys x -> Q (Some e, a0) o x') ->
  spec body (fun r o' s' =>
    (forall e a x1, keys x1 = s'.2 -> Q (Some e, a) o' x1) /\
    (r.1 = None -> forall x1, keys x1 = committed (keys x) (keys s') s'.2 -> Q (None, r.2) o' x1)) o (x, keys x) ->
  spec (Transaction body a0) Q o x.
Proof.
  intros He Hb. unfold Transaction, set_keys.
  apply spec_bind, spec_on. unfold wp, gets. cbn [fst snd]. rewrite put_view.
  destruct (tx_begin _) as [e|].
  - spec_go. apply spec_on. unfold wp, modify. cbn. spec_go. apply He. unfold keys. by rewrite view_put.
  - apply spec_bind, spec_within. eapply spec_mono, Hb. intros [err a] o' s' [Hf Hs]. cbn [fst snd] in *.
    apply spec_bind, spec_on. unfold wp, gets. cbn [fst snd]. rewrite put_view.
    destruct err as [e|]; [|destruct (tx_commit _)]; spec_go; apply spec_on; unfold wp, modify; cbn; spec_go.
    + apply Hf. unfold keys. by rewrite view_put.
    + apply Hf. unfold keys. by rewrite view_put.
    + apply Hs; [done|]. unfold keys. by rewrite view_put.
Qed.
(** What [AddPubKey] leaves: with an error the keys that were there, else the new key of a user. *)
Definition add_post (userId key : string) (idIsLogin : list bool) x (r : string * option error) x' : Prop :=
  one_active (keys x') /\
  match r with
  | (id, Some _) => id = "" /\ keys x' = keys x
  | (id, None) => exists u doc, u ∈ rows (view (A := table R) x) /\ identified userId idIsLogin u /\ valid_key (P := OpLogPubKey) (X := X) key /\
      Db.GetID doc = id /\ added (Db.GetID u) key (keys x) (keys x') doc
  end.

Lemma spec_AddPubKey userId key idIsLogin o x :
  one_active (keys x) -> spec (AddPubKey (R := R) userId key idIsLogin) (fun r _ x' => add_post userId key idIsLogin x r x') o x.
Proof.
  intros Hinv. assert (Hf : forall e x', keys x' = keys x -> add_post userId key idIsLogin x ("", Some e) x') by (intros e x' Hk; split; [by rewrite Hk|done]).
  unfold AddPubKey. apply spec_traced_exit. intros c. apply spec_bind, check_key. intros r o' _ Hv.
  destruct r as [e|]; [spec_go; by apply Hf|]. apply spec_bind, spec_find_user.
  - intros e o1 x1 _ Hk. spec_go. by apply Hf.
  - intros u x1 Hin Hid Hk. apply spec_bind, spec_Transaction; [intros e x2 Hk2; spec_go; apply Hf; congruence|].
    rewrite <- Hk in *. apply spec_add_key; [done|done| |].
    + intros e doc o2 s2 Hr. split; [|done]. intros e' a x3 Hk3. spec_go. apply Hf. cbn in Hr. congruence.
    + intros doc o2 s2 Hr Hone Hadd. cbn in Hr. rewrite Hr. split; [intros e' a x3 Hk3; spec_go; apply Hf; congruence|].
      rewrite committed_tx. intros _ x3 Hk3. spec_go.
      split; cbn; rewrite Hk3; [done|]. exists u, doc. rewrite <- Hk. split_and!; [done..|by apply Hv|done|done].
Qed.

(** What [DeactivatePubKey] leaves. *)
Lemma spec_DeactivatePubKey userId keyId idIsLogin o x :
  one_active (keys x) ->
  spec (DeactivatePubKey (R := R) userId keyId idIsLogin) (fun r _ x' => one_active (keys x') /\
    match r with
    | Some _ => keys x' = keys x
    | None => exists u, u ∈ rows (view (A := table R) x) /\ identified userId idIsLogin u /\ deactivated (Db.GetID u) (keys x) (keys x')
    end) o x.
Proof.
  intros Hinv. unfold DeactivatePubKey. apply spec_traced_exit. intros c. apply spec_bind, spec_find_user.
  - intros e o1 x1 _ Hk. spec_go. by rewrite Hk.
  - intros u x1 Hin Hid Hk. apply spec_bind. rewrite <- Hk in Hinv. apply spec_deactivateKey; [done|done| |].
    + intros e x2 [Hk2 _]. spec_go. rewrite Hk2, Hk. split; [by rewrite <- Hk|done].
    + intros o2 x2 _ _ Hd Hone _. spec_go. split; [done|]. exists u. by rewrite <- Hk.
Qed.

(** [FindActivePubKey] returns the active key of the user. *)
Lemma spec_FindActivePubKey userId idIsLogin o x :
  spec (FindActivePubKey (R := R) userId idIsLogin) (fun r _ x' => keys x' = keys x /\
    match r with
    | (Some k, None) => k ∈ keys x /\ ACTIVE k = true /\
        exists u, u ∈ rows (view (A := table R) x) /\ identified userId idIsLogin u /\ PublicKeyOwner k = Db.GetID u
    | (_, e) => e <> None
    end) o x.
Proof.
  unfold FindActivePubKey. apply spec_traced_exit. intros c. apply spec_bind, spec_find_user.
  - intros e o1 x1 _ Hk. by spec_go.
  - intros u x1 Hin Hid Hk. apply spec_bind, (spec_read_cases (Ro := direct)); [done|..].
    + apply typed_insert; [done|by apply typed_singleton].
    + intros b e k x2 [Hk2 _]. spec_go. by rewrite Hk2.
    + intros k x2 Hk2 Hm [Hx _]. apply matches_active in Hm as [Ha Ho]. cbn [negb]. spec_go. cbn [fst snd]. rewrite Hx. rewrite <- Hk. split_and!; [done..|]. by exists u.
    + intros x2 _ [Hx _]. cbn [negb]. spec_go. by rewrite Hx.
Qed.

(** [C24] Adding a key.  [AddPubKey] succeeds only for a key that the manager of signatures accepts and
    for a stored user with that identifier (or login).  Then the identifier it returns is that of a new
    row, active, with the key and its hash and that user as the owner; no key of the user with that hash was
    there; every key of the user that was active has been turned off and nothing else of any key has
    changed.  With an error, of the key, the user, a query, or the begin or commit of the transaction,
    the keys are those before. *)
Theorem AddPubKey_effect (userId key : string) (idIsLogin : list bool) (st : St OpLogPubKey X) :
  one_active (keys (st_ext st)) ->
  let '(r, st') := AddPubKey (R := R) userId key idIsLogin st in add_post userId key idIsLogin (st_ext st) r (st_ext st').
Proof.
  destruct st as [t o x]. intros Hinv. pose proof (spec_AddPubKey userId key idIsLogin o x Hinv t) as HS.
  by destruct (AddPubKey _ _ _ _) as [r [t' o' x']].
Qed.

(** The operations of the controller, with any arguments, in any order. *)
Inductive step : St OpLogPubKey X -> St OpLogPubKey X -> Prop :=
| step_add userId key idIsLogin st : step st (AddPubKey (R := R) userId key idIsLogin st).2
| step_deactivate userId keyId idIsLogin st : step st (DeactivatePubKey (R := R) userId keyId idIsLogin st).2
| step_find userId idIsLogin st : step st (FindActivePubKey (R := R) userId idIsLogin st).2
| step_other st st' : keys (st_ext st') = keys (st_ext st) -> step st st'.

Lemma step_one_active st st' : step st st' -> one_active (keys (st_ext st)) -> one_active (keys (st_ext st')).
Proof.
  assert (Hr : forall (A : Type) (m : M (St OpLogPubKey X) A) (s : St OpLogPubKey X), spec m (fun _ _ x' => one_active (keys x')) (st_op s) (st_ext s) ->
    one_active (keys (st_ext (m s).2))).
  { intros A m [t o x] HS. specialize (HS t). by destruct (m _) as [r [t' o' x']]. }
  intros [userId key l s|userId keyId l s|userId l s|s s' Hk] Hinv; [apply Hr..|by rewrite Hk].
  - eapply spec_mono, spec_AddPubKey, Hinv. by intros r o' x' [? _].
  - eapply spec_mono, spec_DeactivatePubKey, Hinv. by intros r o' x' [? _].
  - eapply spec_mono, spec_FindActivePubKey. intros r o' x' [Hk _]. by rewrite Hk.
Qed.

(** [C23] One active key.  From any state in which no user has two active keys, in every state that
    additions, deactivations and reads of keys reach, with any arguments and whichever queries and
    transactions fail, no user has two active keys. *)
Theorem reachable_one_active (st st' : St OpLogPubKey X) :
  one_active (keys (st_ext st)) -> rtc step st st' -> one_active (keys (st_ext st')).
Proof. intros Hinv Hs. induction Hs; [done|]. eauto using step_one_active. Qed.
End Facts.
