(* ===== verification/SignatureDemo.v ===== *)
(** * Signed requests and keys of users, in concrete tables

    The theorems of Signature and Pubkey applied: keys whose signatures are the key followed by the
    sum, tables in memory, a user who signs a request, and who replaces a key. *)
From S2P Require Import Prelude Utils Common Errors OpContext Db Crud Auth Crypt AuthParams Session Users AuthMethods Signature Pubkey.
From Stdlib Require Import Ascii.
Open Scope go_scope.

Module SignatureDemo.
#[export] Existing Instances AuthParameterEncryptionBase.demo_cipher AuthParameterEncryptionBase.demo_cipher_ok.
#[export] Existing Instances UsersDemo.users_db UsersDemo.users_db_ok.

(** A pem text is the letter P and the key; a key signs by being put before the sum. *)
#[export] Instance toy_rsa : RsaLib := {|
  PublicKey := string; PrivateKey := string;
  pem_Decode s := match s with
                  | String "P" rest => Some ("PUBLIC KEY", rest)
                  | String "S" rest => Some ("RSA PRIVATE KEY", rest)
                  | _ => None
                  end;
  ParsePKIXPublicKey b := inl (Some b);
  DecryptPEMBlock b _ := inl b;
  ParsePKCS1PrivateKey b := inl b;
  ParsePKCS8PrivateKey b := inl (Some b);
  VerifyPKCS1v15 key hash sig := if decide (sig = key +:+ hash) then None else Some (Native "crypto/rsa: verification error");
  SignPKCS1v15 key hash := inl (key +:+ hash);
  key_pair pub priv := pub = priv
|}.
#[export] Instance toy_rsa_ok : RsaLibOk.
Proof. intros pub priv hash sig -> [= <-]. cbn. by rewrite decide_True. Qed.

(** ** A signed request *)

Record World := { w_signatures : table MessageSignature; w_request : AuthContext; w_env : Env }.
#[export] Instance signatures_lens : Lens World (table MessageSignature).
Proof. by refine {| view := w_signatures; put a w := {| w_signatures := a; w_request := w_request w; w_env := w_env w |} |}; try intros []. Defined.
#[export] Instance request_lens : Lens World AuthContext.
Proof. by refine {| view := w_request; put a w := {| w_signatures := w_signatures w; w_request := a; w_env := w_env w |} |}; try intros []. Defined.
#[export] Instance env_lens : Lens World Env.
Proof. by refine {| view := w_env; put a w := {| w_signatures := w_signatures w; w_request := w_request w; w_env := a |} |}; try intros []. Defined.
#[export] Instance signatures_env : Disjoint_lens World (table MessageSignature) Env. Proof. by split. Qed.
#[export] Instance signatures_db : Engine MessageSignature := mem_engine UsersDemo.no_fault.
#[export] Instance signatures_db_ok : EngineOk MessageSignature := mem_engine_ok UsersDemo.no_fault.

Definition config : SignatureManagerBase.Config :=
  {| SignatureManagerBase.ALGORITHM := RSA_H256_SIGNATURE; SignatureManagerBase.ENCRYPT_MESSAGE_STORE := false;
     SignatureManagerBase.SECRET := ""; SignatureManagerBase.SALT := "" |}.
Definition manager_ : SignatureManagerBase.t := {| SignatureManagerBase.config := config; SignatureManagerBase.cipher := None |}.
Definition alice (key : option (string * string)) : AuthUser :=
  {| GetID := "u1"; Display := "Alice"; Login := "alice"; IsBlocked := false; Phone := None; Phash := None; HmacSecret := None; Pubkey := key |}.
Definition request_of (signature content : string) (key : option (string * string)) : AuthContext :=
  {| request_path := "/pay"; request_method := "POST"; request_content := content; client_ip := "10.0.0.1"; user_agent := "curl";
     precheck m := (m, None); request_headers := {[auth_header AuthSignature.SignatureProtocol AuthSignature.SignatureParameter := signature]};
     response_headers := ∅; session_ := ""; client_ := ""; authUser := Some (alice key); tenancy := None |}.
Definition state (signature content : string) (key : option (string * string)) : St unit World :=
  Build_St trace0 op_demo {| w_signatures := {| rows := []; queries := 0 |}; w_request := request_of signature content key; w_env := UsersDemo.env |}.
Definition signature_of (content : string) : string :=
  match Sign "secret1" content [] with inl s => s | inr _ => "" end.
Definition handled (signature content : string) (key : option (string * string)) :=
  AuthSignature.Handle (Sm := SignatureManagerBase.manager (P := unit) (X := World) 0 manager_) (state signature content key).

Definition key1 : option (string * string) := Some ("Psecret1", "hash1").
Example signed_accepted :
  let r := handled (signature_of "pay 10") "pay 10" key1 in
  r.1 = (true, None) /\ map MessageSignature.Message (rows (w_signatures (st_ext r.2))) = ["pay 10"].
Proof. split; vm_compute; reflexivity. Qed.
Example changed_refused : bool_decide ((handled (signature_of "pay 10") "pay 90" key1).1.2 = None) = false.
Proof. vm_compute. reflexivity. Qed.
Example keyless_passes :
  let r := handled (signature_of "pay 10") "pay 10" None in
  r.1 = (true, None) /\ bool_decide (genericError (st_op r.2) = None) = false.
Proof. split; vm_compute; reflexivity. Qed.

(** ** Keys of a user *)

Record Keys := { p_users : table UserBaseDB; p_keys : table UserPubkey; p_env : Env }.
#[export] Instance users_lens : Lens Keys (table UserBaseDB).
Proof. by refine {| view := p_users; put a w := {| p_users := a; p_keys := p_keys w; p_env := p_env w |} |}; try intros []. Defined.
#[export] Instance keys_lens : Lens Keys (table UserPubkey).
Proof. by refine {| view := p_keys; put a w := {| p_users := p_users w; p_keys := a; p_env := p_env w |} |}; try intros []. Defined.
#[export] Instance keys_env_lens : Lens Keys Env.
Proof. by refine {| view := p_env; put a w := {| p_users := p_users w; p_keys := p_keys w; p_env := a |} |}; try intros []. Defined.
#[export] Instance users_env : Disjoint_lens Keys (table UserBaseDB) Env. Proof. by split. Qed.
#[export] Instance keys_env : Disjoint_lens Keys (table UserPubkey) Env. Proof. by split. Qed.
#[export] Instance keys_users : Disjoint_lens Keys (table UserPubkey) (table UserBaseDB). Proof. by split. Qed.
#[export] Instance keys_db : Engine UserPubkey := mem_engine UsersDemo.no_fault.
#[export] Instance keys_db_ok : EngineOk UserPubkey := mem_engine_ok UsersDemo.no_fault.
#[export] Instance commits : Transactions := {| tx_begin _ := None; tx_commit n := if decide (n = 100) then Some (Native "lost") else None |}.
#[export] Instance checks : KeyChecks OpLogPubKey Keys := implementation manager_.
#[export] Instance checks_ok : KeyChecksOk OpLogPubKey Keys := implementation_ok manager_.

Definition op_keys : Op OpLogPubKey :=
  {| op_id := "op1"; op_name := "keys"; genericError := None; oplogs := []; errorManager := ErrorManagerBase.InitHttp;
     dbTransaction := false; errorAsWarn := false; writeCloseLog := true; origin := None; logs := [] |}.
Definition start : St OpLogPubKey Keys :=
  Build_St trace0 op_keys {| p_users := {| rows := [UsersDemo.user]; queries := 0 |}; p_keys := {| rows := []; queries := 0 |}; p_env := UsersDemo.env |}.
Definition add (key : string) := AddPubKey (R := UserBaseDB) (X := Keys) "alice" key [true].
Definition after1 : St OpLogPubKey Keys := (add "Pkey1" start).2.
Definition after2 : St OpLogPubKey Keys := (add "Pkey2" after1).2.
Definition shown (s : St OpLogPubKey Keys) : list (string * bool) := map (fun k => (PublicKey_ k, ACTIVE k)) (rows (p_keys (st_ext s))).

Example key_replaced : shown after2 = [("Pkey1", false); ("Pkey2", true)].
Proof. vm_compute. reflexivity. Qed.
Example key_twice : bool_decide ((add "Pkey1" after2).1.2 = None) = false /\ shown (add "Pkey1" after2).2 = shown after2.
Proof. split; vm_compute; reflexivity. Qed.
(** A transaction that fails takes back what went through it; what is written without the
    transaction in the context stays. *)
Definition off_then_fail (in_context : bool) : M (St OpLogPubKey (InTx Keys)) (option error * UserPubkey) :=
  SetDbTransaction in_context ;;
  let* err := deactivateKey (R := UserBaseDB) 0 UsersDemo.user [] in
  SetDbTransaction false ;; ret (Some (Native "later error"), NewKey).
Example rolled_back :
  shown (Transaction (off_then_fail true) NewKey after2).2 = shown after2 /\
  shown (Transaction (off_then_fail false) NewKey after2).2 = [("Pkey1", false); ("Pkey2", false)].
Proof. split; vm_compute; reflexivity. Qed.
End SignatureDemo.

Import SignatureDemo.

Lemma signature_checks_witness :
  let s := state (signature_of "pay 10") "pay 10" key1 in
  exists row, SignatureManagerBase.signatures (st_ext (handled (signature_of "pay 10") "pay 10" key1).2) = [row] /\
    SignatureManagerBase.kept manager_ (alice key1) "hash1" (signature_of "pay 10") "pay 10" ["POST"; "/pay"] (st_op s) row.
Proof.
  intros s. pose proof (SignatureManagerBase.signature_checks 0 manager_ s eq_refl) as H. cbv zeta in H.
  fold (handled (signature_of "pay 10") "pay 10" key1) in *.
  assert (E : (handled (signature_of "pay 10") "pay 10" key1).1 = (true, None)) by (vm_compute; reflexivity).
  assert (G : bool_decide (genericError (st_op (handled (signature_of "pay 10") "pay 10" key1).2) = None) = true) by (vm_compute; reflexivity).
  apply bool_decide_eq_true in G.
  change (AuthSignature.Handle s) with (handled (signature_of "pay 10") "pay 10" key1) in H.
  destruct (handled _ _ _) as [r s']. cbn [fst snd] in *. subst r. destruct H as [(u & h & row & _ & _ & Hu & (key & pub & Hp & _) & Hk & Hr)|(_ & [[Hf _]|[Hf|[Hf _]]])].
  - injection Hu as <-. injection Hp as _ <-. exists row. exact (conj Hr Hk).
  - discriminate Hf.
  - destruct (Hf eq_refl).
  - destruct (Hf G).
Defined.

Lemma AddPubKey_effect_witness :
  one_active (keys (st_ext after1)) /\
  add_post (R := UserBaseDB) "alice" "Pkey2" [true] (st_ext after1) (add "Pkey2" after1).1 (st_ext after2) /\
  bool_decide ((add "Pkey2" after1).1.2 = None) = true.
Proof.
  assert (Hok : one_active (keys (st_ext after1))).
  { unfold after1, add. refine (step_one_active (R := UserBaseDB) start _ (step_add _ _ _ start) one_active_nil). }
  split; [exact Hok|]. split; [|vm_compute; reflexivity].
  pose proof (AddPubKey_effect (R := UserBaseDB) "alice" "Pkey2" [true] after1 Hok) as H.
  unfold after2, add. destruct (AddPubKey _ _ _ _) as [r s']. exact H.
Defined.

Lemma reachable_one_active_witness : one_active (keys (st_ext after2)).
Proof.
  unfold after2, after1, add. refine (reachable_one_active (R := UserBaseDB) start _ one_active_nil _).
  exact (rtc_l _ _ _ _ (step_add _ _ _ start) (rtc_once _ _ (step_add _ _ _ _))).
Defined.
